(* ===== verification/_CoqProject ===== *)
-Q . S2P
Prelude.v
Decimal.v
Hex.v
Bytes.v
Crypto.v
Voucher.v
Store.v
Collapse.v
Backlog.v
Session.v
Billing.v
Meter.v
ChainTypes.v
Stops.v
Sweep.v
Pending.v
Settler.v
Ledger.v
Books.v
Json.v
CreatePolicy.v
Guard.v
Config.v
Daytona.v
Seal.v
Registry.v
Http.v
Auth.v
Broker.v
Funding.v
Gate.v
Access.v
Reserve.v
Chain.v
Wiring.v
Alert.v
Indexer.v
Daemon.v
Startup.v
Console.v
Identity.v
Attestor.v
Relay.v
Issuer.v
Serving.v
Solvency.v
Custody.v
Batch.v
Payout.v
Onchain.v
Node.v
Tee.v
Keys.v
Info.v
Operator.v
Request.v
Wallet.v
Beacon.v
Deploy.v
Mock.v
Tools.v
Settings.v
Hub.v
Front.v
