(* ===== verification/Prelude.v ===== *)
(** * Verification of the 0g-sandbox services: root file

    0G Sandbox rents isolated Daytona workspaces.  The billing service (a proxy
    in front of Daytona, run in a TEE) authenticates wallets, gates creates on
    prepaid balance, signs usage vouchers and settles them on chain; a broker
    tops balances up; the settlement contract holds the money.  This library
    models both services' Go code, the contract and the command-line tools, and
    proves what users, providers and operators rely on.

    ** The program and its parts

    A wallet's request passes authentication (internal/auth), then the proxy
    (internal/proxy): a create is checked against the create policy, gated on
    balance minus debt minus reservations, possibly sealed with a certificate,
    and forwarded to Daytona.  A created or started sandbox gets a billing
    session; the generator turns elapsed time into usage vouchers on a Redis
    queue (internal/billing).  The settler (internal/settler) takes them off the
    queue, sweeps users who cannot pay into held lists, collapses, signs and
    submits batches through the chain client (internal/chain), keeps a record of
    the transaction in flight, and orders stops for users who ran out.  The
    billing daemon (cmd/billing) carries out the stops, recovers them after a
    crash and serves the operators' endpoints.  The broker (internal/broker,
    internal/indexer, cmd/broker) watches the sessions providers register, asks
    the payment layer for deposits, and relays browsers to providers.  Redis is
    the only durable state of the services and is shared by all.

    On chain, SandboxServing holds a balance per user and provider, a pending
    refund and a nonce each, and the providers' earnings and services; it asks
    TappRegistry which keys are an app's and whom a user acknowledged.  A daemon
    takes its keys from the local tapp (internal/tee), publishes them through
    GET /api/info, and the operator's tool (cmd/provider) registers, rotates and
    removes services with them.  The user's tool (cmd/user) deposits,
    acknowledges, and signs the API requests.

    ** Files

    Foundations.  Prelude: tactics, hint databases, list and sum lemmas, [res]
    (a Go result: value, error, panic) and 64-bit wrap-around.  Decimal, Hex,
    Bytes: the text and byte encodings of strconv, common.Address and math/big.
    Crypto: Keccak and ECDSA as classes with laws, and a toy instance.  Store:
    the Redis state by key family, the [world], the monad [M C A] of effectful
    code over any outside state [C], and the reasoning principles below.  Json:
    bodies as encoding/json reads them.

    Vouchers and settlement.  Voucher (internal/voucher/types.go, eip712.go,
    kmsprovider.go), Collapse (collapse.go), Backlog (aggregate.go, dlq.go),
    Session (internal/billing/session.go, reserved.go, signer.go), Billing
    (events.go, generator.go: one tick), Meter (the generator's loop), ChainTypes (the chain as the settler sees it),
    Stops (internal/settler/handler.go), Sweep (aggregator.go), Pending
    (pendingtx.go), Settler (consumer.go), Ledger and Books (the accounting that
    the conservation theorems use), Chain (internal/chain/client.go), Wiring
    (the client implements the settler's interface).

    The proxy.  CreatePolicy (internal/proxy/createpolicy.go, ports.go,
    owner.go), Guard (pathguard.go, responsescrub.go), Seal (seal.go, eip712.go),
    Issuer (internal/chain/seal_issuer.go), Http (the reverse proxy's hooks),
    Auth (internal/auth), Gate (handler.go: create and start), Access (handler.go:
    every other route), Reserve (reservations from the gate to the billing hook),
    Daytona (internal/daytona), Registry (internal/registry), Attestor
    (attestortls.go).

    The daemons.  Settings (internal/config: where a setting comes from, over
    viper's documented precedence), Config (the rules a configuration passes),
    Startup (prices, handlers and the app owner in cmd/billing/main.go), Daemon
    (stop handler, recovery, shutdown), Console (operator and public read
    endpoints), Identity (cmd/billing/attestor.go), Alert (internal/alert,
    internal/observability), Front (the daemon from its settings to its router,
    middleware and generator).

    The broker.  Broker (internal/proxy/broker.go, internal/broker/session.go),
    Funding (payment.go, monitor.go), Relay (relayguard.go, the relay route),
    Indexer (internal/indexer), Hub (cmd/broker: the process, its routes and
    goroutines), Mock (cmd/mock-payment, the stand-in payment service).

    The contract.  Serving (contracts/src/SandboxServing.sol: storage, every entry
    point and view, messages with reentrant payments, reverts), Solvency (the
    money adds up), Custody (a nonce is charged once, a user's money is his),
    Batch (the memo of a batch, the pin of a KMS provider), Payout (settlements
    return, refunds are paid; the toy registry and chain), Onchain (what the Go
    signer signs is what the contract checks), Node (an Ethereum node over the
    contract as an instance of the chain client's classes), Beacon
    (contracts/src/proxy: many accounts, the beacon, the proxies and the
    implementation behind them), Deploy (cmd/deploy and cmd/upgrade over it).

    Keys and tools.  Tee (internal/tee), Keys (client.go's construction and the
    start-up identity in cmd/billing/main.go), Info (GET /api/info and its
    readers), Operator (cmd/provider on the contract), Request (the requests both
    tools sign, up to the service's answer), Wallet (cmd/user on the contract and
    the registry), Tools (cmd/verify, cmd/checkbal, cmd/checkuserbal, and how the
    two large tools choose a command).

    Every definition that models code names its file, lines and symbol in its
    doc comment; it keeps the source's name where that is free.

    ** How effects are modelled

    [M C A] is [world C -> res A * world C].  Each Redis round trip consumes one
    event of [w_net]: it works, fails before the server saw it, loses its reply,
    or runs after an arbitrary step of other clients.  WATCH/MULTI/EXEC sees such
    steps.  [quiet] is a network without events; a theorem without that
    hypothesis holds for every fault and interleaving between commands.
    Operations on the chain, Daytona, the registry, the payment layer and the
    key generator are class methods on [C] whose laws are stated as classes and
    instantiated in the examples.  The chain client's class is an interface:
    Settler, Sweep, Pending and Books are proved against it and Chain and Wiring
    discharge it.  Integers are [Z]; 64-bit wrap-around is written out where the
    code can reach it; the contract's checked 256-bit arithmetic panics where
    Solidity's does.  A contract call is [chain R -> res (A * chain R)], so a
    revert leaves nothing behind; a payment runs any calls of its recipient
    before it returns.  At the tools' desk each request to the node may be
    preceded by other people's calls, or fail.  The clock is in whole seconds, or in nanoseconds where
    the code compares finer.  Durations and expiries that are whole seconds make
    the two agree.

    Store's principles: [guarantees G m] (every Redis step of [m] is a [G]-step,
    whatever the network does), [in_watch] (what a WATCH transaction knows),
    [outside m] ([m] leaves Redis alone), and hint databases for each.

    ** What the theorems show

    Money.  A drain of the queue and the recovery after a crash neither lose nor
    double-charge usage (Books, also over the real chain client in Wiring);
    collapsing and splitting the backlog conserve amounts and the split is
    maximal (Collapse, Backlog); elapsed time is billed exactly in a tick and over
    any run of the generator (Billing, Meter); nonces
    are fresh and reservations are not oversubscribed (Session); a create is
    covered by the balance and its reservation is given back by the billing hook
    (Gate, Reserve).  The contract's ether covers everything it owes after any
    calls, reentrant ones included (Solvency); a voucher is charged once and
    strangers cannot touch a user's money (Custody); a batch is judged as its
    vouchers would be one by one (Batch); a batch of a solvent contract never
    reverts, and a refund asked for in time is paid (Payout).  A voucher the Go
    signer made passes the contract's checks (Onchain), and the client reads off a
    receipt what the contract did (Node).  Behind its proxy and beacon the contract
    keeps all that through upgrades (Beacon); the tools deploy it initialized for
    the deployer, and an upgrade takes effect and leaves everybody's money where it
    is (Deploy).

    Identity.  Vouchers, certificates and attestor statements verify to the
    signing key (Voucher, Seal, Attestor); a certificate names the image the
    sandbox runs (Gate), an issuer one block attests (Issuer), and the attestor's
    registration never changes silently (Identity); an authenticated request was
    signed for this provider and is good once (Auth); a broker request needs the
    provider's signature (Broker).  Pins and provider keys come from attested nodes
    (Tee), the daemon signs with the key it announces (Keys) and speaks with that
    one key everywhere (Front), a session in the broker's Redis came with its
    provider's signature (Hub), and a KMS provider
    gets from the tapp through /api/info and the operator's tool onto the contract
    (Operator); the contract settles for it only as long as the app is the
    instance it was bound to (Batch).

    The tools.  The operator's tool cannot touch users' money and a rotation hands
    a service over (Operator); what a tool signs is served by the daemon it was
    signed for, and is good for nothing else (Request); an acknowledgement is
    informed and takes effect, a deposit is credited in full, discovery finds
    every provider (Wallet).

    Access.  Strangers reach no sandbox and no operator endpoint; a sealed
    sandbox has no open channel; forwarded bodies carry only what the policy
    allows (Access, Console, CreatePolicy, Guard); without a wallet's signature the
    whole daemon can only be looked at (Front).

    Liveness and ends.  A stop order survives until there is evidence that the
    sandbox stopped, recovery handles each in a bounded number of steps and never
    gives up on one (Daemon); a deposit never stays in flight (Funding); a relayed
    request ends (Relay); a restart of the broker serves the index the last process
    served (Indexer, Hub); the queue monitor alarms after two high samples (Alert).

    Data.  A loaded configuration is well-formed (Config), and services started
    from the same settings talk to the same chain, contract and Redis (Settings);
    pages of events are
    slices of the reference list within 64 bits (Chain).

    Closed counterexamples show where the code does less than its comments say;
    each is a theorem in the file of its component.

    ** Fuel and bounds

    Loops that poll take their number of polls from the code (the stop wait has
    at most 60 polls, a deposit [poll_ticks]).  The server-driven pagination of
    Daytona takes a number of pages; [list_sandboxes_complete] shows that as many
    as the server has is enough.  [drain] takes a number of rounds and
    polls; its theorems hold for every number, and the AggregateCovered retry
    count is the code's.  Everything else is structural.

    ** Not modelled

    Log lines, what the tools print, alert and event message texts,
    Prometheus-style counters.  TLS, transport options and the hop-by-hop headers
    of the reverse proxy in front of Daytona; which credentials an image import
    shows to whom is modelled, what a registry makes of them is its answer.
    Dialling a connection and the transaction options of a submission are the
    libraries'.  Gas.  TappRegistry's source is not here: it is a class with laws.
    Static pages, and the order in which the processes stop their goroutines
    after the shutdown's archive, when nothing but the process is left to end.
    web, sdk and scripts are user interfaces over the modelled services, in other
    languages.  The bindings in internal/chain are generated code and enter as
    classes.

    ** What is left

    Of the repository's own Go code that decides, signs, stores or moves
    something nothing is left out but what is named above; what remains is
    presentation: usage texts and the box around a command's output.  A further
    step would be the rules of TappRegistry, when its source is part of the
    repository. *)

From Stdlib Require Export ZArith Lia Ascii String Bool.
From stdpp Require Export base list strings gmap sets sorting.

#[global] Open Scope Z_scope.
#[global] Open Scope list_scope.

(** ** Tactics and hint databases *)

Create HintDb sandbox.
Create Rewrite HintDb sandbox_rw.

(** Case analysis on the outermost [match]/[if] scrutinee of the goal or of a
    hypothesis, keeping its equation. *)
Ltac case_match_eq :=
  match goal with
  | |- context [match ?x with _ => _ end] => let E := fresh "E" in destruct x eqn:E
  | H : context [match ?x with _ => _ end] |- _ => let E := fresh "E" in destruct x eqn:E
  end.

(** Turns boolean comparisons in the context into propositions. *)
Ltac zbool :=
  repeat match goal with
  | H : (_ <? _) = true |- _ => apply Z.ltb_lt in H
  | H : (_ <? _) = false |- _ => apply Z.ltb_ge in H
  | H : (_ <=? _) = true |- _ => apply Z.leb_le in H
  | H : (_ <=? _) = false |- _ => apply Z.leb_gt in H
  | H : (_ =? _) = true |- _ => apply Z.eqb_eq in H
  | H : (_ =? _) = false |- _ => apply Z.eqb_neq in H
  | H : (_ && _) = true |- _ => apply andb_true_iff in H; destruct H
  | H : (_ || _) = false |- _ => apply orb_false_iff in H; destruct H
  | H : negb _ = true |- _ => apply negb_true_iff in H
  | H : negb _ = false |- _ => apply negb_false_iff in H
  | H : bool_decide _ = true |- _ => apply bool_decide_eq_true in H
  | H : bool_decide _ = false |- _ => apply bool_decide_eq_false in H
  end.

Ltac zlia := zbool; lia.

(** ** Sums of integers over lists *)

Definition zsum {A} (f : A -> Z) (l : list A) : Z := foldr (fun x s => f x + s) 0 l.

#[global] Arguments zsum : simpl never.

Section ZSum.
Context {A : Type}.
Implicit Types (f g : A -> Z) (l : list A).

Lemma zsum_nil f : zsum f [] = 0.
Proof. done. Qed.

Lemma zsum_cons f x l : zsum f (x :: l) = f x + zsum f l.
Proof. done. Qed.

Lemma zsum_one f x : zsum f [x] = f x.
Proof. rewrite zsum_cons. apply Z.add_0_r. Qed.

Lemma zsum_app f l l' : zsum f (l ++ l') = zsum f l + zsum f l'.
Proof. induction l as [|x l IH]; [done|]. rewrite <- app_comm_cons, !zsum_cons, IH. lia. Qed.

Lemma zsum_nonneg f l : Forall (fun x => 0 <= f x) l -> 0 <= zsum f l.
Proof. induction 1; rewrite ?zsum_cons, ?zsum_nil; lia. Qed.

Lemma zsum_ext f g l : (forall x, x ∈ l -> f x = g x) -> zsum f l = zsum g l.
Proof.
    induction l as [|x l IH]; intros H; [done|].
    rewrite !zsum_cons, H, IH; [done| |]; intros; try apply H; set_solver.
Qed.

Lemma zsum_Permutation f l l' : Permutation l l' -> zsum f l = zsum f l'.
Proof. induction 1; rewrite ?zsum_cons in *; lia. Qed.

Lemma zsum_filter_split f (P : A -> Prop) `{forall x, Decision (P x)} l :
    zsum f l = zsum f (filter P l) + zsum f (filter (fun x => ~ P x) l).
Proof.
    induction l as [|x l IH]; [done|].
    rewrite zsum_cons, IH, !filter_cons.
    repeat case_decide; try tauto; rewrite ?zsum_cons; lia.
Qed.

Lemma zsum_map {B} (h : B -> A) f (l : list B) : zsum f (h <$> l) = zsum (f ∘ h) l.
Proof. induction l as [|x l IH]; [done|]. rewrite fmap_cons, !zsum_cons, IH. done. Qed.

Lemma zsum_add f g l : zsum (fun x => f x + g x) l = zsum f l + zsum g l.
Proof. induction l as [|x l IH]; rewrite ?zsum_cons; [done|]. lia. Qed.
End ZSum.

#[export] Hint Rewrite @zsum_nil @zsum_one @zsum_cons @zsum_app @length_app : sandbox_rw.

(** [strings.HasPrefix]. *)
Fixpoint starts_with (pre s : string) : bool :=
  match pre, s with
  | EmptyString, _ => true
  | String c pre', String d s' => bool_decide (c = d) && starts_with pre' s'
  | _, EmptyString => false
  end.

(** [strings.Contains]. *)
Fixpoint contains (s sub : string) : bool :=
  starts_with sub s || match s with EmptyString => false | String _ s' => contains s' sub end.

(** ** Results of fallible Go code

    [Ok a] is a normal return, [Err e] a non-nil [error], [Panic] a run-time
    panic (nil dereference, out-of-range access, explicit [panic]). *)

Inductive rerr :=
| EIO                   (* a Redis, RPC or HTTP round trip that failed *)
| ETxFailed             (* redis.TxFailedErr: a watched key changed *)
| ENil                  (* redis.Nil *)
| EMsg (s : string).    (* an error built by the code itself *)

#[global] Instance rerr_eq_dec : EqDecision rerr.
Proof. solve_decision. Defined.

(** [err.Error()]. *)
Definition error_text (e : rerr) : string := match e with EMsg s => s | EIO => "i/o error" | ETxFailed => "tx failed" | ENil => "redis: nil" end.

Inductive res (A : Type) :=
| Ok (a : A)
| Err (e : rerr)
| Panic.
Arguments Ok {A} a.
Arguments Err {A} e.
Arguments Panic {A}.

#[global] Instance Ok_inj A : Inj eq eq (@Ok A).
Proof. intros a b [= ->]. done. Qed.

Definition res_bind {A B} (m : res A) (k : A -> res B) : res B :=
  match m with Ok a => k a | Err e => Err e | Panic => Panic end.

(** ** Prefixes *)

Lemma take_length_le_app {A} (n : nat) (l : list A) : (length (take n l) <= length l)%nat.
Proof. rewrite length_take. lia. Qed.

Lemma Forall_take_drop {A} (P : A -> Prop) n l : Forall P l <-> Forall P (take n l) /\ Forall P (drop n l).
Proof. rewrite <- Forall_app, take_drop. done. Qed.

Lemma filter_none {A} (P : A -> Prop) `{forall x, Decision (P x)} (l : list A) :
  (forall x, x ∈ l -> ~ P x) -> filter P l = [].
Proof.
  induction l as [|x l IH]; intros Hn; [done|].
  rewrite filter_cons, decide_False by (apply Hn; left). apply IH. intros y Hy. apply Hn. by right.
Qed.

Lemma filter_all {A} (P : A -> Prop) `{forall x, Decision (P x)} (l : list A) :
  (forall x, x ∈ l -> P x) -> filter P l = l.
Proof.
  induction l as [|x l IH]; intros Hn; [done|].
  rewrite filter_cons, decide_True by (apply Hn; left). f_equal. apply IH. intros y Hy. apply Hn. by right.
Qed.

(** ** Distinct elements in order of first appearance *)

Section Distinct.
Context {A : Type} `{EqDecision A}.

Definition distinct (l : list A) : list A :=
  foldl (fun ks k => if decide (k ∈ ks) then ks else ks ++ [k]) [] l.

Lemma distinct_snoc l x :
  distinct (l ++ [x]) = if decide (x ∈ distinct l) then distinct l else distinct l ++ [x].
Proof. unfold distinct. rewrite foldl_app. done. Qed.

Lemma elem_of_distinct l x : x ∈ distinct l <-> x ∈ l.
Proof.
  induction l as [|y l IH] using rev_ind; [done|].
  rewrite distinct_snoc, elem_of_app, list_elem_of_singleton. case_decide; [|rewrite elem_of_app, list_elem_of_singleton];
    rewrite IH in *; naive_solver.
Qed.

Lemma NoDup_distinct l : NoDup (distinct l).
Proof.
  induction l as [|x l IH] using rev_ind; [constructor|].
  rewrite distinct_snoc. case_decide; [done|].
  apply NoDup_app. split; [done|]. split; [set_solver|apply NoDup_singleton].
Qed.
End Distinct.

(** The sum over a duplicate-free list of a function that is zero off [k]. *)
Lemma zsum_single {A} (f : A -> Z) (l : list A) k :
  NoDup l -> k ∈ l -> (forall x, x <> k -> f x = 0) -> zsum f l = f k.
Proof.
  intros Hnd Hk Hz. induction Hnd as [|x l Hx Hnd IH]; [set_solver|]. rewrite zsum_cons.
  apply elem_of_cons in Hk as [<-|Hk].
  - rewrite (zsum_ext f (fun _ => 0)); [|intros y Hy; apply Hz; set_solver].
    clear. induction l as [|y l IH]; rewrite ?zsum_cons, ?zsum_nil in *; lia.
  - rewrite IH, Hz by (done || set_solver). done.
Qed.

Lemma zsum_update {A} (f g : A -> Z) (l : list A) k :
  NoDup l -> k ∈ l -> (forall x, x <> k -> g x = f x) -> zsum g l = zsum f l + (g k - f k).
Proof.
  intros Hnd Hk Hz. induction Hnd as [|x l Hx Hnd IH]; [set_solver|]. rewrite !zsum_cons.
  apply elem_of_cons in Hk as [<-|Hk].
  - rewrite (zsum_ext g f); [lia|]. intros y Hy. apply Hz. set_solver.
  - rewrite IH, (Hz x) by (done || set_solver). lia.
Qed.

Lemma zsum_zero {A} (f : A -> Z) (l : list A) : (forall x, x ∈ l -> f x = 0) -> zsum f l = 0.
Proof.
  induction l as [|y l IH]; intros Hz; [done|]. rewrite zsum_cons, IH, Hz; [done|left|].
  intros x Hx. apply Hz. by right.
Qed.

Lemma filter_idemp {A} (P : A -> Prop) `{forall x, Decision (P x)} (l : list A) : filter P (filter P l) = filter P l.
Proof. apply filter_all. intros x Hx. apply list_elem_of_filter in Hx. tauto. Qed.
