(* ===== verification/Decimal.v ===== *)
(** * Decimal text: what the services read from requests and the environment

    [big.Int.SetString(s, 10)], [strconv.ParseUint(s, 10, 64)],
    [strconv.Atoi] and [fmt.Sscanf(s, "%d", &n)] of the language, and the
    decimal text [Int.String] writes ([pretty]). *)

From stdpp Require Import pretty.
From S2P Require Import Prelude.

Definition digit_of (c : ascii) : option Z :=
  let n := Z.of_nat (nat_of_ascii c) in if (48 <=? n) && (n <=? 57) then Some (n - 48) else None.

(** [(z *big.Int).String()], of the nil pointer too. *)
Definition big_text (z : option Z) : string := match z with Some z => pretty z | None => "<nil>" end.

(** The number a text of digits spells after [acc]; a character that is no
    digit is an error. *)
Fixpoint parse_digits (acc : Z) (s : string) : option Z :=
  match s with
  | EmptyString => Some acc
  | String c s' => match digit_of c with Some d => parse_digits (10 * acc + d) s' | None => None end
  end.

(** At least one digit. *)
Definition parse_nat (s : string) : option Z :=
  match s with EmptyString => None | String _ _ => parse_digits 0 s end.

(** An optional sign, then digits: [big.Int.SetString(s, 10)]. *)
Definition SetString (s : string) : option Z :=
  match s with
  | String "+"%char s' => parse_nat s'
  | String "-"%char s' => Z.opp <$> parse_nat s'
  | _ => parse_nat s
  end.

(** [strconv.ParseUint(s, 10, 64)]: no sign, and the value fits. *)
Definition ParseUint (s : string) : option Z :=
  match parse_nat s with Some n => if n <? 2 ^ 64 then Some n else None | None => None end.

(** [strconv.Atoi] on a 64-bit machine. *)
Definition Atoi (s : string) : option Z :=
  match SetString s with Some n => if (- 2 ^ 63 <=? n) && (n <? 2 ^ 63) then Some n else None | None => None end.

(** The digits at the front of a text. *)
Fixpoint digit_prefix (s : string) : string :=
  match s with
  | String c s' => match digit_of c with Some _ => String c (digit_prefix s') | None => EmptyString end
  | EmptyString => EmptyString
  end.

(** Leading ASCII blanks; a newline stops [Sscanf]. *)
Fixpoint skip_blanks (s : string) : string :=
  match s with
  | String c s' => if bool_decide (c ∈ [" "%char; "009"%char; "011"%char; "012"%char; "013"%char]) then skip_blanks s' else s
  | EmptyString => EmptyString
  end.

(** [fmt.Sscanf(s, "%d", &n)]: the signed integer at the front, whatever
    follows it. *)
Definition Sscanf_d (s : string) : option Z :=
  let fit n := if (- 2 ^ 63 <=? n) && (n <? 2 ^ 63) then Some n else None in
  match skip_blanks s with
  | String "+"%char s' => parse_nat (digit_prefix s') ≫= fit
  | String "-"%char s' => parse_nat (digit_prefix s') ≫= (fun n => fit (- n))
  | s' => parse_nat (digit_prefix s') ≫= fit
  end.

(** ** What [Int.String] writes reads back *)

Lemma digit_of_pretty x : (x < 10)%N -> digit_of (pretty_N_char x) = Some (Z.of_N x).
Proof.
  intros Hx.
  assert (x = 0 \/ x = 1 \/ x = 2 \/ x = 3 \/ x = 4 \/ x = 5 \/ x = 6 \/ x = 7 \/ x = 8 \/ x = 9)%N as Hc by lia.
  by repeat (destruct Hc as [->|Hc]; [done|]); subst.
Qed.

Lemma parse_pretty_go x s : parse_digits 0 (pretty_N_go x s) = parse_digits (Z.of_N x) s.
Proof.
  revert s. induction (N.lt_wf_0 x) as [x _ IH]. intros s.
  assert (x = 0 \/ 0 < x)%N as [->|Hx] by lia; [done|].
  rewrite pretty_N_go_step by done. rewrite IH by (by apply N.div_lt). cbn [parse_digits].
  rewrite digit_of_pretty by (apply N.mod_lt; lia). f_equal.
  rewrite N2Z.inj_div, N2Z.inj_mod. pose proof (Z.div_mod (Z.of_N x) 10). lia.
Qed.

Lemma parse_nat_nonempty s : s <> EmptyString -> parse_nat s = parse_digits 0 s.
Proof. by destruct s. Qed.

Lemma parse_pretty_N x : parse_nat (pretty x) = Some (Z.of_N x).
Proof.
  destruct (decide (x = 0)%N) as [->|Hx]; [done|]. assert (pretty x = pretty_N_go x EmptyString) as E.
  { unfold pretty, pretty_N. by rewrite decide_False. }
  assert (parse_digits 0 (pretty x) = Some (Z.of_N x)) as Hp by (rewrite E; apply parse_pretty_go).
  rewrite parse_nat_nonempty; [done|]. intros Hn. rewrite Hn in Hp. injection Hp as Hp. lia.
Qed.

(** A text that spells a number starts with no sign. *)
Lemma unsigned_text s n : parse_nat s = Some n -> SetString s = Some n.
Proof.
  destruct s as [|c s]; [done|]. intros E. unfold SetString.
  assert (forall d, digit_of d = None -> c <> d) as Hd by (intros d Hd ->; cbn in E; by rewrite Hd in E).
  pose proof (Hd "+"%char eq_refl). pose proof (Hd "-"%char eq_refl).
  destruct c as [[] [] [] [] [] [] [] []]; congruence || exact E.
Qed.

Lemma SetString_pretty z : SetString (pretty z) = Some z.
Proof.
  destruct z as [|p|p]; [done| |].
  - change (pretty (Z.pos p)) with (pretty (N.pos p)). by rewrite (unsigned_text _ _ (parse_pretty_N _)).
  - change (pretty (Z.neg p)) with (String "-" (pretty (N.pos p))). cbn. by rewrite parse_pretty_N.
Qed.

#[export] Hint Rewrite SetString_pretty : sandbox_rw.

Lemma parse_nat_nonneg s n : parse_nat s = Some n -> 0 <= n.
Proof.
  assert (forall s acc n, 0 <= acc -> parse_digits acc s = Some n -> 0 <= n) as Hd.
  { clear. induction s as [|c s IH]; intros acc n Ha E; cbn in E; [by injection E as <-|].
    unfold digit_of in E. case_match eqn:Ed; [|done]. eapply IH; [|exact E].
    destruct (_ && _) eqn:Eb in Ed; [|done]. injection Ed as <-. zlia. }
  destruct s; [done|]. by apply Hd.
Qed.

Lemma ParseUint_range s n : ParseUint s = Some n -> 0 <= n < 2 ^ 64.
Proof.
  unfold ParseUint. intros E. destruct (parse_nat s) as [m|] eqn:Em; [|done]. apply parse_nat_nonneg in Em.
  destruct (Z.ltb_spec m (2 ^ 64)); [|done]. injection E as <-. lia.
Qed.

Lemma Atoi_range s n : Atoi s = Some n -> - 2 ^ 63 <= n < 2 ^ 63.
Proof.
  unfold Atoi. intros E. destruct (SetString s) as [m|]; [|done]. destruct (_ && _) eqn:Eb in E; [|done].
  injection E as <-. zlia.
Qed.
