(* ===== verification/Hex.v ===== *)
(** * Ethereum addresses as strings

    go-ethereum's [common.Address.Hex], lower-cased with [strings.ToLower] (the
    form every Redis key of the billing core uses), [common.HexToAddress] and
    the case-insensitive comparison [strings.EqualFold].  An address is the
    integer below [2^160] its 20 bytes spell, big endian.  [Hex] itself returns
    the EIP-55 mixed-case form: only its lower-cased image is ever compared or
    used as a key, so that image is what [addr_hex] renders. *)

From S2P Require Import Prelude.

Abbreviation addr := Z.

Definition addr_bound : Z := 2 ^ 160.

Definition addr_ok (a : addr) : Prop := 0 <= a < addr_bound.

#[global] Instance addr_ok_dec a : Decision (addr_ok a).
Proof. unfold addr_ok. apply _. Defined.

(** ** Case folding ([strings.ToLower], [strings.EqualFold] on ASCII) *)

Definition lower_ascii (c : ascii) : ascii :=
  let n := nat_of_ascii c in
  if ((65 <=? n) && (n <=? 90))%nat then ascii_of_nat (n + 32) else c.

Fixpoint to_lower (s : string) : string :=
  match s with
  | EmptyString => EmptyString
  | String c s => String (lower_ascii c) (to_lower s)
  end.

Definition equal_fold (s t : string) : bool := bool_decide (to_lower s = to_lower t).

(** ** Hexadecimal digits *)

Definition hex_digit (n : Z) : ascii :=
  if n <? 10 then ascii_of_nat (Z.to_nat n + 48) else ascii_of_nat (Z.to_nat n + 87).

Definition hex_value (c : ascii) : option Z :=
  let n := Z.of_nat (nat_of_ascii c) in
  if (48 <=? n) && (n <=? 57) then Some (n - 48)
  else if (97 <=? n) && (n <=? 102) then Some (n - 87)
  else if (65 <=? n) && (n <=? 70) then Some (n - 55)
  else None.

(** [w] hex digits of [a], most significant first. *)
Fixpoint hex_digits (w : nat) (a : Z) : string :=
  match w with
  | O => EmptyString
  | S w' => String (hex_digit (a / 16 ^ Z.of_nat w' mod 16)) (hex_digits w' a)
  end.

(** [strings.ToLower(a.Hex())]. *)
Definition addr_hex (a : addr) : string := String "0" (String "x" (hex_digits 40 a)).

(** [encoding/hex.DecodeString] reading an even number of digits; a bad digit
    stops it and the bytes read before it are kept (go-ethereum's [Hex2Bytes]
    ignores the error). Digits are read two at a time. *)
Fixpoint hex_pairs (s : string) (acc : Z) : Z :=
  match s with
  | String c (String d s') =>
      match hex_value c, hex_value d with
      | Some h, Some l => hex_pairs s' (acc * 256 + h * 16 + l)
      | _, _ => acc
      end
  | _ => acc
  end.

Definition strip_0x (s : string) : string :=
  match s with
  | String "0" (String c s') => if bool_decide (c = "x"%char) || bool_decide (c = "X"%char) then s' else s
  | _ => s
  end.

(** [common.HexToAddress]: strip the prefix, left-pad an odd length, decode,
    keep the last 20 bytes. *)
Definition hex_to_address (s : string) : addr :=
  let d := strip_0x s in
  let d := if Nat.odd (String.length d) then String "0" d else d in
  hex_pairs d 0 mod addr_bound.

(** ** Lemmas *)

Lemma lower_ascii_idemp c : lower_ascii (lower_ascii c) = lower_ascii c.
Proof. destruct c as [[] [] [] [] [] [] [] []]; reflexivity. Qed.

Lemma to_lower_idemp s : to_lower (to_lower s) = to_lower s.
Proof. induction s as [|c s IH]; simpl; [done|]. rewrite lower_ascii_idemp, IH. done. Qed.

Lemma hex_digit_spec n :
  0 <= n < 16 ->
  hex_value (hex_digit n) = Some n /\ lower_ascii (hex_digit n) = hex_digit n.
Proof.
  intros [? ?].
  assert (n = Z.of_nat (Z.to_nat n)) as -> by lia.
  assert (Z.to_nat n < 16)%nat as Hlt by lia. revert Hlt. generalize (Z.to_nat n). clear.
  intros k Hk. do 16 (destruct k as [|k]; [split; reflexivity|]). lia.
Qed.

Lemma mod16_range a : 0 <= a mod 16 < 16.
Proof. apply Z.mod_pos_bound. lia. Qed.

Lemma to_lower_hex_digits w a : to_lower (hex_digits w a) = hex_digits w a.
Proof.
  induction w as [|w IH]; simpl; [done|].
  rewrite IH, (proj2 (hex_digit_spec _ (mod16_range _))). done.
Qed.

Lemma to_lower_addr_hex a : to_lower (addr_hex a) = addr_hex a.
Proof. unfold addr_hex. cbn [to_lower]. rewrite to_lower_hex_digits. done. Qed.

Lemma hex_digits_length w a : String.length (hex_digits w a) = w.
Proof. induction w; simpl; congruence. Qed.

Lemma addr_hex_length a : String.length (addr_hex a) = 42%nat.
Proof. unfold addr_hex. cbn [String.length]. rewrite hex_digits_length. done. Qed.

Lemma pow16_split (w : nat) a :
  a mod 16 ^ Z.of_nat (S w) = (a / 16 ^ Z.of_nat w mod 16) * 16 ^ Z.of_nat w + a mod 16 ^ Z.of_nat w.
Proof.
  rewrite Nat2Z.inj_succ, Z.pow_succ_r, Z.mul_comm by lia.
  rewrite Z.rem_mul_r by lia. lia.
Qed.

Lemma hex_pairs_digits (k : nat) : forall a acc,
  hex_pairs (hex_digits (2 * k) a) acc = acc * 16 ^ Z.of_nat (2 * k) + a mod 16 ^ Z.of_nat (2 * k).
Proof.
  induction k as [|k IH]; intros a acc.
  { cbn. rewrite Z.mod_1_r. lia. }
  replace (2 * S k)%nat with (S (S (2 * k))) by lia.
  rewrite (pow16_split (S (2 * k))), (pow16_split (2 * k)).
  cbn [hex_digits hex_pairs].
  rewrite !(proj1 (hex_digit_spec _ (mod16_range _))), IH.
  rewrite !Nat2Z.inj_succ, !Z.pow_succ_r by lia. lia.
Qed.

Lemma hex_to_address_addr_hex a : addr_ok a -> hex_to_address (addr_hex a) = a.
Proof.
  intros Ha. unfold hex_to_address, addr_hex, strip_0x.
  rewrite bool_decide_true by done. cbn [orb].
  rewrite hex_digits_length. cbn [Nat.odd Nat.even negb].
  change 40%nat with (2 * 20)%nat. rewrite hex_pairs_digits.
  replace (16 ^ Z.of_nat (2 * 20)) with addr_bound by reflexivity.
  unfold addr_ok in Ha. rewrite Z.mul_0_l, Z.add_0_l, !Z.mod_small; [done|lia|].
  rewrite Z.mod_small; lia.
Qed.

Lemma addr_hex_inj a b : addr_ok a -> addr_ok b -> addr_hex a = addr_hex b -> a = b.
Proof.
  intros Ha Hb E. rewrite <- (hex_to_address_addr_hex a), <- (hex_to_address_addr_hex b) by done.
  congruence.
Qed.

Lemma hex_to_address_ok s : addr_ok (hex_to_address s).
Proof. apply Z.mod_pos_bound. reflexivity. Qed.

#[export] Hint Resolve hex_to_address_ok : sandbox.
#[export] Hint Rewrite to_lower_idemp to_lower_addr_hex addr_hex_length : sandbox_rw.
