(* ===== verification/Bytes.v ===== *)
(** * Byte strings

    Big-endian encodings of integers ([big.Int.FillBytes], Solidity words),
    [copy] into a slice of a fixed buffer, and the byte view of a Go string.
    A byte is an integer in [0, 256). *)

From S2P Require Import Prelude.

Abbreviation bytes := (list Z).

Definition byte_ok (b : Z) : Prop := 0 <= b < 256.

Definition bytes_of_string (s : string) : bytes :=
  (fun c => Z.of_nat (nat_of_ascii c)) <$> list_ascii_of_string s.

(** The low [n] bytes of [x], most significant first. *)
Fixpoint be_bytes (n : nat) (x : Z) : bytes :=
  match n with
  | O => []
  | S n' => x / 256 ^ Z.of_nat n' mod 256 :: be_bytes n' x
  end.

Fixpoint be_value (l : bytes) : Z :=
  match l with
  | [] => 0
  | b :: l' => b * 256 ^ Z.of_nat (length l') + be_value l'
  end.

(** [x.FillBytes(buf)] for a buffer of [n] bytes: the absolute value, big
    endian; a panic when it does not fit. *)
Definition fill_bytes (n : nat) (x : Z) : res bytes :=
  if Z.abs x <? 256 ^ Z.of_nat n then Ok (be_bytes n (Z.abs x)) else Panic.

(** [copy(dst[lo:hi], src)]: at most [hi - lo] bytes are written. *)
Definition copy_slice (lo hi : nat) (src dst : bytes) : bytes :=
  let n := ((hi - lo) `min` length src)%nat in
  take lo dst ++ take n src ++ drop (lo + n)%nat dst.

(** ** Lemmas *)

Lemma be_bytes_length n x : length (be_bytes n x) = n.
Proof. induction n; simpl; congruence. Qed.

Lemma be_bytes_ok n x : Forall byte_ok (be_bytes n x).
Proof. induction n; constructor; [|done]. apply Z.mod_pos_bound. lia. Qed.

Lemma pow256_split (n : nat) x :
  x mod 256 ^ Z.of_nat (S n) = (x / 256 ^ Z.of_nat n mod 256) * 256 ^ Z.of_nat n + x mod 256 ^ Z.of_nat n.
Proof.
  rewrite Nat2Z.inj_succ, Z.pow_succ_r, Z.mul_comm by lia.
  rewrite Z.rem_mul_r by lia. lia.
Qed.

Lemma be_value_be_bytes n x : be_value (be_bytes n x) = x mod 256 ^ Z.of_nat n.
Proof.
  induction n as [|n IH]; [cbn; rewrite Z.mod_1_r; done|].
  rewrite pow256_split. cbn [be_bytes be_value]. rewrite IH, be_bytes_length. done.
Qed.

Lemma be_value_range l : Forall byte_ok l -> 0 <= be_value l < 256 ^ Z.of_nat (length l).
Proof.
  induction 1 as [|x l Hx _ IH]; [cbn; lia|]. cbn [be_value length]. rewrite Nat2Z.inj_succ, Z.pow_succ_r by lia.
  unfold byte_ok in Hx. nia.
Qed.

Lemma be_bytes_inj n x y :
  0 <= x < 256 ^ Z.of_nat n -> 0 <= y < 256 ^ Z.of_nat n -> be_bytes n x = be_bytes n y -> x = y.
Proof.
  intros Hx Hy E. apply (f_equal be_value) in E.
  rewrite !be_value_be_bytes, !Z.mod_small in E by done. done.
Qed.

Lemma be_bytes_zero n : be_bytes n 0 = replicate n 0.
Proof. induction n as [|n IH]; [done|]. cbn. rewrite IH, Z.div_0_l by lia. done. Qed.

(** A wide encoding of a value that fits a narrow one is that one, zero padded. *)
Lemma be_bytes_pad k n x :
  0 <= x < 256 ^ Z.of_nat n -> be_bytes (k + n)%nat x = replicate k 0 ++ be_bytes n x.
Proof.
  intros Hx. induction k as [|k IH]; [done|]. cbn [Nat.add be_bytes replicate app].
  rewrite IH. f_equal. rewrite Z.div_small; [done|].
  split; [lia|]. apply Z.lt_le_trans with (256 ^ Z.of_nat n); [lia|].
  apply Z.pow_le_mono_r; lia.
Qed.

Lemma fill_bytes_ok n x : 0 <= x < 256 ^ Z.of_nat n -> fill_bytes n x = Ok (be_bytes n x).
Proof.
  intros [? ?]. unfold fill_bytes. rewrite Z.abs_eq by done.
  destruct (Z.ltb_spec x (256 ^ Z.of_nat n)); [done|lia].
Qed.

Lemma copy_slice_length lo hi src dst :
  (lo <= hi)%nat -> (hi <= length dst)%nat -> length (copy_slice lo hi src dst) = length dst.
Proof. intros. unfold copy_slice. rewrite !length_app, !length_take, length_drop. lia. Qed.

(** Writing the slice that follows a finished prefix [p], over untouched zeros. *)
Lemma copy_slice_fresh p gap src n :
  let lo := (length p + gap)%nat in
  copy_slice lo (lo + length src)%nat src (p ++ replicate (gap + length src + n)%nat 0)
  = p ++ replicate gap 0 ++ src ++ replicate n 0.
Proof.
  intros lo. unfold copy_slice, lo.
  replace (length p + gap + length src - (length p + gap))%nat with (length src) by lia.
  rewrite Nat.min_id, take_app_ge, (firstn_all src) by lia.
  replace (length p + gap - length p)%nat with gap by lia.
  rewrite drop_app_ge by lia. rewrite take_replicate, drop_replicate.
  replace (gap `min` (gap + length src + n))%nat with gap by lia.
  replace (gap + length src + n - (length p + gap + length src - length p))%nat with n by lia.
  rewrite <- !app_assoc. done.
Qed.

Lemma copy_slice_step lo hi src p m :
  (length p <= lo)%nat -> hi = (lo + length src)%nat -> (hi - length p <= m)%nat ->
  copy_slice lo hi src (p ++ replicate m 0)
  = (p ++ replicate (lo - length p) 0 ++ src) ++ replicate (m - (hi - length p)) 0.
Proof.
  intros Hlo -> Hm.
  replace m with ((lo - length p) + length src + (m - (lo + length src - length p)))%nat at 1 by lia.
  replace lo with (length p + (lo - length p))%nat at 1 2 by lia.
  rewrite copy_slice_fresh, <- !app_assoc. done.
Qed.

#[export] Hint Rewrite be_bytes_length : sandbox_rw.
