(* ===== verification/Crypto.v ===== *)
(** * Third-party cryptography

    Keccak-256 and secp256k1 ECDSA (go-ethereum's [crypto] package and the
    EVM's [ecrecover]) as classes with their documented behaviour, and
    executable stand-ins satisfying it, used only to run the definitions on
    concrete inputs. *)

From S2P Require Import Prelude Hex Bytes.

Class Keccak := keccak256 : bytes -> bytes.

(** A Keccak-256 digest is 32 bytes. *)
Class KeccakLaws `{Keccak} := {
  keccak_length : forall b, length (keccak256 b) = 32%nat;
  keccak_bytes : forall b, Forall byte_ok (keccak256 b)
}.

(** [ecdsa_sign] is [crypto.Sign]; [sig_to_addr] is [crypto.SigToPub] followed
    by [crypto.PubkeyToAddress]; a private key is the integer it is. *)
Class Ecdsa := {
  ecdsa_sign : Z -> bytes -> res bytes;
  sig_to_addr : bytes -> bytes -> res addr;
  key_addr : Z -> addr
}.

(** [crypto.Sign] does not panic, returns R || S || V with V 0 or 1, and recovery on that
    digest returns the signing key's address; its bytes are bytes. *)
Class EcdsaLaws `{Ecdsa} := {
  sign_shape : forall k d sig, ecdsa_sign k d = Ok sig ->
    exists rs v, sig = rs ++ [v] /\ length rs = 64%nat /\ (v = 0 \/ v = 1);
  sign_no_panic : forall k d, ecdsa_sign k d <> Panic;
  sign_recover : forall k d sig, ecdsa_sign k d = Ok sig -> sig_to_addr d sig = Ok (key_addr k);
  key_addr_ok : forall k, addr_ok (key_addr k);
  sign_bytes : forall k d sig, Forall byte_ok d -> ecdsa_sign k d = Ok sig -> Forall byte_ok sig
}.

(** ** Executable stand-ins: a polynomial hash of 64 bits in 32 bytes and a
    signature that embeds the key and the digest. *)

Module Toy.

Definition pad8 (x : Z) : bytes := replicate 24 0 ++ be_bytes 8 x.

Definition toy_hash (b : bytes) : bytes :=
  pad8 (foldl (fun h x => Z.land (h * 31 + x + 1) (Z.ones 64)) 1469598103 b).

Lemma pad8_length x : length (pad8 x) = 32%nat.
Proof. unfold pad8. by rewrite length_app, be_bytes_length. Qed.

Lemma pad8_ok x : Forall byte_ok (pad8 x).
Proof. apply Forall_app. split; [by repeat constructor|apply be_bytes_ok]. Qed.

#[export] Instance toy_keccak : Keccak := toy_hash.

#[export] Instance toy_keccak_laws : KeccakLaws.
Proof. split; intros; [apply pad8_length|apply pad8_ok]. Qed.

Definition toy_sign (k : Z) (d : bytes) : res bytes :=
  if bool_decide (length d = 32%nat) then Ok ((pad8 k ++ d) ++ [0])
  else Err (EMsg "hash is required to be exactly 32 bytes").

Definition toy_recover (d sig : bytes) : res addr :=
  if bool_decide (take 32 (drop 32 sig) = d) then Ok (be_value (take 8 (drop 24 sig)) mod addr_bound)
  else Err (EMsg "recovery failed").

#[export] Instance toy_ecdsa : Ecdsa :=
  { ecdsa_sign := toy_sign; sig_to_addr := toy_recover; key_addr := fun k => k mod 2 ^ 64 mod addr_bound }.

#[export] Instance toy_ecdsa_laws : EcdsaLaws.
Proof.
  split; cbn [ecdsa_sign sig_to_addr key_addr toy_ecdsa]; unfold toy_sign, toy_recover.
  - intros k d sig E. case_bool_decide as Hd; [|done]. apply (inj Ok) in E; subst sig.
    eexists _, 0. split; [reflexivity|]. rewrite length_app, pad8_length. lia.
  - intros k d. by case_bool_decide.
  - intros k d sig E. case_bool_decide as Hd; [|done]. apply (inj Ok) in E; subst sig.
    rewrite <- app_assoc, drop_app_ge, pad8_length by (rewrite pad8_length; lia).
    cbn [Nat.sub]. rewrite drop_0, (take_app_length' d [0]), bool_decide_true by done.
    unfold pad8. rewrite <- app_assoc, (drop_app_length' (replicate 24 0)) by done.
    rewrite take_app_length' by (rewrite be_bytes_length; done). rewrite be_value_be_bytes. done.
  - intros k. apply Z.mod_pos_bound. reflexivity.
  - intros k d sig Hd E. case_bool_decide; [|done]. apply (inj Ok) in E; subst sig.
    rewrite !Forall_app. repeat split; [apply pad8_ok|done|]. repeat constructor; lia.
Qed.

End Toy.
