(* ===== verification/Voucher.v ===== *)
(** * Vouchers and their EIP-712 signatures (internal/voucher: types.go,
    eip712.go, kmsprovider.go)

    The voucher record, the byte layout every hash is taken over, signing and
    signer recovery.  Keccak-256 and secp256k1 are the classes of Crypto.v. *)

From S2P Require Import Prelude Hex Bytes Crypto.

(** Nil [*big.Int] fields are [None]; a nil signature is the empty byte string
    (both marshal and compare alike in every use of the field).
    [internal/voucher/types.go:12-25 SandboxVoucher] *)
Record SandboxVoucher := mkVoucher {
  SandboxID : string;
  User : addr;
  Provider : addr;
  TotalFee : option Z;
  UsageHash : bytes;
  Nonce : option Z;
  Signature : bytes;
  Aggregated : bool
}.

#[global] Instance SandboxVoucher_eq_dec : EqDecision SandboxVoucher.
Proof. solve_decision. Defined.

(** ** Hashing *)

Section Eip712.
  Context `{Keccak}.

(** [internal/voucher/eip712.go:11-13 voucherTypeHash] *)
Definition voucherTypeHash : bytes :=
  keccak256 (bytes_of_string
    "SandboxVoucher(address user,address provider,bytes32 usageHash,uint256 nonce,uint256 totalFee)").

(** [internal/voucher/eip712.go:17-19 domainSeparator] *)
Definition domainTypeHash : bytes :=
  keccak256 (bytes_of_string
    "EIP712Domain(string name,string version,uint256 chainId,address verifyingContract)").

(** The 160-byte buffer of [domainSeparator], written slice by slice.
    [internal/voucher/eip712.go:20-30 domainSeparator] *)
Definition domain_encoding (chainID : Z) (contractAddr : addr) : res bytes :=
  let encoded := replicate 160 0 in
  let encoded := copy_slice 0 32 domainTypeHash encoded in
  let encoded := copy_slice 32 64 (keccak256 (bytes_of_string "0G Sandbox Serving")) encoded in
  let encoded := copy_slice 64 96 (keccak256 (bytes_of_string "1")) encoded in
  res_bind (fill_bytes 32 chainID) (fun c =>
  let encoded := copy_slice 96 128 c encoded in
  Ok (copy_slice 140 160 (be_bytes 20 contractAddr) encoded)).

(** [internal/voucher/eip712.go:16-33 domainSeparator] *)
Definition domainSeparator (chainID : Z) (contractAddr : addr) : res bytes :=
  res_bind (domain_encoding chainID contractAddr) (fun e => Ok (keccak256 e)).

Definition int64_wrap (v : Z) : Z := (v + 2 ^ 63) mod 2 ^ 64 - 2 ^ 63.

Lemma int64_wrap_id z : - 2 ^ 63 <= z < 2 ^ 63 -> int64_wrap z = z.
Proof. intros. unfold int64_wrap. rewrite Z.mod_small; lia. Qed.

(** Eight big-endian bytes of the two's complement representation.
    [internal/voucher/eip712.go:46-51 appendInt64] *)
Definition appendInt64 (b : bytes) (v : Z) : bytes := b ++ be_bytes 8 (v mod 2 ^ 64).

(** [internal/voucher/eip712.go:38-42 BuildUsageHash] *)
Definition usage_preimage (sandboxID : string) (periodStart periodEnd usageUnits : Z) : bytes :=
  appendInt64 (appendInt64 (appendInt64 (bytes_of_string sandboxID) periodStart) periodEnd) usageUnits.

(** [internal/voucher/eip712.go:37-44 BuildUsageHash] *)
Definition BuildUsageHash (sandboxID : string) (periodStart periodEnd usageUnits : Z) : bytes :=
  keccak256 (usage_preimage sandboxID periodStart periodEnd usageUnits).

(** The 192-byte buffer of [hashVoucher]; a nil nonce or fee is a nil
    dereference, one wider than 256 bits a [FillBytes] panic.
    [internal/voucher/eip712.go:84-90 hashVoucher] *)
Definition voucher_encoding (v : SandboxVoucher) : res bytes :=
  let encoded := replicate 192 0 in
  let encoded := copy_slice 0 32 voucherTypeHash encoded in
  let encoded := copy_slice 44 64 (be_bytes 20 (User v)) encoded in
  let encoded := copy_slice 76 96 (be_bytes 20 (Provider v)) encoded in
  let encoded := copy_slice 96 128 (UsageHash v) encoded in
  match Nonce v, TotalFee v with
  | Some n, Some fee =>
      res_bind (fill_bytes 32 n) (fun nb =>
      let encoded := copy_slice 128 160 nb encoded in
      res_bind (fill_bytes 32 fee) (fun fb =>
      Ok (copy_slice 160 192 fb encoded)))
  | _, _ => Panic
  end.

(** [0x19 0x01 || domain separator || struct hash].
    [internal/voucher/eip712.go:95-100 hashVoucher] *)
Definition eip712_message (sep structHash : bytes) : bytes :=
  let msg := replicate 66 0 in
  let msg := <[0%nat := 25]> msg in
  let msg := <[1%nat := 1]> msg in
  let msg := copy_slice 2 34 sep msg in
  copy_slice 34 66 structHash msg.

(** [internal/voucher/eip712.go:82-102 hashVoucher] *)
Definition hashVoucher (v : SandboxVoucher) (chainID : Z) (contractAddr : addr) : res bytes :=
  res_bind (voucher_encoding v) (fun encoded =>
  let structHash := keccak256 encoded in
  res_bind (domainSeparator chainID contractAddr) (fun sep =>
  Ok (keccak256 (eip712_message sep structHash)))).

(** [internal/voucher/kmsprovider.go:12-12 kmsProviderTypeHash] *)
Definition kmsProviderTypeHash : bytes :=
  keccak256 (bytes_of_string "KmsProvider(address provider,string appId)").

(** [internal/voucher/kmsprovider.go:18-22 KmsProviderDigest] *)
Definition kms_encoding (provider : addr) (appId : string) : bytes :=
  let encoded := replicate 96 0 in
  let encoded := copy_slice 0 32 kmsProviderTypeHash encoded in
  let encoded := copy_slice 44 64 (be_bytes 20 provider) encoded in
  copy_slice 64 96 (keccak256 (bytes_of_string appId)) encoded.

(** [internal/voucher/kmsprovider.go:17-32 KmsProviderDigest] *)
Definition KmsProviderDigest (chainID : Z) (contractAddr provider : addr) (appId : string) : res bytes :=
  let structHash := keccak256 (kms_encoding provider appId) in
  res_bind (domainSeparator chainID contractAddr) (fun sep =>
  Ok (keccak256 (eip712_message sep structHash))).

End Eip712.

(** ** Signing and recovery *)

Section Signing.
  Context `{Keccak} `{Ecdsa}.

(** [sig[64] += 27]; byte arithmetic wraps. A signature shorter than 65 bytes
    would be an out-of-range panic.
    [internal/voucher/eip712.go:76-77 Sign] *)
Definition bump_v (sig : bytes) : res bytes :=
  match sig !! 64%nat with
  | Some v => Ok (<[64%nat := (v + 27) mod 256]> sig)
  | None => Panic
  end.

(** [sig := make([]byte, 65); copy(sig, s); if sig[64] >= 27 { sig[64] -= 27 }].
    [internal/voucher/eip712.go:57-61 Verify] *)
Definition normalize_sig (s : bytes) : bytes :=
  let sig := copy_slice 0 65 s (replicate 65 0) in
  match sig !! 64%nat with
  | Some v => if 27 <=? v then <[64%nat := v - 27]> sig else sig
  | None => sig
  end.

Definition set_signature (v : SandboxVoucher) (sig : bytes) : SandboxVoucher :=
  mkVoucher (SandboxID v) (User v) (Provider v) (TotalFee v) (UsageHash v) (Nonce v) sig (Aggregated v).

Definition set_nonce (v : SandboxVoucher) (n : option Z) : SandboxVoucher :=
  mkVoucher (SandboxID v) (User v) (Provider v) (TotalFee v) (UsageHash v) n (Signature v) (Aggregated v).

(** [voucher.Sign]: the signed voucher.
    [internal/voucher/eip712.go:70-80 Sign] *)
Definition Sign (v : SandboxVoucher) (privKey : Z) (chainID : Z) (contractAddr : addr) : res SandboxVoucher :=
  res_bind (hashVoucher v chainID contractAddr) (fun digest =>
  res_bind (ecdsa_sign privKey digest) (fun sig =>
  res_bind (bump_v sig) (fun sig => Ok (set_signature v sig)))).

(** [voucher.Verify]: the address that signed.
    [internal/voucher/eip712.go:55-67 Verify] *)
Definition Verify (v : SandboxVoucher) (chainID : Z) (contractAddr : addr) : res addr :=
  res_bind (hashVoucher v chainID contractAddr) (fun digest =>
  sig_to_addr digest (normalize_sig (Signature v))).

(** [internal/voucher/kmsprovider.go:36-44 EndorseKmsProvider] *)
Definition EndorseKmsProvider (nodeKey chainID : Z) (contractAddr provider : addr) (appId : string) : res bytes :=
  res_bind (KmsProviderDigest chainID contractAddr provider appId) (fun digest =>
  res_bind (ecdsa_sign nodeKey digest) bump_v).

(** [internal/voucher/kmsprovider.go:47-62 KmsProviderEndorser] *)
Definition KmsProviderEndorser (sig : bytes) (chainID : Z) (contractAddr provider : addr) (appId : string) : res addr :=
  if negb (bool_decide (length sig = 65%nat)) then Err (EMsg "endorsement is not 65 bytes")
  else
    res_bind (KmsProviderDigest chainID contractAddr provider appId) (fun digest =>
    sig_to_addr digest (normalize_sig sig)).

End Signing.

(** ** Derived notions *)

(** [internal/voucher/aggregate.go:428-428 AggregatedSandboxID] *)
Definition AggregatedSandboxID : string := EmptyString.

(** [internal/voucher/aggregate.go:444-446 IsAggregated] *)
Definition IsAggregated (v : SandboxVoucher) : bool :=
  Aggregated v || bool_decide (SandboxID v = AggregatedSandboxID).

(** The fee an absent [total_fee] counts for. *)
Definition fee_of (v : SandboxVoucher) : Z := default 0 (TotalFee v).

(** A voucher every field of which fits the contract's ABI types. *)
Definition abi_ok (v : SandboxVoucher) (nonce fee : Z) : Prop :=
  addr_ok (User v) /\ addr_ok (Provider v) /\ length (UsageHash v) = 32%nat /\
  Nonce v = Some nonce /\ TotalFee v = Some fee /\ 0 <= nonce < 2 ^ 256 /\ 0 <= fee < 2 ^ 256.

(** What Solidity's [abi.encode] of the struct fields is: one 32-byte word per
    field. *)
Definition abi_words (v : SandboxVoucher) (typeHash : bytes) (nonce fee : Z) : bytes :=
  typeHash ++ be_bytes 32 (User v) ++ be_bytes 32 (Provider v) ++ UsageHash v
  ++ be_bytes 32 nonce ++ be_bytes 32 fee.

(** ** Lemmas *)

Section EncodingLemmas.
Context `{KeccakLaws}.

Lemma addr_pad a : addr_ok a -> be_bytes 32 a = replicate 12 0 ++ be_bytes 20 a.
Proof. intros Ha. exact (be_bytes_pad 12 20 a Ha). Qed.

Lemma typehash_length : length voucherTypeHash = 32%nat.
Proof. apply keccak_length. Qed.

(** Reduces the offsets of a buffer whose fields all have known lengths. *)
Ltac lay_norm :=
  autorewrite with sandbox_rw; rewrite ?typehash_length, ?keccak_length, ?length_replicate;
  cbn [length Nat.sub Nat.add app].

(** Writes one field after the fields laid out so far. *)
Ltac lay_field :=
  rewrite copy_slice_step by (lay_norm; try congruence; lia); lay_norm.

Ltac lay_done := cbn [replicate app Nat.sub]; rewrite ?app_nil_r, <- ?app_assoc; reflexivity.

Lemma voucher_encoding_abi v nonce fee :
  abi_ok v nonce fee -> voucher_encoding v = Ok (abi_words v voucherTypeHash nonce fee).
Proof.
  intros (Hu & Hp & Hh & Hn & Hf & Hnr & Hfr).
  unfold voucher_encoding, abi_words. rewrite Hn, Hf, !fill_bytes_ok by (cbn; lia).
  cbn [res_bind]. f_equal. rewrite (addr_pad (User v)), (addr_pad (Provider v)) by done.
  change (replicate 192 0) with ([] ++ replicate 192 0).
  do 4 lay_field. rewrite ?Hh. do 2 (lay_field; rewrite ?Hh). lay_done.
Qed.

Lemma eip712_message_concat sep h :
  length sep = 32%nat -> length h = 32%nat -> eip712_message sep h = 25 :: 1 :: sep ++ h.
Proof.
  intros Hs Hh. unfold eip712_message.
  change (<[1%nat:=1]> (<[0%nat:=25]> (replicate 66 0))) with ([25; 1] ++ replicate 64 0).
  remember [25; 1] as p eqn:Ep. assert (length p = 2%nat) as Hp by (subst; done).
  lay_field. rewrite ?Hs, ?Hp. lay_field. rewrite ?Hs, ?Hh, ?Hp. subst p. lay_done.
Qed.

Lemma domain_encoding_abi c a :
  0 <= c < 2 ^ 256 -> addr_ok a ->
  domain_encoding c a
  = Ok (domainTypeHash ++ keccak256 (bytes_of_string "0G Sandbox Serving")
        ++ keccak256 (bytes_of_string "1") ++ be_bytes 32 c ++ be_bytes 32 a).
Proof.
  intros Hc Ha. unfold domain_encoding. rewrite fill_bytes_ok by (cbn; lia).
  cbn [res_bind]. f_equal. rewrite (addr_pad a) by done.
  change (replicate 160 0) with ([] ++ replicate 160 0). unfold domainTypeHash.
  generalize (bytes_of_string "EIP712Domain(string name,string version,uint256 chainId,address verifyingContract)").
  generalize (bytes_of_string "0G Sandbox Serving"). generalize (bytes_of_string "1"). intros s1 s2 s3.
  do 5 lay_field. lay_done.
Qed.

Lemma kms_encoding_abi p appId :
  addr_ok p ->
  kms_encoding p appId = kmsProviderTypeHash ++ be_bytes 32 p ++ keccak256 (bytes_of_string appId).
Proof.
  intros Hp. unfold kms_encoding. rewrite (addr_pad p) by done.
  change (replicate 96 0) with ([] ++ replicate 96 0). unfold kmsProviderTypeHash.
  generalize (bytes_of_string "KmsProvider(address provider,string appId)"). intros s.
  do 3 lay_field. lay_done.
Qed.

Lemma abi_words_inj v v' t n f n' f' :
  abi_ok v n f -> abi_ok v' n' f' -> abi_words v t n f = abi_words v' t n' f' ->
  User v = User v' /\ Provider v = Provider v' /\ UsageHash v = UsageHash v' /\ n = n' /\ f = f'.
Proof.
  intros (Hu & Hp & Hh & _ & _ & Hn & Hf) (Hu' & Hp' & Hh' & _ & _ & Hn' & Hf') E.
  unfold abi_words in E. apply app_inv_head in E.
  repeat (apply app_inj_1 in E; [|autorewrite with sandbox_rw; congruence];
          let E1 := fresh "E" in destruct E as [E1 E]).
  unfold addr_ok, addr_bound in *.
  repeat match goal with H : be_bytes _ _ = be_bytes _ _ |- _ => apply be_bytes_inj in H; [|cbn; lia|cbn; lia] end.
  done.
Qed.
End EncodingLemmas.

Section SigningLemmas.
Context `{KeccakLaws} `{EcdsaLaws}.

Lemma bump_normalize k d sig :
  ecdsa_sign k d = Ok sig -> exists sig', bump_v sig = Ok sig' /\ normalize_sig sig' = sig /\ length sig' = 65%nat.
Proof.
  intros Hs. destruct (sign_shape _ _ _ Hs) as (rs & v & -> & Hl & Hv).
  exists (rs ++ [v + 27]). unfold bump_v, normalize_sig, copy_slice.
  rewrite lookup_app_r, Hl by lia. cbn [lookup list_lookup Nat.sub].
  assert (forall x y, <[64%nat:=x]> (rs ++ [y]) = rs ++ [x]) as Hins.
  { intros. replace 64%nat with (length rs + 0)%nat by lia. rewrite insert_app_r. done. }
  rewrite Hins, Z.mod_small by lia. split; [done|].
  split; [|rewrite length_app; cbn; lia].
  rewrite length_app, Hl. cbn [take length Nat.sub Nat.add Nat.min drop replicate app].
  rewrite take_ge by (rewrite length_app; cbn; lia). rewrite app_nil_r.
  rewrite lookup_app_r, Hl by lia. cbn [lookup list_lookup Nat.sub].
  destruct (Z.leb_spec 27 (v + 27)); [|lia]. rewrite Hins. do 2 f_equal. lia.
Qed.

Lemma hashVoucher_set_signature v sig c a : hashVoucher (set_signature v sig) c a = hashVoucher v c a.
Proof. reflexivity. Qed.

Lemma Sign_inv v k c a v' :
  Sign v k c a = Ok v' ->
  exists d s, hashVoucher v c a = Ok d /\ ecdsa_sign k d = Ok s /\
  v' = set_signature v (Signature v') /\ normalize_sig (Signature v') = s /\ length (Signature v') = 65%nat.
Proof.
  unfold Sign. destruct (hashVoucher v c a) as [d| |] eqn:Hd; cbn [res_bind]; try done.
  destruct (ecdsa_sign k d) as [s| |] eqn:Hs; cbn [res_bind]; try done.
  destruct (bump_normalize _ _ _ Hs) as (s' & Hb & Hn & Hl). rewrite Hb. cbn [res_bind].
  intros [= <-]. exists d, s. done.
Qed.
Lemma fill_bytes_no_panic n x : Z.abs x < 256 ^ Z.of_nat n -> exists b, fill_bytes n x = Ok b.
Proof. intros. unfold fill_bytes. destruct (Z.ltb_spec (Z.abs x) (256 ^ Z.of_nat n)); [by eexists|lia]. Qed.

(** Signing panics only on a missing or oversized number. *)
Lemma Sign_no_panic v k c a n f :
  Nonce v = Some n -> TotalFee v = Some f -> Z.abs n < 2 ^ 256 -> Z.abs f < 2 ^ 256 -> Z.abs c < 2 ^ 256 ->
  Sign v k c a <> Panic.
Proof.
  intros Hn Hf Hnr Hfr Hc. unfold Sign, hashVoucher, voucher_encoding, domainSeparator, domain_encoding.
  rewrite Hn, Hf. destruct (fill_bytes_no_panic 32 n) as [b1 ->]; [done|].
  destruct (fill_bytes_no_panic 32 f) as [b2 ->]; [done|]. destruct (fill_bytes_no_panic 32 c) as [b3 ->]; [done|].
  cbn [res_bind]. set (d := keccak256 (eip712_message _ _)).
  pose proof (sign_no_panic k d) as Hp. destruct (ecdsa_sign k d) as [sig|e|] eqn:E; cbn [res_bind]; [|done|done].
  destruct (bump_normalize _ _ _ E) as (sig' & -> & _). done.
Qed.

End SigningLemmas.

(** ** Properties *)

Section Properties.
Context `{KeccakLaws} `{EcdsaLaws}.

(** A voucher signed with a key verifies to that key's address, under the
    same chain id and contract, and signing touches nothing but the signature:
    the fee, nonce and parties the settlement charges are the ones handed in. *)
Theorem sign_verify v k chainID contractAddr v' :
  Sign v k chainID contractAddr = Ok v' ->
  Verify v' chainID contractAddr = Ok (key_addr k) /\ v' = set_signature v (Signature v').
Proof.
  intros Hs. destruct (Sign_inv _ _ _ _ _ Hs) as (d & s & Hd & Hk & Hv & Hn & _).
  split; [|done]. unfold Verify. rewrite Hv at 1. rewrite hashVoucher_set_signature, Hd.
  cbn [res_bind]. rewrite Hn. eapply sign_recover, Hk.
Qed.

End Properties.

(** ** Concrete inputs *)

Module VoucherExamples.
Import Toy.

Definition v0 : SandboxVoucher :=
  mkVoucher "sb-1" 4096 8192 (Some 60) (BuildUsageHash "sb-1" 1000 1060 60) (Some 1) [] false.

Definition v0_signed : SandboxVoucher :=
  match Sign v0 8192 16601 99 with Ok v => v | _ => v0 end.

Lemma v0_signs : Sign v0 8192 16601 99 = Ok v0_signed.
Proof. vm_compute. reflexivity. Qed.

Lemma sign_verify_witness : Verify v0_signed 16601 99 = Ok (key_addr 8192).
Proof. exact (proj1 (sign_verify v0 8192 16601 99 v0_signed v0_signs)). Defined.

End VoucherExamples.
