(* ===== verification/Store.v ===== *)
(** * The billing world: Redis, the stop channel, alerts, the chain

    The billing core keeps its durable state in one Redis database.  The state
    is typed by key family: the key templates of voucher/types.go,
    billing/session.go, billing/reserved.go, settler/pendingtx.go,
    auth/middleware.go and broker/*.go start with different prefixes, so no
    command can meet a value of another family.  Keys whose mere presence
    matters (used request nonces, processed broker requests, deposits in
    flight) are flags with an expiry.  A [world] adds what the handlers touch besides
    Redis: the clock, the buffered stop channel, the alerter's calls and a
    chain state of any type [C] the chain client's operations act on.

    Every Redis round trip consumes one [netev], so faults and the steps of
    other clients between two commands of an operation are part of the model. *)

From S2P Require Import Prelude Hex Bytes Voucher.

(** ** Data stored in Redis *)

(** A queue entry: JSON text that decodes to a voucher, or text that does not. *)
Inductive raw :=
| Raw (v : SandboxVoucher)
| Malformed (s : string).

#[global] Instance raw_eq_dec : EqDecision raw.
Proof. solve_decision. Defined.

Definition marshal (v : SandboxVoucher) : raw := Raw v.

Definition unmarshal (r : raw) : option SandboxVoucher :=
  match r with Raw v => Some v | Malformed _ => None end.

(** List keys. [internal/voucher/types.go:28-37 VoucherQueueKeyFmt, VoucherDLQKeyFmt, VoucherHeldKeyFmt] *)
Inductive lkey :=
| LQueue (provider : addr)
| LDLQ (provider : addr)
| LHeld (user provider : addr).

#[global] Instance lkey_eq_dec : EqDecision lkey.
Proof. solve_decision. Defined.

#[global] Instance lkey_countable : Countable lkey.
Proof.
  refine (inj_countable'
    (fun k => match k with LQueue p => (0%nat, p, 0) | LDLQ p => (1%nat, p, 0) | LHeld u p => (2%nat, u, p) end)
    (fun t => match t with (0%nat, p, _) => LQueue p | (1%nat, p, _) => LDLQ p | (_, u, p) => LHeld u p end) _).
  by intros [].
Defined.

(** Values of a session hash: text or a decimal integer. *)
Inductive hval :=
| HStr (s : string)
| HInt (z : Z).

(** The settler's persisted in-flight transaction; [TxHash = 0] is the
    hashless intent. [internal/settler/pendingtx.go:36-51 pendingTx] *)
Record pendingTx := mkPending {
  TxHash : Z;
  AccountNonce : Z;
  Vouchers : list SandboxVoucher;
  FirstItem : raw;
  Consumed : nat
}.

(** An operator-visible event (its message text is left out).
    [internal/events/log.go:28-35 Event] *)
Record Event := mkEvent {
  ev_time : Z;
  ev_type : string;
  ev_sandbox : string;
  ev_user : string;
  ev_amount : option Z
}.

(** A broker monitoring session; the price is the decimal it spells.
    [internal/broker/monitor.go:18-27 SessionEntry] *)
Record SessionEntry := mkEntry {
  se_SandboxID : string;
  se_User : string;
  se_Provider : string;
  se_CPU : Z;
  se_MemGB : Z;
  se_PricePerSec : Z;
  se_VoucherIntervalSec : Z;
  se_RegisteredAt : Z
}.

(** A detail of an alert; [DAddr] is a [fmt.Stringer], [DInt] is not. *)
Inductive detail := DStr (s : string) | DInt (z : Z) | DAddr (a : addr).

#[global] Instance detail_eq_dec : EqDecision detail.
Proof. solve_decision. Defined.

(** An alert on the dashboard, without its message text.
    [internal/alert/alert.go:55-61 Entry] *)
Record Entry := mkAlertEntry {
  en_Kind : string;
  en_Severity : string;
  en_Timestamp : Z;
  en_Details : list (string * detail)
}.

(** An indexed provider; prices are the decimals they spell.
    [internal/indexer/indexer.go:28-39 ProviderRecord] *)
Record ProviderRecord := mkProvider {
  pr_Address : string;
  pr_URL : string;
  pr_AppId : string;
  pr_PricePerCPUPerMin : Z;
  pr_PricePerCPUPerSec : Z;
  pr_PricePerMemGBPerMin : Z;
  pr_PricePerMemGBPerSec : Z;
  pr_CreateFee : Z;
  pr_LastBlock : Z;
  pr_UpdatedAt : Z
}.

(** A reservation counter: its value and the time it expires at, if any. *)
Record reservation := mkResv { rv_total : Z; rv_expires : option Z }.

Record redis := mkRedis {
  r_lists : gmap lkey (list raw);
  r_held_users : gmap addr (gset addr);
  r_nonces : gmap (string * string) Z;
  r_sessions : gmap string (gmap string hval);
  r_stops : gmap string string;
  r_pending : gmap addr pendingTx;
  r_reserved : gmap (string * string) reservation;
  r_events : list Event;
  r_flags : gmap string (option Z);
  r_broker : gmap string SessionEntry;
  r_history : list Entry;
  r_providers : gmap string ProviderRecord;
  r_last_block : option Z;
  r_identities : gmap string string
}.

Definition empty_redis : redis := mkRedis ∅ ∅ ∅ ∅ ∅ ∅ ∅ [] ∅ ∅ [] ∅ None ∅.

(** ** Field updates *)

Definition upd_lists (f : gmap lkey (list raw) -> gmap lkey (list raw)) (r : redis) : redis :=
  mkRedis (f (r_lists r)) (r_held_users r) (r_nonces r) (r_sessions r) (r_stops r) (r_pending r) (r_reserved r) (r_events r) (r_flags r) (r_broker r) (r_history r) (r_providers r) (r_last_block r) (r_identities r).

Definition upd_held_users (f : gmap addr (gset addr) -> gmap addr (gset addr)) (r : redis) : redis :=
  mkRedis (r_lists r) (f (r_held_users r)) (r_nonces r) (r_sessions r) (r_stops r) (r_pending r) (r_reserved r) (r_events r) (r_flags r) (r_broker r) (r_history r) (r_providers r) (r_last_block r) (r_identities r).

Definition upd_nonces (f : gmap (string * string) Z -> gmap (string * string) Z) (r : redis) : redis :=
  mkRedis (r_lists r) (r_held_users r) (f (r_nonces r)) (r_sessions r) (r_stops r) (r_pending r) (r_reserved r) (r_events r) (r_flags r) (r_broker r) (r_history r) (r_providers r) (r_last_block r) (r_identities r).

Definition upd_sessions (f : gmap string (gmap string hval) -> gmap string (gmap string hval)) (r : redis) : redis :=
  mkRedis (r_lists r) (r_held_users r) (r_nonces r) (f (r_sessions r)) (r_stops r) (r_pending r) (r_reserved r) (r_events r) (r_flags r) (r_broker r) (r_history r) (r_providers r) (r_last_block r) (r_identities r).

Definition upd_stops (f : gmap string string -> gmap string string) (r : redis) : redis :=
  mkRedis (r_lists r) (r_held_users r) (r_nonces r) (r_sessions r) (f (r_stops r)) (r_pending r) (r_reserved r) (r_events r) (r_flags r) (r_broker r) (r_history r) (r_providers r) (r_last_block r) (r_identities r).

Definition upd_pending (f : gmap addr pendingTx -> gmap addr pendingTx) (r : redis) : redis :=
  mkRedis (r_lists r) (r_held_users r) (r_nonces r) (r_sessions r) (r_stops r) (f (r_pending r)) (r_reserved r) (r_events r) (r_flags r) (r_broker r) (r_history r) (r_providers r) (r_last_block r) (r_identities r).

Definition upd_reserved (f : gmap (string * string) reservation -> gmap (string * string) reservation) (r : redis) : redis :=
  mkRedis (r_lists r) (r_held_users r) (r_nonces r) (r_sessions r) (r_stops r) (r_pending r) (f (r_reserved r)) (r_events r) (r_flags r) (r_broker r) (r_history r) (r_providers r) (r_last_block r) (r_identities r).

Definition upd_events (f : list Event -> list Event) (r : redis) : redis :=
  mkRedis (r_lists r) (r_held_users r) (r_nonces r) (r_sessions r) (r_stops r) (r_pending r) (r_reserved r) (f (r_events r)) (r_flags r) (r_broker r) (r_history r) (r_providers r) (r_last_block r) (r_identities r).

Definition upd_flags (f : gmap string (option Z) -> gmap string (option Z)) (r : redis) : redis :=
  mkRedis (r_lists r) (r_held_users r) (r_nonces r) (r_sessions r) (r_stops r) (r_pending r) (r_reserved r) (r_events r) (f (r_flags r)) (r_broker r) (r_history r) (r_providers r) (r_last_block r) (r_identities r).

Definition upd_broker (f : gmap string SessionEntry -> gmap string SessionEntry) (r : redis) : redis :=
  mkRedis (r_lists r) (r_held_users r) (r_nonces r) (r_sessions r) (r_stops r) (r_pending r) (r_reserved r) (r_events r) (r_flags r) (f (r_broker r)) (r_history r) (r_providers r) (r_last_block r) (r_identities r).

Definition upd_aux (f : list Entry -> list Entry) (g : gmap string ProviderRecord -> gmap string ProviderRecord)
  (h : option Z -> option Z) (r : redis) : redis :=
  mkRedis (r_lists r) (r_held_users r) (r_nonces r) (r_sessions r) (r_stops r) (r_pending r) (r_reserved r) (r_events r) (r_flags r) (r_broker r)
    (f (r_history r)) (g (r_providers r)) (h (r_last_block r)) (r_identities r).

Definition upd_history (f : list Entry -> list Entry) : redis -> redis := upd_aux f id id.

Definition upd_providers (f : gmap string ProviderRecord -> gmap string ProviderRecord) : redis -> redis := upd_aux id f id.

(** The authorized registration instance of an attestor app. *)
Definition set_identity (k v : string) (r : redis) : redis :=
  mkRedis (r_lists r) (r_held_users r) (r_nonces r) (r_sessions r) (r_stops r) (r_pending r) (r_reserved r) (r_events r) (r_flags r) (r_broker r)
    (r_history r) (r_providers r) (r_last_block r) (<[k := v]> (r_identities r)).

Definition set_last_block (b : Z) : redis -> redis := upd_aux id id (fun _ => Some b).

(** [EXISTS k]: an expired key is gone. *)
Definition flag_live (now : Z) (r : redis) (k : string) : bool :=
  match r_flags r !! k with
  | Some (Some t) => now <? t
  | Some None => true
  | None => false
  end.

(** [SET k v EX ttl]; a non-positive [ttl] sets no expiry (go-redis). *)
Definition set_flag (now : Z) (k : string) (ttl : Z) (r : redis) : redis :=
  upd_flags <[k := if 0 <? ttl then Some (now + ttl) else None]> r.

(** [SET k 1 NX EX ttl]: whether it was set. *)
Definition setnx (now : Z) (k : string) (ttl : Z) (r : redis) : res bool * redis :=
  if flag_live now r k then (Ok false, r) else (Ok true, set_flag now k ttl r).

(** ** List and set commands; an empty list is an absent key *)

Definition list_at (r : redis) (k : lkey) : list raw := default [] (r_lists r !! k).

Definition set_list (k : lkey) (l : list raw) (r : redis) : redis := upd_lists <[k := l]> r.

Definition rpush (k : lkey) (vs : list raw) (r : redis) : redis := set_list k (list_at r k ++ vs) r.

Definition lpush (k : lkey) (v : raw) (r : redis) : redis := set_list k (v :: list_at r k) r.

Definition lpop (k : lkey) (r : redis) : redis := set_list k (tail (list_at r k)) r.

Definition ldel (k : lkey) (r : redis) : redis := set_list k [] r.

(** [LRANGE key 0 stop]: both ends inclusive, a negative [stop] counts from the tail. *)
Definition lrange (stop : Z) (l : list raw) : list raw :=
  let n := if stop <? 0 then Z.of_nat (length l) + stop + 1 else stop + 1 in
  take (Z.to_nat n) l.

(** [LREM key 1 v]: drop the first element equal to [v]. *)
Fixpoint lrem1 (v : raw) (l : list raw) : list raw * Z :=
  match l with
  | [] => ([], 0)
  | x :: l' => if decide (x = v) then (l', 1) else let '(l'', n) := lrem1 v l' in (x :: l'', n)
  end.

Definition held_users_at (r : redis) (p : addr) : gset addr := default ∅ (r_held_users r !! p).

Definition sadd_held (p u : addr) (r : redis) : redis :=
  upd_held_users <[p := {[u]} ∪ held_users_at r p]> r.

Definition srem_held (p u : addr) (r : redis) : redis :=
  upd_held_users <[p := held_users_at r p ∖ {[u]}]> r.

(** ** The network *)

(** What happens to one Redis round trip: it works; it fails before the server
    saw it; the server executed it but the reply was lost; or other clients'
    commands ran first and then it worked. *)
Inductive netev :=
| NOk
| NErr
| NLost
| NRace (g : redis -> redis).

(** ** The world *)

(** [internal/settler/types.go:14-17 StopSignal] *)
Record StopSignal := mkStop { stop_sandbox : string; stop_reason : string }.

#[global] Instance StopSignal_eq_dec : EqDecision StopSignal.
Proof. solve_decision. Defined.

(** One [alerter.Notify] call. *)
Record alert_call := mkAlert {
  al_kind : string; al_severity : string; al_details : list (string * detail)
}.

(** [w_watched] and [w_dirty] are the connection's WATCH state on the server:
    the watched keys, and whether another client modified one of them since. *)
Record world (C : Type) := mkWorld {
  w_redis : redis;
  w_watched : list lkey;
  w_dirty : bool;
  w_net : list netev;
  w_now : Z;
  w_chain : C;
  w_stopch : list StopSignal;
  w_alerts : list alert_call
}.
Arguments mkWorld {C}.
Arguments w_redis {C}.
Arguments w_watched {C}.
Arguments w_dirty {C}.
Arguments w_net {C}.
Arguments w_now {C}.
Arguments w_chain {C}.
Arguments w_stopch {C}.
Arguments w_alerts {C}.

Section World.
Context {C : Type}.
Implicit Types w : world C.

Definition set_redis (x : redis) w : world C :=
  mkWorld x (w_watched w) (w_dirty w) (w_net w) (w_now w) (w_chain w) (w_stopch w) (w_alerts w).

Definition set_net (x : list netev) w : world C :=
  mkWorld (w_redis w) (w_watched w) (w_dirty w) x (w_now w) (w_chain w) (w_stopch w) (w_alerts w).

Definition set_chain (x : C) w : world C :=
  mkWorld (w_redis w) (w_watched w) (w_dirty w) (w_net w) (w_now w) x (w_stopch w) (w_alerts w).

Definition set_stopch (x : list StopSignal) w : world C :=
  mkWorld (w_redis w) (w_watched w) (w_dirty w) (w_net w) (w_now w) (w_chain w) x (w_alerts w).

Definition set_alerts (x : list alert_call) w : world C :=
  mkWorld (w_redis w) (w_watched w) (w_dirty w) (w_net w) (w_now w) (w_chain w) (w_stopch w) x.

Definition set_now (x : Z) w : world C :=
  mkWorld (w_redis w) (w_watched w) (w_dirty w) (w_net w) x (w_chain w) (w_stopch w) (w_alerts w).

Definition set_watch (ks : list lkey) (d : bool) w : world C :=
  mkWorld (w_redis w) ks d (w_net w) (w_now w) (w_chain w) (w_stopch w) (w_alerts w).

End World.

(** ** The monad of the handlers *)

Definition M (C A : Type) : Type := world C -> res A * world C.

Section Monad.
Context {C : Type}.

Definition ret {A} (a : A) : M C A := fun w => (Ok a, w).

Definition fail {A} (e : rerr) : M C A := fun w => (Err e, w).

Definition panic {A} : M C A := fun w => (Panic, w).

Definition bind {A B} (m : M C A) (k : A -> M C B) : M C B := fun w =>
  match m w with
  | (Ok a, w') => k a w'
  | (Err e, w') => (Err e, w')
  | (Panic, w') => (Panic, w')
  end.

(** The [(value, error)] pair a Go call returns; panics are not caught. *)
Definition attempt {A} (m : M C A) : M C (A + rerr) := fun w =>
  match m w with
  | (Ok a, w') => (Ok (inl a), w')
  | (Err e, w') => (Ok (inr e), w')
  | (Panic, w') => (Panic, w')
  end.

(** An error the caller discards. *)
Definition ignore {A} (m : M C A) : M C unit := bind (attempt m) (fun _ => ret tt).

Definition gets {A} (f : world C -> A) : M C A := fun w => (Ok (f w), w).

Definition lift_res {A} (x : res A) : M C A := fun w => (x, w).

(** A call that acts on the chain. *)
Definition chain_call {A} (f : C -> res A * C) : M C A := fun w =>
  let '(a, c') := f (w_chain w) in (a, set_chain c' w).

(** [time.Sleep]. *)
Definition sleep (d : Z) : M C unit := fun w => (Ok tt, set_now (w_now w + d) w).

Fixpoint mapM {A} (f : A -> M C unit) (l : list A) : M C unit :=
  match l with
  | [] => ret tt
  | x :: l' => bind (f x) (fun _ => mapM f l')
  end.

(** Whether [g] modifies one of the watched keys. *)
Definition touches (ks : list lkey) (g : redis -> redis) (r : redis) : bool :=
  negb (bool_decide (list_at (g r) <$> ks = list_at r <$> ks)).

(** One Redis round trip executing [f] on the server; [f] sees the
    connection's dirty flag, which other clients' commands may set. *)
Definition rcmd_dirty {A} (f : bool -> redis -> res A * redis) : M C A := fun w =>
  let run d r rest :=
    let ar := f d r in (ar.1, set_net rest (set_watch (w_watched w) d (set_redis ar.2 w))) in
  match w_net w with
  | [] => run (w_dirty w) (w_redis w) []
  | NOk :: rest => run (w_dirty w) (w_redis w) rest
  | NErr :: rest => (Err EIO, set_net rest w)
  | NLost :: rest => (Err EIO, (run (w_dirty w) (w_redis w) rest).2)
  | NRace g :: rest => run (w_dirty w || touches (w_watched w) g (w_redis w)) (g (w_redis w)) rest
  end.

Definition rcmd {A} (f : redis -> res A * redis) : M C A := rcmd_dirty (fun _ => f).

Definition rread {A} (f : redis -> A) : M C A := rcmd (fun r => (Ok (f r), r)).

Definition rwrite (f : redis -> redis) : M C unit := rcmd (fun r => (Ok tt, f r)).

Definition set_watching (ks : list lkey) : M C unit := fun w => (Ok tt, set_watch ks false w).

(** [MULTI ... EXEC]: all or nothing, refused with [TxFailedErr] when a watched
    key was modified since WATCH. *)
Definition exec (f : redis -> redis) : M C unit :=
  rcmd_dirty (fun (dirty : bool) r => if dirty then (Err ETxFailed, r) else (Ok tt, f r)).

(** [rdb.Watch(ctx, fn, keys...)]: WATCH, then [fn] on that connection, whose
    WATCH state is dropped afterwards. *)
Definition watching {A} (keys : list lkey) (fn : M C A) : M C A :=
  bind (rread (fun _ => tt)) (fun _ =>
  bind (set_watching keys) (fun _ =>
  bind (attempt fn) (fun x =>
  bind (set_watching []) (fun _ =>
  match x with inl a => ret a | inr e => fail e end)))).

(** A whole number of seconds as nanoseconds in an [int64]; [time.NewTicker]
    panics unless it is positive. *)
Definition ticks_at (sec : Z) : bool := 0 <? int64_wrap (sec * 1000000000).

(** A [select] over a ticker and the end of the context, [tick] once per entry:
    each is what the rest of the program makes of the world until that tick. *)
Fixpoint ticker {S} (tick : S -> M C S) (between : list (world C -> world C)) (s : S) : M C S :=
  match between with
  | [] => ret s
  | f :: between' => fun w => bind (tick s) (ticker tick between') (f w)
  end.

(** The worlds before and after each tick. *)
Fixpoint ticks_of {S} (tick : S -> M C S) (between : list (world C -> world C)) (s : S) (w : world C) : list (world C * world C) :=
  match between with
  | [] => []
  | f :: between' =>
      let '(x, w') := tick s (f w) in
      (f w, w') :: match x with Ok s' => ticks_of tick between' s' w' | _ => [] end
  end.

(** Capacity of the stop channel. [cmd/billing/main.go:241-241 stopCh] *)
Definition stopCh_cap : nat := 100.

(** [select { case stopCh <- sig: default: }]: whether it was sent. *)
Definition try_send (sig : StopSignal) : M C bool := fun w =>
  if bool_decide (length (w_stopch w) < stopCh_cap)%nat
  then (Ok true, set_stopch (w_stopch w ++ [sig]) w)
  else (Ok false, w).

Definition notify (kind sev : string) (details : list (string * detail)) : M C unit := fun w =>
  (Ok tt, set_alerts (w_alerts w ++ [mkAlert kind sev details]) w).

(** [internal/events/log.go:14-14 maxEvents] *)
Definition maxEvents : nat := 50.

(** [internal/events/log.go:38-49 Push] *)
Definition events_Push (ty sandbox user : string) (amount : option Z) : M C unit :=
  bind (gets w_now) (fun now =>
  rwrite (upd_events (fun l => take maxEvents (mkEvent now ty sandbox user amount :: l)))).

(** [internal/events/log.go:52-65 List] *)
Definition events_List : M C (list Event) := rread (fun r => take maxEvents (r_events r)).

End Monad.

Declare Scope sandbox_scope.
Notation "'let!' x ':=' m 'in' k" := (bind m (fun x => k))
  (at level 10, x binder, m at level 100, k at level 200) : sandbox_scope.
Notation "m ';;' k" := (bind m (fun _ => k)) (at level 100, right associativity) : sandbox_scope.
#[global] Open Scope sandbox_scope.

(** ** Lemmas *)

Lemma list_at_set k k' l r : list_at (set_list k l r) k' = if decide (k' = k) then l else list_at r k'.
Proof.
  unfold list_at, set_list, upd_lists. cbn. case_decide; subst.
  - by rewrite lookup_insert_eq.
  - by rewrite lookup_insert_ne.
Qed.

Lemma list_at_set_eq k l r : list_at (set_list k l r) k = l.
Proof. rewrite list_at_set, decide_True; done. Qed.

Lemma list_at_set_ne k k' l r : k' <> k -> list_at (set_list k l r) k' = list_at r k'.
Proof. intros. rewrite list_at_set, decide_False; done. Qed.

Lemma held_users_at_sadd p u q r :
  held_users_at (sadd_held p u r) q = if decide (q = p) then {[u]} ∪ held_users_at r p else held_users_at r q.
Proof.
  unfold held_users_at, sadd_held, upd_held_users. cbn. case_decide; subst.
  - by rewrite lookup_insert_eq.
  - by rewrite lookup_insert_ne.
Qed.

Lemma held_users_at_srem p u q r :
  held_users_at (srem_held p u r) q = if decide (q = p) then held_users_at r p ∖ {[u]} else held_users_at r q.
Proof.
  unfold held_users_at, srem_held, upd_held_users. cbn. case_decide; subst.
  - by rewrite lookup_insert_eq.
  - by rewrite lookup_insert_ne.
Qed.

Lemma list_at_sadd p u r k : list_at (sadd_held p u r) k = list_at r k.
Proof. done. Qed.

Lemma list_at_srem p u r k : list_at (srem_held p u r) k = list_at r k.
Proof. done. Qed.

Lemma held_users_at_set k l r q : held_users_at (set_list k l r) q = held_users_at r q.
Proof. done. Qed.

#[export] Hint Rewrite list_at_set_eq list_at_sadd list_at_srem held_users_at_set : sandbox_rw.

Lemma lrange_all l : lrange (-1) l = l.
Proof. unfold lrange. rewrite take_ge; [done|]. cbn. lia. Qed.

Lemma lrange_prefix stop l : exists l', l = lrange stop l ++ l'.
Proof. unfold lrange. eexists. rewrite take_drop. done. Qed.

Section WorldLemmas.
Context {C : Type}.
Implicit Types w : world C.

(** A network that never fails and runs no other client. *)
Definition quiet w : Prop := w_net w = [].

Lemma rcmd_quiet {A} (f : redis -> res A * redis) w :
  quiet w -> rcmd f w = ((f (w_redis w)).1, set_redis (f (w_redis w)).2 w).
Proof. intros Hq. unfold rcmd, rcmd_dirty, quiet in *. rewrite Hq. destruct w; cbn in *; subst; done. Qed.

Lemma rread_quiet {A} (f : redis -> A) w : quiet w -> rread f w = (Ok (f (w_redis w)), w).
Proof. intros Hq. unfold rread. rewrite rcmd_quiet by done. cbn. by destruct w. Qed.

Lemma attempt_rread_quiet {A} (f : redis -> A) w : quiet w -> attempt (rread f) w = (Ok (inl (f (w_redis w))), w).
Proof. intros Hq. unfold attempt. by rewrite rread_quiet. Qed.

Lemma ignore_rwrite_quiet f w : quiet w -> ignore (rwrite f) w = (Ok tt, set_redis (f (w_redis w)) w).
Proof. intros Hq. unfold ignore, bind, attempt, rwrite. by rewrite rcmd_quiet. Qed.

Lemma exec_quiet f w : quiet w -> w_dirty w = false -> exec f w = (Ok tt, set_redis (f (w_redis w)) w).
Proof.
  intros Hq Hd. unfold exec, rcmd_dirty, quiet in *. rewrite Hq, Hd. destruct w; cbn in *; subst; done.
Qed.

Lemma quiet_set_redis r w : quiet (set_redis r w) <-> quiet w.
Proof. done. Qed.

End WorldLemmas.

(** ** Guarantees under faults and interference

    [guarantees G m]: whatever the network does, the Redis states [m] goes
    through are linked by the steps of other clients announced in [w_net] and
    by [G]-steps of [m] itself; and it only consumes network events. *)

Section Guarantees.
Context {C : Type}.

Definition rely (n : list netev) (r r' : redis) : Prop := exists g, NRace g ∈ n /\ r' = g r.

Definition steps (n : list netev) (G : redis -> redis -> Prop) : redis -> redis -> Prop :=
  rtc (fun r r' => rely n r r' \/ G r r').

Definition guarantees (G : redis -> redis -> Prop) {A} (m : M C A) : Prop :=
  forall w, steps (w_net w) G (w_redis w) (w_redis (m w).2) /\ w_net (m w).2 `suffix_of` w_net w.

Lemma rely_mono n n' r r' : n `suffix_of` n' -> rely n r r' -> rely n' r r'.
Proof. intros [k ->] (g & Hg & ->). exists g. split; [apply elem_of_app; auto|done]. Qed.

Lemma steps_mono n n' (G G' : redis -> redis -> Prop) r r' :
  n `suffix_of` n' -> (forall a b, G a b -> G' a b) -> steps n G r r' -> steps n' G' r r'.
Proof.
  intros Hn HG. apply rtc_subrel. intros a b [Hr|Hg]; [left; by eapply rely_mono|right; auto].
Qed.

Lemma guarantees_mono (G G' : redis -> redis -> Prop) {A} (m : M C A) :
  (forall a b, G a b -> G' a b) -> guarantees G m -> guarantees G' m.
Proof. intros HG Hm w. destruct (Hm w). split; [|done]. eapply steps_mono; [reflexivity|exact HG|done]. Qed.

Lemma guarantees_pure G {A} (m : M C A) :
  (forall w, w_redis (m w).2 = w_redis w /\ w_net (m w).2 = w_net w) -> guarantees G m.
Proof. intros Hm w. destruct (Hm w) as [-> ->]. split; [apply rtc_refl|done]. Qed.

Lemma guarantees_ret G {A} (a : A) : guarantees G (ret a : M C A).
Proof. apply guarantees_pure. done. Qed.

Lemma guarantees_fail G {A} e : guarantees G (fail e : M C A).
Proof. apply guarantees_pure. done. Qed.

Lemma guarantees_panic G {A} : guarantees G (panic : M C A).
Proof. apply guarantees_pure. done. Qed.

Lemma guarantees_gets G {A} (f : world C -> A) : guarantees G (gets f).
Proof. apply guarantees_pure. done. Qed.

Lemma guarantees_notify G k s d : guarantees G (notify k s d : M C unit).
Proof. apply guarantees_pure. done. Qed.

Lemma guarantees_try_send G sig : guarantees G (try_send sig : M C bool).
Proof. apply guarantees_pure. intros w. unfold try_send. case_bool_decide; done. Qed.

Lemma guarantees_set_watching G ks : guarantees G (set_watching ks : M C unit).
Proof. apply guarantees_pure. done. Qed.

Lemma guarantees_lift_res G {A} (x : res A) : guarantees G (lift_res x : M C A).
Proof. apply guarantees_pure. done. Qed.

Lemma guarantees_chain_call G {A} (f : C -> res A * C) : guarantees G (chain_call f).
Proof. apply guarantees_pure. intros w. unfold chain_call. destruct (f (w_chain w)). done. Qed.

Lemma guarantees_sleep G d : guarantees G (sleep d : M C unit).
Proof. apply guarantees_pure. done. Qed.

Lemma guarantees_bind G {A B} (m : M C A) (k : A -> M C B) :
  guarantees G m -> (forall a, guarantees G (k a)) -> guarantees G (bind m k).
Proof.
  intros Hm Hk w. unfold bind. destruct (Hm w) as [Hs Hn].
  destruct (m w) as [[a|e|] w'] eqn:E; cbn in *; [|done|done].
  destruct (Hk a w') as [Hs' Hn']. split; [|by etrans].
  etrans; [done|]. eapply steps_mono; [done| |done]. done.
Qed.

Lemma guarantees_attempt G {A} (m : M C A) : guarantees G m -> guarantees G (attempt m).
Proof. intros Hm w. destruct (Hm w). unfold attempt. destruct (m w) as [[]]; done. Qed.

Lemma guarantees_ignore G {A} (m : M C A) : guarantees G m -> guarantees G (ignore m).
Proof. intros Hm. apply guarantees_bind; [by apply guarantees_attempt|]. intros _. apply guarantees_ret. Qed.

Lemma guarantees_mapM G {A} (f : A -> M C unit) l :
  (forall x, x ∈ l -> guarantees G (f x)) -> guarantees G (mapM f l).
Proof.
  induction l as [|x l IH]; intros Hf; [apply guarantees_ret|]. apply guarantees_bind.
  - apply Hf. left.
  - intros _. apply IH. intros y Hy. apply Hf. by right.
Qed.

Lemma guarantees_rcmd_dirty G {A} (f : bool -> redis -> res A * redis) :
  (forall d r, (f d r).2 = r \/ G r (f d r).2) -> guarantees G (rcmd_dirty f : M C A).
Proof.
  intros Hf w. unfold rcmd_dirty.
  assert (forall n d r, steps n G r (f d r).2) as Hstep.
  { intros n d r. destruct (Hf d r) as [->|HG]; [apply rtc_refl|]. apply rtc_once. by right. }
  destruct (w_net w) as [|[| | |g] rest] eqn:En; cbn.
  - split; [apply Hstep|done].
  - split; [apply Hstep|by apply suffix_cons_r].
  - split; [apply rtc_refl|by apply suffix_cons_r].
  - split; [apply Hstep|by apply suffix_cons_r].
  - split; [|by apply suffix_cons_r]. eapply rtc_l; [|apply Hstep].
    left. exists g. split; [left|done].
Qed.

Lemma guarantees_rcmd G {A} (f : redis -> res A * redis) :
  (forall r, (f r).2 = r \/ G r (f r).2) -> guarantees G (rcmd f : M C A).
Proof. intros Hf. apply guarantees_rcmd_dirty. auto. Qed.

Lemma guarantees_rread G {A} (f : redis -> A) : guarantees G (rread f : M C A).
Proof. apply guarantees_rcmd. auto. Qed.

Lemma guarantees_rwrite (G : redis -> redis -> Prop) f :
  (forall r, G r (f r)) -> guarantees G (rwrite f : M C unit).
Proof. intros Hf. apply guarantees_rcmd. auto. Qed.

(** What an invariant of the steps gives of an operation. *)
Lemma steps_inv n (G : redis -> redis -> Prop) (I : redis -> Prop) r r' :
  (forall g a, NRace g ∈ n -> I a -> I (g a)) -> (forall a b, G a b -> I a -> I b) ->
  I r -> steps n G r r' -> I r'.
Proof. intros Hr HG Hi Hs. induction Hs as [|a b c [(g & Hg & ->)|H]]; eauto. Qed.

(** No other client runs during the operation (failures are still allowed). *)
Definition race_free (n : list netev) : Prop := Forall (fun e => match e with NRace _ => False | _ => True end) n.

Lemma race_free_steps n (G : redis -> redis -> Prop) r r' : race_free n -> steps n G r r' -> rtc G r r'.
Proof.
  intros Hn Hs. eapply rtc_subrel; [|exact Hs]. intros a b [(g & Hg & ->)|H]; [|done].
  unfold race_free in Hn. rewrite Forall_forall in Hn. destruct (Hn _ Hg).
Qed.

(** A conditional [SET NX] that succeeded found no live flag and left one. *)
Lemma setnx_inv now k ttl (w w' : world C) :
  attempt (rcmd (setnx now k ttl)) w = (Ok (inl true), w') ->
  exists r, flag_live now r k = false /\ w_redis w' = set_flag now k ttl r /\ (race_free (w_net w) -> r = w_redis w).
Proof.
  unfold attempt, rcmd, rcmd_dirty, setnx.
  destruct (w_net w) as [|[| | |g] net]; cbn [fst snd]; try done; destruct (flag_live now _ k) eqn:E; cbn [fst snd]; try done;
    intros [= <-]; eexists; (split; [exact E|]); (split; [done|]); try done.
  intros Hf. by inversion Hf.
Qed.

Lemma race_free_suffix n n' : n' `suffix_of` n -> race_free n -> race_free n'.
Proof. intros [k ->] [_ H]%Forall_app. exact H. Qed.

(** A projection no step changes is unchanged by the whole operation. *)
Lemma steps_keep {A} n (G : redis -> redis -> Prop) (f : redis -> A) r r' :
  race_free n -> (forall a b, G a b -> f b = f a) -> steps n G r r' -> f r' = f r.
Proof.
  intros Hn HG Hs%race_free_steps; [|done]. induction Hs as [|a b c Hab _ IH]; [done|]. rewrite IH. auto.
Qed.

End Guarantees.

(** ** Optimistic transactions

    [in_watch ks l F m]: run with the keys [ks] watched while they held [l],
    and with [F] known unless the connection is already dirty, [m] keeps the
    guarantee.  What a transaction read before EXEC is still what EXEC runs
    on, because a change in between makes the connection dirty. *)

Section Watching.
Context {C : Type}.
Implicit Types (G : redis -> redis -> Prop) (ks : list lkey) (l : list (list raw)).

Definition lists_at ks (r : redis) : list (list raw) := list_at r <$> ks.

Definition in_watch G ks l (F : Prop) {A} (m : M C A) : Prop :=
  forall w, w_watched w = ks -> w_dirty w = true \/ (lists_at ks (w_redis w) = l /\ F) ->
  steps (w_net w) G (w_redis w) (w_redis (m w).2) /\ w_net (m w).2 `suffix_of` w_net w.

Lemma in_watch_guarantees G ks l F {A} (m : M C A) : guarantees G m -> in_watch G ks l F m.
Proof. intros Hm w _ _. apply Hm. Qed.

Lemma in_watch_gets G ks l F {A B} (f : world C -> A) (k : A -> M C B) :
  (forall a, in_watch G ks l F (k a)) -> in_watch G ks l F (bind (gets f) k).
Proof. intros Hk w. unfold bind, gets. apply Hk. Qed.

(** How a round trip inside a transaction leaves the connection. *)
Lemma rcmd_dirty_watch ks l {A} (f : bool -> redis -> res A * redis) w (P : res A -> world C -> Prop) :
  w_watched w = ks ->
  (forall d r n, n `suffix_of` w_net w -> steps (w_net w) (fun _ _ => False) (w_redis w) r ->
     (d = w_dirty w /\ r = w_redis w \/ d = true \/ d = w_dirty w /\ lists_at ks r = lists_at ks (w_redis w)) ->
     P (f d r).1 (set_net n (set_watch ks d (set_redis (f d r).2 w))) /\
     P (Err EIO) (set_net n (set_watch ks d (set_redis (f d r).2 w)))) ->
  (forall n, n `suffix_of` w_net w -> P (Err EIO) (set_net n w)) ->
  P (rcmd_dirty f w).1 (rcmd_dirty f w).2.
Proof.
  intros Hks Hp Herr. unfold rcmd_dirty. rewrite Hks.
  destruct (w_net w) as [|[| | |g] rest] eqn:En; cbn.
  - apply Hp; [done|apply rtc_refl|auto].
  - apply Hp; [by apply suffix_cons_r|apply rtc_refl|auto].
  - apply Herr. by apply suffix_cons_r.
  - apply Hp; [by apply suffix_cons_r|apply rtc_refl|auto].
  - apply Hp; [by apply suffix_cons_r|apply rtc_once; left; exists g; split; [left|done]|].
    unfold touches. case_bool_decide; rewrite ?orb_true_r, ?orb_false_r; auto.
Qed.

Lemma steps_weaken n G r r' : steps n (fun _ _ => False) r r' -> steps n G r r'.
Proof. apply steps_mono; [reflexivity|done]. Qed.

Lemma in_watch_read G ks l F {A B} (f : redis -> A) (k : A -> M C B) :
  (forall a, in_watch G ks l (F /\ exists r, lists_at ks r = l /\ a = f r) (k a)) ->
  in_watch G ks l F (bind (rread f) k).
Proof.
  intros Hk w Hw Hd. unfold bind, rread, rcmd.
  pose (P := fun (x : res A) (w' : world C) =>
    let w'' := match x with Ok a => (k a w').2 | _ => w' end in
    steps (w_net w) G (w_redis w) (w_redis w'') /\ w_net w'' `suffix_of` w_net w).
  assert (P (rcmd_dirty (fun _ r => (Ok (f r), r)) w).1 (rcmd_dirty (fun _ r => (Ok (f r), r)) w).2) as HP.
  { apply (rcmd_dirty_watch ks l); [done| |]; unfold P; cbn.
    - intros d r n Hn Hs Hc. split; [|split; [by apply steps_weaken|done]].
      destruct (Hk (f r) (set_net n (set_watch ks d (set_redis r w)))) as [H1 H2]; cbn in *.
      + done.
      + destruct Hd as [Hd|[Hl HF]]; [destruct Hc as [[-> _]|[->|[-> _]]]; auto|].
        destruct Hc as [[-> ->]|[->|[-> Hlr]]]; [|by left|].
        * destruct (w_dirty w); [by left|right]. eauto.
        * destruct (w_dirty w); [by left|right]. split; [congruence|]. split; [done|]. exists r. split; congruence.
      + split; [|by etrans]. etrans; [by apply steps_weaken|]. by eapply steps_mono.
    - intros n Hn. split; [apply rtc_refl|done]. }
  unfold P in HP. destruct (rcmd_dirty _ w) as [[a|e|] w'] eqn:E; exact HP.
Qed.

Lemma in_watch_exec G ks l (F : Prop) {B} (h : redis -> redis) (k : unit -> M C B) :
  (forall r, lists_at ks r = l -> F -> G r (h r)) -> (forall x, guarantees G (k x)) ->
  in_watch G ks l F (bind (exec h) k).
Proof.
  intros Hh Hk w Hw Hd. unfold bind, exec.
  set (f := fun (dirty : bool) r => if dirty then (Err ETxFailed, r) else (Ok (), h r)).
  pose (P := fun (x : res unit) (w' : world C) =>
    let w'' := match x with Ok a => (k a w').2 | _ => w' end in
    steps (w_net w) G (w_redis w) (w_redis w'') /\ w_net w'' `suffix_of` w_net w).
  assert (P (rcmd_dirty f w).1 (rcmd_dirty f w).2) as HP.
  { apply (rcmd_dirty_watch ks l); [done| |]; unfold P.
    - intros d r n Hn Hs Hc.
      assert (steps (w_net w) G (w_redis w) (f d r).2) as Hstep.
      { destruct d; cbn; [by apply steps_weaken|]. etrans; [by apply steps_weaken|]. apply rtc_once. right. apply Hh.
        - destruct Hd as [Hd|[Hl _]]; [destruct Hc as [[Hx _]|[Hx|[Hx _]]]; congruence|].
          destruct Hc as [[_ ->]|[Hx|[_ ->]]]; congruence.
        - destruct Hd as [Hd|[_ HF]]; [destruct Hc as [[Hx _]|[Hx|[Hx _]]]; congruence|done]. }
      split; [|split; [exact Hstep|done]].
      destruct (f d r) as [[[]|e|] r'] eqn:Ef; cbn in *; [|split; done|split; done].
      destruct (Hk () (set_net n (set_watch ks d (set_redis r' w)))) as [H1 H2]. cbn in *.
      split; [|by etrans]. etrans; [exact Hstep|]. by eapply steps_mono.
    - intros n Hn. split; [apply rtc_refl|done]. }
  unfold P in HP. destruct (rcmd_dirty f w) as [[a|e|] w'] eqn:E; exact HP.
Qed.

Lemma guarantees_watching G ks {A} (fn : M C A) :
  (forall l, in_watch G ks l True fn) -> guarantees G (watching ks fn).
Proof.
  intros Hfn. unfold watching. apply guarantees_bind; [apply guarantees_rread|]. intros _ w.
  destruct (Hfn (lists_at ks (w_redis w)) (set_watch ks false w)) as [H1 H2]; [done|by right|].
  unfold bind, attempt, set_watching. cbn in *.
  destruct (fn (set_watch ks false w)) as [[a|e|] w']; cbn in *; done.
Qed.

End Watching.

(** ** Operations that always return *)

Section Total.
Context {C : Type}.

(** [total m]: [m] returns normally from every world; [no_panic m]: it returns
    normally or with an error. *)
Definition total {A} (m : M C A) : Prop := forall w, exists a, (m w).1 = Ok a.

Definition no_panic {A} (m : M C A) : Prop := forall w, (m w).1 <> Panic.

Lemma total_no_panic {A} (m : M C A) : total m -> no_panic m.
Proof. intros Hm w. destruct (Hm w) as [a ->]. done. Qed.

Lemma total_ret {A} (a : A) : total (ret a : M C A).
Proof. intros w. by eexists. Qed.

Lemma total_gets {A} (f : world C -> A) : total (gets f).
Proof. intros w. by eexists. Qed.

Lemma total_notify k s d : total (notify k s d : M C unit).
Proof. intros w. by eexists. Qed.

Lemma total_try_send sig : total (try_send sig : M C bool).
Proof. intros w. unfold try_send. case_bool_decide; by eexists. Qed.

Lemma total_bind {A B} (m : M C A) (k : A -> M C B) : total m -> (forall a, total (k a)) -> total (bind m k).
Proof. intros Hm Hk w. unfold bind. destruct (Hm w) as [a E]. destruct (m w) as [x w']. cbn in E. subst x. apply Hk. Qed.

Lemma total_attempt {A} (m : M C A) : no_panic m -> total (attempt m).
Proof.
  intros Hm w. unfold attempt. specialize (Hm w). destruct (m w) as [[a|e|] w']; cbn in *; [by eexists|by eexists|done].
Qed.

Lemma total_ignore {A} (m : M C A) : no_panic m -> total (ignore m).
Proof. intros Hm. apply total_bind; [by apply total_attempt|]. intros. apply total_ret. Qed.

Lemma total_mapM {A} (f : A -> M C unit) l : (forall x, total (f x)) -> total (mapM f l).
Proof. intros Hf. induction l; [apply total_ret|]. apply total_bind; [done|by intros]. Qed.

Lemma no_panic_ret {A} (a : A) : no_panic (ret a : M C A).
Proof. done. Qed.

Lemma no_panic_fail {A} e : no_panic (fail e : M C A).
Proof. done. Qed.

Lemma no_panic_bind {A B} (m : M C A) (k : A -> M C B) : no_panic m -> (forall a, no_panic (k a)) -> no_panic (bind m k).
Proof. intros Hm Hk w. unfold bind. specialize (Hm w). destruct (m w) as [[a|e|] w']; cbn in *; [apply Hk|done|done]. Qed.

Lemma no_panic_rcmd {A} (f : redis -> res A * redis) : (forall r, (f r).1 <> Panic) -> no_panic (rcmd f : M C A).
Proof. intros Hf w. unfold rcmd, rcmd_dirty. destruct (w_net w) as [|[]]; cbn; auto. Qed.

Lemma no_panic_rread {A} (f : redis -> A) : no_panic (rread f : M C A).
Proof. by apply no_panic_rcmd. Qed.

Lemma no_panic_rwrite f : no_panic (rwrite f : M C unit).
Proof. by apply no_panic_rcmd. Qed.

Lemma no_panic_exec f : no_panic (exec f : M C unit).
Proof. intros w. unfold exec, rcmd_dirty. destruct (w_net w) as [|[]]; cbn; repeat case_match; done. Qed.

Lemma no_panic_chain_call {A} (f : C -> res A * C) : (forall c, (f c).1 <> Panic) -> no_panic (chain_call f).
Proof. intros Hf w. unfold chain_call. specialize (Hf (w_chain w)). by destruct (f (w_chain w)). Qed.

Lemma no_panic_watching {A} ks (fn : M C A) : no_panic fn -> no_panic (watching ks fn).
Proof.
  intros Hfn. apply no_panic_bind; [apply no_panic_rread|]. intros _. apply no_panic_bind; [done|]. intros _.
  apply no_panic_bind; [by apply total_no_panic, total_attempt|]. intros x. apply no_panic_bind; [done|].
  intros _. by destruct x.
Qed.

End Total.

Create HintDb total.
#[export] Hint Resolve total_ret total_gets total_notify total_try_send total_bind total_attempt total_ignore
  total_mapM total_no_panic no_panic_ret no_panic_fail no_panic_bind no_panic_rread no_panic_rwrite : total.

Create HintDb guarantee.
#[export] Hint Resolve guarantees_ret guarantees_fail guarantees_panic guarantees_gets guarantees_notify
  guarantees_try_send guarantees_set_watching guarantees_lift_res guarantees_chain_call guarantees_sleep guarantees_attempt guarantees_ignore guarantees_rread : guarantee.

(** Works through the structure of a handler. *)
Ltac guarantee :=
  repeat first
    [ progress intros
    | apply guarantees_bind
    | apply guarantees_attempt
    | apply guarantees_ignore
    | apply guarantees_mapM
    | match goal with
      | |- guarantees _ (match ?x with _ => _ end) => destruct x
      | |- guarantees _ (if ?x then _ else _) => destruct x
      end
    | solve [eauto with guarantee] ].

(** ** Operations on the outside state only

    [outside m]: [m] leaves Redis, the connection, the clock, the stop channel
    and the alerts alone. *)

Section Outside.
Context {C : Type}.

Definition outside {A} (m : M C A) : Prop := forall w, exists x c, m w = (x, set_chain c w).

Lemma set_chain_same (w : world C) : set_chain (w_chain w) w = w.
Proof. by destruct w. Qed.

Lemma outside_same {A} (m : M C A) : (forall w, exists x, m w = (x, w)) -> outside m.
Proof. intros Hm w. destruct (Hm w) as [x E]. exists x, (w_chain w). by rewrite set_chain_same. Qed.

Lemma outside_ret {A} (a : A) : outside (ret a).
Proof. apply outside_same. by eexists. Qed.

Lemma outside_fail {A} e : outside (fail e : M C A).
Proof. apply outside_same. by eexists. Qed.

Lemma outside_panic {A} : outside (panic : M C A).
Proof. apply outside_same. by eexists. Qed.

Lemma outside_gets {A} (f : world C -> A) : outside (gets f).
Proof. apply outside_same. by eexists. Qed.

Lemma outside_lift_res {A} (x : res A) : outside (lift_res x : M C A).
Proof. apply outside_same. by eexists. Qed.

Lemma outside_chain_call {A} (f : C -> res A * C) : outside (chain_call f).
Proof. intros w. unfold chain_call. destruct (f (w_chain w)) as [x c]. by exists x, c. Qed.

Lemma outside_bind {A B} (m : M C A) (k : A -> M C B) : outside m -> (forall a, outside (k a)) -> outside (bind m k).
Proof.
  intros Hm Hk w. unfold bind. destruct (Hm w) as (x & c & ->). destruct x as [a|e|]; [|by eexists _, c..].
  destruct (Hk a (set_chain c w)) as (y & c' & ->). by exists y, c'.
Qed.

Lemma outside_attempt {A} (m : M C A) : outside m -> outside (attempt m).
Proof. intros Hm w. unfold attempt. destruct (Hm w) as (x & c & ->). destruct x; by eexists _, c. Qed.

Lemma outside_ignore {A} (m : M C A) : outside m -> outside (ignore m).
Proof. intros Hm. apply outside_bind; [by apply outside_attempt|]. intros _. apply outside_ret. Qed.

Lemma bind_Ok {A B} (x : M C A) (k : A -> M C B) w b w' :
  bind x k w = (Ok b, w') -> exists a w1, x w = (Ok a, w1) /\ k a w1 = (Ok b, w').
Proof. unfold bind. destruct (x w) as [[a|e|] w1]; [eauto|done|done]. Qed.

Lemma bind_ok {A B} (m : M C A) (k : A -> M C B) w a w1 : m w = (Ok a, w1) -> bind m k w = k a w1.
Proof. intros E. unfold bind. by rewrite E. Qed.

Lemma attempt_Ok {A} (m : M C A) w x w' :
  attempt m w = (Ok x, w') -> m w = (match x with inl a => Ok a | inr e => Err e end, w').
Proof. unfold attempt. destruct (m w) as [[a|e|] w1]; [by intros [= <- <-]..|done]. Qed.

Lemma chain_call_Ok {A} (f : C -> res A * C) w x w' : chain_call f w = (x, w') -> (f (w_chain w)).1 = x.
Proof. unfold chain_call. destruct (f (w_chain w)). by intros [= <- _]. Qed.

End Outside.

Create HintDb outside.
#[export] Hint Resolve outside_ret outside_fail outside_panic outside_gets outside_lift_res outside_chain_call outside_bind
  outside_attempt outside_ignore : outside.

(** Splits the matches of a handler and looks the pieces up. *)
Ltac outside :=
  repeat first
    [ progress auto with outside
    | apply outside_bind; [|intros ?]
    | apply outside_attempt
    | case_match ].
