(* ===== verification/Collapse.v ===== *)
(** * Collapsing a settle batch by sandbox (internal/voucher/collapse.go)

    [CollapseBySandbox] keeps one output voucher per (user, provider, sandbox),
    in order of first appearance, using a map from keys to positions and an
    output slice updated in place.  [collapse_ref] is what it computes, stated
    without either: one merged voucher per distinct key. *)

From S2P Require Import Prelude Hex Bytes Crypto Voucher.

Abbreviation groupKey := (string * string * string)%type.

(** The key vouchers are grouped by. [internal/voucher/collapse.go:35-45 groupKey] *)
Definition group_key (v : SandboxVoucher) : groupKey :=
  (addr_hex (User v), addr_hex (Provider v), SandboxID v).

Definition set_fee (v : SandboxVoucher) (fee : Z) : SandboxVoucher :=
  mkVoucher (SandboxID v) (User v) (Provider v) (Some fee) (UsageHash v) (Nonce v) (Signature v) (Aggregated v).

Section Collapse.
Context `{Keccak}.

Record collapse_state := mkCollapse {
  c_index : gmap groupKey nat;
  c_out : list SandboxVoucher;
  c_merged : list nat
}.

(** One iteration of the grouping loop; adding or copying a nil fee panics, as
    does a position outside the slices.
    [internal/voucher/collapse.go:40-58 CollapseBySandbox] *)
Definition collapse_step (st : collapse_state) (v : SandboxVoucher) : res collapse_state :=
  let k := group_key v in
  match c_index st !! k with
  | Some i =>
      match c_out st !! i, c_merged st !! i with
      | Some o, Some m =>
          match TotalFee o, TotalFee v with
          | Some fo, Some fv =>
              Ok (mkCollapse (c_index st) (<[i := set_fee o (fo + fv)]> (c_out st)) (<[i := S m]> (c_merged st)))
          | _, _ => Panic
          end
      | _, _ => Panic
      end
  | None =>
      match TotalFee v with
      | Some fv =>
          Ok (mkCollapse (<[k := length (c_out st)]> (c_index st)) (c_out st ++ [set_fee v fv]) (c_merged st ++ [1%nat]))
      | None => Panic
      end
  end.

Fixpoint collapse_loop (vs : list SandboxVoucher) (st : collapse_state) : res collapse_state :=
  match vs with
  | [] => Ok st
  | v :: vs' => res_bind (collapse_step st v) (collapse_loop vs')
  end.

(** The second pass over one output voucher.
    [internal/voucher/collapse.go:60-75 CollapseBySandbox] *)
Definition collapse_mark (now : Z) (v : SandboxVoucher) (merged : nat) : SandboxVoucher :=
  if (merged <? 2)%nat then v
  else mkVoucher (SandboxID v) (User v) (Provider v) (TotalFee v)
         (BuildUsageHash (SandboxID v) now now 0) (Nonce v) (Signature v) true.

(** [internal/voucher/collapse.go:30-78 CollapseBySandbox] *)
Definition CollapseBySandbox (vs : list SandboxVoucher) (now : Z) : res (list SandboxVoucher) :=
  if (length vs <? 2)%nat then Ok vs
  else res_bind (collapse_loop vs (mkCollapse ∅ [] [])) (fun st =>
       Ok (zip_with (collapse_mark now) (c_out st) (c_merged st))).

(** ** Reference definition *)

Definition group (k : groupKey) (vs : list SandboxVoucher) : list SandboxVoucher :=
  filter (fun v => group_key v = k) vs.

(** The distinct keys, in order of first appearance. *)
Definition first_keys (vs : list SandboxVoucher) : list groupKey :=
  foldl (fun ks v => if decide (group_key v ∈ ks) then ks else ks ++ [group_key v]) [] vs.

(** A group of one is passed through; a larger one becomes its first voucher
    carrying the summed fee, the settle-instant hash and the aggregate flag. *)
Definition merge_group (now : Z) (g : list SandboxVoucher) : option SandboxVoucher :=
  match g with
  | [] => None
  | [v] => Some v
  | v :: _ =>
      Some (mkVoucher (SandboxID v) (User v) (Provider v) (Some (zsum fee_of g))
              (BuildUsageHash (SandboxID v) now now 0) (Nonce v) (Signature v) true)
  end.

Definition collapse_ref (now : Z) (vs : list SandboxVoucher) : list SandboxVoucher :=
  omap (fun k => merge_group now (group k vs)) (first_keys vs).

(** ** Lemmas *)

Definition has_fee (v : SandboxVoucher) : Prop := is_Some (TotalFee v).

Lemma collapse_loop_app l x st :
  collapse_loop (l ++ [x]) st = res_bind (collapse_loop l st) (fun st' => collapse_step st' x).
Proof.
  revert st. induction l as [|y l IH]; intros st; cbn.
  - destruct (collapse_step st x); done.
  - destruct (collapse_step st y); cbn; [apply IH|done|done].
Qed.

Lemma group_app k l l' : group k (l ++ l') = group k l ++ group k l'.
Proof. apply filter_app. Qed.

Lemma first_keys_snoc l x :
  first_keys (l ++ [x]) =
  if decide (group_key x ∈ first_keys l) then first_keys l else first_keys l ++ [group_key x].
Proof. unfold first_keys. rewrite foldl_app. done. Qed.

Lemma group_snoc k l x :
  group k (l ++ [x]) = if decide (group_key x = k) then group k l ++ [x] else group k l.
Proof.
  rewrite group_app. unfold group at 2. rewrite filter_cons, filter_nil.
  case_decide; [done|apply app_nil_r].
Qed.

Lemma elem_of_first_keys k l : k ∈ first_keys l <-> group k l <> [].
Proof.
  induction l as [|x l IH] using rev_ind; [split; [set_solver|done]|].
  rewrite first_keys_snoc, group_snoc.
  destruct (decide (group_key x = k)) as [<-|Hne].
  - case_decide; (split; [intros _; by destruct (group _ l)|]); [done|set_solver].
  - rewrite <- IH. case_decide; set_solver.
Qed.

Lemma NoDup_first_keys l : NoDup (first_keys l).
Proof.
  induction l as [|x l IH] using rev_ind; [constructor|].
  rewrite first_keys_snoc. case_decide; [done|].
  apply NoDup_app. split; [done|]. split; [set_solver|apply NoDup_singleton].
Qed.

(** What the loop state is after a list of vouchers. *)
Record loop_inv (l : list SandboxVoucher) (st : collapse_state) : Prop := {
  inv_len : length (c_out st) = length (first_keys l) /\ length (c_merged st) = length (first_keys l);
  inv_index : forall k i, c_index st !! k = Some i <-> first_keys l !! i = Some k;
  inv_out : forall i k, first_keys l !! i = Some k ->
    exists v g, group k l = v :: g /\ c_out st !! i = Some (set_fee v (zsum fee_of (v :: g))) /\
    c_merged st !! i = Some (length (v :: g))
}.

Lemma set_fee_fee v f : TotalFee (set_fee v f) = Some f.
Proof. done. Qed.

Lemma set_fee_twice v f f' : set_fee (set_fee v f) f' = set_fee v f'.
Proof. done. Qed.

Lemma loop_inv_nil : loop_inv [] (mkCollapse ∅ [] []).
Proof. split; [done| |done]. intros k i. cbn. rewrite lookup_empty. naive_solver. Qed.

(** The key was seen: its entry is updated in place. *)
Lemma loop_inv_seen l x st f i :
  loop_inv l st -> TotalFee x = Some f -> c_index st !! group_key x = Some i ->
  exists st', collapse_step st x = Ok st' /\ loop_inv (l ++ [x]) st'.
Proof.
  intros [[Ho Hm] Hi Hout] Hf Hx. pose proof (proj1 (Hi _ _) Hx) as Hk.
  destruct (Hout _ _ Hk) as (v & g & Hg & Hov & Hmv).
  unfold collapse_step. rewrite Hx, Hov, Hmv, set_fee_fee, Hf. eexists. split; [done|].
  assert (first_keys (l ++ [x]) = first_keys l) as Hkeys.
  { rewrite first_keys_snoc, decide_True; [done|]. by eapply list_elem_of_lookup_2. }
  split; rewrite ?Hkeys; cbn; rewrite ?length_insert; [done|done|].
  intros j k Hj. rewrite group_snoc. case_decide as Hc.
  - subst k. assert (j = i) as -> by (eapply NoDup_lookup; eauto using NoDup_first_keys).
    rewrite !list_lookup_insert_eq by (rewrite ?Ho, ?Hm; eapply lookup_lt_Some; eauto).
    exists v, (g ++ [x]). rewrite Hg, app_comm_cons, zsum_app, set_fee_twice, zsum_one.
    unfold fee_of at 3. rewrite Hf. cbn [default from_option].
    split; [done|]. split; [done|f_equal; rewrite length_app; cbn; lia].
  - assert (j <> i) by congruence. rewrite !list_lookup_insert_ne by done. auto.
Qed.

(** A new key: an entry is appended. *)
Lemma loop_inv_new l x st f :
  loop_inv l st -> TotalFee x = Some f -> c_index st !! group_key x = None ->
  exists st', collapse_step st x = Ok st' /\ loop_inv (l ++ [x]) st'.
Proof.
  intros [[Ho Hm] Hi Hout] Hf Hx. unfold collapse_step. rewrite Hx, Hf. eexists. split; [done|].
  assert (group_key x ∉ first_keys l) as Hnew.
  { intros [i E]%list_elem_of_lookup. apply Hi in E. congruence. }
  split; rewrite first_keys_snoc, decide_False by done; cbn.
  - rewrite !length_app. cbn. lia.
  - intros k i. rewrite lookup_snoc_Some. destruct (decide (k = group_key x)) as [->|Hne].
    + rewrite lookup_insert_eq, Ho. split; [intros [= ->]; right; done|].
      intros [[? E]|[<- _]]; [|done]. contradict Hnew. by eapply list_elem_of_lookup_2.
    + rewrite lookup_insert_ne by done. rewrite Hi. split; [|naive_solver].
      intros E. left. split; [by eapply lookup_lt_Some|done].
  - intros i k. rewrite lookup_snoc_Some. intros [[Hlt E]|[-> <-]].
    + rewrite group_snoc, decide_False; [|intros Hc; subst k; contradict Hnew; by eapply list_elem_of_lookup_2].
      rewrite !lookup_app_l by lia. auto.
    + exists x, []. rewrite group_snoc, decide_True by done.
      assert (group (group_key x) l = []) as ->.
      { destruct (group (group_key x) l) eqn:E; [done|]. contradict Hnew. apply elem_of_first_keys. by rewrite E. }
      rewrite <- Ho at 1. rewrite <- Hm. rewrite !list_lookup_middle by done.
      split; [done|]. split; [|done]. rewrite zsum_one.
      unfold fee_of. rewrite Hf. done.
Qed.

Lemma collapse_loop_inv l :
  Forall has_fee l -> exists st, collapse_loop l (mkCollapse ∅ [] []) = Ok st /\ loop_inv l st.
Proof.
  induction l as [|x l IH] using rev_ind; intros Hf; [eauto using loop_inv_nil|].
  apply Forall_app in Hf as [Hl [[f Hx] _]%Forall_cons].
  destruct (IH Hl) as (st & E & Hinv). rewrite collapse_loop_app, E. cbn.
  destruct (c_index st !! group_key x) eqn:Hk; eauto using loop_inv_seen, loop_inv_new.
Qed.

Lemma set_fee_self v : has_fee v -> set_fee v (fee_of v) = v.
Proof. intros [f E]. destruct v; cbn in *. subst. done. Qed.

Lemma mark_merge now v g :
  has_fee v ->
  merge_group now (v :: g) = Some (collapse_mark now (set_fee v (zsum fee_of (v :: g))) (length (v :: g))).
Proof.
  intros Hv. destruct g as [|v' g]; cbn [merge_group length]; unfold collapse_mark; cbn [Nat.ltb Nat.leb]; [|done].
  rewrite zsum_one, set_fee_self; done.
Qed.

Lemma collapse_ref_lookup now vs i :
  collapse_ref now vs !! i = first_keys vs !! i ≫= (fun k => merge_group now (group k vs)).
Proof.
  unfold collapse_ref. assert (Forall (fun k => is_Some (merge_group now (group k vs))) (first_keys vs)) as Hall.
  { apply Forall_forall. intros k Hk%elem_of_first_keys. destruct (group k vs) as [|v [|v' g]]; cbn; eauto. done. }
  revert i. induction Hall as [|k ks [v Hv] Hks IH]; intros i; [done|].
  cbn. rewrite Hv. destruct i; cbn; [by rewrite Hv|apply IH].
Qed.

Lemma group_keys k v g vs : group k vs = v :: g -> group_key v = k.
Proof.
  intros E. assert (v ∈ group k vs) as Hv by (rewrite E; set_solver).
  apply list_elem_of_filter in Hv. tauto.
Qed.

Lemma merge_group_key now k vs v : merge_group now (group k vs) = Some v -> group_key v = k.
Proof.
  destruct (group k vs) as [|a [|b g]] eqn:E; cbn; [done| |]; intros [= <-];
    apply group_keys in E; done.
Qed.

Lemma merge_group_fee now g v : merge_group now g = Some v -> fee_of v = zsum fee_of g.
Proof. destruct g as [|a [|b g]]; cbn [merge_group]; [done| |]; intros [= <-]; rewrite ?zsum_one; done. Qed.

Lemma merge_group_is_Some now k vs : k ∈ first_keys vs -> is_Some (merge_group now (group k vs)).
Proof. intros Hk%elem_of_first_keys. destruct (group k vs) as [|v [|v' g]]; cbn; eauto. done. Qed.

Lemma collapse_ref_keys now vs : group_key <$> collapse_ref now vs = first_keys vs.
Proof.
  apply list_eq. intros i. rewrite list_lookup_fmap, collapse_ref_lookup.
  destruct (first_keys vs !! i) as [k|] eqn:E; [|done]. cbn.
  destruct (merge_group_is_Some now k vs) as [v Hv]; [by eapply list_elem_of_lookup_2|].
  rewrite Hv. cbn. f_equal. by eapply merge_group_key.
Qed.

(** In a list with distinct keys, the group of a key is its one element. *)
Lemma group_nodup l v : NoDup (group_key <$> l) -> v ∈ l -> group (group_key v) l = [v].
Proof.
  induction l as [|x l IH]; [set_solver|]. rewrite fmap_cons, NoDup_cons. intros [Hx Hnd] Hv.
  unfold group. rewrite filter_cons. apply elem_of_cons in Hv as [<-|Hv].
  - rewrite decide_True by done. f_equal. apply filter_none.
    intros y Hy Hk. apply Hx. rewrite <- Hk. apply list_elem_of_fmap_2, Hy.
  - rewrite decide_False; [by apply IH|]. intros E. apply Hx. rewrite E. apply list_elem_of_fmap_2, Hv.
Qed.

Lemma collapse_ref_group_fee now vs k :
  zsum fee_of (group k (collapse_ref now vs)) = zsum fee_of (group k vs).
Proof.
  destruct (decide (k ∈ first_keys vs)) as [Hk|Hk].
  - destruct (merge_group_is_Some now k vs Hk) as [v Hv].
    assert (v ∈ collapse_ref now vs) as Hin.
    { apply list_elem_of_lookup in Hk as [i Hi]. eapply list_elem_of_lookup_2.
      rewrite collapse_ref_lookup, Hi. exact Hv. }
    pose proof (merge_group_key _ _ _ _ Hv) as <-.
    rewrite group_nodup, zsum_one by (rewrite ?collapse_ref_keys; auto using NoDup_first_keys).
    by eapply merge_group_fee.
  - assert (group k vs = []) as ->.
    { destruct (group k vs) eqn:E; [done|]. contradict Hk. apply elem_of_first_keys. by rewrite E. }
    rewrite <- collapse_ref_keys with (now := now) in Hk.
    replace (group k (collapse_ref now vs)) with (@nil SandboxVoucher); [done|].
    symmetry. apply filter_none. intros y Hy <-. apply Hk, list_elem_of_fmap_2, Hy.
Qed.

Lemma CollapseBySandbox_ref vs now :
  Forall has_fee vs -> CollapseBySandbox vs now = Ok (collapse_ref now vs).
Proof.
  intros Hf. unfold CollapseBySandbox. destruct (Nat.ltb_spec (length vs) 2) as [Hlt|_].
  { destruct vs as [|v [|v' vs]]; cbn in Hlt; [done| |lia].
    assert (first_keys [v] = [group_key v]) as Hk by (change [v] with ([] ++ [v]); rewrite first_keys_snoc, decide_False by set_solver; done).
    unfold collapse_ref. rewrite Hk. cbn [omap list_omap].
    rewrite (group_nodup [v] v) by (cbn; auto using NoDup_singleton, list_elem_of_here). done. }
  destruct (collapse_loop_inv _ Hf) as (st & -> & [[Ho Hm] _ Hout]). cbn. f_equal.
  apply list_eq. intros i. rewrite lookup_zip_with, collapse_ref_lookup.
  destruct (first_keys vs !! i) as [k|] eqn:E; cbn.
  - destruct (Hout _ _ E) as (v & g & Hg & -> & ->). cbn. rewrite Hg, mark_merge; [done|].
    assert (v ∈ group k vs) as Hv by (rewrite Hg; set_solver).
    apply list_elem_of_filter in Hv as [_ Hv]. rewrite Forall_forall in Hf. auto.
  - apply lookup_ge_None in E. destruct (c_out st !! i) eqn:E2; [apply lookup_lt_Some in E2; lia|done].
Qed.

(** Collapsing a batch whose vouchers all carry a fee never panics and is
    exactly the reference: one voucher per distinct (user, provider, sandbox)
    in order of first appearance, lone vouchers byte-identical to what arrived
    and merged ones carrying the group's total fee, the settle-instant usage
    hash and the aggregate flag. *)
Theorem collapse_is_reference vs now :
  Forall has_fee vs -> CollapseBySandbox vs now = Ok (collapse_ref now vs).
Proof. apply CollapseBySandbox_ref. Qed.

(** Collapsing neither creates nor loses money nor moves it between
    sandboxes: for every (user, provider, sandbox) the fees after equal the
    fees before, and every such key is settled by exactly one voucher. *)
Theorem collapse_conserves vs now out :
  Forall has_fee vs -> CollapseBySandbox vs now = Ok out ->
  (forall k, zsum fee_of (group k out) = zsum fee_of (group k vs)) /\
  NoDup (group_key <$> out) /\ (forall v, v ∈ vs -> group_key v ∈ group_key <$> out).
Proof.
  intros Hf. rewrite CollapseBySandbox_ref by done. intros E%(inj Ok). subst out.
  rewrite collapse_ref_keys. split; [apply collapse_ref_group_fee|]. split; [apply NoDup_first_keys|].
  intros v Hv. apply elem_of_first_keys. intros E.
  assert (v ∈ group (group_key v) vs) as Hin by (apply list_elem_of_filter; done).
  rewrite E in Hin. set_solver.
Qed.

End Collapse.

(** ** Concrete inputs *)

Module CollapseExamples.
Import Toy.

Definition mk (sb : string) (u fee : Z) : SandboxVoucher :=
  mkVoucher sb u 8192 (Some fee) [] None [] false.

Definition batch : list SandboxVoucher := [mk "a" 1 10; mk "b" 1 20; mk "a" 1 5; mk "a" 2 7].

Lemma batch_fees : Forall has_fee batch.
Proof. repeat constructor; eexists; reflexivity. Qed.

Lemma collapse_is_reference_witness :
  exists out, CollapseBySandbox batch 99 = Ok out /\ length out = 3%nat /\ fee_of <$> out = [15; 20; 7].
Proof.
  exists (collapse_ref 99 batch). split; [exact (collapse_is_reference batch 99 batch_fees)|].
  split; vm_compute; reflexivity.
Defined.

Lemma collapse_conserves_witness :
  zsum fee_of (group (group_key (mk "a" 1 0)) (collapse_ref 99 batch)) = 15.
Proof.
  rewrite (proj1 (collapse_conserves batch 99 (collapse_ref 99 batch) batch_fees
                    (CollapseBySandbox_ref batch 99 batch_fees))).
  vm_compute. reflexivity.
Defined.

End CollapseExamples.
