(* ===== verification/Backlog.v ===== *)
(** * The voucher backlog (internal/voucher/aggregate.go, dlq.go)

    Queue summaries, held debt, the covered/held split of one user's backlog
    against a balance, the operator's collapse and the dead-letter queue. *)

From S2P Require Import Prelude Hex Bytes Crypto Voucher Store.

(** [internal/voucher/aggregate.go:20-20 MaxScanItems] *)
Definition MaxScanItems : Z := 10000.

(** [const maxRetries = 5] of both rewrites. [internal/voucher/aggregate.go:250-250 AggregateCovered] *)
Definition maxRetries : nat := 5.

(** The addresses of a summary row; [Hex] is injective, so the address stands
    for its checksummed text. [internal/voucher/aggregate.go:26-29 Group] *)
Record Group := mkGroup { g_user : addr; g_provider : addr }.

#[global] Instance Group_eq_dec : EqDecision Group.
Proof. solve_decision. Defined.

#[global] Instance Group_countable : Countable Group.
Proof.
  refine (inj_countable' (fun g => (g_user g, g_provider g)) (fun '(u, p) => mkGroup u p) _). by intros [].
Defined.

(** [internal/voucher/aggregate.go:33-37 Summary] *)
Record Summary := mkSummary { s_group : Group; s_count : nat; s_total : Z }.

(** [strings.EqualFold(v.User.Hex(), userLower) && ...Provider...]
    [internal/voucher/aggregate.go:282-283 AggregateCovered] *)
Definition belongs (user provider : addr) (v : SandboxVoucher) : bool :=
  equal_fold (addr_hex (User v)) (addr_hex user) && equal_fold (addr_hex (Provider v)) (addr_hex provider).

(** The bucket update of the summary loop.
    [internal/voucher/aggregate.go:72-90 SummarizeQueue] *)
Definition summarize_step (buckets : gmap Group (nat * Z)) (r : raw) : gmap Group (nat * Z) :=
  match unmarshal r with
  | None => buckets
  | Some v =>
      let key := mkGroup (User v) (Provider v) in
      let '(count, fee) := default (0%nat, 0) (buckets !! key) in
      <[key := (S count, match TotalFee v with Some f => fee + f | None => fee end)]> buckets
  end.

Definition summarize (items : list raw) : gmap Group (nat * Z) := foldl summarize_step ∅ items.

(** The rows in map order (Go's is unspecified).
    [internal/voucher/aggregate.go:92-101 SummarizeQueue] *)
Definition summary_rows (minCount : nat) (buckets : gmap Group (nat * Z)) : list Summary :=
  omap (fun '(g, (count, fee)) => if (count <? minCount)%nat then None else Some (mkSummary g count fee))
    (map_to_list buckets).

(** The fee sums of [HeldDebt] and [QueuedPending].
    [internal/voucher/aggregate.go:122-131 HeldDebt] *)
Definition sum_step (p : SandboxVoucher -> bool) (total : Z) (r : raw) : Z :=
  match unmarshal r with
  | Some v => if p v then match TotalFee v with Some f => total + f | None => total end else total
  | None => total
  end.

(** [internal/voucher/aggregate.go:431-435 sandboxGroup] *)
Record sandboxGroup := mkSbGroup { sg_sum : Z; sg_count : nat }.

(** The locals of one split. *)
Record split_state := mkSplit {
  coveredSum : Z;
  coveredCount : nat;
  heldSum : Z;
  heldRaws : list raw;
  sbSeen : gset string;
  heldSandboxIDs : list string;
  coveredBySandbox : gmap string sandboxGroup;
  coveredOrder : list string;
  holding : bool;
  dropped : nat
}.

Definition split_init : split_state := mkSplit 0 0 0 [] ∅ [] ∅ [] false 0.

(** The covered side: add the fee to its sandbox's group.
    [internal/voucher/aggregate.go:315-333 AggregateCovered] *)
Definition split_cover (st : split_state) (sid : string) (fee next : Z) : split_state :=
  let '(g, order) :=
    match coveredBySandbox st !! sid with
    | Some g => (g, coveredOrder st)
    | None => (mkSbGroup 0 0, coveredOrder st ++ [sid])
    end in
  mkSplit next (S (coveredCount st)) (heldSum st) (heldRaws st) (sbSeen st) (heldSandboxIDs st)
    (<[sid := mkSbGroup (sg_sum g + fee) (S (sg_count g))]> (coveredBySandbox st)) order false (dropped st).

(** The held side: from the first overflow on, everything is debt.
    [internal/voucher/aggregate.go:335-342 AggregateCovered] *)
Definition split_hold (st : split_state) (r : raw) (sid : string) (fee : Z) : split_state :=
  let fresh := negb (bool_decide (sid = EmptyString)) && negb (bool_decide (sid ∈ sbSeen st)) in
  mkSplit (coveredSum st) (coveredCount st) (heldSum st + fee) (heldRaws st ++ [r])
    (if fresh then {[sid]} ∪ sbSeen st else sbSeen st)
    (if fresh then heldSandboxIDs st ++ [sid] else heldSandboxIDs st)
    (coveredBySandbox st) (coveredOrder st) true (dropped st).

Definition split_drop (st : split_state) : split_state :=
  mkSplit (coveredSum st) (coveredCount st) (heldSum st) (heldRaws st) (sbSeen st) (heldSandboxIDs st)
    (coveredBySandbox st) (coveredOrder st) (holding st) (S (dropped st)).

(** One iteration over the user's backlog.
    [internal/voucher/aggregate.go:301-343 AggregateCovered] *)
Definition split_step (balance : Z) (st : split_state) (r : raw) : split_state :=
  match unmarshal r with
  | None => split_drop st
  | Some v =>
      let fee := default 0 (TotalFee v) in
      let next := coveredSum st + fee in
      if negb (holding st) && (next <=? balance) then split_cover st (SandboxID v) fee next
      else split_hold st r (SandboxID v) fee
  end.

Definition split_backlog (balance : Z) (mine : list raw) : split_state :=
  foldl (split_step balance) split_init mine.

(** The queue's entries of the pair, and everyone else's (malformed entries
    included), each in queue order.
    [internal/voucher/aggregate.go:276-288 AggregateCovered] *)
Definition is_mine (user provider : addr) (r : raw) : bool :=
  match unmarshal r with Some v => belongs user provider v | None => false end.

Definition mine_of (user provider : addr) (queued : list raw) : list raw :=
  filter (fun r => is_mine user provider r = true) queued.

Definition kept_of (user provider : addr) (queued : list raw) : list raw :=
  filter (fun r => ~ is_mine user provider r = true) queued.

Section Rewrite.
Context `{Keccak}.

(** The aggregate minted for one sandbox of the covered side.
    [internal/voucher/aggregate.go:345-364 AggregateCovered] *)
Definition mint_agg (user provider : addr) (now : Z) (sid : string) (sum : Z) : SandboxVoucher :=
  mkVoucher sid user provider (Some sum) (BuildUsageHash sid now now 0) None [] true.

Definition covered_aggs (user provider : addr) (now : Z) (st : split_state) : list raw :=
  if (0 <? coveredCount st)%nat then
    (fun sid => marshal (mint_agg user provider now sid
                           (default 0 (sg_sum <$> coveredBySandbox st !! sid)))) <$> coveredOrder st
  else [].

(** The MULTI/EXEC body: rebuild the queue, rewrite the held list and keep the
    held-users index in step. [internal/voucher/aggregate.go:366-393 AggregateCovered] *)
Definition covered_rewrite (qk : lkey) (user provider : addr) (kept aggs held : list raw) (r : redis) : redis :=
  let hk := LHeld user provider in
  let r := ldel qk r in
  let r := if bool_decide (kept = []) then r else rpush qk kept r in
  let r := foldl (fun r a => rpush qk [a] r) r aggs in
  let r := ldel hk r in
  if bool_decide (held = []) then srem_held provider user r
  else sadd_held provider user (rpush hk held r).

(** [internal/voucher/aggregate.go:137-149 CoveredResult] *)
Record CoveredResult := mkCovered {
  cr_Covered : nat;
  cr_CoveredFee : Z;
  cr_Held : nat;
  cr_HeldFee : Z;
  cr_HeldSandboxIDs : list string;
  cr_Dropped : nat
}.

(** [internal/voucher/aggregate.go:106-109 AggregateResult] *)
Record AggregateResult := mkAggregated { ar_Matched : nat; ar_TotalFee : Z }.

Context {C : Type}.

(** One attempt: the function passed to [rdb.Watch].
    [internal/voucher/aggregate.go:261-406 AggregateCovered] *)
Definition covered_attempt (qk : lkey) (user provider : addr) (balance : Z) : M C CoveredResult :=
  let hk := LHeld user provider in
  watching [qk; hk] (
    let! held := rread (fun r => lrange (-1) (list_at r hk)) in
    let! queued := rread (fun r => lrange (-1) (list_at r qk)) in
    let! now := gets w_now in
    let st := split_backlog balance (held ++ mine_of user provider queued) in
    exec (covered_rewrite qk user provider (kept_of user provider queued)
            (covered_aggs user provider now st) (heldRaws st)) ;;
    ret (mkCovered (coveredCount st) (coveredSum st) (length (heldRaws st)) (heldSum st)
           (heldSandboxIDs st) (dropped st))).

(** Retries on [TxFailedErr] only. *)
Fixpoint retry_tx {A} (n : nat) (msg : string) (m : M C A) : M C A :=
  match n with
  | O => fail (EMsg msg)
  | S n' =>
      let! x := attempt m in
      match x with
      | inl a => ret a
      | inr ETxFailed => retry_tx n' msg m
      | inr e => fail e
      end
  end.

(** A nil balance counts as zero. [internal/voucher/aggregate.go:249-417 AggregateCovered] *)
Definition AggregateCovered (qk : lkey) (user provider : addr) (balance : option Z) : M C CoveredResult :=
  retry_tx maxRetries "aggregate-covered failed after 5 retries (queue churning?)"
    (covered_attempt qk user provider (default 0 balance)).

(** The locals of the operator's collapse.
    [internal/voucher/aggregate.go:483-498 Aggregate] *)
Definition aggregate_step (user provider : addr) (st : list raw * Z * nat) (r : raw) : list raw * Z * nat :=
  let '(kept, total, matched) := st in
  match unmarshal r with
  | None => (kept ++ [r], total, matched)
  | Some v =>
      if belongs user provider v
      then (kept, match TotalFee v with Some f => total + f | None => total end, S matched)
      else (kept ++ [r], total, matched)
  end.

(** [internal/voucher/aggregate.go:523-534 Aggregate] *)
Definition aggregate_rewrite (qk : lkey) (kept : list raw) (agg : raw) (r : redis) : redis :=
  let r := ldel qk r in
  let r := if bool_decide (kept = []) then r else rpush qk kept r in
  rpush qk [agg] r.

(** [internal/voucher/aggregate.go:473-543 Aggregate] *)
Definition aggregate_attempt (qk : lkey) (user provider : addr) : M C AggregateResult :=
  watching [qk] (
    let! items := rread (fun r => lrange (-1) (list_at r qk)) in
    let '(kept, total, matched) := foldl (aggregate_step user provider) ([], 0, 0%nat) items in
    if bool_decide (matched = 0%nat) then ret (mkAggregated 0 0)
    else
      let! now := gets w_now in
      exec (aggregate_rewrite qk kept (marshal (mint_agg user provider now AggregatedSandboxID total))) ;;
      ret (mkAggregated matched total)).

(** [internal/voucher/aggregate.go:466-554 Aggregate] *)
Definition Aggregate (qk : lkey) (user provider : addr) : M C AggregateResult :=
  retry_tx maxRetries "aggregate failed after 5 retries (queue churning?)" (aggregate_attempt qk user provider).

(** Rows, number of entries scanned, truncation flag.
    [internal/voucher/aggregate.go:48-103 SummarizeQueue] *)
Definition SummarizeQueue (qk : lkey) (minCount : nat) : M C (list Summary * nat * bool) :=
  let! total := rread (fun r => Z.of_nat (length (list_at r qk))) in
  let '(stop, truncated) := if MaxScanItems <? total then (MaxScanItems - 1, true) else (total - 1, false) in
  if total =? 0 then ret ([], 0%nat, false)
  else
    let! items := rread (fun r => lrange stop (list_at r qk)) in
    ret (summary_rows minCount (summarize items), length items, truncated).

(** [internal/voucher/aggregate.go:116-133 HeldDebt] *)
Definition HeldDebt (user provider : addr) : M C Z :=
  let! items := rread (fun r => lrange (-1) (list_at r (LHeld user provider))) in
  ret (foldl (sum_step (fun _ => true)) 0 items).

(** [internal/voucher/aggregate.go:157-179 QueuedPending] *)
Definition QueuedPending (qk : lkey) (user provider : addr) : M C Z :=
  let! items := rread (fun r => lrange (-1) (list_at r qk)) in
  ret (foldl (sum_step (belongs user provider)) 0 items).

(** The voucher as parked: nonce and signature cleared. *)
Definition strip (v : SandboxVoucher) : SandboxVoucher := set_signature (set_nonce v None) [].

(** [internal/voucher/aggregate.go:188-204 PushHeld] *)
Definition PushHeld (v : SandboxVoucher) : M C unit :=
  let v := strip v in
  rwrite (fun r => sadd_held (Provider v) (User v) (rpush (LHeld (User v) (Provider v)) [marshal v] r)).

(** [internal/voucher/aggregate.go:208-219 HeldUsers] *)
Definition HeldUsers (provider : addr) : M C (list addr) :=
  rread (fun r => elements (held_users_at r provider)).

(** [internal/voucher/dlq.go:35-43 DLQEntry] *)
Record DLQEntry := mkDLQ {
  dlq_raw : raw;
  dlq_sandbox : string;
  dlq_user : addr;
  dlq_provider : addr;
  dlq_fee : option Z;
  dlq_nonce : option Z;
  dlq_aggregated : bool
}.

Definition dlq_entry (r : raw) : option DLQEntry :=
  (fun v => mkDLQ r (SandboxID v) (User v) (Provider v) (TotalFee v) (Nonce v) (IsAggregated v)) <$> unmarshal r.

(** [internal/voucher/dlq.go:48-76 ListDLQ] *)
Definition ListDLQ (provider : addr) : M C (list DLQEntry) :=
  let! items := rread (fun r => lrange (-1) (list_at r (LDLQ provider))) in
  ret (omap dlq_entry items).

Definition dlq_matches (user provider : addr) (nonce : Z) (r : raw) : bool :=
  match unmarshal r with
  | Some v => bool_decide (User v = user) && bool_decide (Provider v = provider) && bool_decide (Nonce v = Some nonce)
  | None => false
  end.

(** The nonce argument is decimal text: [None] when empty, [Some None] when it
    is no canonical decimal (equal to no [Nonce.String()]).
    [internal/voucher/dlq.go:80-107 DiscardFromDLQ] *)
Definition DiscardFromDLQ (user provider : addr) (nonce : option (option Z)) : M C Z :=
  match nonce with
  | None => fail (EMsg "nonce required")
  | Some n =>
      let! items := rread (fun r => lrange (-1) (list_at r (LDLQ provider))) in
      match n ≫= (fun n => find (dlq_matches user provider n) items) with
      | None => ret 0
      | Some x =>
          rcmd (fun r => let '(l, k) := lrem1 x (list_at r (LDLQ provider)) in
                         (Ok k, set_list (LDLQ provider) l r))
      end
  end.

End Rewrite.

(** ** Fees of raw entries *)

Definition raw_fee (r : raw) : Z := match unmarshal r with Some v => fee_of v | None => 0 end.

(** The fee of an entry on a given sandbox's account. *)
Definition sandbox_fee (sid : string) (r : raw) : Z :=
  match unmarshal r with
  | Some v => if decide (SandboxID v = sid) then fee_of v else 0
  | None => 0
  end.

Definition well_formed (r : raw) : Prop := is_Some (unmarshal r).

#[global] Instance well_formed_dec r : Decision (well_formed r).
Proof. unfold well_formed. apply _. Defined.

(** How many vouchers from the oldest on fit under the balance: every prefix
    up to there does, the next one does not. *)
Fixpoint cov_len (room : Z) (vs : list SandboxVoucher) : nat :=
  match vs with
  | [] => 0
  | v :: vs' => if fee_of v <=? room then S (cov_len (room - fee_of v) vs') else 0
  end.

Lemma cov_len_bound room vs : (cov_len room vs <= length vs)%nat.
Proof. revert room. induction vs as [|v vs IH]; intros room; cbn; [lia|]. case_match; [|lia]. specialize (IH (room - fee_of v)). lia. Qed.

Lemma cov_len_prefix vs : forall room m,
  (0 < m <= cov_len room vs)%nat -> zsum fee_of (take m vs) <= room.
Proof.
  induction vs as [|v vs IH]; intros room m Hm; cbn in Hm; [lia|].
  destruct (fee_of v <=? room) eqn:E; [|lia]. zbool. destruct m as [|m]; [lia|]. cbn [take]. rewrite zsum_cons.
  destruct m as [|m]; [rewrite take_0, zsum_nil; lia|].
  specialize (IH (room - fee_of v) (S m) ltac:(lia)). lia.
Qed.

Lemma cov_len_overflow vs : forall room,
  (cov_len room vs < length vs)%nat -> room < zsum fee_of (take (S (cov_len room vs)) vs).
Proof.
  induction vs as [|v vs IH]; intros room; cbn [cov_len length]; [lia|].
  destruct (fee_of v <=? room) eqn:E; zbool; intros Hlt.
  - specialize (IH (room - fee_of v) ltac:(lia)). cbn [take] in *. rewrite zsum_cons. lia.
  - cbn [take]. rewrite take_0, zsum_one. lia.
Qed.

(** ** What a split computes *)

(** Once holding, a split only holds. *)
Lemma split_holding balance l : forall st,
  holding st = true ->
  let st' := foldl (split_step balance) st l in
  let vs := omap unmarshal l in
  coveredSum st' = coveredSum st /\ coveredCount st' = coveredCount st /\
  coveredBySandbox st' = coveredBySandbox st /\ coveredOrder st' = coveredOrder st /\
  heldRaws st' = heldRaws st ++ (Raw <$> vs) /\ heldSum st' = heldSum st + zsum fee_of vs /\
  (dropped st' + length vs = dropped st + length l)%nat.
Proof.
  induction l as [|r l IH]; intros st Hh; cbn -[unmarshal].
  { rewrite app_nil_r, zsum_nil. repeat split; lia. }
  destruct r as [v|s]; cbn [omap list_omap unmarshal].
  - specialize (IH (split_hold st (Raw v) (SandboxID v) (fee_of v)) eq_refl).
    assert (split_step balance st (Raw v) = split_hold st (Raw v) (SandboxID v) (fee_of v)) as ->.
    { unfold split_step. cbn. rewrite Hh. done. }
    destruct IH as (-> & -> & -> & -> & -> & -> & Hd). cbn in *. rewrite zsum_cons, <- app_assoc.
    repeat split; try done; try lia.
  - specialize (IH (split_drop st) Hh). cbn [split_step unmarshal] in *.
    destruct IH as (-> & -> & -> & -> & -> & -> & Hd). cbn in *. repeat split; try done; lia.
Qed.

Lemma split_spec balance l : forall st,
  holding st = false ->
  let st' := foldl (split_step balance) st l in
  let vs := omap unmarshal l in
  let n := cov_len (balance - coveredSum st) vs in
  coveredSum st' = coveredSum st + zsum fee_of (take n vs) /\
  coveredCount st' = (coveredCount st + n)%nat /\
  heldRaws st' = heldRaws st ++ (Raw <$> drop n vs) /\
  heldSum st' = heldSum st + zsum fee_of (drop n vs) /\
  (dropped st' + length vs = dropped st + length l)%nat.
Proof.
  induction l as [|r l IH]; intros st Hh; cbn -[unmarshal].
  { rewrite app_nil_r, zsum_nil. repeat split; lia. }
  destruct r as [v|s]; cbn [omap list_omap unmarshal cov_len].
  2: { specialize (IH (split_drop st) Hh). cbn [split_step unmarshal].
       destruct IH as (-> & -> & -> & -> & Hd). cbn in *. repeat split; try done; lia. }
  unfold split_step at 2 4 6 8 10. cbn [unmarshal]. rewrite Hh. cbn [negb andb]. fold (fee_of v).
  destruct (coveredSum st + fee_of v <=? balance) eqn:E; zbool.
  - destruct (Z.leb_spec (fee_of v) (balance - coveredSum st)); [|lia].
    specialize (IH (split_cover st (SandboxID v) (fee_of v) (coveredSum st + fee_of v))).
    assert (coveredSum (split_cover st (SandboxID v) (fee_of v) (coveredSum st + fee_of v)) = coveredSum st + fee_of v
      /\ holding (split_cover st (SandboxID v) (fee_of v) (coveredSum st + fee_of v)) = false
      /\ coveredCount (split_cover st (SandboxID v) (fee_of v) (coveredSum st + fee_of v)) = S (coveredCount st)
      /\ heldRaws (split_cover st (SandboxID v) (fee_of v) (coveredSum st + fee_of v)) = heldRaws st
      /\ heldSum (split_cover st (SandboxID v) (fee_of v) (coveredSum st + fee_of v)) = heldSum st
      /\ dropped (split_cover st (SandboxID v) (fee_of v) (coveredSum st + fee_of v)) = dropped st)
      as (Hcs & Hho & Hcc & Hhr & Hhs & Hdr) by (unfold split_cover; case_match; done).
    specialize (IH Hho). rewrite Hcs, Hcc, Hhr, Hhs, Hdr, Z.sub_add_distr in IH.
    destruct IH as (-> & -> & -> & -> & Hd). cbn [take drop length]. rewrite zsum_cons.
    repeat split; try done; lia.
  - destruct (Z.leb_spec (fee_of v) (balance - coveredSum st)); [lia|].
    destruct (split_holding balance l (split_hold st (Raw v) (SandboxID v) (fee_of v)) eq_refl)
      as (-> & -> & _ & _ & -> & -> & Hd). cbn in *. rewrite zsum_cons, zsum_nil, <- app_assoc.
    repeat split; try done; lia.
Qed.

Lemma split_backlog_spec balance mine :
  let st := split_backlog balance mine in
  let vs := omap unmarshal mine in
  let n := cov_len balance vs in
  coveredSum st = zsum fee_of (take n vs) /\ coveredCount st = n /\
  heldRaws st = Raw <$> drop n vs /\ heldSum st = zsum fee_of (drop n vs) /\
  (dropped st + length vs = length mine)%nat.
Proof. pose proof (split_spec balance mine split_init eq_refl) as Hs. cbn in *. rewrite Z.sub_0_r in Hs. exact Hs. Qed.

(** The books of a split: sandbox by sandbox, covered plus held is everything. *)
Record split_books (l : list raw) (st : split_state) : Prop := {
  books_sum : forall sid,
    default 0 (sg_sum <$> coveredBySandbox st !! sid) + zsum (sandbox_fee sid) (heldRaws st)
    = zsum (sandbox_fee sid) l;
  books_order : forall sid, sid ∈ coveredOrder st <-> is_Some (coveredBySandbox st !! sid);
  books_nodup : NoDup (coveredOrder st);
  books_empty : coveredCount st = 0%nat <-> coveredOrder st = [];
  books_covered : zsum (fun sid => default 0 (sg_sum <$> coveredBySandbox st !! sid)) (coveredOrder st) = coveredSum st;
  books_seen : forall sid, sid ∈ sbSeen st <-> sid ∈ heldSandboxIDs st;
  books_held : forall sid, sid ∈ heldSandboxIDs st <->
    sid <> EmptyString /\ exists v, Raw v ∈ heldRaws st /\ SandboxID v = sid;
  books_held_nodup : NoDup (heldSandboxIDs st)
}.

Lemma sandbox_fee_Raw sid v : sandbox_fee sid (Raw v) = if decide (SandboxID v = sid) then fee_of v else 0.
Proof. done. Qed.

Lemma split_cover_books l st v :
  split_books l st ->
  split_books (l ++ [Raw v]) (split_cover st (SandboxID v) (fee_of v) (coveredSum st + fee_of v)).
Proof.
  intros []. unfold split_cover.
  destruct (coveredBySandbox st !! SandboxID v) as [g|] eqn:E; split; cbn; try done.
  - intros sid. rewrite zsum_app, zsum_one, <- books_sum0, sandbox_fee_Raw. case_decide; subst.
    + rewrite lookup_insert_eq, E. cbn. lia.
    + rewrite lookup_insert_ne by done. lia.
  - intros sid. rewrite books_order0. destruct (decide (SandboxID v = sid)); subst.
    + rewrite lookup_insert_eq, E. split; eauto.
    + by rewrite lookup_insert_ne.
  - split; [done|]. intros Ho. assert (SandboxID v ∈ coveredOrder st) as Hin by (apply books_order0; eauto).
    rewrite Ho in Hin. set_solver.
  - rewrite (zsum_update (fun sid => default 0 (sg_sum <$> coveredBySandbox st !! sid)) _ _ (SandboxID v)).
    + rewrite books_covered0, lookup_insert_eq, E. cbn. lia.
    + done.
    + apply books_order0. eauto.
    + intros x Hx. by rewrite lookup_insert_ne.
  - intros sid. rewrite zsum_app, zsum_one, <- books_sum0, sandbox_fee_Raw. case_decide; subst.
    + rewrite lookup_insert_eq, E. cbn. lia.
    + rewrite lookup_insert_ne by done. lia.
  - intros sid. rewrite elem_of_app, list_elem_of_singleton, books_order0. destruct (decide (SandboxID v = sid)); subst.
    + rewrite lookup_insert_eq. split; eauto.
    + rewrite lookup_insert_ne by done. naive_solver.
  - apply NoDup_app. split; [done|]. split; [|apply NoDup_singleton].
    intros sid Hs%books_order0 ->%list_elem_of_singleton. rewrite E in Hs. by destruct Hs.
  - split; [done|]. by intros [_ ?]%app_nil.
  - rewrite zsum_app, zsum_one, lookup_insert_eq, <- books_covered0. cbn. f_equal.
    apply zsum_ext. intros x Hx%books_order0. rewrite lookup_insert_ne; [done|]. intros <-. rewrite E in Hx. by destruct Hx.
Qed.

Lemma split_hold_books l st v :
  split_books l st -> split_books (l ++ [Raw v]) (split_hold st (Raw v) (SandboxID v) (fee_of v)).
Proof.
  intros []. unfold split_hold.
  assert (forall sid, (exists v', Raw v' ∈ heldRaws st ++ [Raw v] /\ SandboxID v' = sid) <->
    (exists v', Raw v' ∈ heldRaws st /\ SandboxID v' = sid) \/ SandboxID v = sid) as Hex.
  { intros sid. setoid_rewrite elem_of_app. setoid_rewrite list_elem_of_singleton. naive_solver. }
  split; cbn; try done.
  - intros sid. rewrite !zsum_app. specialize (books_sum0 sid). lia.
  - intros sid. case_match; [|done]. rewrite elem_of_union, elem_of_singleton, elem_of_app, list_elem_of_singleton.
    rewrite books_seen0. tauto.
  - intros sid. rewrite Hex.
    destruct (decide (SandboxID v = EmptyString)); [rewrite (bool_decide_true (_ = EmptyString)) by done|
      rewrite (bool_decide_false (_ = EmptyString)) by done]; cbn [negb andb].
    + rewrite books_held0. naive_solver.
    + case_bool_decide as Hseen; cbn [negb].
      * apply books_seen0, books_held0 in Hseen. rewrite books_held0. naive_solver.
      * rewrite elem_of_app, list_elem_of_singleton, books_held0. naive_solver.
  - case_match eqn:E; [|done]. apply andb_true_iff in E as [_ E]. zbool.
    apply NoDup_app. split; [done|]. split; [|apply NoDup_singleton].
    intros sid Hs ->%list_elem_of_singleton. apply E, books_seen0, Hs.
Qed.

Lemma split_drop_books l st s : split_books l st -> split_books (l ++ [Malformed s]) (split_drop st).
Proof.
  intros []. split; cbn; try done. intros sid. rewrite zsum_app, zsum_one. cbn. specialize (books_sum0 sid). lia.
Qed.

Lemma split_backlog_books balance mine : split_books mine (split_backlog balance mine).
Proof.
  unfold split_backlog. induction mine as [|r l IH] using rev_ind.
  { split; cbn; try (intros sid); try apply NoDup_nil_2; rewrite ?lookup_empty; try done.
    - split; [set_solver|by intros []].
    - set_solver.
    - split; [set_solver|]. intros (_ & v & Hv & _). set_solver. }
  rewrite foldl_app. cbn [foldl]. set (st := foldl _ _ _) in *. unfold split_step. destruct r as [v|s]; cbn.
  - case_match; [by apply split_cover_books|by apply split_hold_books].
  - by apply split_drop_books.
Qed.

Lemma belongs_refl u p v : User v = u -> Provider v = p -> belongs u p v = true.
Proof. intros <- <-. unfold belongs, equal_fold. rewrite !bool_decide_true by done. done. Qed.

(** Under in-range addresses, an entry belongs exactly to its own pair. *)
Lemma belongs_iff u p v :
  addr_ok u -> addr_ok p -> addr_ok (User v) -> addr_ok (Provider v) ->
  belongs u p v = true <-> User v = u /\ Provider v = p.
Proof.
  intros. split; [|intros []; by apply belongs_refl]. unfold belongs, equal_fold.
  rewrite !to_lower_addr_hex. intros [Eu Ep]%andb_true_iff. zbool. split; by apply addr_hex_inj.
Qed.

Lemma mine_kept u p l : mine_of u p (kept_of u p l) = [].
Proof. apply filter_none. intros r Hr. apply list_elem_of_filter in Hr. tauto. Qed.

Lemma kept_kept u p l : kept_of u p (kept_of u p l) = kept_of u p l.
Proof. apply filter_all. intros r Hr. apply list_elem_of_filter in Hr. tauto. Qed.

Section RewriteLemmas.
Context `{Keccak}.
Implicit Types (qk : lkey) (u p : addr).

Lemma covered_aggs_mine u p now st r : r ∈ covered_aggs u p now st -> is_mine u p r = true.
Proof.
  unfold covered_aggs. case_match; [|set_solver]. intros (sid & -> & _)%list_elem_of_fmap. by apply belongs_refl.
Qed.

Lemma covered_aggs_fee u p now l st sid :
  split_books l st ->
  zsum (sandbox_fee sid) (covered_aggs u p now st) = default 0 (sg_sum <$> coveredBySandbox st !! sid).
Proof.
  intros []. unfold covered_aggs. case_match eqn:E.
  - rewrite zsum_map. destruct (decide (sid ∈ coveredOrder st)) as [Hin|Hni].
    + rewrite (zsum_single _ _ sid); [|done|done|].
      * cbn. rewrite decide_True by done. done.
      * intros x Hx. cbn. rewrite decide_False; done.
    + rewrite zsum_zero. 2:{ intros x Hx. cbn. rewrite decide_False; [done|]. by intros ->. }
      destruct (coveredBySandbox st !! sid) eqn:Eg; [|done]. contradict Hni. apply books_order0. eauto.
  - apply Nat.ltb_ge in E. assert (coveredOrder st = []) as Ho by (apply books_empty0; lia).
    destruct (coveredBySandbox st !! sid) eqn:Eg; [|done].
    assert (sid ∈ coveredOrder st) as Hin by (apply books_order0; eauto). rewrite Ho in Hin. set_solver.
Qed.

Lemma foldl_rpush qk aggs r :
  list_at (foldl (fun r a => rpush qk [a] r) r aggs) qk = list_at r qk ++ aggs.
Proof.
  revert r. induction aggs as [|a aggs IH]; intros r; cbn; [by rewrite app_nil_r|].
  rewrite IH. unfold rpush. rewrite list_at_set_eq, <- app_assoc. done.
Qed.

Lemma foldl_rpush_ne qk k aggs r : k <> qk -> list_at (foldl (fun r a => rpush qk [a] r) r aggs) k = list_at r k.
Proof.
  intros Hk. revert r. induction aggs as [|a aggs IH]; intros r; cbn; [done|].
  rewrite IH. unfold rpush. by rewrite list_at_set_ne.
Qed.

Lemma foldl_rpush_held qk aggs r : r_held_users (foldl (fun r a => rpush qk [a] r) r aggs) = r_held_users r.
Proof. revert r. induction aggs as [|a aggs IH]; intros r; cbn; [done|]. rewrite IH. done. Qed.

(** What the MULTI body leaves in each key. *)
Lemma covered_rewrite_lists qk u p kept aggs held r k :
  qk <> LHeld u p ->
  list_at (covered_rewrite qk u p kept aggs held r) k =
  if decide (k = qk) then kept ++ aggs else if decide (k = LHeld u p) then held else list_at r k.
Proof.
  intros Hne. unfold covered_rewrite.
  set (r1 := if bool_decide (kept = []) then ldel qk r else rpush qk kept (ldel qk r)).
  assert (list_at r1 qk = kept) as H1.
  { unfold r1. case_bool_decide; subst; unfold rpush, ldel; rewrite ?list_at_set_eq; done. }
  assert (forall k', k' <> qk -> list_at r1 k' = list_at r k') as H1'.
  { intros k' Hk. unfold r1. case_bool_decide; unfold rpush, ldel; rewrite !list_at_set_ne; done. }
  set (r2 := foldl _ r1 aggs).
  assert (list_at r2 qk = kept ++ aggs) as H2 by (unfold r2; rewrite foldl_rpush, H1; done).
  assert (forall k', k' <> qk -> list_at r2 k' = list_at r k') as H2'.
  { intros k' Hk. unfold r2. rewrite foldl_rpush_ne; auto. }
  clearbody r2 r1.
  case_bool_decide as Hh; subst; autorewrite with sandbox_rw; unfold rpush, ldel;
    repeat case_decide; subst; rewrite ?list_at_set_eq, ?list_at_set_ne by done; auto; done.
Qed.

Lemma covered_rewrite_index qk u p kept aggs held r q :
  held_users_at (covered_rewrite qk u p kept aggs held r) q =
  if decide (q = p) then
    (if bool_decide (held = []) then held_users_at r p ∖ {[u]} else {[u]} ∪ held_users_at r p)
  else held_users_at r q.
Proof.
  unfold covered_rewrite. set (r1 := if bool_decide (kept = []) then _ else _).
  assert (forall q, held_users_at (foldl (fun r a => rpush qk [a] r) r1 aggs) q = held_users_at r q) as Hu.
  { intros q'. unfold held_users_at. rewrite foldl_rpush_held. unfold r1. case_bool_decide; done. }
  case_bool_decide; rewrite ?held_users_at_srem, ?held_users_at_sadd;
    unfold rpush, ldel; rewrite !held_users_at_set, !Hu; done.
Qed.

(** The rewrite as a function of the state it executes on. *)
Definition apply_covered qk u p balance now (r : redis) : redis :=
  let queued := list_at r qk in
  let st := split_backlog balance (list_at r (LHeld u p) ++ mine_of u p queued) in
  covered_rewrite qk u p (kept_of u p queued) (covered_aggs u p now st) (heldRaws st) r.

(** One pair's debt in Redis, on one sandbox's account. *)
Definition outstanding qk u p (sid : string) (r : redis) : Z :=
  zsum (sandbox_fee sid) (list_at r (LHeld u p)) + zsum (sandbox_fee sid) (mine_of u p (list_at r qk)).

Lemma apply_covered_queue qk u p balance now r :
  qk <> LHeld u p ->
  kept_of u p (list_at (apply_covered qk u p balance now r) qk) = kept_of u p (list_at r qk) /\
  mine_of u p (list_at (apply_covered qk u p balance now r) qk) =
    covered_aggs u p now (split_backlog balance (list_at r (LHeld u p) ++ mine_of u p (list_at r qk))).
Proof.
  intros Hne. unfold apply_covered. rewrite covered_rewrite_lists, decide_True by done.
  set (st := split_backlog _ _). unfold kept_of at 1, mine_of at 1. rewrite !filter_app.
  fold (kept_of u p (kept_of u p (list_at r qk))). fold (mine_of u p (kept_of u p (list_at r qk))).
  rewrite kept_kept, mine_kept. rewrite (filter_none (fun r => ~ _)), (filter_all _ (covered_aggs _ _ _ _)).
  - by rewrite app_nil_r.
  - apply covered_aggs_mine.
  - intros x Hx Hn. apply Hn. by eapply covered_aggs_mine.
Qed.

Lemma apply_covered_outstanding qk u p balance now r sid :
  qk <> LHeld u p -> outstanding qk u p sid (apply_covered qk u p balance now r) = outstanding qk u p sid r.
Proof.
  intros Hne. unfold outstanding. rewrite (proj2 (apply_covered_queue _ _ _ _ _ _ Hne)).
  unfold apply_covered at 1. rewrite covered_rewrite_lists, decide_False, decide_True by done.
  pose proof (split_backlog_books balance (list_at r (LHeld u p) ++ mine_of u p (list_at r qk))) as Hb.
  rewrite (covered_aggs_fee _ _ _ _ _ _ Hb), <- zsum_app, <- (books_sum _ _ Hb sid). lia.
Qed.

End RewriteLemmas.

(** ** The contract of a re-split *)

(** What every change [AggregateCovered] makes to Redis is: the debt of the
    pair is conserved sandbox by sandbox, what stays on the queue fits the
    balance, everyone else's entries and every other key are untouched, and the
    held-users index says exactly whether the pair has held debt. *)
Record resplit (qk : lkey) (u p : addr) (balance : Z) (r r' : redis) : Prop := {
  resplit_debt : forall sid, outstanding qk u p sid r' = outstanding qk u p sid r;
  resplit_fits : zsum raw_fee (mine_of u p (list_at r' qk)) <= Z.max 0 balance;
  resplit_others : kept_of u p (list_at r' qk) = kept_of u p (list_at r qk);
  resplit_lists : forall k, k <> qk -> k <> LHeld u p -> list_at r' k = list_at r k;
  resplit_index : u ∈ held_users_at r' p <-> list_at r' (LHeld u p) <> [];
  resplit_index_others : forall q x, (q, x) <> (p, u) -> x ∈ held_users_at r' q <-> x ∈ held_users_at r q;
  resplit_rest : r_nonces r' = r_nonces r /\ r_sessions r' = r_sessions r /\ r_stops r' = r_stops r /\
    r_pending r' = r_pending r /\ r_reserved r' = r_reserved r /\ r_events r' = r_events r
}.

Definition held_index_ok (p : addr) (r : redis) : Prop :=
  forall u, u ∈ held_users_at r p <-> list_at r (LHeld u p) <> [].

Section Contract.
Context `{Keccak} {C : Type}.
Implicit Types (qk : lkey) (u p : addr).

Lemma covered_aggs_total u p now l st :
  split_books l st -> zsum raw_fee (covered_aggs u p now st) = coveredSum st.
Proof.
  intros []. unfold covered_aggs. case_match eqn:E.
  - rewrite zsum_map, <- books_covered0. apply zsum_ext. done.
  - apply Nat.ltb_ge in E. rewrite <- books_covered0, (proj1 books_empty0) by lia. done.
Qed.

Lemma apply_covered_resplit qk u p balance now r :
  qk <> LHeld u p -> resplit qk u p balance r (apply_covered qk u p balance now r).
Proof.
  intros Hne. set (mine := list_at r (LHeld u p) ++ mine_of u p (list_at r qk)).
  destruct (apply_covered_queue qk u p balance now r Hne) as [Hk Hm].
  assert (list_at (apply_covered qk u p balance now r) (LHeld u p) = heldRaws (split_backlog balance mine)) as Hh.
  { unfold apply_covered. rewrite covered_rewrite_lists, decide_False, decide_True; done. }
  split; [intros; by apply apply_covered_outstanding| |done| | | |].
  - rewrite Hm, (covered_aggs_total _ _ _ _ _ (split_backlog_books balance mine)).
    pose proof (split_backlog_spec balance mine) as (-> & _).
    set (vs := omap unmarshal mine). destruct (decide (cov_len balance vs = 0%nat)) as [->|Hn].
    + rewrite take_0, zsum_nil. lia.
    + pose proof (cov_len_prefix vs balance (cov_len balance vs) ltac:(lia)). lia.
  - intros k H1 H2. unfold apply_covered. rewrite covered_rewrite_lists, !decide_False; done.
  - rewrite Hh. unfold apply_covered. rewrite covered_rewrite_index, decide_True by done. fold mine.
    case_bool_decide as Hb; rewrite ?Hb; set_solver.
  - intros q x Hx. unfold apply_covered. rewrite covered_rewrite_index. case_decide; [subst q|done].
    assert (x <> u) by congruence. case_bool_decide; set_solver.
  - unfold apply_covered, covered_rewrite.
    set (r1 := if bool_decide (kept_of _ _ _ = []) then _ else _).
    assert (forall aggs, let r2 := foldl (fun r a => rpush qk [a] r) r1 aggs in
      r_nonces r2 = r_nonces r /\ r_sessions r2 = r_sessions r /\ r_stops r2 = r_stops r /\
      r_pending r2 = r_pending r /\ r_reserved r2 = r_reserved r /\ r_events r2 = r_events r) as Haggs.
    { intros aggs. induction aggs as [|a aggs IH] using rev_ind; cbn.
      - unfold r1. case_bool_decide; done.
      - rewrite foldl_app. exact IH. }
    case_bool_decide; apply Haggs.
Qed.

(** One attempt, under any faults and interleaving, re-splits at most once, and
    what it re-splits is the state it commits on. *)
Lemma covered_attempt_guarantees qk u p balance :
  qk <> LHeld u p -> guarantees (resplit qk u p balance) (covered_attempt qk u p balance : M C CoveredResult).
Proof.
  intros Hne. unfold covered_attempt. apply guarantees_watching. intros l.
  apply in_watch_read. intros held. apply in_watch_read. intros queued. apply in_watch_gets. intros now.
  apply in_watch_exec; [|intros; apply guarantees_ret].
  intros r Hr [[_ (r1 & Hr1 & ->)] (r2 & Hr2 & ->)]. rewrite !lrange_all.
  unfold lists_at in *. cbn in Hr, Hr1, Hr2. rewrite <- Hr in Hr1, Hr2.
  injection Hr1 as H1q H1h. injection Hr2 as H2q H2h. rewrite H1h, H2q.
  by apply apply_covered_resplit.
Qed.

Lemma retry_tx_guarantees G {A} n msg (m : M C A) : guarantees G m -> guarantees G (retry_tx n msg m).
Proof.
  intros Hm. induction n as [|n IH]; cbn; [apply guarantees_fail|].
  apply guarantees_bind; [by apply guarantees_attempt|].
  intros [a|[]]; auto using guarantees_ret, guarantees_fail.
Qed.

Lemma AggregateCovered_guarantees qk u p balance :
  qk <> LHeld u p ->
  guarantees (resplit qk u p (default 0 balance)) (AggregateCovered qk u p balance : M C CoveredResult).
Proof. intros. by apply retry_tx_guarantees, covered_attempt_guarantees. Qed.

Lemma retry_tx_no_panic {A} n msg (m : M C A) : no_panic m -> no_panic (retry_tx n msg m).
Proof.
  intros Hm. induction n as [|n IH]; cbn; [done|]. apply no_panic_bind; [by apply total_no_panic, total_attempt|].
  intros [a|[]]; done.
Qed.

Lemma AggregateCovered_no_panic qk u p balance : no_panic (AggregateCovered qk u p balance : M C CoveredResult).
Proof.
  apply retry_tx_no_panic, no_panic_watching.
  apply no_panic_bind; [apply no_panic_rread|]. intros held. apply no_panic_bind; [apply no_panic_rread|]. intros queued.
  apply no_panic_bind; [done|]. intros now. apply no_panic_bind; [apply no_panic_exec|]. intros. apply no_panic_ret.
Qed.

Lemma SummarizeQueue_no_panic qk k : no_panic (SummarizeQueue qk k : M C _).
Proof.
  apply no_panic_bind; [apply no_panic_rread|]. intros total. destruct (MaxScanItems <? total);
    (case_match; [done|]); (apply no_panic_bind; [apply no_panic_rread|]); intros; apply no_panic_ret.
Qed.

Lemma SummarizeQueue_quiet qk k (w : world C) :
  quiet w -> exists l n t, SummarizeQueue qk k w = (Ok (summary_rows k (summarize l), n, t), w) /\
    (forall x, x ∈ l -> x ∈ list_at (w_redis w) qk).
Proof.
  intros Hq. unfold SummarizeQueue. unfold bind at 1. rewrite rread_quiet by done.
  set (total := Z.of_nat _).
  assert (forall stop t, exists l n t', (if total =? 0 then ret ([], 0%nat, false)
     else bind (rread (fun r => lrange stop (list_at r qk))) (fun items =>
          ret (summary_rows k (summarize items), length items, t))) w
    = (Ok (summary_rows k (summarize l), n, t'), w) /\ (forall x, x ∈ l -> x ∈ list_at (w_redis w) qk)) as Hgo.
  { intros stop t. destruct (total =? 0).
    - exists [], 0%nat, false. split; [done|]. set_solver.
    - unfold bind. rewrite rread_quiet by done. eexists _, _, _. split; [done|].
      intros x Hx. destruct (lrange_prefix stop (list_at (w_redis w) qk)) as [l' El]. rewrite El. apply elem_of_app. by left. }
  destruct (MaxScanItems <? total); apply Hgo.
Qed.

Lemma covered_attempt_quiet qk u p balance (w : world C) :
  quiet w ->
  let st := split_backlog balance (list_at (w_redis w) (LHeld u p) ++ mine_of u p (list_at (w_redis w) qk)) in
  covered_attempt qk u p balance w =
  (Ok (mkCovered (coveredCount st) (coveredSum st) (length (heldRaws st)) (heldSum st) (heldSandboxIDs st) (dropped st)),
   set_watch [] false (set_redis (apply_covered qk u p balance (w_now w) (w_redis w)) w)).
Proof.
  intros Hq. destruct w as [r ws d n t c s a]. unfold quiet in Hq. cbn in Hq. subst n.
  unfold covered_attempt, watching, bind, rread, rcmd, rcmd_dirty, exec, attempt, set_watching, gets. cbn.
  rewrite !lrange_all. done.
Qed.

End Contract.

(** ** Properties *)

Section Properties.
Context `{Keccak} {C : Type}.
Implicit Types (qk : lkey) (u p : addr).

(** C15: whatever Redis round trips fail, lose their reply or are interleaved
    with other clients, every change [AggregateCovered] makes to Redis is one
    atomic re-split of the pair's backlog: its debt is conserved sandbox by
    sandbox, the part left on the queue fits the balance it was given, other
    users' entries and other keys are untouched, and the held-users index names
    the user exactly when held debt remains. *)
Theorem aggregate_covered_resplits (q u p : addr) (balance : option Z) :
  guarantees (resplit (LQueue q) u p (default 0 balance))
    (AggregateCovered (LQueue q) u p balance : M C CoveredResult).
Proof. by apply AggregateCovered_guarantees. Qed.

(** On a working Redis [AggregateCovered] succeeds at the first attempt; it
    covers the longest oldest-first prefix of the pair's backlog (held before
    queued) that fits the balance, never skipping a voucher that overflows for
    a cheaper later one, and parks exactly the rest. *)
Theorem aggregate_covered_maximal qk u p (balance : option Z) (w : world C) :
  quiet w -> qk <> LHeld u p ->
  let vs := omap unmarshal (list_at (w_redis w) (LHeld u p) ++ mine_of u p (list_at (w_redis w) qk)) in
  exists cr w', AggregateCovered qk u p balance w = (Ok cr, w') /\
    cr_CoveredFee cr = zsum fee_of (take (cr_Covered cr) vs) /\
    (forall m, (0 < m <= cr_Covered cr)%nat -> zsum fee_of (take m vs) <= default 0 balance) /\
    ((cr_Covered cr < length vs)%nat -> default 0 balance < zsum fee_of (take (S (cr_Covered cr)) vs)) /\
    list_at (w_redis w') (LHeld u p) = Raw <$> drop (cr_Covered cr) vs /\
    (cr_Covered cr + cr_Held cr)%nat = length vs /\ cr_HeldFee cr = zsum fee_of (drop (cr_Covered cr) vs).
Proof.
  intros Hq Hne vs. unfold AggregateCovered, maxRetries. cbn [retry_tx]. unfold bind, attempt.
  rewrite covered_attempt_quiet by done. eexists _, _. split; [done|]. cbn.
  set (mine := list_at _ _ ++ _) in *. pose proof (split_backlog_spec (default 0 balance) mine) as (-> & -> & Hh & -> & _).
  fold vs in Hh |- *. rewrite Hh. split; [done|].
  split; [intros m Hm; by apply cov_len_prefix|]. split; [intros Hlt; by apply cov_len_overflow|].
  split; [|split; [|done]].
  - unfold apply_covered. rewrite covered_rewrite_lists, decide_False, decide_True by done. exact Hh.
  - rewrite length_fmap, length_drop. pose proof (cov_len_bound (default 0 balance) vs). lia.
Qed.

End Properties.

Module BacklogExamples.
Import Toy.

Definition entry (sid : string) (u fee : Z) : raw := marshal (mkVoucher sid u 8192 (Some fee) [] None [] false).

(** A held voucher, a malformed entry and another user's, then three vouchers of which a balance of 12
    covers the first two only, though the last would fit. *)
Definition backlog0 : redis :=
  sadd_held 8192 4096 (set_list (LHeld 4096 8192) [entry "sb-1" 4096 5]
    (set_list (LQueue 8192) [Malformed "x"; entry "sb-9" 77 1; entry "sb-2" 4096 6; entry "sb-1" 4096 9; entry "sb-2" 4096 1] empty_redis)).

Definition backlog_world (r : redis) : world unit := mkWorld r [] false [] 1000 tt [] [].

Lemma aggregate_covered_maximal_witness :
  exists cr w', AggregateCovered (LQueue 8192) 4096 8192 (Some 12) (backlog_world backlog0) = (Ok cr, w') /\
    (cr_Covered cr, cr_CoveredFee cr, cr_Held cr, cr_HeldFee cr, cr_HeldSandboxIDs cr) = (2%nat, 11, 2%nat, 10, ["sb-1"; "sb-2"]) /\
    list_at (w_redis w') (LHeld 4096 8192) = [entry "sb-1" 4096 9; entry "sb-2" 4096 1].
Proof.
  destruct (aggregate_covered_maximal (LQueue 8192) 4096 8192 (Some 12) (backlog_world backlog0))
    as (cr & w' & E & _); [done|done|].
  exists cr, w'. split; [exact E|]. revert E. vm_compute. intros [= <- <-]. done.
Defined.

End BacklogExamples.
