(* ===== verification/Session.v ===== *)
(** * Billing sessions, reservations and nonces (internal/billing: session.go,
    reserved.go, signer.go) *)

From S2P Require Import Prelude Hex Bytes Crypto Voucher Store.

(** ** Sessions *)

(** [PricePerSec] is decimal text in the code: [None] is the empty (or
    undecodable) text. [internal/billing/session.go:14-20 Session] *)
Record Session := mkSession {
  s_SandboxID : string;
  s_Owner : string;
  s_Provider : string;
  s_NextVoucherAt : Z;
  s_PricePerSec : option Z
}.

#[global] Instance Session_eq_dec : EqDecision Session.
Proof. solve_decision. Defined.

Definition hash_str (m : gmap string hval) (f : string) : string :=
  match m !! f with Some (HStr s) => s | _ => EmptyString end.

Definition hash_int (m : gmap string hval) (f : string) : option Z :=
  match m !! f with Some (HInt z) => Some z | _ => None end.

(** A missing or unparseable [next_voucher_at] is 0.
    [internal/billing/session.go:84-93 sessionFromMap] *)
Definition sessionFromMap (m : gmap string hval) : Session :=
  mkSession (hash_str m "sandbox_id") (hash_str m "owner") (hash_str m "provider")
    (default 0 (hash_int m "next_voucher_at")) (hash_int m "price_per_sec").

(** HSET of several fields merges them into the hash. *)
Definition hset (sid : string) (fields : list (string * hval)) (r : redis) : redis :=
  upd_sessions (fun ss => <[sid := foldl (fun m '(f, v) => <[f := v]> m) (default ∅ (ss !! sid)) fields]> ss) r.

Definition session_fields (s : Session) : list (string * hval) :=
  [("sandbox_id", HStr (s_SandboxID s)); ("owner", HStr (s_Owner s)); ("provider", HStr (s_Provider s));
   ("next_voucher_at", HInt (s_NextVoucherAt s));
   ("price_per_sec", match s_PricePerSec s with Some p => HInt p | None => HStr EmptyString end)].

(** HGETALL. *)
Definition hash_at (r : redis) (sid : string) : gmap string hval := default ∅ (r_sessions r !! sid).

(** A stored session, by the reads of [GetSession]: no fields means none. *)
Definition session_at (r : redis) (sid : string) : option Session :=
  let m := hash_at r sid in if decide (m = ∅) then None else Some (sessionFromMap m).

Section Ops.
Context {C : Type}.

(** [internal/billing/session.go:26-35 CreateSession] *)
Definition CreateSession (s : Session) : M C unit := rwrite (hset (s_SandboxID s) (session_fields s)).

(** [internal/billing/session.go:37-46 GetSession] *)
Definition GetSession (sid : string) : M C (option Session) := rread (fun r => session_at r sid).

(** [internal/billing/session.go:48-50 UpdateNextVoucherAt] *)
Definition UpdateNextVoucherAt (sid : string) (t : Z) : M C unit := rwrite (hset sid [("next_voucher_at", HInt t)]).

(** [internal/billing/session.go:52-54 DeleteSession] *)
Definition DeleteSession (sid : string) : M C unit := rwrite (upd_sessions (delete sid)).

End Ops.

(** A full SCAN over the session keys: it returns every key that is there, in
    an order Redis does not specify, possibly some of them more than once. *)
Class SessionScan := {
  scan_keys : redis -> list string;
  scan_keys_spec : forall r sid, sid ∈ scan_keys r <-> is_Some (r_sessions r !! sid)
}.

Section Scan.
Context `{SessionScan} {C : Type}.

(** One HGETALL per scanned key; a failed or empty one is skipped. *)
Fixpoint scan_fetch (keys : list string) : M C (list Session) :=
  match keys with
  | [] => ret []
  | k :: keys' =>
      let! x := attempt (GetSession k) in
      let! rest := scan_fetch keys' in
      ret (match x with inl (Some s) => s :: rest | _ => rest end)
  end.

(** [internal/billing/session.go:57-82 ScanAllSessions] *)
Definition ScanAllSessions : M C (list Session) :=
  let! keys := rread scan_keys in scan_fetch keys.

End Scan.

(** ** Reservations *)

Definition int64_ok (z : Z) : bool := (- 2 ^ 63 <=? z) && (z <? 2 ^ 63).

(** [internal/billing/reserved.go:15-17 reservedKey] *)
Definition reservedKey (user provider : string) : string * string := (to_lower user, to_lower provider).

(** The counter's live value: an expired key is gone. *)
Definition reserved_at (now : Z) (r : redis) (k : string * string) : option Z :=
  match r_reserved r !! k with
  | Some v =>
      match rv_expires v with
      | Some t => if now <? t then Some (rv_total v) else None
      | None => Some (rv_total v)
      end
  | None => None
  end.

(** The script INCRBY; EXPIRE; GET, atomic on the server. INCRBY refuses values
    outside 64 bits; a non-positive expiry deletes the key, and GET then
    returns nil. [internal/billing/reserved.go:25-29 reserveScript] *)
Definition reserveScript (now : Z) (k : string * string) (amount ttl : Z) (r : redis) : res Z * redis :=
  let v := default 0 (reserved_at now r k) + amount in
  if negb (int64_ok amount && int64_ok v) then (Err (EMsg "ERR value is not an integer or out of range"), r)
  else if ttl <=? 0 then (Err ENil, upd_reserved (delete k) r)
  else (Ok v, upd_reserved <[k := mkResv v (Some (now + ttl))]> r).

(** The script DECRBY; DEL when the result is not positive.
    [internal/billing/reserved.go:50-61 releaseScript] *)
Definition releaseScript (now : Z) (k : string * string) (amount : Z) (r : redis) : res Z * redis :=
  let cur := reserved_at now r k in
  let v := default 0 cur - amount in
  if negb (int64_ok amount && int64_ok v) then (Err (EMsg "ERR value is not an integer or out of range"), r)
  else if v <=? 0 then (Ok 0, upd_reserved (delete k) r)
  else
    let exp := match cur, r_reserved r !! k with
               | Some _, Some old => rv_expires old
               | _, _ => None
               end in
    (Ok v, upd_reserved <[k := mkResv v exp]> r).

Section ReserveOps.
Context {C : Type}.

(** [internal/billing/reserved.go:31-41 Reserve] *)
Definition Reserve (user provider : string) (amount ttl : Z) : M C Z :=
  let! now := gets w_now in rcmd (reserveScript now (reservedKey user provider) amount ttl).

(** [internal/billing/reserved.go:63-65 Release] *)
Definition Release (user provider : string) (amount : Z) : M C unit :=
  let! now := gets w_now in ignore (rcmd (releaseScript now (reservedKey user provider) amount)).

(** [internal/billing/reserved.go:69-79 GetReserved] *)
Definition GetReserved (user provider : string) : M C Z :=
  let! now := gets w_now in
  let! x := attempt (rread (fun r => reserved_at now r (reservedKey user provider))) in
  ret (match x with inl (Some v) => v | _ => 0 end).

End ReserveOps.

(** ** Nonces and signing *)

(** The chain read the signer needs. [internal/billing/signer.go:21-23 NonceReader] *)
Class NonceReader (C : Type) := GetLastNonce : addr -> addr -> C -> res Z * C.

(** INCR refuses a value that is not, or would leave, a 64-bit integer. *)
Definition incr (k : string * string) (r : redis) : res Z * redis :=
  let v := default 0 (r_nonces r !! k) in
  if int64_ok v && int64_ok (v + 1) then (Ok (v + 1), upd_nonces <[k := v + 1]> r)
  else (Err (EMsg "ERR increment would overflow"), r).

(** [internal/billing/signer.go:33-36 seedAndIncrScript] *)
Definition seedAndIncrScript (k : string * string) (seed : Z) (r : redis) : res Z * redis :=
  let r := match r_nonces r !! k with Some _ => r | None => upd_nonces <[k := seed]> r end in
  incr k r.

(** [internal/billing/signer.go:39-47 Signer] *)
Record Signer := mkSigner {
  sg_privKey : Z;
  sg_chainID : Z;
  sg_contract : addr;
  sg_provider : addr
}.

(** [fmt.Sprintf(NonceKeyFmt, strings.ToLower(owner), strings.ToLower(provider))]. *)
Definition nonceKey (owner provider : string) : string * string := (to_lower owner, to_lower provider).

Section SignerOps.
Context `{Keccak} `{Ecdsa} {C : Type} `{NonceReader C}.

(** [internal/billing/signer.go:49-67 NewSigner] *)
Definition NewSigner (privKey chainID : Z) (contractAddr providerAddr : addr) : Signer :=
  mkSigner privKey chainID contractAddr providerAddr.

(** [internal/billing/signer.go:73-80 Enqueue] *)
Definition Enqueue (sg : Signer) (v : SandboxVoucher) : M C unit :=
  rwrite (rpush (LQueue (sg_provider sg)) [marshal v]).

(** [internal/billing/signer.go:104-149 IncrNonce] *)
Definition IncrNonce (owner provider : string) : M C Z :=
  let key := nonceKey owner provider in
  let! exists_ := rread (fun r => bool_decide (is_Some (r_nonces r !! key))) in
  if exists_ then rcmd (incr key)
  else
    let! chainNonce := chain_call (GetLastNonce (hex_to_address owner) (hex_to_address provider)) in
    rcmd (seedAndIncrScript key chainNonce).

(** [internal/billing/signer.go:84-96 Sign] *)
Definition SignVoucher (sg : Signer) (v : SandboxVoucher) : M C SandboxVoucher :=
  let! nonce := IncrNonce (addr_hex (User v)) (addr_hex (Provider v)) in
  lift_res (Sign (set_nonce v (Some nonce)) (sg_privKey sg) (sg_chainID sg) (sg_contract sg)).

End SignerOps.

(** ** What the operations may change *)

Section SessionGuarantees.
Context {C : Type}.

Lemma CreateSession_guarantees s :
  guarantees (fun r r' => r' = hset (s_SandboxID s) (session_fields s) r) (CreateSession s : M C unit).
Proof. by apply guarantees_rwrite. Qed.

Lemma DeleteSession_guarantees sid :
  guarantees (fun r r' => r' = upd_sessions (delete sid) r) (DeleteSession sid : M C unit).
Proof. by apply guarantees_rwrite. Qed.

(** Releasing a reservation touches nothing but the reservations. *)
Lemma Release_guarantees user provider amount :
  guarantees (fun r r' => exists f, r' = upd_reserved f r) (Release user provider amount : M C unit).
Proof.
  apply guarantees_bind; [apply guarantees_gets|]. intros now. apply guarantees_ignore, guarantees_rcmd.
  intros r. unfold releaseScript. repeat case_match; cbn; eauto.
Qed.

Lemma events_Push_guarantees ty sb u amt :
  guarantees (fun r r' => exists f, r' = upd_events f r) (events_Push ty sb u amt : M C unit).
Proof.
  apply guarantees_bind; [apply guarantees_gets|]. intros now. apply guarantees_rwrite. eauto.
Qed.

Lemma Release_total user provider amount : total (Release user provider amount : M C unit).
Proof.
  apply total_bind; [apply total_gets|]. intros now. apply total_ignore, no_panic_rcmd.
  intros r. unfold releaseScript. by repeat case_match.
Qed.

Lemma events_Push_no_panic ty sb u amt : no_panic (events_Push ty sb u amt : M C unit).
Proof. unfold events_Push. auto with total. Qed.

End SessionGuarantees.

#[export] Hint Resolve Release_total events_Push_no_panic : total.

(** Nonce assignment touches nothing but the counters. *)
Definition only_nonces (r r' : redis) : Prop := exists f, r' = upd_nonces f r.

Lemma only_nonces_refl r : only_nonces r r.
Proof. exists id. by destruct r. Qed.

Lemma incr_only k r : only_nonces r (incr k r).2.
Proof. unfold incr. case_match; [by eexists|apply only_nonces_refl]. Qed.

Lemma seed_only k seed r : only_nonces r (seedAndIncrScript k seed r).2.
Proof.
  unfold seedAndIncrScript. destruct (r_nonces r !! k) as [v|]; [apply incr_only|].
  destruct (incr_only k (upd_nonces <[k:=seed]> r)) as [f ->]. exists (f ∘ <[k := seed]>). done.
Qed.

Section SignGuarantees.
Context `{Keccak} `{Ecdsa} {C : Type} `{NonceReader C}.

Lemma IncrNonce_guarantees owner provider : guarantees only_nonces (IncrNonce owner provider : M C Z).
Proof.
  apply guarantees_bind; [apply guarantees_rread|]. intros [|].
  - apply guarantees_rcmd. intros r. right. apply incr_only.
  - apply guarantees_bind; [apply guarantees_chain_call|]. intros seed. apply guarantees_rcmd.
    intros r. right. apply seed_only.
Qed.

Lemma SignVoucher_guarantees sg v : guarantees only_nonces (SignVoucher sg v : M C SandboxVoucher).
Proof. apply guarantees_bind; [apply IncrNonce_guarantees|]. intros. apply guarantees_lift_res. Qed.

Lemma incr_bound k r n r' : incr k r = (Ok n, r') -> - 2 ^ 63 <= n < 2 ^ 63.
Proof. unfold incr, int64_ok. destruct (_ && _) eqn:E; [|done]. intros [= <- _]. zbool. zlia. Qed.

(** A nonce that was handed out is a 64-bit integer. *)
Lemma IncrNonce_bound owner provider (w : world C) n w' :
  IncrNonce owner provider w = (Ok n, w') -> - 2 ^ 63 <= n < 2 ^ 63.
Proof.
  assert (forall (f : redis -> res Z * redis) (w1 : world C), (forall r x r', f r = (Ok x, r') -> - 2 ^ 63 <= x < 2 ^ 63) ->
    rcmd f w1 = (Ok n, w') -> - 2 ^ 63 <= n < 2 ^ 63) as Hcmd.
  { intros f w1 Hf. unfold rcmd, rcmd_dirty. destruct (w_net w1) as [|[| | |g] rest]; cbn; try done;
      intros [= E _]; eapply Hf; by rewrite <- E, <- surjective_pairing. }
  unfold IncrNonce, bind. destruct (rread _ w) as [[[|]|e|] w1]; try done.
  - apply Hcmd. intros r x r'. apply incr_bound.
  - destruct (chain_call _ w1) as [[seed|e|] w2]; try done. apply Hcmd.
    intros r x r'. unfold seedAndIncrScript. apply incr_bound.
Qed.

End SignGuarantees.

(** ** Reservations as a gate *)

(** The operations clients send to one counter, in the order Redis runs them,
    each at its server time: reservations (with their expiry) and releases. *)
Inductive resv_op :=
| OpReserve (now amount ttl : Z)
| OpRelease (now amount : Z).

Definition run_op (k : string * string) (o : resv_op) (r : redis) : res Z * redis :=
  match o with
  | OpReserve now amount ttl => reserveScript now k amount ttl r
  | OpRelease now amount => releaseScript now k amount r
  end.

(** A schedule in which every release gives back a reservation still
    outstanding; [out] lists the outstanding amounts. *)
Inductive resv_run (k : string * string) (horizon : Z) : list Z -> redis -> list resv_op -> list Z -> redis -> Prop :=
| run_nil out r : resv_run k horizon out r [] out r
| run_reserve out r ops out' r' now amount ttl total r1 :
    0 < amount -> now <= horizon < now + ttl ->
    reserveScript now k amount ttl r = (Ok total, r1) ->
    resv_run k horizon (amount :: out) r1 ops out' r' ->
    resv_run k horizon out r (OpReserve now amount ttl :: ops) out' r'
| run_release out out1 r ops out' r' now amount total r1 :
    now <= horizon -> Permutation out (amount :: out1) ->
    releaseScript now k amount r = (Ok total, r1) ->
    resv_run k horizon out1 r1 ops out' r' ->
    resv_run k horizon out r (OpRelease now amount :: ops) out' r'.

Definition all_pos (out : list Z) : Prop := Forall (fun a => 0 < a) out.

(** The counter is exactly the outstanding reservations and lives past the
    schedule's end. *)
Definition counter_ok (k : string * string) (horizon : Z) (out : list Z) (r : redis) : Prop :=
  all_pos out /\
  match r_reserved r !! k with
  | Some v => rv_total v = zsum id out /\ match rv_expires v with Some t => horizon < t | None => True end
  | None => out = []
  end.

Lemma zsum_id_cons a out : zsum id (a :: out) = a + zsum id out.
Proof. apply zsum_cons. Qed.

Lemma zsum_pos out : all_pos out -> out <> [] -> 0 < zsum id out.
Proof.
  intros Hp. destruct out as [|a out]; [done|]. intros _. rewrite zsum_id_cons.
  apply Forall_cons in Hp as [Ha Ho]. cbn in Ha. assert (0 <= zsum id out); [|lia].
  apply zsum_nonneg. eapply Forall_impl; [exact Ho|]. intros x Hx. unfold id. cbn in Hx. lia.
Qed.

Lemma reserved_at_ok k horizon out r now :
  counter_ok k horizon out r -> now <= horizon -> default 0 (reserved_at now r k) = zsum id out.
Proof.
  intros [_ Hc] Hn. unfold reserved_at. destruct (r_reserved r !! k) as [v|]; [|by subst].
  destruct Hc as [Ht He]. destruct (rv_expires v) as [t|]; [|done]. destruct (Z.ltb_spec now t); [done|lia].
Qed.

Lemma reserve_counter k horizon out r now amount ttl total r1 :
  counter_ok k horizon out r -> 0 < amount -> now <= horizon < now + ttl ->
  reserveScript now k amount ttl r = (Ok total, r1) ->
  total = zsum id (amount :: out) /\ counter_ok k horizon (amount :: out) r1.
Proof.
  intros Hc Ha Hn. unfold reserveScript. rewrite (reserved_at_ok _ _ _ _ _ Hc) by lia.
  case_match; [done|]. destruct (Z.leb_spec ttl 0); [lia|]. intros [= <- <-].
  rewrite zsum_id_cons. split; [lia|]. split; [constructor; [done|apply Hc]|].
  cbn. rewrite lookup_insert_eq. cbn. rewrite zsum_id_cons. split; lia.
Qed.

Lemma release_counter k horizon out out1 r now amount total r1 :
  counter_ok k horizon out r -> now <= horizon -> Permutation out (amount :: out1) ->
  releaseScript now k amount r = (Ok total, r1) ->
  counter_ok k horizon out1 r1.
Proof.
  intros Hc Hn Hp. pose proof (reserved_at_ok _ _ _ _ _ Hc Hn) as Hv. destruct Hc as [Hpos Hc].
  assert (all_pos (amount :: out1)) as Hpos' by (unfold all_pos in *; by rewrite <- Hp).
  rewrite (zsum_Permutation _ _ _ Hp), zsum_id_cons in Hv.
  apply Forall_cons in Hpos' as [Ha Hpos1]. cbn in Ha.
  unfold releaseScript. rewrite Hv. cbv zeta. destruct (negb _); [done|].
  destruct (Z.leb_spec (amount + zsum id out1 - amount) 0) as [Hz|Hz]; intros [= _ <-]; (split; [exact Hpos1|]); cbn.
  - rewrite lookup_delete_eq. destruct (decide (out1 = [])) as [|Hne]; [done|].
    pose proof (zsum_pos _ Hpos1 Hne). lia.
  - rewrite lookup_insert_eq. cbn. split; [lia|].
    unfold reserved_at in *. destruct (r_reserved r !! k) as [v|] eqn:E; [|done].
    destruct Hc as [_ Hc]. destruct (rv_expires v) as [t|]; [|done]. destruct (now <? t); [done|done].
Qed.

Lemma resv_run_counter k horizon out r ops out' r' :
  resv_run k horizon out r ops out' r' -> counter_ok k horizon out r -> counter_ok k horizon out' r'.
Proof.
  induction 1 as [| ? ? ? ? ? ? ? ? ? ? Ha Hn Hr _ IH| ? ? ? ? ? ? ? ? ? ? Hn Hp Hr _ IH]; intros Hc; [done| |].
  - apply IH. by eapply reserve_counter.
  - apply IH. by eapply release_counter.
Qed.

(** C22: the reservation counter closes the create race: whatever order Redis
    runs concurrent reservations and releases of outstanding ones in, the total
    a reservation returns is its own amount plus every reservation outstanding
    at that instant.  So when each caller admits itself only if its total is at
    most the balance, the reservations outstanding at an admission never exceed
    the balance together. *)
Theorem reserve_no_oversubscription k horizon r0 ops out r now amount ttl total r1 balance :
  r_reserved r0 !! k = None ->
  resv_run k horizon [] r0 ops out r ->
  0 < amount -> now <= horizon < now + ttl ->
  reserveScript now k amount ttl r = (Ok total, r1) ->
  total = amount + zsum id out /\ (total <= balance -> zsum id (amount :: out) <= balance).
Proof.
  intros H0 Hrun Ha Hn Hr. assert (counter_ok k horizon [] r0) as Hc by (split; [constructor|by rewrite H0]).
  apply (resv_run_counter _ _ _ _ _ _ _ Hrun) in Hc.
  destruct (reserve_counter _ _ _ _ _ _ _ _ _ Hc Ha Hn Hr) as [-> _]. rewrite zsum_id_cons. done.
Qed.

(** A release larger than what its caller reserved does wipe the other
    clients' reservations: with two reservations of 100 outstanding, releasing
    250 deletes the counter and the next reservation sees itself alone. *)
Theorem oversized_release_wipes :
  exists r1 r2 r3 r4 k,
    reserveScript 0 k 100 60 empty_redis = (Ok 100, r1) /\ reserveScript 0 k 100 60 r1 = (Ok 200, r2) /\
    releaseScript 1 k 250 r2 = (Ok 0, r3) /\ reserveScript 2 k 100 60 r3 = (Ok 100, r4).
Proof. eexists _, _, _, _, ("u", "p"). repeat split; vm_compute; reflexivity. Qed.

(** ** Nonces *)

Section NonceProperties.
Context `{Keccak} `{Ecdsa} {C : Type} `{NonceReader C}.

(** Where the counter of a pair stands against the chain: never behind the last
    nonce the contract accepted. *)
Definition nonce_ahead (k : string * string) (last : Z) (r : redis) : Prop :=
  match r_nonces r !! k with Some v => last <= v | None => True end.

Lemma incr_fresh k last r n r' :
  (forall v, r_nonces r !! k = Some v -> last <= v) -> (r_nonces r !! k = None -> last <= 0) ->
  incr k r = (Ok n, r') -> last < n /\ nonce_ahead k last r' /\ r_nonces r' !! k = Some n.
Proof.
  intros Hs Hn. unfold incr. case_match; [|done]. intros [= <- <-]. unfold nonce_ahead. cbn. rewrite lookup_insert_eq.
  destruct (r_nonces r !! k) as [v|] eqn:E; cbn; [specialize (Hs _ eq_refl)|specialize (Hn eq_refl)]; (split; [lia|split; [lia|done]]).
Qed.

Lemma seed_fresh k last seed r n r' :
  nonce_ahead k last r -> last <= seed -> seedAndIncrScript k seed r = (Ok n, r') ->
  last < n /\ nonce_ahead k last r' /\ r_nonces r' !! k = Some n.
Proof.
  intros Ha Hs. unfold seedAndIncrScript, nonce_ahead in *. destruct (r_nonces r !! k) as [v|] eqn:E.
  - apply incr_fresh; [naive_solver|congruence].
  - apply incr_fresh; cbn; rewrite lookup_insert_eq; naive_solver.
Qed.

(** On a Redis without interference (round trips may still fail) a nonce
    the signer hands out is above the last nonce the contract accepted, whether
    the counter was there or had to be seeded from the chain, and the counter
    stays at it; if the chain cannot be read for the seed, no nonce is handed
    out and the counter is not touched. *)
Theorem incr_nonce_fresh owner provider last (w : world C) :
  race_free (w_net w) -> nonce_ahead (nonceKey owner provider) last (w_redis w) ->
  (forall n c', GetLastNonce (hex_to_address owner) (hex_to_address provider) (w_chain w) = (Ok n, c') -> last <= n) ->
  (forall n w', IncrNonce owner provider w = (Ok n, w') ->
     last < n /\ r_nonces (w_redis w') !! nonceKey owner provider = Some n) /\
  ((exists e, (GetLastNonce (hex_to_address owner) (hex_to_address provider) (w_chain w)).1 = Err e) ->
   r_nonces (w_redis w) !! nonceKey owner provider = None ->
   exists e w', IncrNonce owner provider w = (Err e, w') /\ w_redis w' = w_redis w).
Proof.
  intros Hrf Ha Hchain. set (k := nonceKey owner provider) in *. split.
  - intros n w'. unfold IncrNonce. fold k. unfold bind at 1, rread, rcmd.
    destruct (rcmd_dirty _ w) as [[b|e|] w1] eqn:E1; [|done|done].
    assert (b = bool_decide (is_Some (r_nonces (w_redis w) !! k)) /\ w_redis w1 = w_redis w /\ race_free (w_net w1)
      /\ w_chain w1 = w_chain w) as (-> & Hw1 & Hrf1 & Hc1).
    { unfold rcmd_dirty, race_free in *. destruct (w_net w) as [|[| | |g] rest] eqn:En; cbn in E1;
        try (injection E1 as <- <-); try done; apply Forall_cons in Hrf as [? ?]; done. }
    assert (forall (f : redis -> res Z * redis) (w2 : world C), race_free (w_net w2) ->
      (forall x r', f (w_redis w2) = (Ok x, r') -> last < x /\ r_nonces r' !! k = Some x) ->
      rcmd f w2 = (Ok n, w') -> last < n /\ r_nonces (w_redis w') !! k = Some n) as Hcmd.
    { intros f w2 Hrf2 Hf. unfold rcmd, rcmd_dirty, race_free in *.
      destruct (w_net w2) as [|[| | |g] rest]; cbn; try done; try (apply Forall_cons in Hrf2 as [? ?]; done);
        intros [= Hfst <-]; cbn; apply Hf; destruct (f (w_redis w2)); cbn in *; congruence. }
    case_bool_decide as Hk.
    + apply Hcmd; [done|]. rewrite Hw1. intros x r' Hi. destruct Hk as [v Hv].
      unfold nonce_ahead in Ha. rewrite Hv in Ha.
      destruct (incr_fresh k last (w_redis w) x r') as (? & _ & ?); [congruence|congruence|done|done].
    + unfold bind, chain_call. rewrite Hc1. destruct (GetLastNonce _ _ (w_chain w)) as [[seed|e|] c'] eqn:Ec; [|done|done].
      apply Hcmd; [done|]. cbn. rewrite Hw1. intros x r' Hi.
      destruct (seed_fresh k last seed (w_redis w) x r') as (? & _ & ?); eauto.
  - intros Herr Hnone. unfold IncrNonce. fold k. unfold bind at 1. unfold rread, rcmd, rcmd_dirty, race_free in *.
    destruct (w_net w) as [|[| | |g] rest] eqn:En; cbn; try (apply Forall_cons in Hrf as [? ?]; done);
      try (rewrite bool_decide_false by (rewrite Hnone; by intros []); unfold bind, chain_call; cbn;
           destruct Herr as [e He]; destruct (GetLastNonce _ _ (w_chain w)) as [x c'];
           cbn in He; subst x; eexists _, _; split; reflexivity);
      eexists _, _; split; reflexivity.
Qed.

End NonceProperties.

(** ** Concrete inputs *)

Module SessionExamples.
Import Toy.

(** A SCAN that returns each key once, and one that returns each key twice. *)
Definition keys_of (r : redis) : list string := (map_to_list (r_sessions r)).*1.

Lemma elem_of_keys_of r sid : sid ∈ keys_of r <-> is_Some (r_sessions r !! sid).
Proof.
  unfold keys_of. rewrite list_elem_of_fmap. split.
  - intros ([k v] & -> & Hk). apply elem_of_map_to_list in Hk. cbn. eauto.
  - intros [v Hv]. exists (sid, v). split; [done|]. by apply elem_of_map_to_list.
Qed.

Definition scan_once : SessionScan := {| scan_keys := keys_of; scan_keys_spec := elem_of_keys_of |}.

Lemma elem_of_keys_twice r sid : sid ∈ keys_of r ++ keys_of r <-> is_Some (r_sessions r !! sid).
Proof. rewrite elem_of_app, elem_of_keys_of. tauto. Qed.

Definition scan_twice : SessionScan :=
  {| scan_keys := fun r => keys_of r ++ keys_of r; scan_keys_spec := elem_of_keys_twice |}.

(** The chain's answer is the state itself. *)
#[export] Instance toy_nonce_reader : NonceReader Z := fun _ _ c => (Ok c, c).

Definition world_of {C} (c : C) (r : redis) (net : list netev) (now : Z) : world C :=
  mkWorld r [] false net now c [] [].

Lemma reserve_no_oversubscription_witness :
  exists r, (reserveScript 5 ("u", "p") 40 60
               (upd_reserved (fun _ => {[ ("u", "p") := mkResv 100 (Some 61) ]}) empty_redis) = (Ok 140, r)) /\
  (140 <= 150 -> zsum id [40; 100] <= 150).
Proof.
  eexists. split; [vm_compute; reflexivity|].
  refine (proj2 (reserve_no_oversubscription ("u", "p") 6 empty_redis [OpReserve 1 100 60] [100]
    (upd_reserved (fun _ => {[ ("u", "p") := mkResv 100 (Some 61) ]}) empty_redis) 5 40 60 140 _ 150 _ _ _ _ _)).
  - reflexivity.
  - eapply run_reserve; [lia|lia|vm_compute; reflexivity|apply run_nil].
  - lia.
  - lia.
  - vm_compute. reflexivity.
Defined.

Lemma incr_nonce_fresh_witness :
  7 < 8 /\ r_nonces (w_redis (IncrNonce (addr_hex 1) (addr_hex 2) (world_of 7 empty_redis [NOk; NOk] 0)).2)
           !! nonceKey (addr_hex 1) (addr_hex 2) = Some 8.
Proof.
  refine (proj1 (incr_nonce_fresh (addr_hex 1) (addr_hex 2) 7 (world_of 7 empty_redis [NOk; NOk] 0) _ _ _) 8 _ _).
  - repeat constructor.
  - exact I.
  - intros n c' E. injection E as <- <-. cbn. lia.
  - vm_compute. reflexivity.
Defined.

End SessionExamples.
