(* ===== verification/Billing.v ===== *)
(** * Billing events and the voucher generator (internal/billing: events.go,
    generator.go) *)

From S2P Require Import Prelude Hex Bytes Crypto Voucher Store Session.

(** [internal/billing/events.go:18-28 EventHandler] *)
Record EventHandler := mkHandler {
  eh_providerAddress : string;
  eh_computePricePerSec : Z;
  eh_pricePerCPUPerSec : Z;
  eh_pricePerMemGBPerSec : Z;
  eh_createFee : Z;
  eh_voucherIntervalSec : Z;
  eh_signer : Signer
}.

(** [internal/billing/events.go:37-59 NewEventHandler] *)
Definition NewEventHandler (providerAddress : string) (computePricePerSec createFee pricePerCPUPerSec pricePerMemGBPerSec voucherIntervalSec : Z)
  (signer : Signer) : EventHandler :=
  mkHandler providerAddress computePricePerSec pricePerCPUPerSec pricePerMemGBPerSec createFee voucherIntervalSec signer.

(** [internal/billing/events.go:64-72 computePrice] *)
Definition computePrice (h : EventHandler) (cpu memGB : Z) : Z :=
  if (0 <? eh_pricePerCPUPerSec h) || (0 <? eh_pricePerMemGBPerSec h)
  then cpu * eh_pricePerCPUPerSec h + memGB * eh_pricePerMemGBPerSec h
  else eh_computePricePerSec h.

Section Events.
Context `{Keccak} {C : Type}.

(** The voucher of one pre-charge; 64-bit arithmetic wraps.
    [internal/billing/events.go:86-97 emitPeriodVoucher] *)
Definition period_voucher (h : EventHandler) (sandboxID ownerAddr : string) (price periodStart intervals : Z)
  : SandboxVoucher :=
  let span := int64_wrap (eh_voucherIntervalSec h * intervals) in
  let nextVoucherAt := int64_wrap (periodStart + span) in
  mkVoucher sandboxID (hex_to_address ownerAddr) (hex_to_address (eh_providerAddress h))
    (Some (price * span))
    (BuildUsageHash sandboxID periodStart nextVoucherAt (eh_voucherIntervalSec h)) None [] false.

(** [internal/billing/events.go:82-102 emitPeriodVoucher] *)
Definition emitPeriodVoucher (h : EventHandler) (sandboxID ownerAddr : string) (price periodStart intervals : Z)
  : M C Z :=
  let intervals := if intervals <? 1 then 1 else intervals in
  let span := int64_wrap (eh_voucherIntervalSec h * intervals) in
  let nextVoucherAt := int64_wrap (periodStart + span) in
  if price * span =? 0 then ret nextVoucherAt
  else
    Enqueue (eh_signer h) (period_voucher h sandboxID ownerAddr price periodStart intervals) ;;
    ret nextVoucherAt.

(** [internal/billing/events.go:109-115 OnCreate] *)
Definition create_voucher (h : EventHandler) (sandboxID ownerAddr : string) (now : Z) : SandboxVoucher :=
  mkVoucher sandboxID (hex_to_address ownerAddr) (hex_to_address (eh_providerAddress h))
    (Some (eh_createFee h)) (BuildUsageHash sandboxID now now 0) None [] false.

(** [internal/billing/events.go:107-158 OnCreate] *)
Definition OnCreate (h : EventHandler) (sandboxID ownerAddr : string) (cpu memGB : Z) : M C unit :=
  let! now := gets w_now in
  ignore (Enqueue (eh_signer h) (create_voucher h sandboxID ownerAddr now)) ;;
  let price := computePrice h cpu memGB in
  let! x := attempt (emitPeriodVoucher h sandboxID ownerAddr price now 1) in
  let nextVoucherAt := match x with inl nva => nva | inr _ => now end in
  ignore (CreateSession (mkSession sandboxID ownerAddr (eh_providerAddress h) nextVoucherAt (Some price))) ;;
  let periodFee := price * eh_voucherIntervalSec h in
  let totalUpfront := eh_createFee h + periodFee in
  Release ownerAddr (eh_providerAddress h) totalUpfront ;;
  ignore (events_Push "created" sandboxID ownerAddr (Some totalUpfront)).

(** [internal/billing/events.go:164-192 OnStart] *)
Definition OnStart (h : EventHandler) (sandboxID ownerAddr : string) (cpu memGB : Z) : M C unit :=
  let! existing := attempt (GetSession sandboxID) in
  match existing with
  | inr _ => ret tt
  | inl (Some _) => ret tt
  | inl None =>
      let price := computePrice h cpu memGB in
      let! now := gets w_now in
      let! x := attempt (emitPeriodVoucher h sandboxID ownerAddr price now 1) in
      match x with
      | inr _ => ret tt
      | inl nextVoucherAt =>
          ignore (CreateSession (mkSession sandboxID ownerAddr (eh_providerAddress h) nextVoucherAt (Some price))) ;;
          Release ownerAddr (eh_providerAddress h) (price * eh_voucherIntervalSec h)
      end
  end.

(** [internal/billing/events.go:196-200 OnStop] *)
Definition OnStop (sandboxID : string) : M C unit := ignore (DeleteSession sandboxID).

(** [internal/billing/events.go:203-207 OnDelete] *)
Definition OnDelete (sandboxID : string) : M C unit := ignore (DeleteSession sandboxID).

(** [internal/billing/events.go:210-212 OnArchive] *)
Definition OnArchive (sandboxID : string) : M C unit := OnDelete sandboxID.

(** [internal/billing/events.go:218-228 EnsureSession] *)
Definition EnsureSession (h : EventHandler) (sandboxID ownerAddr : string) : M C unit :=
  let! existing := attempt (GetSession sandboxID) in
  match existing with
  | inr _ => ret tt
  | inl (Some _) => ret tt
  | inl None => OnCreate h sandboxID ownerAddr 0 0
  end.

End Events.

(** ** The generator *)

(** [internal/billing/generator.go:29-29 phantomSkipsBeforeConfirm] *)
Definition phantomSkipsBeforeConfirm : nat := 10.

(** [internal/billing/generator.go:209-209 catchupChunkIntervals] *)
Definition catchupChunkIntervals : Z := 60.

(** [internal/billing/generator.go:212-212 catchupMaxVouchersPerTick] *)
Definition catchupMaxVouchersPerTick : nat := 10.

(** What the runtime answers. [internal/billing/generator.go:15-23 BillableSandboxes] *)
Class BillableSandboxes (C : Type) := {
  BillableSandboxIDs : C -> res (gset string) * C;
  ConfirmGone : string -> C -> bool * C
}.

(** The session's own rate, when it is a positive decimal.
    [internal/billing/generator.go:135-141 runGeneration] *)
Definition session_price (h : EventHandler) (s : Session) : Z :=
  match s_PricePerSec s with
  | Some p => if 0 <? p then p else eh_computePricePerSec h
  | None => eh_computePricePerSec h
  end.

Section Generator.
Context `{Keccak} {C : Type} `{BillableSandboxes C} `{SessionScan}.

(** The catch-up loop; [fuel] vouchers are left in this tick's budget.
    [internal/billing/generator.go:154-174 runGeneration] *)
Fixpoint catchup (fuel : nat) (h : EventHandler) (s : Session) (price periodStart overdue : Z) : M C unit :=
  match fuel with
  | O => ret tt
  | S fuel' =>
      if 0 <? overdue then
        let chunk := if catchupChunkIntervals <? overdue then catchupChunkIntervals else overdue in
        let! x := attempt (emitPeriodVoucher h (s_SandboxID s) (s_Owner s) price periodStart chunk) in
        match x with
        | inr _ => ret tt
        | inl nextVoucherAt =>
            let! y := attempt (UpdateNextVoucherAt (s_SandboxID s) nextVoucherAt) in
            match y with
            | inr _ => ret tt
            | inl _ => catchup fuel' h s price nextVoucherAt (overdue - chunk)
            end
        end
      else ret tt
  end.

(** Billing one due session; a zero interval is a division panic.
    [internal/billing/generator.go:135-174 runGeneration] *)
Definition bill_session (h : EventHandler) (now : Z) (s : Session) : M C unit :=
  if eh_voucherIntervalSec h =? 0 then panic
  else
    let overdue := int64_wrap (int64_wrap (now - s_NextVoucherAt s) ÷ eh_voucherIntervalSec h + 1) in
    catchup catchupMaxVouchersPerTick h s (session_price h s) (s_NextVoucherAt s) overdue.

(** [internal/billing/generator.go:193-204 closePhantomSession] *)
Definition closePhantomSession (s : Session) (onPhantomClosed : option (string -> M C unit)) : M C unit :=
  let! x := attempt (DeleteSession (s_SandboxID s)) in
  match x with
  | inr _ => ret tt
  | inl _ =>
      ignore (rwrite (upd_stops (delete (s_SandboxID s)))) ;;
      match onPhantomClosed with Some f => f (s_SandboxID s) | None => ret tt end
  end.

(** One session of the tick; the result is the updated skip counters.
    [internal/billing/generator.go:107-133 runGeneration] *)
Definition generate_one (h : EventHandler) (onPhantomClosed : option (string -> M C unit)) (now : Z)
  (live : option (gset string)) (skips : gmap string nat) (s : Session) : M C (gmap string nat) :=
  let sid := s_SandboxID s in
  if now <? s_NextVoucherAt s then ret skips
  else if match live with Some l => bool_decide (sid ∉ l) | None => false end then
    let n := S (default 0%nat (skips !! sid)) in
    let skips := <[sid := n]> skips in
    if (phantomSkipsBeforeConfirm <=? n)%nat then
      let! gone := chain_call (fun c => let '(b, c') := ConfirmGone sid c in (Ok b, c')) in
      if gone : bool then closePhantomSession s onPhantomClosed ;; ret (delete sid skips)
      else ret skips
    else ret skips
  else
    bill_session h now s ;; ret (delete sid skips).

Fixpoint generate_all (h : EventHandler) (onPhantomClosed : option (string -> M C unit)) (now : Z)
  (live : option (gset string)) (skips : gmap string nat) (ss : list Session) : M C (gmap string nat) :=
  match ss with
  | [] => ret skips
  | s :: ss' =>
      let! skips := generate_one h onPhantomClosed now live skips s in
      generate_all h onPhantomClosed now live skips ss'
  end.

(** One tick. [gate] is whether a runtime view was configured; a failed listing
    bills every session. [internal/billing/generator.go:77-184 runGeneration] *)
Definition runGeneration (h : EventHandler) (gate : bool) (onPhantomClosed : option (string -> M C unit))
  (skips : gmap string nat) : M C (gmap string nat) :=
  let! x := attempt ScanAllSessions in
  match x with
  | inr _ => ret skips
  | inl sessions =>
      let! live :=
        if gate then
          let! y := attempt (chain_call BillableSandboxIDs) in
          ret (match y with inl l => Some l | inr _ => None end)
        else ret None in
      let! now := gets w_now in
      generate_all h onPhantomClosed now live skips sessions
  end.

End Generator.

(** ** Lemmas *)

Lemma hash_at_hset sid fs r sid' :
  hash_at (hset sid fs r) sid' =
  if decide (sid' = sid) then foldl (fun m '(f, v) => <[f := v]> m) (hash_at r sid) fs else hash_at r sid'.
Proof.
  unfold hash_at, hset, upd_sessions. cbn. case_decide; subst.
  - by rewrite lookup_insert_eq.
  - by rewrite lookup_insert_ne.
Qed.

Lemma hash_at_hset_eq sid fs r :
  hash_at (hset sid fs r) sid = foldl (fun m '(f, v) => <[f := v]> m) (hash_at r sid) fs.
Proof. by rewrite hash_at_hset, decide_True. Qed.

Definition next_voucher_at (r : redis) (sid : string) : option Z := hash_int (hash_at r sid) "next_voucher_at".

Lemma next_voucher_at_update r sid t :
  next_voucher_at (hset sid [("next_voucher_at", HInt t)] r) sid = Some t.
Proof.
  unfold next_voucher_at. rewrite hash_at_hset, decide_True by done. unfold hash_int. cbn. by rewrite lookup_insert_eq.
Qed.

Lemma list_at_hset sid fs r k : list_at (hset sid fs r) k = list_at r k.
Proof. done. Qed.

(** The fields of a stored session read back as the session. *)
Lemma session_at_create r s : session_at (hset (s_SandboxID s) (session_fields s) r) (s_SandboxID s) = Some s.
Proof.
  unfold session_at. rewrite hash_at_hset_eq. cbn [foldl session_fields].
  set (m0 := hash_at r (s_SandboxID s)).
  rewrite decide_False by apply insert_non_empty. f_equal.
  unfold sessionFromMap, hash_str, hash_int.
  repeat (rewrite lookup_insert_eq || (rewrite lookup_insert_ne by done)).
  destruct s as [? ? ? ? [p|]]; done.
Qed.

Section GeneratorLemmas.
Context `{Keccak} {C : Type} `{BillableSandboxes C} `{SessionScan}.

(** Sane magnitudes: a positive interval below 2^31 seconds, times below 2^61. *)
Definition sane (interval start now : Z) : Prop := 0 < interval < 2 ^ 31 /\ 0 <= start /\ now < 2 ^ 61.

(** The effect of billing on Redis, up to what a reader can see. *)
Record billed (sid : string) (q : addr) (vs : list SandboxVoucher) (r r' : redis) : Prop := {
  billed_queue : list_at r' (LQueue q) = list_at r (LQueue q) ++ (Raw <$> vs);
  billed_lists : forall k, k <> LQueue q -> list_at r' k = list_at r k;
  billed_sessions : forall sid', sid' <> sid -> hash_at r' sid' = hash_at r sid'
}.

Lemma billed_refl sid q r : billed sid q [] r r.
Proof. split; [by rewrite app_nil_r|done|done]. Qed.

Lemma billed_trans sid q vs vs' r r' r'' :
  billed sid q vs r r' -> billed sid q vs' r' r'' -> billed sid q (vs ++ vs') r r''.
Proof.
  intros [] []. split.
  - rewrite billed_queue1, billed_queue0, fmap_app, app_assoc. done.
  - intros k Hk. rewrite billed_lists1, billed_lists0; done.
  - intros k Hk. rewrite billed_sessions1, billed_sessions0; done.
Qed.

Lemma billed_enqueue sid q v r : billed sid q [v] r (rpush (LQueue q) [Raw v] r).
Proof.
  split; [unfold rpush; by rewrite list_at_set_eq| |done].
  intros k Hk. unfold rpush. by rewrite list_at_set_ne.
Qed.

Lemma billed_update sid q fs r : billed sid q [] r (hset sid fs r).
Proof.
  split; [by rewrite list_at_hset, app_nil_r|done|]. intros sid' Hs. by rewrite hash_at_hset, decide_False.
Qed.

Lemma emit_quiet h sid owner price start k (w : world C) :
  quiet w -> 1 <= k -> eh_voucherIntervalSec h * k < 2 ^ 40 -> 0 < eh_voucherIntervalSec h -> 0 <= start < 2 ^ 62 ->
  let span := eh_voucherIntervalSec h * k in
  exists vs r', emitPeriodVoucher h sid owner price start k w = (Ok (start + span), set_redis r' w) /\
  billed sid (sg_provider (eh_signer h)) vs (w_redis w) r' /\ r_sessions r' = r_sessions (w_redis w) /\
  zsum fee_of vs = price * span /\ (length vs <= 1)%nat /\
  Forall (fun v => SandboxID v = sid /\ User v = hex_to_address owner /\ fee_of v = price * span) vs.
Proof.
  intros Hq Hk Hs Hi Hst span. unfold emitPeriodVoucher.
  replace (k <? 1) with false by lia. rewrite !int64_wrap_id by (rewrite ?int64_wrap_id; lia). fold span.
  destruct (Z.eqb_spec (price * span) 0) as [E|E].
  - exists [], (w_redis w). rewrite zsum_nil. split; [by destruct w|].
    split; [apply billed_refl|]. split; [done|]. split; [lia|]. split; [cbn; lia|constructor].
  - eexists [_], _. unfold bind, Enqueue, rwrite. rewrite rcmd_quiet by done. cbn [fst snd]. split; [done|].
    split; [apply billed_enqueue|]. split; [done|].
    assert (fee_of (period_voucher h sid owner price start k) = price * span) as Hf.
    { unfold period_voucher. cbn. rewrite int64_wrap_id by lia. done. }
    rewrite zsum_one. split; [done|]. split; [cbn; lia|]. by repeat constructor.
Qed.

(** The catch-up loop bills exactly the periods it advances over. *)
Lemma catchup_quiet fuel : forall h s price start k now (w : world C),
  quiet w -> 0 < eh_voucherIntervalSec h < 2 ^ 31 -> 0 <= start -> now < 2 ^ 61 -> 0 <= k ->
  start + (k - 1) * eh_voucherIntervalSec h <= now < start + k * eh_voucherIntervalSec h ->
  next_voucher_at (w_redis w) (s_SandboxID s) = Some start ->
  exists vs r' start', catchup fuel h s price start k w = (Ok tt, set_redis r' w) /\
  billed (s_SandboxID s) (sg_provider (eh_signer h)) vs (w_redis w) r' /\
  next_voucher_at r' (s_SandboxID s) = Some start' /\
  zsum fee_of vs = price * (start' - start) /\
  Forall (fun v => SandboxID v = s_SandboxID s /\ User v = hex_to_address (s_Owner s) /\
    exists m, 1 <= m <= catchupChunkIntervals /\ fee_of v = price * (eh_voucherIntervalSec h * m)) vs /\
  (length vs <= fuel)%nat /\ start <= start' <= now + eh_voucherIntervalSec h /\
  (now < start' \/ start' = start + Z.of_nat fuel * (catchupChunkIntervals * eh_voucherIntervalSec h)).
Proof.
  induction fuel as [|fuel IH]; intros h s price start k now w Hq Hi Hst Hnow Hk Hov Hnv.
  { exists [], (w_redis w), start. split; [by destruct w|]. split; [apply billed_refl|].
    rewrite zsum_nil, Z.sub_diag. repeat split; try done; try (cbn; lia); nia. }
  cbn [catchup]. destruct (Z.ltb_spec 0 k) as [Hpos|Hz].
  2:{ exists [], (w_redis w), start. split; [by destruct w|]. split; [apply billed_refl|].
      rewrite zsum_nil, Z.sub_diag. repeat split; try done; try (cbn; lia); nia. }
  set (chunk := if catchupChunkIntervals <? k then catchupChunkIntervals else k).
  assert (1 <= chunk <= catchupChunkIntervals /\ chunk <= k /\ (chunk = k \/ chunk = catchupChunkIntervals))
    as (Hc1 & Hc2 & Hc3) by (unfold chunk, catchupChunkIntervals; destruct (Z.ltb_spec 60 k); lia).
  unfold catchupChunkIntervals in *.
  destruct (emit_quiet h (s_SandboxID s) (s_Owner s) price start chunk w Hq) as
    (vs & r1 & E & Hb & Hss & Hf & Hl & Hall); [lia|nia|lia|nia|].
  unfold bind at 1, attempt at 1. rewrite E. cbn beta iota. clear E.
  unfold bind at 1, attempt at 1, UpdateNextVoucherAt, rwrite. rewrite rcmd_quiet by done. cbn beta iota.
  set (next := start + eh_voucherIntervalSec h * chunk) in *. cbn [fst snd].
  set (r2 := hset (s_SandboxID s) [("next_voucher_at", HInt next)] (w_redis (set_redis r1 w))).
  destruct (IH h s price next (k - chunk) now (set_redis r2 (set_redis r1 w))) as
    (vs' & r' & start' & E' & Hb' & Hn' & Hf' & Hall' & Hl' & Hr' & Hd').
  all: try done; try (unfold next; nia). { apply next_voucher_at_update. }
  exists (vs ++ vs'), r', start'. rewrite E'. split; [done|].
  split; [eapply billed_trans; [exact Hb|]; eapply (billed_trans _ _ [] vs'); [apply billed_update|exact Hb']|].
  split; [done|]. rewrite zsum_app, Hf, Hf'. split; [unfold next; lia|].
  split. { apply Forall_app. split; [|done]. eapply Forall_impl; [exact Hall|]. intros v (Hv1 & Hv2 & Hv3). eauto 6. }
  rewrite length_app. split; [lia|]. split; [unfold next in *; nia|].
  destruct Hd' as [Hd'|Hd']; [by left|]. destruct Hc3 as [-> | ->]; [left; unfold next in *; nia|right; unfold next in Hd'; lia].
Qed.

(** Billing a due session. *)
Lemma bill_session_quiet h now s (w : world C) :
  quiet w -> 0 < eh_voucherIntervalSec h < 2 ^ 31 -> 0 <= s_NextVoucherAt s <= now -> now < 2 ^ 61 ->
  next_voucher_at (w_redis w) (s_SandboxID s) = Some (s_NextVoucherAt s) ->
  exists vs r' nva', bill_session h now s w = (Ok tt, set_redis r' w) /\
  billed (s_SandboxID s) (sg_provider (eh_signer h)) vs (w_redis w) r' /\
  next_voucher_at r' (s_SandboxID s) = Some nva' /\
  zsum fee_of vs = session_price h s * (nva' - s_NextVoucherAt s) /\
  Forall (fun v => SandboxID v = s_SandboxID s /\ User v = hex_to_address (s_Owner s) /\
    exists m, 1 <= m <= catchupChunkIntervals /\ fee_of v = session_price h s * (eh_voucherIntervalSec h * m)) vs /\
  (length vs <= 10)%nat /\ s_NextVoucherAt s <= nva' <= now + eh_voucherIntervalSec h /\
  (now < nva' \/ nva' = s_NextVoucherAt s + 600 * eh_voucherIntervalSec h).
Proof.
  intros Hq Hi Hs Hnow Hnv. unfold bill_session. replace (eh_voucherIntervalSec h =? 0) with false by lia.
  set (I := eh_voucherIntervalSec h) in *. set (d := now - s_NextVoucherAt s).
  assert (0 <= d / I <= d) by (split; [apply Z.div_pos; lia|apply Z.div_le_upper_bound; unfold d; nia]).
  rewrite (int64_wrap_id d), Z.quot_div_nonneg, int64_wrap_id by (unfold d in *; lia).
  pose proof (Z.mul_div_le d I ltac:(lia)). pose proof (Z.mul_succ_div_gt d I ltac:(lia)).
  destruct (catchup_quiet catchupMaxVouchersPerTick h s (session_price h s) (s_NextVoucherAt s) (d / I + 1) now w)
    as (vs & r' & nva' & E & Hb & Hn & Hf & Hall & Hl & Hr & Hd); [done|done|lia|lia|lia|fold I; unfold d in *; nia|done|].
  rewrite E. exists vs, r', nva'. unfold catchupMaxVouchersPerTick, catchupChunkIntervals in *.
  split; [done|]. do 6 (split; [done|]). fold I in Hd. lia.
Qed.

End GeneratorLemmas.

(** ** Properties *)

Section Properties.
Context `{Keccak} {C : Type} `{BillableSandboxes C} `{SessionScan}.

(** On a working Redis, a due session the runtime still lists is billed
    for exactly the time its clock advances over: the fees enqueued this tick
    sum to the session's rate times the advance of [next_voucher_at], in at most
    ten vouchers of at most sixty intervals each; the clock never runs more than
    one interval ahead, and it either passes the present or uses the whole
    ten-voucher budget (so a backlog of any length shrinks every tick). *)
Theorem generator_bills_elapsed h cb now live skips s (w : world C) :
  quiet w -> 0 < eh_voucherIntervalSec h < 2 ^ 31 -> 0 <= s_NextVoucherAt s <= now -> now < 2 ^ 61 ->
  next_voucher_at (w_redis w) (s_SandboxID s) = Some (s_NextVoucherAt s) ->
  (forall l, live = Some l -> s_SandboxID s ∈ l) ->
  exists vs r' nva', generate_one h cb now live skips s w = (Ok (delete (s_SandboxID s) skips), set_redis r' w) /\
  billed (s_SandboxID s) (sg_provider (eh_signer h)) vs (w_redis w) r' /\
  next_voucher_at r' (s_SandboxID s) = Some nva' /\
  zsum fee_of vs = session_price h s * (nva' - s_NextVoucherAt s) /\
  Forall (fun v => SandboxID v = s_SandboxID s /\ User v = hex_to_address (s_Owner s) /\
    exists m, 1 <= m <= catchupChunkIntervals /\ fee_of v = session_price h s * (eh_voucherIntervalSec h * m)) vs /\
  (length vs <= 10)%nat /\ s_NextVoucherAt s <= nva' <= now + eh_voucherIntervalSec h /\
  (now < nva' \/ nva' = s_NextVoucherAt s + 600 * eh_voucherIntervalSec h).
Proof.
  intros Hq Hi Hs Hnow Hnv Hlive. unfold generate_one.
  replace (now <? s_NextVoucherAt s) with false by lia.
  assert (match live with Some l => bool_decide (s_SandboxID s ∉ l) | None => false end = false) as ->.
  { destruct live as [l|]; [|done]. apply bool_decide_eq_false. intros Hn. by apply Hn, Hlive. }
  destruct (bill_session_quiet h now s w Hq Hi Hs Hnow Hnv) as (vs & r' & nva' & E & Hr).
  unfold bind. rewrite E. by exists vs, r', nva'.
Qed.

(** A created sandbox always has a billing session: whatever happens to the
    create-fee and first-period vouchers, once the session write goes through the
    session is there, due one interval later when the first period was enqueued
    and due immediately when it was not. *)
Theorem on_create_opens_session h sid owner cpu mem e1 e2 rest (w : world C) :
  w_net w = e1 :: e2 :: NOk :: rest -> race_free (w_net w) ->
  0 < eh_voucherIntervalSec h < 2 ^ 31 -> 0 <= w_now w < 2 ^ 61 -> computePrice h cpu mem <> 0 ->
  exists w', OnCreate h sid owner cpu mem w = (Ok tt, w') /\
  session_at (w_redis w') sid = Some (mkSession sid owner (eh_providerAddress h)
    (match e2 with NOk => w_now w + eh_voucherIntervalSec h | _ => w_now w end) (Some (computePrice h cpu mem))).
Proof.
  intros Hn Hrf Hi Hnow Hp. set (price := computePrice h cpu mem) in *.
  set (s := mkSession sid owner (eh_providerAddress h)
    (match e2 with NOk => w_now w + eh_voucherIntervalSec h | _ => w_now w end) (Some price)).
  set (upfront := eh_createFee h + price * eh_voucherIntervalSec h).
  set (m := Release owner (eh_providerAddress h) upfront ;; ignore (events_Push "created" sid owner (Some upfront))
    : M C unit).
  assert (exists w1, w_net w1 = rest /\ (exists r, w_redis w1 = hset sid (session_fields s) r) /\
    OnCreate h sid owner cpu mem w = m w1) as (w1 & Hw1 & (r & Hr) & ->).
  { unfold OnCreate. fold price. fold upfront. fold m. clearbody m. destruct w as [r ws d n t c sc a]. cbn in *. subst n.
    unfold emitPeriodVoucher. rewrite !Z.mul_1_r. replace (1 <? 1) with false by done.
    rewrite !int64_wrap_id by (rewrite ?int64_wrap_id; lia).
    destruct (Z.eqb_spec (price * eh_voucherIntervalSec h) 0); [nia|].
    unfold race_free in Hrf. rewrite !Forall_cons in Hrf. destruct Hrf as (He1 & He2 & _).
    destruct e1; [| | |done]; (destruct e2; [| | |done]);
      (eexists; split; [|split; [|unfold bind, gets, ignore, attempt, Enqueue, CreateSession, rwrite, rcmd, rcmd_dirty; cbn; reflexivity]];
       [done|eexists; reflexivity]). }
  assert (guarantees (fun a b => r_sessions b = r_sessions a) m) as Hg.
  { apply guarantees_bind.
    - eapply guarantees_mono, Release_guarantees. intros a b [f ->]. done.
    - intros _. apply guarantees_ignore. eapply guarantees_mono, events_Push_guarantees. intros a b [f ->]. done. }
  destruct (Hg w1) as [Hs _]. assert (race_free (w_net w1)) as Hrf1.
  { rewrite Hw1. eapply race_free_suffix; [|exact Hrf]. rewrite Hn. by do 3 apply suffix_cons_r. }
  apply (steps_keep _ _ r_sessions) in Hs; [|done|done].
  assert (total m) as Ht by (unfold m; auto with total). destruct (Ht w1) as [[] Hok].
  exists (m w1).2. split.
  - rewrite <- Hok. by destruct (m w1).
  - unfold session_at, hash_at. rewrite Hs, Hr. apply (session_at_create r s).
Qed.

Lemma generate_one_phantom h cb now l skips s :
  s_SandboxID s ∉ l ->
  (forall f, cb = Some f -> guarantees (fun a b => r_lists b = r_lists a) (f (s_SandboxID s))) ->
  guarantees (fun a b => r_lists b = r_lists a) (generate_one h cb now (Some l) skips s : M C _).
Proof.
  intros Hl Hcb. unfold generate_one. destruct (now <? _); [apply guarantees_ret|].
  rewrite bool_decide_true by done. destruct (_ <=? _)%nat; [|apply guarantees_ret].
  apply guarantees_bind; [apply guarantees_chain_call|]. intros [|]; [|apply guarantees_ret].
  apply guarantees_bind; [|intros; apply guarantees_ret]. unfold closePhantomSession.
  apply guarantees_bind.
  { apply guarantees_attempt. eapply guarantees_mono, DeleteSession_guarantees. by intros a b ->. }
  intros [|]; [|apply guarantees_ret]. apply guarantees_bind.
  { apply guarantees_ignore. by apply guarantees_rwrite. }
  intros _. destruct cb; auto using guarantees_ret.
Qed.

(** A sandbox missing from the runtime's listing is never billed, whatever
    the network does: the tick enqueues nothing for it.  And its session is only
    given up on proof: before ten consecutive absences, or while the per-id
    lookup does not confirm it is gone, nothing at all is changed but the skip
    counter. *)
Theorem phantom_not_billed h cb now l skips s :
  s_SandboxID s ∉ l ->
  (forall f, cb = Some f -> guarantees (fun a b => r_lists b = r_lists a) (f (s_SandboxID s))) ->
  guarantees (fun a b => r_lists b = r_lists a) (generate_one h cb now (Some l) skips s : M C _) /\
  (forall w, s_NextVoucherAt s <= now ->
    let n := S (default 0%nat (skips !! s_SandboxID s)) in
    (n < 10)%nat \/ (ConfirmGone (s_SandboxID s) (w_chain w)).1 = false ->
    exists w', generate_one h cb now (Some l) skips s w = (Ok (<[s_SandboxID s := n]> skips), w') /\
      w_redis w' = w_redis w).
Proof.
  intros Hl Hcb. split; [by apply generate_one_phantom|]. intros w Hdue n Hn.
  unfold generate_one. replace (now <? s_NextVoucherAt s) with false by lia.
  rewrite bool_decide_true by done. fold n. unfold phantomSkipsBeforeConfirm.
  destruct (Nat.leb_spec 10 n) as [Hge|Hlt].
  - destruct Hn as [?|Hg]; [lia|]. unfold bind, chain_call.
    destruct (ConfirmGone _ (w_chain w)) as [b c'] eqn:E. cbn in Hg. subst b. by eexists.
  - by eexists.
Qed.

End Properties.

(** ** Concrete inputs and counterexamples *)

Module BillingExamples.
Import Toy SessionExamples.

(** A runtime that lists the sandboxes of its state and confirms the rest gone. *)
#[export] Instance toy_billable : BillableSandboxes (gset string) :=
  {| BillableSandboxIDs := fun c => (Ok c, c); ConfirmGone := fun sid c => (bool_decide (sid ∉ c), c) |}.

#[export] Existing Instance scan_once.

Definition h0 : EventHandler :=
  mkHandler (addr_hex 8192) 3 0 0 50 60 (mkSigner 8192 16601 99 8192).

Definition s0 : Session := mkSession "sb-1" (addr_hex 4096) (addr_hex 8192) 1000 (Some 2).

Definition r0 : redis := hset "sb-1" (session_fields s0) empty_redis.

Lemma generator_bills_elapsed_witness :
  exists vs r' nva', generate_one h0 None 1200 (Some {["sb-1"]}) ∅ s0 (world_of ({["sb-1"]} : gset string) r0 [] 1200)
    = (Ok ∅, set_redis r' (world_of ({["sb-1"]} : gset string) r0 [] 1200)) /\
  next_voucher_at r' "sb-1" = Some nva' /\ zsum fee_of vs = 2 * (nva' - 1000).
Proof.
  destruct (generator_bills_elapsed h0 None 1200 (Some {["sb-1"]}) ∅ s0
    (world_of ({["sb-1"]} : gset string) r0 [] 1200)) as (vs & r' & nva' & E & _ & Hn & Hf & _).
  - reflexivity.
  - cbn. lia.
  - cbn. lia.
  - lia.
  - vm_compute. reflexivity.
  - intros l E. injection E as <-. apply elem_of_singleton. reflexivity.
  - exists vs, r', nva'. split; [exact E|]. split; [exact Hn|exact Hf].
Defined.

Lemma on_create_opens_session_witness :
  exists w', OnCreate h0 "sb-2" (addr_hex 4096) 0 0 (world_of () empty_redis [NErr; NErr; NOk] 500) = (Ok tt, w') /\
  session_at (w_redis w') "sb-2" = Some (mkSession "sb-2" (addr_hex 4096) (addr_hex 8192) 500 (Some 3)).
Proof.
  apply (on_create_opens_session h0 "sb-2" (addr_hex 4096) 0 0 NErr NErr [] (world_of () empty_redis [NErr; NErr; NOk] 500)).
  - reflexivity.
  - repeat constructor.
  - cbn. lia.
  - cbn. lia.
  - vm_compute. discriminate.
Defined.

Lemma phantom_not_billed_witness :
  exists w', generate_one h0 None 1200 (Some ∅) ∅ s0 (world_of (∅ : gset string) r0 [] 1200)
    = (Ok (<["sb-1" := 1%nat]> ∅), w') /\ w_redis w' = r0.
Proof.
  refine (proj2 (phantom_not_billed h0 None 1200 ∅ ∅ s0 _ _) (world_of (∅ : gset string) r0 [] 1200) _ _).
  - apply not_elem_of_empty.
  - discriminate.
  - cbn. lia.
  - left. vm_compute. lia.
Defined.

Definition queue_fees (r : redis) : list Z := (fun x => match x with Raw v => fee_of v | _ => 0 end) <$> list_at r (LQueue 8192).

(** A catch-up step is not atomic: when the voucher is enqueued and the
    write of [next_voucher_at] then fails, the next tick bills the same period
    again: two vouchers of 120 for one period of sixty seconds at rate 2. *)
Theorem lost_update_bills_twice :
  let w1 := (runGeneration h0 false None ∅ (world_of (∅ : gset string) r0 [NOk; NOk; NOk; NErr] 1000)).2 in
  let w2 := (runGeneration h0 false None ∅ w1).2 in
  queue_fees (w_redis w2) = [120; 120] /\ next_voucher_at (w_redis w2) "sb-1" = Some 1060.
Proof. vm_compute. split; reflexivity. Qed.

(** SCAN may return a key twice, and the generator does not dedup: with a
    scan that does, one tick charges the same period twice. *)
Theorem duplicate_scan_bills_twice :
  let w1 := (runGeneration (H1 := scan_twice) h0 false None ∅ (world_of (∅ : gset string) r0 [] 1000)).2 in
  queue_fees (w_redis w1) = [120; 120] /\ next_voucher_at (w_redis w1) "sb-1" = Some 1060.
Proof. vm_compute. split; reflexivity. Qed.

(** A session deleted between the generator's scan and its write comes
    back as a fragment without owner, id or rate: HSET recreates the hash. *)
Theorem update_resurrects_deleted_session :
  let w1 := (runGeneration h0 false None ∅
               (world_of (∅ : gset string) r0 [NOk; NOk; NRace (upd_sessions (delete "sb-1"))] 1000)).2 in
  session_at (w_redis w1) "sb-1" = Some (mkSession EmptyString EmptyString EmptyString 1060 None).
Proof. vm_compute. reflexivity. Qed.

End BillingExamples.
