(* ===== verification/Meter.v ===== *)
(** * The generator's loop (internal/billing/generator.go: RunGenerator)

    Billing.v bills one session in one tick.  Here the ticks run one after the
    other over every session, with the rest of the program in between. *)

From S2P Require Import Prelude Hex Bytes Crypto Voucher Store Session Billing.

Section Loop.
Context `{Keccak} {C : Type} `{BillableSandboxes C} `{SessionScan}.

(** The skip counters start empty and live as long as the loop.
    [internal/billing/generator.go:52-75 RunGenerator] *)
Definition RunGenerator (h : EventHandler) (gate : bool) (onPhantomClosed : option (string -> M C unit))
  (between : list (world C -> world C)) : M C (gmap string nat) :=
  if ticks_at (eh_voucherIntervalSec h) then ticker (runGeneration h gate onPhantomClosed) between ∅ else panic.

(** ** What a tick does to a session it is not about *)

Section Aside.
Variables (sid : string) (q : addr).

Record aside (a b : redis) : Prop := {
  aside_hash : hash_at b sid = hash_at a sid;
  aside_queue : exists vs, list_at b (LQueue q) = list_at a (LQueue q) ++ (Raw <$> vs) /\ Forall (fun v => SandboxID v <> sid) vs
}.

#[global] Instance aside_preorder : PreOrder aside.
Proof.
  split.
  - intros a. split; [done|]. exists []. by rewrite app_nil_r.
  - intros a b c [Eh (vs & Eq & Fv)] [Eh' (vs' & Eq' & Fv')]. split; [congruence|]. exists (vs ++ vs').
    rewrite Eq', Eq, fmap_app, app_assoc. split; [done|]. by apply Forall_app.
Qed.

Lemma aside_lists a b : r_lists b = r_lists a -> hash_at b sid = hash_at a sid -> aside a b.
Proof. intros El Eh. split; [done|]. exists []. unfold list_at. by rewrite El, app_nil_r. Qed.

Lemma update_aside sid' t : sid' <> sid -> guarantees aside (UpdateNextVoucherAt sid' t : M C unit).
Proof. intros Hs. apply guarantees_rwrite. intros r. apply aside_lists; [done|]. by rewrite hash_at_hset, decide_False. Qed.

Lemma delete_aside sid' : sid' <> sid -> guarantees aside (DeleteSession sid' : M C unit).
Proof.
  intros Hs. apply guarantees_rwrite. intros r. apply aside_lists; [done|]. unfold hash_at, upd_sessions. cbn. by rewrite lookup_delete_ne.
Qed.

Lemma stops_aside f : guarantees aside (rwrite (upd_stops f) : M C unit).
Proof. apply guarantees_rwrite. intros r. by apply aside_lists. Qed.

Lemma enqueue_aside sg v : SandboxID v <> sid -> guarantees aside (Enqueue sg v : M C unit).
Proof.
  intros Hv. apply guarantees_rwrite. intros r. split; [done|]. unfold rpush.
  destruct (decide (sg_provider sg = q)) as [<-|Hq].
  - exists [v]. rewrite list_at_set_eq. split; [done|]. by repeat constructor.
  - exists []. rewrite list_at_set_ne, app_nil_r by congruence. split; [done|constructor].
Qed.

#[local] Hint Resolve update_aside delete_aside stops_aside enqueue_aside : guarantee.

Lemma emit_aside h x owner price start k : x <> sid -> guarantees aside (emitPeriodVoucher h x owner price start k : M C Z).
Proof. intros Hx. unfold emitPeriodVoucher. guarantee. Qed.

#[local] Hint Resolve emit_aside : guarantee.

Lemma catchup_aside h s price : s_SandboxID s <> sid -> forall fuel start k, guarantees aside (catchup fuel h s price start k : M C unit).
Proof. intros Hs. induction fuel as [|fuel IH]; intros start k; cbn [catchup]; guarantee. Qed.

#[local] Hint Resolve catchup_aside : guarantee.

Definition hook_aside (cb : option (string -> M C unit)) : Prop :=
  forall f, cb = Some f -> forall x, x <> sid -> guarantees aside (f x).

Lemma generate_one_aside h cb now live skips s :
  hook_aside cb -> s_SandboxID s <> sid -> guarantees aside (generate_one h cb now live skips s : M C _).
Proof.
  intros Hcb Hs. unfold generate_one, bill_session, closePhantomSession.
  destruct cb as [f|]; [specialize (Hcb f eq_refl _ Hs)|]; guarantee.
Qed.

#[local] Hint Resolve generate_one_aside : guarantee.

Lemma generate_all_aside h cb now live ss :
  hook_aside cb -> Forall (fun s => s_SandboxID s <> sid) ss -> forall skips, guarantees aside (generate_all h cb now live skips ss : M C _).
Proof. intros Hcb. induction 1; intros skips; cbn [generate_all]; guarantee. Qed.

End Aside.

(** On a working Redis the tick works. *)
Definition hook_total (cb : option (string -> M C unit)) : Prop := forall f, cb = Some f -> forall x, total (f x).

Lemma emit_no_panic h x owner price start k : no_panic (emitPeriodVoucher h x owner price start k : M C Z).
Proof. unfold emitPeriodVoucher. case_match; auto with total. apply no_panic_bind; [apply no_panic_rwrite|auto with total]. Qed.

Lemma catchup_total h s price : forall fuel start k, total (catchup fuel h s price start k : M C unit).
Proof.
  induction fuel as [|fuel IH]; intros start k; cbn [catchup]; [apply total_ret|]. case_match; [|apply total_ret].
  apply total_bind; [apply total_attempt, emit_no_panic|]. intros [next|]; [|apply total_ret].
  apply total_bind; [apply total_attempt, no_panic_rwrite|]. intros [|]; [apply IH|apply total_ret].
Qed.

Lemma closePhantom_total s cb : hook_total cb -> total (closePhantomSession s cb : M C unit).
Proof.
  intros Hcb. apply total_bind; [apply total_attempt, no_panic_rwrite|]. intros [|]; [|apply total_ret].
  apply total_bind; [apply total_ignore, no_panic_rwrite|]. intros _. destruct cb as [f|]; [by apply Hcb|apply total_ret].
Qed.

Lemma generate_one_total h cb now live s skips : eh_voucherIntervalSec h <> 0 -> hook_total cb ->
  total (generate_one h cb now live skips s : M C _).
Proof.
  intros Hi Hcb. unfold generate_one, bill_session. replace (eh_voucherIntervalSec h =? 0) with false by lia.
  destruct (now <? _); [apply total_ret|]. destruct (match live with Some l => _ | None => _ end).
  - destruct (_ <=? _)%nat; [|apply total_ret]. apply total_bind.
    { intros w. unfold chain_call. destruct (ConfirmGone _ _). by eexists. }
    intros [|]; [|apply total_ret]. apply total_bind; [by apply closePhantom_total|intros; apply total_ret].
  - apply total_bind; [apply catchup_total|]. intros; apply total_ret.
Qed.

Lemma generate_all_total h cb now live ss : eh_voucherIntervalSec h <> 0 -> hook_total cb ->
  forall skips, total (generate_all h cb now live skips ss : M C _).
Proof.
  intros Hi Hcb. induction ss as [|s ss IH]; intros skips; cbn [generate_all]; [apply total_ret|].
  apply total_bind; [by apply generate_one_total|intros; apply IH].
Qed.

(** ** A tick for a session the runtime lists *)

Definition fees_for (sid : string) (l : list raw) : Z :=
  zsum (fun x => match x with Raw v => if bool_decide (SandboxID v = sid) then fee_of v else 0 | Malformed _ => 0 end) l.

(** What was appended to a list in between. *)
Definition pushed (k : lkey) (a b : redis) : list raw := drop (length (list_at a k)) (list_at b k).

Lemma pushed_app k a b l : list_at b k = list_at a k ++ l -> pushed k a b = l.
Proof. unfold pushed. intros ->. by rewrite drop_app_length. Qed.

Lemma fees_for_app sid l l' : fees_for sid (l ++ l') = fees_for sid l + fees_for sid l'.
Proof. apply zsum_app. Qed.

Lemma fees_for_others sid vs : Forall (fun v => SandboxID v <> sid) vs -> fees_for sid (Raw <$> vs) = 0.
Proof.
  intros Hv. apply zsum_zero. intros x (v & -> & Hin)%list_elem_of_fmap. rewrite Forall_forall in Hv.
  by rewrite bool_decide_false by auto.
Qed.

Lemma fees_for_mine sid vs : Forall (fun v => SandboxID v = sid) vs -> fees_for sid (Raw <$> vs) = zsum fee_of vs.
Proof.
  intros Hv. unfold fees_for. rewrite zsum_map. apply zsum_ext. intros v Hin. rewrite Forall_forall in Hv. cbn.
  by rewrite bool_decide_true by auto.
Qed.

Definition set_next (t : Z) (s : Session) : Session := mkSession (s_SandboxID s) (s_Owner s) (s_Provider s) t (s_PricePerSec s).

(** An open billing session, stored under its own identifier. *)
Definition open_session (r : redis) (sid : string) (s : Session) : Prop :=
  session_at r sid = Some s /\ s_SandboxID s = sid /\ next_voucher_at r sid = Some (s_NextVoucherAt s).

Lemma open_session_hash r r' sid s : hash_at r' sid = hash_at r sid -> open_session r sid s -> open_session r' sid s.
Proof. unfold open_session, session_at, next_voucher_at. by intros ->. Qed.

(** The tick starts with the session scanned once and known to the runtime, and
    at a sane time. *)
Record ready (gate : bool) (sid : string) (w : world C) : Prop := {
  ready_scan : NoDup (scan_keys (w_redis w));
  ready_names : forall k s, session_at (w_redis w) k = Some s -> s_SandboxID s = sid -> k = sid;
  ready_clock : w_now w < 2 ^ 61;
  ready_listed : gate = true -> match (BillableSandboxIDs (w_chain w)).1 with Ok l => sid ∈ l | Err _ => True | Panic => False end
}.

Lemma quiet_guarantees (G : redis -> redis -> Prop) `{!PreOrder G} {A} (m : M C A) w :
  quiet w -> guarantees G m -> G (w_redis w) (w_redis (m w).2) /\ quiet (m w).2.
Proof.
  intros Hq Hm. destruct (Hm w) as [Hs Hn]. unfold quiet in *. rewrite Hq in *. split.
  - apply race_free_steps in Hs; [|constructor]. induction Hs; [reflexivity|]. by etrans.
  - destruct Hn as [k Hk]. symmetry in Hk. by apply app_eq_nil in Hk as [_ ?].
Qed.

Lemma scan_fetch_quiet keys (w : world C) : quiet w -> scan_fetch keys w = (Ok (omap (session_at (w_redis w)) keys), w).
Proof.
  intros Hq. induction keys as [|k keys IH]; [done|]. cbn [scan_fetch]. unfold bind at 1, GetSession.
  rewrite attempt_rread_quiet by done. unfold bind. rewrite IH. cbn. by destruct (session_at (w_redis w) k).
Qed.

Lemma omap_others {A} (f : string -> option A) (P : A -> Prop) keys :
  (forall k x, k ∈ keys -> f k = Some x -> P x) -> Forall P (omap f keys).
Proof. intros Hf. apply Forall_forall. intros x (k & Hk & E)%list_elem_of_omap. eauto. Qed.

(** The session's place in the scan. *)
Lemma scan_splits gate sid s w : ready gate sid w -> open_session (w_redis w) sid s ->
  exists l1 l2, omap (session_at (w_redis w)) (scan_keys (w_redis w)) = l1 ++ s :: l2 /\
    Forall (fun x => s_SandboxID x <> sid) l1 /\ Forall (fun x => s_SandboxID x <> sid) l2.
Proof.
  intros [Hnd Hn _ _] (Es & _ & _). assert (sid ∈ scan_keys (w_redis w)) as Hin.
  { apply scan_keys_spec. unfold session_at, hash_at in Es. by destruct (r_sessions (w_redis w) !! sid). }
  apply list_elem_of_split in Hin as (k1 & k2 & E). rewrite E in *.
  apply NoDup_app in Hnd as (_ & Hk1 & [Hk2 _]%NoDup_cons).
  exists (omap (session_at (w_redis w)) k1), (omap (session_at (w_redis w)) k2). rewrite omap_app. cbn. rewrite Es.
  split; [done|]. split; apply omap_others; intros k x Hk Ex Hx; specialize (Hn k x Ex Hx); subst k.
  - by apply (Hk1 sid Hk), list_elem_of_here.
  - done.
Qed.

Lemma generate_all_app h cb now live l1 l2 : forall skips (w : world C),
  generate_all h cb now live skips (l1 ++ l2) w =
  (let! skips' := generate_all h cb now live skips l1 in generate_all h cb now live skips' l2) w.
Proof.
  induction l1 as [|s l1 IH]; intros skips w; [done|]. cbn [app generate_all]. unfold bind in *.
  destruct (generate_one h cb now live skips s w) as [[sk|e|] w1]; [|done|done]. by rewrite IH.
Qed.

(** Billing changes nothing of the session but its clock. *)
Definition clock_only (sid : string) (a b : redis) : Prop :=
  forall f, f <> "next_voucher_at" -> hash_at b sid !! f = hash_at a sid !! f.

#[global] Instance clock_only_preorder sid : PreOrder (clock_only sid).
Proof. split; [by intros a f|]. intros a b c E1 E2 f Hf. by rewrite E2, E1. Qed.

Lemma emit_clock sid h x owner price start k : guarantees (clock_only sid) (emitPeriodVoucher h x owner price start k : M C Z).
Proof. unfold emitPeriodVoucher, Enqueue. guarantee. apply guarantees_rwrite. by intros r f. Qed.

Lemma update_clock sid x t : guarantees (clock_only sid) (UpdateNextVoucherAt x t : M C unit).
Proof.
  apply guarantees_rwrite. intros r f Hf. rewrite hash_at_hset. case_decide; [|done]. subst x. cbn. by rewrite lookup_insert_ne.
Qed.

#[local] Hint Resolve emit_clock update_clock : guarantee.

Lemma catchup_clock sid h s price : forall fuel start k, guarantees (clock_only sid) (catchup fuel h s price start k : M C unit).
Proof. induction fuel as [|fuel IH]; intros start k; cbn [catchup]; guarantee. Qed.

#[local] Hint Resolve catchup_clock : guarantee.

Lemma bill_session_clock sid h now s : guarantees (clock_only sid) (bill_session h now s : M C unit).
Proof. unfold bill_session. guarantee. Qed.

Lemma session_advanced r r' sid s t :
  session_at r sid = Some s -> clock_only sid r r' -> next_voucher_at r' sid = Some t -> session_at r' sid = Some (set_next t s).
Proof.
  unfold session_at, next_voucher_at. intros E Hc Ht. destruct (decide (hash_at r sid = ∅)); [done|]. injection E as <-.
  rewrite decide_False.
  - unfold sessionFromMap, set_next, hash_str. cbn. rewrite Ht. unfold hash_int. rewrite !Hc by done. done.
  - intros E0. rewrite E0 in Ht. by unfold hash_int in Ht; rewrite lookup_empty in Ht.
Qed.

(** The session's own step: its clock advances over what it is billed for. *)
Definition advances (h : EventHandler) (sid : string) (s : Session) (t now : Z) (r r' : redis) : Prop :=
  open_session r' sid (set_next t s) /\
  (exists vs, list_at r' (LQueue (sg_provider (eh_signer h))) = list_at r (LQueue (sg_provider (eh_signer h))) ++ (Raw <$> vs) /\
     fees_for sid (Raw <$> vs) = session_price h s * (t - s_NextVoucherAt s)) /\
  s_NextVoucherAt s <= t <= Z.max (s_NextVoucherAt s) (now + eh_voucherIntervalSec h) /\
  (now < t \/ t = s_NextVoucherAt s + 600 * eh_voucherIntervalSec h).

Lemma own_step h cb now live skips sid s (w : world C) :
  quiet w -> 0 < eh_voucherIntervalSec h < 2 ^ 31 -> 0 <= s_NextVoucherAt s -> now < 2 ^ 61 ->
  open_session (w_redis w) sid s -> (forall l, live = Some l -> sid ∈ l) ->
  exists skips' w' t, generate_one h cb now live skips s w = (Ok skips', w') /\ quiet w' /\
    advances h sid s t now (w_redis w) (w_redis w').
Proof.
  intros Hq Hi Hs Hnow (Es & <- & En) Hl. unfold generate_one. destruct (Z.ltb_spec now (s_NextVoucherAt s)) as [Hlt|Hge].
  - exists skips, w, (s_NextVoucherAt s). split; [done|]. split; [done|]. split; [by destruct s|].
    split; [exists []; rewrite app_nil_r; split; [done|by rewrite fees_for_others, Z.sub_diag, Z.mul_0_r by constructor]|lia].
  - assert (match live with Some l => bool_decide (s_SandboxID s ∉ l) | None => false end = false) as ->.
    { destruct live as [l|]; [|done]. apply bool_decide_eq_false. intros Hn. by apply Hn, Hl. }
    destruct (bill_session_quiet h now s w) as (vs & r' & t & E & [Hb _ _] & Et & Hf & Hv & _ & Hr); [done..|].
    destruct (quiet_guarantees (clock_only (s_SandboxID s)) (bill_session h now s) w Hq (bill_session_clock _ h now s)) as [Hc _].
    rewrite E in Hc. unfold bind. rewrite E. eexists _, _, t. split; [done|]. split; [done|].
    split; [split; [by eapply session_advanced|done]|]. split; [|lia]. exists vs. split; [done|]. rewrite fees_for_mine; [done|].
    eapply Forall_impl; [exact Hv|]. by intros v [? _].
Qed.

(** One tick of the whole table. *)
Lemma tick_meters h gate cb skips sid s (w : world C) :
  let q := sg_provider (eh_signer h) in
  quiet w -> 0 < eh_voucherIntervalSec h < 2 ^ 31 -> hook_aside sid q cb -> hook_total cb ->
  ready gate sid w -> open_session (w_redis w) sid s -> 0 <= s_NextVoucherAt s ->
  exists skips' w' t, runGeneration h gate cb skips w = (Ok skips', w') /\ quiet w' /\
    advances h sid s t (w_now w) (w_redis w) (w_redis w').
Proof.
  intros q Hq Hi Ha Ht Hr Ho Hs. unfold runGeneration, ScanAllSessions. unfold bind at 1, attempt at 1, bind at 1.
  rewrite rread_quiet, scan_fetch_quiet by done. destruct (scan_splits gate sid s w Hr Ho) as (l1 & l2 & El & F1 & F2).
  destruct Hr as [_ _ Hclk Hls].
  set (look := if gate then _ else _). assert (exists live c', look w = (Ok live, set_chain c' w) /\ forall l, live = Some l -> sid ∈ l) as (live & c' & E & Hlive).
  { unfold look. destruct gate; [|exists None, (w_chain w); by destruct w]. specialize (Hls eq_refl). unfold bind, attempt, chain_call.
    destruct (BillableSandboxIDs (w_chain w)) as [[l|e|] c']; [| |done]; eexists _, c'; (split; [done|]); [by intros ? [= <-]|done]. }
  unfold bind at 1. rewrite E. unfold bind at 1, gets. cbn [w_now set_chain]. rewrite El, generate_all_app. clear E look.
  set (w0 := set_chain c' w). assert (quiet w0) as Hq0 by done.
  destruct (generate_all_total h cb (w_now w) live l1 ltac:(lia) Ht skips w0) as [sk1 E1].
  destruct (quiet_guarantees (aside sid q) _ w0 Hq0 (generate_all_aside sid q h cb (w_now w) live l1 Ha F1 skips)) as [A1 Hq1].
  unfold bind at 1. destruct (generate_all h cb (w_now w) live skips l1 w0) as [x1 w1]. cbn [fst snd] in *. subst x1.
  cbn [generate_all]. destruct (own_step h cb (w_now w) live sk1 sid s w1) as (sk2 & w2 & t & E2 & Hq2 & Hadv); try done.
  { eapply open_session_hash; [apply A1|done]. }
  unfold bind. rewrite E2. clear E2.
  destruct (generate_all_total h cb (w_now w) live l2 ltac:(lia) Ht sk2 w2) as [sk3 E3].
  destruct (quiet_guarantees (aside sid q) _ w2 Hq2 (generate_all_aside sid q h cb (w_now w) live l2 Ha F2 sk2)) as [A3 Hq3].
  destruct (generate_all h cb (w_now w) live sk2 l2 w2) as [x3 w3]. cbn [fst snd] in *. subst x3.
  exists sk3, w3, t. split; [done|]. split; [done|]. destruct Hadv as (Ho2 & (vs & Eq & Ef) & Hb & Hd).
  split; [by eapply open_session_hash; [apply A3|]|]. split; [|done].
  destruct A1 as [_ (v1 & Q1 & N1)], A3 as [_ (v3 & Q3 & N3)]. exists (v1 ++ vs ++ v3). change (w_redis w0) with (w_redis w) in Q1.
  fold q. fold q in Eq. rewrite Q3, Eq, Q1, !fmap_app, !fees_for_app, (fees_for_others sid v1), (fees_for_others sid v3) by done.
  split; [by rewrite !app_assoc|]. lia.
Qed.

(** ** The run *)

(** Another part of the program that lets the session be. *)
Definition leaves (sid : string) (f : world C -> world C) : Prop :=
  forall w, quiet w -> quiet (f w) /\ hash_at (w_redis (f w)) sid = hash_at (w_redis w) sid.

(** What the ticks enqueued for a sandbox. *)
Definition metered (q : addr) (sid : string) (frames : list (world C * world C)) : Z :=
  zsum (fun fr => fees_for sid (pushed (LQueue q) (w_redis fr.1) (w_redis fr.2))) frames.

(** No tick comes later than [gap] after the one before it. *)
Fixpoint paced (gap prev : Z) (frames : list (world C * world C)) : Prop :=
  match frames with [] => True | fr :: frames' => w_now fr.1 <= prev + gap /\ paced gap (w_now fr.1) frames' end.

Lemma run_meters h gate cb sid : let q := sg_provider (eh_signer h) in let I := eh_voucherIntervalSec h in
  0 < I < 2 ^ 31 -> hook_aside sid q cb -> hook_total cb ->
  forall between skips s (w : world C), let frames := ticks_of (runGeneration h gate cb) between skips w in
  quiet w -> Forall (leaves sid) between -> Forall (fun fr => ready gate sid fr.1) frames ->
  open_session (w_redis w) sid s -> 0 <= s_NextVoucherAt s ->
  exists skips' w' t, ticker (runGeneration h gate cb) between skips w = (Ok skips', w') /\
    length frames = length between /\ open_session (w_redis w') sid (set_next t s) /\
    metered q sid frames = session_price h s * (t - s_NextVoucherAt s) /\ s_NextVoucherAt s <= t /\
    (forall now, Forall (fun fr => w_now fr.1 <= now) frames -> t <= Z.max (s_NextVoucherAt s) (now + I)) /\
    (forall prev, prev < s_NextVoucherAt s -> paced (600 * I) prev frames -> Forall (fun fr => w_now fr.1 < t) frames).
Proof.
  intros q I Hi Ha Ht. induction between as [|f between IH]; intros skips s w frames Hq Hl Hr Ho Hs.
  { exists skips, w, (s_NextVoucherAt s). cbn. rewrite Z.sub_diag, Z.mul_0_r. split; [done|]. split; [done|].
    split; [by destruct s|]. split; [done|]. split; [done|]. split; [lia|constructor]. }
  apply Forall_cons in Hl as [Hf Hl]. destruct (Hf w Hq) as [Hqf Hh]. cbn [ticks_of ticker] in *.
  destruct (runGeneration h gate cb skips (f w)) as [x w1] eqn:E. subst frames.
  apply Forall_cons in Hr as [Hr0 Hr]. cbn [fst] in Hr0.
  destruct (tick_meters h gate cb skips sid s (f w) Hqf Hi Ha Ht Hr0) as (sk & w2 & t1 & E1 & Hq1 & Ho1 & (vs & Eq & Ef) & Hb & Hd);
    [by eapply open_session_hash|done|].
  rewrite E in E1. injection E1 as -> ->.
  destruct (IH sk (set_next t1 s) w2 Hq1 Hl Hr Ho1) as (sk' & w' & t & E2 & Hlen & Ho2 & Hm & Hge & Hle & Hp); [cbn; lia|].
  exists sk', w', t. unfold bind. rewrite E. split; [done|]. split; [cbn; by rewrite Hlen|]. split; [exact Ho2|].
  cbn [s_NextVoucherAt set_next] in *. split.
  { unfold metered in *. rewrite zsum_cons, Hm. cbn [fst snd]. subst q. rewrite (pushed_app _ _ _ _ Eq), Ef.
    change (session_price h (set_next t1 s)) with (session_price h s). lia. }
  split; [lia|]. split.
  - intros now [Hn Hns]%Forall_cons. cbn [fst] in Hn. specialize (Hle now Hns). lia.
  - intros prev Hprev [Hpace Hps]. cbn [fst] in *. assert (w_now (f w) < t1) as Hlt by lia.
    apply Forall_cons. split; [cbn; lia|]. by apply (Hp (w_now (f w))).
Qed.

Lemma interval_ticks i : 0 < i < 2 ^ 31 -> ticks_at i = true.
Proof. intros Hi. unfold ticks_at. rewrite int64_wrap_id by lia. lia. Qed.


End Loop.

Module MeterExamples.
Import Toy SessionExamples BillingExamples.
Existing Instance toy_billable.
Existing Instance scan_once.

(** Another user's session is due too; the settler drains the queue, an hour
    passes, then a minute. *)
Definition other_session : Session := mkSession "sb-9" (addr_hex 5000) (addr_hex 8192) 400 (Some 7).

Definition meter_world : world (gset string) :=
  world_of ({["sb-1"; "sb-9"]} : gset string) (hset "sb-9" (session_fields other_session) r0) [] 990.

Definition drain_and_wait (sec : Z) (w : world (gset string)) : world (gset string) :=
  set_now (w_now w + sec) (set_redis (set_list (LQueue 8192) [] (w_redis w)) w).

Definition meter_between := [drain_and_wait 60; drain_and_wait 3600; drain_and_wait 60].

Definition meter_frames := ticks_of (runGeneration h0 true None) meter_between ∅ meter_world.

Lemma meter_between_leaves : Forall (leaves "sb-1") meter_between.
Proof. repeat constructor; done. Qed.

Definition ready_b (gate : bool) (sid : string) (w : world (gset string)) : bool :=
  bool_decide (NoDup (scan_keys (w_redis w))) &&
  forallb (fun k => match session_at (w_redis w) k with
                    | Some s => negb (bool_decide (s_SandboxID s = sid)) || bool_decide (k = sid)
                    | None => true
                    end) (scan_keys (w_redis w)) &&
  (w_now w <? 2 ^ 61) && bool_decide (sid ∈ w_chain w).

Lemma ready_of_b gate sid w : ready_b gate sid w = true -> ready gate sid w.
Proof.
  unfold ready_b. rewrite !andb_true_iff, !bool_decide_eq_true, Z.ltb_lt, forallb_forall. intros [[[Hn Hk] Hc] Hl]. split; try done.
  intros k s Es Hs. specialize (Hk k). rewrite Es, bool_decide_true in Hk by done. apply (bool_decide_eq_true_1 _), Hk, list_elem_of_In, scan_keys_spec.
  unfold session_at, hash_at in Es. by destruct (r_sessions (w_redis w) !! k).
Qed.

Lemma meter_frames_ready_b : forallb (fun fr => ready_b true "sb-1" fr.1) meter_frames = true.
Proof. vm_compute. reflexivity. Qed.

Lemma all_ready (frames : list (world (gset string) * world (gset string))) : forallb (fun fr => ready_b true "sb-1" fr.1) frames = true -> Forall (fun fr => ready true "sb-1" fr.1) frames.
Proof. rewrite forallb_forall, Forall_forall. intros Hb fr Hfr. apply ready_of_b, Hb, list_elem_of_In, Hfr. Qed.

Lemma meter_frames_ready : Forall (fun fr => ready true "sb-1" fr.1) meter_frames.
Proof. exact (all_ready meter_frames meter_frames_ready_b). Qed.

Lemma meter_times : (fun fr => w_now fr.1) <$> meter_frames = [1050; 4650; 4710].
Proof. vm_compute. reflexivity. Qed.

Lemma meter_paced : paced (600 * 60) 990 meter_frames.
Proof.
  pose proof meter_times as E. destruct meter_frames as [|a [|b [|c [|]]]]; try discriminate E. injection E as Ea Eb Ec.
  cbn. rewrite Ea, Eb, Ec. lia.
Qed.

Lemma meter_open : open_session (w_redis meter_world) "sb-1" s0.
Proof. split; [vm_compute; reflexivity|]. split; [reflexivity|vm_compute; reflexivity]. Qed.


Example meter_amounts : metered 8192 "sb-1" meter_frames = 2 * 60 * 62 /\ metered 8192 "sb-9" meter_frames = 7 * 60 * 72.
Proof. vm_compute. split; reflexivity. Qed.

End MeterExamples.
