(* ===== verification/ChainTypes.v ===== *)
(** * What the settler sees of the chain (internal/settler/types.go and the
    result types of internal/chain/client.go)

    [ChainClient] is the interface the settler is written against; Chain.v models
    the client behind it and Wiring.v shows that it discharges the interface.  The
    labels of a failed submission are here too (internal/alert/alert.go). *)

From S2P Require Import Prelude Hex Bytes Crypto Voucher Store Session.

(** [internal/chain/client.go:25-34 SettlementStatus] *)
Inductive SettlementStatus :=
| StatusSuccess
| StatusInsufficientBalance
| StatusProviderMismatch
| StatusNotAcknowledged
| StatusInvalidNonce
| StatusInvalidSignature.

#[global] Instance SettlementStatus_eq_dec : EqDecision SettlementStatus.
Proof. solve_decision. Defined.

(** [internal/chain/client.go:36-53 String] *)
Definition status_string (s : SettlementStatus) : string :=
  match s with
  | StatusSuccess => "SUCCESS"
  | StatusInsufficientBalance => "INSUFFICIENT_BALANCE"
  | StatusProviderMismatch => "PROVIDER_MISMATCH"
  | StatusNotAcknowledged => "NOT_ACKNOWLEDGED"
  | StatusInvalidNonce => "INVALID_NONCE"
  | StatusInvalidSignature => "INVALID_SIGNATURE"
  end.

(** The fate of a broadcast transaction, with the receipt when it is mined.
    [internal/chain/client.go:356-362 TxFate] *)
Inductive TxFate (R : Type) :=
| TxPending
| TxMined (receipt : R)
| TxDropped.
Arguments TxPending {R}.
Arguments TxMined {R}.
Arguments TxDropped {R}.

(** [internal/chain/client.go:400-400 ErrTxReverted] *)
Definition ErrTxReverted : rerr := EMsg "settlement tx reverted".

(** [ResolveTxFate] returns a fate next to its error, which is only logged, so
    the error is not part of the result here.
    [internal/settler/types.go:22-45 ChainClient] *)
Class ChainClient (C R : Type) := {
  ProviderAddress : addr;
  IsProviderActive : C -> res bool * C;
  GetBalanceBatch : list addr -> addr -> C -> res (list Z) * C;
  SubmitSettleFees : list SandboxVoucher -> C -> res (Z * Z) * C;
  ResolveTxFate : Z -> Z -> C -> TxFate R * C;
  SettleStatusesFromReceipt : R -> list SandboxVoucher -> C -> res (list SettlementStatus) * C
}.

(** The label of an error's text; [None] is the nil error.
    [internal/alert/alert.go:318-334 ClassifyChainErr] *)
Definition ClassifyChainErr (err : option string) : string :=
  match err with
  | None => EmptyString
  | Some s =>
      if contains s "insufficient funds" then "low_funds"
      else if contains s "nonce too low" || contains s "nonce too high" then "nonce_drift"
      else if contains s "timeout" || contains s "deadline exceeded" then "timeout"
      else if contains s "connection refused" || contains s "EOF" then "rpc_unreachable"
      else "other"
  end.

(** Whether a failed submission is taken for a passing one.
    [internal/settler/consumer.go:282-286 Run] *)
Definition submit_severity (e : rerr) : string :=
  let errType := ClassifyChainErr (Some (error_text e)) in
  if bool_decide (errType = "timeout") || bool_decide (errType = "rpc_unreachable") then "warning" else "critical".
