(* ===== verification/Stops.v ===== *)
(** * Settlement outcomes and stop orders (internal/settler/handler.go) *)

From S2P Require Import Prelude Decimal Hex Bytes Crypto Voucher Store Backlog Session ChainTypes.

Section Stops.
Context {C : Type}.

(** SETNX on the stop marker. [internal/settler/handler.go:215-219 persistStop] *)
Definition setnx_stop (sid reason : string) (r : redis) : res bool * redis :=
  match r_stops r !! sid with
  | Some _ => (Ok false, r)
  | None => (Ok true, upd_stops <[sid := reason]> r)
  end.

(** [internal/settler/handler.go:205-234 persistStop] *)
Definition persistStop (sid reason : string) : M C unit :=
  let! created := rcmd (setnx_stop sid reason) in
  if created : bool then try_send (mkStop sid reason) ;; ret tt else ret tt.

Context `{SessionScan}.

(** [internal/settler/handler.go:259-261 stopAllSandboxesOf] *)
Definition owned_by (user provider : addr) (s : Session) : bool :=
  equal_fold (s_Owner s) (addr_hex user) && equal_fold (s_Provider s) (addr_hex provider).

Fixpoint stop_each (user provider : addr) (ss : list Session) (stopped : nat) : M C nat :=
  match ss with
  | [] => ret stopped
  | s :: ss' =>
      if owned_by user provider s then
        let! x := attempt (persistStop (s_SandboxID s) "insufficient_balance") in
        stop_each user provider ss' (match x with inl _ => S stopped | inr _ => stopped end)
      else stop_each user provider ss' stopped
  end.

(** [internal/settler/handler.go:250-270 stopAllSandboxesOf] *)
Definition stopAllSandboxesOf (user provider : addr) : M C nat :=
  let! x := attempt ScanAllSessions in
  match x with
  | inr _ => ret 0%nat
  | inl sessions => stop_each user provider sessions 0
  end.

(** A stop order whose marker could not be written is alerted.
    [internal/settler/handler.go:118-125 HandleStatuses] *)
Definition stop_or_alert (sid reason : string) : M C unit :=
  let! x := attempt (persistStop sid reason) in
  match x with
  | inl _ => ret tt
  | inr e => notify "stop_persist_failure" "critical" [("sandbox", DStr sid); ("reason", DStr reason); ("error", DStr (error_text e))]
  end.

(** What happens to one voucher after settlement, status by status.
    [internal/settler/handler.go:64-202 HandleStatuses] *)
Definition handle_one (v : SandboxVoucher) (status : SettlementStatus) : M C unit :=
  match status with
  | StatusSuccess =>
      ignore (events_Push "settled" (SandboxID v) (addr_hex (User v)) (TotalFee v))
  | StatusInsufficientBalance =>
      if IsAggregated v then
        stopAllSandboxesOf (User v) (Provider v) ;;
        notify "voucher_rejected" "critical"
          [("user", DAddr (User v)); ("provider", DAddr (Provider v)); ("amount", DStr (big_text (TotalFee v)))]
      else stop_or_alert (SandboxID v) "insufficient_balance"
  | StatusNotAcknowledged =>
      ignore (PushHeld v) ;;
      if IsAggregated v then ret tt else stop_or_alert (SandboxID v) "not_acknowledged"
  | StatusProviderMismatch | StatusInvalidSignature =>
      ignore (rwrite (rpush (LDLQ (Provider v)) [marshal v])) ;;
      notify "voucher_rejected" "critical"
        [("status", DStr (status_string status)); ("user", DAddr (User v)); ("provider", DAddr (Provider v));
         ("sandbox", DStr (SandboxID v)); ("nonce", DStr (big_text (Nonce v)))]
  | StatusInvalidNonce =>
      ignore (rwrite (upd_nonces (delete (nonceKey (addr_hex (User v)) (addr_hex (Provider v)))))) ;;
      notify "voucher_invalid_nonce" "critical"
        [("user", DAddr (User v)); ("provider", DAddr (Provider v)); ("nonce", DStr (big_text (Nonce v)))]
  end.

(** A status past the last voucher indexes out of range. *)
Fixpoint handle_all (vs : list SandboxVoucher) (sts : list SettlementStatus) {struct sts} : M C unit :=
  match sts, vs with
  | [], _ => ret tt
  | s :: sts', v :: vs' => handle_one v s ;; handle_all vs' sts'
  | _ :: _, [] => panic
  end.

(** [for i := 1; i < consumed; i++ { rdb.LPop }], errors discarded.
    [internal/settler/handler.go:60-62 HandleStatuses] *)
Fixpoint pop_n (qk : lkey) (n : nat) : M C unit :=
  match n with
  | O => ret tt
  | S n' => ignore (rwrite (lpop qk)) ;; pop_n qk n'
  end.

(** [internal/settler/handler.go:31-63 HandleStatuses] *)
Definition HandleStatuses (qk : lkey) (consumed : nat) (vs : list SandboxVoucher) (sts : list SettlementStatus)
  : M C unit :=
  let consumed := if (consumed =? 0)%nat then length vs else consumed in
  pop_n qk (consumed - 1) ;;
  handle_all vs sts.

End Stops.

(** ** Lemmas *)

(** Stop markers are only ever added, lists only by parking and dead-lettering. *)
Definition stops_grow (r r' : redis) : Prop :=
  forall sid reason, r_stops r !! sid = Some reason -> r_stops r' !! sid = Some reason.

Lemma setnx_stop_grow sid reason r : stops_grow r (setnx_stop sid reason r).2.
Proof.
  unfold setnx_stop. destruct (r_stops r !! sid) as [x|] eqn:E; [by intros ? ?|].
  intros sid' v Hv. cbn. rewrite lookup_insert_ne; congruence.
Qed.

Lemma setnx_stop_lists sid reason r : r_lists (setnx_stop sid reason r).2 = r_lists r.
Proof. unfold setnx_stop. by destruct (r_stops r !! sid). Qed.

(** What handling settlement results may do to Redis. *)
Definition keeps_queues (r r' : redis) : Prop :=
  (forall q, list_at r' (LQueue q) = list_at r (LQueue q)) /\ r_pending r' = r_pending r.

Lemma keeps_queues_eq r r' : r_lists r' = r_lists r -> r_pending r' = r_pending r -> keeps_queues r r'.
Proof. intros Hl Hp. split; [|done]. intros q. unfold list_at. by rewrite Hl. Qed.

Lemma keeps_queues_rpush k l r : (forall q, k <> LQueue q) -> keeps_queues r (rpush k l r).
Proof. intros Hk. split; [|done]. intros q. unfold rpush. rewrite list_at_set_ne; [done|congruence]. Qed.

Section Guarantees.
Context {C : Type}.

Lemma persistStop_guarantees sid reason :
  guarantees (fun r r' => stops_grow r r' /\ r_lists r' = r_lists r /\ r_pending r' = r_pending r)
    (persistStop sid reason : M C unit).
Proof.
  apply guarantees_bind.
  - apply guarantees_rcmd. intros r. right. split; [apply setnx_stop_grow|]. split; [apply setnx_stop_lists|].
    unfold setnx_stop. by destruct (r_stops r !! sid).
  - intros [|]; [|apply guarantees_ret]. apply guarantees_bind; auto with guarantee.
Qed.

Lemma persistStop_no_panic sid reason : no_panic (persistStop sid reason : M C unit).
Proof.
  apply no_panic_bind.
  - apply no_panic_rcmd. intros r. unfold setnx_stop. by destruct (r_stops r !! sid).
  - intros [|]; auto with total.
Qed.

Lemma stop_or_alert_guarantees sid reason :
  guarantees (fun r r' => stops_grow r r' /\ r_lists r' = r_lists r /\ r_pending r' = r_pending r)
    (stop_or_alert sid reason : M C unit).
Proof.
  apply guarantees_bind; [apply guarantees_attempt, persistStop_guarantees|].
  intros [|]; auto with guarantee.
Qed.

Lemma stop_or_alert_total sid reason : total (stop_or_alert sid reason : M C unit).
Proof.
  apply total_bind; [apply total_attempt, persistStop_no_panic|]. intros [|]; auto with total.
Qed.

Context `{SessionScan}.

Lemma scan_fetch_guarantees G keys : guarantees G (scan_fetch keys : M C _).
Proof. induction keys as [|k keys IH]; cbn; [apply guarantees_ret|]. guarantee. Qed.

Lemma scan_fetch_no_panic keys : no_panic (scan_fetch keys : M C _).
Proof.
  induction keys as [|k keys IH]; cbn; [done|]. apply no_panic_bind.
  - apply total_no_panic, total_attempt, no_panic_rread.
  - intros x. apply no_panic_bind; [done|]. intros. apply no_panic_ret.
Qed.

Lemma stopAll_guarantees user provider :
  guarantees (fun r r' => stops_grow r r' /\ r_lists r' = r_lists r /\ r_pending r' = r_pending r)
    (stopAllSandboxesOf user provider : M C nat).
Proof.
  apply guarantees_bind.
  { apply guarantees_attempt, guarantees_bind; [apply guarantees_rread|]. intros. apply scan_fetch_guarantees. }
  intros [ss|]; [|apply guarantees_ret]. generalize 0%nat.
  induction ss as [|s ss IH]; intros n; cbn; [apply guarantees_ret|].
  destruct (owned_by user provider s); [|apply IH].
  apply guarantees_bind; [apply guarantees_attempt, persistStop_guarantees|]. intros [|]; apply IH.
Qed.

Lemma stopAll_total user provider : total (stopAllSandboxesOf user provider : M C nat).
Proof.
  apply total_bind.
  { apply total_attempt, no_panic_bind; [apply no_panic_rread|]. intros. apply scan_fetch_no_panic. }
  intros [ss|]; [|apply total_ret]. generalize 0%nat.
  induction ss as [|s ss IH]; intros n; cbn; [apply total_ret|].
  destruct (owned_by user provider s); [|apply IH].
  apply total_bind; [apply total_attempt, persistStop_no_panic|]. intros [|]; apply IH.
Qed.

Lemma handle_one_queues v s : guarantees keeps_queues (handle_one v s : M C unit).
Proof.
  assert (forall r r', (stops_grow r r' /\ r_lists r' = r_lists r /\ r_pending r' = r_pending r) -> keeps_queues r r')
    as Hk by (intros r r' (_ & ? & ?); by apply keeps_queues_eq).
  assert (forall sid reason, guarantees keeps_queues (stop_or_alert sid reason : M C unit)) as Hstop
    by (intros; eapply guarantees_mono; [exact Hk|apply stop_or_alert_guarantees]).
  unfold handle_one. destruct s.
  - apply guarantees_ignore. eapply guarantees_mono, events_Push_guarantees. intros a b [f ->]. by apply keeps_queues_eq.
  - case_match; [|apply Hstop]. apply guarantees_bind; [|auto with guarantee].
    eapply guarantees_mono; [exact Hk|apply stopAll_guarantees].
  - apply guarantees_bind; [|auto with guarantee]. apply guarantees_ignore, guarantees_rwrite.
    intros r. by apply keeps_queues_rpush.
  - apply guarantees_bind; [|intros; case_match; auto using guarantees_ret]. apply guarantees_ignore, guarantees_rwrite.
    intros r. destruct (keeps_queues_rpush (LHeld (User v) (Provider v)) [marshal (strip v)] r) as [Hq Hp]; [done|].
    split; [exact Hq|exact Hp].
  - apply guarantees_bind; [|auto with guarantee]. apply guarantees_ignore, guarantees_rwrite.
    intros r. by apply keeps_queues_eq.
  - apply guarantees_bind; [|auto with guarantee]. apply guarantees_ignore, guarantees_rwrite.
    intros r. by apply keeps_queues_rpush.
Qed.

Lemma handle_one_total v s : total (handle_one v s : M C unit).
Proof.
  unfold handle_one. destruct s; try (apply total_bind; [apply total_ignore, no_panic_rwrite|intros; auto with total]).
  - apply total_ignore, events_Push_no_panic.
  - case_match; [|apply stop_or_alert_total]. apply total_bind; [apply stopAll_total|]. intros; apply total_notify.
  - case_match; [apply total_ret|apply stop_or_alert_total].
Qed.

Lemma handle_all_queues vs sts : guarantees keeps_queues (handle_all vs sts : M C unit).
Proof.
  revert vs. induction sts as [|s sts IH]; intros vs; cbn; [apply guarantees_ret|].
  destruct vs; [apply guarantees_panic|]. apply guarantees_bind; [apply handle_one_queues|]. intros. apply IH.
Qed.

Lemma handle_all_total vs sts : (length sts <= length vs)%nat -> total (handle_all vs sts : M C unit).
Proof.
  revert vs. induction sts as [|s sts IH]; intros vs Hl; cbn; [apply total_ret|].
  destruct vs; [cbn in Hl; lia|]. apply total_bind; [apply handle_one_total|]. intros. apply IH. cbn in Hl. lia.
Qed.

Lemma pop_n_quiet qk n (w : world C) :
  quiet w -> exists r', pop_n qk n w = (Ok tt, set_redis r' w) /\
  list_at r' qk = drop n (list_at (w_redis w) qk) /\ (forall k, k <> qk -> list_at r' k = list_at (w_redis w) k) /\
  r_pending r' = r_pending (w_redis w).
Proof.
  revert w. induction n as [|n IH]; intros w Hq; cbn [pop_n].
  { exists (w_redis w). rewrite drop_0. by destruct w. }
  unfold bind, ignore, bind, attempt, rwrite, ret. rewrite rcmd_quiet by done. cbn.
  destruct (IH (set_redis (lpop qk (w_redis w)) w)) as (r' & E & Hl & Hk & Hp); [exact Hq|].
  rewrite E. exists r'. split; [done|]. cbn in *. unfold lpop in *.
  rewrite Hl, list_at_set_eq. split; [destruct (list_at (w_redis w) qk); cbn [tail]; by rewrite ?drop_nil|].
  split; [|done]. intros k Hne. rewrite Hk, list_at_set_ne; done.
Qed.

End Guarantees.

(** ** Properties *)

Section Properties.
Context {C : Type}.

(** A stop order is never lost nor duplicated, whatever the network does:
    success means the marker is in Redis; a signal is sent at most once, only
    right after this call created the marker with this reason; on an error no
    signal is sent (the caller alerts); and no existing marker is changed. *)
Theorem persist_stop_once sid reason (w : world C) :
  let '(x, w') := persistStop sid reason w in
  (x = Ok tt -> is_Some (r_stops (w_redis w') !! sid)) /\
  (w_stopch w' <> w_stopch w ->
     x = Ok tt /\ w_stopch w' = w_stopch w ++ [mkStop sid reason] /\ r_stops (w_redis w') !! sid = Some reason) /\
  (race_free (w_net w) -> stops_grow (w_redis w) (w_redis w')) /\
  (race_free (w_net w) -> is_Some (r_stops (w_redis w) !! sid) -> w_stopch w' = w_stopch w).
Proof.
  destruct (persistStop sid reason w) as [x w'] eqn:E.
  pose proof (persistStop_guarantees (C := C) sid reason w) as [Hs _]. rewrite E in Hs. cbn in Hs.
  assert (race_free (w_net w) -> stops_grow (w_redis w) (w_redis w')) as Hgrow.
  { intros Hrf. apply race_free_steps in Hs; [|done].
    clear E. induction Hs as [|a b c [Hab _] _ IH]; [by intros ? ?|]. intros ? ? ?. by apply IH, Hab. }
  unfold persistStop, bind, rcmd, rcmd_dirty, setnx_stop, try_send, ret in E.
  destruct (w_net w) as [|[| | |g] rest] eqn:En; cbn in E;
    try (destruct (r_stops _ !! sid) as [old|] eqn:Es; cbn in E; [|case_bool_decide]);
    injection E as <- <-; cbn in *;
    (split; [|split; [|split; [done|]]]); try done; try congruence; eauto;
    try (intros; rewrite lookup_insert_eq; eauto; done);
    try (intros Hrf [old Ho]; unfold race_free in Hrf; rewrite Forall_cons in Hrf; naive_solver);
    try (intros _ [old Ho]; congruence).
Qed.

End Properties.
