(* ===== verification/Sweep.v ===== *)
(** * The pre-settle sweep (internal/settler/aggregator.go) *)

From S2P Require Import Prelude Hex Bytes Crypto Voucher Store Backlog Session ChainTypes Stops.

(** [internal/settler/aggregator.go:23-23 backlogSweepThreshold] *)
Definition backlogSweepThreshold : Z := 100.

Section Sweep.
Context `{Keccak} {C R : Type} `{CC : ChainClient C R}.

(** The memo's skip condition: a held-only user at an unchanged balance.
    [internal/settler/aggregator.go:151-155 sweepUsersMemo] *)
Definition memo_skips (fromQueue : gset addr) (lastBal : option (gmap addr Z)) (u : addr) (bal : option Z) : bool :=
  match lastBal with
  | Some m =>
      negb (bool_decide (u ∈ fromQueue)) &&
      match m !! u, bal with Some prev, Some b => prev =? b | _, _ => false end
  | None => false
  end.

(** One user of the sweep; the result is the updated memo.
    [internal/settler/aggregator.go:146-189 sweepUsersMemo] *)
Definition sweep_one (qk : lkey) (fromQueue : gset addr) (lastBal : option (gmap addr Z)) (u : addr) (bal : option Z)
  : M C (option (gmap addr Z)) :=
  if memo_skips fromQueue lastBal u bal then ret lastBal
  else
    let! x := attempt (AggregateCovered qk u ProviderAddress bal) in
    match x with
    | inr _ => ret lastBal
    | inl res =>
        let lastBal' := match lastBal, bal with Some m, Some b => Some (<[u := b]> m) | _, _ => lastBal end in
        (if bool_decide (cr_Covered res = 0%nat) && bool_decide (cr_Held res = 0%nat) then ret tt
         else mapM (fun sb => ignore (persistStop sb "insufficient_balance")) (cr_HeldSandboxIDs res)) ;;
        ret lastBal'
    end.

(** Users in order, each with the balance at its index when there is one. *)
Fixpoint sweep_all (qk : lkey) (fromQueue : gset addr) (lastBal : option (gmap addr Z)) (users : list addr)
  (balances : list Z) : M C (option (gmap addr Z)) :=
  match users with
  | [] => ret lastBal
  | u :: users' =>
      let! lastBal := sweep_one qk fromQueue lastBal u (head balances) in
      sweep_all qk fromQueue lastBal users' (tail balances)
  end.

(** [internal/settler/aggregator.go:136-146 sweepUsersMemo] *)
Definition sweepUsersMemo (qk : lkey) (users : list addr) (fromQueue : gset addr) (lastBal : option (gmap addr Z))
  : M C (option (gmap addr Z)) :=
  match users with
  | [] => ret lastBal
  | _ =>
      let! x := attempt (chain_call (GetBalanceBatch users ProviderAddress)) in
      match x with
      | inr _ => ret lastBal
      | inl balances => sweep_all qk fromQueue lastBal users balances
      end
  end.

(** [internal/settler/aggregator.go:127-129 sweepUsers] *)
Definition sweepUsers (qk : lkey) (users : list addr) : M C unit :=
  sweepUsersMemo qk users ∅ None ;; ret tt.

(** The users of a deep queue, each once. [internal/settler/aggregator.go:99-106 maybeSweep] *)
Definition queue_users (rows : list Summary) : list addr := distinct ((fun row => g_user (s_group row)) <$> rows).

(** [internal/settler/aggregator.go:69-121 maybeSweep] *)
Definition maybeSweep (qk : lkey) (lastBal : gmap addr Z) (force : bool) : M C (gmap addr Z) :=
  let provider := ProviderAddress in
  let finish (users : list addr) (fromQueue : gset addr) :=
    let! m := sweepUsersMemo qk users fromQueue (Some lastBal) in ret (default lastBal m) in
  let! x := attempt (rread (fun r => Z.of_nat (length (list_at r qk)))) in
  match x with
  | inr _ => ret lastBal
  | inl qlen =>
      let! y := attempt (rread (fun r => Z.of_nat (size (held_users_at r provider)))) in
      match y with
      | inr _ => ret lastBal
      | inl heldUserCount =>
          if negb force && (qlen <=? backlogSweepThreshold) && (heldUserCount =? 0) then ret lastBal
          else
            let! rows :=
              (if force || (backlogSweepThreshold <? qlen)
               then let! z := attempt (SummarizeQueue qk 1) in
                    ret (match z with inl (rows, _, _) => Some (queue_users rows) | inr _ => None end)
               else ret (Some [])) in
            match rows with
            | None => ret lastBal
            | Some users =>
                let fromQueue : gset addr := list_to_set users in
                if 0 <? heldUserCount then
                  let! held := attempt (HeldUsers provider) in
                  match held with
                  | inr _ => finish users fromQueue
                  | inl hs => finish (users ++ filter (fun u => u ∉ fromQueue) hs) fromQueue
                  end
                else finish users fromQueue
            end
      end
  end.

End Sweep.
