(* ===== verification/Pending.v ===== *)
(** * The in-flight settlement record (internal/settler/pendingtx.go) *)

From S2P Require Import Prelude Hex Bytes Crypto Voucher Store Backlog Session ChainTypes Stops.

(** Seconds. [internal/settler/pendingtx.go:30-30 pendingTxPollInterval] *)
Definition pendingTxPollInterval : Z := 5.

(** [internal/settler/pendingtx.go:34-34 pendingTxStallPolls] *)
Definition pendingTxStallPolls : nat := 12.

(** [internal/settler/pendingtx.go:61-65 broadcast] *)
Definition broadcast (p : pendingTx) (txHash accountNonce : Z) : pendingTx :=
  mkPending txHash accountNonce (Vouchers p) (FirstItem p) (Consumed p).

Section Pending.
Context {C R : Type} `{CC : ChainClient C R} `{NR : NonceReader C} `{SessionScan}.

(** [internal/settler/pendingtx.go:104-110 savePendingTx] *)
Definition savePendingTx (provider : addr) (p : pendingTx) : M C unit :=
  rwrite (upd_pending <[provider := p]>).

(** [internal/settler/pendingtx.go:112-125 loadPendingTx] *)
Definition loadPendingTx (provider : addr) : M C (option pendingTx) :=
  rread (fun r => r_pending r !! provider).

(** [internal/settler/pendingtx.go:127-129 clearPendingTx] *)
Definition clearPendingTx (provider : addr) : M C unit :=
  ignore (rwrite (upd_pending (delete provider))).

(** [internal/settler/pendingtx.go:214-218 requeueRaw] *)
Definition requeueRaw (qk : lkey) (p : pendingTx) : M C unit :=
  ignore (rwrite (lpush qk (FirstItem p))).

(** How many of the batch's vouchers the chain's nonces already cover; the
    first failed read ends the count.
    [internal/settler/pendingtx.go:83-94 reconcileIntent] *)
Fixpoint count_settled (vs : list SandboxVoucher) (settled : nat) : M C nat :=
  match vs with
  | [] => ret settled
  | v :: vs' =>
      let! last := chain_call (GetLastNonce (User v) (Provider v)) in
      count_settled vs'
        (match Nonce v with Some n => if n <=? last then S settled else settled | None => settled end)
  end.

(** [internal/settler/pendingtx.go:82-102 reconcileIntent] *)
Definition reconcileIntent (qk : lkey) (provider : addr) (p : pendingTx) : M C unit :=
  let! x := attempt (count_settled (Vouchers p) 0) in
  match x with
  | inr _ => ret tt
  | inl settled =>
      (if bool_decide (settled = 0%nat) then requeueRaw qk p else ret tt) ;;
      clearPendingTx provider
  end.

(** The polling loop; [polls] is after how many polls the context is cancelled
    ([None]: the record is kept for the next startup). The counters are the
    loop's [dropped] and [pendingPolls].
    [internal/settler/pendingtx.go:142-207 resolvePendingTx] *)
Fixpoint resolvePendingTx (polls : nat) (qk : lkey) (provider : addr) (p : pendingTx) (dropped pendingPolls : nat)
  : M C (option (list SettlementStatus)) :=
  match polls with
  | O => ret None
  | S polls' =>
      let again (dropped pendingPolls : nat) :=
        sleep pendingTxPollInterval ;; resolvePendingTx polls' qk provider p dropped pendingPolls in
      let! fate := chain_call (fun c => let '(f, c') := ResolveTxFate (TxHash p) (AccountNonce p) c in (Ok f, c')) in
      match fate with
      | TxMined receipt =>
          let! st := attempt (chain_call (SettleStatusesFromReceipt receipt (Vouchers p))) in
          match st with
          | inr e =>
              if bool_decide (e = ErrTxReverted) then
                requeueRaw qk p ;; clearPendingTx provider ;; ret None
              else again 0%nat pendingPolls
          | inl statuses =>
              HandleStatuses qk (Consumed p) (Vouchers p) statuses ;;
              clearPendingTx provider ;;
              ret (Some statuses)
          end
      | TxDropped =>
          if (S dropped <? 2)%nat then again (S dropped) pendingPolls
          else requeueRaw qk p ;; clearPendingTx provider ;; ret None
      | TxPending =>
          (if (S pendingPolls =? pendingTxStallPolls)%nat
           then notify "settler_tx_failure" "critical" [("tx", DStr ("0x" +:+ hex_digits 64 (TxHash p))); ("polls", DInt (Z.of_nat (S pendingPolls)))]
           else ret tt) ;;
          again 0%nat (S pendingPolls)
      end
  end.

End Pending.
