(* ===== verification/Settler.v ===== *)
(** * The settler loop (internal/settler/consumer.go) *)

From S2P Require Import Prelude Hex Bytes Crypto Voucher Store Collapse Backlog Session ChainTypes Stops Sweep Pending.

(** [internal/settler/consumer.go:20-20 maxBatchSize] *)
Definition maxBatchSize : nat := 50.

(** Seconds. [internal/settler/consumer.go:25-25 maxSettleInterval] *)
Definition maxSettleInterval : Z := 3600.

(** The configuration the loop reads, in seconds. *)
Record settle_config := mkConfig { cfg_VoucherIntervalSec : Z; cfg_SettleIntervalSec : Z }.

(** [internal/settler/consumer.go:66-69 Run] *)
Definition sweepInterval (cfg : settle_config) : Z :=
  if cfg_VoucherIntervalSec cfg <=? 0 then 60 else cfg_VoucherIntervalSec cfg.

(** [internal/settler/consumer.go:75-92 Run] *)
Definition settleInterval (cfg : settle_config) : Z :=
  let s := if cfg_SettleIntervalSec cfg <=? 0 then sweepInterval cfg else cfg_SettleIntervalSec cfg in
  if maxSettleInterval <? s then maxSettleInterval else s.

(** The loop's variables; [None] is Go's zero time.
    [internal/settler/consumer.go:58-105 Run] *)
Record run_state := mkRun {
  lastNodeCheck : option Z;
  nodeActive : bool;
  lastSubmit : option Z;
  lastSweep : option Z;
  lastForcedSweep : option Z;
  lastBal : gmap addr Z
}.

Definition run_init : run_state := mkRun None false None None None ∅.

(** [time.Since(t) >= d]; the zero time is infinitely long ago. *)
Definition since_ge (now : Z) (t : option Z) (d : Z) : bool :=
  match t with Some t => d <=? now - t | None => true end.

Definition set_lastSubmit (t : Z) (st : run_state) : run_state :=
  mkRun (lastNodeCheck st) (nodeActive st) (Some t) (lastSweep st) (lastForcedSweep st) (lastBal st).

Section Run.
Context `{Keccak} `{Ecdsa} {C R : Type} `{CC : ChainClient C R} `{NR : NonceReader C} `{SessionScan}.

Definition queueKey : lkey := LQueue ProviderAddress.

(** [internal/settler/consumer.go:43-54 Run] *)
Definition startup (polls : nat) : M C unit :=
  let! x := attempt (loadPendingTx ProviderAddress) in
  match x with
  | inl (Some p) =>
      if TxHash p =? 0 then reconcileIntent queueKey ProviderAddress p
      else resolvePendingTx polls queueKey ProviderAddress p 0 0 ;; ret tt
  | _ => ret tt
  end.

(** The periodic sweep. [internal/settler/consumer.go:113-116 Run] *)
Definition periodic_sweep (cfg : settle_config) (st : run_state) : M C run_state :=
  let! now := gets w_now in
  if since_ge now (lastSweep st) (sweepInterval cfg) then
    let! m := maybeSweep queueKey (lastBal st) false in
    let! now := gets w_now in
    ret (mkRun (lastNodeCheck st) (nodeActive st) (lastSubmit st) (Some now) (lastForcedSweep st) m)
  else ret st.

(** The throttled forced sweep. [internal/settler/consumer.go:144-147 Run] *)
Definition forced_sweep (cfg : settle_config) (st : run_state) : M C run_state :=
  let! now := gets w_now in
  if since_ge now (lastForcedSweep st) (sweepInterval cfg) then
    let! m := maybeSweep queueKey (lastBal st) true in
    let! now := gets w_now in
    ret (mkRun (lastNodeCheck st) (nodeActive st) (lastSubmit st) (lastSweep st) (Some now) m)
  else ret st.

(** The readiness check, failing open. [internal/settler/consumer.go:123-138 Run] *)
Definition node_check (st : run_state) : M C run_state :=
  let! now := gets w_now in
  if match lastNodeCheck st with Some t => 30 <? now - t | None => true end then
    let! x := attempt (chain_call IsProviderActive) in
    let! now := gets w_now in
    ret (mkRun (Some now) (match x with inl a => a | inr _ => true end)
           (lastSubmit st) (lastSweep st) (lastForcedSweep st) (lastBal st))
  else ret st.

(** Whether to wait instead of draining: not due, and not a full batch; a failed
    LLEN drains. [internal/settler/consumer.go:163-177 Run] *)
Definition batching_gate (cfg : settle_config) (st : run_state) : M C bool :=
  let! now := gets w_now in
  match lastSubmit st with
  | None => ret false
  | Some t =>
      if now - t <? settleInterval cfg then
        let! x := attempt (rread (fun r => length (list_at r queueKey))) in
        ret (match x with inl qlen => (qlen <? maxBatchSize)%nat | inr _ => false end)
      else ret false
  end.

(** [internal/settler/consumer.go:180-195 Run] *)
Definition blpop (qk : lkey) : M C raw :=
  rcmd (fun r => match list_at r qk with
                 | x :: l => (Ok x, set_list qk l r)
                 | [] => (Err ENil, r)
                 end).

(** The rest of the batch, peeked. [internal/settler/consumer.go:198-202 Run] *)
Definition peek (qk : lkey) : M C (list raw) :=
  let! x := attempt (rread (fun r => lrange (Z.of_nat maxBatchSize - 2) (list_at r qk))) in
  ret (match x with inl l => l | inr _ => [] end).

(** [internal/settler/consumer.go:244-254 Run] *)
Fixpoint sign_all (sg : Signer) (vs : list SandboxVoucher) : M C (list SandboxVoucher) :=
  match vs with
  | [] => ret []
  | v :: vs' =>
      let! v' := SignVoucher sg v in
      let! rest := sign_all sg vs' in
      ret (v' :: rest)
  end.

(** Users rejected for insufficient balance, each once; a status past the last
    voucher indexes out of range.
    [internal/settler/consumer.go:330-337 Run] *)
Fixpoint broke_users (vs : list SandboxVoucher) (sts : list SettlementStatus) {struct sts} : res (list addr) :=
  match sts, vs with
  | [], _ => Ok []
  | s :: sts', v :: vs' =>
      res_bind (broke_users vs' sts') (fun us =>
        Ok (if bool_decide (s = StatusInsufficientBalance) then User v :: filter (fun u => u <> User v) us else us))
  | _ :: _, [] => Panic
  end.

(** The first item goes back to the head of the queue, errors discarded. *)
Definition push_back (first : raw) : M C unit := ignore (rwrite (lpush queueKey first)).

(** From the intent record on: persist, broadcast, backfill, resolve, sweep.
    [internal/settler/consumer.go:271-338 Run] *)
Definition submit_batch (polls : nat) (cfg : settle_config) (st : run_state) (first : raw) (consumed : nat)
  (vouchers : list SandboxVoucher) : M C run_state :=
  let intent := mkPending 0 0 vouchers first consumed in
  let! saved := attempt (savePendingTx ProviderAddress intent) in
  match saved with
  | inr _ => push_back first ;; sleep 5 ;; ret st
  | inl _ =>
      let! tx := attempt (chain_call (SubmitSettleFees vouchers)) in
      match tx with
      | inr e =>
          clearPendingTx ProviderAddress ;;
          notify "settler_tx_failure" (submit_severity e)
            [("err", DStr (error_text e)); ("err_type", DStr (ClassifyChainErr (Some (error_text e))));
             ("batch", DInt (Z.of_nat (length vouchers)))] ;;
          push_back first ;;
          let! st := forced_sweep cfg st in
          sleep 5 ;; ret st
      | inl (hash, nonce) =>
          let p := broadcast intent hash nonce in
          ignore (savePendingTx ProviderAddress p) ;;
          let! now := gets w_now in
          let st := set_lastSubmit now st in
          let! sts := resolvePendingTx polls queueKey ProviderAddress p 0 0 in
          match sts with
          | None => ret st
          | Some statuses =>
              let! users := lift_res (broke_users vouchers statuses) in
              sweepUsers queueKey users ;; ret st
          end
      end
  end.

(** From the BLPOP on. [internal/settler/consumer.go:180-259 Run] *)
Definition drain (sg : Signer) (polls : nat) (cfg : settle_config) (st : run_state) : M C run_state :=
  let! x := attempt (blpop queueKey) in
  match x with
  | inr ENil => ret st
  | inr _ => sleep 1 ;; ret st
  | inl first =>
      let! remaining := peek queueKey in
      let rawItems := first :: remaining in
      let vouchers := omap unmarshal rawItems in
      if bool_decide (vouchers = []) then ret st
      else
        let consumed := length rawItems in
        let! now := gets w_now in
        let! collapsed := lift_res (CollapseBySandbox vouchers now) in
        let! signed := attempt (sign_all sg collapsed) in
        match signed with
        | inr _ => push_back first ;; sleep 5 ;; ret st
        | inl vouchers => submit_batch polls cfg st first consumed vouchers
        end
  end.

(** One turn of the loop. [internal/settler/consumer.go:107-178 Run] *)
Definition round (sg : Signer) (polls : nat) (cfg : settle_config) (st : run_state) : M C run_state :=
  let! st := periodic_sweep cfg st in
  let! st := node_check st in
  if negb (nodeActive st) then
    let! st := forced_sweep cfg st in
    sleep 5 ;; ret st
  else
    let! wait := batching_gate cfg st in
    if wait : bool then sleep 1 ;; ret st else drain sg polls cfg st.

(** [n] turns after startup. [internal/settler/consumer.go:32-54 Run] *)
Fixpoint rounds (n : nat) (sg : Signer) (polls : nat) (cfg : settle_config) (st : run_state) : M C run_state :=
  match n with
  | O => ret st
  | S n' => let! st := round sg polls cfg st in rounds n' sg polls cfg st
  end.

Definition Run (n : nat) (sg : Signer) (polls : nat) (cfg : settle_config) : M C run_state :=
  startup polls ;; rounds n sg polls cfg run_init.

End Run.
