(* ===== verification/Ledger.v ===== *)
(** * The books of the settle loop

    Every unit of usage is an entry of some list: the voucher queue, a held
    list or the dead-letter queue, or it is the first item of an in-flight
    record.  This file shows what each step of the settler does to those lists
    and that a turn of the loop takes usage off the books only for vouchers the
    chain gave a final status. *)

From S2P Require Import Prelude Hex Bytes Crypto Voucher Store Collapse Backlog Session ChainTypes Stops Sweep Pending Settler.

(** The interface promises one status per voucher, and no panic. *)
Class ChainClientLaws (C R : Type) `{ChainClient C R} := {
  statuses_length : forall rc vs c sts c',
    SettleStatusesFromReceipt rc vs c = (Ok sts, c') -> length sts = length vs;
  statuses_no_panic : forall rc vs c, (SettleStatusesFromReceipt rc vs c).1 <> Panic;
  submit_no_panic : forall vs c, (SubmitSettleFees vs c).1 <> Panic;
  active_no_panic : forall c, (IsProviderActive c).1 <> Panic;
  balances_no_panic : forall us p c, (GetBalanceBatch us p c).1 <> Panic
}.

(** Where handling puts a voucher that may still be collected or inspected. *)
Definition parked (k : lkey) (v : SandboxVoucher) (s : SettlementStatus) : list raw :=
  match s with
  | StatusNotAcknowledged => if decide (k = LHeld (User v) (Provider v)) then [marshal (strip v)] else []
  | StatusProviderMismatch | StatusInvalidSignature => if decide (k = LDLQ (Provider v)) then [marshal v] else []
  | _ => []
  end.

Definition parked_all (k : lkey) (vs : list SandboxVoucher) (sts : list SettlementStatus) : list raw :=
  mjoin (zip_with (parked k) vs sts).

Lemma parked_all_queue q vs sts : parked_all (LQueue q) vs sts = [].
Proof.
  unfold parked_all. revert sts. induction vs as [|v vs IH]; intros [|s sts]; cbn; [done..|].
  rewrite IH. by destruct s.
Qed.

Section Quiet.
Context {C : Type} `{SessionScan}.
Implicit Types w : world C.

Lemma quiet_race_free w : quiet w -> race_free (w_net w).
Proof. unfold quiet. intros ->. constructor. Qed.

Lemma guarantees_quiet G {A} (m : M C A) w : guarantees G m -> quiet w -> quiet (m w).2.
Proof. intros Hg Hq. destruct (Hg w) as [_ Hn]. unfold quiet in *. rewrite Hq in Hn. by apply suffix_nil_inv in Hn. Qed.

(** In a quiet world, an operation that keeps a projection of Redis. *)
Lemma quiet_keep {A B} (f : redis -> B) G (m : M C A) w :
  guarantees G m -> (forall a b, G a b -> f b = f a) -> quiet w -> f (w_redis (m w).2) = f (w_redis w).
Proof. intros Hg HG Hq. destruct (Hg w) as [Hs _]. eapply steps_keep; [by apply quiet_race_free|exact HG|exact Hs]. Qed.

Lemma bind_quiet {A B} (m : M C A) (k : A -> M C B) w a w1 :
  m w = (Ok a, w1) -> bind m k w = k a w1.
Proof. intros E. unfold bind. by rewrite E. Qed.

Lemma stop_keeps_lists w (m : M C unit) :
  guarantees (fun r r' => stops_grow r r' /\ r_lists r' = r_lists r /\ r_pending r' = r_pending r) m ->
  quiet w -> r_lists (w_redis (m w).2) = r_lists (w_redis w).
Proof. intros Hg. eapply quiet_keep; [exact Hg|]. by intros a b (_ & ? & _). Qed.

Lemma list_at_lists r r' k : r_lists r' = r_lists r -> list_at r' k = list_at r k.
Proof. unfold list_at. by intros ->. Qed.

Lemma list_at_rpush k l r k' : list_at (rpush k l r) k' = list_at r k' ++ (if decide (k' = k) then l else []).
Proof. unfold rpush. rewrite list_at_set. case_decide; subst; [done|by rewrite app_nil_r]. Qed.

(** Handling one result moves at most that voucher, to where [parked] says. *)
Lemma handle_one_quiet v s w :
  quiet w -> exists w', handle_one v s w = (Ok tt, w') /\ quiet w' /\
  (forall k, list_at (w_redis w') k = list_at (w_redis w) k ++ parked k v s) /\
  r_pending (w_redis w') = r_pending (w_redis w).
Proof.
  intros Hq. destruct (handle_one_total v s w) as [[] Hok]. exists (handle_one v s w).2.
  split; [rewrite <- Hok; by destruct (handle_one v s w)|].
  split; [by eapply guarantees_quiet; [apply handle_one_queues|]|].
  split; [|eapply (quiet_keep r_pending); [apply handle_one_queues|by intros a b [_ ?]|done]].
  clear Hok. intros k. unfold handle_one, parked. destruct s.
  - rewrite app_nil_r. apply list_at_lists. apply (quiet_keep r_lists (fun a b => r_lists b = r_lists a)); [|done|done].
    apply guarantees_ignore. eapply guarantees_mono, events_Push_guarantees. by intros a b [f ->].
  - rewrite app_nil_r. apply list_at_lists. case_match; [|apply stop_keeps_lists; [apply stop_or_alert_guarantees|done]].
    apply stop_keeps_lists; [|done]. apply guarantees_bind; [apply stopAll_guarantees|auto with guarantee].
  - rewrite (bind_quiet _ _ _ _ _ (ignore_rwrite_quiet _ w Hq)). unfold notify. cbn. rewrite list_at_rpush. done.
  - unfold PushHeld. rewrite (bind_quiet _ _ _ _ _ (ignore_rwrite_quiet _ w Hq)).
    transitivity (list_at (w_redis (set_redis (sadd_held (Provider (strip v)) (User (strip v))
      (rpush (LHeld (User (strip v)) (Provider (strip v))) [marshal (strip v)] (w_redis w))) w)) k).
    + apply list_at_lists. case_match; [done|]. apply stop_keeps_lists; [apply stop_or_alert_guarantees|exact Hq].
    + cbn. autorewrite with sandbox_rw. by rewrite list_at_rpush.
  - rewrite (bind_quiet _ _ _ _ _ (ignore_rwrite_quiet _ w Hq)). unfold notify. cbn. by rewrite app_nil_r.
  - rewrite (bind_quiet _ _ _ _ _ (ignore_rwrite_quiet _ w Hq)). unfold notify. cbn. rewrite list_at_rpush. done.
Qed.

Lemma handle_all_quiet vs : forall sts w,
  length sts = length vs -> quiet w ->
  exists w', handle_all vs sts w = (Ok tt, w') /\ quiet w' /\
  (forall k, list_at (w_redis w') k = list_at (w_redis w) k ++ parked_all k vs sts) /\
  r_pending (w_redis w') = r_pending (w_redis w).
Proof.
  induction vs as [|v vs IH]; intros [|s sts] w Hl Hq; try done.
  - exists w. split; [done|]. split; [done|]. split; [|done]. intros k. by rewrite app_nil_r.
  - cbn [handle_all]. destruct (handle_one_quiet v s w Hq) as (w1 & E1 & Hq1 & Hk1 & Hp1).
    rewrite (bind_quiet _ _ _ _ _ E1). destruct (IH sts w1) as (w2 & E2 & Hq2 & Hk2 & Hp2); [by injection Hl|done|].
    exists w2. split; [done|]. split; [done|]. split; [|congruence].
    intros k. rewrite Hk2, Hk1, <- app_assoc. done.
Qed.

(** Entries a batch owns; a record from before collapsing counts vouchers. *)
Definition owned (consumed : nat) (vs : list SandboxVoucher) : nat :=
  if (consumed =? 0)%nat then length vs else consumed.

Lemma HandleStatuses_quiet q consumed vs sts w :
  length sts = length vs -> quiet w ->
  exists w', HandleStatuses (LQueue q) consumed vs sts w = (Ok tt, w') /\ quiet w' /\
  (forall k, list_at (w_redis w') k =
    if decide (k = LQueue q) then drop (owned consumed vs - 1) (list_at (w_redis w) k)
    else list_at (w_redis w) k ++ parked_all k vs sts) /\
  r_pending (w_redis w') = r_pending (w_redis w).
Proof.
  intros Hl Hq. unfold HandleStatuses. fold (owned consumed vs).
  destruct (pop_n_quiet (LQueue q) (owned consumed vs - 1) w Hq) as (r1 & E1 & Hq1 & Hk1 & Hp1).
  rewrite (bind_quiet _ _ _ _ _ E1).
  destruct (handle_all_quiet vs sts (set_redis r1 w) Hl Hq) as (w2 & E2 & Hq2 & Hk2 & Hp2).
  exists w2. split; [done|]. split; [done|]. cbn in *. split; [|congruence].
  intros k. rewrite Hk2. case_decide; subst; [by rewrite parked_all_queue, app_nil_r|by rewrite Hk1].
Qed.

End Quiet.

Section Resolve.
Context {C R : Type} `{CL : ChainClientLaws C R} `{SessionScan}.
Implicit Types w : world C.

(** The three ways a resolution can leave Redis. *)
Inductive resolved (qk : lkey) (provider : addr) (p : pendingTx) (r : redis)
  : option (list SettlementStatus) -> redis -> Prop :=
| resolved_settled sts r' :
    (* the batch's entries are popped, its rejects parked, the record cleared *)
    length sts = length (Vouchers p) ->
    (exists (rc : R) c c', SettleStatusesFromReceipt rc (Vouchers p) c = (Ok sts, c')) ->
    (forall k, list_at r' k =
       if decide (k = qk) then drop (owned (Consumed p) (Vouchers p) - 1) (list_at r k)
       else list_at r k ++ parked_all k (Vouchers p) sts) ->
    r_pending r' = delete provider (r_pending r) ->
    resolved qk provider p r (Some sts) r'
| resolved_requeued r' :
    (* nothing settled: the popped item is back at the head, the record cleared *)
    (forall k, list_at r' k = if decide (k = qk) then FirstItem p :: list_at r k else list_at r k) ->
    r_pending r' = delete provider (r_pending r) ->
    resolved qk provider p r None r'
| resolved_cancelled r' :
    (* the context ended: the record stays for the next startup *)
    (forall k, list_at r' k = list_at r k) -> r_pending r' = r_pending r ->
    resolved qk provider p r None r'.

Lemma requeue_quiet qk provider p w :
  quiet w -> exists w', (requeueRaw qk p ;; clearPendingTx provider ;; ret None) w
    = (Ok (None : option (list SettlementStatus)), w') /\ quiet w' /\
    resolved qk provider p (w_redis w) None (w_redis w').
Proof.
  intros Hq. unfold requeueRaw, clearPendingTx.
  rewrite (bind_quiet _ _ _ _ _ (ignore_rwrite_quiet _ w Hq)).
  set (w1 := set_redis _ w). assert (quiet w1) as Hq1 by exact Hq.
  rewrite (bind_quiet _ _ _ _ _ (ignore_rwrite_quiet _ w1 Hq1)). eexists. split; [done|]. split; [exact Hq|].
  apply resolved_requeued; [|done]. intros k. cbn. unfold upd_pending, lpush.
  transitivity (list_at (set_list qk (FirstItem p :: list_at (w_redis w) qk) (w_redis w)) k); [done|].
  rewrite list_at_set. case_decide; by subst.
Qed.

Ltac poll_again :=
  match goal with
  | IH : forall d k w, _ -> exists x w', _ |- exists x w', resolvePendingTx _ _ _ _ ?d ?k ?W = _ /\ _ => apply (IH d k W); assumption
  end.

(** Whatever the chain answers and however long it takes, the loop ends in one
    of the three outcomes. *)
Lemma resolve_outcomes q provider p polls : forall dropped pending w,
  quiet w -> exists x w', resolvePendingTx polls (LQueue q) provider p dropped pending w = (Ok x, w') /\ quiet w' /\
    resolved (LQueue q) provider p (w_redis w) x (w_redis w').
Proof.
  induction polls as [|polls IH]; intros dropped pending w Hq; cbn [resolvePendingTx].
  { exists None, w. split; [done|]. split; [done|]. by apply resolved_cancelled. }
  unfold bind at 1, chain_call at 1. destruct (ResolveTxFate _ _ (w_chain w)) as [fate c1].
  set (w1 := set_chain c1 w). assert (quiet w1) as Hq1 by exact Hq. change (w_redis w) with (w_redis w1).
  destruct fate as [|rc|].
  - destruct (S pending =? pendingTxStallPolls)%nat; unfold bind, notify, ret, sleep; poll_again.
  - unfold bind at 1, attempt, chain_call.
    destruct (SettleStatusesFromReceipt rc (Vouchers p) (w_chain w1)) as [[sts|e|] c2] eqn:Es.
    + destruct (HandleStatuses_quiet q (Consumed p) (Vouchers p) sts (set_chain c2 w1))
        as (w2 & E2 & Hq2 & Hk2 & Hp2); [by eapply statuses_length|exact Hq|].
      rewrite (bind_quiet _ _ _ _ _ E2). unfold clearPendingTx.
      rewrite (bind_quiet _ _ _ _ _ (ignore_rwrite_quiet _ w2 Hq2)). eexists _, _. split; [done|].
      split; [exact Hq2|]. apply resolved_settled; [by eapply statuses_length|by eexists _, _, _|exact Hk2|]. cbn. by rewrite Hp2.
    + case_bool_decide.
      * destruct (requeue_quiet (LQueue q) provider p (set_chain c2 w1)) as (w' & E & Hq' & Hr); [exact Hq|].
        exists None, w'. done.
      * unfold bind, sleep. poll_again.
    + destruct (statuses_no_panic rc (Vouchers p) (w_chain w1)). by rewrite Es.
  - destruct (S dropped <? 2)%nat.
    + unfold bind, sleep. poll_again.
    + destruct (requeue_quiet (LQueue q) provider p w1) as (w' & E & Hq' & Hr); [exact Hq|].
      exists None, w'. done.
Qed.

End Resolve.
