(* ===== verification/Books.v ===== *)
(** * Conservation of usage over the settle loop

    The books of an account (user, provider, sandbox) are its fees on the
    queue, in its held list, in the dead-letter queue and in the popped item of
    an in-flight record.  Sweeps and failed submissions leave them unchanged;
    draining a batch removes exactly the vouchers the chain gave a final status. *)

From S2P Require Import Prelude Hex Bytes Crypto Voucher Store Collapse Backlog Session ChainTypes Stops Sweep Pending Settler Ledger.

(** A voucher's fee on one account. *)
Definition vfee (u p : addr) (sid : string) (v : SandboxVoucher) : Z :=
  if belongs u p v && bool_decide (SandboxID v = sid) then fee_of v else 0.

Definition rfee (u p : addr) (sid : string) (r : raw) : Z :=
  match unmarshal r with Some v => vfee u p sid v | None => 0 end.

(** The books of an account in the deployment of provider [q]. *)
Definition on_books (q u p : addr) (sid : string) (r : redis) : Z :=
  zsum (rfee u p sid) (list_at r (LQueue q)) + zsum (sandbox_fee sid) (list_at r (LHeld u p))
  + zsum (rfee u p sid) (list_at r (LDLQ p))
  + match r_pending r !! q with Some pt => rfee u p sid (FirstItem pt) | None => 0 end.

(** Data the code types as 20-byte addresses and always gives a fee. *)
Definition typed (v : SandboxVoucher) : Prop :=
  addr_ok (User v) /\ addr_ok (Provider v) /\ exists f, TotalFee v = Some f /\ 0 <= f.

Definition raw_typed (r : raw) : Prop := forall v, unmarshal r = Some v -> typed v.

(** A final status: the voucher is off the books, charged or discarded. *)
Definition is_final (s : SettlementStatus) : bool :=
  match s with StatusSuccess | StatusInsufficientBalance | StatusInvalidNonce => true | _ => false end.

Definition final_vs (vs : list SandboxVoucher) (sts : list SettlementStatus) : list SandboxVoucher :=
  omap (fun '(v, s) => if is_final s then Some v else None) (zip vs sts).

Section Fees.
Implicit Types (u p : addr) (sid : string).

Lemma belongs_iff_hex u p v :
  belongs u p v = bool_decide (addr_hex (User v) = addr_hex u /\ addr_hex (Provider v) = addr_hex p).
Proof.
  unfold belongs, equal_fold. rewrite !to_lower_addr_hex, <- bool_decide_and. by apply bool_decide_ext.
Qed.

Lemma vfee_group u p sid vs : zsum (vfee u p sid) vs = zsum fee_of (group (addr_hex u, addr_hex p, sid) vs).
Proof.
  induction vs as [|v vs IH]; [done|]. rewrite zsum_cons, IH. unfold group, vfee. rewrite filter_cons.
  rewrite belongs_iff_hex, <- bool_decide_and. case_bool_decide as Hb; case_decide as Hd.
  - by rewrite zsum_cons.
  - destruct Hb as [[E1 E2] E3]. contradict Hd. unfold group_key. congruence.
  - contradict Hb. unfold group_key in Hd. repeat split; congruence.
  - lia.
Qed.

Lemma rfee_unmarshal u p sid l : zsum (rfee u p sid) l = zsum (vfee u p sid) (omap unmarshal l).
Proof.
  induction l as [|[v|s] l IH]; [done| |]; cbn [omap list_omap unmarshal]; rewrite !zsum_cons, IH; done.
Qed.


(** The queue's fees on an account, by way of the partition a sweep makes. *)
Lemma rfee_mine u p sid l : zsum (rfee u p sid) l = zsum (sandbox_fee sid) (mine_of u p l).
Proof.
  induction l as [|r l IH]; [done|]. rewrite zsum_cons, IH. unfold mine_of. rewrite filter_cons.
  unfold rfee, vfee, is_mine. destruct r as [v|s]; cbn [unmarshal].
  - destruct (belongs u p v) eqn:Eb; cbn [andb].
    + rewrite decide_True by done. rewrite zsum_cons. unfold sandbox_fee at 2. cbn [unmarshal].
      case_bool_decide; [by rewrite decide_True|by rewrite decide_False].
    + by rewrite decide_False.
  - by rewrite decide_False.
Qed.

Lemma rfee_split u p sid u' p' l :
  zsum (rfee u p sid) l = zsum (rfee u p sid) (mine_of u' p' l) + zsum (rfee u p sid) (kept_of u' p' l).
Proof. apply zsum_filter_split. Qed.

(** Entries of one account are not entries of another. *)
Lemma rfee_other u p sid u' p' l :
  addr_ok u -> addr_ok p -> addr_ok u' -> addr_ok p' -> (u, p) <> (u', p') ->
  zsum (rfee u p sid) (mine_of u' p' l) = 0.
Proof.
  intros Hu Hp Hu' Hp' Hne. apply zsum_zero. intros r Hr. apply list_elem_of_filter in Hr as [Hr _].
  unfold is_mine, rfee, vfee in *. destruct (unmarshal r) as [v|]; [|done].
  rewrite belongs_iff_hex in *. zbool. destruct Hr as [E1 E2].
  rewrite (bool_decide_false (_ /\ _)); [done|]. rewrite E1, E2. intros [E3 E4].
  apply Hne. apply addr_hex_inj in E3, E4; [|done..]. congruence.
Qed.

End Fees.

(** ** Sweeps *)

(** The Redis steps a sweep over in-range users makes. *)
Definition books_step (q : addr) (a b : redis) : Prop :=
  (exists x bal, addr_ok x /\ resplit (LQueue q) x q bal a b) \/ (r_lists b = r_lists a /\ r_pending b = r_pending a).

Lemma books_step_on_books q u p sid a b :
  addr_ok q -> addr_ok u -> addr_ok p -> books_step q a b -> on_books q u p sid b = on_books q u p sid a.
Proof.
  intros Hq Hu Hp [(x & bal & Hx & [Hdebt _ Hoth Hl _ _ Hrest])|[Hl Hpe]]; unfold on_books.
  - destruct Hrest as (_ & _ & _ & Hpe & _). rewrite Hpe, (Hl (LDLQ p)) by done.
    enough (zsum (rfee u p sid) (list_at b (LQueue q)) + zsum (sandbox_fee sid) (list_at b (LHeld u p))
      = zsum (rfee u p sid) (list_at a (LQueue q)) + zsum (sandbox_fee sid) (list_at a (LHeld u p))) by lia.
    destruct (decide ((u, p) = (x, q))) as [[= -> ->]|Hne].
    + rewrite !rfee_mine. specialize (Hdebt sid). unfold outstanding in Hdebt. lia.
    + rewrite (rfee_split _ _ _ x q (list_at b _)), (rfee_split _ _ _ x q (list_at a _)), !rfee_other, Hoth by done.
      rewrite Hl; [done..|congruence].
  - unfold list_at. by rewrite Hl, Hpe.
Qed.

Section Sweeps.
Context `{Keccak} {C R : Type} `{CL : ChainClientLaws C R}.

Lemma persistStop_books q sid reason : guarantees (books_step q) (persistStop sid reason : M C unit).
Proof. eapply guarantees_mono, persistStop_guarantees. intros a b (_ & ? & ?). by right. Qed.

Lemma sweep_one_books fromQueue lastBal u bal :
  addr_ok u -> guarantees (books_step ProviderAddress) (sweep_one queueKey fromQueue lastBal u bal : M C _).
Proof.
  intros Hu. unfold sweep_one. case_match; [apply guarantees_ret|].
  apply guarantees_bind.
  { apply guarantees_attempt. eapply guarantees_mono, AggregateCovered_guarantees; [|done].
    intros a b Hr. left. eauto. }
  intros [res|]; [|apply guarantees_ret]. apply guarantees_bind; [|intros; apply guarantees_ret].
  case_match; [apply guarantees_ret|]. apply guarantees_mapM. intros sb _. apply guarantees_ignore, persistStop_books.
Qed.

Lemma sweep_all_books fromQueue users : forall lastBal balances,
  Forall addr_ok users ->
  guarantees (books_step ProviderAddress) (sweep_all queueKey fromQueue lastBal users balances : M C _).
Proof.
  induction users as [|u users IH]; intros lastBal balances Hu; cbn; [apply guarantees_ret|].
  apply Forall_cons in Hu as [Hu Hus]. apply guarantees_bind; [by apply sweep_one_books|]. intros. by apply IH.
Qed.

Lemma sweepUsersMemo_books users fromQueue lastBal :
  Forall addr_ok users ->
  guarantees (books_step ProviderAddress) (sweepUsersMemo queueKey users fromQueue lastBal : M C _).
Proof.
  intros Hu. unfold sweepUsersMemo. destruct users as [|u users]; [apply guarantees_ret|].
  apply guarantees_bind; [apply guarantees_attempt, guarantees_chain_call|].
  intros [bs|]; [by apply sweep_all_books|apply guarantees_ret].
Qed.

(** Summaries only name users of the entries they scanned. *)
Lemma summarize_users items g c :
  summarize items !! g = Some c -> exists v, Raw v ∈ items /\ User v = g_user g.
Proof.
  revert c. unfold summarize. induction items as [|r items IH] using rev_ind; intros c.
  { cbn. by rewrite lookup_empty. }
  rewrite foldl_app. cbn. unfold summarize_step at 1. destruct r as [v|s]; cbn.
  - destruct (default _ _) as [n f]. destruct (decide (g = mkGroup (User v) (Provider v))) as [->|Hne].
    + intros _. exists v. split; [|done]. apply elem_of_app. right. by apply list_elem_of_singleton.
    + rewrite lookup_insert_ne by done. intros (v' & Hv' & ?)%IH. exists v'. split; [|done].
      apply elem_of_app. by left.
  - intros (v' & Hv' & ?)%IH. exists v'. split; [|done]. apply elem_of_app. by left.
Qed.

Lemma queue_users_typed k items :
  Forall raw_typed items -> Forall addr_ok (queue_users (summary_rows k (summarize items))).
Proof.
  intros Ht. apply Forall_forall. intros u Hu. unfold queue_users in Hu. rewrite elem_of_distinct in Hu.
  apply list_elem_of_fmap in Hu as (row & -> & Hrow). unfold summary_rows in Hrow.
  apply list_elem_of_omap in Hrow as ([g [n f]] & Hg & Hs). case_match; [done|]. injection Hs as <-. cbn.
  apply elem_of_map_to_list in Hg. destruct (summarize_users _ _ _ Hg) as (v & Hv & <-).
  rewrite Forall_forall in Ht. by destruct (Ht _ Hv v eq_refl).
Qed.

Lemma sweep_one_total fromQueue lastBal u bal : total (sweep_one queueKey fromQueue lastBal u bal : M C _).
Proof.
  unfold sweep_one. case_match; [apply total_ret|].
  apply total_bind; [apply total_attempt, AggregateCovered_no_panic|]. intros [res|]; [|apply total_ret].
  apply total_bind; [|intros; apply total_ret]. case_match; [apply total_ret|].
  apply total_mapM. intros. apply total_ignore, persistStop_no_panic.
Qed.

Lemma sweepUsersMemo_total users fromQueue lastBal : total (sweepUsersMemo queueKey users fromQueue lastBal : M C _).
Proof.
  unfold sweepUsersMemo. destruct users as [|u users]; [apply total_ret|].
  apply total_bind; [apply total_attempt, no_panic_chain_call; intros; apply balances_no_panic|].
  intros [bs|]; [|apply total_ret]. generalize (u :: users). clear. intros users. revert lastBal bs.
  induction users as [|u users IH]; intros lastBal bs; cbn; [apply total_ret|].
  apply total_bind; [apply sweep_one_total|]. intros. apply IH.
Qed.

(** What a sweep is handed: in-range users everywhere it looks. *)
Definition users_typed (q : addr) (r : redis) : Prop :=
  Forall raw_typed (list_at r (LQueue q)) /\ forall x, x ∈ held_users_at r q -> addr_ok x.

(** An operation of the settler that leaves the books alone. *)
Definition keeps_books {A} (m : M C A) (w : world C) : Prop :=
  exists a, (m w).1 = Ok a /\ quiet (m w).2 /\
  rtc (books_step ProviderAddress) (w_redis w) (w_redis (m w).2).

Lemma keeps_books_of {A} (m : M C A) w :
  total m -> guarantees (books_step ProviderAddress) m -> quiet w -> keeps_books m w.
Proof.
  intros Ht Hg Hq. destruct (Ht w) as [a Ha]. exists a. split; [done|]. split; [by eapply guarantees_quiet|].
  destruct (Hg w) as [Hs _]. apply race_free_steps in Hs; [done|by apply quiet_race_free].
Qed.

Lemma keeps_books_ret {A} (a : A) w : quiet w -> keeps_books (ret a) w.
Proof. intros Hq. by exists a. Qed.

Lemma keeps_books_bind {A B} (m : M C A) (k : A -> M C B) w :
  keeps_books m w -> (forall a w1, m w = (Ok a, w1) -> quiet w1 -> keeps_books (k a) w1) -> keeps_books (bind m k) w.
Proof.
  intros (a & Ha & Hq & Hs) Hk. destruct (m w) as [x w1] eqn:E. cbn in *. subst x.
  destruct (Hk a w1 eq_refl Hq) as (b & Hb & Hq' & Hs'). exists b. rewrite (bind_quiet _ _ _ _ _ E).
  split; [done|]. split; [done|]. by etrans.
Qed.

Lemma keeps_books_read {A B} (f : redis -> A) (k : A + rerr -> M C B) w :
  quiet w -> keeps_books (k (inl (f (w_redis w)))) w -> keeps_books (bind (attempt (rread f)) k) w.
Proof. intros Hq Hk. unfold keeps_books. by rewrite !(bind_quiet _ _ _ _ _ (attempt_rread_quiet f w Hq)). Qed.

Lemma maybeSweep_books lastBal force w :
  quiet w -> users_typed ProviderAddress (w_redis w) -> keeps_books (maybeSweep queueKey lastBal force : M C _) w.
Proof.
  intros Hq [Hqt Hht]. unfold maybeSweep.
  assert (forall users fq w, quiet w -> Forall addr_ok users ->
    keeps_books (bind (sweepUsersMemo queueKey users fq (Some lastBal)) (fun m => ret (default lastBal m)) : M C _) w) as Hfin.
  { intros users fq w' Hq' Hu. apply keeps_books_bind.
    - apply keeps_books_of; [apply sweepUsersMemo_total|by apply sweepUsersMemo_books|done].
    - intros m w1 _ Hq1. by apply keeps_books_ret. }
  cbv zeta.
  apply keeps_books_read; [done|]. apply keeps_books_read; [done|]. cbn beta iota.
  case_match; [by apply keeps_books_ret|]. apply keeps_books_bind.
  { case_match; [|by apply keeps_books_ret].
    apply keeps_books_of; [|guarantee|done].
    apply total_bind; [apply total_attempt, SummarizeQueue_no_panic|]. intros; apply total_ret. }
  intros rows w1 E1 Hq1.
  assert (w1 = w /\ (forall users, rows = Some users -> Forall addr_ok users)) as [-> Hrows].
  { destruct (force || _).
    - destruct (SummarizeQueue_quiet queueKey 1 w Hq) as (l & n & t & Es & Hl).
      unfold bind, attempt in E1. rewrite Es in E1. injection E1 as <- <-. split; [done|].
      intros users [= <-]. apply queue_users_typed. apply Forall_forall. intros x Hx%Hl.
      rewrite Forall_forall in Hqt. by apply Hqt.
    - injection E1 as <- <-. split; [done|]. intros users [= <-]. constructor. }
  destruct rows as [users|]; [|by apply keeps_books_ret]. specialize (Hrows users eq_refl).
  clear E1. destruct (0 <? _); [|by apply Hfin]. unfold HeldUsers. apply keeps_books_read; [done|]. cbn beta iota. apply Hfin; [done|].
  apply Forall_app. split; [done|]. apply Forall_forall. intros x Hx.
  apply list_elem_of_filter in Hx as [_ Hx]. apply elem_of_elements in Hx. by apply Hht.
Qed.

End Sweeps.

(** ** Signing, handling and collapsing leave the fees alone *)

Definition same_charge (v v' : SandboxVoucher) : Prop :=
  SandboxID v' = SandboxID v /\ User v' = User v /\ Provider v' = Provider v /\ TotalFee v' = TotalFee v.

Lemma same_charge_vfee u p sid v v' : same_charge v v' -> vfee u p sid v' = vfee u p sid v.
Proof. intros (E1 & E2 & E3 & E4). unfold vfee, belongs, fee_of. by rewrite E1, E2, E3, E4. Qed.

Lemma same_charges_vfee u p sid vs vs' :
  Forall2 same_charge vs vs' -> zsum (vfee u p sid) vs' = zsum (vfee u p sid) vs.
Proof. induction 1; [done|]. rewrite !zsum_cons. f_equal; [by apply same_charge_vfee|done]. Qed.

Lemma same_charges_typed vs vs' : Forall2 same_charge vs vs' -> Forall typed vs -> Forall typed vs'.
Proof.
  induction 1 as [|v v' vs vs' (E1 & E2 & E3 & E4) _ IH]; [done|]. rewrite !Forall_cons. intros [Hv Hvs].
  split; [|by apply IH]. unfold typed in *. by rewrite E2, E3, E4.
Qed.

Lemma typed_has_fee vs : Forall typed vs -> Forall has_fee vs.
Proof. intros Ht. eapply Forall_impl; [exact Ht|]. intros v (_ & _ & f & Hf & _). by exists f. Qed.

Lemma vfee_belongs u p sid v :
  addr_ok u -> addr_ok p -> typed v ->
  vfee u p sid v = if decide (User v = u /\ Provider v = p) then if decide (SandboxID v = sid) then fee_of v else 0 else 0.
Proof.
  intros Hu Hp (Hvu & Hvp & _). unfold vfee. destruct (belongs u p v) eqn:E; cbn [andb].
  - apply belongs_iff in E; [|done..]. rewrite decide_True by done.
    case_bool_decide; [by rewrite decide_True|by rewrite decide_False].
  - rewrite decide_False; [done|]. intros Hb. rewrite (belongs_refl u p v) in E; naive_solver.
Qed.

Lemma parked_all_cons k v vs s sts : parked_all k (v :: vs) (s :: sts) = parked k v s ++ parked_all k vs sts.
Proof. done. Qed.

Lemma final_vs_cons v vs s sts :
  final_vs (v :: vs) (s :: sts) = (if is_final s then [v] else []) ++ final_vs vs sts.
Proof. unfold final_vs. cbn. by destruct (is_final s). Qed.

(** Every voucher of a handled batch is parked, dead-lettered or final. *)
Lemma parked_final u p sid vs : forall sts,
  addr_ok u -> addr_ok p -> Forall typed vs -> length sts = length vs ->
  zsum (sandbox_fee sid) (parked_all (LHeld u p) vs sts) + zsum (rfee u p sid) (parked_all (LDLQ p) vs sts)
  + zsum (vfee u p sid) (final_vs vs sts) = zsum (vfee u p sid) vs.
Proof.
  induction vs as [|v vs IH]; intros [|s sts] Hu Hp Ht Hl; try done.
  apply Forall_cons in Ht as [Htv Ht]. specialize (IH sts Hu Hp Ht ltac:(by injection Hl)).
  rewrite zsum_cons, <- IH, !parked_all_cons, final_vs_cons, !zsum_app. clear IH.
  enough (zsum (sandbox_fee sid) (parked (LHeld u p) v s) + zsum (rfee u p sid) (parked (LDLQ p) v s)
    + zsum (vfee u p sid) (if is_final s then [v] else []) = vfee u p sid v) by lia.
  assert (p <> Provider v -> vfee u p sid v = 0) as Hz.
  { intros Hne. rewrite vfee_belongs by done. rewrite decide_False; [done|]. by intros [_ ?]. }
  unfold parked. destruct s; cbn [is_final]; rewrite ?zsum_nil, ?zsum_one; try lia.
  - rewrite (decide_False (P := LHeld u p = LDLQ (Provider v))), zsum_nil by done. case_decide as Hd.
    + rewrite zsum_one. unfold rfee. cbn. lia.
    + rewrite zsum_nil, Hz; [lia|congruence].
  - rewrite (decide_False (P := LDLQ p = LHeld (User v) (Provider v))), zsum_nil, vfee_belongs by done.
    case_decide as Hd.
    + injection Hd as -> ->. rewrite (decide_True (P := User v = User v /\ _)) by done. rewrite zsum_one.
      change (sandbox_fee sid (marshal (strip v))) with (if decide (SandboxID v = sid) then fee_of v else 0). lia.
    + rewrite decide_False, zsum_nil; [lia|]. intros [<- <-]. done.
  - rewrite (decide_False (P := LHeld u p = LDLQ (Provider v))), zsum_nil by done. case_decide as Hd.
    + rewrite zsum_one. unfold rfee. cbn. lia.
    + rewrite zsum_nil, Hz; [lia|congruence].
Qed.

Section Batch.
Context `{Keccak}.

Lemma collapse_vfee u p sid now vs : zsum (vfee u p sid) (collapse_ref now vs) = zsum (vfee u p sid) vs.
Proof. rewrite !vfee_group. apply collapse_ref_group_fee. Qed.

Lemma group_fee_le k vs : Forall typed vs -> 0 <= zsum fee_of (group k vs) <= zsum fee_of vs.
Proof.
  intros Ht. assert (forall l, Forall typed l -> 0 <= zsum fee_of l) as Hnn.
  { intros l Hl. apply zsum_nonneg. eapply Forall_impl; [exact Hl|]. intros v (_ & _ & f & Hf & ?). unfold fee_of. by rewrite Hf. }
  rewrite (zsum_filter_split fee_of (fun v => group_key v = k) vs). unfold group.
  split; [|assert (0 <= zsum fee_of (filter (fun v => ~ group_key v = k) vs)); [|lia]];
    apply Hnn, Forall_forall; intros v Hv; apply list_elem_of_filter in Hv as [_ Hv];
    rewrite Forall_forall in Ht; auto.
Qed.

(** Merged vouchers keep their parties and carry a fee no larger than the batch's. *)
Lemma collapse_typed now vs :
  Forall typed vs -> Forall (fun v => typed v /\ fee_of v <= zsum fee_of vs) (collapse_ref now vs).
Proof.
  intros Ht. apply Forall_forall. intros v Hv. unfold collapse_ref in Hv.
  apply list_elem_of_omap in Hv as (k & _ & Hm). pose proof (merge_group_fee _ _ _ Hm) as Hf.
  pose proof (group_fee_le k vs Ht) as Hb. destruct (group k vs) as [|a g] eqn:Eg; [done|].
  assert (typed a) as Ha.
  { rewrite Forall_forall in Ht. apply Ht. assert (a ∈ group k vs) as Hin by (rewrite Eg; left).
    by apply list_elem_of_filter in Hin as [_ ?]. }
  split; [|lia]. destruct Ha as (Ha1 & Ha2 & f & Ha3 & Ha4).
  destruct g as [|b g]; cbn [merge_group] in Hm; injection Hm as <-.
  - split; [exact Ha1|]. split; [exact Ha2|]. by exists f.
  - split; [exact Ha1|]. split; [exact Ha2|]. exists (zsum fee_of (a :: b :: g)). split; [done|lia].
Qed.

End Batch.

Class NonceReaderLaws (C : Type) `{NonceReader C} :=
  last_nonce_no_panic : forall u p (c : C), (GetLastNonce u p c).1 <> Panic.

Section SignAll.
Context `{Keccak} `{EL : EcdsaLaws} {C : Type} `{NL : NonceReaderLaws C}.

Definition signer_ok (sg : Signer) : Prop := 0 <= sg_chainID sg < 2 ^ 256.

Lemma IncrNonce_no_panic owner provider : no_panic (IncrNonce owner provider : M C Z).
Proof.
  apply no_panic_bind; [apply no_panic_rread|]. intros [|].
  - apply no_panic_rcmd. intros r. unfold incr. by case_match.
  - apply no_panic_bind; [apply no_panic_chain_call; intros; apply last_nonce_no_panic|]. intros seed.
    apply no_panic_rcmd. intros r. unfold seedAndIncrScript, incr. by repeat case_match.
Qed.

Lemma SignVoucher_outcome sg v (w : world C) :
  signer_ok sg -> typed v -> fee_of v < 2 ^ 256 ->
  (SignVoucher sg v w).1 <> Panic /\ (forall v', (SignVoucher sg v w).1 = Ok v' -> same_charge v v').
Proof.
  intros Hsg (_ & _ & f & Hf & Hf0) Hlt. unfold fee_of in Hlt. rewrite Hf in Hlt. cbn in Hlt. unfold SignVoucher, bind.
  pose proof (IncrNonce_no_panic (addr_hex (User v)) (addr_hex (Provider v)) w) as Hnp.
  destruct (IncrNonce _ _ w) as [[n|e|] w1] eqn:E; cbn in *; [|done|done].
  apply IncrNonce_bound in E. unfold signer_ok in Hsg. split.
  - eapply Sign_no_panic; [done|exact Hf|lia..].
  - intros v' Hs. destruct (Sign_inv _ _ _ _ _ Hs) as (d & s & _ & _ & -> & _). done.
Qed.

Lemma sign_all_quiet sg vs : forall w : world C,
  signer_ok sg -> Forall (fun v => typed v /\ fee_of v < 2 ^ 256) vs -> quiet w ->
  let '(x, w') := sign_all sg vs w in
  x <> Panic /\ quiet w' /\ only_nonces (w_redis w) (w_redis w') /\
  (forall vs', x = Ok vs' -> Forall2 same_charge vs vs').
Proof.
  induction vs as [|v vs IH]; intros w Hsg Ht Hq; cbn [sign_all].
  { split; [done|]. split; [done|]. split; [apply only_nonces_refl|]. intros vs' [= <-]. constructor. }
  apply Forall_cons in Ht as [[Hv Hfv] Ht]. unfold bind.
  destruct (SignVoucher_outcome sg v w Hsg Hv Hfv) as [Hnp Hsame].
  pose proof (guarantees_quiet _ _ _ (SignVoucher_guarantees sg v) Hq) as Hq1.
  assert (only_nonces (w_redis w) (w_redis (SignVoucher sg v w).2)) as Hon1.
  { destruct (SignVoucher_guarantees (C := C) sg v w) as [Hs _]. apply race_free_steps in Hs; [|by apply quiet_race_free].
    clear -Hs. induction Hs as [|a b c [f ->] _ [g ->]]; [apply only_nonces_refl|by exists (g ∘ f)]. }
  destruct (SignVoucher sg v w) as [[v'|e|] w1]; cbn in *; [|by repeat split; auto|done].
  specialize (IH w1 Hsg Ht Hq1). destruct (sign_all sg vs w1) as [x w2]. destruct IH as (Hnp2 & Hq2 & [f Hf] & Hall).
  assert (only_nonces (w_redis w) (w_redis w2)) as Hon by (destruct Hon1 as [g Hg]; exists (f ∘ g); by rewrite Hf, Hg).
  destruct x as [vs'|e|]; [|done..]. split; [done|]. split; [done|]. split; [done|].
  intros vs'' [= <-]. constructor; auto.
Qed.

End SignAll.

(** ** Draining a batch *)

Section Drain.
Context `{Keccak} `{EL : EcdsaLaws} {C R : Type} `{CL : ChainClientLaws C R} `{NL : NonceReaderLaws C} `{SessionScan}.
Implicit Types (w : world C) (u p : addr) (sid : string).

(** What a turn's drain starts from: no record in flight, a typed queue whose
    fees fit the contract's integers, in-range held users. *)
Record drain_pre w : Prop := {
  pre_quiet : quiet w;
  pre_provider : addr_ok ProviderAddress;
  pre_pending : r_pending (w_redis w) !! ProviderAddress = None;
  pre_typed : users_typed ProviderAddress (w_redis w);
  pre_fits : zsum raw_fee (list_at (w_redis w) (LQueue ProviderAddress)) < 2 ^ 256
}.

Lemma steps_on_books u p sid r r' :
  addr_ok ProviderAddress -> addr_ok u -> addr_ok p -> rtc (books_step ProviderAddress) r r' ->
  on_books ProviderAddress u p sid r' = on_books ProviderAddress u p sid r.
Proof. intros Hq Hu Hp Hs. induction Hs as [|a b c Hab _ IH]; [done|]. rewrite IH. by apply books_step_on_books. Qed.

(** The books depend on the lists and the in-flight record only. *)
Lemma on_books_ext u p sid r r' :
  (forall k, list_at r' k = list_at r k) -> r_pending r' = r_pending r ->
  on_books ProviderAddress u p sid r' = on_books ProviderAddress u p sid r.
Proof. intros Hl Hp. unfold on_books. by rewrite !Hl, Hp. Qed.

Lemma keeps_books_gets {A B} (f : world C -> A) (k : A -> M C B) w :
  keeps_books (k (f w)) w -> keeps_books (bind (gets f) k) w.
Proof. done. Qed.

Lemma forced_sweep_books cfg st w :
  quiet w -> users_typed ProviderAddress (w_redis w) -> keeps_books (forced_sweep cfg st : M C _) w.
Proof.
  intros Hq Ht. unfold forced_sweep. apply keeps_books_gets. destruct (since_ge _ _ _); [|by apply keeps_books_ret].
  apply keeps_books_bind; [by apply maybeSweep_books|]. intros m w1 _ Hq1. apply keeps_books_gets. by apply keeps_books_ret.
Qed.

Lemma periodic_sweep_books cfg st w :
  quiet w -> users_typed ProviderAddress (w_redis w) -> keeps_books (periodic_sweep cfg st : M C _) w.
Proof.
  intros Hq Ht. unfold periodic_sweep. apply keeps_books_gets. destruct (since_ge _ _ _); [|by apply keeps_books_ret].
  apply keeps_books_bind; [by apply maybeSweep_books|]. intros m w1 _ Hq1. apply keeps_books_gets. by apply keeps_books_ret.
Qed.

Lemma broke_users_ok vs : forall sts,
  length sts = length vs -> Forall typed vs -> exists us, broke_users vs sts = Ok us /\ Forall addr_ok us.
Proof.
  induction vs as [|v vs IH]; intros [|s sts] Hl Ht; try done; [by exists []|].
  apply Forall_cons in Ht as [(Hv & _) Ht]. destruct (IH sts) as (us & E & Hus); [by injection Hl|done|].
  cbn. rewrite E. cbn. eexists. split; [done|]. case_bool_decide; [|done]. constructor; [done|].
  apply Forall_forall. intros x Hx. apply list_elem_of_filter in Hx as [_ Hx]. rewrite Forall_forall in Hus. auto.
Qed.

(** What a persisted record promises: its vouchers stand for exactly the entries
    it will pop, the first one already popped and the others at the head of the
    queue. *)
Definition in_flight_ok (r : redis) : Prop :=
  forall pt, r_pending r !! ProviderAddress = Some pt ->
  Forall typed (Vouchers pt) /\ (1 <= Consumed pt)%nat /\
  forall u p sid, zsum (vfee u p sid) (Vouchers pt)
    = zsum (rfee u p sid) (FirstItem pt :: take (Consumed pt - 1) (list_at r (LQueue ProviderAddress))).

Lemma in_flight_none r : r_pending r !! ProviderAddress = None -> in_flight_ok r.
Proof. intros Hn pt. by rewrite Hn. Qed.

Lemma steps_pending r r' : rtc (books_step ProviderAddress) r r' -> r_pending r' = r_pending r.
Proof.
  induction 1 as [|a b c Hab _ IH]; [done|]. rewrite IH.
  destruct Hab as [(x & bal & _ & [_ _ _ _ _ _ (_ & _ & _ & ? & _)])|[_ ?]]; done.
Qed.

(** The outcome of a drain, measured against the state [r0] it started from. *)
Definition settles_from (r0 : redis) {A} (m : M C A) w : Prop :=
  exists a w' final, m w = (Ok a, w') /\ quiet w' /\ in_flight_ok (w_redis w') /\
  (forall u p sid, addr_ok u -> addr_ok p ->
     on_books ProviderAddress u p sid (w_redis w') + zsum (vfee u p sid) final = on_books ProviderAddress u p sid r0) /\
  (final = [] \/ exists (rc : R) vs sts c c', SettleStatusesFromReceipt rc vs c = (Ok sts, c') /\ final = final_vs vs sts).

Lemma settles_bind r0 {A B} (m : M C A) (k : A -> M C B) w a w1 :
  m w = (Ok a, w1) -> settles_from r0 (k a) w1 -> settles_from r0 (bind m k) w.
Proof. intros E. unfold settles_from. by rewrite (bind_quiet _ _ _ _ _ E). Qed.

(** Nothing settled: whatever keeps the books of a state as good as the start. *)
Lemma settles_keep r0 {A} (m : M C A) w :
  addr_ok ProviderAddress ->
  (forall u p sid, on_books ProviderAddress u p sid (w_redis w) = on_books ProviderAddress u p sid r0) ->
  r_pending (w_redis w) !! ProviderAddress = None \/ r_lists (w_redis (m w).2) = r_lists (w_redis w) /\ in_flight_ok (w_redis w) ->
  keeps_books m w -> settles_from r0 m w.
Proof.
  intros Hpr Hb Hfl (a & Ha & Hq & Hs). exists a, (m w).2, []. split; [rewrite <- Ha; by destruct (m w)|].
  split; [done|]. pose proof (steps_pending _ _ Hs) as Hpe. split; [|split; [|by left]].
  { destruct Hfl as [Hfl|[Hl Hfl]]; [apply in_flight_none; congruence|].
    intros pt. rewrite Hpe, (list_at_lists _ _ _ Hl). apply Hfl. } intros u p sid Hu Hp.
  rewrite zsum_nil, (steps_on_books u p sid _ _ Hpr Hu Hp Hs), Hb. lia.
Qed.

Lemma keeps_books_sleep d {A} (a : A) w : quiet w -> keeps_books (bind (sleep d) (fun _ => ret a)) w.
Proof. intros Hq. exists a. split; [done|]. split; [exact Hq|apply rtc_refl]. Qed.

(** The popped item going back to the head restores the books. *)
Lemma on_books_push_back (r0 r : redis) f Q u p sid :
  list_at r0 (LQueue ProviderAddress) = f :: Q ->
  (forall k, list_at r k = if decide (k = LQueue ProviderAddress) then f :: Q else list_at r0 k) ->
  r_pending r = r_pending r0 ->
  on_books ProviderAddress u p sid r = on_books ProviderAddress u p sid r0.
Proof.
  intros Hst Hr. apply on_books_ext. intros k. rewrite Hr. case_decide; subst; congruence.
Qed.

(** The state between the pop and the outcome. *)
Record popped (r0 : redis) (f : raw) (Q : list raw) w : Prop := {
  pop_quiet : quiet w;
  pop_start : list_at r0 (LQueue ProviderAddress) = f :: Q;
  pop_lists : forall k, list_at (w_redis w) k = if decide (k = LQueue ProviderAddress) then Q else list_at r0 k;
  pop_users : r_held_users (w_redis w) = r_held_users r0;
  pop_provider : addr_ok ProviderAddress;
  pop_pending0 : r_pending r0 !! ProviderAddress = None;
  pop_typed : users_typed ProviderAddress r0
}.

Lemma push_back_popped (f : raw) (r0 : redis) Q w :
  popped r0 f Q w -> r_pending (w_redis w) = r_pending r0 ->
  exists w', push_back f w = (Ok tt, w') /\ quiet w' /\ users_typed ProviderAddress (w_redis w') /\
  r_pending (w_redis w') !! ProviderAddress = None /\
  forall u p sid, on_books ProviderAddress u p sid (w_redis w') = on_books ProviderAddress u p sid r0.
Proof.
  intros [Hq Hst Hl Hu _ Hnone [Ht1 Ht2]] Hp. unfold push_back. rewrite ignore_rwrite_quiet by done.
  eexists. split; [done|]. split; [done|]. set (r1 := w_redis (set_redis _ w)).
  assert (forall k, list_at r1 k = if decide (k = LQueue ProviderAddress) then f :: Q else list_at r0 k) as Hr1.
  { intros k. unfold r1. cbn. unfold lpush, queueKey. rewrite list_at_set, !Hl. case_decide; [|done].
    by rewrite decide_True. }
  split.
  - split; [rewrite Hr1, decide_True by done; by rewrite <- Hst|]. intros x. unfold held_users_at, r1. cbn. rewrite Hu. apply Ht2.
  - split; [by cbn; rewrite Hp|]. intros u p sid. eapply on_books_push_back; eauto.
Qed.

(** The batch given up: its first item is put back. *)
Lemma put_back_settles {A} (m : M C A) r0 f Q w :
  popped r0 f Q w -> r_pending (w_redis w) = r_pending r0 ->
  (forall w', quiet w' -> users_typed ProviderAddress (w_redis w') -> keeps_books m w') ->
  settles_from r0 (bind (push_back f) (fun _ => m)) w.
Proof.
  intros Hpop Hpend Hm. destruct (push_back_popped f r0 Q w Hpop Hpend) as (w' & E & Hq & Ht & Hn & Hb).
  eapply settles_bind; [exact E|]. apply settles_keep; [apply Hpop|exact Hb|by left|auto].
Qed.

Lemma sweep_users_books {A} (a : A) us w :
  Forall addr_ok us -> quiet w -> keeps_books (bind (sweepUsers queueKey us) (fun _ => ret a) : M C A) w.
Proof.
  intros Hus Hq. apply keeps_books_bind; [|intros ? ? _ ?; by apply keeps_books_ret].
  unfold sweepUsers. apply keeps_books_bind; [|intros ? ? _ ?; by apply keeps_books_ret].
  apply keeps_books_of; [apply sweepUsersMemo_total|by apply sweepUsersMemo_books|done].
Qed.

(** Each voucher's state is on the books until the chain's answer takes it off. *)
Lemma submit_settles polls cfg st f Q r0 remaining rest vs w :
  popped r0 f Q w -> r_pending (w_redis w) = r_pending r0 -> Q = remaining ++ rest ->
  Forall typed vs ->
  (forall u p sid, zsum (vfee u p sid) vs = zsum (rfee u p sid) (f :: remaining)) ->
  settles_from r0 (submit_batch polls cfg st f (S (length remaining)) vs) w.
Proof.
  intros Hpop Hpend HQ Htv Hfees. destruct Hpop as [Hq Hst Hl Hu Hpr Hp0 Htyp]. unfold submit_batch.
  set (intent := mkPending 0 0 vs f (S (length remaining))).
  eapply settles_bind; [unfold attempt, savePendingTx, rwrite; by rewrite rcmd_quiet|]. cbn beta iota. set (w1 := set_redis _ w).
  assert (quiet w1) as Hq1 by exact Hq.
  pose proof (submit_no_panic vs (w_chain w1)) as Hnp.
  destruct (SubmitSettleFees vs (w_chain w1)) as [[[hash nonce]|e|] c1] eqn:Es; [| |done].
  - (* broadcast *)
    eapply settles_bind; [unfold attempt, chain_call; by rewrite Es|]. cbn beta iota.
    set (p := broadcast intent hash nonce). set (w2 := set_chain c1 w1).
    eapply settles_bind; [by apply ignore_rwrite_quiet|]. set (w3 := set_redis _ w2).
    apply (settles_bind r0 (gets w_now) _ w3 (w_now w3) w3); [done|].
    destruct (resolve_outcomes ProviderAddress ProviderAddress p polls 0 0 w3 Hq) as (x & w4 & E4 & Hq4 & Hres).
    eapply settles_bind; [exact E4|].
    assert (forall k, list_at (w_redis w3) k = list_at (w_redis w) k) as Hl3 by done.
    assert (forall m : gmap addr pendingTx, delete ProviderAddress m = m <-> m !! ProviderAddress = None) as Hdel.
    { intros m. split; [intros <-; apply lookup_delete_eq|apply delete_id]. }
    assert (delete ProviderAddress (r_pending (w_redis w3)) = r_pending r0) as Hp3.
    { cbn. rewrite !delete_insert_eq, Hpend. by apply Hdel. }
    inversion Hres as [sts r' Hlen Hrc Hk Hp Hx|r' Hk Hp Hx|r' Hk Hp Hx]; subst x r'.
    + (* settled *)
      destruct (broke_users_ok vs sts Hlen Htv) as (us & Eus & Hus). rewrite Eus.
      apply (settles_bind r0 (lift_res (Ok us)) _ w4 us w4); [done|].
      destruct (sweep_users_books (set_lastSubmit (w_now w3) st) us w4 Hus Hq4) as (a & Ha & Hqa & Hsa).
      eexists a, _, (final_vs vs sts). split; [rewrite <- Ha; apply surjective_pairing|]. split; [done|].
      split; [apply in_flight_none; rewrite (steps_pending _ _ Hsa); congruence|].
      split; [|right; destruct Hrc as (rc & c & c' & E); by exists rc, vs, sts, c, c'].
      intros u p' sid Hu' Hp'. rewrite (steps_on_books u p' sid _ _ Hpr Hu' Hp' Hsa).
      pose proof (parked_final u p' sid vs sts Hu' Hp' Htv Hlen) as Hpf. rewrite Hfees, zsum_cons in Hpf.
      unfold on_books. rewrite !Hk, !Hl3, !Hl, !Hst, Hp, Hp3, Hp0, HQ. change (owned (Consumed p) (Vouchers p)) with (S (length remaining)).
      rewrite !decide_True by done. repeat (rewrite decide_False by done).
      replace (S (length remaining) - 1)%nat with (length remaining) by lia. rewrite drop_app_length.
      rewrite zsum_cons, !zsum_app. change (Vouchers p) with vs. lia.
    + (* requeued *)
      apply settles_keep; [done| |left; congruence|by apply keeps_books_ret]. intros u p' sid.
      apply (on_books_push_back r0 (w_redis w4) f Q); [done| |congruence]. intros k. rewrite Hk, !Hl3, !Hl.
      by case_decide.
    + (* cancelled: the record carries the popped item *)
      apply settles_keep; [done| | |by apply keeps_books_ret]; [|right; split; [done|]].
      2: { intros pt Hpt. rewrite Hp in Hpt. cbn in Hpt. rewrite lookup_insert_eq in Hpt. injection Hpt as <-.
        split; [done|]. split; [cbn; lia|]. intros u p' sid. rewrite Hk, Hl3, Hl, decide_True, HQ by done. cbn [Consumed p broadcast intent FirstItem Vouchers].
        replace (S (length remaining) - 1)%nat with (length remaining) by lia. rewrite take_app_length. apply Hfees. }
      intros u p' sid.
      unfold on_books. rewrite !Hk, !Hl3, !Hl, Hp, Hst, Hp0. cbn. rewrite lookup_insert_eq.
      rewrite !decide_True by done. repeat (rewrite decide_False by done). rewrite zsum_cons. cbn. lia.
  - (* not broadcast *)
    eapply settles_bind; [unfold attempt, chain_call; by rewrite Es|]. cbn beta iota.
    set (w2 := set_chain c1 w1). eapply settles_bind; [by apply ignore_rwrite_quiet|]. set (w3 := set_redis _ w2).
    eapply settles_bind; [done|]. set (w4 := set_alerts _ w3).
    apply (put_back_settles _ r0 f Q); [by split|cbn; rewrite delete_insert_eq, Hpend; apply delete_id, Hp0|].
    intros w' Hq' Ht'. apply keeps_books_bind; [by apply forced_sweep_books|]. intros st' w6 _ Hq6. by apply keeps_books_sleep.
Qed.

Lemma raw_fees_decoded l : zsum raw_fee l = zsum fee_of (omap unmarshal l).
Proof. induction l as [|[v|s] l IH]; [done| |]; cbn [omap list_omap unmarshal]; by rewrite !zsum_cons, IH. Qed.

Lemma raw_fees_nonneg l : Forall raw_typed l -> 0 <= zsum raw_fee l.
Proof.
  intros Hl. apply zsum_nonneg. eapply Forall_impl; [exact Hl|]. intros x Hx. unfold raw_fee.
  destruct (unmarshal x) as [v|] eqn:Ex; [|lia]. destruct (Hx v Ex) as (_ & _ & fv & E & ?). unfold fee_of. by rewrite E.
Qed.

(** A batch of which nothing decodes: its first item is gone, and was worth
    nothing. *)
Lemma undecodable_settles {A} (a : A) r0 f Q remaining w :
  popped r0 f Q w -> r_pending (w_redis w) = r_pending r0 -> omap unmarshal (f :: remaining) = [] ->
  settles_from r0 (ret a : M C A) w.
Proof.
  intros Hpop Hpend Hnil. pose proof Hpop as [Hq Hst _ _ Hpr Hp0 _].
  apply settles_keep; [done| |left; congruence|by apply keeps_books_ret]. intros u p sid.
  assert (rfee u p sid f = 0) as Hf0 by (cbn in Hnil; destruct f as [v|s]; [done|done]).
  unfold on_books. rewrite !(pop_lists _ _ _ _ Hpop), Hst, Hpend, Hp0. cbn. rewrite zsum_cons, Hf0.
  rewrite (decide_True (P := LQueue _ = LQueue _)) by done. repeat (rewrite decide_False by done). lia.
Qed.

Lemma drain_settles sg polls cfg st w :
  drain_pre w -> signer_ok sg -> settles_from (w_redis w) (drain sg polls cfg st) w.
Proof.
  intros [Hq Hpr Hp0 Htyp Hfit] Hsg. unfold drain.
  destruct (list_at (w_redis w) (LQueue ProviderAddress)) as [|f Q] eqn:EQ.
  { eapply (settles_bind _ _ _ _ (inr ENil) w).
    { unfold attempt, blpop. rewrite rcmd_quiet by done. unfold queueKey. rewrite EQ. cbn. by destruct w. }
    apply settles_keep; [done|done|by left|by apply keeps_books_ret]. }
  set (w1 := set_redis (set_list (LQueue ProviderAddress) Q (w_redis w)) w).
  eapply (settles_bind _ _ _ _ (inl f) w1).
  { unfold attempt, blpop. rewrite rcmd_quiet by done. unfold queueKey. rewrite EQ. done. }
  cbn beta iota. assert (quiet w1) as Hq1 by exact Hq.
  set (remaining := lrange (Z.of_nat maxBatchSize - 2) Q).
  apply (settles_bind _ _ _ w1 remaining w1).
  { unfold peek. rewrite (bind_quiet _ _ _ _ _ (attempt_rread_quiet _ w1 Hq1)). unfold queueKey, w1. cbn.
    rewrite list_at_set_eq. done. }
  assert (popped (w_redis w) f Q w1) as Hpop.
  { split; try done. intros k. unfold w1. cbn. rewrite list_at_set. done. }
  set (vs := omap unmarshal (f :: remaining)).
  assert (Forall raw_typed (f :: Q)) as Hrt by (destruct Htyp as [Ht _]; by rewrite EQ in Ht).
  destruct (lrange_prefix (Z.of_nat maxBatchSize - 2) Q) as [rest HQ]. fold remaining in HQ.
  assert (Forall raw_typed (f :: remaining)) as Hrtb.
  { rewrite HQ, app_comm_cons in Hrt. by apply Forall_app in Hrt as [? _]. }
  assert (Forall typed vs) as Htv.
  { apply Forall_forall. intros v Hv. apply list_elem_of_omap in Hv as (x & Hx & Eu).
    rewrite Forall_forall in Hrtb. by apply (Hrtb x). }
  assert (forall u p sid, zsum (vfee u p sid) vs = zsum (rfee u p sid) (f :: remaining)) as Hfees
    by (intros; symmetry; apply rfee_unmarshal).
  case_bool_decide as Hnil; [by eapply undecodable_settles|].
  apply (settles_bind _ (gets w_now) _ w1 (w_now w1) w1); [done|].
  assert (zsum fee_of vs < 2 ^ 256) as Hfit'.
  { rewrite HQ, app_comm_cons in Hfit, Hrt. rewrite zsum_app, raw_fees_decoded in Hfit. apply Forall_app in Hrt as [_ Hrt].
    pose proof (raw_fees_nonneg rest Hrt). fold vs in Hfit. lia. }
  apply (settles_bind _ _ _ w1 (collapse_ref (w_now w1) vs) w1).
  { rewrite CollapseBySandbox_ref by (by apply typed_has_fee). done. }
  pose proof (collapse_typed (w_now w1) vs Htv) as Hct.
  pose proof (sign_all_quiet sg (collapse_ref (w_now w1) vs) w1 Hsg) as Hsign.
  destruct (sign_all sg (collapse_ref (w_now w1) vs) w1) as [x w2] eqn:E2.
  destruct Hsign as (Hnp & Hq2 & [g Hg] & Hsame); [|done|].
  { eapply Forall_impl; [exact Hct|]. intros v [? ?]. split; [done|lia]. }
  assert (popped (w_redis w) f Q w2 /\ r_pending (w_redis w2) = r_pending (w_redis w)) as [Hpop2 Hpend2].
  { split; [|by rewrite Hg]. destruct Hpop as [? ? Hlk Huk]. split; try done; intros; rewrite Hg; [exact (Hlk _)|exact Huk]. }
  destruct x as [signed|e|]; [| |done].
  - eapply settles_bind; [unfold attempt; by rewrite E2|]. cbn beta iota. specialize (Hsame signed eq_refl).
    change (length (f :: remaining)) with (S (length remaining)).
    eapply submit_settles; [done|done|exact HQ| |].
    + eapply same_charges_typed; [exact Hsame|]. eapply Forall_impl; [exact Hct|]. by intros v [? _].
    + intros u p sid. rewrite (same_charges_vfee u p sid _ _ Hsame), collapse_vfee. apply Hfees.
  - eapply settles_bind; [unfold attempt; by rewrite E2|]. cbn beta iota.
    apply (put_back_settles _ (w_redis w) f Q); [done|done|]. intros w' Hq' _. by apply keeps_books_sleep.
Qed.



End Drain.

(** ** A concrete run *)

Module BooksExamples.
Import Toy.

(** A chain that plays back a script: one fate per poll, and a receipt that is
    the list of statuses it gives. *)
Record script := mkScript { sc_fates : list (TxFate (list SettlementStatus)); sc_balance : Z; sc_nonce : Z }.

Definition play_fate (hash nonce : Z) (c : script) : TxFate (list SettlementStatus) * script :=
  match sc_fates c with
  | f :: fs => (f, mkScript fs (sc_balance c) (sc_nonce c))
  | [] => (TxPending, c)
  end.

Definition play_receipt (rc : list SettlementStatus) (vs : list SandboxVoucher) (c : script)
  : res (list SettlementStatus) * script :=
  if bool_decide (length rc = length vs) then (Ok rc, c) else (Err EIO, c).

#[export] Instance script_client : ChainClient script (list SettlementStatus) := {|
  ProviderAddress := 8192;
  IsProviderActive := fun c => (Ok true, c);
  GetBalanceBatch := fun us _ c => (Ok ((fun _ => sc_balance c) <$> us), c);
  SubmitSettleFees := fun _ c => (Ok (777, 3), c);
  ResolveTxFate := play_fate;
  SettleStatusesFromReceipt := play_receipt
|}.

#[export] Instance script_laws : ChainClientLaws script (list SettlementStatus).
Proof.
  split; cbn; try done.
  - intros rc vs c sts c'. unfold play_receipt. case_bool_decide; [|done]. by intros [= <- _].
  - intros rc vs c. unfold play_receipt. by case_bool_decide.
Qed.

#[export] Instance script_nonces : NonceReader script := fun _ _ c => (Ok (sc_nonce c), c).

#[export] Instance script_nonces_laws : NonceReaderLaws script.
Proof. done. Qed.

#[export] Existing Instance SessionExamples.scan_once.

Definition usage (sid : string) (u fee : Z) : SandboxVoucher :=
  mkVoucher sid u 8192 (Some fee) (replicate 32 0) None [] false.

Definition sg0 : Signer := mkSigner 5 16602 99 8192.

Definition cfg0 : settle_config := mkConfig 60 60.

(** Two sandboxes of one user and one of another, queued. *)
Definition queue0 : list raw := marshal <$> [usage "sb-1" 4096 10; usage "sb-2" 4096 7; usage "sb-3" 4097 5; usage "sb-1" 4096 10].

Definition books0 : redis := set_list (LQueue 8192) queue0 empty_redis.

Definition world0 (fates : list (TxFate (list SettlementStatus))) : world script :=
  SessionExamples.world_of (mkScript fates 0 0) books0 [] 1000.

Lemma usage_typed sid u fee : addr_ok u -> 0 <= fee -> raw_typed (marshal (usage sid u fee)).
Proof. intros Hu Hf v [= <-]. split; [done|]. split; [by vm_compute|]. by exists fee. Qed.

Lemma drain_pre0 fates : drain_pre (world0 fates).
Proof.
  split; [done|by vm_compute|done| |by vm_compute]. split; [|cbn; unfold held_users_at; cbn; set_solver].
  change (Forall raw_typed queue0). unfold queue0. cbn [fmap list_fmap].
  repeat (apply Forall_cons; split; [apply usage_typed; [by vm_compute|lia]|]). by apply Forall_nil.
Qed.

(** The first sandbox settles, the second is refused for the acknowledgement,
    the third for the signature. *)
Definition fates0 : list (TxFate (list SettlementStatus)) :=
  [TxPending; TxDropped; TxMined [StatusSuccess; StatusNotAcknowledged; StatusInvalidSignature]].


(** The same batch, cut short while the transaction is pending; two more
    vouchers arrive, then the service restarts and the transaction is mined. *)
Definition crashed : world script := (drain sg0 2 cfg0 run_init (world0 [TxPending; TxPending])).2.

Definition restarted : world script :=
  set_chain (mkScript [TxMined [StatusSuccess; StatusInsufficientBalance; StatusNotAcknowledged]] 0 0)
    (set_redis (rpush (LQueue 8192) (marshal <$> [usage "sb-2" 4096 3; usage "sb-3" 4097 1]) (w_redis crashed)) crashed).

Lemma in_flight_push r l : in_flight_ok r ->
  (forall pt, r_pending r !! (8192 : addr) = Some pt -> (Consumed pt - 1 <= length (list_at r (LQueue 8192)))%nat) ->
  in_flight_ok (rpush (LQueue 8192) l r).
Proof.
  intros Hok Hlen pt Hpt. destruct (Hok pt Hpt) as (Ht & Hc & Hf). split; [done|]. split; [done|]. intros u p sid.
  rewrite Hf. cbn [ProviderAddress script_client]. rewrite list_at_rpush, decide_True, take_app_le; [done|by apply Hlen|done].
Qed.

Lemma crashed_ok : in_flight_ok (w_redis crashed).
Proof.
  destruct (drain_settles sg0 2 cfg0 run_init (world0 [TxPending; TxPending]) (drain_pre0 _)) as (a & w' & fin & E & _ & Hok & _);
    [by vm_compute|]. unfold crashed. by rewrite E.
Qed.

Lemma crashed_length :
  match r_pending (w_redis crashed) !! (8192 : addr) with
  | Some pt => (Consumed pt - 1 <=? length (list_at (w_redis crashed) (LQueue 8192)))%nat
  | None => true
  end = true.
Proof. vm_compute. reflexivity. Qed.

Lemma restarted_ok : in_flight_ok (w_redis restarted).
Proof.
  apply (in_flight_push (w_redis crashed)); [exact crashed_ok|]. intros pt Hpt.
  pose proof crashed_length as Hl. rewrite Hpt in Hl. by apply Nat.leb_le.
Qed.


(** The recovery of a hashless record does not have this property.  Two
    entries of 10 are collapsed into one voucher of 20 and broadcast, but the
    write that records the hash fails and the process stops.  The voucher is
    mined, so the chain's nonce covers it; startup then clears the record without
    popping the second entry it consumed, and the next drain submits that entry
    again: 30 charged for 20 of usage. *)
Theorem intent_recovery_charges_twice :
  let w := world0 [] in
  let queued := set_list (LQueue 8192) (marshal <$> [usage "sb-1" 4096 10; usage "sb-1" 4096 10]) empty_redis in
  let net := [NOk; NOk; NOk; NOk; NOk; NErr] in
  let w1 := (drain sg0 0 cfg0 run_init (set_net net (set_redis queued w))).2 in
  let w2 := (startup 5 (set_chain (mkScript [] 0 1) w1)).2 in
  let w3 := (drain sg0 0 cfg0 run_init w2).2 in
  let submitted (w : world script) :=
    (fun p => (TxHash p, (fun v => (Nonce v, TotalFee v)) <$> Vouchers p)) <$> r_pending (w_redis w) !! (8192 : addr) in
  submitted w1 = Some (0, [(Some 1, Some 20)]) /\
  submitted w2 = None /\ on_books 8192 4096 8192 "sb-1" (w_redis w2) = 10 /\
  submitted w3 = Some (777, [(Some 2, Some 10)]).
Proof. vm_compute. done. Qed.

End BooksExamples.
