(* ===== verification/Json.v ===== *)
(** * JSON bodies as the proxy sees them (encoding/json)

    A request or response body is read by [json.Unmarshal] (the whole body must
    be one value) or by a [json.Decoder]'s [Decode] (the first value counts), into a
    [map[string]any] or into a struct.  Maps keep the last of several members
    with one name and match names exactly; struct fields match names up to
    Unicode case folding and take the last match.

    Members of an object keep their textual order and duplicates; Go maps over
    them are finite maps.  The order of members in re-encoded text carries no
    meaning to any reader and is not modelled. *)

From S2P Require Import Prelude Hex.

(** ** Values *)

(** A number is the float64 it decodes to: its integral part and whether
    something is left of it. *)
Inductive json :=
| JNull
| JBool (b : bool)
| JNum (whole : Z) (fraction : bool)
| JStr (s : string)
| JArr (l : list json)
| JObj (members : list (string * json)).

Abbreviation jmap := (gmap string json).

Definition json_ind' (P : json -> Prop)
  (Hnull : P JNull) (Hbool : forall b, P (JBool b)) (Hnum : forall z f, P (JNum z f)) (Hstr : forall s, P (JStr s))
  (Harr : forall l, Forall P l -> P (JArr l))
  (Hobj : forall ms, Forall (fun m => P m.2) ms -> P (JObj ms)) : forall j, P j :=
  fix go j := match j with
  | JNull => Hnull
  | JBool b => Hbool b
  | JNum z f => Hnum z f
  | JStr s => Hstr s
  | JArr l => Harr l ((fix all l := match l return Forall P l with
                       | [] => Forall_nil_2 _
                       | x :: l' => @Forall_cons_2 _ P x l' (go x) (all l') end) l)
  | JObj ms => Hobj ms ((fix all ms := match ms return Forall (fun m => P m.2) ms with
                        | [] => Forall_nil_2 _
                        | x :: ms' => @Forall_cons_2 _ (fun m => P m.2) x ms' (go x.2) (all ms') end) ms)
  end.

(** Later members win. *)
Definition members_map (ms : list (string * json)) : jmap := list_to_map (reverse ms).

Definition map_members (m : jmap) : list (string * json) := map_to_list m.

(** [v.(map[string]any)] with its zero value. *)
Definition as_map (v : option json) : option jmap :=
  match v with Some (JObj ms) => Some (members_map ms) | _ => None end.

(** [v.(string)] with its zero value. *)
Definition as_string (v : option json) : string :=
  match v with Some (JStr s) => s | _ => EmptyString end.

(** ** Bodies *)

(** No bytes; bytes that do not start with a JSON value; a value, possibly with
    more bytes behind it. *)
Inductive body :=
| BEmpty
| BBad
| BText (j : json) (trailing : bool).

Definition marshal_map (m : jmap) : body := BText (JObj (map_members m)) false.

(** The text of a Go map read as a map: [null] leaves the map nil, any other
    value that is no object is an error. *)
Definition json_map (j : json) : res (option jmap) :=
  match j with
  | JObj ms => Ok (Some (members_map ms))
  | JNull => Ok None
  | _ => Err (EMsg "cannot unmarshal into a map")
  end.

(** [json.Unmarshal(body, &m)] for a map [m]. *)
Definition unmarshal_map (b : body) : res (option jmap) :=
  match b with
  | BText j false => json_map j
  | _ => Err (EMsg "invalid JSON")
  end.

(** [json.NewDecoder(body).Decode(&m)] for a map [m]. *)
Definition decode_map (b : body) : res (option jmap) :=
  match b with
  | BText j _ => json_map j
  | _ => Err (EMsg "invalid JSON")
  end.

(** Reading a nil map. *)
Definition map_or_nil (m : option jmap) : jmap := default ∅ m.

(** ** Case folding *)

(** [strings.EqualFold] compares the smallest runes of the operands'
    case-folding orbits; [foldName] computes them.  Its Unicode tables are a
    parameter. *)
Class SimpleFold := foldName : string -> string.

Definition EqualFold `{SimpleFold} (a b : string) : bool := bool_decide (foldName a = foldName b).

(** What the folding of ASCII literals is: letters up to case, with the two
    other runes of an ASCII letter's orbit, U+017F (of S) and U+212A (of K). *)
Fixpoint ascii_fold (s : string) : string :=
  match s with
  | String "197" (String "191" s') => String "s" (ascii_fold s')
  | String "226" (String "132" (String "170" s')) => String "k" (ascii_fold s')
  | String c s' => String (lower_ascii c) (ascii_fold s')
  | EmptyString => EmptyString
  end.

Fixpoint is_ascii (s : string) : bool :=
  match s with
  | EmptyString => true
  | String c s' => (nat_of_ascii c <? 128)%nat && is_ascii s'
  end.

Class SimpleFoldLaws `{SimpleFold} :=
  fold_ascii : forall k t, is_ascii t = true -> foldName k = foldName t <-> ascii_fold k = ascii_fold t.

#[export] Instance ascii_simple_fold : SimpleFold | 100 := ascii_fold.

#[export] Instance ascii_simple_fold_laws : @SimpleFoldLaws ascii_simple_fold.
Proof. done. Qed.

(** The member a struct field named [f] is decoded from: the last one whose
    name folds to [f]; a [null] or a value of another type is skipped over. *)
Definition struct_bool `{SimpleFold} (f : string) (b : body) : bool :=
  match b with
  | BText (JObj ms) _ =>
      foldl (fun acc '(k, v) => match v with JBool x => if EqualFold k f then x else acc | _ => acc end) false ms
  | _ => false
  end.

(** ** Lemmas *)

Section Fold.
Context `{SimpleFold}.

Lemma EqualFold_iff a b : EqualFold a b = true <-> foldName a = foldName b.
Proof. apply bool_decide_eq_true. Qed.

Lemma EqualFold_refl a : EqualFold a a = true.
Proof. by apply EqualFold_iff. Qed.

(** Deleting every key that folds to [f]. *)
Definition delete_folded (f : string) (m : jmap) : jmap := filter (fun kv => EqualFold kv.1 f = false) m.

Lemma delete_folded_lookup f m k : delete_folded f m !! k = if EqualFold k f then None else m !! k.
Proof.
  unfold delete_folded. destruct (EqualFold k f) eqn:E.
  - apply map_lookup_filter_None. right. intros v _. cbn. by rewrite E.
  - destruct (m !! k) as [v|] eqn:Ek.
    + apply map_lookup_filter_Some. done.
    + apply map_lookup_filter_None. by left.
Qed.

End Fold.

Lemma members_map_lookup_cons k v ms x :
  members_map ((k, v) :: ms) !! x = match members_map ms !! x with Some y => Some y | None => if decide (x = k) then Some v else None end.
Proof.
  unfold members_map. rewrite reverse_cons, list_to_map_app, lookup_union.
  change (list_to_map [(k, v)]) with (<[k:=v]> ∅ : jmap).
  assert ((<[k:=v]> ∅ : jmap) !! x = if decide (x = k) then Some v else None) as ->.
  { case_decide; subst; [by rewrite lookup_insert_eq|by rewrite lookup_insert_ne]. }
  destruct (list_to_map (reverse ms) !! x) as [y|]; [by rewrite union_Some_l|]. by destruct (decide _).
Qed.

Lemma members_map_map_members m : members_map (map_members m) = m.
Proof.
  unfold members_map, map_members. apply map_eq. intros k. apply option_eq. intros v.
  rewrite <- elem_of_list_to_map.
  - rewrite elem_of_reverse. apply elem_of_map_to_list.
  - rewrite fmap_reverse, reverse_Permutation. apply NoDup_fst_map_to_list.
Qed.

Lemma elem_of_members ms k : is_Some (members_map ms !! k) <-> k ∈ ms.*1.
Proof.
  induction ms as [|[k' v] ms IH].
  - unfold members_map. cbn. rewrite lookup_empty. split; [by intros []|]. by intros ?%elem_of_nil.
  - rewrite members_map_lookup_cons, fmap_cons, elem_of_cons, <- IH. cbn. destruct (members_map ms !! k); [naive_solver|].
    case_decide; subst; naive_solver.
Qed.
