(* ===== verification/CreatePolicy.v ===== *)
(** * What a sandbox create may ask for and what is forwarded
    (internal/proxy: createpolicy.go, ports.go, owner.go and the body helpers of
    handler.go)

    The create request is checked against the snapshot-only policy, its public
    ports are validated, and the body Daytona receives is rewritten: the owner
    and seal labels, the exposure and the lifecycle intervals are the proxy's. *)

From stdpp Require Import pretty.
From S2P Require Import Prelude Hex Json.

(** ** The policy *)

(** [internal/proxy/createpolicy.go:20-20 customResourceFields] *)
Definition customResourceFields : list string := ["cpu"; "memory"; "disk"; "gpu"; "image"; "class"; "buildinfo"].

(** [internal/proxy/createpolicy.go:32-39 createFields] *)
Definition createFields : list string :=
  ["snapshot"; "name"; "env"; "labels"; "sealed"; "seal_id"; "publicPorts";
   "user"; "target"; "networkBlockAll"; "networkAllowList";
   "public"; "autoStopInterval"; "autoArchiveInterval"; "autoDeleteInterval"; "volumes"].

(** All of the runes [unicode.IsSpace] accepts, in UTF-8: whether
    [strings.TrimSpace] leaves nothing. *)
Fixpoint blank (s : string) : bool :=
  match s with
  | EmptyString => true
  | String "194" (String c s') => ((nat_of_ascii c =? 133) || (nat_of_ascii c =? 160))%nat && blank s'
  | String "225" (String "154" (String "128" s')) => blank s'
  | String "226" (String "128" (String c s')) =>
      let n := nat_of_ascii c in
      (((128 <=? n) && (n <=? 138)) || (n =? 168) || (n =? 169) || (n =? 175))%nat && blank s'
  | String "226" (String "129" (String "159" s')) => blank s'
  | String "227" (String "128" (String "128" s')) => blank s'
  | String c s' =>
      let n := nat_of_ascii c in (((9 <=? n) && (n <=? 13)) || (n =? 32))%nat && blank s'
  end.

Fixpoint contains_char (c : ascii) (s : string) : bool :=
  match s with
  | EmptyString => false
  | String d s' => bool_decide (c = d) || contains_char c s'
  end.

Section Policy.
Context `{SimpleFold}.

(** The scan over the field names, in the order the map gives them; error
    texts leave out the names. [internal/proxy/createpolicy.go:124-139 rejectFoldedKeys] *)
Fixpoint reject_folded (ks : list string) (seen : gmap string string) : res unit :=
  match ks with
  | [] => Ok tt
  | k :: ks' =>
      if EqualFold k "snapshot" && negb (bool_decide (k = "snapshot"))
      then Err (EMsg "field must be spelled snapshot")
      else match seen !! foldName k with
           | Some _ => Err (EMsg "field names differ only by case")
           | None => reject_folded ks' (<[foldName k := k]> seen)
           end
  end.

(** [internal/proxy/createpolicy.go:124-139 rejectFoldedKeys] *)
Definition rejectFoldedKeys (m : jmap) : res unit := reject_folded (map_to_list m).*1 ∅.

(** A [null] decodes to the empty name.
    [internal/proxy/createpolicy.go:103-112 checkSandboxName] *)
Definition checkSandboxName (raw : json) : res unit :=
  match raw with
  | JStr name => if contains_char "." name then Err (EMsg "name must not contain a dot") else Ok tt
  | JNull => Ok tt
  | _ => Err (EMsg "name must be a string")
  end.

(** [internal/proxy/createpolicy.go:69-76 requireSnapshotCreate] *)
Definition no_custom_resources (ks : list string) : res unit :=
  if existsb (fun k => existsb (EqualFold k) customResourceFields) ks
  then Err (EMsg "custom sandbox resources are not supported; create from a snapshot instead") else Ok tt.

(** [internal/proxy/createpolicy.go:77-86 requireSnapshotCreate] *)
Fixpoint only_create_fields (kvs : list (string * json)) : res unit :=
  match kvs with
  | [] => Ok tt
  | (k, v) :: kvs' =>
      if negb (existsb (EqualFold k) createFields) then Err (EMsg "field is not supported in a create request")
      else res_bind (if EqualFold k "name" then checkSandboxName v else Ok tt) (fun _ => only_create_fields kvs')
  end.

Definition snapshot_required : rerr := EMsg "a snapshot is required to create a sandbox".

(** [internal/proxy/createpolicy.go:60-97 requireSnapshotCreate] *)
Definition requireSnapshotCreate (b : body) : res unit :=
  res_bind (match b with
            | BEmpty => Ok None
            | _ => match decode_map b with Ok m => Ok m | _ => Err (EMsg "invalid request body") end
            end) (fun m =>
  let m := map_or_nil m in
  res_bind (rejectFoldedKeys m) (fun _ =>
  res_bind (no_custom_resources (map_to_list m).*1) (fun _ =>
  res_bind (only_create_fields (map_to_list m)) (fun _ =>
  match m !! "snapshot" with
  | Some (JStr name) => if blank name then Err snapshot_required else Ok tt
  | _ => Err snapshot_required
  end)))).

(** ** Field helpers *)

(** [internal/proxy/handler.go:1709-1717 createField] *)
Definition createField (b : body) (key : string) : string :=
  match decode_map b with Ok m => as_string (map_or_nil m !! key) | _ => EmptyString end.

(** [internal/proxy/handler.go:1720-1722 extractSnapshotName] *)
Definition extractSnapshotName (b : body) : string := createField b "snapshot".

(** [internal/proxy/handler.go:1725-1731 extractSealed] *)
Definition extractSealed (b : body) : bool := struct_bool "sealed" b.

(** [internal/proxy/handler.go:1736-1738 hasDirectImage] *)
Definition hasDirectImage (b : body) : bool := negb (bool_decide (createField b "image" = EmptyString)).

(** Writing to the nil map a [null] body leaves is a panic.
    [internal/proxy/handler.go:1746-1753 setCreateField] *)
Definition setCreateField (b : body) (key value : string) : res body :=
  res_bind (unmarshal_map b) (fun m =>
  match m with
  | Some m => Ok (marshal_map (<[key := JStr value]> m))
  | None => Panic
  end).

(** [internal/proxy/handler.go:1741-1743 rewriteImage] *)
Definition rewriteImage (b : body) (pinned : string) : res body := setCreateField b "image" pinned.

(** ** Public ports *)

(** [internal/proxy/ports.go:13-13 reservedPreviewPorts] *)
Definition reservedPreviewPorts : list Z := [22222; 2280; 33333].

(** [internal/proxy/ports.go:15-15 maxPublicPorts] *)
Definition maxPublicPorts : nat := 16.

(** [internal/proxy/ports.go:19-19 agentPort] *)
Definition agentPort : Z := 8080.

(** Go's [int(f)]: what a value outside int64 converts to is up to the
    platform; amd64 gives the smallest int64. *)
Definition go_int (z : Z) : Z := if (- 2 ^ 63 <=? z) && (z <? 2 ^ 63) then z else - 2 ^ 63.

Definition ports_not_integers : rerr := EMsg "publicPorts must be an array of integers".

(** [internal/proxy/ports.go:77-84 parsePublicPorts] *)
Fixpoint parse_ports (arr : list json) : res (list Z) :=
  match arr with
  | [] => Ok []
  | JNum z false :: arr' => res_bind (parse_ports arr') (fun ps => Ok (go_int z :: ps))
  | _ :: _ => Err ports_not_integers
  end.

(** [None] when the field is absent. [internal/proxy/ports.go:61-85 parsePublicPorts] *)
Definition parsePublicPorts (b : body) : res (option (list Z)) :=
  match b with
  | BEmpty => Ok None
  | _ =>
      match unmarshal_map b with
      | Ok m =>
          match map_or_nil m !! "publicPorts" with
          | None | Some JNull => Ok None
          | Some (JArr arr) => res_bind (parse_ports arr) (fun ps => Ok (Some ps))
          | Some _ => Err ports_not_integers
          end
      | _ => Err (EMsg "invalid request body")
      end
  end.

(** The first bad entry decides the error. [internal/proxy/ports.go:41-51 ValidatePublicPorts] *)
Fixpoint check_ports (ports : list Z) : res unit :=
  match ports with
  | [] => Ok tt
  | p :: ports' =>
      if (p <? 1) || (65535 <? p) then Err (EMsg "publicPorts entry out of range 1-65535")
      else if bool_decide (p ∈ reservedPreviewPorts) then Err (EMsg "publicPorts entry is a reserved system port")
      else check_ports ports'
  end.

(** [internal/proxy/ports.go:26-56 ValidatePublicPorts] *)
Definition ValidatePublicPorts (b : body) (sealed : bool) : res unit :=
  res_bind (parsePublicPorts b) (fun ports =>
  match ports with
  | None => Ok tt
  | Some ports =>
      if bool_decide (ports = []) then Err (EMsg "publicPorts must not be empty")
      else if (maxPublicPorts <? length ports)%nat then Err (EMsg "publicPorts allows at most 16 entries")
      else res_bind (check_ports ports) (fun _ =>
        if sealed && negb (bool_decide (agentPort ∈ ports))
        then Err (EMsg "sealed sandboxes with publicPorts must include port 8080") else Ok tt)
  end).

(** One preview URL; [domain] and [scheme] are PROXY_DOMAIN and PROXY_PROTOCOL.
    [internal/proxy/ports.go:112-119 decoratePublicPorts] *)
Definition preview_url (scheme domain id : string) (v : json) : list (string * json) :=
  match v with
  | JNum z _ => let port := pretty (go_int z) in
      [(port, JStr (scheme +:+ "://" +:+ port +:+ "-" +:+ id +:+ "." +:+ domain))]
  | _ => []
  end.

(** The response to hand out and whether the backend kept the field.
    [internal/proxy/ports.go:94-128 decoratePublicPorts] *)
Definition decoratePublicPorts (domain protocol : string) (resp : body) : res (body * bool) :=
  res_bind (unmarshal_map resp) (fun m =>
  let m := map_or_nil m in
  match m !! "publicPorts" with
  | Some (JArr (p :: ps)) =>
      let id := as_string (m !! "id") in
      let scheme := if bool_decide (protocol = EmptyString) then "http" else protocol in
      let m := if bool_decide (domain = EmptyString) || bool_decide (id = EmptyString) then m
               else <["preview_urls" := JObj (map_members (members_map (mjoin (preview_url scheme domain id <$> p :: ps))))]> m in
      Ok (marshal_map m, true)
  | _ => Ok (resp, false)
  end).

(** ** Owner labels and exposure *)

(** [internal/proxy/owner.go:13-13 ownerLabel] *)
Definition ownerLabel : string := "daytona-owner".

(** [internal/proxy/owner.go:14-14 sealedLabel] *)
Definition sealedLabel : string := "0g-sealed".

(** [internal/proxy/owner.go:15-15 imageLabel] *)
Definition imageLabel : string := "0g-image".

(** [internal/proxy/owner.go:89-93 InjectOwner] *)
Definition image_label (m labels : jmap) : jmap :=
  let img := as_string (m !! "image") in
  let snap := as_string (m !! "snapshot") in
  if negb (bool_decide (img = EmptyString)) then <[imageLabel := JStr img]> labels
  else if negb (bool_decide (snap = EmptyString)) then <[imageLabel := JStr ("snapshot:" +:+ snap)]> labels
  else labels.

(** [internal/proxy/owner.go:121-141 InjectOwner] *)
Definition inject_exposure (sealed : bool) (m : jmap) : jmap :=
  let pp := match m !! "publicPorts" with Some JNull | None => None | Some v => Some v end in
  let m := delete_folded "public" (delete_folded "publicPorts" m) in
  match pp with
  | Some v => <["publicPorts" := v]> (<["public" := JBool true]> m)
  | None =>
      if sealed then <["publicPorts" := JArr [JNum agentPort false]]> (<["public" := JBool true]> m)
      else <["public" := JBool false]> m
  end.

(** [internal/proxy/owner.go:152-159 InjectOwner] *)
Definition inject_intervals (m : jmap) : jmap :=
  let m := delete_folded "autoStopInterval" (delete_folded "autoArchiveInterval" (delete_folded "autoDeleteInterval" m)) in
  <["autoDeleteInterval" := JNum (-1) false]> (<["autoArchiveInterval" := JNum 60 false]> (<["autoStopInterval" := JNum 0 false]> m)).

(** [internal/proxy/owner.go:43-162 InjectOwner] *)
Definition InjectOwner (b : body) (walletAddr : string) : res body :=
  res_bind (match b with BEmpty => Ok (Some ∅) | _ => unmarshal_map b end) (fun mm =>
  let m := map_or_nil mm in
  let labels := default ∅ (as_map (m !! "labels")) in
  let labels := <[ownerLabel := JStr walletAddr]> labels in
  let labels := if extractSealed b then <[sealedLabel := JStr "true"]> labels else labels in
  let m := delete_folded "sealed" m in
  let m := delete_folded "volumes" m in
  let labels := image_label m labels in
  match mm with
  | None => Panic
  | Some _ =>
      let m := <["labels" := JObj (map_members labels)]> m in
      Ok (marshal_map (inject_intervals (inject_exposure (extractSealed b) m)))
  end).

(** [internal/proxy/owner.go:187-189 MergeProtectedLabels] *)
Definition protected (k : string) : bool := EqualFold k ownerLabel || EqualFold k sealedLabel.

Definition drop_protected (m : jmap) : jmap := delete_folded sealedLabel (delete_folded ownerLabel m).

Definition reinject (current : gmap string string) (k : string) (labels : jmap) : jmap :=
  match current !! k with Some v => <[k := JStr v]> labels | None => labels end.

(** [internal/proxy/owner.go:182-213 MergeProtectedLabels] *)
Definition MergeProtectedLabels (b : body) (current : gmap string string) : res body :=
  res_bind (unmarshal_map b) (fun mm =>
  let m := drop_protected (map_or_nil mm) in
  let labels := drop_protected (default ∅ (as_map (m !! "labels"))) in
  let labels := reinject current ownerLabel labels in
  let labels := reinject current sealedLabel labels in
  match mm with
  | None => Panic
  | Some _ => Ok (marshal_map (<["labels" := JObj (map_members labels)]> m))
  end).

End Policy.

(** ** Lemmas *)

Section FoldLaws.
Context `{SimpleFoldLaws}.

Lemma EqualFold_ascii k t : is_ascii t = true -> EqualFold k t = bool_decide (ascii_fold k = ascii_fold t).
Proof. intros Ht. unfold EqualFold. apply bool_decide_ext, fold_ascii, Ht. Qed.

(** Two literals that are not variants of one another. *)
Lemma EqualFold_lit k t : is_ascii t = true -> bool_decide (ascii_fold k = ascii_fold t) = false -> EqualFold k t = false.
Proof. intros Ht Hk. by rewrite EqualFold_ascii. Qed.

End FoldLaws.

Ltac in_list := repeat first [left; reflexivity | right].

Ltac fold_lit := rewrite EqualFold_lit by (vm_compute; reflexivity).

Section PolicyLemmas.
Context `{SimpleFold}.

Lemma reject_folded_ok ks : forall seen,
  reject_folded ks seen = Ok tt ->
  (forall k, k ∈ ks -> EqualFold k "snapshot" = true -> k = "snapshot") /\
  (forall k, k ∈ ks -> seen !! foldName k = None) /\
  NoDup (foldName <$> ks).
Proof.
  induction ks as [|k ks IH]; intros seen; cbn.
  { intros _. split; [by intros ? ?%elem_of_nil|]. split; [by intros ? ?%elem_of_nil|constructor]. }
  destruct (EqualFold k "snapshot" && negb (bool_decide (k = "snapshot"))) eqn:Es; [done|].
  destruct (seen !! foldName k) eqn:Ek; [done|]. intros Hok. destruct (IH _ Hok) as (Hs & Hseen & Hnd).
  split; [|split].
  - intros x [->|Hx]%elem_of_cons Hf; [|by apply Hs]. rewrite Hf in Es. cbn in Es. zbool. done.
  - intros x [->|Hx]%elem_of_cons; [done|]. specialize (Hseen x Hx).
    by apply lookup_insert_None in Hseen as [? _].
  - cbn. constructor; [|done]. intros (x & Hx & Hin)%list_elem_of_fmap. specialize (Hseen x Hin).
    by rewrite Hx, lookup_insert_eq in Hseen.
Qed.

Lemma elem_of_map_keys (m : jmap) k : k ∈ (map_to_list m).*1 <-> is_Some (m !! k).
Proof.
  rewrite list_elem_of_fmap. split.
  - intros ([k' v] & -> & Hk). apply elem_of_map_to_list in Hk. cbn. eauto.
  - intros [v Hv]. exists (k, v). split; [done|]. by apply elem_of_map_to_list.
Qed.

Lemma NoDup_fmap_inj {A B} (f : A -> B) (l : list A) x y : NoDup (f <$> l) -> x ∈ l -> y ∈ l -> f x = f y -> x = y.
Proof.
  induction l as [|z l IH]; cbn; intros Hnd Hx Hy Hf; [by apply elem_of_nil in Hx|].
  apply NoDup_cons in Hnd as [Hz Hnd]. apply elem_of_cons in Hx as [->|Hx], Hy as [->|Hy]; try done.
  - destruct Hz. rewrite Hf. apply list_elem_of_fmap. eauto.
  - destruct Hz. rewrite <- Hf. apply list_elem_of_fmap. eauto.
  - by apply IH.
Qed.

Lemma rejectFoldedKeys_ok m :
  rejectFoldedKeys m = Ok tt ->
  (forall k, is_Some (m !! k) -> EqualFold k "snapshot" = true -> k = "snapshot") /\
  (forall k k', is_Some (m !! k) -> is_Some (m !! k') -> EqualFold k k' = true -> k = k').
Proof.
  intros (Hs & _ & Hnd)%reject_folded_ok. split.
  - intros k Hk. by apply Hs, elem_of_map_keys.
  - intros k k' Hk Hk' He. apply EqualFold_iff in He. eapply NoDup_fmap_inj; [exact Hnd|by apply elem_of_map_keys..|done].
Qed.

Lemma no_custom_resources_ok ks :
  no_custom_resources ks = Ok tt -> forall k x, k ∈ ks -> x ∈ customResourceFields -> EqualFold k x = false.
Proof.
  unfold no_custom_resources. destruct (existsb _ ks) eqn:E; [done|]. intros _ k x Hk Hx.
  destruct (EqualFold k x) eqn:Ef; [|done]. rewrite <- E. symmetry. apply existsb_exists.
  exists k. split; [by apply list_elem_of_In|]. apply existsb_exists. exists x. split; [by apply list_elem_of_In|done].
Qed.

Lemma only_create_fields_ok kvs :
  only_create_fields kvs = Ok tt -> forall k v, (k, v) ∈ kvs ->
  (exists f, f ∈ createFields /\ EqualFold k f = true) /\
  (EqualFold k "name" = true -> v = JNull \/ exists s, v = JStr s /\ contains_char "." s = false).
Proof.
  induction kvs as [|[k v] kvs IH]; intros Hok k' v' Hin; [by apply elem_of_nil in Hin|]. cbn [only_create_fields] in Hok.
  destruct (existsb (EqualFold k) createFields) eqn:Ef; [|done]. cbn [negb] in Hok.
  destruct (if EqualFold k "name" then checkSandboxName v else Ok tt) as [[]|e|] eqn:En; [|done..]. cbn in Hok.
  apply elem_of_cons in Hin as [[= -> ->]|Hin]; [|by apply IH]. split.
  - apply existsb_exists in Ef as (f & Hf & He). exists f. split; [by apply list_elem_of_In|done].
  - intros Hn. rewrite Hn in En. unfold checkSandboxName in En. destruct v as [| | |s| |]; try done; [by left|].
    right. exists s. split; [done|]. by destruct (contains_char "." s).
Qed.

Lemma check_ports_ok ps : check_ports ps = Ok tt -> forall p, p ∈ ps -> 1 <= p <= 65535 /\ ~ p ∈ reservedPreviewPorts.
Proof.
  induction ps as [|p ps IH]; intros Hok x Hx; [by apply elem_of_nil in Hx|]. cbn in Hok.
  destruct ((p <? 1) || (65535 <? p)) eqn:Er; [done|]. case_bool_decide as Hr; [done|].
  apply elem_of_cons in Hx as [->|Hx]; [|by apply IH]. zbool. split; [lia|done].
Qed.

Lemma parse_ports_elem arr : forall ps,
  parse_ports arr = Ok ps -> forall v, v ∈ arr -> exists z, v = JNum z false /\ go_int z ∈ ps.
Proof.
  induction arr as [|x arr IH]; intros ps Hp v Hv; [by apply elem_of_nil in Hv|].
  cbn in Hp. destruct x as [| |z f| | |]; try done. destruct f; [done|].
  destruct (parse_ports arr) as [ps'| |] eqn:E; [|done..]. cbn in Hp. injection Hp as <-.
  apply elem_of_cons in Hv as [->|Hv]; [exists z; split; [done|left]|].
  destruct (IH _ eq_refl v Hv) as (z' & -> & ?). exists z'. split; [done|by right].
Qed.

Lemma parse_ports_In arr : forall ps p, parse_ports arr = Ok ps -> p ∈ ps -> exists z, JNum z false ∈ arr /\ go_int z = p.
Proof.
  induction arr as [|x arr IH]; intros ps p Hp Hin; cbn in Hp.
  { injection Hp as <-. by apply elem_of_nil in Hin. }
  destruct x as [| |z f| | |]; try done. destruct f; [done|].
  destruct (parse_ports arr) as [ps'| |] eqn:E; [|done..]. cbn in Hp. injection Hp as <-.
  apply elem_of_cons in Hin as [->|Hin]; [exists z; split; [left|done]|].
  destruct (IH _ _ eq_refl Hin) as (z' & ? & ?). exists z'. split; [by right|done].
Qed.

Lemma go_int_port z : 1 <= go_int z <= 65535 -> go_int z = z.
Proof. unfold go_int. destruct ((- 2 ^ 63 <=? z) && (z <? 2 ^ 63)); lia. Qed.

End PolicyLemmas.

Section Properties.
Context `{SimpleFoldLaws}.

Lemma create_policy_spec b :
  requireSnapshotCreate b = Ok tt ->
  exists ms tr, b = BText (JObj ms) tr /\ let m := members_map ms in
  (exists name, m !! "snapshot" = Some (JStr name) /\ blank name = false) /\
  (forall k, is_Some (m !! k) -> EqualFold k "snapshot" = true -> k = "snapshot") /\
  (forall k x, is_Some (m !! k) -> x ∈ customResourceFields -> EqualFold k x = false) /\
  (forall k, is_Some (m !! k) -> exists f, f ∈ createFields /\ EqualFold k f = true) /\
  (forall k s, m !! k = Some (JStr s) -> EqualFold k "name" = true -> contains_char "." s = false) /\
  (forall k k', is_Some (m !! k) -> is_Some (m !! k') -> EqualFold k k' = true -> k = k').
Proof.
  unfold requireSnapshotCreate. intros Hok.
  assert (exists ms tr, b = BText (JObj ms) tr) as (ms & tr & ->).
  { destruct b as [| |[| | | | |ms] tr]; cbn in Hok; try done. eauto. }
  exists ms, tr. split; [done|]. unfold decode_map, json_map in Hok. cbn [res_bind map_or_nil default] in Hok. unfold id in Hok.
  set (m := members_map ms) in *. cbn zeta in *.
  destruct (rejectFoldedKeys m) as [[]| |] eqn:Ef; [|done..]. cbn [res_bind] in Hok.
  destruct (no_custom_resources _) as [[]| |] eqn:Ec; [|done..]. cbn [res_bind] in Hok.
  destruct (only_create_fields _) as [[]| |] eqn:Eo; [|done..]. cbn [res_bind] in Hok.
  apply rejectFoldedKeys_ok in Ef as [Hs Hinj].
  split. { destruct (m !! "snapshot") as [[| | |name| |]|]; try done. exists name. split; [done|]. by destruct (blank name). }
  split; [exact Hs|]. split. { intros k x Hk Hx. by eapply no_custom_resources_ok; [exact Ec|apply elem_of_map_keys|]. }
  split. { intros k [v Hv]. by eapply only_create_fields_ok; [exact Eo|apply elem_of_map_to_list]. }
  split; [|exact Hinj]. intros k s Hv Hn.
  destruct (proj2 (only_create_fields_ok _ Eo k (JStr s) ltac:(by apply elem_of_map_to_list)) Hn) as [?|(s' & [= <-] & ?)]; done.
Qed.


(** What the rewritten body must say. *)
Record injected (b : body) (m : jmap) (wallet : string) (out labels : jmap) : Prop := {
  inj_labels : exists ls, out !! "labels" = Some (JObj ls) /\ members_map ls = labels;
  inj_owner : labels !! ownerLabel = Some (JStr wallet);
  inj_sealed : extractSealed b = true -> labels !! sealedLabel = Some (JStr "true");
  inj_other_labels : forall k, k <> ownerLabel -> k <> sealedLabel -> k <> imageLabel ->
    labels !! k = default ∅ (as_map (m !! "labels")) !! k;
  inj_stripped : forall k, EqualFold k "sealed" = true \/ EqualFold k "volumes" = true -> out !! k = None;
  inj_spelling : forall k f, f ∈ ["public"; "publicPorts"; "autoStopInterval"; "autoArchiveInterval"; "autoDeleteInterval"] ->
    EqualFold k f = true -> k <> f -> out !! k = None;
  inj_intervals : out !! "autoStopInterval" = Some (JNum 0 false) /\ out !! "autoArchiveInterval" = Some (JNum 60 false) /\
    out !! "autoDeleteInterval" = Some (JNum (-1) false);
  inj_public : out !! "public" = Some (JBool (match out !! "publicPorts" with Some _ => true | None => false end));
  inj_ports : out !! "publicPorts" = match m !! "publicPorts" with
    | None | Some JNull => if extractSealed b then Some (JArr [JNum agentPort false]) else None
    | Some v => Some v end;
  inj_rest : forall k, k <> "labels" ->
    (forall f, f ∈ ["sealed"; "volumes"; "public"; "publicPorts"; "autoStopInterval"; "autoArchiveInterval"; "autoDeleteInterval"] ->
       EqualFold k f = false) -> out !! k = m !! k
}.

Lemma image_label_other m labels k : k <> imageLabel -> image_label m labels !! k = labels !! k.
Proof. intros Hk. unfold image_label. repeat case_match; by rewrite ?lookup_insert_ne. Qed.

Lemma inject_exposure_lookup sealed m k :
  inject_exposure sealed m !! k =
    if bool_decide (k = "publicPorts") then
      match m !! "publicPorts" with
      | None | Some JNull => if sealed then Some (JArr [JNum agentPort false]) else None
      | Some v => Some v end
    else if bool_decide (k = "public") then
      Some (JBool (match m !! "publicPorts" with None | Some JNull => sealed | _ => true end))
    else if EqualFold k "public" || EqualFold k "publicPorts" then None else m !! k.
Proof.
  unfold inject_exposure.
  assert (forall x, delete_folded "public" (delete_folded "publicPorts" m) !! x
    = if EqualFold x "public" || EqualFold x "publicPorts" then None else m !! x) as Hd.
  { intros x. rewrite !delete_folded_lookup. by destruct (EqualFold x "public"), (EqualFold x "publicPorts"). }
  assert (EqualFold "publicPorts" "publicPorts" = true) as Hpp by apply EqualFold_refl.
  case_bool_decide as H1; [|case_bool_decide as H2]; subst.
  - destruct (m !! "publicPorts") as [[]|]; try destruct sealed; rewrite ?lookup_insert_eq; try done;
      rewrite lookup_insert_ne, Hd, Hpp, orb_true_r by done; done.
  - destruct (m !! "publicPorts") as [[]|]; try destruct sealed;
      rewrite ?(lookup_insert_ne _ "publicPorts" "public") by done; by rewrite lookup_insert_eq.
  - destruct (m !! "publicPorts") as [[]|]; try destruct sealed; rewrite !lookup_insert_ne by done; apply Hd.
Qed.

Lemma inject_intervals_lookup m k :
  inject_intervals m !! k =
    if bool_decide (k = "autoDeleteInterval") then Some (JNum (-1) false)
    else if bool_decide (k = "autoArchiveInterval") then Some (JNum 60 false)
    else if bool_decide (k = "autoStopInterval") then Some (JNum 0 false)
    else if EqualFold k "autoStopInterval" || EqualFold k "autoArchiveInterval" || EqualFold k "autoDeleteInterval" then None
    else m !! k.
Proof.
  unfold inject_intervals. repeat case_bool_decide; subst; rewrite ?lookup_insert_eq; try done;
    rewrite ?(lookup_insert_ne _ "autoDeleteInterval"), ?lookup_insert_eq by done; try done;
    rewrite ?(lookup_insert_ne _ "autoArchiveInterval"), ?lookup_insert_eq by done; try done.
  rewrite lookup_insert_ne, !delete_folded_lookup by done.
  by destruct (EqualFold k "autoStopInterval"), (EqualFold k "autoArchiveInterval"), (EqualFold k "autoDeleteInterval").
Qed.

(** The literal field names are not variants of one another. *)
Lemma managed_folds k f :
  (k, f) ∈ [("labels", "public"); ("labels", "publicPorts"); ("labels", "autoStopInterval"); ("labels", "autoArchiveInterval");
            ("labels", "autoDeleteInterval"); ("labels", "sealed"); ("labels", "volumes");
            ("publicPorts", "sealed"); ("publicPorts", "volumes"); ("publicPorts", "autoStopInterval");
            ("publicPorts", "autoArchiveInterval"); ("publicPorts", "autoDeleteInterval"); ("publicPorts", "public");
            ("public", "autoStopInterval"); ("public", "autoArchiveInterval"); ("public", "autoDeleteInterval")] ->
  EqualFold k f = false.
Proof. intros Hin. repeat (apply elem_of_cons in Hin as [[= -> ->]|Hin]; [by fold_lit|]). by apply elem_of_nil in Hin. Qed.

Lemma EqualFold_trans a b c : EqualFold a b = true -> EqualFold a c = true -> EqualFold b c = true.
Proof. rewrite !EqualFold_iff. congruence. Qed.

Ltac managed := rewrite managed_folds by in_list.

Lemma inject_owner_spec ms wallet (m := members_map ms) (b := BText (JObj ms) false) :
  exists out labels, InjectOwner b wallet = Ok (marshal_map out) /\ injected b m wallet out labels.
Proof.
  unfold InjectOwner, b. cbn [unmarshal_map json_map res_bind map_or_nil default]. unfold id. fold m b.
  set (lb := image_label _ _). eexists _, lb. split; [reflexivity|]. set (out := inject_intervals _).
  assert (forall k, out !! k = if bool_decide (k = "labels") then Some (JObj (map_members lb)) else
    inject_intervals (inject_exposure (extractSealed b) (delete_folded "volumes" (delete_folded "sealed" m))) !! k) as Hout.
  { intros k. unfold out. rewrite !inject_intervals_lookup, !inject_exposure_lookup.
    rewrite !(lookup_insert_ne _ "labels" "publicPorts") by done.
    destruct (decide (k = "labels")) as [->|Hk].
    - rewrite lookup_insert_eq. by do 5 managed.
    - by rewrite (bool_decide_false (k = "labels")), !(lookup_insert_ne _ "labels" k) by congruence. }
  assert (forall x, delete_folded "volumes" (delete_folded "sealed" m) !! x
    = if EqualFold x "sealed" || EqualFold x "volumes" then None else m !! x) as Hd.
  { intros x. rewrite !delete_folded_lookup. by destruct (EqualFold x "sealed"), (EqualFold x "volumes"). }
  assert (delete_folded "volumes" (delete_folded "sealed" m) !! "publicPorts" = m !! "publicPorts") as Hpp.
  { rewrite Hd. by do 2 managed. }
  assert (out !! "publicPorts" = match m !! "publicPorts" with
    | None | Some JNull => if extractSealed b then Some (JArr [JNum agentPort false]) else None
    | Some v => Some v end) as Hports.
  { rewrite Hout, bool_decide_false, inject_intervals_lookup by done. do 3 managed. cbn.
    rewrite inject_exposure_lookup. cbn. by rewrite Hpp. }
  split.
  - exists (map_members lb). rewrite Hout, bool_decide_true by done. split; [done|apply members_map_map_members].
  - unfold lb. rewrite image_label_other by done. destruct (extractSealed b); rewrite ?(lookup_insert_ne _ sealedLabel) by done; apply lookup_insert_eq.
  - intros Hs. unfold lb. rewrite image_label_other, Hs by done. apply lookup_insert_eq.
  - intros k Ho Hse Hi. unfold lb. rewrite image_label_other by done.
    destruct (extractSealed b); rewrite !lookup_insert_ne by done; done.
  - intros k Hk. rewrite Hout. case_bool_decide as Hl.
    { subst. destruct Hk as [Hk|Hk]; revert Hk; by managed. }
    rewrite inject_intervals_lookup, inject_exposure_lookup, (Hd k).
    assert (forall f, (forall g, g ∈ ["sealed"; "volumes"] -> EqualFold f g = false) -> k <> f) as Hne.
    { intros f Hf ->. destruct Hk as [Hk|Hk]; rewrite Hf in Hk by in_list; done. }
    rewrite !(bool_decide_false (k = _)) by (apply Hne; intros g Hg; repeat (apply elem_of_cons in Hg as [->|Hg]; [by fold_lit|]); by apply elem_of_nil in Hg).
    destruct Hk as [-> | ->]; rewrite ?orb_true_r; by repeat case_match.
  - intros k f Hf Hk Hne. rewrite Hout. case_bool_decide as Hl.
    { subst. repeat (apply elem_of_cons in Hf as [->|Hf]; [revert Hk; by managed|]). by apply elem_of_nil in Hf. }
    rewrite inject_intervals_lookup, inject_exposure_lookup.
    assert (forall g, g ∈ ["public"; "publicPorts"; "autoStopInterval"; "autoArchiveInterval"; "autoDeleteInterval"] -> k <> g) as Hsame.
    { intros g Hg ->. apply Hne. clear Hne Hl. repeat (apply elem_of_cons in Hf as [->|Hf]; [|]); try by apply elem_of_nil in Hf.
      all: repeat (apply elem_of_cons in Hg as [->|Hg]; [first [done|revert Hk; by fold_lit]|]); by apply elem_of_nil in Hg. }
    rewrite !(bool_decide_false (k = _)) by (apply Hsame; in_list).
    repeat (apply elem_of_cons in Hf as [->|Hf]; [rewrite Hk, ?orb_true_r; by repeat case_match|]). by apply elem_of_nil in Hf.
  - rewrite !Hout, !inject_intervals_lookup. done.
  - rewrite Hports, Hout, bool_decide_false, inject_intervals_lookup by done. do 3 managed. cbn [orb].
    rewrite inject_exposure_lookup. rewrite Hpp. destruct (m !! "publicPorts") as [[]|]; try done; by destruct (extractSealed b).
  - exact Hports.
  - intros k Hl Hf. rewrite Hout, bool_decide_false, inject_intervals_lookup, inject_exposure_lookup, (Hd k) by done.
    assert (forall f, f ∈ ["sealed"; "volumes"; "public"; "publicPorts"; "autoStopInterval"; "autoArchiveInterval"; "autoDeleteInterval"] -> k <> f) as Hne.
    { intros f Hin ->. specialize (Hf f Hin). by rewrite EqualFold_refl in Hf. }
    rewrite !(bool_decide_false (k = _)) by (apply Hne; in_list). rewrite !Hf by in_list. done.
Qed.

(** What [InjectOwner] forwards for an accepted body is exactly the caller's
    fields with the owner label set to the caller's wallet, the sealed label set
    whenever the create is sealed under any spelling of the flag, volumes and
    every other spelling of a managed field gone, the lifecycle intervals fixed,
    and the sandbox public exactly when it carries a port list: the caller's, or
    the agent port alone for a sealed one. *)
Theorem inject_owner_contract ms wallet (m := members_map ms) (b := BText (JObj ms) false) :
  exists out labels, InjectOwner b wallet = Ok (marshal_map out) /\ injected b m wallet out labels.
Proof. apply inject_owner_spec. Qed.

Lemma drop_protected_lookup m k : drop_protected m !! k = if protected k then None else m !! k.
Proof.
  unfold drop_protected, protected. rewrite !delete_folded_lookup.
  by destruct (EqualFold k ownerLabel), (EqualFold k sealedLabel).
Qed.

Lemma reinject_lookup current k labels x :
  reinject current k labels !! x = if decide (x = k) then match current !! k with Some v => Some (JStr v) | None => labels !! x end else labels !! x.
Proof.
  unfold reinject. case_decide as Hx; [subst|]; destruct (current !! _); rewrite ?lookup_insert_eq, ?(lookup_insert_ne _ k x) by done; done.
Qed.

(** Whatever a label update sends, the forwarded map carries the owner and
    sealed labels exactly as the live sandbox has them, under no other spelling,
    and every other label exactly as sent. *)
Theorem merge_labels_protects ms current (m := members_map ms) :
  exists out labels, MergeProtectedLabels (BText (JObj ms) false) current = Ok (marshal_map out) /\
  (exists ls, out !! "labels" = Some (JObj ls) /\ members_map ls = labels) /\
  labels !! ownerLabel = JStr <$> current !! ownerLabel /\
  labels !! sealedLabel = JStr <$> current !! sealedLabel /\
  (forall k, protected k = true -> k <> ownerLabel -> k <> sealedLabel -> labels !! k = None /\ out !! k = None) /\
  (forall k, protected k = false -> labels !! k = default ∅ (as_map (m !! "labels")) !! k) /\
  (forall k, protected k = false -> k <> "labels" -> out !! k = m !! k).
Proof.
  unfold MergeProtectedLabels. cbn [unmarshal_map json_map res_bind map_or_nil default]. unfold id. fold m.
  assert (forall f, f ∈ [ownerLabel; sealedLabel] -> protected f = true /\ f <> "labels") as Hprot.
  { intros f Hf. unfold protected. repeat (apply elem_of_cons in Hf as [->|Hf]; [by rewrite EqualFold_refl, ?orb_true_r|]).
    by apply elem_of_nil in Hf. }
  assert (protected "labels" = false) as Hl by (unfold protected; by do 2 fold_lit).
  eexists _, _. split; [reflexivity|]. rewrite drop_protected_lookup, Hl. set (l0 := from_option _ ∅ (as_map (m !! "labels"))).
  split. { eexists. rewrite lookup_insert_eq. split; [done|apply members_map_map_members]. }
  split. { rewrite reinject_lookup, decide_False, reinject_lookup, decide_True, drop_protected_lookup by done.
    rewrite (proj1 (Hprot ownerLabel ltac:(in_list))). by destruct (current !! ownerLabel). }
  split. { rewrite reinject_lookup, decide_True, reinject_lookup, decide_False, drop_protected_lookup by done.
    rewrite (proj1 (Hprot sealedLabel ltac:(in_list))). by destruct (current !! sealedLabel). }
  assert (forall k, protected k = false -> k <> ownerLabel /\ k <> sealedLabel) as Hne.
  { intros k Hk. split; intros ->; [rewrite (proj1 (Hprot ownerLabel ltac:(in_list))) in Hk|rewrite (proj1 (Hprot sealedLabel ltac:(in_list))) in Hk]; done. }
  split; [|split].
  - intros k Hk Ho Hs. rewrite !reinject_lookup, !decide_False, drop_protected_lookup, Hk by done. split; [done|].
    rewrite lookup_insert_ne, drop_protected_lookup, Hk by (intros <-; congruence). done.
  - intros k Hk. destruct (Hne k Hk). by rewrite !reinject_lookup, !decide_False, drop_protected_lookup, Hk by done.
  - intros k Hk Hkl. by rewrite lookup_insert_ne, drop_protected_lookup, Hk by done.
Qed.

(** C37: a create that passes port validation opens nothing by surprise: the
    forwarded sandbox is either private with no port list, or public on a
    non-empty list of at most sixteen ports in range, none of them a system
    port, and a sealed one always keeps the attested agent port. *)
Theorem exposed_ports_safe ms wallet (b := BText (JObj ms) false) :
  ValidatePublicPorts b (extractSealed b) = Ok tt ->
  exists out, InjectOwner b wallet = Ok (marshal_map out) /\
  ((out !! "publicPorts" = None /\ out !! "public" = Some (JBool false) /\ extractSealed b = false) \/
   exists arr, out !! "publicPorts" = Some (JArr arr) /\ out !! "public" = Some (JBool true) /\
     arr <> [] /\ (length arr <= maxPublicPorts)%nat /\
     (forall v, v ∈ arr -> exists z, v = JNum z false /\ 1 <= z <= 65535 /\ ~ z ∈ reservedPreviewPorts) /\
     (extractSealed b = true -> JNum agentPort false ∈ arr)).
Proof.
  intros Hv. destruct (inject_owner_spec ms wallet) as (out & labels & Ho & Hi). exists out. split; [exact Ho|].
  pose proof (inj_public _ _ _ _ _ Hi) as Hpub. pose proof (inj_ports _ _ _ _ _ Hi) as Hp. fold b in Hp.
  unfold ValidatePublicPorts, parsePublicPorts, b in Hv. cbn [unmarshal_map json_map map_or_nil default] in Hv. unfold id in Hv. fold b in Hv.
  assert (match members_map ms !! "publicPorts" with None | Some JNull => True | Some (JArr _) => True | _ => False end) as Hshape.
  { destruct (members_map ms !! "publicPorts") as [[]|]; done. }
  destruct (members_map ms !! "publicPorts") as [[| | | |arr|]|] eqn:Epp; try done; clear Hshape.
  2: { right. exists arr. rewrite Hpub, Hp. split; [done|]. split; [done|].
    destruct (parse_ports arr) as [ps| |] eqn:Ea; [|done..]. cbn [res_bind] in Hv.
    case_bool_decide as Hn; [done|]. destruct (Nat.ltb_spec maxPublicPorts (length ps)) as [?|Hlen]; [done|].
    destruct (check_ports ps) as [[]| |] eqn:Ec; [|done..]. cbn [res_bind] in Hv.
    assert (length ps = length arr) as Hl.
    { clear -Ea. revert ps Ea. induction arr as [|[| |z []| | |] arr IH]; intros ps Ea; cbn in Ea; try done; [by injection Ea as <-|].
      destruct (parse_ports arr) as [ps'| |]; [|done..]. injection Ea as <-. cbn. f_equal. by apply IH. }
    split; [intros ->; by destruct ps|]. split; [lia|]. split.
    - intros v Hin. destruct (parse_ports_elem _ _ Ea v Hin) as (z & -> & Hz). exists z. split; [done|].
      destruct (check_ports_ok _ Ec _ Hz) as [Hr Hres]. pose proof (go_int_port z Hr) as Hgi. by rewrite Hgi in Hr, Hres.
    - intros Hs. rewrite Hs in Hv. cbn [andb] in Hv. case_bool_decide as Hag; [|done].
      destruct (parse_ports_In _ _ _ Ea Hag) as (z & Hin & Hz).
      destruct (check_ports_ok _ Ec _ Hag) as [Hr _]. rewrite <- Hz in Hr. apply go_int_port in Hr. by rewrite <- Hz, Hr. }
  all: destruct (extractSealed b); [right; exists [JNum agentPort false]; rewrite Hpub, Hp|left; by rewrite Hpub, Hp].
  all: split; [done|]; split; [done|]; split; [done|]; split; [cbn; unfold maxPublicPorts; lia|]; split; [|intros; left].
  all: intros v Hin; apply list_elem_of_singleton in Hin as ->; exists agentPort; split; [done|]; unfold agentPort, reservedPreviewPorts; split; [lia|].
  all: rewrite !elem_of_cons, elem_of_nil; lia.
Qed.

End Properties.

(** ** Concrete requests *)

Module CreatePolicyExamples.

Definition sealed_create : list (string * json) :=
  [("snapshot", JStr "agent:v3"); ("Sealed", JBool true); ("Public", JBool true); ("VOLUMES", JArr [JStr "other"]);
   ("labels", JObj [("team", JStr "a"); ("daytona-owner", JStr "0xother")]); ("autoStopInterval", JNum 5 false)].


(** Requests the policy turns away: a folded spelling of [cpu], a second
    spelling of [snapshot] with U+017F, a blank snapshot name, a dotted name. *)
Example policy_refusals :
  (fun ms => match requireSnapshotCreate (BText (JObj ms) false) with Ok _ => true | _ => false end) <$>
  [ [("snapshot", JStr "a"); ("CPU", JNum 1 false)];
    [("snapshot", JStr "a"); (String "197" (String "191" "napshot"), JStr "b")];
    [("snapshot", JStr " ")];
    [("snapshot", JStr "a"); ("name", JStr "rpc.example")];
    [("snapshot", JStr "a"); ("linkedSandbox", JStr "victim")];
    [("snapshot", JStr "a"); ("name", JStr "mine")] ] = [false; false; false; false; false; true].
Proof. vm_compute. reflexivity. Qed.

Lemma inject_owner_contract_witness :
  exists out labels, InjectOwner (BText (JObj sealed_create) false) "0xme" = Ok (marshal_map out) /\
    injected (BText (JObj sealed_create) false) (members_map sealed_create) "0xme" out labels /\
    out !! "public" = Some (JBool true) /\ labels !! "0g-sealed" = Some (JStr "true").
Proof.
  destruct (inject_owner_contract sealed_create "0xme") as (out & labels & E & Hi). exists out, labels.
  split; [exact E|]. split; [exact Hi|]. split; [|by apply Hi; vm_compute].
  rewrite (inj_public _ _ _ _ _ Hi), (inj_ports _ _ _ _ _ Hi). vm_compute. reflexivity.
Defined.

Lemma merge_labels_protects_witness :
  exists out (labels : jmap),
    MergeProtectedLabels (BText (JObj [("labels", JObj [("0G-Sealed", JStr "false"); ("team", JStr "b")])]) false)
      {[ownerLabel := "0xme"; sealedLabel := "true"]} = Ok (marshal_map out) /\
    labels !! sealedLabel = Some (JStr "true") /\ labels !! "0G-Sealed" = None.
Proof.
  destruct (merge_labels_protects [("labels", JObj [("0G-Sealed", JStr "false"); ("team", JStr "b")])]
    {[ownerLabel := "0xme"; sealedLabel := "true"]}) as (out & labels & E & _ & _ & Hs & Hp & _).
  exists out, labels. split; [exact E|]. split; [rewrite Hs; reflexivity|].
  by apply Hp.
Defined.

Lemma exposed_ports_safe_witness :
  exists out, InjectOwner (BText (JObj [("sealed", JBool true); ("publicPorts", JArr [JNum 8080 false; JNum 3284 false])]) false) "0xme"
      = Ok (marshal_map out) /\
    (out !! "publicPorts" = None \/ exists arr, out !! "publicPorts" = Some (JArr arr) /\ JNum 8080 false ∈ arr).
Proof.
  destruct (exposed_ports_safe [("sealed", JBool true); ("publicPorts", JArr [JNum 8080 false; JNum 3284 false])] "0xme")
    as (out & E & Hc); [vm_compute; reflexivity|].
  exists out. split; [exact E|]. destruct Hc as [(? & _)|(arr & Ha & _ & _ & _ & _ & Hs)]; [by left|right].
  exists arr. split; [exact Ha|]. apply Hs. vm_compute. reflexivity.
Defined.

(** A label update whose body is [null] writes to a nil map. *)
Lemma merge_labels_null_panics : MergeProtectedLabels (BText JNull false) ∅ = Panic.
Proof. reflexivity. Qed.

End CreatePolicyExamples.
