(* ===== verification/Guard.v ===== *)
(** * The proxy's boundary filters (internal/proxy: pathguard.go,
    responsescrub.go, stripSealKey of seal.go)

    Requests whose path is not canonical are refused before routing, and the
    seal key and boot ticket are removed from every sandbox object a response
    carries. *)

From S2P Require Import Prelude Hex Json CreatePolicy.

(** ** Paths *)

(** The segments of a path: what lies between slashes. *)
Fixpoint split_slash (s : string) : list string :=
  match s with
  | EmptyString => [EmptyString]
  | String c s' =>
      if bool_decide (c = "/"%char) then EmptyString :: split_slash s'
      else match split_slash s' with h :: t => String c h :: t | [] => [String c EmptyString] end
  end.

Fixpoint join_slash (l : list string) : string :=
  match l with
  | [] => EmptyString
  | [x] => x
  | x :: l' => x +:+ String "/" (join_slash l')
  end.

(** One segment of [path.Clean]'s scan; [out] is the output so far, last
    segment first. *)
Definition clean_step (rooted : bool) (out : list string) (seg : string) : list string :=
  if bool_decide (seg = EmptyString) || bool_decide (seg = ".") then out
  else if bool_decide (seg = "..") then
    match out with
    | x :: out' => if bool_decide (x = "..") then seg :: out else out'
    | [] => if rooted then [] else [seg]
    end
  else seg :: out.

(** [path.Clean]. *)
Definition path_Clean (p : string) : string :=
  let rooted := match p with String "/" _ => true | _ => false end in
  let out := join_slash (reverse (foldl (clean_step rooted) [] (split_slash p))) in
  if rooted then String "/" out else if bool_decide (out = EmptyString) then "." else out.

Definition has_slash_suffix (p : string) : bool := bool_decide (last (split_slash p) = Some EmptyString) && negb (bool_decide (p = EmptyString)).

(** [internal/proxy/pathguard.go:47-47 PathTraversalGuard] *)
Definition encoded_separators : list string := ["%2e"; "%2f"; "%5c"; "%25"].

(** Whether the request passes; [p] is the decoded path, [escaped] its raw form.
    [internal/proxy/pathguard.go:29-55 PathTraversalGuard] *)
Definition PathTraversalGuard (p escaped : string) : bool :=
  let cleaned := path_Clean p in
  let cleaned := if negb (bool_decide (p = "/")) && has_slash_suffix p && negb (has_slash_suffix cleaned)
                 then cleaned +:+ "/" else cleaned in
  if negb (bool_decide (cleaned = p)) || contains_char "\" p then false
  else forallb (fun seq => negb (contains (to_lower escaped) seq)) encoded_separators.

(** ** Responses *)

(** [internal/proxy/responsescrub.go:11-11 sealKeyEnv] *)
Definition sealKeyEnv : string := "SANDBOX_SEAL_KEY".

(** [internal/proxy/responsescrub.go:17-17 bootTicketEnv] *)
Definition bootTicketEnv : string := "SEAL_BOOT_TICKET".

(** [internal/proxy/responsescrub.go:21-21 secretResponseEnv] *)
Definition secretResponseEnv : list string := [sealKeyEnv; bootTicketEnv].

(** The map without the keys, and whether one was there.
    [internal/proxy/responsescrub.go:88-97 deleteSecretEnv] *)
Definition deleteSecretEnv (env : jmap) : jmap * bool :=
  foldl (fun '(env, changed) key => match env !! key with Some _ => (delete key env, true) | None => (env, changed) end)
    (env, false) secretResponseEnv.

(** The value after the in-place deletions, and whether there were any.
    [internal/proxy/responsescrub.go:65-84 scrubSealKeyInValue] *)
Fixpoint scrubSealKeyInValue (v : json) : json * bool :=
  match v with
  | JObj ms =>
      let m := members_map ms in
      match as_map (m !! "env") with
      | None => (v, false)
      | Some env =>
          let '(env', changed) := deleteSecretEnv env in
          if changed then (JObj (map_members (<["env" := JObj (map_members env')]> m)), true) else (v, false)
      end
  | JArr l => (JArr (map (fun e => (scrubSealKeyInValue e).1) l), existsb (fun e => (scrubSealKeyInValue e).2) l)
  | _ => (v, false)
  end.

(** [mentioned]: whether the body's bytes hold one of the quoted key names.
    [internal/proxy/responsescrub.go:32-57 scrubSealKeyFromBody] *)
Definition scrubSealKeyFromBody (mentioned : bool) (b : body) : body :=
  if negb mentioned then b
  else match b with
       | BText v _ => let '(v', changed) := scrubSealKeyInValue v in if changed then BText v' false else b
       | _ => b
       end.

(** A nil map marshals as [null]. [internal/proxy/seal.go:291-300 stripSealKey] *)
Definition stripSealKey (b : body) : res body :=
  res_bind (unmarshal_map b) (fun mm =>
  match mm with
  | None => Ok (BText JNull false)
  | Some m =>
      Ok (marshal_map (match as_map (m !! "env") with
                       | Some env => <["env" := JObj (map_members (deleteSecretEnv env).1)]> m
                       | None => m end))
  end).

(** ** Canonical paths *)

Definition no_slash (s : string) : Prop := contains_char "/" s = false.

Lemma split_slash_cons s : exists h t, split_slash s = h :: t.
Proof. induction s as [|c s (h & t & IH)]; cbn; [eauto|]. rewrite IH. case_bool_decide; eauto. Qed.

Lemma join_split s : join_slash (split_slash s) = s.
Proof.
  induction s as [|c s IH]; [done|]. cbn. destruct (split_slash_cons s) as (h & t & E). rewrite E in *.
  case_bool_decide as Hc; [rewrite Hc; transitivity (String "/" (join_slash (h :: t))); [done|by rewrite IH]|].
  rewrite <- IH. by destruct t.
Qed.

Lemma split_no_slash s : no_slash s -> split_slash s = [s].
Proof.
  unfold no_slash. induction s as [|c s IH]; [done|]. cbn. rewrite orb_false_iff. intros [Hc Hs].
  zbool. rewrite bool_decide_false by congruence. by rewrite IH.
Qed.

Lemma split_app s t : no_slash s -> split_slash (s +:+ String "/" t) = s :: split_slash t.
Proof.
  unfold no_slash. induction s as [|c s IH]; [done|]. cbn [contains_char]. rewrite orb_false_iff. intros [Hc Hs].
  zbool. change (String c s +:+ ?x) with (String c (s +:+ String "/" t)). cbn [split_slash].
  rewrite bool_decide_false by congruence. by rewrite IH.
Qed.

Lemma split_join l : l <> [] -> Forall no_slash l -> split_slash (join_slash l) = l.
Proof.
  intros Hne Hl. induction Hl as [|x l Hx Hl IH]; [done|]. destruct l as [|y l]; [by apply split_no_slash|].
  change (join_slash (x :: y :: l)) with (x +:+ String "/" (join_slash (y :: l))). rewrite split_app by done. by rewrite IH.
Qed.

Lemma split_segments_no_slash s : Forall no_slash (split_slash s).
Proof.
  induction s as [|c s IH]; [by repeat constructor|]. cbn. case_bool_decide as Hc; [by constructor|].
  destruct (split_slash_cons s) as (h & t & E). rewrite E in *. inversion IH as [|? ? Hh Ht]; subst. constructor; [|done]. unfold no_slash in *. cbn.
    rewrite bool_decide_false by congruence. done.
Qed.

(** Segments a normalizing upstream leaves alone. *)
Definition plain (seg : string) : Prop := seg <> EmptyString /\ seg <> "." /\ seg <> "..".

Lemma clean_plain segs : forall out, Forall plain segs -> foldl (clean_step true) out segs = reverse segs ++ out.
Proof.
  induction segs as [|s segs IH]; intros out Hp; [done|]. apply Forall_cons in Hp as [(H1 & H2 & H3) Hp]. cbn [foldl].
  unfold clean_step at 2. rewrite !bool_decide_false by done. cbn [orb]. rewrite IH by done. rewrite reverse_cons, <- app_assoc. done.
Qed.

Lemma clean_output segs : forall out, Forall plain out -> Forall no_slash segs -> Forall no_slash out ->
  Forall plain (foldl (clean_step true) out segs) /\ Forall no_slash (foldl (clean_step true) out segs).
Proof.
  induction segs as [|s segs IH]; intros out Hp Hs Ho; [done|]. cbn [foldl]. apply Forall_cons in Hs as [Hs Hss].
  unfold clean_step at 2 4. destruct (bool_decide (s = EmptyString) || bool_decide (s = ".")) eqn:E1; [by apply IH|].
  zbool. case_bool_decide as H2.
  - destruct out as [|x out]; [by apply IH|]. apply Forall_cons in Hp as [(Hx & Hx1 & Hx2) Hp]. apply Forall_cons in Ho as [? Ho].
    rewrite bool_decide_false by done. by apply IH.
  - apply IH; [|done|]; constructor; done.
Qed.

(** A rooted path in canonical form: plain segments between single slashes, at
    most one slash at the end. *)
Definition canonical (p : string) : Prop :=
  exists segs, Forall plain segs /\
  (split_slash p = EmptyString :: segs \/ split_slash p = EmptyString :: segs ++ [EmptyString]) /\ p <> EmptyString.

Lemma clean_rooted rest :
  path_Clean (String "/" rest) = String "/" (join_slash (reverse (foldl (clean_step true) [] (split_slash rest)))).
Proof. reflexivity. Qed.

Lemma string_app_assoc s t u : s +:+ (t +:+ u) = (s +:+ t) +:+ u.
Proof.
  induction s as [|c s IH]; [done|]. change (String c s +:+ (t +:+ u)) with (String c (s +:+ (t +:+ u))). by rewrite IH.
Qed.

Lemma join_snoc_empty l : l <> [] -> join_slash (l ++ [EmptyString]) = join_slash l +:+ "/".
Proof.
  induction l as [|x l IH]; intros Hne; [done|]. destruct l as [|y l]; [done|].
  change (join_slash ((x :: y :: l) ++ [EmptyString])) with (x +:+ String "/" (join_slash ((y :: l) ++ [EmptyString]))).
  rewrite IH by done. change (join_slash (x :: y :: l)) with (x +:+ String "/" (join_slash (y :: l))).
  by rewrite <- string_app_assoc.
Qed.

Lemma slash_suffix_plain rest segs : split_slash rest = segs -> segs <> [] -> Forall plain segs -> has_slash_suffix (String "/" rest) = false.
Proof.
  intros E Hne Hp. unfold has_slash_suffix. change (split_slash (String "/" rest)) with (EmptyString :: split_slash rest).
  rewrite E. destruct segs as [|x segs] using rev_ind; [done|]. rewrite app_comm_cons, last_snoc.
  apply Forall_app in Hp as [_ Hp]. apply Forall_cons in Hp as [(Hx & _) _]. rewrite bool_decide_false by congruence. done.
Qed.

Lemma slash_suffix_snoc rest segs : split_slash rest = segs ++ [EmptyString] -> has_slash_suffix (String "/" rest) = true.
Proof.
  intros E. unfold has_slash_suffix. change (split_slash (String "/" rest)) with (EmptyString :: split_slash rest).
  by rewrite E, app_comm_cons, last_snoc.
Qed.

(** The path test of the guard is exactly canonical form. *)
Lemma guard_path rest (p := String "/" rest) :
  (if negb (bool_decide (p = "/")) && has_slash_suffix p && negb (has_slash_suffix (path_Clean p))
   then path_Clean p +:+ "/" else path_Clean p) = p <-> canonical p.
Proof.
  unfold p. rewrite clean_rooted. destruct (clean_output (split_slash rest) []) as [Hp Hn];
    [constructor|apply split_segments_no_slash|constructor|].
  set (out := reverse (foldl _ _ _)) in *. apply Forall_reverse in Hp, Hn. fold out in Hp, Hn. split.
  - clearbody out. destruct (decide (out = [])) as [->|Hne].
    + cbn [join_slash]. rewrite andb_false_r. intros [= <-]. exists []. split; [constructor|]. by split; [right|].
    + rewrite (slash_suffix_plain (join_slash out) out) by (by try apply split_join).
      intros E. exists out. split; [done|]. split; [|done]. change (split_slash (String "/" rest)) with (EmptyString :: split_slash rest).
      destruct (_ && _ && _).
      * right. change (String "/" (join_slash out) +:+ "/") with (String "/" (join_slash out +:+ "/")) in E. injection E as <-.
        rewrite <- join_snoc_empty by done. f_equal. apply split_join; [by destruct out|]. apply Forall_app. split; [done|by repeat constructor].
      * left. injection E as <-. f_equal. by apply split_join.
  - intros (segs & Hs & Hsplit & _). change (split_slash (String "/" rest)) with (EmptyString :: split_slash rest) in Hsplit.
    assert (Forall no_slash segs) as Hns.
    { pose proof (split_segments_no_slash rest) as Hf. destruct Hsplit as [[= E]|[= E]]; rewrite E in Hf; [done|by apply Forall_app in Hf as [? _]]. }
    assert (out = segs) as Eout.
    { unfold out. destruct Hsplit as [[= ->]|[= ->]]; rewrite ?foldl_app, (clean_plain segs), app_nil_r by done; cbn; apply reverse_involutive. }
    clearbody out. subst out.
    destruct Hsplit as [[= E]|[= E]].
    + assert (segs <> []) as Hne by (intros ->; destruct (split_slash_cons rest) as (? & ? & ?); congruence).
      rewrite (slash_suffix_plain rest segs) by done. rewrite andb_false_r. cbn [andb]. by rewrite <- E, join_split.
    + rewrite (slash_suffix_snoc rest segs E). destruct (decide (segs = [])) as [->|Hne].
      { assert (rest = EmptyString) as ->; [|done]. by rewrite <- (join_split rest), E. }
      assert (rest = join_slash segs +:+ "/") as Hr by (by rewrite <- join_snoc_empty, <- E, join_split).
      rewrite (bool_decide_false (String "/" rest = "/")).
      2: { intros [= ->]. destruct segs as [|x [|y segs]]; [done| |done]. by apply Forall_cons in Hs as [(Hx & _) _]. }
      rewrite (slash_suffix_plain (join_slash segs) segs) by (by try apply split_join). by rewrite Hr.
Qed.

(** The traversal guard passes a rooted path exactly when it is canonical
    (so an upstream that resolves dot segments, collapses slashes or turns
    backslashes sees the path the gates authorized) and its raw form holds no
    percent-encoded dot, slash, backslash or percent sign (so decoding it once
    more finds no new segment). *)
Theorem path_guard_canonical rest escaped (p := String "/" rest) :
  PathTraversalGuard p escaped = true <->
  canonical p /\ contains_char "\" p = false /\
  forall seq, seq ∈ encoded_separators -> contains (to_lower escaped) seq = false.
Proof.
  pose proof (guard_path rest) as Hg. cbv zeta in Hg. fold p in Hg. unfold PathTraversalGuard. rewrite <- Hg. cbv zeta. set (cleaned := if _ && _ then _ else _).
  assert (forallb (fun seq => negb (contains (to_lower escaped) seq)) encoded_separators = true <->
    forall seq, seq ∈ encoded_separators -> contains (to_lower escaped) seq = false) as Hf.
  { rewrite forallb_forall. split; intros Hx seq Hin; apply negb_true_iff, Hx, list_elem_of_In, Hin. }
  rewrite <- Hf. clearbody cleaned. clear Hf Hg. case_bool_decide as Hc; cbn [negb orb].
  - destruct (contains_char "\" p); split; [done|by intros (_ & ? & _)|by intros ?|by intros (_ & _ & ?)].
  - split; [done|by intros (? & _)].
Qed.

(** ** No secret leaves *)

(** Whether a response value shows a secret in the env of a sandbox object. *)
Fixpoint leaks (v : json) : bool :=
  match v with
  | JObj ms =>
      match as_map (members_map ms !! "env") with
      | Some env => existsb (fun key => bool_decide (is_Some (env !! key))) secretResponseEnv
      | None => false
      end
  | JArr l => existsb leaks l
  | _ => false
  end.

Lemma deleteSecretEnv_spec env :
  (forall k, (deleteSecretEnv env).1 !! k = if decide (k ∈ secretResponseEnv) then None else env !! k) /\
  (deleteSecretEnv env).2 = existsb (fun key => bool_decide (is_Some (env !! key))) secretResponseEnv.
Proof.
  unfold deleteSecretEnv, secretResponseEnv. cbn [foldl existsb].
  destruct (env !! sealKeyEnv) as [x|] eqn:E1.
  - rewrite lookup_delete_ne by done. rewrite (bool_decide_true (is_Some (Some x))) by eauto. cbn [orb].
    destruct (env !! bootTicketEnv) as [y|] eqn:E2; cbn; (split; [|done]); intros k.
    + case_decide as Hk; rewrite !elem_of_cons, elem_of_nil in Hk.
      * destruct Hk as [->|[->|[]]]; [|by rewrite lookup_delete_eq]. rewrite lookup_delete_ne by done. by rewrite lookup_delete_eq.
      * by rewrite !lookup_delete_ne by naive_solver.
    + case_decide as Hk; rewrite !elem_of_cons, elem_of_nil in Hk.
      * destruct Hk as [->|[->|[]]]; [by rewrite lookup_delete_eq|]. by rewrite lookup_delete_ne.
      * by rewrite !lookup_delete_ne by naive_solver.
  - rewrite (bool_decide_false (is_Some None)) by (by intros []). cbn [orb].
    destruct (env !! bootTicketEnv) as [y|] eqn:E2; cbn; rewrite ?bool_decide_true by eauto;
      rewrite ?(bool_decide_false (is_Some None)) by (by intros []); (split; [|done]); intros k.
    + case_decide as Hk; rewrite !elem_of_cons, elem_of_nil in Hk.
      * destruct Hk as [->|[->|[]]]; [|by rewrite lookup_delete_eq]. by rewrite lookup_delete_ne.
      * by rewrite !lookup_delete_ne by naive_solver.
    + case_decide as Hk; [|done]. rewrite !elem_of_cons, elem_of_nil in Hk. by destruct Hk as [->|[->|[]]].
Qed.

Lemma deleteSecretEnv_none env : (deleteSecretEnv env).2 = false -> (deleteSecretEnv env).1 = env.
Proof.
  destruct (deleteSecretEnv_spec env) as [Hk ->]. intros Hf. apply map_eq. intros k. rewrite Hk. case_decide as Hin; [|done].
  destruct (env !! k) eqn:E; [|done]. assert (existsb (fun key => bool_decide (is_Some (env !! key))) secretResponseEnv = true) as Ht; [|congruence].
  apply existsb_exists. exists k. split; [by apply list_elem_of_In|]. rewrite E. by apply bool_decide_true.
Qed.

(** The env variables a response object shows. *)
Definition shown_env (v : json) : jmap :=
  match v with JObj ms => default ∅ (as_map (members_map ms !! "env")) | _ => ∅ end.

Lemma scrub_object ms :
  exists ms', (scrubSealKeyInValue (JObj ms)).1 = JObj ms' /\
  (scrubSealKeyInValue (JObj ms)).2 = leaks (JObj ms) /\ leaks (JObj ms') = false /\
  (leaks (JObj ms) = false -> ms' = ms) /\
  (forall k, k <> "env" -> members_map ms' !! k = members_map ms !! k) /\
  (forall k, shown_env (JObj ms') !! k = if decide (k ∈ secretResponseEnv) then None else shown_env (JObj ms) !! k).
Proof.
  cbn [scrubSealKeyInValue leaks shown_env]. destruct (as_map (members_map ms !! "env")) as [env|] eqn:Ee.
  - pose proof (deleteSecretEnv_spec env) as [Hk Hc]. rewrite <- Hc. pose proof (deleteSecretEnv_none env) as Hn.
    destruct (deleteSecretEnv env) as [env' changed] eqn:Ed. cbn [fst snd default] in *. destruct changed.
    + eexists. split; [reflexivity|]. cbn [fst snd leaks]. rewrite members_map_map_members, lookup_insert_eq.
      cbn [as_map]. rewrite members_map_map_members. split; [done|]. split.
      { apply not_true_is_false. intros (x & Hx & Hb)%existsb_exists. apply bool_decide_eq_true in Hb as [y Hy].
        rewrite Hk, decide_True in Hy by (by apply list_elem_of_In). done. }
      split; [done|]. split; [|exact Hk]. intros k Hne. by rewrite lookup_insert_ne.
    + exists ms. split; [done|]. rewrite Ee. cbn [fst snd default]. rewrite <- Hc. split; [done|]. split; [done|]. split; [done|].
      split; [done|]. intros k. rewrite <- Hk. by rewrite Hn.
  - exists ms. split; [done|]. rewrite Ee. do 4 (split; [done|]). intros k. cbn. rewrite lookup_empty. by case_decide.
Qed.

Lemma scrub_leaks v :
  (scrubSealKeyInValue v).2 = leaks v /\ leaks (scrubSealKeyInValue v).1 = false /\
  (leaks v = false -> (scrubSealKeyInValue v).1 = v).
Proof.
  induction v as [|b|z f|s|l IH|ms IH] using json_ind'; try done.
  - cbn. induction IH as [|x l (H1 & H2 & H3) _ (I1 & I2 & I3)]; [done|]. cbn. rewrite H1, H2, I1, I2. split; [done|]. split; [done|].
    intros [Hx Hl]%orb_false_iff. rewrite H3 by done. f_equal. f_equal. specialize (I3 Hl). by injection I3.
  - destruct (scrub_object ms) as (ms' & E & Hc & Hl & Hs & _). rewrite E. split; [done|]. split; [done|]. intros Hf. by rewrite Hs.
Qed.

(** Whatever JSON a response carries, after the scrub no sandbox object of
    it (at top level or in an array) shows the seal key or the boot ticket, a
    value without them passes unchanged, and in a scrubbed object every other
    member and every other variable is as it was. *)
Theorem scrub_hides_secrets v :
  leaks (scrubSealKeyInValue v).1 = false /\
  (leaks v = false -> scrubSealKeyInValue v = (v, false)) /\
  forall ms, v = JObj ms -> exists ms', (scrubSealKeyInValue v).1 = JObj ms' /\
    (forall k, k <> "env" -> members_map ms' !! k = members_map ms !! k) /\
    (forall k, shown_env (JObj ms') !! k = if decide (k ∈ secretResponseEnv) then None else shown_env (JObj ms) !! k).
Proof.
  destruct (scrub_leaks v) as (Hc & Hl & Hs). split; [exact Hl|]. split.
  - intros Hf. rewrite Hf in Hc. specialize (Hs Hf). destruct (scrubSealKeyInValue v). cbn in *. by subst.
  - intros ms ->. destruct (scrub_object ms) as (ms' & E & _ & _ & _ & Hk & He). by exists ms'.
Qed.

Module GuardExamples.

Example guard_examples :
  (fun p => PathTraversalGuard p p) <$>
  ["/api/sandbox/a/start"; "/api/sandbox/a/"; "/"; "/api/sandbox/a/../b"; "/api//sandbox"; "/api/./x"; "/a\b"; "/a%2Eb"; "/my.app"]
  = [true; true; true; false; false; false; false; false; true].
Proof. vm_compute. reflexivity. Qed.

(** A list response with one sealed sandbox. *)
Example scrub_example :
  leaks (JArr [JObj [("id", JStr "a"); ("env", JObj [("A", JStr "1"); ("SANDBOX_SEAL_KEY", JStr "0x1")])]; JNull]) = true.
Proof. vm_compute. reflexivity. Qed.

End GuardExamples.
