(* ===== verification/Config.v ===== *)
(** * Configuration (internal/config/config.go)

    The settings the services are started with and the rules they are checked
    by.  [Load] and [LoadBroker] take what was decoded from the file and the
    environment; Settings says where that comes from. *)

From stdpp Require Import pretty.
From S2P Require Import Prelude Decimal Hex Guard.

(** ** The settings the rules are about *)

(** [internal/config/config.go:42-59 BillingConfig] *)
Record BillingConfig := mkBillingConfig {
  bc_VoucherIntervalSec : Z;
  bc_SettleIntervalSec : Z;
  bc_ComputePricePerSec : string;
  bc_PricePerCPUPerSec : string;
  bc_PricePerMemGBPerSec : string;
  bc_CreateFee : string
}.

(** [internal/config/config.go:61-93 ChainConfig] *)
Record ChainConfig := mkChainConfig {
  cc_RPCURL : string;
  cc_ContractAddress : string;
  cc_TappRegistry : string;
  cc_TEEPrivateKey : string;
  cc_ProviderKeySource : string;
  cc_ProviderPrivateKey : string;
  cc_AdminAddresses : string;
  cc_AttestorAppID : string;
  cc_AttestorInstance : string;
  cc_ChainID : Z
}.

(** The Daytona, billing, chain and server settings.
    [internal/config/config.go:12-20 Config] *)
Record Config := mkConfig {
  cfg_APIURL : string;
  cfg_AdminKey : string;
  cfg_Billing : BillingConfig;
  cfg_Chain : ChainConfig;
  cfg_TLSEnabled : bool
}.

Definition set_instance (s : string) (c : Config) : Config :=
  let ch := cfg_Chain c in
  mkConfig (cfg_APIURL c) (cfg_AdminKey c) (cfg_Billing c)
    (mkChainConfig (cc_RPCURL ch) (cc_ContractAddress ch) (cc_TappRegistry ch) (cc_TEEPrivateKey ch) (cc_ProviderKeySource ch)
       (cc_ProviderPrivateKey ch) (cc_AdminAddresses ch) (cc_AttestorAppID ch) s (cc_ChainID ch))
    (cfg_TLSEnabled c).

(** ** Text *)

Definition is_space (c : ascii) : bool :=
  bool_decide (c ∈ [" "%char; "009"%char; "010"%char; "011"%char; "012"%char; "013"%char]).

Fixpoint trim_left (s : string) : string :=
  match s with String c s' => if is_space c then trim_left s' else s | EmptyString => EmptyString end.

Fixpoint trim_right (s : string) : string :=
  match s with
  | String c s' => match trim_right s' with
                   | EmptyString => if is_space c then EmptyString else String c EmptyString
                   | t => String c t
                   end
  | EmptyString => EmptyString
  end.

(** [strings.TrimSpace] on ASCII. *)
Definition TrimSpace (s : string) : string := trim_right (trim_left s).

(** [strings.Cut(s, sep)]: the text before and after the first [sep], if any. *)
Fixpoint cut (sep : ascii) (s : string) : string * option string :=
  match s with
  | EmptyString => (EmptyString, None)
  | String c s' => if bool_decide (c = sep) then (EmptyString, Some s')
                   else let '(a, b) := cut sep s' in (String c a, b)
  end.

(** [strings.Split(s, sep)]: the parts of a string between [sep]s. *)
Fixpoint split_char (sep : ascii) (s : string) : list string :=
  match s with
  | EmptyString => [EmptyString]
  | String c s' =>
      if bool_decide (c = sep) then EmptyString :: split_char sep s'
      else match split_char sep s' with h :: t => String c h :: t | [] => [String c EmptyString] end
  end.

Definition hex_text (s : string) : bool :=
  forallb (fun c => match hex_value c with Some _ => true | None => false end) (list_ascii_of_string s).

(** [common.IsHexAddress]: forty digits, with or without the prefix. *)
Definition IsHexAddress (s : string) : bool :=
  let d := strip_0x s in (String.length d =? 40)%nat && hex_text d.

(** ** Rules *)

(** Lower-cased, without blanks, empty entries or repetitions, in order.
    [internal/config/config.go:98-109 AdminList] *)
Definition AdminList (c : ChainConfig) : list string :=
  foldl (fun out p =>
    let p := to_lower (TrimSpace p) in
    if bool_decide (p = EmptyString) || bool_decide (p ∈ out) then out else out ++ [p]) []
  (split_char "," (cc_AdminAddresses c)).

Definition ErrInstance : rerr := EMsg "ATTESTOR_INSTANCE must be <registeredAt>:<0x owner> from the attestor app's getAppInfo".

Definition instance_text (registeredAt : Z) (owner : addr) : string := pretty registeredAt +:+ ":" +:+ addr_hex owner.

(** [internal/config/config.go:314-322 NormalizeAttestorInstance] *)
Definition NormalizeAttestorInstance (value : string) : res string :=
  let '(epoch, owner) := cut ":" (TrimSpace value) in
  match owner, ParseUint epoch with
  | Some owner, Some registeredAt =>
      if (registeredAt =? 0) || negb (starts_with "0x" owner) || negb (IsHexAddress owner)
         || (hex_to_address owner =? 0)
      then Err ErrInstance
      else Ok (instance_text registeredAt (hex_to_address owner))
  | _, _ => Err ErrInstance
  end.

(** The first of the named values that is empty. *)
Fixpoint missing (rs : list (string * string)) : option string :=
  match rs with
  | [] => None
  | (val, name) :: rs' => if bool_decide (val = EmptyString) then Some name else missing rs'
  end.

(** The checked configuration, its attestor instance in the stored form.
    [internal/config/config.go:276-308 validate] *)
Definition validate (c : Config) : res Config :=
  let ch := cfg_Chain c in
  match missing [(cfg_APIURL c, "DAYTONA_API_URL"); (cfg_AdminKey c, "DAYTONA_ADMIN_KEY"); (cc_RPCURL ch, "RPC_URL");
                 (cc_ContractAddress ch, "SETTLEMENT_CONTRACT")] with
  | Some name => Err (EMsg ("required config missing: " +:+ name))
  | None =>
      if cc_ChainID ch =? 0 then Err (EMsg "required config missing: CHAIN_ID")
      else if negb (bool_decide (cc_ProviderKeySource ch ∈ ["local"; "kms"])) then
        Err (EMsg "PROVIDER_KEY_SOURCE must be local or kms")
      else if bool_decide (cc_AttestorInstance ch = EmptyString) then Ok c
      else match NormalizeAttestorInstance (cc_AttestorInstance ch) with
           | Ok s => Ok (set_instance s c)
           | Err e => Err e
           | Panic => Panic
           end
  end.

(** What is left of loading once the settings are decoded.
    [internal/config/config.go:204-209 Load] *)
Definition Load (decoded : res Config) : res Config :=
  match decoded with Ok c => validate c | x => x end.

(** [internal/config/config.go:256-273 LoadBroker] *)
Definition LoadBroker (decoded : res Config) : res Config :=
  match decoded with
  | Ok c =>
      let ch := cfg_Chain c in
      match missing [(cc_RPCURL ch, "RPC_URL"); (cc_ContractAddress ch, "SETTLEMENT_CONTRACT"); (cc_TappRegistry ch, "TAPP_REGISTRY")] with
      | Some name => Err (EMsg ("required config missing: " +:+ name))
      | None => if cc_ChainID ch =? 0 then Err (EMsg "required config missing: CHAIN_ID") else Ok c
      end
  | x => x
  end.

(** The settings the warnings are about.
    [internal/config/config.go:325-337 Warnings] *)
Definition Warnings (c : Config) : list string :=
  let ch := cfg_Chain c in
  let attestor := negb (bool_decide (cc_AttestorAppID ch = EmptyString)) in
  (if attestor && negb (bool_decide (cc_ProviderKeySource ch = "kms")) then ["ATTESTOR_APP_ID without PROVIDER_KEY_SOURCE=kms"] else []) ++
  (if attestor && negb (cfg_TLSEnabled c) then ["ATTESTOR_APP_ID without TLS_ENABLED=true"] else []) ++
  (if negb (bool_decide (cc_AttestorInstance ch = EmptyString)) && negb attestor then ["ATTESTOR_INSTANCE without ATTESTOR_APP_ID"] else []).

(** ** Lemmas *)

Lemma cut_none_app sep s t : (forall c, c ∈ list_ascii_of_string s -> c <> sep) -> cut sep (s +:+ String sep t) = (s, Some t).
Proof.
  induction s as [|c s IH]; intros Hs.
  { change (EmptyString +:+ String sep t) with (String sep t). cbn [cut]. by rewrite bool_decide_true. }
  change (String c s +:+ String sep t) with (String c (s +:+ String sep t)). cbn [cut].
  rewrite bool_decide_false by (apply Hs; by left). rewrite IH by (intros d Hd; apply Hs; by right). done.
Qed.

(** A text that starts and ends in no blank is trimmed already. *)
Definition last_char (s : string) : option ascii := last (list_ascii_of_string s).

Lemma trim_right_id s : (forall c, last_char s = Some c -> is_space c = false) -> trim_right s = s.
Proof.
  unfold last_char. induction s as [|c s IH]; intros Hl; [done|]. cbn [trim_right]. destruct s as [|d s].
  - cbn. by rewrite (Hl c eq_refl).
  - rewrite IH; [done|]. intros e He. by apply Hl.
Qed.

Lemma TrimSpace_id s : (forall c s', s = String c s' -> is_space c = false) -> (forall c, last_char s = Some c -> is_space c = false) ->
  TrimSpace s = s.
Proof.
  intros Hh Hl. unfold TrimSpace. replace (trim_left s) with s; [by apply trim_right_id|].
  destruct s as [|c s]; [done|]. cbn [trim_left]. by rewrite (Hh c s eq_refl).
Qed.

Lemma list_ascii_app s t : list_ascii_of_string (s +:+ t) = list_ascii_of_string s ++ list_ascii_of_string t.
Proof. induction s as [|c s IH]; [done|]. exact (f_equal (cons c) IH). Qed.

Lemma last_char_app s c t : last_char (s +:+ String c t) = last_char (String c t).
Proof. unfold last_char. rewrite list_ascii_app. cbn [list_ascii_of_string]. by rewrite last_app_cons. Qed.

(** What a digit is not. *)
Definition digits_only (s : string) : Prop := forall c, c ∈ list_ascii_of_string s -> is_Some (digit_of c).

Lemma parse_digits_only acc s n : parse_digits acc s = Some n -> digits_only s.
Proof.
  revert acc. induction s as [|d s IH]; intros acc E c Hc; [by apply elem_of_nil in Hc|]. cbn in E.
  destruct (digit_of d) eqn:Ed; [|done]. apply elem_of_cons in Hc as [->|Hc]; [by rewrite Ed|]. by eapply IH.
Qed.

Lemma pretty_digits n : 0 <= n -> digits_only (pretty n) /\ parse_nat (pretty n) = Some n.
Proof.
  intros Hn. assert (pretty n = pretty (Z.to_N n)) as -> by (destruct n as [|p|p]; [done|done|lia]).
  pose proof (parse_pretty_N (Z.to_N n)) as E. rewrite Z2N.id in E by lia. split; [|done].
  unfold parse_nat in E. destruct (pretty _); [done|]. by eapply parse_digits_only.
Qed.

Lemma digit_no_space c : is_Some (digit_of c) -> is_space c = false /\ c <> ":"%char.
Proof. destruct c as [[] [] [] [] [] [] [] []]; intros [n E]; cbn in E; try discriminate E; by split. Qed.

Lemma hex_digit_no_space n : 0 <= n < 16 -> is_space (hex_digit n) = false.
Proof. intros Hn. assert (n ∈ seqZ 0 16) as Hi by (apply elem_of_seqZ; lia). revert Hi. unfold seqZ. cbn.
  repeat (intros [->|Hi]%elem_of_cons || (intros Hi; apply elem_of_nil in Hi; done) || revert Hi; try done). Qed.

Lemma hex_digits_chars w a c : c ∈ list_ascii_of_string (hex_digits w a) -> exists n, 0 <= n < 16 /\ c = hex_digit n.
Proof.
  revert a. induction w as [|w IH]; intros a Hc; cbn in Hc; [by apply elem_of_nil in Hc|].
  apply elem_of_cons in Hc as [->|Hc]; [|by eapply IH]. eexists. split; [apply mod16_range|done].
Qed.

Lemma IsHexAddress_addr_hex a : IsHexAddress (addr_hex a) = true.
Proof.
  unfold IsHexAddress, addr_hex, strip_0x. rewrite bool_decide_true by done. cbn [orb]. rewrite hex_digits_length, Nat.eqb_refl.
  cbn [andb]. unfold hex_text. apply forallb_forall. intros c Hc%list_elem_of_In. apply hex_digits_chars in Hc as (n & Hn & ->).
  by rewrite (proj1 (hex_digit_spec n Hn)).
Qed.

(** ** Properties *)

(** The stored form of an instance reads back as the same registration and
    owner. *)
Lemma instance_text_reads n a : 0 < n < 2 ^ 64 -> addr_ok a -> a <> 0 -> NormalizeAttestorInstance (instance_text n a) = Ok (instance_text n a).
Proof.
  intros Hn Ha Hz. destruct (pretty_digits n) as [Hd Hp]; [lia|]. unfold NormalizeAttestorInstance.
  assert (TrimSpace (instance_text n a) = instance_text n a) as ->.
  { unfold instance_text. change (":" +:+ addr_hex a) with (String ":" (addr_hex a)). apply TrimSpace_id.
    - intros c s E. apply digit_no_space, Hd. destruct (pretty n) as [|d t]; [done|]. injection E as <- _. by left.
    - intros d Hl. rewrite last_char_app in Hl. apply last_Some_elem_of in Hl. unfold addr_hex in Hl. cbn [list_ascii_of_string] in Hl.
      do 3 (apply elem_of_cons in Hl as [->|Hl]; [done|]). apply hex_digits_chars in Hl as (k & Hk & ->). by apply hex_digit_no_space. }
  unfold instance_text at 1. change (":" +:+ addr_hex a) with (String ":" (addr_hex a)).
  rewrite cut_none_app by (intros c Hc; by apply digit_no_space, Hd).
  unfold ParseUint. rewrite Hp. replace (n <? 2 ^ 64) with true by lia. replace (n =? 0) with false by lia.
  rewrite IsHexAddress_addr_hex, hex_to_address_addr_hex by done. replace (a =? 0) with false by lia. done.
Qed.

(** Whatever spelling the operator used, what is stored spells a positive
    64-bit registration time and a non-zero owner. *)
Lemma normalized_instance value s :
  NormalizeAttestorInstance value = Ok s -> exists n a, 0 < n < 2 ^ 64 /\ addr_ok a /\ a <> 0 /\ s = instance_text n a.
Proof.
  unfold NormalizeAttestorInstance. destruct (cut _ _) as [epoch owner]. destruct owner as [owner|]; [|done].
  destruct (ParseUint epoch) as [n|] eqn:En; [|done]. apply ParseUint_range in En.
  destruct (_ || _) eqn:Eb; [done|]. intros [= <-]. zbool. exists n, (hex_to_address owner).
  split; [lia|]. split; [apply hex_to_address_ok|]. split; [lia|done].
Qed.

(** A configuration the services can start with. *)
Record config_ok (c : Config) : Prop := {
  ok_api : cfg_APIURL c <> EmptyString;
  ok_key : cfg_AdminKey c <> EmptyString;
  ok_rpc : cc_RPCURL (cfg_Chain c) <> EmptyString;
  ok_contract : cc_ContractAddress (cfg_Chain c) <> EmptyString;
  ok_chain : cc_ChainID (cfg_Chain c) <> 0;
  ok_source : cc_ProviderKeySource (cfg_Chain c) = "local" \/ cc_ProviderKeySource (cfg_Chain c) = "kms";
  ok_instance : cc_AttestorInstance (cfg_Chain c) = EmptyString \/
    exists n a, 0 < n < 2 ^ 64 /\ addr_ok a /\ a <> 0 /\ cc_AttestorInstance (cfg_Chain c) = instance_text n a
}.

Lemma missing_none rs : missing rs = None <-> Forall (fun r => r.1 <> EmptyString) rs.
Proof.
  induction rs as [|[v n] rs IH]; cbn; [by split|]. rewrite Forall_cons, <- IH. cbn.
  destruct (bool_decide_reflect (v = EmptyString)) as [->|]; split; naive_solver.
Qed.

Lemma validate_ok c c' : validate c = Ok c' -> config_ok c'.
Proof.
  unfold validate. cbv zeta. case_match eqn:Em; [done|]. apply missing_none in Em.
  rewrite !Forall_cons in Em. cbn in Em. destruct Em as (? & ? & ? & ? & _).
  destruct (Z.eqb_spec (cc_ChainID (cfg_Chain c)) 0); [done|]. destruct (bool_decide_reflect (cc_ProviderKeySource (cfg_Chain c) ∈ ["local"; "kms"])) as [Hs|]; [|done].
  cbn [negb]. assert (cc_ProviderKeySource (cfg_Chain c) = "local" \/ cc_ProviderKeySource (cfg_Chain c) = "kms") by set_solver.
  destruct (bool_decide_reflect (cc_AttestorInstance (cfg_Chain c) = EmptyString)); [intros [= <-]; by split; auto|].
  case_match eqn:En; [|done..]. intros [= <-]. apply normalized_instance in En. split; cbn; auto.
Qed.

(** A well-formed configuration passes as it is. *)
Lemma validate_fixed c : config_ok c -> validate c = Ok c.
Proof.
  intros [? ? ? ? ? Hs Hi]. unfold validate. cbv zeta. rewrite (proj2 (missing_none _)) by (repeat constructor; done).
  destruct (Z.eqb_spec (cc_ChainID (cfg_Chain c)) 0); [done|].
  rewrite (bool_decide_true (cc_ProviderKeySource (cfg_Chain c) ∈ _)) by set_solver. cbn [negb].
  destruct (bool_decide_reflect (cc_AttestorInstance (cfg_Chain c) = EmptyString)); [done|].
  destruct Hi as [Hi|(k & a & Hk & Ha & Hz & E)]; [done|]. rewrite E, instance_text_reads by done. rewrite <- E.
  by destruct c as [? ? ? [] ?].
Qed.

(** A configuration that loads is well-formed: the required settings are
    there, the provider key comes from one of the two sources, and a registration
    instance of the attestor is in the one form that is stored, a positive 64-bit
    time and a non-zero owner, however the operator spelled it.  And that form is
    canonical: a configuration is well-formed exactly if validating it again
    changes nothing. *)
Theorem loaded_is_checked decoded c :
  Load decoded = Ok c -> config_ok c /\ (forall c', config_ok c' <-> validate c' = Ok c').
Proof.
  intros E. split.
  - destruct decoded as [d|e|]; [|done..]. by eapply validate_ok.
  - intros c'. split; [apply validate_fixed|apply validate_ok].
Qed.

Module ConfigExamples.

Definition typed : string := "  01700000000:0xABCDEF0000000000000000000000000000000001 ".

Lemma typed_normal : NormalizeAttestorInstance typed = Ok "1700000000:0xabcdef0000000000000000000000000000000001".
Proof. vm_compute. reflexivity. Qed.

Definition env0 : Config :=
  mkConfig "http://daytona" "key" (mkBillingConfig 60 0 "3" "0" "0" "50")
    (mkChainConfig "http://rpc" "0xaa" "0xbb" EmptyString "kms" EmptyString EmptyString "attestor" typed 16601) true.

Definition loaded : Config := set_instance "1700000000:0xabcdef0000000000000000000000000000000001" env0.

Lemma env0_loads : Load (Ok env0) = Ok loaded.
Proof. vm_compute. reflexivity. Qed.

Lemma loaded_is_checked_witness : config_ok loaded /\ (forall c', config_ok c' <-> validate c' = Ok c').
Proof. exact (loaded_is_checked (Ok env0) loaded env0_loads). Defined.

Example admins_of_list :
  AdminList (mkChainConfig EmptyString EmptyString EmptyString EmptyString EmptyString EmptyString " 0xAA, ,0xBB,0xaa" EmptyString EmptyString 1)
  = ["0xaa"; "0xbb"].
Proof. vm_compute. reflexivity. Qed.

End ConfigExamples.
