(* ===== verification/Daytona.v ===== *)
(** * The Daytona REST client (internal/daytona/client.go)

    Requests go through [http.Client.Do], an operation on the outside state;
    response bodies are given by what encoding/json decodes them to. *)

From stdpp Require Import pretty.
From S2P Require Import Prelude Hex Bytes Json Voucher Store.

(** [internal/daytona/client.go:15-23 Sandbox] *)
Record Sandbox := mkSandbox {
  sb_ID : string;
  sb_Name : string;
  sb_State : string;
  sb_Labels : gmap string string;
  sb_CPU : Z;
  sb_Memory : Z;
  sb_Snapshot : string
}.

(** [sn_BuildInfo] is the build reference of a snapshot built from a Dockerfile.
    [internal/daytona/client.go:26-43 Snapshot] *)
Record Snapshot := mkSnapshot {
  sn_ID : string;
  sn_Name : string;
  sn_ImageName : string;
  sn_Ref : string;
  sn_State : string;
  sn_CPU : Z;
  sn_Mem : Z;
  sn_Disk : Z;
  sn_Entrypoint : list string;
  sn_BuildInfo : option string
}.

(** A response body, decoded. *)
Inductive payload :=
| PSandbox (s : Sandbox)
| PSandboxPage (items : list Sandbox) (nextCursor : string)
| PSandboxes (items : list Sandbox)
| PSnapshot (s : Snapshot)
| PSnapshotPage (items : list Snapshot) (totalPages : Z)
| PSSH (token expiresAt command : string)
| POther.

(** One exchange under the admin bearer: method, path and body in, status and
    decoded body out. *)
Class DaytonaHTTP (C : Type) := do_http : string -> string -> body -> C -> res (Z * payload) * C.

(** [internal/daytona/client.go:90-90 ErrNotFound] *)
Definition ErrNotFound : rerr := EMsg "sandbox not found".

Section Client.
Context {C : Type} `{DaytonaHTTP C}.

(** [internal/daytona/client.go:66-85 do] *)
Definition request (method path : string) : M C (Z * payload) := chain_call (do_http method path BEmpty).

Definition sandbox_path (id : string) : string := "/api/sandbox/" +:+ id.

(** [internal/daytona/client.go:92-106 GetSandbox] *)
Definition GetSandbox (id : string) : M C Sandbox :=
  let! r := request "GET" (sandbox_path id) in
  let '(status, p) := r in
  if status =? 404 then fail ErrNotFound
  else if negb (status =? 200) then fail (EMsg "daytona GetSandbox: status")
  else match p with PSandbox s => ret s | _ => fail (EMsg "daytona GetSandbox: decode") end.

(** One page per unit of fuel. [internal/daytona/client.go:111-152 ListSandboxes] *)
Fixpoint list_sandboxes (fuel : nat) (cursor : string) (all : list Sandbox) : M C (list Sandbox) :=
  match fuel with
  | O => fail (EMsg "out of fuel")
  | S fuel' =>
      let path := "/api/sandbox?limit=200" +:+
        (if bool_decide (cursor = EmptyString) then EmptyString else "&cursor=" +:+ cursor) in
      let! r := request "GET" path in
      let '(status, p) := r in
      if negb (status =? 200) then fail (EMsg "daytona ListSandboxes: status")
      else match p with
           | PSandboxPage items next =>
               let all := all ++ items in
               if bool_decide (next = EmptyString) then ret all else list_sandboxes fuel' next all
           | PSandboxes flat => ret flat
           | _ => fail (EMsg "daytona ListSandboxes: decode")
           end
  end.

(** [internal/daytona/client.go:111-152 ListSandboxes] *)
Definition ListSandboxes (fuel : nat) : M C (list Sandbox) := list_sandboxes fuel EmptyString [].

(** [internal/daytona/client.go:154-164 StopSandbox] *)
Definition StopSandbox (id : string) : M C unit :=
  let! r := request "POST" (sandbox_path id +:+ "/stop") in
  if 300 <=? fst r then fail (EMsg "daytona StopSandbox: status") else ret tt.

(** [internal/daytona/client.go:169-179 ArchiveSandbox] *)
Definition ArchiveSandbox (id : string) : M C unit :=
  let! r := request "POST" (sandbox_path id +:+ "/archive") in
  if 300 <=? fst r then fail (EMsg "daytona ArchiveSandbox: status") else ret tt.

(** The access token's command, the field a caller rewrites.
    [internal/daytona/client.go:189-200 CreateSSHAccess] *)
Definition CreateSSHAccess (id : string) : M C (string * string * string) :=
  let! r := request "POST" (sandbox_path id +:+ "/ssh-access") in
  let '(status, p) := r in
  if negb (status =? 200) then fail (EMsg "daytona CreateSSHAccess: status")
  else match p with PSSH t e c => ret (t, e, c) | _ => fail (EMsg "daytona CreateSSHAccess: decode") end.

(** [internal/daytona/client.go:211-214 WaitStopped] *)
Definition stopped_state (state : string) : bool := bool_decide (state ∈ ["stopped"; "archived"; "error"]).

(** [polls] is after how many polls the context's deadline passes.
    [internal/daytona/client.go:205-221 WaitStopped] *)
Fixpoint WaitStopped (polls : nat) (id : string) : M C unit :=
  let! s := GetSandbox id in
  if stopped_state (sb_State s) then ret tt
  else match polls with
       | O => fail (EMsg "context deadline exceeded")
       | S polls' => sleep 2 ;; WaitStopped polls' id
       end.

(** [None] when not found. [internal/daytona/client.go:224-238 GetSnapshot] *)
Definition GetSnapshot (id : string) : M C (option Snapshot) :=
  let! r := request "GET" ("/api/snapshots/" +:+ id) in
  let '(status, p) := r in
  if status =? 404 then ret None
  else if negb (status =? 200) then fail (EMsg "daytona GetSnapshot: status")
  else match p with PSnapshot s => ret (Some s) | _ => fail (EMsg "daytona GetSnapshot: decode") end.

(** [internal/daytona/client.go:244-272 ListSnapshots] *)
Fixpoint list_snapshots (fuel : nat) (page : Z) (all : list Snapshot) : M C (list Snapshot) :=
  match fuel with
  | O => fail (EMsg "out of fuel")
  | S fuel' =>
      let! r := request "GET" ("/api/snapshots?limit=100&page=" +:+ pretty page) in
      let '(status, p) := r in
      if negb (status =? 200) then fail (EMsg "daytona list snapshots")
      else match p with
           | PSnapshotPage items totalPages =>
               let all := all ++ items in
               if bool_decide (items = []) || (totalPages <=? page) then ret all
               else list_snapshots fuel' (page + 1) all
           | _ => fail (EMsg "decode snapshots")
           end
  end.

(** [internal/daytona/client.go:244-272 ListSnapshots] *)
Definition ListSnapshots (fuel : nat) : M C (list Snapshot) := list_snapshots fuel 1 [].

End Client.

(** ** Listing *)

Section Listing.
Context {C : Type} `{DaytonaHTTP C}.
Implicit Types w : world C.

(** The server answers a GET of [path] with [p], whatever its state. *)
Definition serves (path : string) (p : payload) : Prop := forall c, exists c', do_http "GET" path BEmpty c = (Ok (200, p), c').

(** A cursor walk: [cursor] leads through [pages] to the last one. *)
Inductive cursor_walk : string -> list (list Sandbox) -> Prop :=
| walk_last cursor items :
    serves ("/api/sandbox?limit=200" +:+ (if bool_decide (cursor = EmptyString) then EmptyString else "&cursor=" +:+ cursor))
      (PSandboxPage items EmptyString) ->
    cursor_walk cursor [items]
| walk_next cursor items next pages :
    serves ("/api/sandbox?limit=200" +:+ (if bool_decide (cursor = EmptyString) then EmptyString else "&cursor=" +:+ cursor))
      (PSandboxPage items next) ->
    next <> EmptyString -> cursor_walk next pages -> cursor_walk cursor (items :: pages).

Lemma request_serves path p w : serves path p -> exists c', request "GET" path w = (Ok (200, p), set_chain c' w).
Proof. intros Hs. destruct (Hs (w_chain w)) as [c' E]. exists c'. unfold request, chain_call. by rewrite E. Qed.

Lemma list_sandboxes_walk cursor pages :
  cursor_walk cursor pages -> forall fuel all w, (length pages <= fuel)%nat ->
  exists w', list_sandboxes fuel cursor all w = (Ok (all ++ mjoin pages), w') /\ w_redis w' = w_redis w.
Proof.
  induction 1 as [cursor items Hs|cursor items next pages Hs Hne _ IH]; intros [|fuel] all w Hl; cbn in Hl; try lia;
    cbn [list_sandboxes]; destruct (request_serves _ _ w Hs) as [c' E]; rewrite (bind_ok _ _ _ _ _ E); cbn beta iota.
  - exists (set_chain c' w). split; [|reflexivity]. cbn [Z.eqb Pos.eqb negb mjoin list_join]. by rewrite bool_decide_true, app_nil_r.
  - cbn [Z.eqb Pos.eqb negb]. rewrite bool_decide_false by done. destruct (IH fuel (all ++ items) (set_chain c' w)) as (w' & E' & Hr); [lia|].
    exists w'. split; [|exact Hr]. rewrite E'. cbn [mjoin list_join]. by rewrite app_assoc.
Qed.

(** When the server's cursors lead through a finite series of pages, the
    client returns all of them in order, and as much fuel as there are pages is
    enough. *)
Theorem list_sandboxes_complete pages fuel w :
  cursor_walk EmptyString pages -> (length pages <= fuel)%nat ->
  exists w', ListSandboxes fuel w = (Ok (mjoin pages), w') /\ w_redis w' = w_redis w.
Proof. intros Hw Hf. exact (list_sandboxes_walk _ _ Hw fuel [] w Hf). Qed.

(** A wait that returns saw the sandbox in a stopped, archived or error
    state at its last look; a deadline or a failed lookup is an error. *)
Theorem wait_stopped_saw_it polls id : forall w w',
  WaitStopped polls id w = (Ok tt, w') ->
  exists w0 s, GetSandbox id w0 = (Ok s, w') /\ stopped_state (sb_State s) = true.
Proof.
  induction polls as [|polls IH]; intros w w'; cbn [WaitStopped]; unfold bind;
    destruct (GetSandbox id w) as [[s|e|] w1] eqn:E; try done; destruct (stopped_state (sb_State s)) eqn:Es; try done.
  - intros [= <-]. eauto.
  - intros [= <-]. eauto.
  - unfold sleep. apply IH.
Qed.

End Listing.

Module DaytonaExamples.

(** A server with three sandboxes on two pages; the first stops after one poll. *)
Definition sb (id state : string) : Sandbox := mkSandbox id id state ∅ 1 1 EmptyString.

#[export] Instance two_pages : DaytonaHTTP nat := fun method path _ c =>
  if bool_decide (path = "/api/sandbox?limit=200") then (Ok (200, PSandboxPage [sb "a" "started"; sb "b" "started"] "k1"), c)
  else if bool_decide (path = "/api/sandbox?limit=200&cursor=k1") then (Ok (200, PSandboxPage [sb "c" "stopped"] EmptyString), c)
  else (Ok (200, PSandbox (sb "a" (if (c =? 0)%nat then "started" else "stopped"))), S c).

Definition world1 : world nat := mkWorld empty_redis [] false [] 0 0%nat [] [].

Lemma list_sandboxes_complete_witness :
  exists w', ListSandboxes 2 world1 = (Ok [sb "a" "started"; sb "b" "started"; sb "c" "stopped"], w') /\ w_redis w' = empty_redis.
Proof.
  refine (list_sandboxes_complete [[sb "a" "started"; sb "b" "started"]; [sb "c" "stopped"]] 2 world1 _ _); [|cbn; lia].
  eapply (walk_next _ _ "k1"); [|done|eapply walk_last]; intros c; by exists c.
Defined.

Lemma wait_stopped_saw_it_witness :
  exists w0 s w', GetSandbox (C := nat) "a" w0 = (Ok s, w') /\ stopped_state (sb_State s) = true.
Proof.
  destruct (wait_stopped_saw_it 1 "a" world1 (WaitStopped 1 "a" world1).2) as (w0 & s & E & Hs); [vm_compute; reflexivity|].
  eauto.
Defined.

End DaytonaExamples.
