(* ===== verification/Seal.v ===== *)
(** * The certificate of a sealed sandbox (internal/proxy: seal.go, eip712.go)

    A sealed create gets a fresh key pair and a certificate, signed by the
    provider key, that binds the issuer scope, the seal id, the public key, the
    image digest and the time.  Key generation and randomness are operations on
    the outside state. *)

From stdpp Require Import pretty.
From S2P Require Import Prelude Hex Bytes Crypto Json CreatePolicy Guard Voucher Store.

(** ** Hex text ([encoding/hex]) *)

(** [hex.EncodeToString]. *)
Fixpoint hex_encode (b : bytes) : string :=
  match b with
  | [] => EmptyString
  | x :: b' => String (hex_digit (x / 16)) (String (hex_digit (x mod 16)) (hex_encode b'))
  end.

(** [hex.DecodeString]: an odd length or a character that is no digit is an error. *)
Fixpoint hex_decode (s : string) : option bytes :=
  match s with
  | EmptyString => Some []
  | String c (String d s') =>
      match hex_value c, hex_value d, hex_decode s' with
      | Some h, Some l, Some b => Some (h * 16 + l :: b)
      | _, _, _ => None
      end
  | _ => None
  end.

(** [strings.TrimPrefix]. *)
Definition trim_prefix (pre s : string) : string :=
  if starts_with pre s then substring (String.length pre) (String.length s - String.length pre) s else s.

(** ** UTF-8 ([utf8.ValidString]) *)

Definition in_range (lo hi : nat) (c : ascii) : bool := let n := nat_of_ascii c in (lo <=? n)%nat && (n <=? hi)%nat.

Fixpoint utf8_valid (s : string) : bool :=
  match s with
  | EmptyString => true
  | String a s1 =>
      if in_range 0 127 a then utf8_valid s1
      else match s1 with
      | String b s2 =>
          if in_range 194 223 a then in_range 128 191 b && utf8_valid s2
          else match s2 with
          | String c s3 =>
              if in_range 224 239 a then
                in_range (if in_range 224 224 a then 160 else 128) (if in_range 237 237 a then 159 else 191) b
                && in_range 128 191 c && utf8_valid s3
              else match s3 with
              | String d s4 =>
                  in_range 240 244 a
                  && in_range (if in_range 240 240 a then 144 else 128) (if in_range 244 244 a then 143 else 191) b
                  && in_range 128 191 c && in_range 128 191 d && utf8_valid s4
              | EmptyString => false
              end
          | EmptyString => false
          end
      | EmptyString => false
      end
  end.

(** ** EIP-712, as the proxy encodes it *)

Section Eip712.
Context `{Keccak}.

(** [internal/proxy/eip712.go:17-19 eip712DomainTypeHash] *)
Definition eip712DomainTypeHash : bytes :=
  keccak256 (bytes_of_string "EIP712Domain(string name,string version,uint256 chainId,address verifyingContract)").

(** [internal/proxy/eip712.go:21-29 eip712DomainSeparator] *)
Definition domain_words (name version : string) (chainID : Z) (contract : addr) : bytes :=
  let encoded := replicate 160 0 in
  let encoded := copy_slice 0 32 eip712DomainTypeHash encoded in
  let encoded := copy_slice 32 64 (keccak256 (bytes_of_string name)) encoded in
  let encoded := copy_slice 64 96 (keccak256 (bytes_of_string version)) encoded in
  let encoded := copy_slice 96 128 (be_bytes 32 chainID) encoded in
  copy_slice 140 160 (be_bytes 20 contract) encoded.

(** [internal/proxy/eip712.go:21-29 eip712DomainSeparator] *)
Definition eip712DomainSeparator (name version : string) (chainID : Z) (contract : addr) : bytes :=
  keccak256 (domain_words name version chainID contract).

(** [internal/proxy/eip712.go:32-34 eip712Digest] *)
Definition eip712Digest (domainSeparator structHash : bytes) : bytes :=
  keccak256 ([25; 1] ++ domainSeparator ++ structHash).

(** The word at [lo] of a zeroed buffer.
    [internal/proxy/eip712.go:37-39 putUint64Word] *)
Definition putUint64Word (lo : nat) (v : Z) (encoded : bytes) : bytes := copy_slice (lo + 24) (lo + 32) (be_bytes 8 v) encoded.

(** [internal/proxy/eip712.go:43-50 signDigest] *)
Definition signDigest `{Ecdsa} (digest : bytes) (key : Z) : res string :=
  res_bind (ecdsa_sign key digest) (fun sig => res_bind (bump_v sig) (fun sig => Ok ("0x" +:+ hex_encode sig))).

End Eip712.

(** ** The certificate *)

(** Container keys and randomness; [gen_key] is [crypto.GenerateKey],
    [rand_seal] a fill of 32 random bytes, [compress_pub] the compressed public
    key of a private one, [pub_ok] whether [crypto.DecompressPubkey] accepts. *)
Class KeyGen (C : Type) := {
  gen_key : C -> res Z * C;
  rand_seal : C -> res bytes * C;
  compress_pub : Z -> bytes;
  pub_ok : bytes -> bool
}.

Class KeyGenLaws (C : Type) `{KeyGen C} := {
  compress_length : forall k, length (compress_pub k) = 33%nat;
  compress_bytes : forall k, Forall byte_ok (compress_pub k);
  compress_pub_ok : forall k, pub_ok (compress_pub k) = true;
  rand_length : forall c b c', rand_seal c = (Ok b, c') -> length b = 32%nat /\ Forall byte_ok b
}.

(** [internal/proxy/seal.go:79-84 SealIssuer] *)
Record SealIssuer := mkIssuer { is_ChainID : Z; is_RegistryAddress : addr; is_AppID : string; is_RegisteredAt : Z }.

(** [internal/proxy/seal.go:86-94 validate] *)
Definition validate_issuer (s : SealIssuer) : res unit :=
  if (is_ChainID s =? 0) || (is_RegistryAddress s =? 0) || (is_RegisteredAt s =? 0)
  then Err (EMsg "invalid sealed attestation issuer scope")
  else if bool_decide (String.length (is_AppID s) = 0%nat) || (256 <? String.length (is_AppID s))%nat || negb (utf8_valid (is_AppID s))
  then Err (EMsg "sealed issuer app_id must be 1..256 UTF-8 bytes")
  else Ok tt.

(** [internal/proxy/seal.go:99-107 ImageAttestation] *)
Record ImageAttestation := mkAtt {
  at_Version : Z;
  at_Issuer : SealIssuer;
  at_SealID : string;
  at_PublicKey : string;
  at_ImageHash : string;
  at_Timestamp : Z;
  at_Signature : string
}.

(** [internal/proxy/seal.go:24-24 imageAttestationVersion] *)
Definition imageAttestationVersion : Z := 3.

Section Certificate.
Context `{Keccak} `{Ecdsa} {C : Type} `{KeyGen C}.

(** [internal/proxy/seal.go:30-32 imageAttestationTypeHash] *)
Definition imageAttestationTypeHash : bytes :=
  keccak256 (bytes_of_string
    "ImageAttestation(string appId,uint64 registeredAt,bytes32 sealId,bytes containerPubkey,bytes32 imageHash,uint64 issuedAt)").

(** [internal/proxy/seal.go:109-111 domainSeparator] *)
Definition attestation_domain (a : ImageAttestation) : bytes :=
  eip712DomainSeparator "0G Sandbox ImageAttestation" "3" (is_ChainID (at_Issuer a)) (is_RegistryAddress (at_Issuer a)).

(** The seven words of the struct. [internal/proxy/seal.go:138-146 structHash] *)
Definition attestation_words (a : ImageAttestation) (sealID pub image : bytes) : bytes :=
  let encoded := replicate 224 0 in
  let encoded := copy_slice 0 32 imageAttestationTypeHash encoded in
  let encoded := copy_slice 32 64 (keccak256 (bytes_of_string (is_AppID (at_Issuer a)))) encoded in
  let encoded := putUint64Word 64 (is_RegisteredAt (at_Issuer a)) encoded in
  let encoded := copy_slice 96 128 sealID encoded in
  let encoded := copy_slice 128 160 (keccak256 pub) encoded in
  let encoded := copy_slice 160 192 image encoded in
  putUint64Word 192 (at_Timestamp a) encoded.

(** [internal/proxy/seal.go:113-147 structHash] *)
Definition attestation_struct (a : ImageAttestation) : res bytes :=
  if negb (at_Version a =? imageAttestationVersion) then Err (EMsg "unsupported sealed attestation version")
  else res_bind (validate_issuer (at_Issuer a)) (fun _ =>
  match hex_decode (at_SealID a) with
  | Some sealID =>
      if negb (bool_decide (length sealID = 32%nat)) || negb (bool_decide (at_SealID a = to_lower (at_SealID a)))
      then Err (EMsg "seal_id must be 64 lowercase hex chars")
      else match hex_decode (trim_prefix "0x" (at_PublicKey a)) with
      | Some pub =>
          if negb (starts_with "0x" (at_PublicKey a)) || negb (bool_decide (length pub = 33%nat))
          then Err (EMsg "pubkey must be a 0x-prefixed compressed public key")
          else if negb (pub_ok pub) then Err (EMsg "invalid container public key")
          else match hex_decode (trim_prefix "sha256:" (at_ImageHash a)) with
          | Some image =>
              if negb (starts_with "sha256:" (at_ImageHash a)) || negb (bool_decide (length image = 32%nat))
                 || negb (bool_decide (at_ImageHash a = to_lower (at_ImageHash a)))
              then Err (EMsg "image_hash must be sha256: followed by 64 lowercase hex chars")
              else if at_Timestamp a =? 0 then Err (EMsg "attestation timestamp must be positive")
              else Ok (keccak256 (attestation_words a sealID pub image))
          | None => Err (EMsg "image_hash must be sha256: followed by 64 lowercase hex chars")
          end
      | None => Err (EMsg "pubkey must be a 0x-prefixed compressed public key")
      end
  | None => Err (EMsg "seal_id must be 64 lowercase hex chars")
  end).

(** [internal/proxy/seal.go:149-155 signingDigest] *)
Definition signingDigest (a : ImageAttestation) : res bytes :=
  res_bind (attestation_struct a) (fun s => Ok (eip712Digest (attestation_domain a) s)).

(** The signed certificate; its JSON is [attestation_json].
    [internal/proxy/seal.go:159-176 issueImageAttestation] *)
Definition issueImageAttestation (issuer : SealIssuer) (sealID pubKey imageHash : string) (issuedAt key : Z)
  : res ImageAttestation :=
  let a := mkAtt imageAttestationVersion issuer sealID pubKey imageHash issuedAt EmptyString in
  res_bind (signingDigest a) (fun digest =>
  res_bind (signDigest digest key) (fun sig =>
  Ok (mkAtt imageAttestationVersion issuer sealID pubKey imageHash issuedAt sig))).

End Certificate.

(** ** JSON text of the certificate *)

(** [encoding/json]'s quoting of a valid UTF-8 string. *)
Fixpoint json_escape (s : string) : string :=
  match s with
  | EmptyString => EmptyString
  | String "226" (String "128" (String "168" s')) => "\u2028" +:+ json_escape s'
  | String "226" (String "128" (String "169" s')) => "\u2029" +:+ json_escape s'
  | String c s' =>
      let n := nat_of_ascii c in
      (if (n =? 34)%nat || (n =? 92)%nat then String "\" (String c EmptyString)
       else if (n =? 8)%nat then "\b" else if (n =? 12)%nat then "\f"
       else if (n =? 10)%nat then "\n" else if (n =? 13)%nat then "\r" else if (n =? 9)%nat then "\t"
       else if (n <? 32)%nat || (n =? 60)%nat || (n =? 62)%nat || (n =? 38)%nat
       then "\u00" +:+ hex_encode [Z.of_nat n]
       else String c EmptyString) +:+ json_escape s'
  end.

Definition json_quote (s : string) : string := String "034" (json_escape s +:+ String "034" EmptyString).

(** A member name and its value's text. *)
Definition json_field (name text : string) : string := json_quote name +:+ ":" +:+ text.

(** Field order is the wire order. [internal/proxy/seal.go:171-175 issueImageAttestation] *)
Definition attestation_json (a : ImageAttestation) : string :=
  "{" +:+ json_field "version" (pretty (at_Version a)) +:+ "," +:+
  json_field "chain_id" (pretty (is_ChainID (at_Issuer a))) +:+ "," +:+
  json_field "registry_address" (json_quote (addr_hex (is_RegistryAddress (at_Issuer a)))) +:+ "," +:+
  json_field "app_id" (json_quote (is_AppID (at_Issuer a))) +:+ "," +:+
  json_field "registered_at" (pretty (is_RegisteredAt (at_Issuer a))) +:+ "," +:+
  json_field "seal_id" (json_quote (at_SealID a)) +:+ "," +:+
  json_field "pubkey" (json_quote (at_PublicKey a)) +:+ "," +:+
  json_field "image_hash" (json_quote (at_ImageHash a)) +:+ "," +:+
  json_field "ts" (pretty (at_Timestamp a)) +:+ "," +:+
  json_field "signature" (json_quote (at_Signature a)) +:+ "}".

(** ** Injection into a create body *)

(** [internal/proxy/seal.go:46-50 sealedCreateEnv] *)
Definition sealedCreateEnv : list string :=
  ["ATTESTOR_URL"; "SEAL_BOOT_TICKET"; "SEAL_SECRET_ENV"; "API_KEY"; "CHAIN_RPC_URL"; "AGENTIC_ID_ADDR";
   "VERIFIED_FEEDBACK_ADDR"; "INDEXER_URL"; "AGENT_FRAMEWORK"].

(** [internal/proxy/seal.go:54-55 ErrCallerEnvKey] *)
Definition ErrCallerEnvKey : rerr := EMsg "a sealed create's env may hold only the allowed keys; SANDBOX_* keys are set by the provider".

(** [internal/proxy/seal.go:22-22 sealIDLabel] *)
Definition sealIDLabel : string := "0g-seal-id".

Definition sandbox_key (k : string) : bool := starts_with "SANDBOX_" k.

(** The keys are visited in sorted order; which offending one is named is left
    out. [internal/proxy/seal.go:59-75 filterSealedCallerEnv] *)
Definition filterSealedCallerEnv (env : jmap) : res jmap :=
  if existsb (fun k => negb (bool_decide (k ∈ sealedCreateEnv)) && negb (sandbox_key k)) (map_to_list env).*1
  then Err ErrCallerEnvKey
  else Ok (filter (fun kv => kv.1 ∈ sealedCreateEnv \/ sandbox_key kv.1 = false) env).

Definition seal_id_malformed : rerr := EMsg "seal_id must be 64 hex chars".

(** The issuer fields a caller may not pass. [internal/proxy/seal.go:231-233 InjectSeal] *)
Definition issuer_fields : list string := ["version"; "chain_id"; "registry_address"; "app_id"; "registered_at"].

Definition strip_issuer_scope (m : jmap) : jmap := foldl (fun m f => delete f m) m issuer_fields.

(** The env the container starts with. [internal/proxy/seal.go:264-283 InjectSeal] *)
Definition seal_env (proxyDomain privHex attestation : string) (m : jmap) : res jmap :=
  res_bind (filterSealedCallerEnv (default ∅ (as_map (m !! "env")))) (fun env =>
  let env := <["SANDBOX_SEAL_ATTESTATION" := JStr attestation]> (<[sealKeyEnv := JStr privHex]> env) in
  Ok (if bool_decide (proxyDomain = EmptyString) then env else <["SANDBOX_PROXY_DOMAIN" := JStr proxyDomain]> env)).

Section Inject.
Context `{Keccak} `{Ecdsa} {C : Type} `{KeyGen C}.

(** [internal/proxy/seal.go:216-228 InjectSeal] *)
Definition choose_seal_id (m : jmap) : M C string :=
  let v := as_string (m !! "seal_id") in
  if negb (bool_decide (v = EmptyString)) then
    match hex_decode v with
    | Some _ => if bool_decide (String.length v = 64%nat) then ret (to_lower v) else fail seal_id_malformed
    | None => fail seal_id_malformed
    end
  else let! raw := chain_call rand_seal in ret (hex_encode raw).

(** [internal/proxy/seal.go:198-286 InjectSeal] *)
Definition InjectSeal (proxyDomain : string) (b : body) (appKey : option Z) (imageHash : string) (issuer : SealIssuer)
  : M C body :=
  match appKey with
  | None => fail (EMsg "KMS app signer not configured")
  | Some appKey =>
      let! _ := lift_res (validate_issuer issuer) in
      let! mm := lift_res (unmarshal_map b) in
      let! sealID := choose_seal_id (map_or_nil mm) in
      let m := strip_issuer_scope (delete "seal_id" (map_or_nil mm)) in
      let! privKey := chain_call gen_key in
      let pubKey := "0x" +:+ hex_encode (compress_pub privKey) in
      let privHex := "0x" +:+ hex_encode (be_bytes 32 privKey) in
      let! now := gets w_now in
      let! attestation := lift_res (issueImageAttestation issuer sealID pubKey imageHash (now mod 2 ^ 64) appKey) in
      match mm with
      | None => panic
      | Some _ =>
          let labels := <[sealIDLabel := JStr sealID]> (default ∅ (as_map (m !! "labels"))) in
          let m := <["labels" := JObj (map_members labels)]> m in
          let! env := lift_res (seal_env proxyDomain privHex (attestation_json attestation) m) in
          ret (marshal_map (<["env" := JObj (map_members env)]> m))
      end
  end.

End Inject.

(** ** Lemmas *)

Lemma hex_decode_encode b : Forall byte_ok b -> hex_decode (hex_encode b) = Some b.
Proof.
  induction 1 as [|x b Hx _ IH]; [done|]. cbn [hex_encode hex_decode].
  destruct (hex_digit_spec (x / 16)) as [-> _]; [unfold byte_ok in Hx; split; [apply Z.div_pos; lia|apply Z.div_lt_upper_bound; lia]|].
  destruct (hex_digit_spec (x mod 16)) as [-> _]; [apply mod16_range|]. rewrite IH. do 2 f_equal.
  rewrite (Z.div_mod x 16) at 3 by lia. lia.
Qed.

Lemma hex_encode_length b : String.length (hex_encode b) = (2 * length b)%nat.
Proof. induction b as [|x b IH]; [done|]. cbn [hex_encode String.length length]. rewrite IH. lia. Qed.

Lemma to_lower_hex_encode b : Forall byte_ok b -> to_lower (hex_encode b) = hex_encode b.
Proof.
  induction 1 as [|x b Hx _ IH]; [done|]. cbn [hex_encode to_lower]. rewrite IH.
  destruct (hex_digit_spec (x / 16)) as [_ ->]; [unfold byte_ok in Hx; split; [apply Z.div_pos; lia|apply Z.div_lt_upper_bound; lia]|].
  destruct (hex_digit_spec (x mod 16)) as [_ ->]; [apply mod16_range|]. done.
Qed.

Section CertificateLemmas.
Context `{KeccakLaws} `{EcdsaLaws} {C : Type} `{KeyGen C}.

Lemma word64 v : 0 <= v < 2 ^ 64 -> be_bytes 32 v = replicate 24 0 ++ be_bytes 8 v.
Proof. intros Hv. apply (be_bytes_pad 24 8). cbn. lia. Qed.

(** The buffer is Solidity's [abi.encode] of the struct's words. *)
Lemma attestation_words_abi a sealID pub image :
  length sealID = 32%nat -> length image = 32%nat ->
  0 <= is_RegisteredAt (at_Issuer a) < 2 ^ 64 -> 0 <= at_Timestamp a < 2 ^ 64 ->
  attestation_words a sealID pub image =
    imageAttestationTypeHash ++ keccak256 (bytes_of_string (is_AppID (at_Issuer a))) ++
    be_bytes 32 (is_RegisteredAt (at_Issuer a)) ++ sealID ++ keccak256 pub ++ image ++ be_bytes 32 (at_Timestamp a).
Proof.
  intros Hs Hi Hr Ht. unfold attestation_words, putUint64Word. cbn [Nat.add].
  rewrite (word64 (is_RegisteredAt _)), (word64 (at_Timestamp a)) by done. unfold imageAttestationTypeHash.
  generalize (bytes_of_string "ImageAttestation(string appId,uint64 registeredAt,bytes32 sealId,bytes containerPubkey,bytes32 imageHash,uint64 issuedAt)").
  generalize (bytes_of_string (is_AppID (at_Issuer a))). intros s1 s2.
  change (replicate 224 0) with ([] ++ replicate 224 0).
  do 7 (rewrite copy_slice_step by (autorewrite with sandbox_rw; rewrite ?keccak_length, ?length_replicate, ?Hs, ?Hi; cbn; lia);
    autorewrite with sandbox_rw; rewrite ?keccak_length, ?length_replicate, ?Hs, ?Hi; cbn [length Nat.sub Nat.add app]).
  cbn [replicate app Nat.sub]. rewrite ?app_nil_r, <- ?app_assoc. reflexivity.
Qed.

Lemma signDigest_inv digest key s :
  signDigest digest key = Ok s ->
  exists sig, s = "0x" +:+ hex_encode sig /\ length sig = 65%nat /\ sig_to_addr digest (normalize_sig sig) = Ok (key_addr key).
Proof.
  unfold signDigest. destruct (ecdsa_sign key digest) as [sig| |] eqn:Es; cbn [res_bind]; [|done..].
  destruct (bump_normalize _ _ _ Es) as (sig' & -> & Hn & Hl). cbn [res_bind]. intros [= <-].
  exists sig'. split; [done|]. split; [done|]. rewrite Hn. by apply sign_recover.
Qed.

(** What a verifier may conclude from a certificate. *)
Record certified (issuer : SealIssuer) (sealID pubKey imageHash : string) (issuedAt key : Z) (a : ImageAttestation) : Prop := {
  cert_fields : at_Version a = 3 /\ at_Issuer a = issuer /\ at_SealID a = sealID /\ at_PublicKey a = pubKey /\
    at_ImageHash a = imageHash /\ at_Timestamp a = issuedAt;
  cert_formats : (exists b, hex_decode sealID = Some b /\ length b = 32%nat /\ to_lower sealID = sealID) /\
    (exists b, hex_decode (trim_prefix "sha256:" imageHash) = Some b /\ length b = 32%nat) /\
    validate_issuer issuer = Ok tt /\ issuedAt <> 0;
  cert_verifies : exists d sig, signingDigest a = Ok d /\ at_Signature a = "0x" +:+ hex_encode sig /\
    length sig = 65%nat /\ sig_to_addr d (normalize_sig sig) = Ok (key_addr key)
}.

Lemma signingDigest_signature a sig :
  signingDigest (mkAtt (at_Version a) (at_Issuer a) (at_SealID a) (at_PublicKey a) (at_ImageHash a) (at_Timestamp a) sig) = signingDigest a.
Proof. reflexivity. Qed.

Lemma issued_certified issuer sealID pubKey imageHash issuedAt key a :
  issueImageAttestation issuer sealID pubKey imageHash issuedAt key = Ok a ->
  certified issuer sealID pubKey imageHash issuedAt key a.
Proof.
  unfold issueImageAttestation. cbv zeta. set (a0 := mkAtt _ _ _ _ _ _ EmptyString).
  destruct (signingDigest a0) as [d| |] eqn:Ed; cbn [res_bind]; [|done..].
  destruct (signDigest d key) as [s| |] eqn:Es; cbn [res_bind]; [|done..]. intros [= <-].
  destruct (signDigest_inv _ _ _ Es) as (sig & -> & Hl & Hr). split; [done| |].
  - clear -Ed. unfold signingDigest, attestation_struct, a0 in Ed. cbn [at_Version at_Issuer at_SealID at_PublicKey at_ImageHash at_Timestamp] in Ed.
    destruct (negb (imageAttestationVersion =? _)); [done|]. destruct (validate_issuer issuer) as [[]| |]; [|done..]. cbn [res_bind] in Ed.
    destruct (hex_decode sealID) as [b|]; [|done]. repeat case_bool_decide; try done. cbn [negb orb] in Ed.
    all: destruct (hex_decode (trim_prefix "0x" pubKey)) as [pk|]; [|done].
    all: destruct (negb (starts_with "0x" pubKey) || _); [done|]. all: destruct (negb (pub_ok pk)); [done|].
    all: destruct (hex_decode (trim_prefix "sha256:" imageHash)) as [im|]; [|done].
    all: destruct (negb (starts_with "sha256:" imageHash) || _ || _) eqn:Ei; [done|].
    all: destruct (Z.eqb_spec issuedAt 0) as [|Hz]; [done|].
    all: split; [exists b; by rewrite <- H1|]. all: split; [|done].
    all: exists im; split; [done|]. all: apply orb_false_iff in Ei as [Ei _]; apply orb_false_iff in Ei as [_ Ei]; by zbool.
  - exists d, sig. by rewrite <- Ed.
Qed.

(** An issued certificate carries exactly the given scope, seal id, key,
    image digest and time, in well-formed shape, and its signature recovers to
    the provider key's address over the certificate's own EIP-712 digest. *)
Theorem certificate_verifies issuer sealID pubKey imageHash issuedAt key a :
  issueImageAttestation issuer sealID pubKey imageHash issuedAt key = Ok a ->
  certified issuer sealID pubKey imageHash issuedAt key a.
Proof. apply issued_certified. Qed.

End CertificateLemmas.

(** A literal is not in a list of literals. *)
Ltac not_in := let Hin := fresh in intros Hin; repeat (apply elem_of_cons in Hin as [Hin|Hin]; [discriminate Hin|]); by apply elem_of_nil in Hin.

Section InjectLemmas.
Context `{KeccakLaws} `{EcdsaLaws} {C : Type} `{KeyGen C}.

Lemma filterSealedCallerEnv_ok env env' :
  filterSealedCallerEnv env = Ok env' ->
  (forall k, k ∈ sealedCreateEnv -> env' !! k = env !! k) /\
  (forall k, is_Some (env' !! k) -> k ∈ sealedCreateEnv).
Proof.
  unfold filterSealedCallerEnv. destruct (existsb _ _) eqn:E; [done|]. intros [= <-]. split.
  - intros k Hk. destruct (env !! k) as [v|] eqn:Ev.
    + apply map_lookup_filter_Some. split; [done|by left].
    + apply map_lookup_filter_None. by left.
  - intros k [v Hv]. apply map_lookup_filter_Some in Hv as [Hv [Hk|Hk]]; [done|]. cbn in *.
    destruct (decide (k ∈ sealedCreateEnv)) as [?|Hne]; [done|].
    apply not_true_iff_false in E. destruct E. apply existsb_exists. exists k. split; [apply list_elem_of_In, elem_of_map_keys; eauto|].
    rewrite Hk, bool_decide_false by done. done.
Qed.

Definition provider_env : list string := ["SANDBOX_SEAL_KEY"; "SANDBOX_SEAL_ATTESTATION"; "SANDBOX_PROXY_DOMAIN"].

Lemma seal_env_ok pd priv att m env :
  seal_env pd priv att m = Ok env ->
  env !! sealKeyEnv = Some (JStr priv) /\ env !! "SANDBOX_SEAL_ATTESTATION" = Some (JStr att) /\
  (forall k, k ∈ sealedCreateEnv -> env !! k = default ∅ (as_map (m !! "env")) !! k) /\
  (forall k, is_Some (env !! k) -> k ∈ sealedCreateEnv ++ provider_env).
Proof.
  unfold seal_env. destruct (filterSealedCallerEnv _) as [env0| |] eqn:Ef; cbn [res_bind]; [|done..].
  destruct (filterSealedCallerEnv_ok _ _ Ef) as [Hc Ha]. intros [= <-].
  assert (forall k, k ∈ sealedCreateEnv -> k <> sealKeyEnv /\ k <> "SANDBOX_SEAL_ATTESTATION" /\ k <> "SANDBOX_PROXY_DOMAIN") as Hne.
  { intros k Hk. repeat (apply elem_of_cons in Hk as [->|Hk]; [done|]). by apply elem_of_nil in Hk. }
  assert (forall k, k ∈ provider_env -> k ∈ sealedCreateEnv ++ provider_env) as Hp by (intros; apply elem_of_app; by right).
  case_bool_decide; (split; [|split; [|split]]).
  1, 5: rewrite ?(lookup_insert_ne _ "SANDBOX_PROXY_DOMAIN"), lookup_insert_ne by done; apply lookup_insert_eq.
  1, 4: rewrite ?(lookup_insert_ne _ "SANDBOX_PROXY_DOMAIN") by done; apply lookup_insert_eq.
  1, 3: intros k Hk; destruct (Hne k Hk) as (? & ? & ?); rewrite !lookup_insert_ne by done; by apply Hc.
  all: intros k [v Hv]; repeat (apply lookup_insert_Some in Hv as [[<- _]|[_ Hv]]; [apply Hp; in_list|]).
  all: apply elem_of_app; left; apply Ha; eauto.
Qed.

Lemma strip_issuer_scope_lookup m k :
  strip_issuer_scope m !! k = if decide (k ∈ issuer_fields) then None else m !! k.
Proof.
  unfold strip_issuer_scope, issuer_fields. cbn [foldl]. case_decide as Hk.
  - repeat (apply elem_of_cons in Hk as [->|Hk]; [repeat (rewrite lookup_delete_eq || rewrite lookup_delete_ne by done); done|]).
    by apply elem_of_nil in Hk.
  - rewrite !elem_of_cons, elem_of_nil in Hk. by rewrite !lookup_delete_ne by naive_solver.
Qed.

(** The body a sealed create sends. *)
Record sealed_body (issuer : SealIssuer) (imageHash proxyDomain : string) (appKey now : Z) (m out : jmap) : Prop := {
  sealed_cert : exists priv sealID att env ls,
    certified issuer sealID ("0x" +:+ hex_encode (compress_pub priv)) imageHash now appKey att /\
    out !! "env" = Some (JObj env) /\ out !! "labels" = Some (JObj ls) /\
    members_map ls !! sealIDLabel = Some (JStr sealID) /\
    members_map env !! sealKeyEnv = Some (JStr ("0x" +:+ hex_encode (be_bytes 32 priv))) /\
    members_map env !! "SANDBOX_SEAL_ATTESTATION" = Some (JStr (attestation_json att)) /\
    (forall k, k ∈ sealedCreateEnv -> members_map env !! k = default ∅ (as_map (m !! "env")) !! k) /\
    (forall k, is_Some (members_map env !! k) -> k ∈ sealedCreateEnv ++ provider_env);
  sealed_other_labels : forall ls k, out !! "labels" = Some (JObj ls) -> k <> sealIDLabel ->
    members_map ls !! k = default ∅ (as_map (m !! "labels")) !! k;
  sealed_scope_gone : forall k, k ∈ "seal_id" :: issuer_fields -> out !! k = None;
  sealed_rest : forall k, k ∉ "seal_id" :: "env" :: "labels" :: issuer_fields ->
    out !! k = m !! k
}.

Lemma chain_call_now {A} (f : C -> res A * C) (w : world C) : w_now (chain_call f w).2 = w_now w.
Proof. unfold chain_call. by destruct (f (w_chain w)). Qed.

Lemma choose_seal_id_now m (w : world C) : w_now (choose_seal_id m w).2 = w_now w.
Proof.
  unfold choose_seal_id. destruct (negb _); [destruct (hex_decode _); [destruct (bool_decide _)|]; done|].
  unfold bind. pose proof (chain_call_now rand_seal w) as Hn. destruct (chain_call rand_seal w) as [[b|e|] w1]; done.
Qed.

Lemma inject_seal_spec pd ms appKey imageHash issuer (w w' : world C) out (m := members_map ms) :
  InjectSeal pd (BText (JObj ms) false) (Some appKey) imageHash issuer w = (Ok out, w') ->
  exists m', out = marshal_map m' /\ sealed_body issuer imageHash pd appKey (w_now w mod 2 ^ 64) m m'.
Proof.
  unfold InjectSeal. intros (u & w1 & Hv & Hx)%bind_Ok. injection Hv as _ <-.
  apply bind_Ok in Hx as (mm & w2 & Hm & Hx). injection Hm as <- <-. unfold map_or_nil in Hx. cbn [default from_option] in Hx. unfold id in Hx. fold m in Hx.
  apply bind_Ok in Hx as (sealID & w3 & Hs & Hx). pose proof (choose_seal_id_now m w) as Hn3. rewrite Hs in Hn3. cbn in Hn3. clear Hs.
  cbv zeta in Hx. apply bind_Ok in Hx as (priv & w4 & Hg & Hx). pose proof (chain_call_now gen_key w3) as Hn4. rewrite Hg in Hn4. cbn in Hn4. clear Hg.
  apply bind_Ok in Hx as (now & w5 & Hw & Hx). injection Hw as <- <-.
  apply bind_Ok in Hx as (att & w6 & Ha & Hx). injection Ha as Ha <-. rewrite Hn4, Hn3 in Ha. apply issued_certified in Ha.
  apply bind_Ok in Hx as (env & w7 & He & Hx). injection He as He <-. injection Hx as <- _.
  set (m1 := strip_issuer_scope (delete "seal_id" m)) in *.
  assert (forall k, m1 !! k = if decide (k ∈ "seal_id" :: issuer_fields) then None else m !! k) as Hm1.
  { intros k. unfold m1. rewrite strip_issuer_scope_lookup. destruct (decide (k = "seal_id")) as [->|Hne].
    - rewrite lookup_delete_eq, (decide_True (P := _ ∈ _ :: _)) by left. by case_decide.
    - rewrite lookup_delete_ne by done. destruct (decide (k ∈ issuer_fields)) as [Hin|Hin].
      + by rewrite decide_True by (by right).
      + rewrite decide_False; [done|]. by intros [?|?]%elem_of_cons. }
  set (L := <[sealIDLabel := JStr sealID]> _) in *. apply seal_env_ok in He as (Hk & Hat & Hc & Hall).
  rewrite lookup_insert_ne, Hm1, decide_False in Hc by first [done|not_in].
  eexists. split; [reflexivity|]. split.
  - exists priv, sealID, att, (map_members env), (map_members L). rewrite lookup_insert_eq, lookup_insert_ne, lookup_insert_eq by done.
    rewrite !members_map_map_members. split; [done|]. split; [done|]. split; [done|]. split; [by unfold L; rewrite lookup_insert_eq|done].
  - intros ls k. rewrite lookup_insert_ne, lookup_insert_eq by done. intros [= <-] Hk'. rewrite members_map_map_members.
    unfold L. rewrite lookup_insert_ne by done. by rewrite Hm1, decide_False by not_in.
  - intros k Hin. assert (k <> "env" /\ k <> "labels") as [??] by (split; intros ->; repeat (apply elem_of_cons in Hin as [?|Hin]; [done|]); by apply elem_of_nil in Hin).
    by rewrite !lookup_insert_ne, Hm1, decide_True.
  - intros k Hin. rewrite !not_elem_of_cons in Hin. destruct Hin as (Hx1 & Hx2 & Hx3 & Hx4).
    rewrite !lookup_insert_ne, Hm1, decide_False; [done| |done..]. by intros [?|?]%elem_of_cons.
Qed.

(** C21: an injected sealed create starts the container with exactly one private
    key and a certificate, signed by the provider key, for that key, the given
    image digest, the authenticated issuer scope and the labelled seal id; of
    the caller's variables only the allowed ones reach it, unchanged, and no
    issuer field of the request survives. *)
Theorem inject_seal_contract pd ms appKey imageHash issuer (w w' : world C) out (m := members_map ms) :
  InjectSeal pd (BText (JObj ms) false) (Some appKey) imageHash issuer w = (Ok out, w') ->
  exists m', out = marshal_map m' /\ sealed_body issuer imageHash pd appKey (w_now w mod 2 ^ 64) m m'.
Proof. apply inject_seal_spec. Qed.

End InjectLemmas.

Module SealExamples.
Import Toy.

(** Keys count up; a compressed key is a marker byte and the key. *)
#[export] Instance toy_keygen : KeyGen Z := {|
  gen_key := fun c => (Ok c, c + 1);
  rand_seal := fun c => (Ok (be_bytes 32 (c * 1000003)), c + 1);
  compress_pub := fun k => 2 :: be_bytes 32 k;
  pub_ok := fun b => bool_decide (length b = 33%nat)
|}.

#[export] Instance toy_keygen_laws : KeyGenLaws Z.
Proof.
  split; cbn [compress_pub pub_ok rand_seal toy_keygen].
  - done.
  - intros k. constructor; [unfold byte_ok; lia|apply be_bytes_ok].
  - done.
  - intros c b c' E. apply (f_equal fst) in E. cbn [fst] in E. apply (inj Ok) in E. subst b.
    split; [apply be_bytes_length|apply be_bytes_ok].
Qed.

Definition issuer0 : SealIssuer := mkIssuer 16602 4660 "my-app" 77.

Definition image0 : string := "sha256:" +:+ hex_encode (be_bytes 32 123456789).

Definition seal0 : string := hex_encode (be_bytes 32 42).

Lemma certificate_verifies_witness :
  exists a, issueImageAttestation (C := Z) issuer0 seal0 ("0x" +:+ hex_encode (compress_pub 5)) image0 1700000000 9 = Ok a /\
  certified (C := Z) issuer0 seal0 ("0x" +:+ hex_encode (compress_pub 5)) image0 1700000000 9 a.
Proof.
  eexists. split; [vm_compute; reflexivity|]. apply certificate_verifies. vm_compute. reflexivity.
Defined.

Definition sealed_request : list (string * json) :=
  [("snapshot", JStr "agent"); ("seal_id", JStr (hex_encode (be_bytes 32 42))); ("chain_id", JNum 1 false);
   ("env", JObj [("API_KEY", JStr "k"); ("SANDBOX_SEAL_KEY", JStr "0xmine")])].

Definition seal_world : world Z := mkWorld empty_redis [] false [] 1700000000 5 [] [].

Lemma seal_world_ok :
  match InjectSeal "proxy.example" (BText (JObj sealed_request) false) (Some 9) image0 issuer0 seal_world with
  | (Ok _, _) => true | _ => false end = true.
Proof. vm_compute. reflexivity. Qed.

Lemma inject_seal_contract_witness :
  exists out w', InjectSeal "proxy.example" (BText (JObj sealed_request) false) (Some 9) image0 issuer0 seal_world = (Ok out, w') /\
  exists m', out = marshal_map m' /\
    sealed_body (C := Z) issuer0 image0 "proxy.example" 9 1700000000 (members_map sealed_request) m'.
Proof.
  pose proof seal_world_ok as Hok.
  destruct (InjectSeal "proxy.example" (BText (JObj sealed_request) false) (Some 9) image0 issuer0 seal_world) as [[out|e|] w'] eqn:E;
    [|discriminate Hok|discriminate Hok]. clear Hok.
  exists out, w'. split; [reflexivity|].
  exact (inject_seal_contract "proxy.example" sealed_request 9 image0 issuer0 seal_world w' out E).
Defined.

(** A variable outside the allowed ones refuses the create. *)
Example foreign_env_refused :
  filterSealedCallerEnv {["API_KEY" := JStr "k"; "LD_PRELOAD" := JStr "/x.so"]} = Err ErrCallerEnvKey.
Proof. vm_compute. reflexivity. Qed.

End SealExamples.
