(* ===== verification/Registry.v ===== *)
(** * The image registry (internal/registry: digest.go, puller.go, gc.go)

    go-containerregistry's [crane] and [name] packages are classes with the
    behaviour the code relies on: a tag names at most one manifest, pushing or
    tagging sets that one tag, and a delete removes a manifest together with
    every tag of its repository that points at it. *)

From S2P Require Import Prelude Hex Bytes Json Guard Voucher Store Daytona Seal CreatePolicy.

(** [name.ParseReference(ref, name.Insecure)]: the repository's full name, its
    registry host and, for a tag reference, the tag. *)
Record image_ref := mkRef { ref_repo : string; ref_registry : string; ref_tag : option string }.

(** [strict_tag] is [name.NewTag(.., StrictValidation)] succeeding. *)
Class ImageNames := {
  ParseReference : string -> option image_ref;
  strict_tag : string -> bool
}.

(** [internal/registry/digest.go:58-65 ImageConfig] *)
Record ImageConfig := mkImageConfig { ic_Digest : string; ic_Entrypoint : list string }.

(** A HEAD of a tag: its digest, a 404, or a failure. *)
Inductive head := HeadIs (digest : string) | HeadNotFound | HeadErr.

Class Crane (C : Type) := {
  crane_Digest : string -> C -> res string * C;
  crane_Config : string -> C -> res ImageConfig * C;
  crane_Head : string -> C -> head * C;
  crane_Copy : string -> string -> C -> res unit * C;
  crane_Tag : string -> string -> C -> res unit * C;
  crane_ListTags : string -> C -> res (list string) * C;
  crane_Delete : string -> C -> res unit * C
}.

(** [internal/registry/digest.go:22-22 ErrTagSharesManifest] *)
Definition ErrTagSharesManifest : rerr := EMsg "tag shares manifest with another tag".

(** [internal/registry/puller.go:21-21 ErrTagExists] *)
Definition ErrTagExists : rerr := EMsg "target tag already exists with different content; import under a new tag".

(** [internal/registry/puller.go:25-25 ErrReservedTarget] *)
Definition ErrReservedTarget : rerr := EMsg "target is reserved".

(** [internal/registry/puller.go:18-18 internalImportPrefix] *)
Definition internalImportPrefix : string := "registry:6000/daytona/".

Section Registry.
Context `{ImageNames} {C : Type} `{Crane C}.

(** [name.ParseReference] with its error. *)
Definition parse_ref (imageRef : string) : res image_ref :=
  match ParseReference imageRef with Some r => Ok r | None => Err (EMsg "parse image ref") end.

(** [internal/registry/digest.go:29-35 PinRef] *)
Definition PinRef (imageRef digest : string) : res string :=
  res_bind (parse_ref imageRef) (fun r => Ok (ref_repo r +:+ "@" +:+ digest)).

(** [internal/registry/digest.go:145-147 isInternalRegistry] *)
Definition isInternalRegistry (host : string) : bool := starts_with "registry:" host || starts_with "localhost:" host.

(** Whether the registry is spoken to in plain HTTP.
    [internal/registry/digest.go:88-105 craneOptions] *)
Definition craneOptions (imageRef : string) : res bool :=
  res_bind (parse_ref imageRef) (fun r => Ok (isInternalRegistry (ref_registry r))).

(** [internal/registry/digest.go:45-55 GetDigest] *)
Definition GetDigest (imageRef : string) : M C string :=
  let! _ := lift_res (craneOptions imageRef) in chain_call (crane_Digest imageRef).

(** [internal/registry/digest.go:72-86 GetConfig] *)
Definition GetConfig (imageRef : string) : M C ImageConfig :=
  let! _ := lift_res (craneOptions imageRef) in chain_call (crane_Config imageRef).

(** [internal/registry/digest.go:119-143 TagByDigest] *)
Definition TagByDigest (imageRef : string) : M C string :=
  let! digest := GetDigest imageRef in
  let! r := lift_res (parse_ref imageRef) in
  let short := trim_prefix "sha256:" digest in
  if (String.length short <? 16)%nat then fail (EMsg "digest too short")
  else
    let newTag := "d-" +:+ substring 0 16 short in
    let! _ := chain_call (crane_Tag imageRef newTag) in
    ret (ref_repo r +:+ ":" +:+ newTag).

(** [internal/registry/digest.go:184-198 DeleteTag] *)
Fixpoint probe_siblings (repo tag target : string) (tags : list string) : M C unit :=
  match tags with
  | [] => ret tt
  | sibling :: tags' =>
      if bool_decide (sibling = tag) then probe_siblings repo tag target tags'
      else
        let! d := chain_call (crane_Digest (repo +:+ ":" +:+ sibling)) in
        if bool_decide (d = target) then fail ErrTagSharesManifest else probe_siblings repo tag target tags'
  end.

(** [internal/registry/digest.go:160-205 DeleteTag] *)
Definition DeleteTag (imageRef : string) : M C unit :=
  let! r := lift_res (parse_ref imageRef) in
  match ref_tag r with
  | None => fail (EMsg "ref is not a tag form")
  | Some tag =>
      let! target := chain_call (crane_Digest imageRef) in
      let! tags := chain_call (crane_ListTags (ref_repo r)) in
      probe_siblings (ref_repo r) tag target tags ;;
      chain_call (crane_Delete (ref_repo r +:+ "@" +:+ target))
  end.

(** [internal/registry/digest.go:219-220 IsDerivedTag] *)
Definition derived_tag (tag : string) : bool := starts_with "d-" tag.

(** [internal/registry/digest.go:210-220 IsDerivedTag] *)
Definition IsDerivedTag (imageRef : string) : bool :=
  match ParseReference imageRef with
  | Some r => match ref_tag r with Some tag => derived_tag tag | None => false end
  | None => false
  end.

(** [internal/registry/puller.go:109-119 reservedTarget] *)
Definition reservedTarget (targetName targetTag : string) : bool :=
  derived_tag targetTag || existsb (starts_with "daytona-") (split_slash targetName).

(** What a registry is shown. *)
Inductive Authenticator := Anonymous | FromConfig (username password : string).

(** [internal/registry/puller.go:123-127 splitKeychain] *)
Record splitKeychain := mkKeychain { sk_srcRef : string; sk_srcAuth : Authenticator }.

(** The credentials for requests to the registry [host].
    [internal/registry/puller.go:129-140 Resolve] *)
Definition Resolve (k : splitKeychain) (host : string) : Authenticator :=
  match ParseReference (sk_srcRef k) with
  | None => Anonymous
  | Some srcRef =>
      if bool_decide (host = ref_registry srcRef) && negb (bool_decide (sk_srcRef k = EmptyString)) then sk_srcAuth k else Anonymous
  end.

(** The keychain every registry request of an import goes through; what the
    registries answer to it is theirs.
    [internal/registry/puller.go:63-80 copyTo] *)
Definition import_keychain (src username password : string) : splitKeychain :=
  mkKeychain src (if bool_decide (username = EmptyString) then Anonymous else FromConfig username password).

(** The credentials of an import are shown to the source's registry and to no
    other, the internal one included. *)
Lemma credentials_stay src username password host :
  Resolve (import_keychain src username password) host <> Anonymous ->
  exists r, ParseReference src = Some r /\ host = ref_registry r /\
    Resolve (import_keychain src username password) host = FromConfig username password.
Proof.
  unfold Resolve, import_keychain. cbn. destruct (ParseReference src) as [r|]; [|done].
  case_bool_decide; [|done]. cbn. destruct (bool_decide (src = EmptyString)); [done|]. cbn. case_bool_decide; [done|]. eauto.
Qed.

(** Imports hold [copyMu], so one runs at a time.
    [internal/registry/puller.go:44-104 copyTo] *)
Definition copyTo (prefix src targetName targetTag : string) : M C string :=
  let dst := prefix +:+ targetName +:+ ":" +:+ targetTag in
  if bool_decide (targetTag = "latest") then fail (EMsg "tag 'latest' is not allowed")
  else if negb (strict_tag dst) then fail (EMsg "invalid target")
  else if reservedTarget targetName targetTag then fail ErrReservedTarget
  else match ParseReference src with
       | None => fail (EMsg "invalid source image")
       | Some _ =>
           let! existing := chain_call (fun c => let '(h, c') := crane_Head dst c in (Ok h, c')) in
           match existing with
           | HeadIs digest =>
               let! srcDigest := chain_call (crane_Digest src) in
               if bool_decide (srcDigest = digest) then ret dst else fail ErrTagExists
           | HeadErr => fail (EMsg "check target")
           | HeadNotFound => chain_call (crane_Copy src dst) ;; ret dst
           end
       end.

(** [internal/registry/puller.go:40-42 Copy] *)
Definition Copy (src targetName targetTag : string) : M C string := copyTo internalImportPrefix src targetName targetTag.

(** The last segment of a repository name. [internal/registry/gc.go:49-55 ListDerivedTags] *)
Definition skipped_repo (repo : string) : bool :=
  let leaf := default repo (last (split_slash repo)) in
  starts_with "daytona-" leaf || starts_with "backup-" leaf.

(** The refs of one repository. [internal/registry/gc.go:77-82 ListDerivedTags] *)
Definition derived_refs (host repo : string) (tags : list string) : list string :=
  (fun tag => host +:+ "/" +:+ repo +:+ ":" +:+ tag) <$> filter (fun tag => derived_tag tag = true) tags.

(** [catalog] and [tags_of] are the registry's two HTTP reads.
    [internal/registry/gc.go:48-84 ListDerivedTags] *)
Fixpoint derived_of (host : string) (tags_of : string -> C -> res (list string) * C) (repos : list string) : M C (list string) :=
  match repos with
  | [] => ret []
  | repo :: repos' =>
      if skipped_repo repo then derived_of host tags_of repos'
      else
        let! tags := chain_call (tags_of repo) in
        let! rest := derived_of host tags_of repos' in
        ret (derived_refs host repo tags ++ rest)
  end.

(** [internal/registry/gc.go:22-85 ListDerivedTags] *)
Definition ListDerivedTags (host : string) (catalog : C -> res (list string) * C)
  (tags_of : string -> C -> res (list string) * C) : M C (list string) :=
  let! repos := chain_call catalog in derived_of host tags_of repos.

End Registry.

(** ** What the registry guarantees *)

(** [tag_at c repo tag] is the digest a tag points at. *)
Class CraneLaws (C : Type) `{ImageNames} `{Crane C} := {
  tag_at : C -> string -> string -> option string;
  digest_reads : forall ref c d c', crane_Digest ref c = (d, c') -> c' = c;
  digest_is : forall ref r tag c d, ParseReference ref = Some r -> ref_tag r = Some tag ->
    (crane_Digest ref c).1 = Ok d -> tag_at c (ref_repo r) tag = Some d;
  list_reads : forall repo c ts c', crane_ListTags repo c = (ts, c') -> c' = c;
  list_all : forall repo c ts, (crane_ListTags repo c).1 = Ok ts -> forall tag, is_Some (tag_at c repo tag) -> tag ∈ ts;
  head_reads : forall ref c h c', crane_Head ref c = (h, c') -> c' = c;
  head_is : forall ref r tag c, ParseReference ref = Some r -> ref_tag r = Some tag ->
    (crane_Head ref c).1 = HeadNotFound -> tag_at c (ref_repo r) tag = None;
  copy_sets : forall src dst r tag c x c', crane_Copy src dst c = (x, c') -> ParseReference dst = Some r -> ref_tag r = Some tag ->
    forall repo' tag', (repo', tag') <> (ref_repo r, tag) -> tag_at c' repo' tag' = tag_at c repo' tag';
  delete_sets : forall repo d c x c', crane_Delete (repo +:+ "@" +:+ d) c = (x, c') ->
    forall repo' tag', (repo' <> repo \/ tag_at c repo' tag' <> Some d) -> tag_at c' repo' tag' = tag_at c repo' tag';
  listed_parse : forall repo c ts, (crane_ListTags repo c).1 = Ok ts -> forall tag, tag ∈ ts ->
    exists r, ParseReference (repo +:+ ":" +:+ tag) = Some r /\ ref_repo r = repo /\ ref_tag r = Some tag;
  strict_parse : forall s, strict_tag s = true -> exists r tag, ParseReference s = Some r /\ ref_tag r = Some tag
}.

Section Laws.
Context {C : Type} `{CL : CraneLaws C}.
Implicit Types w : world C.

Lemma chain_reads {A} (f : C -> res A * C) w x w' :
  (forall c d c', f c = (d, c') -> c' = c) -> chain_call f w = (x, w') -> w' = w /\ x = (f (w_chain w)).1.
Proof.
  intros Hf. unfold chain_call. destruct (f (w_chain w)) as [a c'] eqn:E. intros [= <- <-].
  rewrite (Hf _ _ _ E). split; [by destruct w|done].
Qed.

Lemma probe_siblings_reads repo tag target tags : forall w x w',
  probe_siblings repo tag target tags w = (x, w') -> w' = w.
Proof.
  induction tags as [|s tags IH]; intros w x w'; cbn [probe_siblings]; [by intros [= _ <-]|].
  case_bool_decide; [apply IH|]. unfold bind. destruct (chain_call _ w) as [[d|e|] w1] eqn:E;
    (apply chain_reads in E as [-> _]; [|by intros; eapply digest_reads]); [|by intros [= _ <-]..].
  case_bool_decide; [by intros [= _ <-]|apply IH].
Qed.

Lemma probe_siblings_ok repo tag target tags w w' :
  (forall s, s ∈ tags -> exists r, ParseReference (repo +:+ ":" +:+ s) = Some r /\ ref_repo r = repo /\ ref_tag r = Some s) ->
  probe_siblings repo tag target tags w = (Ok tt, w') ->
  forall s, s ∈ tags -> s <> tag -> tag_at (w_chain w) repo s <> Some target.
Proof.
  intros Hparse. induction tags as [|s tags IH]; intros Hok x Hx Hne; [by apply elem_of_nil in Hx|].
  assert (forall s, s ∈ tags -> exists r, ParseReference (repo +:+ ":" +:+ s) = Some r /\ ref_repo r = repo /\ ref_tag r = Some s) as Hp'
    by (intros; apply Hparse; by right).
  cbn [probe_siblings] in Hok. case_bool_decide as Hs.
  - apply elem_of_cons in Hx as [->|Hx]; [done|by apply IH].
  - unfold bind in Hok. destruct (chain_call _ w) as [[d|e|] w1] eqn:E; [|done|done].
    apply chain_reads in E as [-> Ed]; [|by intros; eapply digest_reads].
    case_bool_decide as Hd; [done|]. apply elem_of_cons in Hx as [->|Hx]; [|by apply IH].
    destruct (Hparse s) as (r & Hp & Hr & Ht); [left|]. pose proof (digest_is _ _ _ _ _ Hp Ht (eq_sym Ed)) as Hat.
    rewrite Hr in Hat. congruence.
Qed.

Lemma delete_tag_spares imageRef r tag w x w' :
  ParseReference imageRef = Some r -> ref_tag r = Some tag -> DeleteTag imageRef w = (x, w') ->
  forall repo' tag', (repo', tag') <> (ref_repo r, tag) -> tag_at (w_chain w') repo' tag' = tag_at (w_chain w) repo' tag'.
Proof.
  intros Hp Ht. unfold DeleteTag, bind, parse_ref, lift_res. rewrite Hp, Ht.
  destruct (chain_call (crane_Digest imageRef) w) as [[d|e|] w1] eqn:E1;
    (apply chain_reads in E1 as [-> Ed]; [|by intros; eapply digest_reads]); [|by intros [= _ <-]|by intros [= _ <-]].
  destruct (chain_call (crane_ListTags _) w) as [[ts|e|] w2] eqn:E2;
    (apply chain_reads in E2 as [-> Els]; [|by intros; eapply list_reads]); [|by intros [= _ <-]|by intros [= _ <-]].
  destruct (probe_siblings _ _ _ ts w) as [[[]|e|] w3] eqn:E3; pose proof (probe_siblings_reads _ _ _ _ _ _ _ E3) as ->;
    [|by intros [= _ <-]|by intros [= _ <-]].
  unfold chain_call. destruct (crane_Delete _ (w_chain w)) as [y c'] eqn:Ec. intros [= _ <-] repo' tag' Hne. cbn.
  eapply delete_sets; [exact Ec|]. destruct (decide (repo' = ref_repo r)) as [->|]; [right|by left].
  destruct (decide (tag_at (w_chain w) (ref_repo r) tag' = Some d)) as [Hat|]; [exfalso|done].
  refine (probe_siblings_ok _ _ _ _ _ _ (listed_parse _ _ _ (eq_sym Els)) E3 tag' _ _ Hat); [|congruence].
  eapply list_all; [by symmetry|eauto].
Qed.

(** Cleaning up a tag takes no other tag with it: whatever the outcome, every
    other tag of the registry still points at the manifest it did. *)
Theorem delete_tag_spares_others imageRef r tag w x w' :
  ParseReference imageRef = Some r -> ref_tag r = Some tag -> DeleteTag imageRef w = (x, w') ->
  forall repo' tag', (repo', tag') <> (ref_repo r, tag) -> tag_at (w_chain w') repo' tag' = tag_at (w_chain w) repo' tag'.
Proof. apply delete_tag_spares. Qed.

(** Imports are immutable: whatever an import does or how it fails, every tag
    that existed still points at the same manifest, and an import of a target
    reserved for Daytona or for snapshot registration leaves the registry alone. *)
Theorem imports_immutable src targetName targetTag w x w' :
  Copy src targetName targetTag w = (x, w') ->
  (forall repo tag d, tag_at (w_chain w) repo tag = Some d -> tag_at (w_chain w') repo tag = Some d) /\
  (reservedTarget targetName targetTag = true -> w' = w /\ exists e, x = Err e).
Proof.
  unfold Copy, copyTo. case_bool_decide; [intros [= <- <-]; eauto|].
  set (dst := internalImportPrefix +:+ _). destruct (strict_tag dst) eqn:Es; cbn [negb]; [|intros [= <- <-]; eauto].
  destruct (reservedTarget targetName targetTag); [intros [= <- <-]; eauto|].
  destruct (ParseReference src); [|intros [= <- <-]; eauto]. intros Hx. split; [|done]. revert Hx. unfold bind.
  destruct (chain_call _ w) as [[h|e|] w1] eqn:E1.
  - assert (w1 = w /\ h = (crane_Head dst (w_chain w)).1) as [-> Eh].
    { unfold chain_call in E1. destruct (crane_Head dst (w_chain w)) as [h' c'] eqn:Eh. injection E1 as <- <-.
      rewrite (head_reads _ _ _ _ Eh). by destruct w. }
    clear E1. destruct h as [d| |]; [| |by intros [= _ <-]].
    + destruct (chain_call (crane_Digest src) w) as [[sd|e|] w2] eqn:E2;
        (apply chain_reads in E2 as [-> _]; [|by intros; eapply digest_reads]); [|by intros [= _ <-]..].
      case_bool_decide; by intros [= _ <-].
    + destruct (strict_parse _ Es) as (r & tag & Hp & Ht). pose proof (head_is _ _ _ _ Hp Ht (eq_sym Eh)) as Hnone.
      unfold chain_call. destruct (crane_Copy src dst (w_chain w)) as [y c'] eqn:Ec.
      intros Hx repo tag' d Hd. assert (w' = set_chain c' w) as -> by (destruct y; by injection Hx).
      cbn. rewrite (copy_sets _ _ _ _ _ _ _ Ec Hp Ht); [done|]. intros [= -> ->]. congruence.
  - unfold chain_call in E1. destruct (crane_Head dst (w_chain w)) as [h' c']. done.
  - unfold chain_call in E1. destruct (crane_Head dst (w_chain w)) as [h' c']. done.
Qed.

(** The collector's candidates are exactly the derived tags of the repositories
    that are not Daytona's own. *)
Lemma derived_of_elem host tags_of repos : forall w refs w',
  derived_of host tags_of repos w = (Ok refs, w') ->
  (forall repo c ts c', tags_of repo c = (ts, c') -> c' = c) ->
  forall ref, ref ∈ refs <-> exists repo ts, repo ∈ repos /\ skipped_repo repo = false /\
    (tags_of repo (w_chain w)).1 = Ok ts /\ ref ∈ derived_refs host repo ts.
Proof.
  induction repos as [|repo repos IH]; intros w refs w' Hok Hr ref; cbn [derived_of] in Hok.
  { injection Hok as <- <-. split; [by intros ?%elem_of_nil|]. intros (? & ? & Hin & _). by apply elem_of_nil in Hin. }
  destruct (skipped_repo repo) eqn:Es.
  - rewrite (IH _ _ _ Hok Hr). setoid_rewrite elem_of_cons. split; intros (x & ts & Hin & Hs & Hrest); [naive_solver|].
    destruct Hin as [->|Hin]; [congruence|naive_solver].
  - unfold bind in Hok. destruct (chain_call (tags_of repo) w) as [[ts|e|] w1] eqn:E1; [|done|done].
    apply chain_reads in E1 as [-> Et]; [|by intros; eapply Hr].
    destruct (derived_of host tags_of repos w) as [[rest|e|] w2] eqn:E2; [|done|done]. injection Hok as <- <-.
    rewrite elem_of_app, (IH _ _ _ E2 Hr). setoid_rewrite elem_of_cons. split.
    + intros [Hin|(x & ts' & ?)]; [exists repo, ts; naive_solver|naive_solver].
    + intros (x & ts' & [->|Hin] & Hs & Hts & Href); [left; congruence|right; naive_solver].
Qed.

End Laws.

(** ** A concrete registry *)

Module RegistryExamples.

(** References of one repository "r" with one-character tags; the state maps a
    tag to its digest. *)
Definition parse_toy (s : string) : option image_ref :=
  match s with
  | String "r" (String ":" (String c EmptyString)) => Some (mkRef "r" "registry:6000" (Some (String c EmptyString)))
  | _ => None
  end.

Abbreviation toy_registry := (gmap string string).

#[export] Instance toy_names : ImageNames := {| ParseReference := parse_toy; strict_tag := fun s => bool_decide (is_Some (parse_toy s)) |}.

Definition toy_digest (ref : string) (c : toy_registry) : res string :=
  match parse_toy ref with
  | Some r => match c !! default EmptyString (ref_tag r) with Some d => Ok d | None => Err (EMsg "not found") end
  | None => Err (EMsg "parse")
  end.

Definition toy_head (ref : string) (c : toy_registry) : head :=
  match parse_toy ref with
  | Some r => match c !! default EmptyString (ref_tag r) with Some d => HeadIs d | None => HeadNotFound end
  | None => HeadErr
  end.

Definition single (s : string) : bool := (String.length s =? 1)%nat.

#[export] Instance toy_crane : Crane toy_registry := {|
  crane_Digest := fun ref c => (toy_digest ref c, c);
  crane_Config := fun ref c => (Err EIO, c);
  crane_Head := fun ref c => (toy_head ref c, c);
  crane_Copy := fun src dst c => match toy_digest src c, parse_toy dst with
    | Ok d, Some r => (Ok tt, <[default EmptyString (ref_tag r) := d]> c) | _, _ => (Err EIO, c) end;
  crane_Tag := fun src t c => match toy_digest src c with Ok d => (Ok tt, <[t := d]> c) | _ => (Err EIO, c) end;
  crane_ListTags := fun repo c =>
    (if bool_decide (repo = "r") then Ok (filter (fun t => single t = true) (map_to_list c).*1) else Err EIO, c);
  crane_Delete := fun ref c => match ref with
    | String "r" (String "@" d) => (Ok tt, if contains_char "@" d then c else filter (fun kv => kv.2 <> d) c)
    | _ => (Err EIO, c) end
|}.

Definition toy_tag_at (c : toy_registry) (repo tag : string) : option string :=
  if bool_decide (repo = "r") && single tag then c !! tag else None.

Lemma parse_toy_inv s r tag : parse_toy s = Some r -> ref_tag r = Some tag -> r = mkRef "r" "registry:6000" (Some tag) /\ single tag = true.
Proof.
  unfold parse_toy. destruct s as [|c1 [|c2 [|c3 [|c4 s]]]]; repeat case_match; try done; intros [= <-] [= <-]; done.
Qed.

Lemma contains_at y d : contains_char "@" (y +:+ String "@" d) = true.
Proof.
  induction y as [|c y IH]; [done|]. change (String c y +:+ String "@" d) with (String c (y +:+ String "@" d)).
  cbn [contains_char]. by rewrite IH, orb_true_r.
Qed.

Lemma toy_delete_spares repo d (c : toy_registry) x c' :
  crane_Delete (repo +:+ "@" +:+ d) c = (x, c') ->
  forall repo' tag', (repo' <> repo \/ toy_tag_at c repo' tag' <> Some d) -> toy_tag_at c' repo' tag' = toy_tag_at c repo' tag'.
Proof.
  intros E repo' tag' Hne. unfold toy_tag_at in *. destruct (bool_decide (repo' = "r") && single tag') eqn:Eb; [|done].
  zbool. subst repo'. cbn [crane_Delete toy_crane] in E. destruct repo as [|c1 [|c2 y]].
  - by injection E as _ <-.
  - destruct (decide (c1 = "r"%char)) as [->|Hc].
    + change ("r" +:+ "@" +:+ d) with (String "r" (String "@" d)) in E. cbn beta iota in E. injection E as _ <-.
      destruct (contains_char "@" d); [done|]. destruct Hne as [?|Hne]; [done|].
      destruct (c !! tag') as [v|] eqn:Ev.
      * apply map_lookup_filter_Some. split; [done|]. cbn. congruence.
      * apply map_lookup_filter_None. by left.
    + change (String c1 EmptyString +:+ "@" +:+ d) with (String c1 (String "@" d)) in E. clear Hne.
      destruct c1 as [[] [] [] [] [] [] [] []]; try (by injection E as _ <-).
  - change (String c1 (String c2 y) +:+ "@" +:+ d) with (String c1 (String c2 (y +:+ String "@" d))) in E.
    pose proof (contains_at y d) as Hat. clear Hne.
    destruct c1 as [[] [] [] [] [] [] [] []]; try (by injection E as _ <-).
    destruct c2 as [[] [] [] [] [] [] [] []]; try (by injection E as _ <-); rewrite Hat in E; by injection E as _ <-.
Qed.

#[export] Instance toy_crane_laws : CraneLaws toy_registry.
Proof.
  refine {| tag_at := toy_tag_at |}.
  - by intros ref c d c' [= _ <-].
  - intros ref r tag c d Hp Ht. cbn. unfold toy_digest. change (parse_toy ref = Some r) in Hp. rewrite Hp. destruct (parse_toy_inv _ _ _ Hp Ht) as [-> Hs].
    unfold toy_tag_at. cbn. rewrite Hs. destruct (c !! tag); [by intros [= ->]|done].
  - by intros repo c ts c' [= _ <-].
  - intros repo c ts. cbn. case_bool_decide as Hr; [|done]. intros [= <-] tag [v Hv]. unfold toy_tag_at in Hv.
    destruct (single tag) eqn:Es; [|by rewrite andb_false_r in Hv]. rewrite bool_decide_true in Hv by done. cbn in Hv.
    apply list_elem_of_filter. split; [done|]. apply list_elem_of_fmap. exists (tag, v). split; [done|]. by apply elem_of_map_to_list.
  - by intros ref c h c' [= _ <-].
  - intros ref r tag c Hp Ht. cbn. unfold toy_head. change (parse_toy ref = Some r) in Hp. rewrite Hp. destruct (parse_toy_inv _ _ _ Hp Ht) as [-> Hs].
    unfold toy_tag_at. cbn. rewrite Hs. by destruct (c !! tag).
  - intros src dst r tag c x c' E Hp Ht repo' tag' Hne. cbn in E. change (parse_toy dst = Some r) in Hp. rewrite Hp in E.
    destruct (parse_toy_inv _ _ _ Hp Ht) as [-> Hs]. unfold toy_tag_at.
    destruct (toy_digest src c); injection E as _ <-; [|done..]. destruct (decide (repo' = "r")) as [->|]; [|by rewrite bool_decide_false].
    cbn in *. rewrite lookup_insert_ne by congruence. done.
  - exact toy_delete_spares.
  - intros repo c ts. cbn. case_bool_decide as Hr; [|done]. intros [= <-] tag [Hs _]%list_elem_of_filter. subst repo.
    unfold single in Hs. destruct tag as [|c0 [|c1 tag]]; [done| |done]. eexists. split; [reflexivity|done].
  - intros s Hs. cbn in Hs. apply bool_decide_eq_true in Hs as [r Hp]. cbn. unfold parse_toy in *.
    destruct s as [|c1 [|c2 [|c3 [|c4 s]]]]; revert Hp; repeat case_match; try done; intros [= <-]; eauto.
Defined.

Definition reg0 : toy_registry := {["a" := "sha256:1"; "b" := "sha256:1"; "c" := "sha256:2"]}.

Definition reg_world : world toy_registry := mkWorld empty_redis [] false [] 0 reg0 [] [].

(** Tag "a" shares its manifest, so it is not removed; "c" is. *)
Lemma delete_tag_spares_others_witness :
  (DeleteTag "r:a" reg_world).1 = Err ErrTagSharesManifest /\
  (DeleteTag "r:c" reg_world).1 = Ok tt /\ w_chain (DeleteTag "r:c" reg_world).2 !! "c" = None /\
  tag_at (w_chain (DeleteTag "r:c" reg_world).2) "r" "a" = Some "sha256:1".
Proof.
  split; [vm_compute; reflexivity|]. split; [vm_compute; reflexivity|]. split; [vm_compute; reflexivity|].
  refine (eq_trans (delete_tag_spares_others "r:c" (mkRef "r" "registry:6000" (Some "c")) "c" reg_world
    (DeleteTag "r:c" reg_world).1 (DeleteTag "r:c" reg_world).2 _ _ _ "r" "a" _) _);
    [reflexivity|reflexivity|by destruct (DeleteTag "r:c" reg_world)|done|reflexivity].
Defined.

Lemma imports_immutable_witness :
  exists x w', Copy "r:a" "daytona-x" "v1" reg_world = (x, w') /\ w' = reg_world /\ exists e, x = Err e.
Proof.
  eexists _, _. split; [reflexivity|].
  refine (proj2 (imports_immutable "r:a" "daytona-x" "v1" reg_world _ _ eq_refl) _). vm_compute. reflexivity.
Defined.

End RegistryExamples.
