(* ===== verification/Http.v ===== *)
(** * HTTP at the proxy (internal/proxy/handler.go: override headers, the
    reverse proxy's director and response hook)

    Header names are in canonical form, as net/http's server hands them on.
    The upstream exchange itself is an operation on the outside state. *)

From S2P Require Import Prelude Hex Bytes Json Guard Voucher Store Daytona.

Abbreviation headers := (gmap string (list string)).

(** [Header.Get]. *)
Definition header_get (h : headers) (k : string) : string :=
  match h !! k with Some (v :: _) => v | _ => EmptyString end.

Record request := mkReq {
  rq_method : string;
  rq_path : string;
  rq_header : headers;
  rq_body : body
}.

(** [rs_mentioned]: whether the body's bytes hold a quoted secret key name. *)
Record response := mkResp {
  rs_status : Z;
  rs_header : headers;
  rs_mentioned : bool;
  rs_body : body
}.

(** A row of the admin's session listing; a zero time and an empty price are
    left out of the JSON. [internal/proxy/handler.go:1168-1174 handleSessions] *)
Record session_row := mkRow {
  row_SandboxID : string;
  row_Owner : string;
  row_State : string;
  row_NextVoucherAt : Z;
  row_PricePerSec : option Z
}.

(** What a handler writes: [c.JSON] of a map with its fields as text, of a list
    of records (status 200), of the archive-all report, or an upstream response. *)
Inductive reply :=
| RJson (status : Z) (fields : list (string * string))
| RSandboxes (l : list Sandbox)
| RSessions (rows : list session_row)
| REvents (l : list Event)
| RArchived (archived skipped failed : list string)
| RResp (r : response).

Definition error_reply (status : Z) (msg : string) : reply := RJson status [("error", msg)].

Definition reply_status (r : reply) : Z :=
  match r with RJson s _ => s | RResp r => rs_status r | _ => 200 end.

Definition ok_status (s : Z) : bool := (200 <=? s) && (s <? 300).

Definition set_body (b : body) (rq : request) : request := mkReq (rq_method rq) (rq_path rq) (rq_header rq) b.

(** [http.Transport]: the exchange with Daytona; a body that cannot be read to
    its end is an error. *)
Class Upstream (C : Type) := round_trip : request -> C -> res response * C.

(** [internal/proxy/handler.go:40-66 overrideHeaders] *)
Definition overrideHeaders : list string :=
  ["X-Original-Url"; "X-Rewrite-Url"; "X-Original-Uri"; "X-Http-Method-Override"; "X-Http-Method"; "X-Method-Override";
   "X-Forwarded-Host"; "X-Forwarded-Proto"; "X-Forwarded-Port"; "X-Forwarded-Prefix"; "X-Forwarded-Path";
   "X-Forwarded-For"; "X-Real-Ip"; "Forwarded"; "Cookie";
   "X-Wallet-Address"; "X-Signed-Message"; "X-Wallet-Signature"].

Definition delete_all (ks : list string) (h : headers) : headers := foldl (fun h k => delete k h) h ks.

(** The forwarded request's headers. [internal/proxy/handler.go:147-170 NewHandler] *)
Definition Director (adminKey : string) (rq : request) : request :=
  let h := delete_all overrideHeaders (rq_header rq) in
  let h := <["Authorization" := ["Bearer " +:+ adminKey]]> h in
  mkReq (rq_method rq) (rq_path rq) (delete "Accept-Encoding" h) (rq_body rq).

(** [internal/proxy/handler.go:177-203 NewHandler] *)
Definition ModifyResponse (rsp : response) : response :=
  let h := delete_all ["Access-Control-Allow-Origin"; "Access-Control-Allow-Methods"; "Access-Control-Allow-Headers"]
             (rs_header rsp) in
  if ok_status (rs_status rsp) && contains (header_get h "Content-Type") "json"
  then mkResp (rs_status rsp) h (rs_mentioned rsp) (scrubSealKeyFromBody (rs_mentioned rsp) (rs_body rsp))
  else mkResp (rs_status rsp) h (rs_mentioned rsp) (rs_body rsp).

Section Serve.
Context {C : Type} `{Upstream C}.

(** [httputil.ReverseProxy]: a failed exchange is a 502 with no body. *)
Definition ServeHTTP (adminKey : string) (rq : request) : M C response :=
  let! x := attempt (chain_call (round_trip (Director adminKey rq))) in
  ret (match x with
       | inl rsp => ModifyResponse rsp
       | inr _ => mkResp 502 ∅ false BEmpty
       end).

End Serve.

(** ** What reaches Daytona *)

Lemma delete_all_lookup ks h k : delete_all ks h !! k = if bool_decide (k ∈ ks) then None else h !! k.
Proof.
  unfold delete_all. revert h. induction ks as [|k' ks IH]; intros h; cbn [foldl]; [done|]. rewrite IH.
  destruct (decide (k = k')) as [->|Hne].
  - rewrite (bool_decide_true (k' ∈ k' :: ks)) by left. rewrite lookup_delete_eq. by case_bool_decide.
  - rewrite lookup_delete_ne by done.
    destruct (bool_decide_reflect (k ∈ ks)) as [Hin|Hin];
      [rewrite bool_decide_true by (by right)|rewrite bool_decide_false by (rewrite elem_of_cons; tauto)]; done.
Qed.

(** A forwarded request carries the admin bearer as its only authorization,
    none of the override, session or wallet headers, and the caller's method,
    path, body and other headers. *)
Lemma Director_headers adminKey rq k :
  rq_header (Director adminKey rq) !! k =
  if bool_decide (k = "Authorization") then Some ["Bearer " +:+ adminKey]
  else if bool_decide (k = "Accept-Encoding") || bool_decide (k ∈ overrideHeaders) then None
  else rq_header rq !! k.
Proof.
  unfold Director. cbn [rq_header]. destruct (decide (k = "Accept-Encoding")) as [->|Hae]; [by rewrite lookup_delete_eq|].
  rewrite lookup_delete_ne by done. rewrite (bool_decide_false (k = "Accept-Encoding")) by done. cbn [orb].
  destruct (decide (k = "Authorization")) as [->|Hau]; [by rewrite lookup_insert_eq|].
  rewrite lookup_insert_ne, (bool_decide_false (k = "Authorization")), delete_all_lookup by done. done.
Qed.
