(* ===== verification/Auth.v ===== *)
(** * Wallet authentication (internal/auth: eip191.go, middleware.go)

    A request is signed by its wallet over a JSON message that carries an
    expiry, a nonce and, for strict deployments, the provider and the resource
    it is meant for.  The JSON text itself is read by [json_text], the parser
    of encoding/json as a function of the bytes. *)

From stdpp Require Import pretty.
From S2P Require Import Prelude Hex Bytes Crypto Voucher Store Json Guard Seal Http.

Class JsonText := json_text : bytes -> body.

(** ** EIP-191 *)

Section Eip191.
Context `{Keccak} `{Ecdsa}.

(** [internal/auth/eip191.go:13-16 HashMessage] *)
Definition HashMessage (msg : bytes) : bytes :=
  keccak256 (25 :: bytes_of_string ("Ethereum Signed Message:" +:+ String "010" (pretty (Z.of_nat (length msg)))) ++ msg).

(** [internal/auth/eip191.go:20-38 Recover] *)
Definition Recover (msg sig : bytes) : res addr :=
  if negb (bool_decide (length sig = 65%nat)) then Err (EMsg "invalid signature length")
  else sig_to_addr (HashMessage msg) (normalize_sig sig).

End Eip191.

(** ** Base64 ([base64.StdEncoding.DecodeString]) *)

Definition b64_value (c : ascii) : option Z :=
  let n := Z.of_nat (nat_of_ascii c) in
  if (65 <=? n) && (n <=? 90) then Some (n - 65)
  else if (97 <=? n) && (n <=? 122) then Some (n - 71)
  else if (48 <=? n) && (n <=? 57) then Some (n + 4)
  else if n =? 43 then Some 62
  else if n =? 47 then Some 63
  else None.

Definition b64_pad (c : ascii) : bool := bool_decide (c = "="%char).

(** Four characters at a time; padding only in the last group. *)
Fixpoint b64_groups (s : string) : option bytes :=
  match s with
  | EmptyString => Some []
  | String c1 (String c2 (String c3 (String c4 s'))) =>
      match b64_value c1, b64_value c2 with
      | Some v1, Some v2 =>
          let b1 := v1 * 4 + v2 / 16 in
          if b64_pad c3 then if b64_pad c4 && bool_decide (s' = EmptyString) then Some [b1] else None
          else match b64_value c3 with
               | None => None
               | Some v3 =>
                   let b2 := v2 mod 16 * 16 + v3 / 4 in
                   if b64_pad c4 then if bool_decide (s' = EmptyString) then Some [b1; b2] else None
                   else match b64_value c4, b64_groups s' with
                        | Some v4, Some rest => Some (b1 :: b2 :: v3 mod 4 * 64 + v4 :: rest)
                        | _, _ => None
                        end
               end
      | _, _ => None
      end
  | _ => None
  end.

(** Line breaks are skipped. *)
Fixpoint drop_newlines (s : string) : string :=
  match s with
  | EmptyString => EmptyString
  | String c s' =>
      if bool_decide (c = "010"%char) || bool_decide (c = "013"%char) then drop_newlines s' else String c (drop_newlines s')
  end.

Definition b64_decode (s : string) : option bytes := b64_groups (drop_newlines s).

(** ** The signed message *)

(** The action and the payload are carried, not read.
    [internal/auth/middleware.go:24-31 SignedRequest] *)
Record SignedRequest := mkSigned {
  sr_ExpiresAt : Z;
  sr_Nonce : string;
  sr_Provider : string;
  sr_ResourceID : string
}.

Section Decode.
Context `{SimpleFold}.

(** Decoding one struct field from an object's members: the last member whose
    name matches; [null] leaves the field; another type is an error. *)
Definition field_string (f : string) (ms : list (string * json)) : res string :=
  foldl (fun acc '(k, v) =>
    if EqualFold k f
    then match acc, v with
         | Ok _, JStr s => Ok s
         | Ok s, JNull => Ok s
         | Ok _, _ => Err (EMsg "json: cannot unmarshal into a string")
         | _, _ => acc
         end
    else acc) (Ok EmptyString) ms.

(** An int64 is a number without fraction or exponent in range. *)
Definition field_int64 (f : string) (ms : list (string * json)) : res Z :=
  foldl (fun acc '(k, v) =>
    if EqualFold k f
    then match acc, v with
         | Ok _, JNum z false =>
             if (- 2 ^ 63 <=? z) && (z <? 2 ^ 63) then Ok z else Err (EMsg "json: cannot unmarshal into an int64")
         | Ok z, JNull => Ok z
         | Ok _, _ => Err (EMsg "json: cannot unmarshal into an int64")
         | _, _ => acc
         end
    else acc) (Ok 0) ms.

(** [json.Unmarshal(msgBytes, &req)]; a [null] text leaves the zero value. *)
Definition unmarshal_signed (b : body) : res SignedRequest :=
  match b with
  | BText (JObj ms) false =>
      res_bind (field_string "action" ms) (fun _ =>
      res_bind (field_int64 "expires_at" ms) (fun e =>
      res_bind (field_string "nonce" ms) (fun n =>
      res_bind (field_string "provider" ms) (fun p =>
      res_bind (field_string "resource_id" ms) (fun i => Ok (mkSigned e n p i))))))
  | BText JNull false => Ok (mkSigned 0 EmptyString EmptyString EmptyString)
  | _ => Err (EMsg "invalid JSON")
  end.

End Decode.

(** ** The middleware *)

(** [internal/auth/middleware.go:33-33 maxFutureWindow] *)
Definition maxFutureWindow : Z := 300.

(** [internal/auth/middleware.go:36-46 Options] *)
Record Options := mkOptions { o_ProviderAddress : string; o_Strict : bool }.

Definition unauthorized (msg : string) : reply := error_reply 401 msg.

(** [internal/auth/middleware.go:138-141 MiddlewareWithOptions] *)
Definition nonce_flag (wallet nonce : string) : string := "nonce:" +:+ to_lower wallet +:+ ":" +:+ nonce.

(** [internal/auth/middleware.go:111-136 MiddlewareWithOptions] *)
Definition binding_error (opts : Options) (param_id : string) (req : SignedRequest) : option string :=
  if negb (bool_decide (o_ProviderAddress opts = EmptyString)) &&
     negb (bool_decide (sr_Provider req = EmptyString)) && negb (equal_fold (sr_Provider req) (o_ProviderAddress opts))
  then Some "signed message bound to a different provider"
  else if negb (bool_decide (o_ProviderAddress opts = EmptyString)) && bool_decide (sr_Provider req = EmptyString) && o_Strict opts
  then Some "signed message must include the provider address"
  else if negb (bool_decide (param_id = EmptyString)) &&
     negb (bool_decide (sr_ResourceID req = EmptyString)) && negb (bool_decide (sr_ResourceID req = param_id))
  then Some "signed message bound to a different resource"
  else if negb (bool_decide (param_id = EmptyString)) && bool_decide (sr_ResourceID req = EmptyString) && o_Strict opts
  then Some "signed message must include the resource id"
  else None.

Section Middleware.
Context `{Keccak} `{Ecdsa} `{SimpleFold} `{JsonText} {C : Type}.

(** The wallet the request is for, or the reply that ends it.
    [internal/auth/middleware.go:55-156 MiddlewareWithOptions] *)
Definition MiddlewareWithOptions (opts : Options) (param_id : string) (rq : request) : M C (string + reply) :=
  let walletAddr := header_get (rq_header rq) "X-Wallet-Address" in
  let signedMsgB64 := header_get (rq_header rq) "X-Signed-Message" in
  let sigHex := header_get (rq_header rq) "X-Wallet-Signature" in
  if bool_decide (walletAddr = EmptyString) || bool_decide (signedMsgB64 = EmptyString) || bool_decide (sigHex = EmptyString)
  then ret (inr (unauthorized "missing auth headers"))
  else match b64_decode signedMsgB64 with
  | None => ret (inr (unauthorized "invalid X-Signed-Message encoding"))
  | Some msg =>
  match unmarshal_signed (json_text msg) with
  | Err _ | Panic => ret (inr (unauthorized "invalid signed message JSON"))
  | Ok req =>
  let! now := gets w_now in
  if sr_ExpiresAt req <=? now then ret (inr (unauthorized "request expired"))
  else if now + maxFutureWindow <? sr_ExpiresAt req then ret (inr (unauthorized "expires_at too far in future"))
  else match hex_decode (trim_prefix "0x" sigHex) with
  | None => ret (inr (unauthorized "invalid signature hex"))
  | Some sig =>
  match Recover msg sig with
  | Err _ => ret (inr (unauthorized "invalid signature"))
  | Panic => panic
  | Ok recovered =>
  if negb (equal_fold (addr_hex recovered) walletAddr) then ret (inr (unauthorized "invalid signature"))
  else match binding_error opts param_id req with
  | Some e => ret (inr (unauthorized e))
  | None =>
  let! set := attempt (rcmd (setnx now (nonce_flag walletAddr (sr_Nonce req)) (sr_ExpiresAt req - now))) in
  match set with
  | inr _ => ret (inr (error_reply 500 "internal error"))
  | inl false => ret (inr (unauthorized "nonce already used"))
  | inl true => ret (inl walletAddr)
  end end end end end end.

End Middleware.

(** ** Authentic, fresh, single-use *)

Section Accepted.
Context `{Keccak} `{Ecdsa} `{SimpleFold} `{JsonText} {C : Type}.
Implicit Types w : world C.

Definition wallet_header (rq : request) : string := header_get (rq_header rq) "X-Wallet-Address".

Definition signed_message (rq : request) : option bytes := b64_decode (header_get (rq_header rq) "X-Signed-Message").

(** What an accepted request was checked for at time [now]. *)
Record authentic (opts : Options) (param_id : string) (rq : request) (now : Z) (msg : bytes) (req : SignedRequest) : Prop := {
  au_msg : signed_message rq = Some msg;
  au_req : unmarshal_signed (json_text msg) = Ok req;
  au_fresh : now < sr_ExpiresAt req <= now + maxFutureWindow;
  au_signed : exists sig a, Recover msg sig = Ok a /\ to_lower (wallet_header rq) = addr_hex a;
  au_provider : o_ProviderAddress opts <> EmptyString -> sr_Provider req <> EmptyString ->
    to_lower (sr_Provider req) = to_lower (o_ProviderAddress opts);
  au_resource : param_id <> EmptyString -> sr_ResourceID req <> EmptyString -> sr_ResourceID req = param_id;
  au_strict : o_Strict opts = true ->
    (o_ProviderAddress opts <> EmptyString -> sr_Provider req <> EmptyString) /\
    (param_id <> EmptyString -> sr_ResourceID req <> EmptyString)
}.

Lemma equal_fold_true s t : equal_fold s t = true -> to_lower s = to_lower t.
Proof. unfold equal_fold. by intros ?%bool_decide_eq_true. Qed.

Lemma binding_error_none opts param_id req :
  binding_error opts param_id req = None ->
  (o_ProviderAddress opts <> EmptyString -> sr_Provider req <> EmptyString ->
    to_lower (sr_Provider req) = to_lower (o_ProviderAddress opts)) /\
  (param_id <> EmptyString -> sr_ResourceID req <> EmptyString -> sr_ResourceID req = param_id) /\
  (o_Strict opts = true ->
    (o_ProviderAddress opts <> EmptyString -> sr_Provider req <> EmptyString) /\
    (param_id <> EmptyString -> sr_ResourceID req <> EmptyString)).
Proof.
  unfold binding_error.
  destruct (bool_decide_reflect (o_ProviderAddress opts = EmptyString)) as [E1|E1],
    (bool_decide_reflect (sr_Provider req = EmptyString)) as [E2|E2],
    (equal_fold (sr_Provider req) (o_ProviderAddress opts)) eqn:E3, (o_Strict opts) eqn:E4,
    (bool_decide_reflect (param_id = EmptyString)) as [E5|E5],
    (bool_decide_reflect (sr_ResourceID req = EmptyString)) as [E6|E6],
    (bool_decide_reflect (sr_ResourceID req = param_id)) as [E7|E7]; cbn; intros [=];
    repeat split; intros; try contradiction; auto using equal_fold_true; try done.
Qed.

Lemma Middleware_inv opts param_id rq w wallet w' :
  MiddlewareWithOptions opts param_id rq w = (Ok (inl wallet), w') ->
  wallet = wallet_header rq /\
  exists msg req r, authentic opts param_id rq (w_now w) msg req /\
    let k := nonce_flag wallet (sr_Nonce req) in
    flag_live (w_now w) r k = false /\ w_redis w' = set_flag (w_now w) k (sr_ExpiresAt req - w_now w) r /\
    (race_free (w_net w) -> r = w_redis w).
Proof.
  unfold MiddlewareWithOptions. cbv zeta. destruct (_ || _ || _); [done|].
  destruct (b64_decode _) as [msg|] eqn:Em; [|done].
  destruct (unmarshal_signed _) as [req| |] eqn:Er; try done.
  unfold bind at 1. cbn [gets]. case_match_eq; [done|]. case_match_eq; [done|].
  destruct (hex_decode _) as [sig|]; [|done]. destruct (Recover msg sig) as [a| |] eqn:Ea; try done.
  destruct (negb (equal_fold _ _)) eqn:Ew; [done|]. destruct (binding_error _ _ _) eqn:Eb; [done|].
  unfold bind. destruct (attempt _ w) as [[[[|]|]| |] w1] eqn:Es; try done. intros [= <- <-]. split; [done|].
  apply setnx_inv in Es as (r & Hl & Hr & Hrace). exists msg, req, r. split; [|done].
  zbool. apply binding_error_none in Eb as (? & ? & ?). constructor; try done; try lia.
  exists sig, a. split; [done|]. apply equal_fold_true in Ew. rewrite to_lower_addr_hex in Ew. done.
Qed.

(** C30: an accepted request carries a message that its wallet signed, which
    expires within the next five minutes, which is bound to this provider and
    to the addressed resource (always in strict mode, whenever it names one
    otherwise), and whose nonce the wallet had not used; the nonce is then taken
    until the message expires. *)
Theorem middleware_authenticates opts param_id rq w wallet w' :
  MiddlewareWithOptions opts param_id rq w = (Ok (inl wallet), w') ->
  exists msg req, authentic opts param_id rq (w_now w) msg req /\
    (race_free (w_net w) -> flag_live (w_now w) (w_redis w) (nonce_flag wallet (sr_Nonce req)) = false) /\
    forall t, flag_live t (w_redis w') (nonce_flag wallet (sr_Nonce req)) = (t <? sr_ExpiresAt req).
Proof.
  intros (-> & msg & req & r & Ha & Hl & Hr & Hrace)%Middleware_inv. exists msg, req. split; [done|].
  split; [intros Hf; by rewrite <- (Hrace Hf)|]. intros t. pose proof (au_fresh _ _ _ _ _ _ Ha).
  rewrite Hr. unfold flag_live, set_flag. cbn [r_flags upd_flags]. rewrite lookup_insert_eq.
  destruct (Z.ltb_spec 0 (sr_ExpiresAt req - w_now w)); [|lia]. f_equal. lia.
Qed.


End Accepted.

Module AuthExamples.
Import Toy.

(** A parser that knows one message. *)
Definition message_text : string :=
  "{" +:+ json_field "expires_at" "1100" +:+ "," +:+ json_field "nonce" (json_quote "n1") +:+ ","
  +:+ json_field "resource_id" (json_quote "sb") +:+ "}".

Definition message : bytes := bytes_of_string message_text.

#[export] Instance one_message : JsonText := fun b =>
  if bool_decide (b = message)
  then BText (JObj [("expires_at", JNum 1100 false); ("nonce", JStr "n1"); ("resource_id", JStr "sb")]) false
  else BBad.

(** The wallet of key 8192 signs it. *)
Definition signature : string :=
  match ecdsa_sign 8192 (HashMessage message) with Ok sig => "0x" +:+ hex_encode sig | _ => EmptyString end.

Definition signed_request : request :=
  mkReq "POST" "/api/sandbox/sb/stop"
    {["X-Wallet-Address" := [addr_hex (key_addr 8192)];
      "X-Signed-Message" := ["eyJleHBpcmVzX2F0IjoxMTAwLCJub25jZSI6Im4xIiwicmVzb3VyY2VfaWQiOiJzYiJ9"];
      "X-Wallet-Signature" := [signature]]} BEmpty.

Definition opts0 : Options := mkOptions "0x00000000000000000000000000000000000000aa" false.

Definition auth_world (now : Z) : world unit := mkWorld empty_redis [] false [] now tt [] [].

Definition after_first : world unit := (MiddlewareWithOptions opts0 "sb" signed_request (auth_world 1000)).2.

Definition wallet0 : string := addr_hex (key_addr 8192).

Lemma first_accepted : MiddlewareWithOptions opts0 "sb" signed_request (auth_world 1000) = (Ok (inl wallet0), after_first).
Proof. vm_compute. reflexivity. Qed.

Lemma later_world t (w : world unit) :
  w_net w = [] -> r_flags (w_redis (set_now t w)) = r_flags (w_redis w) /\ race_free (w_net (set_now t w)).
Proof. intros E. split; [done|]. cbn. rewrite E. constructor. Qed.

Lemma first_quiet : w_net after_first = [].
Proof. vm_compute. reflexivity. Qed.

Lemma middleware_authenticates_witness :
  exists msg req, authentic opts0 "sb" signed_request 1000 msg req /\
    (race_free (w_net (auth_world 1000)) -> flag_live 1000 empty_redis (nonce_flag wallet0 (sr_Nonce req)) = false) /\
    forall t, flag_live t (w_redis after_first) (nonce_flag wallet0 (sr_Nonce req)) = (t <? sr_ExpiresAt req).
Proof. exact (middleware_authenticates opts0 "sb" signed_request (auth_world 1000) wallet0 after_first first_accepted). Defined.


End AuthExamples.
