(* ===== verification/Broker.v ===== *)
(** * The funding broker (internal/proxy/broker.go, internal/broker:
    session.go, payment.go)

    The proxy's client signs what it asks the broker for; the broker checks
    the signature against the provider it names, asks the payment layer for
    deposits and keeps the monitoring sessions.  The HTTP exchanges, the chain
    reads and the payment service are operations on the outside state. *)

From stdpp Require Import pretty.
From S2P Require Import Prelude Hex Bytes Crypto Voucher Store Json Guard Seal Http Auth.

(** ** Hashed messages *)

(** How many bytes [big.Int.Bytes] returns. *)
Definition byte_length (x : Z) : nat := if x =? 0 then 0%nat else Z.to_nat (Z.log2 (Z.abs x) / 8 + 1).

(** [common.LeftPadBytes(x.Bytes(), n)]: the absolute value, longer than [n]
    bytes when it does not fit. *)
Definition left_pad_abs (n : nat) (x : Z) : bytes := be_bytes (Nat.max n (byte_length x)) (Z.abs x).

(** The body of POST /api/session, as both sides declare it.
    [internal/broker/session.go:96-105 postSessionReq] *)
Record postSessionReq := mkPost {
  ps_SandboxID : string;
  ps_ProviderAddr : string;
  ps_UserAddr : string;
  ps_CPU : Z;
  ps_MemGB : Z;
  ps_StartTime : Z;
  ps_VoucherIntervalSec : Z;
  ps_Signature : string
}.

(** [internal/broker/session.go:255-258 deleteSessionReq] *)
Record deleteSessionReq := mkDelete { ds_Timestamp : Z; ds_Signature : string }.

Section Hashes.
Context `{Keccak}.

(** [internal/proxy/broker.go:147-157 brokerSessionMsgHash] *)
Definition brokerSessionMsgHash (sandboxID providerAddr userAddr : string) (cpu memGB startTime voucherIntervalSec : Z) : bytes :=
  keccak256 (bytes_of_string sandboxID ++ be_bytes 20 (hex_to_address providerAddr) ++ be_bytes 20 (hex_to_address userAddr)
    ++ left_pad_abs 8 cpu ++ left_pad_abs 8 memGB ++ left_pad_abs 8 startTime ++ left_pad_abs 8 voucherIntervalSec).

(** [internal/proxy/broker.go:159-165 brokerDeregisterMsgHash] *)
Definition brokerDeregisterMsgHash (sandboxID : string) (ts : Z) : bytes :=
  keccak256 (bytes_of_string "deregister" ++ bytes_of_string sandboxID ++ left_pad_abs 8 ts).

(** [internal/broker/session.go:337-347 sessionMsgHash] *)
Definition sessionMsgHash (req : postSessionReq) : bytes :=
  keccak256 (bytes_of_string (ps_SandboxID req) ++ be_bytes 20 (hex_to_address (ps_ProviderAddr req))
    ++ be_bytes 20 (hex_to_address (ps_UserAddr req)) ++ left_pad_abs 8 (ps_CPU req) ++ left_pad_abs 8 (ps_MemGB req)
    ++ left_pad_abs 8 (ps_StartTime req) ++ left_pad_abs 8 (ps_VoucherIntervalSec req)).

(** [internal/broker/session.go:349-355 deregisterMsgHash] *)
Definition deregisterMsgHash (sandboxID : string) (ts : Z) : bytes :=
  keccak256 (bytes_of_string "deregister" ++ bytes_of_string sandboxID ++ left_pad_abs 8 ts).

End Hashes.

(** [internal/broker/session.go:357-359 decodeSig] *)
Definition decodeSig (hexSig : string) : option bytes := hex_decode (trim_prefix "0x" hexSig).

(** ** The proxy's client *)

(** The exchange with the broker: status of a POST and of a DELETE. *)
Class BrokerHTTP (C : Type) := {
  post_session : postSessionReq -> C -> res Z * C;
  delete_session : string -> deleteSessionReq -> C -> res Z * C
}.

(** [internal/proxy/broker.go:23-30 brokerClient] *)
Record brokerClient := mkBroker { bc_providerKey : Z; bc_providerAddr : string; bc_voucherIntervalSec : Z }.

Section Client.
Context `{Keccak} `{Ecdsa}.

(** [internal/proxy/broker.go:135-143 sign] *)
Definition broker_sign (b : brokerClient) (msgHash : bytes) : res bytes :=
  res_bind (ecdsa_sign (bc_providerKey b) (HashMessage msgHash)) bump_v.

(** The request [registerSession] sends at time [startTime].
    [internal/proxy/broker.go:58-75 registerSession] *)
Definition session_request (b : brokerClient) (startTime : Z) (sandboxID userAddr : string) (cpu memGB : Z) : res postSessionReq :=
  let msgHash := brokerSessionMsgHash sandboxID (bc_providerAddr b) userAddr cpu memGB startTime (bc_voucherIntervalSec b) in
  res_bind (broker_sign b msgHash) (fun sig =>
  Ok (mkPost sandboxID (bc_providerAddr b) userAddr cpu memGB startTime (bc_voucherIntervalSec b) ("0x" +:+ hex_encode sig))).

Context {C : Type} `{BrokerHTTP C}.

(** [internal/proxy/broker.go:57-93 registerSession] *)
Definition registerSession (b : brokerClient) (sandboxID userAddr : string) (cpu memGB : Z) : M C unit :=
  let! startTime := gets w_now in
  let! req := lift_res (session_request b startTime sandboxID userAddr cpu memGB) in
  let! status := chain_call (post_session req) in
  if 300 <=? status then fail (EMsg "broker returned HTTP") else ret tt.

(** [internal/proxy/broker.go:98-132 deregisterSession] *)
Definition deregisterSession (b : brokerClient) (sandboxID : string) : M C unit :=
  let! ts := gets w_now in
  let! sig := lift_res (broker_sign b (brokerDeregisterMsgHash sandboxID ts)) in
  let! status := chain_call (delete_session sandboxID (mkDelete ts ("0x" +:+ hex_encode sig))) in
  if (300 <=? status) && negb (status =? 404) then fail (EMsg "broker returned HTTP") else ret tt.

End Client.

(** ** The broker's session API *)

(** What the broker reads on chain; a provider without a service has no
    pricing. [internal/broker/session.go:34-42 sessionChainClient] *)
Class BrokerChain (C : Type) := {
  br_GetServicePricing : addr -> C -> res (option (Z * Z * option Z)) * C;
  br_GetProviderBalance : addr -> addr -> C -> res Z * C;
  br_IsActiveProvider : addr -> C -> res bool * C
}.

(** [internal/broker/session.go:24-24 seenKeyPrefix] *)
Definition seenKeyPrefix : string := "broker:seen:".

(** Seven days. [internal/broker/session.go:25-25 seenKeyTTL] *)
Definition seenKeyTTL : Z := 7 * 24 * 3600.

(** The application of each indexed provider, by lower-case address; a deposit
    request; how many balance polls fit the wait.
    [internal/broker/session.go:45-53 SessionHandler] *)
Record SessionHandler (C : Type) := mkSessionHandler {
  sh_providers : gmap string string;
  sh_payment : addr -> addr -> Z -> M C unit;
  sh_topupIntervals : Z;
  sh_depositWaitTimeout : Z
}.
Arguments sh_providers {C}.
Arguments sh_payment {C}.
Arguments sh_topupIntervals {C}.
Arguments sh_depositWaitTimeout {C}.

(** [internal/broker/session.go:174-178 HandlePost] *)
Definition seen_key (req : postSessionReq) : string :=
  if bool_decide (ps_SandboxID req = EmptyString)
  then seenKeyPrefix +:+ "fund:" +:+ to_lower (ps_ProviderAddr req) +:+ ":" +:+ to_lower (ps_UserAddr req) +:+ ":"
         +:+ pretty (ps_StartTime req)
  else seenKeyPrefix +:+ ps_SandboxID req +:+ ":" +:+ pretty (ps_StartTime req).

(** The resources a session is priced for. [internal/broker/session.go:191-194 HandlePost] *)
Definition session_spec (req : postSessionReq) : Z * Z :=
  if (ps_CPU req =? 0) && (ps_MemGB req =? 0) then (1, 1) else (ps_CPU req, ps_MemGB req).

Section SessionApi.
Context `{Keccak} `{Ecdsa} {C : Type} `{BrokerChain C}.

(** One poll every three seconds until the deadline.
    [internal/broker/session.go:78-94 waitForBalance] *)
Fixpoint waitForBalance (polls : nat) (user provider : addr) (needed : Z) : M C bool :=
  match polls with
  | O => ret false
  | S polls' =>
      sleep 3 ;;
      let! x := attempt (chain_call (br_GetProviderBalance user provider)) in
      if match x with inl bal => needed <=? bal | inr _ => false end
      then ret true else waitForBalance polls' user provider needed
  end.

(** [int64] subtraction and the check that the time is within five minutes.
    [internal/broker/session.go:164-167 HandlePost] *)
Definition stale (now startTime : Z) : bool :=
  let diff := int64_wrap (now - startTime) in (300 <? diff) || (diff <? - 300).

(** Identity: the reply that refuses the request, or the address that signed it.
    [internal/broker/session.go:119-158 HandlePost] *)
Definition authenticate_post (h : SessionHandler C) (req : postSessionReq) : M C (addr + reply) :=
  match sh_providers h !! to_lower (ps_ProviderAddr req) with
  | None => ret (inr (error_reply 403 "provider not registered"))
  | Some appId =>
  match decodeSig (ps_Signature req) with
  | None => ret (inr (error_reply 400 "invalid signature encoding"))
  | Some sig =>
  match Recover (sessionMsgHash req) sig with
  | Panic => panic
  | Err _ => ret (inr (error_reply 401 "invalid signature"))
  | Ok signer =>
      if bool_decide (appId = EmptyString) then ret (inr (error_reply 403 "provider has no app bound"))
      else if negb (bool_decide (signer = hex_to_address (ps_ProviderAddr req)))
      then ret (inr (error_reply 401 "signer is not the provider it acts for"))
      else
        let! active := attempt (chain_call (br_IsActiveProvider signer)) in
        match active with
        | inl true => ret (inl signer)
        | _ => ret (inr (error_reply 401 "signature does not match an active provider"))
        end
  end end end.

(** Pricing, deficit, deposit and the session entry.
    [internal/broker/session.go:184-252 HandlePost] *)
Definition fund_and_register (h : SessionHandler C) (req : postSessionReq) : M C reply :=
  let provider := hex_to_address (ps_ProviderAddr req) in
  let user := hex_to_address (ps_UserAddr req) in
  let! pricing := attempt (chain_call (br_GetServicePricing provider)) in
  match pricing with
  | inr _ => ret (error_reply 502 "pricing unavailable")
  | inl None => panic
  | inl (Some (pricePerCPUPerSec, pricePerMemGBPerSec, createFee)) =>
  let '(cpu, memGB) := session_spec req in
  let pricePerSec := pricePerCPUPerSec * cpu + pricePerMemGBPerSec * memGB in
  let! bal := attempt (chain_call (br_GetProviderBalance user provider)) in
  match bal with
  | inr _ => ret (error_reply 502 "balance check failed")
  | inl balance =>
  let needed := pricePerSec * int64_wrap (ps_VoucherIntervalSec req * sh_topupIntervals h) in
  let needed := match createFee with
                | Some fee => if bool_decide (ps_SandboxID req = EmptyString) then needed + fee else needed
                | None => needed
                end in
  let deficit := if balance <? needed then needed - balance else 0 in
  let! refused :=
    if 0 <? deficit then
      let! d := attempt (sh_payment h user provider deficit) in
      match d with
      | inr _ => ret (Some (error_reply 502 "payment layer failed"))
      | inl _ =>
          let! landed := waitForBalance (Z.to_nat (sh_depositWaitTimeout h / 3)) user provider needed in
          ret (if landed : bool then None else Some (error_reply 504 "deposit timeout"))
      end
    else ret None in
  match refused with
  | Some e => ret e
  | None =>
      let! now := gets w_now in
      ignore (rwrite (set_flag now (seen_key req) seenKeyTTL)) ;;
      (if bool_decide (ps_SandboxID req = EmptyString) then ret tt
       else ignore (rwrite (upd_broker <[ps_SandboxID req :=
              mkEntry (ps_SandboxID req) (addr_hex user) (addr_hex provider) cpu memGB pricePerSec
                (ps_VoucherIntervalSec req) now]>))) ;;
      ret (RJson 200 [("ok", "true"); ("amount_funded", pretty deficit)])
  end end end.

(** [None] is a body that does not bind. [internal/broker/session.go:112-253 HandlePost] *)
Definition HandlePost (h : SessionHandler C) (body : option postSessionReq) : M C reply :=
  match body with
  | None => ret (error_reply 400 "invalid request body")
  | Some req =>
      let! who := authenticate_post h req in
      match who with
      | inr e => ret e
      | inl _ =>
          let! now := gets w_now in
          if stale now (ps_StartTime req) then ret (error_reply 401 "start_time outside freshness window")
          else
            let! seen := attempt (rread (fun r => flag_live now r (seen_key req))) in
            match seen with
            | inl true => ret (error_reply 409 "already processed")
            | _ => fund_and_register h req
            end
      end
  end.

(** [internal/broker/session.go:321-328 HandleDelete] *)
Definition stale_delete (now ts : Z) : bool :=
  let diff := int64_wrap (now - ts) in
  let diff := if diff <? 0 then int64_wrap (- diff) else diff in
  300 <? diff.

(** [internal/broker/session.go:261-333 HandleDelete] *)
Definition HandleDelete (h : SessionHandler C) (sandboxID : string) (body : option deleteSessionReq) : M C reply :=
  match body with
  | None => ret (error_reply 400 "invalid request body")
  | Some req =>
  let! data := attempt (rread (fun r => r_broker r !! sandboxID)) in
  match data with
  | inr _ | inl None => ret (error_reply 404 "session not found")
  | inl (Some entry) =>
  match sh_providers h !! to_lower (se_Provider entry) with
  | None => ret (error_reply 403 "provider not registered")
  | Some appId =>
  match decodeSig (ds_Signature req) with
  | None => ret (error_reply 400 "invalid signature encoding")
  | Some sig =>
  match Recover (deregisterMsgHash sandboxID (ds_Timestamp req)) sig with
  | Panic => panic
  | Err _ => ret (error_reply 401 "invalid signature")
  | Ok signer =>
  if bool_decide (appId = EmptyString) then ret (error_reply 403 "provider has no app bound")
  else if negb (bool_decide (signer = hex_to_address (se_Provider entry)))
  then ret (error_reply 401 "signer is not the provider it acts for")
  else
    let! active := attempt (chain_call (br_IsActiveProvider signer)) in
    match active with
    | inl true =>
        let! now := gets w_now in
        if stale_delete now (ds_Timestamp req) then ret (error_reply 401 "timestamp expired")
        else
          ignore (rwrite (upd_broker (delete sandboxID))) ;;
          ret (RJson 200 [("ok", "true")])
    | _ => ret (error_reply 401 "signature does not match an active provider")
    end
  end end end end end.

End SessionApi.

(** ** Who may change what *)

Section SessionProperties.
Context `{Keccak} `{Ecdsa} {C : Type} `{BrokerChain C}.
Implicit Types w : world C.

(** Reading the chain does not change it. *)
Class BrokerReads : Prop := {
  pricing_reads : forall p c, (br_GetServicePricing p c).2 = c;
  balance_reads : forall u p c, (br_GetProviderBalance u p c).2 = c;
  active_reads : forall p c, (br_IsActiveProvider p c).2 = c
}.

Context `{!BrokerReads}.

(** The signer of the request is the provider it names: indexed, with an
    application, and active on chain. *)
Record provider_signed (h : SessionHandler C) (req : postSessionReq) (c : C) : Prop := {
  pv_indexed : exists appId, sh_providers h !! to_lower (ps_ProviderAddr req) = Some appId /\ appId <> EmptyString;
  pv_signer : exists sig, decodeSig (ps_Signature req) = Some sig /\
    Recover (sessionMsgHash req) sig = Ok (hex_to_address (ps_ProviderAddr req));
  pv_active : (br_IsActiveProvider (hex_to_address (ps_ProviderAddr req)) c).1 = Ok true
}.

Lemma attempt_read {A} (f : C -> res A * C) w :
  (f (w_chain w)).2 = w_chain w -> (f (w_chain w)).1 <> Panic ->
  attempt (chain_call f) w = (Ok (match (f (w_chain w)).1 with Ok a => inl a | Err e => inr e | Panic => inr ENil end), w).
Proof.
  intros E Hp. unfold attempt, chain_call. destruct (f (w_chain w)) as [[a|e|] c']; cbn in *; subst; by rewrite ?set_chain_same.
Qed.

Lemma authenticate_post_spec h req w :
  (exists x, authenticate_post h req w = (x, w) /\ (forall a, x <> Ok (inl a))) \/
  (provider_signed h req (w_chain w) /\ authenticate_post h req w = (Ok (inl (hex_to_address (ps_ProviderAddr req))), w)).
Proof.
  unfold authenticate_post. destruct (sh_providers h !! _) as [appId|] eqn:Ei; [|left; eexists; by split].
  destruct (decodeSig _) as [sig|] eqn:Es; [|left; eexists; by split].
  destruct (Recover _ sig) as [a|e|] eqn:Er; [|left; eexists; by split|left; eexists; by split].
  case_bool_decide as Ea; [left; eexists; by split|]. case_bool_decide as Ep; cbn [negb]; [|left; eexists; by split].
  subst a. unfold bind, attempt, chain_call.
  pose proof (active_reads (hex_to_address (ps_ProviderAddr req)) (w_chain w)) as Hc.
  destruct (br_IsActiveProvider _ (w_chain w)) as [[[]|e|] c'] eqn:Eact; cbn in Hc; subst; rewrite set_chain_same;
    try (left; eexists; by split).
  right. split; [|done]. split; [by exists appId|by exists sig|by rewrite Eact].
Qed.

Lemma race_free_read {A} (f : redis -> A) w :
  race_free (w_net w) ->
  exists e, attempt (rread f) w = (Ok e, set_net (tail (w_net w)) w) /\ (w_net w = [] -> e = inl (f (w_redis w))).
Proof.
  intros Hf. unfold attempt, rread, rcmd, rcmd_dirty. destruct w as [r wa d net nw c st al]; cbn in *.
  destruct net as [|[| | |g] net]; cbn; try (eexists; split; [done|]; done). by inversion Hf.
Qed.

Lemma post_change_inv h req w x w' :
  race_free (w_net w) -> HandlePost h (Some req) w = (x, w') ->
  (w_redis w' = w_redis w /\ w_chain w' = w_chain w) \/
  (provider_signed h req (w_chain w) /\ stale (w_now w) (ps_StartTime req) = false /\
   (w_net w = [] -> flag_live (w_now w) (w_redis w) (seen_key req) = false)).
Proof.
  intros Hrace E. cbn [HandlePost] in E. unfold bind at 1 in E.
  destruct (authenticate_post_spec h req w) as [(y & Ey & Hy)|[Hp Ey]]; rewrite Ey in E.
  { left. destruct y as [[a|r]|e|]; [by destruct (Hy a)|..]; by injection E as <- <-. }
  unfold bind at 1 in E. cbn [gets] in E. destruct (stale _ _) eqn:Est; [left; by injection E as <- <-|].
  unfold bind at 1 in E. destruct (race_free_read (fun r => flag_live (w_now w) r (seen_key req)) w Hrace) as (e & Ee & Hq).
  rewrite Ee in E. destruct e as [[]|e].
  - left. by injection E as <- <-.
  - right. split_and!; [done..|]. intros Hnet. specialize (Hq Hnet). congruence.
  - right. split_and!; [done..|]. intros Hnet. by specialize (Hq Hnet).
Qed.

(** A POST that changes Redis or the chain (a deposit, a seen mark, a
    monitoring session) was signed by the very provider it names, which is
    indexed with an application and active on chain, within five minutes of its
    start time; and when Redis answers, the request was not processed before. *)
Theorem post_needs_the_provider h req w x w' :
  race_free (w_net w) -> HandlePost h (Some req) w = (x, w') ->
  w_redis w' <> w_redis w \/ w_chain w' <> w_chain w ->
  provider_signed h req (w_chain w) /\ stale (w_now w) (ps_StartTime req) = false /\
  (w_net w = [] -> flag_live (w_now w) (w_redis w) (seen_key req) = false).
Proof. intros Hrace E Hch. destruct (post_change_inv _ _ _ _ _ Hrace E); [tauto|done]. Qed.

Lemma stale_near now start :
  0 <= now < 2 ^ 62 -> - 2 ^ 63 <= start < 2 ^ 63 -> stale now start = false -> - 300 <= now - start <= 300.
Proof.
  intros Hn Hs. unfold stale, int64_wrap. cbv zeta. intros Hd. apply orb_false_iff in Hd as [Hd1 Hd2]. zbool.
  set (y := now - start + 2 ^ 63) in *. pose proof (Z.mod_pos_bound y (2 ^ 64) ltac:(lia)).
  pose proof (Z.div_mod y (2 ^ 64) ltac:(lia)) as Hdm.
  assert (y / 2 ^ 64 = 0) as E0; [|rewrite E0 in Hdm; subst y; lia].
  assert (0 <= y < 2 * 2 ^ 64) as Hy by (subst y; lia).
  pose proof (Z.div_pos y (2 ^ 64) ltac:(lia) ltac:(lia)). assert (y / 2 ^ 64 < 2) by (apply Z.div_lt_upper_bound; lia).
  assert (y / 2 ^ 64 = 0 \/ y / 2 ^ 64 = 1) as [|E1] by lia; [done|]. exfalso. rewrite E1 in Hdm. subst y. lia.
Qed.

(** A request is processed once.  While the mark it left is in Redis (it
    outlives the freshness window), the same request, or any other with its
    sandbox or funding key and start time, changes nothing: no deposit is asked
    for and no session is written, whoever signed it. *)
Theorem post_single_use h req w x w' t t0 :
  quiet w -> 0 <= t -> - 2 ^ 63 <= ps_StartTime req < 2 ^ 63 -> stale t (ps_StartTime req) = false ->
  t <= t0 <= w_now w -> w_now w < 2 ^ 62 ->
  r_flags (w_redis w) !! seen_key req = Some (Some (t0 + seenKeyTTL)) ->
  HandlePost h (Some req) w = (x, w') -> w_redis w' = w_redis w /\ w_chain w' = w_chain w.
Proof.
  intros Hq Ht Hs Hst Ht0 Hw Hf E.
  assert (race_free (w_net w)) as Hrace by (rewrite Hq; constructor).
  destruct (post_change_inv _ _ _ _ _ Hrace E) as [|(_ & Hst2 & Hfl)]; [done|]. exfalso.
  specialize (Hfl Hq). unfold flag_live in Hfl. rewrite Hf in Hfl. zbool.
  apply stale_near in Hst, Hst2; [|lia..]. unfold seenKeyTTL in Hfl. lia.
Qed.

(** What the broker asks for before it is satisfied, for one request. *)
Definition post_needed (h : SessionHandler C) (req : postSessionReq) (cpuPrice memPrice : Z) (createFee : option Z) : Z :=
  let '(cpu, memGB) := session_spec req in
  (cpuPrice * cpu + memPrice * memGB) * int64_wrap (ps_VoucherIntervalSec req * sh_topupIntervals h)
  + (if bool_decide (ps_SandboxID req = EmptyString) then default 0 createFee else 0).

(** Redis after an accepted request. *)
Definition post_recorded (req : postSessionReq) (price now : Z) (r : redis) : redis :=
  let r := set_flag now (seen_key req) seenKeyTTL r in
  if bool_decide (ps_SandboxID req = EmptyString) then r
  else upd_broker <[ps_SandboxID req :=
         mkEntry (ps_SandboxID req) (addr_hex (hex_to_address (ps_UserAddr req))) (addr_hex (hex_to_address (ps_ProviderAddr req)))
           (session_spec req).1 (session_spec req).2 price (ps_VoucherIntervalSec req) now]> r.

(** A request that needs no deposit: the balance covers what is needed. *)
Lemma post_covered h req w cpuPrice memPrice createFee balance :
  quiet w -> provider_signed h req (w_chain w) -> stale (w_now w) (ps_StartTime req) = false ->
  flag_live (w_now w) (w_redis w) (seen_key req) = false ->
  (br_GetServicePricing (hex_to_address (ps_ProviderAddr req)) (w_chain w)).1 = Ok (Some (cpuPrice, memPrice, createFee)) ->
  (br_GetProviderBalance (hex_to_address (ps_UserAddr req)) (hex_to_address (ps_ProviderAddr req)) (w_chain w)).1 = Ok balance ->
  post_needed h req cpuPrice memPrice createFee <= balance ->
  HandlePost h (Some req) w =
    (Ok (RJson 200 [("ok", "true"); ("amount_funded", "0")]),
     set_redis (post_recorded req (cpuPrice * (session_spec req).1 + memPrice * (session_spec req).2) (w_now w) (w_redis w)) w).
Proof.
  intros Hq Hp Hst Hfl Hpr Hbal Hn. cbn [HandlePost]. unfold bind at 1.
  destruct (authenticate_post_spec h req w) as [(y & Ey & Hy)|[_ Ey]].
  { exfalso. destruct Hp as [(appId & Ei & Ha) (sig & Es & Er) Hact].
    unfold authenticate_post in Ey. rewrite Ei, Es, Er, bool_decide_false, (bool_decide_true (_ = _)) in Ey by done. cbn [negb] in Ey.
    unfold bind in Ey. rewrite attempt_read in Ey by (rewrite ?active_reads, ?Hact; done). rewrite Hact in Ey.
    injection Ey as <-. by eapply Hy. }
  rewrite Ey. unfold bind at 1. cbn [gets]. rewrite Hst. unfold bind at 1. rewrite attempt_rread_quiet, Hfl by done.
  unfold fund_and_register. cbv zeta. unfold bind at 1. rewrite attempt_read by (rewrite ?pricing_reads, ?Hpr; done). rewrite Hpr.
  unfold post_needed in Hn. unfold post_recorded. destruct (session_spec req) as [cpu memGB]. cbn [fst snd].
  unfold bind at 1. rewrite attempt_read by (rewrite ?balance_reads, ?Hbal; done). rewrite Hbal.
  set (need := match createFee with Some _ => _ | None => _ end).
  assert (need <= balance) as Hle.
  { subst need. destruct createFee; case_bool_decide; cbn [default] in Hn; unfold id in Hn; lia. }
  destruct (Z.ltb_spec balance need); [lia|]. cbn [Z.ltb Z.compare]. unfold bind at 1. cbn [ret].
  unfold bind at 1. cbn [gets]. unfold bind at 1. rewrite ignore_rwrite_quiet by done. unfold bind at 1.
  case_bool_decide; cbn [ret]; [done|]. rewrite ignore_rwrite_quiet by done. done.
Qed.

End SessionProperties.
Arguments BrokerReads C {_}.

Section ClientServer.
Context `{KeccakLaws} `{EcdsaLaws} {C : Type} `{BrokerChain C} `{!BrokerReads C}.
Implicit Types w : world C.

Lemma substring_all s : substring 0 (String.length s) s = s.
Proof. induction s as [|c s IH]; [done|]. cbn. by rewrite IH. Qed.

Lemma trim_0x s : trim_prefix "0x" ("0x" +:+ s) = s.
Proof.
  change ("0x" +:+ s) with (String "0" (String "x" s)). unfold trim_prefix. cbn [String.length]. rewrite Nat.sub_succ, Nat.sub_succ, Nat.sub_0_r.
  apply substring_all.
Qed.

Lemma bump_v_bytes sig sig' : Forall byte_ok sig -> bump_v sig = Ok sig' -> Forall byte_ok sig'.
Proof.
  unfold bump_v. destruct (sig !! 64%nat); [|done]. intros Hb [= <-]. apply Forall_insert; [done|].
  apply Z.mod_pos_bound. lia.
Qed.

(** EIP-191 signing and recovery, through the hex text of the signature. *)
Lemma broker_sign_recover b msg sig :
  broker_sign b msg = Ok sig ->
  decodeSig ("0x" +:+ hex_encode sig) = Some sig /\ Recover msg sig = Ok (key_addr (bc_providerKey b)).
Proof.
  unfold broker_sign. destruct (ecdsa_sign _ _) as [s| |] eqn:Es; cbn [res_bind]; try done. intros Hb.
  destruct (bump_normalize _ _ _ Es) as (s' & Es' & Hn & Hl). rewrite Es' in Hb. injection Hb as ->. split.
  - unfold decodeSig. rewrite trim_0x. apply hex_decode_encode.
    eapply bump_v_bytes; [|exact Es']. eapply sign_bytes; [|exact Es]. apply keccak_bytes.
  - unfold Recover. rewrite bool_decide_true by done. cbn [negb]. rewrite Hn. by apply sign_recover.
Qed.

(** The broker accepts what the proxy's client sends.  A request signed
    with the key of an indexed, active provider and delivered within five
    minutes, for a balance that covers it, is answered 200; the monitoring
    session carries the price the broker read on chain for the requested
    resources, and the request is marked as seen. *)
Theorem client_request_accepted h b t sandboxID userAddr cpu memGB req w appId cpuPrice memPrice createFee balance :
  session_request b t sandboxID userAddr cpu memGB = Ok req ->
  hex_to_address (bc_providerAddr b) = key_addr (bc_providerKey b) ->
  sh_providers h !! to_lower (bc_providerAddr b) = Some appId -> appId <> EmptyString ->
  (br_IsActiveProvider (key_addr (bc_providerKey b)) (w_chain w)).1 = Ok true ->
  (br_GetServicePricing (key_addr (bc_providerKey b)) (w_chain w)).1 = Ok (Some (cpuPrice, memPrice, createFee)) ->
  (br_GetProviderBalance (hex_to_address userAddr) (key_addr (bc_providerKey b)) (w_chain w)).1 = Ok balance ->
  quiet w -> stale (w_now w) t = false -> flag_live (w_now w) (w_redis w) (seen_key req) = false ->
  post_needed h req cpuPrice memPrice createFee <= balance ->
  HandlePost h (Some req) w =
    (Ok (RJson 200 [("ok", "true"); ("amount_funded", "0")]),
     set_redis (post_recorded req (cpuPrice * (session_spec req).1 + memPrice * (session_spec req).2) (w_now w) (w_redis w)) w).
Proof.
  unfold session_request. destruct (broker_sign b _) as [sig| |] eqn:Eb; cbn [res_bind]; [|done..]. intros [= <-] Hk Hi Ha Hact Hpr Hbal Hq.
  apply broker_sign_recover in Eb as [Hd Hr]. intros. eapply post_covered; try done; cbn [ps_ProviderAddr ps_UserAddr]; rewrite ?Hk; try done.
  split; cbn [ps_ProviderAddr ps_Signature]; rewrite ?Hk; [by exists appId| |done]. exists sig. split; [exact Hd|exact Hr].
Qed.

End ClientServer.

Module BrokerExamples.
Import Toy.

(** A chain on which every provider is active, charges one unit per core and
    per gigabyte a second, and every user holds a million. *)
#[export] Instance free_chain : BrokerChain unit := {|
  br_GetServicePricing := fun _ c => (Ok (Some (1, 1, Some 50)), c);
  br_GetProviderBalance := fun _ _ c => (Ok 1000000, c);
  br_IsActiveProvider := fun _ c => (Ok true, c)
|}.

#[export] Instance free_chain_reads : BrokerReads unit.
Proof. by split. Defined.

Definition alice : brokerClient := mkBroker 4096 (addr_hex (key_addr 4096)) 3600.

Definition mallory : brokerClient := mkBroker 8192 (addr_hex (key_addr 8192)) 3600.

Definition handler : SessionHandler unit :=
  mkSessionHandler unit {[bc_providerAddr alice := "app-a"; bc_providerAddr mallory := "app-m"]} (fun _ _ _ => ret tt) 3 60.

Definition user0 : string := addr_hex 77.

Definition bworld (r : redis) (now : Z) : world unit := mkWorld r [] false [] now tt [] [].

Definition request_of (b : brokerClient) (t : Z) : postSessionReq :=
  match session_request b t "sb1" user0 2 4 with Ok r => r | _ => mkPost EmptyString EmptyString EmptyString 0 0 0 0 EmptyString end.

Definition after (r : redis) (req : postSessionReq) (now : Z) : redis := w_redis (HandlePost handler (Some req) (bworld r now)).2.

Definition registered : redis := after empty_redis (request_of alice 1000) 1010.

Lemma alice_request : session_request alice 1000 "sb1" user0 2 4 = Ok (request_of alice 1000).
Proof. vm_compute. reflexivity. Qed.

Lemma client_request_accepted_witness :
  HandlePost handler (Some (request_of alice 1000)) (bworld empty_redis 1010) =
    (Ok (RJson 200 [("ok", "true"); ("amount_funded", "0")]),
     set_redis (post_recorded (request_of alice 1000) 6 1010 empty_redis) (bworld empty_redis 1010)).
Proof.
  apply (client_request_accepted handler alice 1000 "sb1" user0 2 4 (request_of alice 1000) (bworld empty_redis 1010)
    "app-a" 1 1 (Some 50) 1000000 alice_request); vm_compute; done.
Defined.

Lemma registered_changed : w_redis (HandlePost handler (Some (request_of alice 1000)) (bworld empty_redis 1010)).2 <> empty_redis.
Proof. rewrite client_request_accepted_witness. intros E. apply (f_equal (fun r => bool_decide (r_broker r = ∅))) in E. by vm_compute in E. Qed.

Lemma post_needs_the_provider_witness :
  provider_signed handler (request_of alice 1000) tt /\ stale 1010 (ps_StartTime (request_of alice 1000)) = false /\
  ([] = [] :> list netev -> flag_live 1010 empty_redis (seen_key (request_of alice 1000)) = false).
Proof.
  exact (post_needs_the_provider handler (request_of alice 1000) (bworld empty_redis 1010) _ _ (Forall_nil_2 _)
    (surjective_pairing _) (or_introl registered_changed)).
Defined.

Lemma registered_flag : r_flags registered !! seen_key (request_of alice 1000) = Some (Some (1010 + seenKeyTTL)).
Proof. vm_compute. reflexivity. Qed.

Lemma fresh_1010 : stale 1010 (ps_StartTime (request_of alice 1000)) = false.
Proof. vm_compute. reflexivity. Qed.

Lemma start_1000 : - 2 ^ 63 <= ps_StartTime (request_of alice 1000) < 2 ^ 63.
Proof. vm_compute. done. Qed.

Lemma post_single_use_witness :
  w_redis (HandlePost handler (Some (request_of alice 1000)) (bworld registered 1200)).2 = w_redis (bworld registered 1200) /\
  w_chain (HandlePost handler (Some (request_of alice 1000)) (bworld registered 1200)).2 = w_chain (bworld registered 1200).
Proof.
  refine (post_single_use handler (request_of alice 1000) (bworld registered 1200) _ _ 1010 1010 eq_refl _ start_1000 fresh_1010
    _ _ registered_flag (surjective_pairing _)); cbn [w_now bworld]; lia.
Defined.

(** Alice's sandbox is monitored; Mallory, another registered provider, posts
    the same sandbox id under her own address. *)
Definition hijacked : redis := after registered (request_of mallory 1100) 1110.

Definition deregister_of (b : brokerClient) (t : Z) : deleteSessionReq :=
  mkDelete t (match broker_sign b (brokerDeregisterMsgHash "sb1" t) with Ok sig => "0x" +:+ hex_encode sig | _ => EmptyString end).

(** A monitoring session belongs to no provider.  Another registered
    provider that signs for itself can post a sandbox id it does not run: the
    entry is overwritten with its own address, so the sandbox's provider can no
    longer deregister it (before, it could). *)
Theorem session_hijack :
  se_Provider <$> r_broker registered !! "sb1" = Some (bc_providerAddr alice) /\
  (HandleDelete handler "sb1" (Some (deregister_of alice 1120)) (bworld registered 1120)).1 = Ok (RJson 200 [("ok", "true")]) /\
  se_Provider <$> r_broker hijacked !! "sb1" = Some (bc_providerAddr mallory) /\
  (HandleDelete handler "sb1" (Some (deregister_of alice 1120)) (bworld hijacked 1120)).1
    = Ok (error_reply 401 "signer is not the provider it acts for").
Proof. vm_compute. done. Qed.

End BrokerExamples.
