(* ===== verification/Funding.v ===== *)
(** * Deposits and the balance monitor (internal/broker: payment.go,
    monitor.go)

    The payment layer signs a deposit request, marks the pair as in flight and
    polls the outcome; the monitor sums the burn rates of the registered
    sessions and requests a top-up when a balance runs low. *)

From S2P Require Import Prelude Hex Bytes Crypto Voucher Store Json Guard Seal Http Auth Broker.

(** ** The payment layer *)

(** [internal/broker/payment.go:20-22 inflightKey] *)
Definition inflightKey (user provider : addr) : string :=
  "broker:topup:inflight:" +:+ addr_hex user +:+ ":" +:+ addr_hex provider.

(** [internal/broker/payment.go:24-26 backoffKey] *)
Definition backoffKey (user provider : addr) : string :=
  "broker:topup:backoff:" +:+ addr_hex user +:+ ":" +:+ addr_hex provider.

(** The payment service.  [deposit_post user provider amount ts authorization]
    answers with a status and, when the body decodes, the request id;
    [deposit_status] with the status text, empty when it does not decode. *)
Class PaymentHTTP (C : Type) := {
  deposit_post : addr -> addr -> Z -> Z -> string -> C -> res (Z * option string) * C;
  deposit_status : string -> C -> res string * C
}.

(** Durations in seconds. [internal/broker/payment.go:73-82 HTTPPaymentLayer] *)
Record HTTPPaymentLayer := mkPayment {
  pl_signer : Z;
  pl_pollInterval : Z;
  pl_pollTimeout : Z;
  pl_monitorInterval : Z
}.

Section Flags.
Context {C : Type}.

(** A failed lookup counts as absent. [internal/broker/payment.go:29-38 IsInflightOrBackoff] *)
Definition IsInflightOrBackoff (user provider : addr) : M C bool :=
  let! now := gets w_now in
  let! a := attempt (rread (fun r => flag_live now r (inflightKey user provider))) in
  match a with
  | inl true => ret true
  | _ =>
      let! b := attempt (rread (fun r => flag_live now r (backoffKey user provider))) in
      ret (match b with inl true => true | _ => false end)
  end.

(** [DEL k]. *)
Definition del_flag (k : string) : M C unit := ignore (rwrite (upd_flags (delete k))).

Definition put_flag (k : string) (ttl : Z) : M C unit :=
  let! now := gets w_now in ignore (rwrite (set_flag now k ttl)).

End Flags.

Section Payment.
Context `{Keccak} `{Ecdsa} {C : Type} `{PaymentHTTP C}.

(** [internal/broker/payment.go:122-127 RequestDeposit] *)
Definition deposit_message (user provider : addr) (amount ts : Z) : bytes :=
  keccak256 (be_bytes 20 user ++ be_bytes 20 provider ++ left_pad_abs 32 amount ++ left_pad_abs 8 ts).

(** [internal/broker/payment.go:128-133 RequestDeposit] *)
Definition deposit_signature (h : HTTPPaymentLayer) (user provider : addr) (amount ts : Z) : res bytes :=
  res_bind (ecdsa_sign (pl_signer h)
    (keccak256 (25 :: bytes_of_string ("Ethereum Signed Message:" +:+ String "010" "32") ++ deposit_message user provider amount ts)))
  bump_v.

(** The request id whose outcome is polled from then on; the clock counts
    seconds, so milliseconds are whole thousands.
    [internal/broker/payment.go:118-179 RequestDeposit] *)
Definition request_deposit (h : HTTPPaymentLayer) (user provider : addr) (amount : Z) : M C string :=
  let! now := gets w_now in
  let ts := now * 1000 in
  let! sig := lift_res (deposit_signature h user provider amount ts) in
  let! resp := chain_call (deposit_post user provider amount ts ("Bearer 0x" +:+ hex_encode sig)) in
  let '(status, rid) := resp in
  if 300 <=? status then fail (EMsg "payment layer returned HTTP")
  else match rid with
       | None => fail (EMsg "decode deposit response")
       | Some id =>
           if bool_decide (id = EmptyString) then fail (EMsg "payment layer returned empty request_id")
           else put_flag (inflightKey user provider) (pl_pollTimeout h + 30) ;; ret id
       end.

(** [PaymentLayer]'s view of it. [internal/broker/payment.go:118-179 RequestDeposit] *)
Definition RequestDeposit (h : HTTPPaymentLayer) (user provider : addr) (amount : Z) : M C unit :=
  request_deposit h user provider amount ;; ret tt.

(** The polling goroutine; [ticks] ticks of the poll interval come before the
    timeout. [internal/broker/payment.go:181-236 pollDepositStatus] *)
Fixpoint pollDepositStatus (ticks : nat) (h : HTTPPaymentLayer) (requestID : string) (user provider : addr) : M C unit :=
  match ticks with
  | O =>
      del_flag (inflightKey user provider) ;;
      put_flag (backoffKey user provider) (5 * pl_monitorInterval h)
  | S ticks' =>
      sleep (pl_pollInterval h) ;;
      let! x := attempt (chain_call (deposit_status requestID)) in
      match x with
      | inr _ => pollDepositStatus ticks' h requestID user provider
      | inl status =>
          if bool_decide (status = "success") || bool_decide (status = "complete")
          then del_flag (inflightKey user provider)
          else if bool_decide (status = "failed")
          then del_flag (inflightKey user provider) ;; put_flag (backoffKey user provider) (2 * pl_monitorInterval h)
          else pollDepositStatus ticks' h requestID user provider
      end
  end.

(** How many polls fit the timeout. [internal/broker/payment.go:182-187 pollDepositStatus] *)
Definition poll_ticks (h : HTTPPaymentLayer) : nat := Z.to_nat (pl_pollTimeout h / pl_pollInterval h).

End Payment.

(** [internal/broker/payment.go:59-65 RequestDeposit] *)
Definition noop_deposit {C} (user provider : addr) (amount : Z) : M C unit := ret tt.

(** ** The monitor *)

(** [internal/broker/monitor.go:41-49 Monitor] *)
Record Monitor (C : Type) := mkMonitor {
  mn_payment : addr -> addr -> Z -> M C unit;
  mn_topupIntervals : Z;
  mn_thresholdIntervals : Z
}.
Arguments mn_payment {C}.
Arguments mn_topupIntervals {C}.
Arguments mn_thresholdIntervals {C}.

(** [internal/broker/monitor.go:114-117 check] *)
Record aggregate := mkAgg { ag_burnRate : Z; ag_voucherIntervalSec : Z }.

(** [internal/broker/monitor.go:238-245 appendUnique] *)
Definition appendUnique (slice : list addr) (a : addr) : list addr := if bool_decide (a ∈ slice) then slice else slice ++ [a].

Definition user_key (s : SessionEntry) : string * string := (to_lower (se_User s), to_lower (se_Provider s)).

(** One session joins its user's list and burn rate.
    [internal/broker/monitor.go:120-142 check] *)
Definition group_session (acc : gmap string (list addr) * gmap (string * string) aggregate) (s : SessionEntry)
  : gmap string (list addr) * gmap (string * string) aggregate :=
  let '(providerUsers, userAgg) := acc in
  let provAddr := to_lower (se_Provider s) in
  let providerUsers := <[provAddr := appendUnique (default [] (providerUsers !! provAddr)) (hex_to_address (se_User s))]> providerUsers in
  let agg := match userAgg !! user_key s with
             | Some agg =>
                 mkAgg (ag_burnRate agg + se_PricePerSec s)
                   (if ag_voucherIntervalSec agg <? se_VoucherIntervalSec s then se_VoucherIntervalSec s else ag_voucherIntervalSec agg)
             | None => mkAgg (se_PricePerSec s) (se_VoucherIntervalSec s)
             end in
  (providerUsers, <[user_key s := agg]> userAgg).

Definition group_sessions (ss : list SessionEntry) : gmap string (list addr) * gmap (string * string) aggregate :=
  foldl group_session (∅, ∅) ss.

(** Go ranges over a map in any order. *)
Class RangeOrder := {
  range_providers : gmap string (list addr) -> list (string * list addr);
  range_providers_perm : forall m, Permutation (range_providers m) (map_to_list m);
  key_order : gmap string SessionEntry -> list string;
  key_order_perm : forall m, Permutation (key_order m) (map_to_list m).*1
}.

(** [balanceChecker.GetBalanceBatch]. *)
Class BalanceBatch (C : Type) := GetBalanceBatch : list addr -> addr -> C -> res (list Z) * C.

Section MonitorOps.
Context `{RangeOrder} {C : Type} `{BrokerChain C} `{BalanceBatch C}.

(** A key that vanished meanwhile, or cannot be read, is left out.
    [internal/broker/monitor.go:222-234 loadSessions] *)
Fixpoint load_keys (keys : list string) : M C (list SessionEntry) :=
  match keys with
  | [] => ret []
  | k :: keys' =>
      let! x := attempt (rread (fun r => r_broker r !! k)) in
      let! rest := load_keys keys' in
      ret (match x with inl (Some s) => s :: rest | _ => rest end)
  end.

(** [internal/broker/monitor.go:217-235 loadSessions] *)
Definition loadSessions : M C (list SessionEntry) :=
  let! keys := rread (fun r => key_order (r_broker r)) in load_keys keys.

(** [internal/broker/monitor.go:90-93 GetSessions] *)
Definition GetSessions : M C (list SessionEntry) :=
  let! x := attempt loadSessions in ret (match x with inl ss => ss | inr _ => [] end).

(** The amount to request, if the balance is below the threshold.
    [internal/broker/monitor.go:181-191 check] *)
Definition top_up_amount (m : Monitor C) (agg : aggregate) (balance : Z) : option Z :=
  let interval := ag_voucherIntervalSec agg in
  let threshold := ag_burnRate agg * int64_wrap (interval * mn_thresholdIntervals m) in
  if threshold <=? balance then None
  else
    let topup := ag_burnRate agg * int64_wrap (interval * mn_topupIntervals m) in
    let deficit := topup - balance in
    Some (if deficit <=? 0 then topup else deficit).

(** [internal/broker/monitor.go:174-213 check] *)
Definition top_up_user (m : Monitor C) (userAgg : gmap (string * string) aggregate) (provAddr : string) (provider : addr)
  (user : addr) (balance : Z) : M C unit :=
  match userAgg !! (addr_hex user, provAddr) with
  | None => ret tt
  | Some agg =>
      match top_up_amount m agg balance with
      | None => ret tt
      | Some amount =>
          let! busy := IsInflightOrBackoff user provider in
          if busy : bool then ret tt else ignore (mn_payment m user provider amount)
      end
  end.

(** [internal/broker/monitor.go:145-214 check] *)
Definition check_provider (m : Monitor C) (userAgg : gmap (string * string) aggregate) (pu : string * list addr) : M C unit :=
  let '(provAddr, users) := pu in
  let provider := hex_to_address provAddr in
  let! pricing := attempt (chain_call (br_GetServicePricing provider)) in
  match pricing with
  | inr _ => ret tt
  | inl None => ret tt
  | inl (Some _) =>
      let! balances := attempt (chain_call (GetBalanceBatch users provider)) in
      match balances with
      | inr _ => ret tt
      | inl bs => mapM (fun '(user, balance) => top_up_user m userAgg provAddr provider user balance) (zip users bs)
      end
  end.

(** [internal/broker/monitor.go:97-215 check] *)
Definition monitor_check (m : Monitor C) : M C unit :=
  let! x := attempt loadSessions in
  match x with
  | inr _ => ret tt
  | inl sessions =>
      let '(providerUsers, userAgg) := group_sessions sessions in
      mapM (check_provider m userAgg) (range_providers providerUsers)
  end.

End MonitorOps.

(** ** Burn rates *)

Definition of_key (k : string * string) (ss : list SessionEntry) : list SessionEntry := filter (fun s => user_key s = k) ss.

Lemma of_key_snoc k ss s : of_key k (ss ++ [s]) = of_key k ss ++ (if decide (user_key s = k) then [s] else []).
Proof. unfold of_key. rewrite filter_app, filter_cons. by case_decide. Qed.

(** The entry of a user and provider: the sum of the prices of their sessions
    and the longest of their voucher intervals. *)
Definition aggregate_of (mine : list SessionEntry) (agg : option aggregate) : Prop :=
  match agg with
  | None => mine = []
  | Some a => mine <> [] /\ ag_burnRate a = zsum se_PricePerSec mine /\
      (exists s, s ∈ mine /\ se_VoucherIntervalSec s = ag_voucherIntervalSec a) /\
      Forall (fun s => se_VoucherIntervalSec s <= ag_voucherIntervalSec a) mine
  end.

Lemma aggregate_of_snoc mine s agg :
  aggregate_of mine agg ->
  aggregate_of (mine ++ [s])
    (Some match agg with
          | Some a => mkAgg (ag_burnRate a + se_PricePerSec s)
              (if ag_voucherIntervalSec a <? se_VoucherIntervalSec s then se_VoucherIntervalSec s else ag_voucherIntervalSec a)
          | None => mkAgg (se_PricePerSec s) (se_VoucherIntervalSec s)
          end).
Proof.
  destruct agg as [a|]; cbn [aggregate_of ag_burnRate ag_voucherIntervalSec].
  - intros (Hne & Hb & (s0 & Hin & Hs0) & Hall). split; [by destruct mine|]. rewrite zsum_app, zsum_one. split; [lia|].
    destruct (Z.ltb_spec (ag_voucherIntervalSec a) (se_VoucherIntervalSec s)).
    + split; [exists s; set_solver|]. apply Forall_app. split; [|by repeat constructor].
      eapply Forall_impl; [exact Hall|]. cbn. lia.
    + split; [exists s0; set_solver|]. apply Forall_app. split; [done|]. by repeat constructor.
  - intros ->. cbn. rewrite zsum_one. split; [done|]. split; [done|]. split; [exists s; set_solver|]. by repeat constructor.
Qed.

(** The burn rate the monitor judges a balance by is the sum over all
    registered sessions of that user with that provider (addresses compared
    case-insensitively), with the longest voucher interval among them; a pair
    without sessions has no entry. *)
Theorem burn_rates_sum ss k : aggregate_of (of_key k ss) ((group_sessions ss).2 !! k).
Proof.
  induction ss as [|s ss IH] using rev_ind; [cbn; by rewrite lookup_empty|].
  unfold group_sessions in *. rewrite foldl_app. destruct (foldl _ _ ss) as [pu ua]. cbn [foldl group_session snd] in *.
  rewrite of_key_snoc. case_decide as Hk.
  - rewrite Hk, lookup_insert_eq. by apply aggregate_of_snoc.
  - by rewrite lookup_insert_ne, app_nil_r.
Qed.

(** ** Deposits end *)

Section Polling.
Context {C : Type} `{PaymentHTTP C}.
Implicit Types w : world C.

(** The status lookup never panics. *)
Class StatusLaws : Prop := status_no_panic : forall rid c, (deposit_status rid c).1 <> Panic.
Context `{!StatusLaws}.

Lemma del_flag_quiet k w : quiet w -> del_flag k w = (Ok tt, set_redis (upd_flags (delete k) (w_redis w)) w).
Proof. apply ignore_rwrite_quiet. Qed.

Lemma put_flag_quiet k ttl w : quiet w -> put_flag k ttl w = (Ok tt, set_redis (set_flag (w_now w) k ttl (w_redis w)) w).
Proof. intros Hq. unfold put_flag, bind, gets. by rewrite ignore_rwrite_quiet. Qed.

Lemma key_ne user provider user' provider' : inflightKey user provider <> backoffKey user' provider'.
Proof. unfold inflightKey, backoffKey. by intros [=]. Qed.

(** What polling leaves behind: no mark in flight; unless the deposit was
    confirmed, a back-off from then on. *)
Definition settled_flags (user provider : addr) (monitorInterval : Z) (w : world C) : Prop :=
  r_flags (w_redis w) !! inflightKey user provider = None /\
  (r_flags (w_redis w) !! backoffKey user provider = Some (Some (w_now w + 5 * monitorInterval)) \/
   r_flags (w_redis w) !! backoffKey user provider = Some (Some (w_now w + 2 * monitorInterval)) \/
   exists rid c c' s, deposit_status rid c = (Ok s, c') /\ (s = "success" \/ s = "complete")).

Lemma backoff_settled user provider n mi w :
  quiet w -> 0 < mi -> n = 5 \/ n = 2 ->
  exists w', (del_flag (inflightKey user provider) ;; put_flag (backoffKey user provider) (n * mi)) w = (Ok tt, w') /\
    settled_flags user provider mi w' /\ w_now w' = w_now w.
Proof.
  intros Hq Hmi Hn. unfold bind at 1. rewrite del_flag_quiet by done. rewrite put_flag_quiet by done.
  eexists; split; [done|]. split; [|done]. unfold settled_flags, set_flag. cbn [set_redis w_redis upd_flags r_flags w_now].
  pose proof (key_ne user provider user provider). destruct (Z.ltb_spec 0 (n * mi)); [|lia].
  rewrite lookup_insert_ne, lookup_insert_eq, lookup_delete_eq by done.
  split; [done|]. destruct Hn as [->| ->]; [left|right; left]; done.
Qed.

(** A requested deposit does not stay in flight.  Whatever the payment
    service answers, polling ends by its deadline with the in-flight mark gone,
    and unless the service reported success the pair is in back-off from then on,
    so the monitor neither waits forever nor asks again at once. *)
Theorem deposit_settles h rid user provider : 0 <= pl_pollInterval h -> 0 < pl_monitorInterval h ->
  forall ticks w, quiet w -> exists w', pollDepositStatus ticks h rid user provider w = (Ok tt, w') /\
    settled_flags user provider (pl_monitorInterval h) w' /\
    w_now w <= w_now w' <= w_now w + Z.of_nat ticks * pl_pollInterval h.
Proof.
  intros Hi Hm. induction ticks as [|ticks IH]; intros w Hq; cbn [pollDepositStatus].
  - destruct (backoff_settled user provider 5 _ w Hq Hm) as (w' & E & Hs & Ht); [by left|].
    exists w'. rewrite E, Ht. split; [done|]. split; [done|]. lia.
  - unfold bind at 1, sleep, bind at 1, attempt, chain_call.
    pose proof (status_no_panic rid (w_chain w)) as Hp. set (w1 := set_now _ w).
    change (w_chain w1) with (w_chain w). destruct (deposit_status rid (w_chain w)) as [[s|e|] c'] eqn:Es; [..|done]; cbn [fst] in Hp.
    + case_match_eq.
      * rewrite del_flag_quiet by done. eexists; split; [done|].
        split; [|cbn; lia]. split; [cbn; by rewrite lookup_delete_eq|]. right; right. exists rid, (w_chain w), c', s. split; [done|].
        apply orb_true_iff in E as [?%bool_decide_eq_true|?%bool_decide_eq_true]; tauto.
      * destruct (bool_decide_reflect (s = "failed")) as [_|_].
        -- destruct (backoff_settled user provider 2 _ (set_chain c' w1) Hq Hm) as (w' & E' & Hs & Ht); [by right|].
           exists w'. split; [exact E'|]. rewrite Ht. split; [done|]. cbn. lia.
        -- destruct (IH (set_chain c' w1) Hq) as (w' & E' & Hs & Ht). exists w'. split; [done|]. split; [done|]. cbn in Ht. lia.
    + destruct (IH (set_chain c' w1) Hq) as (w' & E' & Hs & Ht). exists w'. split; [done|]. split; [done|]. cbn in Ht. lia.
Qed.

End Polling.

Module FundingExamples.

(** A service that keeps the deposit pending for two polls, then fails it. *)
#[export] Instance failing_service : PaymentHTTP nat := {|
  deposit_post := fun _ _ _ _ _ c => (Ok (200, Some "r1"), c);
  deposit_status := fun _ c => match c with O => (Ok "failed", O) | S c' => (Ok "pending", c') end
|}.

#[export] Instance failing_laws : @StatusLaws nat failing_service.
Proof. intros rid [|c]; done. Defined.

Definition fworld : world nat := mkWorld empty_redis [] false [] 5000 2%nat [] [].

Lemma deposit_settles_witness :
  exists w', pollDepositStatus 10 (mkPayment 1 3 30 60) "r1" 7 8 fworld = (Ok tt, w') /\
    settled_flags 7 8 60 w' /\ 5000 <= w_now w' <= 5000 + Z.of_nat 10 * 3.
Proof. apply (deposit_settles (mkPayment 1 3 30 60) "r1" 7 8); [cbn; lia|cbn; lia|done]. Defined.

End FundingExamples.
