(* ===== verification/Gate.v ===== *)
(** * The create and start gates (internal/proxy/handler.go: handleCreate,
    handleStart and their helpers)

    A create passes the body policy, the snapshot lookup, the acknowledgement
    check and the balance gate, is prepared (image pinning, owner label, seal)
    and only then forwarded.  Work a handler leaves to goroutines is returned as
    a list of tasks; [run_task] is what each of them does. *)

From stdpp Require Import pretty.
From S2P Require Import Prelude Hex Bytes Crypto Voucher Store Backlog Session Billing Json CreatePolicy Guard Daytona Seal Registry Http Auth Broker.

(** Optional interfaces and functions are [option]s as the code tests them for
    nil; [px_pages] bounds the pages of a snapshot listing; the last two fields
    are the PROXY_DOMAIN and PROXY_PROTOCOL environment variables.
    [internal/proxy/handler.go:100-139 Handler] *)
Record Handler (C : Type) := mkProxy {
  px_adminKey : string;
  px_billing : EventHandler;
  px_balCheck : option (addr -> addr -> C -> res Z * C);
  px_ackCheck : option (addr -> C -> res bool * C);
  px_createFee : Z;
  px_pricePerCPUPerSec : option Z;
  px_pricePerMemGBPerSec : option Z;
  px_computePricePerSec : option Z;
  px_voucherIntervalSec : Z;
  px_providerAddress : string;
  px_adminAddresses : list string;
  px_sshGatewayHost : string;
  px_sealKey : option Z;
  px_broker : option brokerClient;
  px_SealedOnly : bool;
  px_AppOwner : option (C -> res string * C);
  px_AppAdmin : option (string -> C -> res bool * C);
  px_SealIssuer : option (C -> res SealIssuer * C);
  px_pages : nat;
  px_domain : string;
  px_protocol : string
}.
Arguments px_adminKey {C}. Arguments px_billing {C}. Arguments px_balCheck {C}. Arguments px_ackCheck {C}.
Arguments px_createFee {C}. Arguments px_pricePerCPUPerSec {C}. Arguments px_pricePerMemGBPerSec {C}.
Arguments px_computePricePerSec {C}. Arguments px_voucherIntervalSec {C}. Arguments px_providerAddress {C}.
Arguments px_adminAddresses {C}. Arguments px_sshGatewayHost {C}. Arguments px_sealKey {C}. Arguments px_broker {C}.
Arguments px_SealedOnly {C}. Arguments px_AppOwner {C}. Arguments px_AppAdmin {C}. Arguments px_SealIssuer {C}.
Arguments px_pages {C}. Arguments px_domain {C}. Arguments px_protocol {C}.

(** ** Prices and balances *)

Definition positive (p : option Z) : bool := match p with Some x => 0 <? x | None => false end.

(** Nil prices are dereferenced like any other.
    [internal/proxy/handler.go:1592-1602 intervalCost] *)
Definition intervalCost {C} (px : Handler C) (cpu memGB : Z) : res Z :=
  if positive (px_pricePerCPUPerSec px) || positive (px_pricePerMemGBPerSec px)
  then match px_pricePerCPUPerSec px, px_pricePerMemGBPerSec px with
       | Some c, Some m => Ok ((c * cpu + m * memGB) * px_voucherIntervalSec px)
       | _, _ => Panic
       end
  else match px_computePricePerSec px with
       | Some p => Ok (p * px_voucherIntervalSec px)
       | None => Panic
       end.

(** [internal/proxy/handler.go:1632-1641 availableBalance] *)
Definition availableBalance (chainBalance reserved : Z) (heldDebt : option Z) : Z :=
  let available := chainBalance - reserved in
  let available := match heldDebt with Some d => available - d | None => available end in
  if available <? 0 then 0 else available.

(** The reservation's lifetime in whole seconds, computed in 64-bit nanoseconds.
    [internal/proxy/handler.go:418-418 handleCreate] *)
Definition reserve_ttl {C} (px : Handler C) : Z :=
  int64_wrap (int64_wrap (px_voucherIntervalSec px * 2) * 1000000000) ÷ 1000000000.

(** ** Response fields *)

Section Fields.
Context `{SimpleFold}.

(** The members of the first JSON value, when it is an object. *)
Definition body_members (b : body) : list (string * json) := match b with BText (JObj ms) _ => ms | _ => [] end.

(** [internal/proxy/handler.go:1605-1613 extractID] *)
Definition extractID (b : body) : string :=
  match field_string "id" (body_members b) with Ok s => s | _ => EmptyString end.

(** An [int] field whose decoding error is ignored keeps its value. *)
Definition field_int_lax (f : string) (ms : list (string * json)) : Z :=
  foldl (fun acc '(k, v) =>
    if EqualFold k f
    then match v with JNum z false => if (- 2 ^ 63 <=? z) && (z <? 2 ^ 63) then z else acc | _ => acc end
    else acc) 0 ms.

(** [internal/proxy/handler.go:1617-1624 extractResources] *)
Definition extractResources (b : body) : Z * Z :=
  (field_int_lax "cpu" (body_members b), field_int_lax "memory" (body_members b)).

End Fields.

(** ** Goroutines *)

Inductive task :=
| TCreated (id wallet : string) (cpu memGB : Z)
| TStarted (id wallet : string)
| TRegister (id wallet : string) (cpu memGB : Z)
| TDeregister (id : string)
| TStopSandbox (id : string)
| TOnStop (id : string)
| TOnDelete (id : string)
| TOnArchive (id : string)
| TEnsure (id wallet : string).

Section Tasks.
Context `{Keccak} `{Ecdsa} {C : Type} `{DaytonaHTTP C} `{BrokerHTTP C}.

(** [internal/proxy/handler.go:702-709 handleCreate] *)
Definition after_create (px : Handler C) (id wallet : string) (cpu memGB : Z) : M C unit :=
  (match px_broker px with Some b => ignore (registerSession b id wallet cpu memGB) | None => ret tt end) ;;
  OnCreate (px_billing px) id wallet cpu memGB.

(** [internal/proxy/handler.go:829-837 handleStart] *)
Definition after_start (px : Handler C) (id wallet : string) : M C unit :=
  let! x := attempt (GetSandbox id) in
  let '(cpu, memGB) := match x with inl sb => (sb_CPU sb, sb_Memory sb) | inr _ => (0, 0) end in
  OnStart (px_billing px) id wallet cpu memGB.

Definition run_task (px : Handler C) (t : task) : M C unit :=
  match t with
  | TCreated id wallet cpu memGB => after_create px id wallet cpu memGB
  | TStarted id wallet => after_start px id wallet
  | TRegister id wallet cpu memGB =>
      match px_broker px with Some b => ignore (registerSession b id wallet cpu memGB) | None => ret tt end
  | TDeregister id => match px_broker px with Some b => ignore (deregisterSession b id) | None => ret tt end
  | TStopSandbox id => ignore (StopSandbox id)
  | TOnStop id => OnStop id
  | TOnDelete id => OnDelete id
  | TOnArchive id => OnArchive id
  | TEnsure id wallet => EnsureSession (px_billing px) id wallet
  end.

End Tasks.

(** ** The gate *)

Section Gate.
Context `{Keccak} `{Ecdsa} {C : Type} `{BrokerHTTP C}.

(** Held debt and queued usage; a failed lookup counts as zero.
    [internal/proxy/handler.go:1689-1704 outstandingDebt] *)
Definition outstandingDebt (px : Handler C) (wallet : string) : M C (Z * Z) :=
  let user := hex_to_address wallet in
  let provider := hex_to_address (px_providerAddress px) in
  let! h := attempt (HeldDebt user provider) in
  let! p := attempt (QueuedPending (LQueue provider) user provider) in
  ret (match h with inl x => x | inr _ => 0 end, match p with inl x => x | inr _ => 0 end).

(** [internal/proxy/handler.go:382-393 handleCreate] *)
Definition ack_gate (px : Handler C) (wallet : string) : M C (option reply) :=
  match px_ackCheck px with
  | None => ret None
  | Some isAcknowledged =>
      let! acked := attempt (chain_call (isAcknowledged (hex_to_address wallet))) in
      match acked with
      | inr _ => ret (Some (error_reply 502 "acknowledgement check failed"))
      | inl false => ret (Some (error_reply 402 "TEE signer not acknowledged"))
      | inl true => ret None
      end
  end.

Definition insufficient (shortfall required held pending : Z) : reply :=
  let display := if shortfall + required <? 0 then 0 else shortfall + required in
  RJson 402 [("error", "insufficient balance"); ("available", pretty display); ("required", pretty required);
             ("outstanding_debt", pretty held); ("pending_settlement", pretty pending)].

(** The reserved total after the increment, or without Redis the advisory one;
    and whether a reservation is held.
    [internal/proxy/handler.go:418-428 handleCreate] *)
Definition reserve_first (px : Handler C) (wallet : string) (required : Z) : M C (Z * bool) :=
  let! r := attempt (Reserve wallet (px_providerAddress px) required (reserve_ttl px)) in
  match r with
  | inl total => ret (total, true)
  | inr _ => let! g := GetReserved wallet (px_providerAddress px) in ret (g + required, false)
  end.

(** The balance gate of both handlers: reserve first, judge the total after
    the increment, roll back on refusal. The broker is asked for [sandboxID]
    (empty for a create). The result is whether a reservation is held and the
    shortfall the broker was not needed for.
    [internal/proxy/handler.go:402-469 handleCreate] *)
Definition balance_gate (px : Handler C) (getBalance : addr -> addr -> C -> res Z * C)
  (wallet sandboxID : string) (cpu memGB required : Z) : M C ((bool * bool) + reply) :=
  let provider := px_providerAddress px in
  let balance_of := attempt (chain_call (getBalance (hex_to_address wallet) (hex_to_address provider))) in
  let! debts := outstandingDebt px wallet in
  let '(held, pending) := debts in
  let heldDebt := held + pending in
  let! b := balance_of in
  match b with
  | inr _ => ret (inr (error_reply 502 "balance check failed"))
  | inl balance =>
  let! tr := reserve_first px wallet required in
  let '(totalReserved, reserved) := tr in
  let release := if reserved : bool then Release wallet provider required else ret tt in
  let shortfall := balance - heldDebt - totalReserved in
  let! s :=
    match px_broker px with
    | Some bc =>
        if shortfall <? 0 then
          let! f := attempt (registerSession bc sandboxID wallet cpu memGB) in
          match f with
          | inr _ => ret (inl shortfall)
          | inl _ =>
              let! b2 := balance_of in
              match b2 with
              | inr _ => release ;; ret (inr (error_reply 502 "balance check failed"))
              | inl balance2 => ret (inl (balance2 - heldDebt - totalReserved))
              end
          end
        else ret (inl shortfall)
    | None => ret (inl shortfall)
    end in
  match s with
  | inr e => ret (inr e)
  | inl s2 =>
      if s2 <? 0 then release ;; ret (inr (insufficient s2 required held pending))
      else ret (inl (reserved, negb (shortfall <? 0)))
  end
  end.

End Gate.

(** ** Snapshots and sealed sources *)

(** [internal/proxy/handler.go:1757-1757 errSnapshotOverridesImage] *)
Definition errSnapshotOverridesImage : rerr :=
  EMsg "sealed containers must run their image's own entrypoint; this snapshot overrides it or is built from a Dockerfile".

(** [internal/proxy/handler.go:1762-1762 errSnapshotRunsOtherImage] *)
Definition errSnapshotRunsOtherImage : rerr :=
  EMsg "sealed containers must run the image their certificate names; this snapshot's runner image differs from its image".

(** [internal/proxy/handler.go:1765-1776 sealedSource] *)
Record sealedSource := mkSource { ss_image : string; ss_runRef : string; ss_entrypoint : list string; ss_snapshotID : string }.

(** [internal/proxy/handler.go:1839-1852 resolveSnapshot] *)
Fixpoint find_snapshot (ref : string) (snaps : list Snapshot) (found : option Snapshot) : res (option Snapshot) :=
  match snaps with
  | [] => Ok found
  | s :: snaps' =>
      if negb (bool_decide (sn_Name s = ref)) && negb (bool_decide (sn_ID s = ref)) then find_snapshot ref snaps' found
      else if bool_decide (sn_ID s = EmptyString) then Err (EMsg "snapshot has no id")
      else match found with
           | Some f => if bool_decide (sn_ID f = sn_ID s) then find_snapshot ref snaps' (Some s)
                       else Err (EMsg "snapshot matches more than one snapshot record")
           | None => find_snapshot ref snaps' (Some s)
           end
  end.

(** [internal/proxy/handler.go:1838-1862 resolveSnapshot] *)
Definition resolveSnapshot (snaps : list Snapshot) (ref : string) : res Snapshot :=
  res_bind (find_snapshot ref snaps None) (fun found =>
  match found with
  | None => Err (EMsg "snapshot not found")
  | Some m =>
      if existsb (fun s => negb (bool_decide (sn_ID s = sn_ID m)) && bool_decide (sn_Name s = sn_ID m)) snaps
      then Err (EMsg "snapshot matches more than one snapshot record")
      else Ok m
  end).

Section Source.
Context {C : Type} `{DaytonaHTTP C} `{ImageNames} `{Crane C}.

(** [internal/proxy/handler.go:1779-1799 resolveImageRef] *)
Definition resolveImageRef (px : Handler C) (b : body) : M C sealedSource :=
  let img := createField b "image" in
  if negb (bool_decide (img = EmptyString)) then ret (mkSource img EmptyString [] EmptyString)
  else
    let ref := createField b "snapshot" in
    if bool_decide (ref = EmptyString) then fail (EMsg "no image or snapshot specified")
    else
      let! snaps := ListSnapshots (px_pages px) in
      let! s := lift_res (resolveSnapshot snaps ref) in
      match sn_BuildInfo s with
      | Some _ => fail errSnapshotOverridesImage
      | None => ret (mkSource (sn_ImageName s) (sn_Ref s) (sn_Entrypoint s) (sn_ID s))
      end.

(** The refusing status and error, if any. [internal/proxy/handler.go:1807-1830 checkSnapshotRunsImage] *)
Definition checkSnapshotRunsImage (src : sealedSource) (imageHash : string) : M C (option (Z * rerr)) :=
  if bool_decide (ss_runRef src = EmptyString) then ret (Some (400, EMsg "snapshot has no runner image yet; wait until it is active"))
  else match PinRef (ss_image src) imageHash with
  | Panic => panic
  | Err e => ret (Some (422, e))
  | Ok pinned =>
      let! certified := attempt (GetConfig pinned) in
      match certified with
      | inr e => ret (Some (422, e))
      | inl certified =>
          let! runs := attempt (GetConfig (ss_runRef src)) in
          match runs with
          | inr e => ret (Some (422, e))
          | inl runs =>
              if negb (bool_decide (ic_Digest runs = ic_Digest certified)) then ret (Some (400, errSnapshotRunsOtherImage))
              else if negb (bool_decide (ss_entrypoint src = [])) && negb (bool_decide (ic_Entrypoint certified = ss_entrypoint src))
              then ret (Some (400, errSnapshotOverridesImage))
              else ret None
          end
      end
  end.

End Source.

(** ** Create *)

(** What is forwarded: the body, and what the certificate covers. *)
Record prepared := mkPrepared { pp_body : body; pp_sealed : bool; pp_image : string; pp_snapshot : string }.

Section Create.
Context `{Keccak} `{Ecdsa} `{SimpleFold} {C : Type} `{DaytonaHTTP C} `{BrokerHTTP C} `{ImageNames} `{Crane C} `{KeyGen C}
  `{Upstream C}.

(** The billed spec and the snapshot record it came from.
    [internal/proxy/handler.go:360-379 handleCreate] *)
Definition spec_lookup (px : Handler C) (b : body) : M C ((Z * Z * option Snapshot) + reply) :=
  let! x := attempt (GetSnapshot (extractSnapshotName b)) in
  match x, px_balCheck px with
  | inl (Some snap), _ => ret (inl (sn_CPU snap, sn_Mem snap, Some snap))
  | inl None, None | inr _, None => ret (inl (0, 0, None))
  | inr _, Some _ => ret (inr (error_reply 502 "could not resolve snapshot spec for billing"))
  | inl None, Some _ => ret (inr (error_reply 400 "snapshot not found"))
  end.

(** Everything a sealed create's image goes through: the body with a direct
    image pinned, the image digest and the certified snapshot's id. The boolean
    of a refusal is whether [releaseRejectedSeal] runs.
    [internal/proxy/handler.go:508-576 handleCreate] *)
Definition sealed_source (px : Handler C) (b : body) (snap : option Snapshot) : M C ((body * string * string) + (reply * bool)) :=
  let! src := attempt (resolveImageRef px b) in
  match src with
  | inr e =>
      ret (inr (error_reply 400 (if bool_decide (e = errSnapshotOverridesImage) then error_text e
                                 else "sealed containers require an image or snapshot: " +:+ error_text e), true))
  | inl src =>
  let snapshotID := ss_snapshotID src in
  let mismatch := match snap with
                  | Some s => negb (bool_decide (snapshotID = EmptyString)) && negb (bool_decide (sn_ID s = snapshotID))
                  | None => false
                  end in
  if mismatch then ret (inr (error_reply 400 "snapshot matches more than one snapshot record", true))
  else
  let! digest := attempt (GetDigest (ss_image src)) in
  match digest with
  | inr e => ret (inr (RJson 422 [("error", "sealed containers require the image to be present in the registry"); ("detail", error_text e)], true))
  | inl imageHash =>
  let! refused := if bool_decide (snapshotID = EmptyString) then ret None else checkSnapshotRunsImage src imageHash in
  match refused with
  | Some (status, e) =>
      ret (inr (if status =? 400 then error_reply status (error_text e)
                else RJson status [("error", "sealed containers require the snapshot's images to be readable"); ("detail", error_text e)],
                true))
  | None =>
      if hasDirectImage b then
        match PinRef (ss_image src) imageHash with
        | Panic => panic
        | Err _ => ret (inr (error_reply 400 "invalid image reference", false))
        | Ok pinned =>
            match rewriteImage b pinned with
            | Panic => panic
            | Err _ => ret (inr (error_reply 400 "invalid request body", false))
            | Ok b' => ret (inl (b', imageHash, snapshotID))
            end
        end
      else ret (inl (b, imageHash, snapshotID))
  end end end.

(** The errors of [InjectSeal] that are the caller's.
    [internal/proxy/handler.go:610-610 handleCreate] *)
Definition caller_error (e : rerr) : bool := starts_with "seal_id must be" (error_text e) || bool_decide (e = ErrCallerEnvKey).

(** The certificate of a sealed create; an issuer lookup that outlives its
    five seconds is an error. [internal/proxy/handler.go:594-618 handleCreate] *)
Definition seal_body (px : Handler C) (imageHash : string) (b : body) : M C (body + reply) :=
  match px_SealIssuer px with
  | None => panic
  | Some getIssuer =>
      let! issuer := attempt (chain_call getIssuer) in
      match issuer with
      | inr _ => ret (inr (error_reply 503 "sealed issuer authentication unavailable"))
      | inl issuer =>
          let! x := attempt (InjectSeal (px_domain px) b (px_sealKey px) imageHash issuer) in
          match x with
          | inl b' => ret (inl b')
          | inr e =>
              ret (inr (if caller_error e then error_reply 400 (error_text e) else error_reply 500 "seal initialization failed"))
          end
      end
  end.

(** From the admitted request to the body to forward. The boolean of a refusal
    is whether [releaseRejectedSeal] runs: not for the refusals between the
    gate and the issuer check, nor for a body the owner label cannot be put in.
    [internal/proxy/handler.go:485-618 handleCreate] *)
Definition prepare (px : Handler C) (wallet : string) (b : body) (snap : option Snapshot) : M C (prepared + (reply * bool)) :=
  let sealed := extractSealed b in
  match ValidatePublicPorts b sealed with
  | Panic => panic
  | Err e => ret (inr (error_reply 400 (error_text e), false))
  | Ok _ =>
  if negb sealed && px_SealedOnly px then ret (inr (error_reply 400 "this provider only accepts sealed sandboxes", false))
  else if sealed && bool_decide (px_sealKey px = None)
  then ret (inr (error_reply 501 "sealed containers not available: KMS app signer not configured", false))
  else if sealed && match px_SealIssuer px with None => true | Some _ => false end
  then ret (inr (error_reply 503 "sealed issuer authentication not configured", true))
  else
  let! src := if sealed then sealed_source px b snap else ret (inl (b, EmptyString, EmptyString)) in
  match src with
  | inr e => ret (inr e)
  | inl (b, imageHash, snapshotID) =>
  match InjectOwner b wallet with
  | Panic => panic
  | Err _ => ret (inr (error_reply 400 "invalid request body", false))
  | Ok modified =>
  match (if bool_decide (snapshotID = EmptyString) then Ok modified else setCreateField modified "snapshot" snapshotID) with
  | Panic => panic
  | Err _ => ret (inr (error_reply 400 "invalid request body", true))
  | Ok modified =>
      if sealed then
        let! x := seal_body px imageHash modified in
        match x with
        | inr e => ret (inr (e, true))
        | inl m => ret (inl (mkPrepared m sealed imageHash snapshotID))
        end
      else ret (inl (mkPrepared modified sealed imageHash snapshotID))
  end end end end.

(** The upstream response as the caller gets it ([Content-Length] is computed
    anew from the body). [internal/proxy/handler.go:674-681 handleCreate] *)
Definition drop_content_length (h : headers) : headers := filter (fun kv => EqualFold kv.1 "Content-Length" = false) h.

(** The response to hand out, or the orphan's id when the backend dropped the
    requested ports. [internal/proxy/handler.go:641-684 handleCreate] *)
Definition create_response (px : Handler C) (sealed ports_requested : bool) (rsp : response) : response + string :=
  let ok := ok_status (rs_status rsp) in
  let b := rs_body rsp in
  let b := if sealed && ok then match stripSealKey b with Ok b' => b' | _ => b end else b in
  let keep b := inl (mkResp (rs_status rsp) (drop_content_length (rs_header rsp)) (rs_mentioned rsp) b) in
  if ports_requested && ok then
    match decoratePublicPorts (px_domain px) (px_protocol px) b with
    | Ok (_, false) => inr (extractID b)
    | Ok (decorated, true) => keep decorated
    | _ => keep b
    end
  else keep b.

(** Forward, answer and bill. [internal/proxy/handler.go:628-719 handleCreate] *)
Definition forward_create (px : Handler C) (rq : request) (wallet : string) (pp : prepared) (ports_requested : bool)
  (release : M C unit) (spec : Z * Z) : M C (reply * list task) :=
  let! rsp := ServeHTTP (px_adminKey px) (set_body (pp_body pp) rq) in
  match create_response px (pp_sealed pp) ports_requested rsp with
  | inr orphan =>
      ret (error_reply 502 "publicPorts is not supported by this provider's Daytona backend; the sandbox was not started",
           if bool_decide (orphan = EmptyString) then [] else [TStopSandbox orphan])
  | inl answer =>
      if ok_status (rs_status rsp) then
        let id := extractID (rs_body rsp) in
        if bool_decide (id = EmptyString) then release ;; ret (RResp answer, [])
        else
          let '(rc, rm) := extractResources (rs_body rsp) in
          let '(cpu, memGB) := if negb (rc =? 0) || negb (rm =? 0) then (rc, rm) else spec in
          ret (RResp answer, [TCreated id wallet cpu memGB])
      else release ;; ret (RResp answer, [])
  end.

(** The gate of a create: what is required is the create fee and one interval
    of the snapshot's spec. [internal/proxy/handler.go:395-470 handleCreate] *)
Definition create_gate (px : Handler C) (wallet : string) (cpu memGB : Z) : M C ((bool * Z) + reply) :=
  match px_balCheck px with
  | None => ret (inl (false, 0))
  | Some getBalance =>
      let! cost := lift_res (intervalCost px cpu memGB) in
      let required := px_createFee px + cost in
      let! g := balance_gate px getBalance wallet EmptyString cpu memGB required in
      match g with
      | inr e => ret (inr e)
      | inl (reserved, _) => ret (inl (reserved, required))
      end
  end.

Definition refuse (e : reply) : M C (reply * list task) := ret (e, []).

Definition requested_ports (b : body) : bool := match parsePublicPorts b with Ok (Some _) => true | _ => false end.

(** [internal/proxy/handler.go:336-720 handleCreate] *)
Definition handleCreate (px : Handler C) (wallet : string) (rq : request) : M C (reply * list task) :=
  let b := rq_body rq in
  match requireSnapshotCreate b with
  | Panic => panic
  | Err e => refuse (error_reply 400 (error_text e))
  | Ok _ =>
  let! spec := spec_lookup px b in
  match spec with
  | inr e => refuse e
  | inl (reqCPU, reqMemGB, snap) =>
  let! nack := ack_gate px wallet in
  match nack with
  | Some e => refuse e
  | None =>
  let! gate := create_gate px wallet reqCPU reqMemGB in
  match gate with
  | inr e => refuse e
  | inl (reserved, required) =>
  let release := if reserved : bool then Release wallet (px_providerAddress px) required else ret tt in
  let! p := prepare px wallet b snap in
  match p with
  | inr (e, releases) => (if releases : bool then release else ret tt) ;; refuse e
  | inl pp => forward_create px rq wallet pp (requested_ports b) release (reqCPU, reqMemGB)
  end end end end end.

End Create.

(** ** Start and the balance query *)

Section Start.
Context `{Keccak} `{Ecdsa} {C : Type} `{DaytonaHTTP C} `{BrokerHTTP C} `{Upstream C}.

(** A start against an open billing session skips the gate.
    [internal/proxy/handler.go:726-842 handleStart] *)
Definition handleStart (px : Handler C) (id wallet : string) (rq : request) : M C (reply * list task) :=
  let! nack := ack_gate px wallet in
  match nack with
  | Some e => ret (e, [])
  | None =>
  let! sb := attempt (GetSandbox id) in
  let '(cpu, memGB) := match sb with inl s => (sb_CPU s, sb_Memory s) | inr _ => (0, 0) end in
  let! existing := attempt (GetSession id) in
  let sessionOpen := match existing with inl (Some _) => true | _ => false end in
  let! gate :=
    match px_balCheck px with
    | Some getBalance =>
        if sessionOpen then ret (inl (false, 0, []))
        else
          let! cost := lift_res (intervalCost px cpu memGB) in
          let! g := balance_gate px getBalance wallet id cpu memGB cost in
          ret (match g with
               | inr e => inr e
               | inl (reserved, unaided) =>
                   inl (reserved, cost,
                        if (unaided : bool) && negb (bool_decide (px_broker px = None)) then [TRegister id wallet cpu memGB] else [])
               end)
    | None => ret (inl (false, 0, []))
    end in
  match gate with
  | inr e => ret (e, [])
  | inl (reserved, required, monitor) =>
      let! rsp := ServeHTTP (px_adminKey px) rq in
      if ok_status (rs_status rsp) then ret (RResp rsp, monitor ++ [TStarted id wallet])
      else
        (if reserved : bool then Release wallet (px_providerAddress px) required else ret tt) ;;
        ret (RResp rsp, monitor)
  end
  end.

(** [internal/proxy/handler.go:1648-1673 handleBalance] *)
Definition handleBalance (px : Handler C) (wallet : string) : M C reply :=
  match px_balCheck px with
  | None => ret (error_reply 501 "balance check not configured")
  | Some getBalance =>
      let! b := attempt (chain_call (getBalance (hex_to_address wallet) (hex_to_address (px_providerAddress px)))) in
      match b with
      | inr _ => ret (error_reply 502 "balance lookup failed")
      | inl balance =>
          let! reserved := GetReserved wallet (px_providerAddress px) in
          let! debts := outstandingDebt px wallet in
          let '(held, pending) := debts in
          ret (RJson 200 [("provider", px_providerAddress px); ("balance", pretty balance); ("reserved", pretty reserved);
                          ("outstanding_debt", pretty held); ("pending_settlement", pretty pending);
                          ("available", pretty (availableBalance balance reserved (Some (held + pending))))])
      end
  end.

End Start.

(** ** The gate admits what the balance covers *)

Section GateProperties.
Context `{Keccak} `{Ecdsa} {C : Type} `{BrokerHTTP C}.
Implicit Types w : world C.

(** What the caller owes by the books: held vouchers and queued usage. *)
Definition owed (px : Handler C) (wallet : string) (r : redis) : Z :=
  let u := hex_to_address wallet in
  let p := hex_to_address (px_providerAddress px) in
  foldl (sum_step (fun _ => true)) 0 (lrange (-1) (list_at r (LHeld u p)))
  + foldl (sum_step (belongs u p)) 0 (lrange (-1) (list_at r (LQueue p))).

Lemma outstandingDebt_quiet px wallet w :
  quiet w -> exists held pending, outstandingDebt px wallet w = (Ok (held, pending), w) /\ held + pending = owed px wallet (w_redis w).
Proof.
  intros Hq. eexists _, _. split; [|reflexivity]. unfold outstandingDebt, HeldDebt, QueuedPending, bind, attempt.
  rewrite !rread_quiet by done. cbn. by rewrite !rread_quiet by done.
Qed.

Definition resv_key (px : Handler C) (wallet : string) : string * string := reservedKey wallet (px_providerAddress px).

Lemma release_quiet wallet provider amount w :
  quiet w -> Release wallet provider amount w
    = (Ok tt, set_redis (releaseScript (w_now w) (reservedKey wallet provider) amount (w_redis w)).2 w).
Proof.
  intros Hq. unfold Release, bind at 1, gets, ignore, bind, attempt. rewrite rcmd_quiet by done.
  destruct (releaseScript _ _ _ _) as [[x|e|] r] eqn:E; [done..|]. exfalso. revert E. unfold releaseScript. by repeat case_match.
Qed.

(** Undoing one's own reservation restores the counter. *)
Lemma reserve_release now k amount ttl r total r1 :
  (forall v, reserved_at now r k = Some v -> 0 < v) -> 0 <= amount ->
  reserveScript now k amount ttl r = (Ok total, r1) ->
  reserved_at now r1 k = Some total /\ total = default 0 (reserved_at now r k) + amount /\
  exists x, reserved_at now (releaseScript now k amount r1).2 k = x /\ x = reserved_at now r k.
Proof.
  intros Hpos Ha. unfold reserveScript. cbv zeta. case_match eqn:Eok; [done|]. destruct (Z.leb_spec ttl 0); [done|].
  intros [= <- <-]. set (v := default 0 (reserved_at now r k) + amount) in *.
  assert (reserved_at now (upd_reserved <[k:=mkResv v (Some (now + ttl))]> r) k = Some v) as Hv.
  { unfold reserved_at. cbn. rewrite lookup_insert_eq. cbn. destruct (Z.ltb_spec now (now + ttl)); [done|lia]. }
  split; [done|]. split; [done|]. eexists. split; [reflexivity|]. unfold releaseScript. cbv zeta. rewrite Hv. cbn [default].
  unfold id. replace (v - amount) with (default 0 (reserved_at now r k)) by (subst v; lia).
  assert (0 <= default 0 (reserved_at now r k)) as Hd.
  { destruct (reserved_at now r k) as [x|] eqn:E; cbn; [specialize (Hpos x eq_refl)|]; unfold id; lia. }
  zbool. unfold int64_ok in *. zbool.
  destruct (Z.leb_spec (- 2 ^ 63) amount), (Z.ltb_spec amount (2 ^ 63)), (Z.leb_spec (- 2 ^ 63) (default 0 (reserved_at now r k))),
    (Z.ltb_spec (default 0 (reserved_at now r k)) (2 ^ 63)); cbn [andb negb]; try lia.
  destruct (Z.leb_spec (default 0 (reserved_at now r k)) 0) as [Hz|Hz]; cbn [snd].
  - unfold reserved_at at 1. cbn. rewrite lookup_delete_eq. destruct (reserved_at now r k) as [x|]; [|done].
    specialize (Hpos x eq_refl). cbn in Hz. unfold id in Hz. lia.
  - unfold reserved_at at 1. cbn. rewrite !lookup_insert_eq. cbn. destruct (Z.ltb_spec now (now + ttl)); [|lia].
    destruct (reserved_at now r k) as [x|]; [done|]. cbn in Hz. lia.
Qed.

(** The broker call leaves Redis, the clock and the network alone. *)
Lemma registerSession_frame b sid wallet cpu mem w :
  exists x c, registerSession b sid wallet cpu mem w = (x, set_chain c w).
Proof.
  unfold registerSession, bind, gets, lift_res, chain_call. destruct (session_request _ _ _ _ _ _) as [q|e|].
  - destruct (post_session q (w_chain w)) as [[st|e|] c]; [case_match|..]; by eexists _, c.
  - exists (Err e), (w_chain w). by rewrite set_chain_same.
  - exists Panic, (w_chain w). by rewrite set_chain_same.
Qed.

Lemma reserve_first_quiet px wallet required w :
  quiet w -> 0 < reserve_ttl px ->
  let k := resv_key px wallet in
  let total := default 0 (reserved_at (w_now w) (w_redis w) k) + required in
  exists reserved r1, reserve_first px wallet required w = (Ok (total, reserved), set_redis r1 w) /\
    (if reserved : bool then reserveScript (w_now w) k required (reserve_ttl px) (w_redis w) = (Ok total, r1) else r1 = w_redis w).
Proof.
  intros Hq Ht k total. unfold reserve_first, Reserve, bind at 1, attempt, bind at 1, gets. rewrite rcmd_quiet by done.
  fold (resv_key px wallet) k. destruct (reserveScript _ _ _ _ _) as [[t|e|] r] eqn:E; cbn [fst snd].
  - exists true, r. assert (t = total) as ->; [|done]. revert E. unfold reserveScript. cbv zeta. by case_match; [|case_match]; intros [=].
  - exists false, (w_redis w). split; [|done].
    assert (r = w_redis w) as ->.
    { revert E. unfold reserveScript. cbv zeta. case_match; [by intros [=]|]. destruct (Z.leb_spec (reserve_ttl px) 0); [lia|done]. }
    replace (set_redis (w_redis w) w) with w by (by destruct w).
    unfold GetReserved, bind, gets. rewrite attempt_rread_quiet by done. unfold total. fold (resv_key px wallet) k.
    by destruct (reserved_at _ _ k).
  - exfalso. revert E. unfold reserveScript. cbv zeta. by repeat case_match.
Qed.

(** The outcome of the gate for a caller with [before] reserved. *)
Record gate_outcome (px : Handler C) (getBalance : addr -> addr -> C -> res Z * C) (wallet : string) (required : Z)
  (w : world C) (x : (bool * bool) + reply) (w' : world C) : Prop := {
  go_frame : w_now w' = w_now w /\ quiet w' /\ exists f, w_redis w' = upd_reserved f (w_redis w);
  go_result :
    let k := resv_key px wallet in
    let before := reserved_at (w_now w) (w_redis w) k in
    let total := default 0 before + required in
    match x with
    | inl (reserved, _) =>
        (exists balance c, (getBalance (hex_to_address wallet) (hex_to_address (px_providerAddress px)) c).1 = Ok balance /\
          owed px wallet (w_redis w) + total <= balance) /\
        reserved_at (w_now w) (w_redis w') k = if reserved : bool then Some total else before
    | inr _ => reserved_at (w_now w) (w_redis w') k = before
    end
}.

Lemma release_only now k amount r : exists g, (releaseScript now k amount r).2 = upd_reserved g r.
Proof. unfold releaseScript. cbv zeta. repeat case_match; cbn; eauto. by exists id; destruct r. Qed.

(** A refusal after the reservation: released or never taken. *)
Lemma refused_outcome px getBalance wallet required w c r1 (reserved : bool) e total :
  quiet w -> 0 <= required -> (forall v, reserved_at (w_now w) (w_redis w) (resv_key px wallet) = Some v -> 0 < v) ->
  (if reserved then reserveScript (w_now w) (resv_key px wallet) required (reserve_ttl px) (w_redis w) = (Ok total, r1)
   else r1 = w_redis w) ->
  exists w', (if reserved then Release wallet (px_providerAddress px) required else ret tt) (set_chain c (set_redis r1 w)) = (Ok tt, w') /\
    gate_outcome px getBalance wallet required w (inr e) w'.
Proof.
  intros Hq Hr Hpos Hres. destruct reserved.
  - rewrite release_quiet by done. eexists. split; [done|]. cbn.
    destruct (reserve_release _ _ _ _ _ _ _ Hpos Hr Hres) as (_ & _ & y & Hy & ->).
    assert (exists f, r1 = upd_reserved f (w_redis w)) as [f ->].
    { revert Hres. unfold reserveScript. cbv zeta. case_match; [done|]. case_match; [done|]. intros [= _ <-]. eauto. }
    split; [|exact Hy]. split; [done|]. split; [exact Hq|]. cbn [w_redis set_redis].
    destruct (release_only (w_now w) (resv_key px wallet) required (upd_reserved f (w_redis w))) as [g Hg].
    exists (g ∘ f). unfold resv_key in Hg. by rewrite Hg.
  - subst r1. eexists. split; [done|]. split; [|done]. split; [done|]. split; [exact Hq|]. exists id. cbn. by destruct (w_redis w).
Qed.

(** An admission, with the balance read at chain state [c]. *)
Lemma admitted_outcome px getBalance wallet required w c c0 r1 (reserved unaided : bool) balance (total : Z) :
  quiet w -> 0 <= required -> (forall v, reserved_at (w_now w) (w_redis w) (resv_key px wallet) = Some v -> 0 < v) ->
  (if reserved then reserveScript (w_now w) (resv_key px wallet) required (reserve_ttl px) (w_redis w) = (Ok total, r1)
   else r1 = w_redis w) ->
  total = default 0 (reserved_at (w_now w) (w_redis w) (resv_key px wallet)) + required ->
  (getBalance (hex_to_address wallet) (hex_to_address (px_providerAddress px)) c0).1 = Ok balance ->
  0 <= balance - owed px wallet (w_redis w) - total ->
  gate_outcome px getBalance wallet required w (inl (reserved, unaided)) (set_chain c (set_redis r1 w)).
Proof.
  intros Hq Hr Hpos Hres Ht Hb Hs. split.
  - split; [done|]. split; [exact Hq|]. cbn. destruct reserved; [|subst r1; exists id; by destruct (w_redis w)].
    revert Hres. unfold reserveScript. cbv zeta. case_match; [done|]. case_match; [done|]. intros [= _ <-]. eauto.
  - cbv zeta. split; [exists balance, c0; split; [exact Hb|lia]|]. cbn. destruct reserved; [|by subst r1].
    destruct (reserve_release _ _ _ _ _ _ _ Hpos Hr Hres) as (E & _). by rewrite E, Ht.
Qed.

Lemma gate_finish px getBalance wallet required w c c0 r1 (reserved unaided : bool) balance total s2 e x w' :
  quiet w -> 0 <= required -> (forall v, reserved_at (w_now w) (w_redis w) (resv_key px wallet) = Some v -> 0 < v) ->
  (if reserved then reserveScript (w_now w) (resv_key px wallet) required (reserve_ttl px) (w_redis w) = (Ok total, r1)
   else r1 = w_redis w) ->
  total = default 0 (reserved_at (w_now w) (w_redis w) (resv_key px wallet)) + required ->
  (getBalance (hex_to_address wallet) (hex_to_address (px_providerAddress px)) c0).1 = Ok balance ->
  s2 = balance - owed px wallet (w_redis w) - total ->
  (if s2 <? 0 then (if reserved then Release wallet (px_providerAddress px) required else ret tt) ;; ret (inr e)
   else ret (inl (reserved, unaided))) (set_chain c (set_redis r1 w)) = (Ok x, w') ->
  gate_outcome px getBalance wallet required w x w'.
Proof.
  intros Hq Hr Hpos Hres Ht Hb Hs2. destruct (Z.ltb_spec s2 0).
  - destruct (refused_outcome px getBalance wallet required w c r1 reserved e total Hq Hr Hpos Hres) as (w2 & Ew & Ho).
    rewrite (bind_ok _ _ _ _ _ Ew). by intros [= <- <-].
  - intros [= <- <-]. eapply admitted_outcome; try done. lia.
Qed.

Lemma balance_gate_spec px getBalance wallet sid cpu mem required w x w' :
  quiet w -> 0 <= required -> 0 < reserve_ttl px ->
  (forall v, reserved_at (w_now w) (w_redis w) (resv_key px wallet) = Some v -> 0 < v) ->
  balance_gate px getBalance wallet sid cpu mem required w = (Ok x, w') ->
  gate_outcome px getBalance wallet required w x w'.
Proof.
  intros Hq Hr Ht Hpos E. unfold balance_gate in E. cbv zeta in E.
  destruct (outstandingDebt_quiet px wallet w Hq) as (held & pending & Ed & Ho). rewrite (bind_ok _ _ _ _ _ Ed) in E. clear Ed.
  remember (getBalance (hex_to_address wallet) (hex_to_address (px_providerAddress px))) as f eqn:Hf.
  unfold bind at 1, attempt at 1, chain_call at 1 in E. destruct (f (w_chain w)) as [[balance|e|] c1] eqn:Eb; [| |done].
  2: { injection E as <- <-. destruct (refused_outcome px getBalance wallet required w c1 (w_redis w) false
         (error_reply 502 "balance check failed") 0 Hq Hr Hpos eq_refl) as (w2 & Ew & Hout). injection Ew as <-. exact Hout. }
  destruct (reserve_first_quiet px wallet required (set_chain c1 w) Hq Ht) as (reserved & r1 & Er & Hres).
  rewrite (bind_ok _ _ _ _ _ Er) in E. clear Er. cbn [w_now set_chain w_redis] in *.
  set (total := default 0 (reserved_at (w_now w) (w_redis w) (resv_key px wallet)) + required) in *.
  change (set_redis r1 (set_chain c1 w)) with (set_chain c1 (set_redis r1 w)) in E.
  assert (f (w_chain w) = (Ok balance, c1)) as Eb' by done. rewrite Hf in Eb'.
  assert (gate_last : forall c c0 b s2 un e, (f c0).1 = Ok b -> s2 = b - (held + pending) - total ->
    (if s2 <? 0 then (if reserved then Release wallet (px_providerAddress px) required else ret tt) ;; ret (inr e)
     else ret (inl (reserved, un))) (set_chain c (set_redis r1 w)) = (Ok x, w') -> gate_outcome px getBalance wallet required w x w').
  { intros c c0 b s2 un e Hb Hs2 Hrun. rewrite Hf in Hb. rewrite Ho in Hs2. by eapply gate_finish. }
  assert (Hfst : (f (w_chain w)).1 = Ok balance) by (by rewrite Eb).
  destruct (px_broker px) as [bc|]; [|exact (gate_last c1 (w_chain w) balance _ _ _ Hfst eq_refl E)].
  destruct (balance - (held + pending) - total <? 0) eqn:Es; [|exact (gate_last c1 (w_chain w) balance _ _ _ Hfst eq_refl E)].
  unfold bind at 1 in E.
  destruct (registerSession_frame bc sid wallet cpu mem (set_chain c1 (set_redis r1 w))) as (y & c2 & Ey).
  change (set_chain c2 (set_chain c1 (set_redis r1 w))) with (set_chain c2 (set_redis r1 w)) in Ey.
  assert (attempt (registerSession bc sid wallet cpu mem) (set_chain c1 (set_redis r1 w))
    = (match y with Ok a => Ok (inl a) | Err e => Ok (inr e) | Panic => Panic end, set_chain c2 (set_redis r1 w))) as Ea.
  { unfold attempt. rewrite Ey. by destruct y. }
  destruct y as [[]|e|].
  - rewrite (bind_ok _ _ _ _ _ Ea) in E. unfold bind at 1, attempt at 1, chain_call at 1 in E. cbn [w_chain set_chain set_redis] in E.
    destruct (f c2) as [[b2|e|] c3] eqn:Eb2; [| |done].
    + refine (gate_last c3 c2 b2 _ _ _ _ eq_refl E). by rewrite Eb2.
    + destruct (refused_outcome px getBalance wallet required w c3 r1 reserved (error_reply 502 "balance check failed") total Hq Hr Hpos Hres)
        as (w2 & Ew & Hout). rewrite (bind_ok _ _ _ _ _ Ew) in E. injection E as <- <-. exact Hout.
  - rewrite (bind_ok _ _ _ _ _ Ea) in E. exact (gate_last c2 (w_chain w) balance _ _ _ Hfst eq_refl E).
  - unfold bind at 1 in E. rewrite Ea in E. done.
Qed.

End GateProperties.

(** ** Outside operations *)

Section Frames.
Context `{Keccak} `{Ecdsa} `{SimpleFold} {C : Type} `{DaytonaHTTP C} `{ImageNames} `{Crane C} `{KeyGen C} `{Upstream C}.

Lemma request_outside method path : outside (Daytona.request method path : M C _).
Proof. apply outside_chain_call. Qed.

Lemma GetSnapshot_outside id : outside (GetSnapshot id : M C _).
Proof. unfold GetSnapshot. apply outside_bind; [apply request_outside|intros [st p]]. outside. Qed.

Lemma GetSandbox_outside id : outside (GetSandbox id : M C _).
Proof. unfold GetSandbox. apply outside_bind; [apply request_outside|intros [st p]]. outside. Qed.

Lemma ListSnapshots_outside fuel : outside (ListSnapshots fuel : M C _).
Proof.
  unfold ListSnapshots. generalize 1, (@nil Snapshot). induction fuel as [|fuel IH]; intros page all; cbn [list_snapshots]; [outside|].
  apply outside_bind; [apply request_outside|intros [st p]]. repeat case_match; auto with outside.
Qed.

Hint Resolve request_outside GetSnapshot_outside GetSandbox_outside ListSnapshots_outside : outside.

Lemma GetDigest_outside ref : outside (GetDigest ref : M C _).
Proof. unfold GetDigest. outside. Qed.

Lemma GetConfig_outside ref : outside (GetConfig ref : M C _).
Proof. unfold GetConfig. outside. Qed.

Lemma InjectSeal_outside pd b k h i : outside (InjectSeal pd b k h i : M C _).
Proof. unfold InjectSeal, choose_seal_id. outside. Qed.

Hint Resolve GetDigest_outside GetConfig_outside InjectSeal_outside : outside.

Lemma resolveImageRef_outside px b : outside (resolveImageRef px b : M C _).
Proof. unfold resolveImageRef. outside. Qed.

Lemma checkSnapshotRunsImage_outside src h : outside (checkSnapshotRunsImage src h : M C _).
Proof. unfold checkSnapshotRunsImage. outside. Qed.

Hint Resolve resolveImageRef_outside checkSnapshotRunsImage_outside : outside.

Lemma prepare_outside px wallet b snap : outside (prepare px wallet b snap : M C _).
Proof. unfold prepare, sealed_source, seal_body. cbv zeta. outside. Qed.

Lemma ServeHTTP_outside key rq : outside (ServeHTTP key rq : M C _).
Proof. unfold ServeHTTP. outside. Qed.

Lemma ack_gate_outside px wallet : outside (ack_gate px wallet : M C _).
Proof. unfold ack_gate. outside. Qed.

Lemma spec_lookup_outside px b : outside (spec_lookup px b : M C _).
Proof. unfold spec_lookup. outside. Qed.

End Frames.

(** ** What a created sandbox was admitted for *)

Section CreateProperties.
Context `{Keccak} `{Ecdsa} `{SimpleFold} {C : Type} `{DaytonaHTTP C} `{BrokerHTTP C} `{ImageNames} `{Crane C} `{KeyGen C}
  `{Upstream C}.
Implicit Types w : world C.

(** [outside] at an [Ok] result. *)
Lemma outside_Ok {A} (m : M C A) w a w' : outside m -> m w = (Ok a, w') -> exists c, w' = set_chain c w.
Proof. intros Hm E. destruct (Hm w) as (x & c & E'). rewrite E' in E. exists c. by injection E. Qed.

Lemma spec_lookup_billed px b w getBalance cpu mem snap w' :
  px_balCheck px = Some getBalance -> spec_lookup px b w = (Ok (inl (cpu, mem, snap)), w') ->
  exists s, GetSnapshot (extractSnapshotName b) w = (Ok (Some s), w') /\ snap = Some s /\ cpu = sn_CPU s /\ mem = sn_Mem s.
Proof.
  intros Hb. unfold spec_lookup. intros (x & w1 & Ea & E)%bind_Ok. apply attempt_Ok in Ea. rewrite Hb in E.
  destruct x as [[s|]|e]; try done. injection E as <- <- <- <-. by exists s.
Qed.

(** What stands behind a billed create: the balance read during the request
    covers the debts, every reservation outstanding and this one, which is the
    create fee and one interval at the snapshot's own size. *)
Record covered (px : Handler C) (getBalance : addr -> addr -> C -> res Z * C) (wallet : string) (s : Snapshot)
  (w : world C) (cost balance : Z) : Prop := {
  cv_cost : intervalCost px (sn_CPU s) (sn_Mem s) = Ok cost;
  cv_read : exists c, (getBalance (hex_to_address wallet) (hex_to_address (px_providerAddress px)) c).1 = Ok balance;
  cv_enough : owed px wallet (w_redis w) + (default 0 (reserved_at (w_now w) (w_redis w) (resv_key px wallet))
    + (px_createFee px + cost)) <= balance
}.

Lemma forward_create_spec px rq wallet pp ports (release : M C unit) spec w rep ts w' :
  forward_create px rq wallet pp ports release spec w = (Ok (rep, ts), w') ->
  forall id wl cpu mem, TCreated id wl cpu mem ∈ ts ->
  exists c, w' = set_chain c w /\ ts = [TCreated id wl cpu mem] /\ wl = wallet /\ id <> EmptyString.
Proof.
  unfold forward_create. intros (rsp & w1 & Es & E)%bind_Ok id wl cpu mem Hin.
  destruct (outside_Ok _ _ _ _ (ServeHTTP_outside (px_adminKey px) _) Es) as [c ->].
  destruct (create_response _ _ _ _) as [answer|orphan].
  - destruct (ok_status _).
    + case_bool_decide as Hid; cbn zeta in E.
      * apply bind_Ok in E as (u & w2 & _ & E). injection E as _ <- _. by apply elem_of_nil in Hin.
      * destruct (extractResources _) as [rc rm]. destruct (if negb (rc =? 0) || negb (rm =? 0) then (rc, rm) else spec) as [cpu' mem'].
        injection E as _ <- <-. apply list_elem_of_singleton in Hin as [= -> -> -> ->]. by exists c.
    + apply bind_Ok in E as (u & w2 & _ & E). injection E as _ <- _. by apply elem_of_nil in Hin.
  - injection E as _ <- _. case_bool_decide; [by apply elem_of_nil in Hin|by apply list_elem_of_singleton in Hin].
Qed.


End CreateProperties.

(** ** What a sealed create certifies *)

(** The create reference names one record, and the forwarded id no other. *)
Record only_record (snaps : list Snapshot) (ref : string) (s : Snapshot) : Prop := {
  or_in : s ∈ snaps;
  or_names : sn_Name s = ref \/ sn_ID s = ref;
  or_id : sn_ID s <> EmptyString;
  or_only : forall s', s' ∈ snaps -> sn_Name s' = ref \/ sn_ID s' = ref \/ sn_Name s' = sn_ID s -> sn_ID s' = sn_ID s
}.

Lemma find_snapshot_ok ref snaps : forall found m, find_snapshot ref snaps found = Ok (Some m) ->
  (found = Some m \/ m ∈ snaps /\ (sn_Name m = ref \/ sn_ID m = ref) /\ sn_ID m <> EmptyString) /\
  (forall f, found = Some f -> sn_ID f = sn_ID m) /\
  (forall s, s ∈ snaps -> sn_Name s = ref \/ sn_ID s = ref -> sn_ID s = sn_ID m).
Proof.
  induction snaps as [|s snaps IH]; intros found m; cbn [find_snapshot].
  { intros [= ->]. split; [by left|]. split; [by intros f [= ->]|]. intros s Hs. by apply elem_of_nil in Hs. }
  destruct (bool_decide_reflect (sn_Name s = ref)) as [En|En], (bool_decide_reflect (sn_ID s = ref)) as [Ei|Ei]; cbn [negb andb].
  4: { intros E. apply IH in E as (Hm & Hf & Hs). split; [|split; [done|]].
       - destruct Hm as [?|[? ?]]; [by left|right]. split; [by right|done].
       - intros s' [->|Hin]%elem_of_cons Hn; [by destruct Hn|by apply Hs]. }
  all: destruct (bool_decide_reflect (sn_ID s = EmptyString)) as [Ee|Ee]; [done|].
  all: assert (find_snapshot ref snaps (Some s) = Ok (Some m) -> (forall f, found = Some f -> sn_ID f = sn_ID s) ->
    (found = Some m \/ m ∈ s :: snaps /\ (sn_Name m = ref \/ sn_ID m = ref) /\ sn_ID m <> EmptyString) /\
    (forall f, found = Some f -> sn_ID f = sn_ID m) /\
    (forall s', s' ∈ s :: snaps -> sn_Name s' = ref \/ sn_ID s' = ref -> sn_ID s' = sn_ID m)) as Hgo.
  1, 3, 5: intros E Hfs; apply IH in E as (Hm & Hf & Hs); specialize (Hf s eq_refl);
    (split; [right; destruct Hm as [[= <-]|[? ?]]; (split; [by (left || right)|]); [by split; [tauto|]|done]|]);
    (split; [intros f Hff; by rewrite (Hfs f Hff)|]); intros s' [->|Hin]%elem_of_cons Hn; [done|by apply Hs].
  all: destruct found as [f|]; [case_bool_decide as Ef; [|done]|]; intros E; apply Hgo; try done; by intros f' [= <-].
Qed.

Lemma resolveSnapshot_ok snaps ref s : resolveSnapshot snaps ref = Ok s -> only_record snaps ref s.
Proof.
  unfold resolveSnapshot. destruct (find_snapshot ref snaps None) as [[m|]| |] eqn:E; cbn [res_bind]; try done.
  apply find_snapshot_ok in E as (Hm & _ & Hs). destruct Hm as [|(Hin & Hn & Hid)]; [done|].
  destruct (existsb _ snaps) eqn:Ex; [done|]. intros [= <-]. split; [done..|]. intros s' Hin' [Hn'|[Hn'|Hn']]; [by apply Hs; auto..|].
  destruct (decide (sn_ID s' = sn_ID m)) as [|Hne]; [done|]. exfalso.
  assert (existsb (fun s => negb (bool_decide (sn_ID s = sn_ID m)) && bool_decide (sn_Name s = sn_ID m)) snaps = true) as Ht; [|congruence].
  apply existsb_exists. exists s'. split; [by apply list_elem_of_In|]. by rewrite bool_decide_false, bool_decide_true.
Qed.

(** The runner image and the certified one agree. *)
Record runs_certified {C} `{ImageNames} `{Crane C} (s : Snapshot) (imageHash : string) : Prop := {
  rc_digest : exists c, (crane_Digest (sn_ImageName s) c).1 = Ok imageHash;
  rc_config : exists pinned certified runs c1 c2, PinRef (sn_ImageName s) imageHash = Ok pinned /\
    (crane_Config pinned c1).1 = Ok certified /\ (crane_Config (sn_Ref s) c2).1 = Ok runs /\
    ic_Digest runs = ic_Digest certified /\
    (sn_Entrypoint s = [] \/ sn_Entrypoint s = ic_Entrypoint certified)
}.
Arguments runs_certified C {_ _} s imageHash.

Section Sealed.
Context `{KeccakLaws} `{EcdsaLaws} `{SimpleFoldLaws} {C : Type} `{DaytonaHTTP C} `{ImageNames} `{Crane C} `{KeyGen C} `{Upstream C}.
Implicit Types w : world C.

Lemma GetDigest_read ref w d w' : GetDigest ref w = (Ok d, w') -> exists c, (crane_Digest ref c).1 = Ok d.
Proof. unfold GetDigest. intros (u & w1 & _ & E)%bind_Ok. apply chain_call_Ok in E. eauto. Qed.

Lemma GetConfig_read ref w i w' : GetConfig ref w = (Ok i, w') -> exists c, (crane_Config ref c).1 = Ok i.
Proof. unfold GetConfig. intros (u & w1 & _ & E)%bind_Ok. apply chain_call_Ok in E. eauto. Qed.

Lemma checkSnapshotRunsImage_ok image runRef entrypoint sid hash w w' :
  checkSnapshotRunsImage (mkSource image runRef entrypoint sid) hash w = (Ok None, w') ->
  exists pinned certified runs c1 c2, PinRef image hash = Ok pinned /\
    (crane_Config pinned c1).1 = Ok certified /\ (crane_Config runRef c2).1 = Ok runs /\
    ic_Digest runs = ic_Digest certified /\ (entrypoint = [] \/ entrypoint = ic_Entrypoint certified).
Proof.
  unfold checkSnapshotRunsImage. cbn [ss_runRef ss_image ss_entrypoint ss_snapshotID]. case_bool_decide; [done|].
  destruct (PinRef image hash) as [pinned|e|]; [|done..].
  intros (x & w1 & Ec & E)%bind_Ok. destruct x as [certified|e]; [|done]. apply attempt_Ok, GetConfig_read in Ec as [c1 Hc].
  apply bind_Ok in E as (y & w2 & Er & E). destruct y as [runs|e]; [|done]. apply attempt_Ok, GetConfig_read in Er as [c2 Hr].
  destruct (bool_decide_reflect (ic_Digest runs = ic_Digest certified)) as [Hd|Hd]; cbn [negb] in E; [|done].
  exists pinned, certified, runs, c1, c2. split_and!; try done.
  destruct (bool_decide_reflect (entrypoint = [])) as [|Hn]; [by left|].
  destruct (bool_decide_reflect (ic_Entrypoint certified = entrypoint)) as [|Hn2]; [by right|done].
Qed.

(** A snapshot reference is what the policy leaves a create. *)
Lemma policy_fields b :
  requireSnapshotCreate b = Ok tt ->
  createField b "image" = EmptyString /\ createField b "snapshot" <> EmptyString /\ exists ms tr, b = BText (JObj ms) tr.
Proof.
  intros (ms & tr & -> & (name & Hname & Hblank) & _ & Hcustom & _)%create_policy_spec. unfold createField.
  cbn [decode_map json_map map_or_nil default]. unfold id. split_and!; [| |by eexists _, _].
  - destruct (members_map ms !! "image") as [j|] eqn:Ei; [|done]. exfalso.
    specialize (Hcustom "image" "image" ltac:(by rewrite Ei) ltac:(in_list)). by rewrite EqualFold_refl in Hcustom.
  - rewrite Hname. cbn. intros ->. done.
Qed.

Lemma sealed_source_ok px b snap w b' hash sid w' :
  requireSnapshotCreate b = Ok tt -> sealed_source px b snap w = (Ok (inl (b', hash, sid)), w') ->
  b' = b /\ exists snaps s, (exists w0 w1, ListSnapshots (px_pages px) w0 = (Ok snaps, w1)) /\
    only_record snaps (createField b "snapshot") s /\ sn_BuildInfo s = None /\ sid = sn_ID s /\
    (forall s0, snap = Some s0 -> sn_ID s0 = sn_ID s) /\ runs_certified C s hash.
Proof.
  intros (Hi & Hs & _)%policy_fields. unfold sealed_source. intros (src & w1 & Es & E)%bind_Ok.
  destruct src as [src|e]; [|done]. apply attempt_Ok in Es. unfold resolveImageRef in Es. rewrite Hi, bool_decide_true in Es by done.
  cbn [negb] in Es. rewrite bool_decide_false in Es by done. apply bind_Ok in Es as (snaps & w2 & El & Es).
  apply bind_Ok in Es as (s & w3 & Er & Es). injection Er as Er _. apply resolveSnapshot_ok in Er.
  destruct (sn_BuildInfo s) eqn:Ebi; [done|]. injection Es as <- _. cbn [ss_snapshotID ss_image] in E.
  pose proof (or_id _ _ _ Er) as Hid.
  assert (forall s0, snap = Some s0 -> sn_ID s0 = sn_ID s) as Hsame.
  { intros s0 ->. rewrite (bool_decide_false (sn_ID s = EmptyString)) in E by done. cbn [negb andb] in E.
    destruct (bool_decide_reflect (sn_ID s0 = sn_ID s)); [done|done]. }
  cbv zeta in E. case_match eqn:Emis; [done|]. apply bind_Ok in E as (dg & w4 & Ed & E). destruct dg as [h|e]; [|done].
  apply attempt_Ok, GetDigest_read in Ed. apply bind_Ok in E as (ref & w5 & Ec & E).
  rewrite bool_decide_false in Ec by done. destruct ref as [[st e]|]; [done|].
  unfold hasDirectImage in E. rewrite Hi, bool_decide_true in E by done. injection E as <- <- <- _.
  split; [done|]. exists snaps, s. split_and!; try done; [by eexists _, _|]. split; [done|].
  by apply checkSnapshotRunsImage_ok in Ec.
Qed.

(** C18: a sealed create runs what its certificate names.  When a sealed create
    is prepared for forwarding, its reference names exactly one snapshot record,
    the record the spec was billed from; the body forwarded carries that record's
    id, the caller as owner and the sealed label; the certificate in its
    environment is for the digest of the record's image, and the copy the runner
    starts has the same image config and the image's own entrypoint. *)
Theorem sealed_create_certified px wallet b snap w pp w' :
  requireSnapshotCreate b = Ok tt -> extractSealed b = true -> prepare px wallet b snap w = (Ok (inl pp), w') ->
  exists snaps s issuer appKey now m out,
    (exists w0 w1, ListSnapshots (px_pages px) w0 = (Ok snaps, w1)) /\ only_record snaps (createField b "snapshot") s /\
    (forall s0, snap = Some s0 -> sn_ID s0 = sn_ID s) /\ runs_certified C s (pp_image pp) /\
    pp_body pp = marshal_map out /\ out !! "snapshot" = Some (JStr (sn_ID s)) /\ out !! "image" = None /\
    sealed_body issuer (pp_image pp) (px_domain px) appKey now m out /\
    exists ls, out !! "labels" = Some (JObj ls) /\ members_map ls !! ownerLabel = Some (JStr wallet) /\
      members_map ls !! sealedLabel = Some (JStr "true").
Proof.
  intros Hpol Hseal. pose proof (policy_fields b Hpol) as (Hi & _ & ms & tr & Eb). unfold prepare. cbv zeta. rewrite Hseal.
  destruct (ValidatePublicPorts b true) as [u| |] eqn:Ev; [|done..]. cbn [negb andb].
  assert (tr = false) as ->. { destruct tr; [|done]. rewrite Eb in Ev. done. }
  destruct (px_sealKey px) as [appKey|] eqn:Ek; [|done]. rewrite bool_decide_false by done.
  destruct (px_SealIssuer px) as [getIssuer|] eqn:Eis; [|done].
  intros (src & w1 & Es & E)%bind_Ok. destruct src as [[[b' hash] sid]|e]; [|done].
  apply (sealed_source_ok _ _ _ _ _ _ _ _ Hpol) in Es as (-> & snaps & s & Hl & Hone & _ & -> & Hsame & Hrc).
  pose proof (or_id _ _ _ Hone) as Hid.
  destruct (inject_owner_spec ms wallet) as (o1 & labels & Eo & Hinj). rewrite <- Eb in Eo, Hinj. rewrite Eo in E.
  rewrite bool_decide_false in E by done. unfold setCreateField in E. cbn [unmarshal_map marshal_map json_map res_bind] in E.
  rewrite members_map_map_members in E.
  apply bind_Ok in E as (x & w2 & Ex & E). destruct x as [mb|e]; [|done]. injection E as <- _.
  unfold seal_body in Ex. rewrite Eis, Ek in Ex. apply bind_Ok in Ex as (iss & w3 & Ei & Ex). destruct iss as [issuer|e]; [|done].
  apply bind_Ok in Ex as (y & w4 & Ey & Ex). destruct y as [mb'|e]; [|done]. injection Ex as <- _. apply attempt_Ok in Ey.
  unfold marshal_map in Ey at 1. apply inject_seal_spec in Ey as (out & -> & Hsb). rewrite members_map_map_members in Hsb.
  set (m := <["snapshot" := _]> o1) in *. exists snaps, s, issuer, appKey, (w_now w3 mod 2 ^ 64), m, out.
  cbn [pp_image pp_body]. split_and!; try done.
  - rewrite (sealed_rest _ _ _ _ _ _ _ Hsb) by not_in. subst m. by rewrite lookup_insert_eq.
  - rewrite (sealed_rest _ _ _ _ _ _ _ Hsb) by not_in. subst m. rewrite lookup_insert_ne by done.
    rewrite (inj_rest _ _ _ _ _ Hinj); [|done|].
    + unfold createField in Hi. rewrite Eb in Hi. cbn [decode_map json_map map_or_nil default] in Hi. unfold id in Hi.
      destruct (create_policy_spec _ Hpol) as (ms' & tr' & Eb' & _ & _ & Hcustom & _). rewrite Eb in Eb'. injection Eb' as <- _.
      destruct (members_map ms !! "image") as [j|] eqn:Ej; [|done]. exfalso.
      specialize (Hcustom "image" "image" ltac:(by rewrite Ej) ltac:(in_list)). by rewrite EqualFold_refl in Hcustom.
    + intros f Hf. repeat (apply elem_of_cons in Hf as [->|Hf]; [by apply EqualFold_lit|]). by apply elem_of_nil in Hf.
  - destruct (sealed_cert _ _ _ _ _ _ _ Hsb) as (priv & sealID & att & env & ls & _ & _ & Hls & _).
    exists ls. split; [done|]. destruct (inj_labels _ _ _ _ _ Hinj) as (ls1 & Hls1 & Hmm).
    assert (default ∅ (as_map (m !! "labels")) = labels) as Hlab.
    { subst m. rewrite lookup_insert_ne by done. rewrite Hls1. cbn. exact Hmm. }
    rewrite !(sealed_other_labels _ _ _ _ _ _ _ Hsb ls) by done. rewrite Hlab.
    split; [apply (inj_owner _ _ _ _ _ Hinj)|by apply (inj_sealed _ _ _ _ _ Hinj)].
Qed.

End Sealed.

Module GateExamples.
Import Toy SealExamples.

(** One snapshot of two cores and four gigabytes, one image, and a Daytona
    that creates what it is asked for; balances are ten thousand. *)
Definition snapshot0 : Snapshot := mkSnapshot "s1" "agent" "registry:6000/agent:d-1" "registry:6000/copy:1" "active" 2 4 10 ["/run"] None.

#[export] Instance one_snapshot : DaytonaHTTP Z := fun method path _ c =>
  if bool_decide (path = "/api/snapshots/agent") then (Ok (200, PSnapshot snapshot0), c)
  else if starts_with "/api/snapshots?" path then (Ok (200, PSnapshotPage [snapshot0] 1), c)
  else (Ok (404, POther), c).

#[export] Instance no_broker : BrokerHTTP Z := {| post_session := fun _ c => (Ok 200, c); delete_session := fun _ _ c => (Ok 200, c) |}.

#[export] Instance plain_names : ImageNames := {| ParseReference := fun s => Some (mkRef s "registry:6000" None); strict_tag := fun _ => true |}.

#[export] Instance one_image : Crane Z := {|
  crane_Digest := fun _ c => (Ok image0, c);
  crane_Config := fun _ c => (Ok (mkImageConfig "sha256:cfg" ["/run"]), c);
  crane_Head := fun _ c => (HeadNotFound, c);
  crane_Copy := fun _ _ c => (Ok tt, c);
  crane_Tag := fun _ _ c => (Ok tt, c);
  crane_ListTags := fun _ c => (Ok [], c);
  crane_Delete := fun _ c => (Ok tt, c)
|}.

#[export] Instance creates : Upstream Z := fun rq c =>
  (Ok (mkResp 200 ∅ false (BText (JObj [("id", JStr "sb1"); ("cpu", JNum 2 false); ("memory", JNum 4 false)]) false)), c).

Definition px0 : Handler Z := {|
  px_adminKey := "admin"; px_billing := BillingExamples.h0;
  px_balCheck := Some (fun _ _ c => (Ok 10000, c)); px_ackCheck := None;
  px_createFee := 50; px_pricePerCPUPerSec := Some 2; px_pricePerMemGBPerSec := Some 1; px_computePricePerSec := Some 3;
  px_voucherIntervalSec := 60; px_providerAddress := addr_hex 8192; px_adminAddresses := []; px_sshGatewayHost := EmptyString;
  px_sealKey := Some 9; px_broker := None; px_SealedOnly := false; px_AppOwner := None; px_AppAdmin := None;
  px_SealIssuer := Some (fun c => (Ok issuer0, c)); px_pages := 5; px_domain := "proxy.example"; px_protocol := "https"
|}.

Definition create_of (ms : list (string * json)) : request := mkReq "POST" "/api/sandbox" ∅ (BText (JObj ms) false).

Definition gworld : world Z := mkWorld empty_redis [] false [] 1700000000 5 [] [].

Definition user0 : string := addr_hex 4096.

Definition created0 : world Z := (handleCreate px0 user0 (create_of [("snapshot", JStr "agent")]) gworld).2.

Definition reply0 : reply :=
  match (handleCreate px0 user0 (create_of [("snapshot", JStr "agent")]) gworld).1 with Ok (r, _) => r | _ => RSandboxes [] end.

Lemma create_runs :
  handleCreate px0 user0 (create_of [("snapshot", JStr "agent")]) gworld = (Ok (reply0, [TCreated "sb1" user0 2 4]), created0).
Proof. vm_compute. reflexivity. Qed.

(** The only snapshot the lookup can name is [snapshot0]. *)
Lemma snapshot_read s c cost :
  GetSnapshot (extractSnapshotName (rq_body (create_of [("snapshot", JStr "agent")]))) gworld = (Ok (Some s), set_chain c gworld) ->
  intervalCost px0 (sn_CPU s) (sn_Mem s) = Ok cost -> 0 <= px_createFee px0 + cost.
Proof.
  assert (GetSnapshot (extractSnapshotName (rq_body (create_of [("snapshot", JStr "agent")]))) gworld
    = (Ok (Some snapshot0), gworld)) as -> by (vm_compute; reflexivity).
  intros E. apply (f_equal fst) in E. cbn [fst] in E. apply (inj Ok) in E. apply (inj Some) in E. subst s.
  intros E. vm_compute in E. apply (inj Ok) in E. subst cost. vm_compute. discriminate.
Qed.

Lemma nothing_reserved v : reserved_at (w_now gworld) (w_redis gworld) (resv_key px0 user0) = Some v -> 0 < v.
Proof.
  assert (reserved_at (w_now gworld) (w_redis gworld) (resv_key px0 user0) = None) as -> by reflexivity. discriminate.
Qed.


Definition sealed_ask : body := BText (JObj [("snapshot", JStr "agent"); ("sealed", JBool true)]) false.

Lemma sealed_prepares :
  match prepare px0 user0 sealed_ask (Some snapshot0) gworld with (Ok (inl _), _) => true | _ => false end = true.
Proof. vm_compute. reflexivity. Qed.

Lemma sealed_ask_policy : requireSnapshotCreate sealed_ask = Ok tt.
Proof. vm_compute. reflexivity. Qed.

Lemma sealed_ask_sealed : extractSealed sealed_ask = true.
Proof. vm_compute. reflexivity. Qed.

Lemma sealed_create_certified_witness :
  exists pp w', prepare px0 user0 sealed_ask (Some snapshot0) gworld = (Ok (inl pp), w') /\
  exists s, runs_certified Z s (pp_image pp).
Proof.
  pose proof sealed_prepares as Hok.
  destruct (prepare px0 user0 sealed_ask (Some snapshot0) gworld) as [[[pp|e]|e|] w'] eqn:E; try discriminate Hok. clear Hok.
  exists pp, w'. split; [reflexivity|].
  destruct (sealed_create_certified px0 user0 sealed_ask (Some snapshot0) gworld pp w' sealed_ask_policy sealed_ask_sealed E)
    as (snaps & s & issuer & appKey & now & m & out & _ & _ & _ & Hrc & _).
  exists s. exact Hrc.
Defined.

(** A create refused after the gate for its ports keeps its reservation:
    the caller gets a 400, no task follows, and 530 stay reserved until the
    counter's lifetime ends. *)
Theorem create_refusal_leaks :
  let rq := create_of [("snapshot", JStr "agent"); ("publicPorts", JArr [JNum 70000 false])] in
  let '(x, w) := handleCreate px0 user0 rq gworld in
  (exists e, x = Ok (e, []) /\ reply_status e = 400) /\
  reserved_at (w_now w) (w_redis w) (resv_key px0 user0) = Some 530.
Proof. vm_compute. split; [eexists; split; reflexivity|reflexivity]. Qed.

End GateExamples.
