(* ===== verification/Access.v ===== *)
(** * Who may do what (internal/proxy/handler.go, owner.go, sealdebug_*.go)

    The handlers behind the gates, the ownership wrappers and the dispatch of
    the routes.  Gin's matching of a path to a route and its parameters is the
    input of [dispatch_route]. *)

From S2P Require Import Prelude Hex Bytes Crypto Voucher Store Backlog Session Billing Json CreatePolicy Guard Config Daytona Seal Registry Http Auth Broker Gate.

(** The [sealdebug] build tag. *)
Class SealDebug := sealdebug : bool.

(** A route of [Register] with the parameters gin bound.
    [internal/proxy/handler.go:277-321 Register] *)
Inductive route :=
| RCreate
| RBalance
| RList
| RVolumes
| RSnapshotCreate
| RSnapshotDelete (id : string)
| RDelete (id : string)
| RCatchAll (id action : string)
| RGet (id : string)
| RToolbox (id : string)
| RArchiveAll
| RSessionList
| RCloseSession (id : string)
| RAuditLog.

Definition all_hex (s : string) : bool :=
  forallb (fun c => bool_decide (c ∈ list_ascii_of_string "0123456789abcdefABCDEF")) (list_ascii_of_string s).

(** [internal/proxy/handler.go:1866-1866 uuidShaped] *)
Definition uuidShaped (s : string) : bool :=
  bool_decide (String.length <$> split_char "-" s = [8; 4; 4; 4; 12]%nat) && forallb all_hex (split_char "-" s).

(** ** Identity *)

Definition forbidden : reply := error_reply 403 "forbidden".

Definition admin_only : reply := error_reply 403 "admin only".

Section Identity.
Context `{SimpleFold} {C : Type} `{DaytonaHTTP C}.

(** [internal/proxy/handler.go:227-259 isAdmin] *)
Definition isAdmin (px : Handler C) (wallet : string) : M C bool :=
  if bool_decide (wallet = EmptyString) then ret false
  else
    let target := to_lower wallet in
    if bool_decide (target ∈ px_adminAddresses px) then ret true
    else
      let! owner :=
        match px_AppOwner px with
        | None => ret false
        | Some lookup => let! x := attempt (chain_call lookup) in
                         ret (match x with inl o => bool_decide (o = target) | inr _ => false end)
        end in
      if owner : bool then ret true
      else
        match px_AppAdmin px with
        | None => ret false
        | Some allowed => let! x := attempt (chain_call (allowed target)) in
                          ret (match x with inl a => a | inr _ => false end)
        end.

(** [internal/proxy/owner.go:19-29 CheckOwner] *)
Definition CheckOwner (sandboxID walletAddr : string) : M C unit :=
  let! sb := GetSandbox sandboxID in
  match sb_Labels sb !! ownerLabel with
  | Some owner => if EqualFold owner walletAddr then ret tt else fail (EMsg "forbidden")
  | None => fail (EMsg "forbidden")
  end.

(** [internal/proxy/owner.go:32-34 IsSealedSandbox] *)
Definition IsSealedSandbox (sb : Sandbox) : bool := bool_decide (default EmptyString (sb_Labels sb !! sealedLabel) = "true").

(** Both builds of the function: in a [sealdebug] build nothing is blocked.
    [internal/proxy/sealdebug_off.go:9-11 sealBlocksAccess] *)
Definition sealBlocksAccess `{SealDebug} (sb : Sandbox) : bool := if sealdebug then false else IsSealedSandbox sb.

Definition answer : Type := reply * list task.

(** [internal/proxy/handler.go:1514-1524 withOwner] *)
Definition withOwner (id wallet : string) (next : M C answer) : M C answer :=
  let! x := attempt (CheckOwner id wallet) in
  match x with inr _ => refuse forbidden | inl _ => next end.

(** [internal/proxy/handler.go:1532-1546 withOwnerOrAdmin] *)
Definition withOwnerOrAdmin (px : Handler C) (id wallet : string) (next : M C answer) : M C answer :=
  let! admin := isAdmin px wallet in
  if admin : bool then next else withOwner id wallet next.

(** [internal/proxy/handler.go:1551-1571 withOwnerNotSealed] *)
Definition withOwnerNotSealed `{SealDebug} (id wallet : string) (next : M C answer) : M C answer :=
  let! x := attempt (GetSandbox id) in
  match x with
  | inr _ => refuse forbidden
  | inl sb =>
      if negb (EqualFold (default EmptyString (sb_Labels sb !! ownerLabel)) wallet) then refuse forbidden
      else if sealBlocksAccess sb then refuse (error_reply 403 "sealed sandbox: external access not allowed")
      else next
  end.

(** The guard of the admin-only handlers.
    [internal/proxy/handler.go:934-937 handleArchiveAll] *)
Definition admin_gate (px : Handler C) (wallet : string) (next : M C answer) : M C answer :=
  let! admin := isAdmin px wallet in
  if admin : bool then next else refuse admin_only.

End Identity.

(** ** Handlers *)

Section Handlers.
Context `{Keccak} `{Ecdsa} `{SimpleFold} {C : Type} `{DaytonaHTTP C} `{BrokerHTTP C} `{ImageNames} `{Crane C} `{KeyGen C}
  `{Upstream C} `{SessionScan}.

(** [internal/proxy/handler.go:1574-1576 forward] *)
Definition forward (px : Handler C) (rq : request) : M C answer :=
  let! rsp := ServeHTTP (px_adminKey px) rq in ret (RResp rsp, []).

(** Forward, and on success leave [hooks] to goroutines. *)
Definition forward_then (px : Handler C) (rq : request) (hooks : list task) : M C answer :=
  let! rsp := ServeHTTP (px_adminKey px) rq in
  ret (RResp rsp, if ok_status (rs_status rsp) then hooks else []).

Definition broker_hook (px : Handler C) (id : string) : list task :=
  match px_broker px with Some _ => [TDeregister id] | None => [] end.

(** [internal/proxy/handler.go:844-858 handleStop] *)
Definition handleStop (px : Handler C) (id : string) (rq : request) : M C answer :=
  forward_then px rq (TOnStop id :: broker_hook px id).

(** [internal/proxy/handler.go:860-874 handleDelete] *)
Definition handleDelete (px : Handler C) (id : string) (rq : request) : M C answer :=
  forward_then px rq (TOnDelete id :: broker_hook px id).

(** [internal/proxy/handler.go:876-882 handleArchive] *)
Definition handleArchive (px : Handler C) (id : string) (rq : request) : M C answer := forward_then px rq [TOnArchive id].

(** [internal/proxy/handler.go:888-893 handleEnsureBilling] *)
Definition handleEnsureBilling (id wallet : string) : M C answer := ret (RJson 200 [("ok", "true")], [TEnsure id wallet]).

(** [strings.ReplaceAll(s, old, new)] for a non-empty [old]. *)
Fixpoint replace_all (fuel : nat) (old new s : string) : string :=
  match fuel, s with
  | O, _ | _, EmptyString => s
  | S fuel, String c s' =>
      if starts_with old s then new +:+ replace_all fuel old new (substring (String.length old) (String.length s) s)
      else String c (replace_all fuel old new s')
  end.

(** [internal/proxy/handler.go:898-926 handleSSHAccess] *)
Definition handleSSHAccess `{SealDebug} (px : Handler C) (id : string) : M C answer :=
  let! x := attempt (GetSandbox id) in
  match x with
  | inr _ => refuse (error_reply 502 "ssh access failed")
  | inl sb =>
      if sealBlocksAccess sb then refuse (error_reply 403 "sealed sandbox: SSH access not allowed")
      else
        let! y := attempt (CreateSSHAccess id) in
        match y with
        | inr _ => refuse (error_reply 502 "ssh access failed")
        | inl (token, expires, command) =>
            let command := if bool_decide (px_sshGatewayHost px = EmptyString) then command
                           else replace_all (String.length command) "localhost" (px_sshGatewayHost px) command in
            ret (RJson 200 [("token", token); ("expiresAt", expires); ("sshCommand", command)], [])
        end
  end.

(** What became of one sandbox of an archive-all. *)
Inductive archive_outcome := Archived | Skipped | Failed.

(** [polls] is after how many polls the request's context ends.
    [internal/proxy/handler.go:947-973 handleArchiveAll] *)
Definition archive_one (polls : nat) (s : Sandbox) : M C archive_outcome :=
  let state := to_lower (sb_State s) in
  let archive : M C archive_outcome :=
    let! x := attempt (ArchiveSandbox (sb_ID s)) in
    ret (match x with inl _ => Archived | inr _ => Failed end) in
  if bool_decide (state ∈ ["started"; "starting"]) then
    ignore (StopSandbox (sb_ID s)) ;;
    let! x := attempt (WaitStopped polls (sb_ID s)) in
    match x with inr _ => ret Failed | inl _ => archive end
  else if bool_decide (state = "stopped") then archive
  else ret Skipped.

(** [internal/proxy/handler.go:945-974 handleArchiveAll] *)
Fixpoint archive_loop (polls : nat) (l : list Sandbox) (archived skipped failed : list string)
  : M C (list string * list string * list string) :=
  match l with
  | [] => ret (archived, skipped, failed)
  | s :: l' =>
      let! o := archive_one polls s in
      match o with
      | Archived => archive_loop polls l' (archived ++ [sb_ID s]) skipped failed
      | Skipped => archive_loop polls l' archived (skipped ++ [sb_ID s]) failed
      | Failed => archive_loop polls l' archived skipped (failed ++ [sb_ID s])
      end
  end.

(** [internal/proxy/handler.go:932-976 handleArchiveAll] *)
Definition handleArchiveAll (px : Handler C) (polls : nat) (wallet : string) : M C answer :=
  admin_gate px wallet (
  let! x := attempt (ListSandboxes (px_pages px)) in
  match x with
  | inr _ => refuse (error_reply 502 "upstream error")
  | inl sandboxes =>
      let! r := archive_loop polls sandboxes [] [] [] in
      let '(archived, skipped, failed) := r in
      ret (RArchived archived skipped failed, TOnArchive <$> archived)
  end).

(** [internal/proxy/handler.go:979-993 handleForceDelete] *)
Definition handleForceDelete (px : Handler C) (id wallet : string) (rq : request) : M C answer :=
  admin_gate px wallet (forward_then px (mkReq "DELETE" ("/api/sandbox/" +:+ id) (rq_header rq) (rq_body rq)) [TOnDelete id]).

(** [internal/proxy/handler.go:262-269 BrokerDeregister] *)
Definition BrokerDeregister (px : Handler C) (sandboxID : string) : M C unit :=
  match px_broker px with None => ret tt | Some b => ignore (deregisterSession b sandboxID) end.

(** The wait is bounded by the request's context and by sixty seconds, which is
    thirty polls. [internal/proxy/handler.go:1005-1035 handleForceStop] *)
Definition handleForceStop (px : Handler C) (polls : nat) (id wallet : string) : M C answer :=
  admin_gate px wallet (
  let! x := attempt (StopSandbox id) in
  match x with
  | inr e => refuse (error_reply 502 (error_text e))
  | inl _ =>
      let! y := attempt (WaitStopped (Nat.min polls 30) id) in
      match y with
      | inr e => refuse (error_reply 504 ("stopped state timeout: " +:+ error_text e))
      | inl _ =>
          OnStop id ;; BrokerDeregister px id ;;
          ret (RJson 200 [("id", id); ("state", "stopped")], [])
      end
  end).

(** [internal/proxy/handler.go:1041-1056 handleAuditLog] *)
Definition handleAuditLog (px : Handler C) (wallet : string) : M C answer :=
  admin_gate px wallet (
  let! x := attempt events_List in
  match x with
  | inr e => refuse (error_reply 500 (error_text e))
  | inl l => ret (REvents l, [])
  end).

(** [internal/proxy/handler.go:1177-1185 handleSessions] *)
Definition session_of (sessions : list Session) : gmap string Session :=
  foldl (fun m s => <[s_SandboxID s := s]> m) ∅ sessions.

Definition session_row_of (m : gmap string Session) (sb : Sandbox) : session_row :=
  let owner := default EmptyString (sb_Labels sb !! ownerLabel) in
  match m !! sb_ID sb with
  | Some s => mkRow (sb_ID sb) owner (sb_State sb) (s_NextVoucherAt s) (s_PricePerSec s)
  | None => mkRow (sb_ID sb) owner (sb_State sb) 0 None
  end.

(** [internal/proxy/handler.go:1143-1189 handleSessions] *)
Definition handleSessions (px : Handler C) (wallet : string) : M C answer :=
  admin_gate px wallet (
  let! x := attempt (ListSandboxes (px_pages px)) in
  match x with
  | inr _ => refuse (error_reply 502 "upstream error")
  | inl sandboxes =>
      let! y := attempt ScanAllSessions in
      match y with
      | inr e => refuse (error_reply 500 (error_text e))
      | inl sessions => ret (RSessions (session_row_of (session_of sessions) <$> sandboxes), [])
      end
  end).

(** [internal/proxy/handler.go:1198-1216 handleCloseSession] *)
Definition handleCloseSession (px : Handler C) (id wallet : string) : M C answer :=
  admin_gate px wallet (
  if bool_decide (id = EmptyString) then refuse (error_reply 400 "sandbox id required")
  else
    let! x := attempt (DeleteSession id) in
    match x with
    | inr e => refuse (error_reply 500 (error_text e))
    | inl _ => BrokerDeregister px id ;; ret (RJson 200 [("ok", "true")], [])
    end).

(** [internal/proxy/handler.go:1220-1239 handleLabels] *)
Definition handleLabels (px : Handler C) (id : string) (rq : request) : M C answer :=
  let! x := attempt (GetSandbox id) in
  match x with
  | inr _ => refuse (error_reply 502 "sandbox lookup failed")
  | inl sb =>
      match MergeProtectedLabels (rq_body rq) (sb_Labels sb) with
      | Panic => panic
      | Err _ => refuse (error_reply 400 "invalid label payload")
      | Ok merged => forward px (set_body merged rq)
      end
  end.

(** [internal/proxy/handler.go:1243-1257 handleList] *)
Definition handleList (px : Handler C) (wallet : string) : M C answer :=
  let! x := attempt (ListSandboxes (px_pages px)) in
  match x with
  | inr _ => refuse (error_reply 502 "upstream error")
  | inl sandboxes =>
      ret (RSandboxes (filter (fun s => EqualFold (default EmptyString (sb_Labels s !! ownerLabel)) wallet = true) sandboxes), [])
  end.

(** [internal/proxy/handler.go:1266-1272 handleVolumesList] *)
Definition handleVolumesList (px : Handler C) (wallet : string) (rq : request) : M C answer :=
  admin_gate px wallet (forward px rq).


(** [internal/proxy/handler.go:1295-1344 handleSnapshotCreate] *)
Definition handleSnapshotCreate (px : Handler C) (wallet : string) (rq : request) : M C answer :=
  admin_gate px wallet (
  match unmarshal_map (rq_body rq) with
  | Err _ | Panic => refuse (error_reply 400 "invalid JSON body")
  | Ok mm =>
      let m := map_or_nil mm in
      let imageName := as_string (m !! "imageName") in
      if bool_decide (imageName = EmptyString) then refuse (error_reply 400 "imageName required")
      else if uuidShaped (as_string (m !! "name")) then refuse (error_reply 400 "snapshot names must not be UUID-shaped")
      else
        let! x := attempt (TagByDigest imageName) in
        match x with
        | inr e => refuse (RJson 422 [("error", "resolve image digest failed"); ("detail", error_text e)])
        | inl pinned => forward px (set_body (marshal_map (<["imageName" := JStr pinned]> m)) rq)
        end
  end).

(** [internal/proxy/handler.go:1396-1418 cleanupDerivedTag] *)
Definition cleanupDerivedTag (px : Handler C) (snapshotID imageName : string) : M C unit :=
  if bool_decide (imageName = EmptyString) || negb (IsDerivedTag imageName) then ret tt
  else
    let! x := attempt (ListSnapshots (px_pages px)) in
    match x with
    | inr _ => ret tt
    | inl snaps =>
        if existsb (fun s => negb (bool_decide (sn_ID s = snapshotID)) && bool_decide (sn_ImageName s = imageName)) snaps
        then ret tt
        else ignore (DeleteTag imageName)
    end.

(** [internal/proxy/handler.go:1357-1391 handleSnapshotDelete] *)
Definition handleSnapshotDelete (px : Handler C) (snapshotID wallet : string) (rq : request) : M C answer :=
  admin_gate px wallet (
  let! pre := attempt (GetSnapshot snapshotID) in
  let imageName := match pre with inl (Some s) => sn_ImageName s | _ => EmptyString end in
  let! rsp := ServeHTTP (px_adminKey px) rq in
  let! deleted :=
    if ok_status (rs_status rsp) then ret true
    else if rs_status rsp =? 500 then
      let! s := attempt (GetSnapshot snapshotID) in
      ret (match s with inl None => true | _ => false end)
    else ret false in
  if deleted : bool then cleanupDerivedTag px snapshotID imageName ;; ret (RJson 200 [], [])
  else ret (RResp rsp, [])).

(** [internal/proxy/handler.go:1488-1504 stripVolumesThenForward] *)
Definition strip_volumes (b : body) : body :=
  match unmarshal_map b with
  | Ok (Some m) => if existsb (fun kv => EqualFold kv.1 "volumes") (map_to_list m) then marshal_map (delete_folded "volumes" m) else b
  | _ => b
  end.

(** [internal/proxy/handler.go:1487-1511 stripVolumesThenForward] *)
Definition stripVolumesThenForward (px : Handler C) (rq : request) : M C answer :=
  forward px (set_body (strip_volumes (rq_body rq)) rq).

(** [internal/proxy/handler.go:1434-1478 handleCatchAll] *)
Definition handleCatchAll `{SealDebug} (px : Handler C) (polls : nat) (id action wallet : string) (rq : request) : M C answer :=
  let asks m a := bool_decide (rq_method rq = m) && bool_decide (action = a) in
  if bool_decide (action ∈ ["/autostop"; "/autoarchive"]) then refuse (error_reply 403 "managed by billing proxy")
  else if asks "POST" "/start" then withOwner id wallet (handleStart px id wallet rq)
  else if asks "POST" "/stop" then withOwnerOrAdmin px id wallet (handleStop px id rq)
  else if asks "POST" "/archive" then withOwnerOrAdmin px id wallet (handleArchive px id rq)
  else if asks "POST" "/ensure-billing" then withOwnerOrAdmin px id wallet (handleEnsureBilling id wallet)
  else if asks "POST" "/ssh-access" then withOwner id wallet (handleSSHAccess px id)
  else if asks "DELETE" "/force" then handleForceDelete px id wallet rq
  else if asks "POST" "/force-stop" then handleForceStop px polls id wallet
  else if asks "PUT" "/labels" then withOwner id wallet (handleLabels px id rq)
  else withOwnerNotSealed id wallet (stripVolumesThenForward px rq).

Definition no_tasks (m : M C reply) : M C answer := let! r := m in ret (r, []).

(** [internal/proxy/handler.go:277-321 Register] *)
Definition dispatch_route `{SealDebug} (px : Handler C) (polls : nat) (wallet : string) (r : route) (rq : request) : M C answer :=
  match r with
  | RCreate => handleCreate px wallet rq
  | RBalance => no_tasks (handleBalance px wallet)
  | RList => handleList px wallet
  | RVolumes => handleVolumesList px wallet rq
  | RSnapshotCreate => handleSnapshotCreate px wallet rq
  | RSnapshotDelete id => handleSnapshotDelete px id wallet rq
  | RDelete id => withOwnerOrAdmin px id wallet (handleDelete px id rq)
  | RCatchAll id action => handleCatchAll px polls id action wallet rq
  | RGet id => withOwnerOrAdmin px id wallet (forward px rq)
  | RToolbox id => withOwnerNotSealed id wallet (forward px rq)
  | RArchiveAll => handleArchiveAll px polls wallet
  | RSessionList => handleSessions px wallet
  | RCloseSession id => handleCloseSession px id wallet
  | RAuditLog => handleAuditLog px wallet
  end.

(** The parameter the signature is bound to. *)
Definition route_id (r : route) : string :=
  match r with
  | RSnapshotDelete id | RDelete id | RCatchAll id _ | RGet id | RToolbox id | RCloseSession id => id
  | _ => EmptyString
  end.

(** One request of the authenticated group: the signature, the path, the route.
    [cmd/billing/main.go:572-591 main] *)
Definition serve `{SealDebug} `{JsonText} (px : Handler C) (opts : Options) (polls : nat) (escaped : string) (r : route)
  (rq : request) : M C answer :=
  let! who := MiddlewareWithOptions opts (route_id r) rq in
  match who with
  | inr e => refuse e
  | inl wallet =>
      if PathTraversalGuard (rq_path rq) escaped then dispatch_route px polls wallet r rq
      else refuse (error_reply 400 "malformed path")
  end.

End Handlers.

(** ** Reading only

    [reads px m]: whatever [m] does outside is a series of GET exchanges with
    Daytona and of admin look-ups; nothing else changes. *)

Section Reads.
Context `{SimpleFold} {C : Type} `{DaytonaHTTP C}.
Implicit Types (px : Handler C) (w : world C).

Inductive read_step px : C -> C -> Prop :=
| rs_get path c : read_step px c (do_http "GET" path BEmpty c).2
| rs_owner lookup c : px_AppOwner px = Some lookup -> read_step px c (lookup c).2
| rs_admin allowed target c : px_AppAdmin px = Some allowed -> read_step px c (allowed target c).2.

Definition seen px w (c : C) : Prop := rtc (read_step px) (w_chain w) c.

Definition reads px {A} (m : M C A) : Prop := forall w, exists x c, m w = (x, set_chain c w) /\ seen px w c.

Lemma seen_refl px w : seen px w (w_chain w).
Proof. apply rtc_refl. Qed.

Lemma reads_pure px {A} (x : res A) : reads px (fun w => (x, w)).
Proof. intros w. exists x, (w_chain w). rewrite set_chain_same. split; [done|apply seen_refl]. Qed.

Lemma reads_ret px {A} (a : A) : reads px (ret a).
Proof. apply reads_pure. Qed.

Lemma reads_fail px {A} e : reads px (fail e : M C A).
Proof. apply reads_pure. Qed.

Lemma reads_bind px {A B} (m : M C A) (k : A -> M C B) : reads px m -> (forall a, reads px (k a)) -> reads px (bind m k).
Proof.
  intros Hm Hk w. unfold bind. destruct (Hm w) as (x & c & -> & Hc). destruct x as [a|e|]; [|by eexists _, c..].
  destruct (Hk a (set_chain c w)) as (y & c' & -> & Hc'). exists y, c'. split; [done|]. unfold seen in *. etrans; eauto.
Qed.

Lemma reads_attempt px {A} (m : M C A) : reads px m -> reads px (attempt m).
Proof. intros Hm w. unfold attempt. destruct (Hm w) as (x & c & -> & Hc). destruct x; by eexists _, c. Qed.

Lemma reads_call px {A} (f : C -> res A * C) : (forall c, read_step px c (f c).2) -> reads px (chain_call f).
Proof.
  intros Hf w. unfold chain_call. pose proof (Hf (w_chain w)) as Hs. destruct (f (w_chain w)) as [x c]. exists x, c.
  split; [done|]. by apply rtc_once.
Qed.

Lemma reads_GetSandbox px id : reads px (GetSandbox id).
Proof.
  unfold GetSandbox. apply reads_bind; [apply reads_call; intros c; apply rs_get|]. intros [st p].
  repeat case_match; auto using reads_ret, reads_fail.
Qed.

Lemma reads_CheckOwner px id wallet : reads px (CheckOwner id wallet).
Proof.
  unfold CheckOwner. apply reads_bind; [apply reads_GetSandbox|]. intros sb. repeat case_match; auto using reads_ret, reads_fail.
Qed.

Lemma reads_isAdmin px wallet : reads px (isAdmin px wallet).
Proof.
  unfold isAdmin. case_bool_decide; [apply reads_ret|]. cbv zeta. case_bool_decide; [apply reads_ret|].
  assert (forall A (f : C -> res A * C) B (k : A + rerr -> B), (forall c, read_step px c (f c).2) ->
    reads px (let! x := attempt (chain_call f) in ret (k x))) as Hcall.
  { intros A f B k Hf. apply reads_bind; [by apply reads_attempt, reads_call|intros; apply reads_ret]. }
  apply reads_bind.
  - destruct (px_AppOwner px) eqn:E; [|apply reads_ret]. apply Hcall. intros c. by eapply rs_owner.
  - intros [|]; [apply reads_ret|]. destruct (px_AppAdmin px) eqn:E; [|apply reads_ret]. apply Hcall. intros c. by eapply rs_admin.
Qed.

(** A refusal after reading only. *)
Definition refused px w (m : M C answer) (statuses : list Z) : Prop :=
  exists e c, m w = (Ok (e, []), set_chain c w) /\ reply_status e ∈ statuses /\ seen px w c.

Lemma refuse_refused px w e statuses : reply_status e ∈ statuses -> refused px w (refuse e) statuses.
Proof. intros He. exists e, (w_chain w). rewrite set_chain_same. split; [done|]. split; [done|apply seen_refl]. Qed.

(** Reading [m], then being refused in the state it leaves. *)
Lemma refused_bind px w {A} (m : M C A) k statuses :
  reads px m ->
  (forall x c, m w = (x, set_chain c w) -> seen px w c -> exists a, x = Ok a /\ refused px (set_chain c w) (k a) statuses) ->
  refused px w (bind m k) statuses.
Proof.
  intros Hm Hk. destruct (Hm w) as (x & c & E & Hc). destruct (Hk x c E Hc) as (a & -> & e & c' & Ek & He & Hc').
  exists e, c'. rewrite (bind_ok _ _ _ _ _ E). split; [exact Ek|]. split; [done|]. unfold seen in *. etrans; eauto.
Qed.

End Reads.

(** ** Strangers *)

Section Strangers.
Context `{Keccak} `{Ecdsa} `{SimpleFold} {C : Type} `{DaytonaHTTP C} `{BrokerHTTP C} `{ImageNames} `{Crane C} `{KeyGen C}
  `{Upstream C} `{SessionScan} `{SealDebug}.
Implicit Types (px : Handler C) (w : world C).

Definition owner_of (sb : Sandbox) : string := default EmptyString (sb_Labels sb !! ownerLabel).

(** In every state reading leads to, the admin look-ups do not know the wallet. *)
Definition never_admin px wallet w : Prop :=
  forall c, seen px w c -> (isAdmin px wallet (set_chain c w)).1 = Ok false.

(** In every such state Daytona answers, and shows no sandbox of the wallet's
    under [id]. *)
Definition never_owner px id wallet w : Prop :=
  forall c, seen px w c -> (GetSandbox id (set_chain c w)).1 <> Panic /\
    forall sb, (GetSandbox id (set_chain c w)).1 = Ok sb -> EqualFold (owner_of sb) wallet = false.

(** The sandbox a route acts on. *)
Definition sandbox_route (r : route) : option string :=
  match r with RDelete id | RCatchAll id _ | RGet id | RToolbox id => Some id | _ => None end.

(** The routes for operators. *)
Definition operator_route (r : route) : bool :=
  match r with
  | RVolumes | RSnapshotCreate | RSnapshotDelete _ | RArchiveAll | RSessionList | RCloseSession _ | RAuditLog => true
  | _ => false
  end.

Definition stranger px (r : route) wallet w : Prop :=
  never_admin px wallet w /\
  match sandbox_route r with Some id => never_owner px id wallet w | None => operator_route r = true end.

Lemma never_admin_later px wallet w c : never_admin px wallet w -> seen px w c -> never_admin px wallet (set_chain c w).
Proof. intros Hn Hc c' Hc'. apply Hn. unfold seen in *. cbn in Hc'. etrans; eauto. Qed.

Lemma never_owner_later px id wallet w c : never_owner px id wallet w -> seen px w c -> never_owner px id wallet (set_chain c w).
Proof. intros Hn Hc c' Hc'. apply Hn. unfold seen in *. cbn in Hc'. etrans; eauto. Qed.

Lemma admin_gate_refuses px wallet w next : never_admin px wallet w -> refused px w (admin_gate px wallet next) [403].
Proof.
  intros Hn. apply refused_bind; [apply reads_isAdmin|]. intros x c E Hc. exists false.
  pose proof (Hn _ (seen_refl px w)) as Ha. rewrite set_chain_same, E in Ha. split; [exact Ha|]. apply refuse_refused. by left.
Qed.

Lemma withOwner_refuses px id wallet w next : never_owner px id wallet w -> refused px w (withOwner id wallet next) [403].
Proof.
  intros Hn. apply refused_bind; [apply reads_attempt, reads_CheckOwner|]. intros x c E Hc.
  destruct (Hn _ (seen_refl px w)) as [Hp Ho]. rewrite set_chain_same in Hp, Ho.
  revert E. unfold attempt, CheckOwner, bind. destruct (GetSandbox id w) as [[sb|e|] w1]; cbn [fst] in *; [|intros [= <- _]|done].
  2: { eexists. split; [done|]. apply refuse_refused. by left. }
  specialize (Ho sb eq_refl). unfold owner_of in Ho.
  destruct (sb_Labels sb !! ownerLabel) as [o|]; cbn in Ho; unfold Datatypes.id in *; [rewrite Ho|]; intros [= <- _];
    (eexists; split; [done|]; apply refuse_refused; by left).
Qed.

Lemma withOwnerOrAdmin_refuses px id wallet w next :
  never_admin px wallet w -> never_owner px id wallet w -> refused px w (withOwnerOrAdmin px id wallet next) [403].
Proof.
  intros Ha Hn. apply refused_bind; [apply reads_isAdmin|]. intros x c E Hc. exists false.
  pose proof (Ha _ (seen_refl px w)) as Hf. rewrite set_chain_same, E in Hf. split; [exact Hf|].
  apply withOwner_refuses. by apply never_owner_later.
Qed.

Lemma withOwnerNotSealed_refuses px id wallet w next :
  never_owner px id wallet w -> refused px w (withOwnerNotSealed id wallet next) [403].
Proof.
  intros Hn. apply refused_bind; [apply reads_attempt, reads_GetSandbox|]. intros x c E Hc.
  destruct (Hn _ (seen_refl px w)) as [Hp Ho]. rewrite set_chain_same in Hp, Ho. revert E. unfold attempt.
  destruct (GetSandbox id w) as [[sb|e|] w1]; cbn [fst] in *; [|intros [= <- _]|done].
  2: { eexists. split; [done|]. apply refuse_refused. by left. }
  intros [= <- _]. eexists. split; [done|]. specialize (Ho sb eq_refl). unfold owner_of in Ho. cbn beta iota. rewrite Ho.
  apply refuse_refused. by left.
Qed.


(** ** Sealed sandboxes *)

(** In every state reading leads to, Daytona answers and shows the sandbox, if
    at all, with the sealed label. *)
Definition sealed_now px id w : Prop :=
  forall c, seen px w c -> (GetSandbox id (set_chain c w)).1 <> Panic /\
    forall sb, (GetSandbox id (set_chain c w)).1 = Ok sb -> IsSealedSandbox sb = true.

(** What the catch-all handles by name, apart from SSH access. *)
Definition lifecycle : list (string * string) :=
  [("POST", "/start"); ("POST", "/stop"); ("POST", "/archive"); ("POST", "/ensure-billing");
   ("DELETE", "/force"); ("POST", "/force-stop"); ("PUT", "/labels")].

(** The routes into a sandbox: the toolbox, SSH access, and every action the
    catch-all would forward as it comes. *)
Definition channel (r : route) (rq : request) (id : string) : Prop :=
  r = RToolbox id \/ exists action, r = RCatchAll id action /\ (rq_method rq, action) ∉ lifecycle.

Lemma sealed_later px id w c : sealed_now px id w -> seen px w c -> sealed_now px id (set_chain c w).
Proof. intros Hn Hc c' Hc'. apply Hn. unfold seen in *. cbn in Hc'. etrans; eauto. Qed.

(** Reading the sandbox, then being refused whatever it is. *)
Lemma sealed_lookup px id w (k : Sandbox + rerr -> M C answer) statuses :
  sealed_now px id w ->
  (forall x c, seen px w c -> match x with inl sb => IsSealedSandbox sb = true | inr _ => True end ->
    refused px (set_chain c w) (k x) statuses) ->
  refused px w (let! x := attempt (GetSandbox id) in k x) statuses.
Proof.
  intros Hn Hk. apply refused_bind; [apply reads_attempt, reads_GetSandbox|]. intros x c E Hc.
  destruct (Hn _ (seen_refl px w)) as [Hp Ho]. rewrite set_chain_same in Hp, Ho. revert E. unfold attempt.
  destruct (GetSandbox id w) as [[sb|e|] w1]; cbn [fst] in *; [| |done]; intros [= <- _]; eexists; (split; [done|]); apply Hk; auto.
Qed.

Lemma notsealed_closed px id wallet w next :
  sealdebug = false -> sealed_now px id w -> refused px w (withOwnerNotSealed id wallet next) [403; 502].
Proof.
  intros Hd Hn. apply sealed_lookup; [done|]. intros [sb|e] c Hc Hs; [|apply refuse_refused; by left].
  case_match; [apply refuse_refused; by left|]. unfold sealBlocksAccess. rewrite Hd, Hs. apply refuse_refused. by left.
Qed.

Lemma ssh_closed px id wallet w :
  sealdebug = false -> sealed_now px id w -> refused px w (withOwner id wallet (handleSSHAccess px id)) [403; 502].
Proof.
  intros Hd Hn. apply refused_bind; [apply reads_attempt, reads_CheckOwner|]. intros x c E Hc.
  destruct (Hn _ (seen_refl px w)) as [Hp _]. rewrite set_chain_same in Hp. assert (exists a, x = Ok a) as [a ->].
  { revert E. unfold attempt, CheckOwner, bind. destruct (GetSandbox id w) as [[sb|e|] w1]; [|intros E; injection E as <- _; eauto|done].
    unfold ret, fail. repeat case_match; intros E; injection E as <- _; solve [eauto|congruence]. }
  exists a. split; [done|]. destruct a as [u|e]; [|apply refuse_refused; by left].
  unfold handleSSHAccess. apply sealed_lookup; [by apply sealed_later|]. intros [sb|e] c' Hc' Hs.
  - unfold sealBlocksAccess. rewrite Hd, Hs. apply refuse_refused. by left.
  - apply refuse_refused. by right; left.
Qed.

Lemma refused_more px w m l l' : l ⊆ l' -> refused px w m l -> refused px w m l'.
Proof. intros Hl (e & c & E & He & Hc). exists e, c. split; [done|]. split; [by apply Hl|done]. Qed.

(** C20: sealing closes the box.  In a production build, no request for a
    sealed sandbox's toolbox, for SSH access to it or for any action the proxy
    does not handle by name reaches Daytona, not even its owner's or an
    admin's: the answer is 403 (502 when the look-up fails), nothing is
    forwarded, no access token is created and no hook runs. *)
Theorem sealed_closed px polls wallet r rq w id :
  sealdebug = false -> sealed_now px id w -> channel r rq id ->
  refused px w (dispatch_route px polls wallet r rq) [403; 502].
Proof.
  intros Hd Hn [->|(action & -> & Hnot)]; cbn [dispatch_route]; [by apply notsealed_closed|].
  assert (forall m a, (m, a) ∈ lifecycle -> bool_decide (rq_method rq = m) && bool_decide (action = a) = false) as Hl.
  { intros m a Hin. destruct (bool_decide_reflect (rq_method rq = m)) as [<-|], (bool_decide_reflect (action = a)) as [<-|]; done. }
  unfold handleCatchAll. cbv zeta. case_match; [apply refuse_refused; by left|].
  rewrite (Hl "POST" "/start"), (Hl "POST" "/stop"), (Hl "POST" "/archive"), (Hl "POST" "/ensure-billing"), (Hl "DELETE" "/force"),
    (Hl "POST" "/force-stop"), (Hl "PUT" "/labels") by (unfold lifecycle; in_list). case_match; [by apply ssh_closed|by apply notsealed_closed].
Qed.

End Strangers.

(** ** Archiving everything *)

Section ArchiveAll.
Context {C : Type} `{DaytonaHTTP C}.
Implicit Types w : world C.

(** Daytona accepted the archiving of a sandbox that was listed stopped, or
    seen stopped, archived or failed after the stop. *)
Definition archived_ok (l : list Sandbox) (sid : string) : Prop :=
  (exists w w', ArchiveSandbox sid w = (Ok tt, w')) /\
  exists s, s ∈ l /\ sb_ID s = sid /\
    (to_lower (sb_State s) = "stopped" \/ exists polls w w', WaitStopped polls sid w = (Ok tt, w')).

Lemma archive_one_archived polls s w w' :
  archive_one polls s w = (Ok Archived, w') -> archived_ok [s] (sb_ID s).
Proof.
  assert (forall w1 w2, (let! x := attempt (ArchiveSandbox (sb_ID s)) in
    ret (match x with inl _ => Archived | inr _ => Failed end)) w1 = (Ok Archived, w2) ->
    exists w3 w4, ArchiveSandbox (sb_ID s) w3 = (Ok tt, w4)) as Harch.
  { intros w1 w2 (x & w3 & E & Er)%bind_Ok. destruct x as [[]|e]; [|done]. apply attempt_Ok in E. eauto. }
  unfold archive_one. cbv zeta. case_bool_decide as Hs; [|case_bool_decide as Ht; [|done]].
  - intros (u & w1 & _ & E)%bind_Ok. apply bind_Ok in E as (x & w2 & Ew & E). destruct x as [[]|e]; [|done].
    apply attempt_Ok in Ew. split; [by eapply Harch|]. exists s. split; [by left|]. split; [done|]. right. eauto.
  - intros E. split; [by eapply Harch|]. exists s. split; [by left|]. split; [done|]. by left.
Qed.

Lemma archived_ok_mono l l' sid : l ⊆ l' -> archived_ok l sid -> archived_ok l' sid.
Proof. intros Hl [Ha (s & Hs & H')]. split; [done|]. exists s. split; [by apply Hl|done]. Qed.

Lemma archive_loop_accounts polls l : forall archived skipped failed w a s f w',
  archive_loop polls l archived skipped failed w = (Ok (a, s, f), w') ->
  Permutation (a ++ s ++ f) ((archived ++ skipped ++ failed) ++ (sb_ID <$> l)) /\
  exists a', a = archived ++ a' /\ Forall (archived_ok l) a'.
Proof.
  induction l as [|x l IH]; intros archived skipped failed w a s f w'; cbn [archive_loop].
  { intros [= <- <- <- _]. rewrite app_nil_r. split; [done|]. exists []. by rewrite app_nil_r. }
  intros (o & w1 & Eo & E)%bind_Ok. assert (forall a', Forall (archived_ok l) a' -> Forall (archived_ok (x :: l)) a') as Hmono.
  { intros a' Ha. eapply Forall_impl; [exact Ha|]. intros sid. apply archived_ok_mono. set_solver. }
  destruct o; apply IH in E as (Hp & a' & -> & Ha).
  - split.
    + rewrite Hp. cbn [fmap list_fmap]. by solve_Permutation.
    + exists (sb_ID x :: a'). split; [by rewrite <- app_assoc|]. constructor; [|by apply Hmono].
      eapply archived_ok_mono; [|by eapply archive_one_archived]. intros y ->%list_elem_of_singleton. by left.
  - split; [|exists a'; by auto]. rewrite Hp. cbn [fmap list_fmap]. by solve_Permutation.
  - split; [|exists a'; by auto]. rewrite Hp. cbn [fmap list_fmap]. by solve_Permutation.
Qed.

End ArchiveAll.

Section ArchiveReport.
Context `{DaytonaHTTP C}.

(** An archive-all accounts for every sandbox: each listed id is reported
    exactly once as archived, skipped or failed; what is reported archived was
    accepted by Daytona after it was listed as stopped or seen stopped, and
    exactly those sandboxes get their billing session closed. *)
Theorem archive_all_accounts (px : Handler C) polls wallet w a s f ts w' :
  handleArchiveAll px polls wallet w = (Ok (RArchived a s f, ts), w') ->
  exists l w0 w1, ListSandboxes (px_pages px) w0 = (Ok l, w1) /\
    Permutation (a ++ s ++ f) (sb_ID <$> l) /\ Forall (archived_ok l) a /\ ts = TOnArchive <$> a.
Proof.
  unfold handleArchiveAll, admin_gate. intros (adm & w1 & _ & E)%bind_Ok. destruct adm; [|done].
  apply bind_Ok in E as (x & w2 & El & E). destruct x as [l|e]; [|done]. apply attempt_Ok in El.
  apply bind_Ok in E as ([[a' s'] f'] & w3 & Er & E). injection E as <- <- <- <- _.
  apply archive_loop_accounts in Er as (Hp & a2 & -> & Ha). exists l, w1, w2. by split_and!.
Qed.

End ArchiveReport.

(** ** Examples *)

Module AccessExamples.
Import Toy SessionExamples SealExamples GateExamples.

Definition sandbox_of (id state owner : string) (sealed : bool) : Sandbox :=
  mkSandbox id id state (<[ownerLabel := owner]> (if sealed then {[sealedLabel := "true"]} else ∅)) 2 4 "agent".

Definition sb1 : Sandbox := sandbox_of "sb1" "stopped" user0 false.

Definition sb2 : Sandbox := sandbox_of "sb2" "started" user0 true.

(** Daytona holds two sandboxes, whose state no request changes. *)
#[export] Instance two_sandboxes : DaytonaHTTP Z := fun method path _ c =>
  if bool_decide (path = "/api/sandbox/sb1") then (Ok (200, PSandbox sb1), c)
  else if bool_decide (path = "/api/sandbox/sb2") then (Ok (200, PSandbox sb2), c)
  else if bool_decide (method = "GET") && starts_with "/api/sandbox?" path then (Ok (200, PSandboxPage [sb1; sb2] EmptyString), c)
  else (Ok (if bool_decide (method = "POST") then 200 else 404, POther), c).

#[export] Instance production : SealDebug := false.

#[export] Existing Instance scan_once.

#[export] Instance listed : BillableSandboxes Z :=
  {| BillableSandboxIDs := fun c => (Ok {["sb1"]}, c); ConfirmGone := fun _ c => (false, c) |}.

Definition admin0 : string := addr_hex 12288.

(** Prices of 2 a core and 1 a gigabyte, in the proxy and in the billing; the
    flat rate is then zero (cmd/billing/main.go); the balance is nothing. *)
Definition poor : Handler Z := {|
  px_adminKey := "admin"; px_billing := mkHandler (addr_hex 8192) 0 2 1 50 60 (mkSigner 8192 16601 99 8192);
  px_balCheck := Some (fun _ _ c => (Ok 0, c)); px_ackCheck := None;
  px_createFee := 50; px_pricePerCPUPerSec := Some 2; px_pricePerMemGBPerSec := Some 1; px_computePricePerSec := Some 0;
  px_voucherIntervalSec := 60; px_providerAddress := addr_hex 8192; px_adminAddresses := [to_lower admin0];
  px_sshGatewayHost := EmptyString; px_sealKey := Some 9; px_broker := None; px_SealedOnly := false; px_AppOwner := None;
  px_AppAdmin := None; px_SealIssuer := None; px_pages := 5; px_domain := "proxy.example"; px_protocol := "https"
|}.

Definition ask (method path : string) : request := mkReq method path ∅ BEmpty.

Definition mallory0 : string := addr_hex 20480.


Lemma sealed_closed_witness :
  refused poor gworld (dispatch_route poor 5 user0 (RCatchAll "sb2" "/ports/9000/preview-url") (ask "GET" "/api/sandbox/sb2/ports/9000/preview-url"))
    [403; 502].
Proof.
  apply (sealed_closed poor 5 user0 _ (ask "GET" "/api/sandbox/sb2/ports/9000/preview-url") gworld "sb2").
  - reflexivity.
  - intros c _. assert ((GetSandbox "sb2" (set_chain c gworld)).1 = Ok sb2) as -> by (vm_compute; reflexivity).
    split; [discriminate|]. intros sb E. apply (inj Ok) in E. subst sb. vm_compute. reflexivity.
  - right. eexists. split; [reflexivity|]. vm_compute. intros Hin.
    repeat (apply elem_of_cons in Hin as [Hin|Hin]; [discriminate Hin|]). apply elem_of_nil in Hin. exact Hin.
Defined.

Lemma archive_runs :
  handleArchiveAll poor 0 admin0 gworld = (Ok (RArchived ["sb1"] [] ["sb2"], [TOnArchive "sb1"]), gworld).
Proof. vm_compute. reflexivity. Qed.

Lemma archive_all_accounts_witness :
  exists l w0 w1, ListSandboxes (px_pages poor) w0 = (Ok l, w1) /\
    Permutation (["sb1"] ++ [] ++ ["sb2"]) (sb_ID <$> l) /\ Forall (archived_ok l) ["sb1"] /\ [TOnArchive "sb1"] = TOnArchive <$> ["sb1"].
Proof. exact (archive_all_accounts poor 0 admin0 gworld ["sb1"] [] ["sb2"] [TOnArchive "sb1"] gworld archive_runs). Defined.

(** A request and the goroutines it leaves, run to the end. *)
Definition served (wallet action : string) (w : world Z) : res answer * world Z :=
  match dispatch_route poor 5 wallet (RCatchAll "sb1" action) (ask "POST" ("/api/sandbox/sb1" +:+ action)) w with
  | (Ok (r, ts), w') => let '(x, w2) := mapM (run_task poor) ts w' in
                        (match x with Ok _ => Ok (r, ts) | Err e => Err e | Panic => Panic end, w2)
  | x => x
  end.

(** Ensure-billing is free compute.  The owner of a stopped sandbox of
    eight a second, with no balance, asks for its billing to be ensured: a
    session opens at rate zero, for the create fee alone.  The start that follows
    finds the session open, so it is neither checked against the balance nor
    billed; and with prices per resource the flat rate the generator falls back
    to is zero, so a day later nothing has been charged for the running sandbox. *)
Theorem ensure_billing_is_free :
  let '(x1, w1) := served user0 "/ensure-billing" gworld in
  let '(x2, w2) := served user0 "/start" w1 in
  let w3 := (runGeneration (px_billing poor) false None ∅ (set_now (w_now w2 + 86400) w2)).2 in
  intervalCost poor (sb_CPU sb1) (sb_Memory sb1) = Ok 480 /\
  (exists r, x2 = Ok (r, [TStarted "sb1" user0]) /\ reply_status r = 200) /\
  session_at (w_redis w2) "sb1" = Some (mkSession "sb1" user0 (addr_hex 8192) (w_now gworld + 60) (Some 0)) /\
  BillingExamples.queue_fees (w_redis w3) = [50] /\
  (s_NextVoucherAt <$> session_at (w_redis w3) "sb1") = Some (w_now gworld + 60 + 600 * 60).
Proof. vm_compute. split_and!; try reflexivity. eexists. split; reflexivity. Qed.

(** An admin who ensures the billing of somebody's sandbox is billed for it. *)
Lemma admin_ensures_own_bill :
  let '(x1, w1) := served admin0 "/ensure-billing" gworld in
  s_Owner <$> session_at (w_redis w1) "sb1" = Some admin0 /\ owner_of sb1 = user0.
Proof. vm_compute. split; reflexivity. Qed.

End AccessExamples.
