(* ===== verification/Reserve.v ===== *)
(** * A reservation from the gate to the billing hook

    The create gate (handler.go) reserves what the billing hook (events.go)
    gives back.  The proxy and the billing handler are configured apart; that
    they agree is what [priced_alike] asks of the wiring in cmd/billing/main.go. *)

From S2P Require Import Prelude Hex Bytes Crypto Voucher Store Backlog Session Billing Json CreatePolicy Guard Daytona Seal Registry Http Auth Broker Gate Access.

(** ** Operations that keep the reservations *)

Section Keeps.
Context {C : Type}.
Implicit Types w : world C.

(** The clock, the reservations and a quiet network are as before. *)
Record kept (w w' : world C) : Prop := {
  k_net : quiet w';
  k_now : w_now w' = w_now w;
  k_resv : r_reserved (w_redis w') = r_reserved (w_redis w)
}.

Definition keeps {A} (m : M C A) : Prop := forall w, quiet w -> kept w (m w).2.

Lemma kept_refl w : quiet w -> kept w w.
Proof. by split. Qed.

Lemma kept_trans w1 w2 w3 : kept w1 w2 -> kept w2 w3 -> kept w1 w3.
Proof. intros [? ? ?] [? ? ?]. split; congruence. Qed.

Lemma keeps_pure {A} (f : world C -> res A) : keeps (fun w => (f w, w)).
Proof. intros w. apply kept_refl. Qed.

Lemma keeps_ret {A} (a : A) : keeps (ret a).
Proof. exact (keeps_pure (fun _ => Ok a)). Qed.

Lemma keeps_fail {A} e : keeps (fail e : M C A).
Proof. exact (keeps_pure (fun _ => Err e)). Qed.

Lemma keeps_gets {A} (f : world C -> A) : keeps (gets f).
Proof. exact (keeps_pure (fun w => Ok (f w))). Qed.

Lemma keeps_lift_res {A} (x : res A) : keeps (lift_res x : M C A).
Proof. exact (keeps_pure (fun _ => x)). Qed.

Lemma keeps_chain_call {A} (f : C -> res A * C) : keeps (chain_call f).
Proof. intros w Hq. unfold chain_call. destruct (f (w_chain w)). by split. Qed.

Lemma keeps_rcmd {A} (f : redis -> res A * redis) : (forall r, r_reserved (f r).2 = r_reserved r) -> keeps (rcmd f : M C A).
Proof. intros Hf w Hq. rewrite rcmd_quiet by done. split; [exact Hq|done|]. apply Hf. Qed.

Lemma keeps_bind {A B} (m : M C A) (k : A -> M C B) : keeps m -> (forall a, keeps (k a)) -> keeps (bind m k).
Proof.
  intros Hm Hk w Hq. unfold bind. specialize (Hm w Hq). destruct (m w) as [[a|e|] w1]; cbn in *; [|done..].
  eapply kept_trans; [exact Hm|]. apply Hk, (k_net _ _ Hm).
Qed.

Lemma keeps_attempt {A} (m : M C A) : keeps m -> keeps (attempt m).
Proof. intros Hm w Hq. specialize (Hm w Hq). unfold attempt. by destruct (m w) as [[a|e|] w1]. Qed.

Lemma keeps_ignore {A} (m : M C A) : keeps m -> keeps (ignore m).
Proof. intros Hm. apply keeps_bind; [by apply keeps_attempt|]. intros _. apply keeps_ret. Qed.

Lemma keeps_Ok {A} (m : M C A) w a w' : keeps m -> quiet w -> m w = (Ok a, w') -> kept w w'.
Proof. intros Hm Hq E. specialize (Hm w Hq). by rewrite E in Hm. Qed.

Lemma counter_ok_kept k horizon out w w' :
  kept w w' -> counter_ok k horizon out (w_redis w) -> counter_ok k horizon out (w_redis w').
Proof. intros [_ _ Hr] [Hp Hc]. split; [done|]. by rewrite Hr. Qed.

End Keeps.

Create HintDb keeps.
#[export] Hint Resolve keeps_ret keeps_fail keeps_gets keeps_lift_res keeps_chain_call keeps_bind keeps_attempt keeps_ignore : keeps.

(** ** The hook gives back what the gate took *)

Section RoundTrip.
Context `{Keccak} `{Ecdsa} {C : Type} `{DaytonaHTTP C} `{BrokerHTTP C}.
Implicit Types (px : Handler C) (w : world C).

(** The prices, the fee, the interval and the provider of the two handlers. *)
Record priced_alike px : Prop := {
  pa_cpu : px_pricePerCPUPerSec px = Some (eh_pricePerCPUPerSec (px_billing px));
  pa_mem : px_pricePerMemGBPerSec px = Some (eh_pricePerMemGBPerSec (px_billing px));
  pa_flat : px_computePricePerSec px = Some (eh_computePricePerSec (px_billing px));
  pa_fee : px_createFee px = eh_createFee (px_billing px);
  pa_interval : px_voucherIntervalSec px = eh_voucherIntervalSec (px_billing px);
  pa_provider : px_providerAddress px = eh_providerAddress (px_billing px)
}.

Lemma intervalCost_alike px cpu mem :
  priced_alike px -> intervalCost px cpu mem = Ok (computePrice (px_billing px) cpu mem * eh_voucherIntervalSec (px_billing px)).
Proof.
  intros [Hc Hm Hf _ Hi _]. unfold intervalCost, computePrice, positive. rewrite Hc, Hm, Hf, Hi.
  destruct (_ || _); [|done]. do 2 f_equal. lia.
Qed.

Lemma Enqueue_keeps sg v : keeps (Enqueue sg v : M C unit).
Proof. by apply keeps_rcmd. Qed.

Lemma CreateSession_keeps s : keeps (CreateSession s : M C unit).
Proof. by apply keeps_rcmd. Qed.

Lemma events_Push_keeps ty sb u amt : keeps (events_Push ty sb u amt : M C unit).
Proof. apply keeps_bind; [apply keeps_gets|]. intros now. by apply keeps_rcmd. Qed.

Lemma emitPeriodVoucher_keeps h sid owner price start k : keeps (emitPeriodVoucher h sid owner price start k : M C Z).
Proof. unfold emitPeriodVoucher. cbv zeta. case_match; [apply keeps_ret|]. apply keeps_bind; auto using Enqueue_keeps with keeps. Qed.

Lemma registerSession_keeps b sid wallet cpu mem : keeps (registerSession b sid wallet cpu mem : M C unit).
Proof. intros w Hq. destruct (registerSession_frame b sid wallet cpu mem w) as (x & c & ->). by split. Qed.

Lemma GetSession_keeps sid : keeps (GetSession sid : M C _).
Proof. by apply keeps_rcmd. Qed.

Hint Resolve Enqueue_keeps CreateSession_keeps events_Push_keeps emitPeriodVoucher_keeps registerSession_keeps GetSession_keeps : keeps.

(** Releasing an outstanding amount. *)
Lemma release_outstanding k user provider horizon out out1 amount w w' :
  k = reservedKey user provider -> quiet w -> w_now w <= horizon -> Permutation out (amount :: out1) -> zsum id out < 2 ^ 63 ->
  counter_ok k horizon out (w_redis w) -> Release user provider amount w = (Ok tt, w') ->
  counter_ok k horizon out1 (w_redis w') /\ quiet w'.
Proof.
  intros -> Hq Hn Hp Hb Hc. rewrite release_quiet by done. intros [= <-]. split; [|exact Hq]. cbn [w_redis set_redis].
  pose proof (reserved_at_ok _ _ _ _ _ Hc Hn) as Hv. pose proof (proj1 Hc) as Hpos.
  assert (all_pos (amount :: out1)) as Hpos' by (unfold all_pos in *; by rewrite <- Hp).
  apply Forall_cons in Hpos' as [Ha Hpos1]. cbn in Ha.
  assert (zsum id out = amount + zsum id out1) as Hz by (by rewrite (zsum_Permutation _ _ _ Hp), zsum_id_cons).
  assert (0 <= zsum id out1).
  { apply zsum_nonneg. eapply Forall_impl; [exact Hpos1|]. intros x Hx. unfold id. cbn in Hx. lia. }
  destruct (releaseScript (w_now w) (reservedKey user provider) amount (w_redis w)) as [[total|e|] r1] eqn:E; cbn [snd].
  - by eapply release_counter.
  - exfalso. revert E. unfold releaseScript, int64_ok. rewrite Hv. cbv zeta.
    destruct (Z.leb_spec (- 2 ^ 63) amount), (Z.ltb_spec amount (2 ^ 63)), (Z.leb_spec (- 2 ^ 63) (zsum id out - amount)),
      (Z.ltb_spec (zsum id out - amount) (2 ^ 63)); cbn [andb negb]; try lia. by case_match.
  - exfalso. revert E. unfold releaseScript. by repeat case_match.
Qed.

Lemma on_create_releases h sid owner cpu mem horizon out out1 w w' :
  quiet w -> w_now w <= horizon -> zsum id out < 2 ^ 63 ->
  Permutation out ((eh_createFee h + computePrice h cpu mem * eh_voucherIntervalSec h) :: out1) ->
  counter_ok (reservedKey owner (eh_providerAddress h)) horizon out (w_redis w) ->
  OnCreate h sid owner cpu mem w = (Ok tt, w') ->
  counter_ok (reservedKey owner (eh_providerAddress h)) horizon out1 (w_redis w').
Proof.
  intros Hq Hn Hb Hp Hc E. unfold OnCreate in E. cbv zeta in E. apply bind_Ok in E as (now & w0 & E0 & E). injection E0 as _ <-.
  apply bind_Ok in E as (u1 & w1 & E1 & E). apply keeps_Ok in E1; [|auto with keeps|done].
  apply bind_Ok in E as (x & w2 & E2 & E). apply keeps_Ok in E2; [|auto with keeps|apply (k_net _ _ E1)].
  apply bind_Ok in E as (u3 & w3 & E3 & E). apply keeps_Ok in E3; [|auto with keeps|apply (k_net _ _ E2)].
  pose proof (kept_trans _ _ _ (kept_trans _ _ _ E1 E2) E3) as Hk. apply (counter_ok_kept _ _ _ _ _ Hk) in Hc.
  apply bind_Ok in E as ([] & w4 & E4 & E).
  eapply release_outstanding in E4 as [Hc' Hq']; [|done|apply (k_net _ _ Hk)|by rewrite (k_now _ _ Hk)|exact Hp|done|exact Hc].
  apply keeps_Ok in E; [|auto with keeps|done]. by eapply counter_ok_kept.
Qed.

(** What a create reserves is what its billing hook gives back.  With the
    proxy and the billing handler configured alike, let a create's admission
    have put the create fee and one interval at the sandbox's size on the
    caller's counter, among the reservations of any other requests.  Then the
    goroutine that registers and bills the sandbox removes exactly that amount:
    the counter stands at the other reservations again. *)
Theorem billing_returns_the_reservation px sid wallet cpu mem cost horizon out out1 w w' :
  priced_alike px -> quiet w -> w_now w <= horizon -> zsum id out < 2 ^ 63 ->
  intervalCost px cpu mem = Ok cost -> Permutation out ((px_createFee px + cost) :: out1) ->
  counter_ok (resv_key px wallet) horizon out (w_redis w) ->
  run_task px (TCreated sid wallet cpu mem) w = (Ok tt, w') ->
  counter_ok (resv_key px wallet) horizon out1 (w_redis w').
Proof.
  intros Ha Hq Hn Hb Hcost Hp Hc E. rewrite intervalCost_alike in Hcost by done. apply (inj Ok) in Hcost. subst cost.
  rewrite (pa_fee _ Ha) in Hp. unfold resv_key in *. rewrite (pa_provider _ Ha) in *.
  cbn [run_task] in E. unfold after_create in E. apply bind_Ok in E as (u & w1 & E1 & E).
  apply keeps_Ok in E1; [|destruct (px_broker px); auto with keeps|done].
  eapply on_create_releases; [apply (k_net _ _ E1)|by rewrite (k_now _ _ E1)|exact Hb|exact Hp| |exact E].
  by eapply counter_ok_kept.
Qed.

End RoundTrip.

Module ReserveExamples.
Import Toy SessionExamples SealExamples GateExamples AccessExamples.

Definition key0 : string * string := resv_key poor user0.

(** A create of 530 and another request's 7. *)
Definition two_out : world Z := set_redis (upd_reserved <[key0 := mkResv 537 (Some 1700001000)]> empty_redis) gworld.

Definition billed0 : world Z := (run_task poor (TCreated "sb1" user0 2 4) two_out).2.

Lemma billed0_runs : run_task poor (TCreated "sb1" user0 2 4) two_out = (Ok tt, billed0).
Proof. vm_compute. reflexivity. Qed.

Lemma two_out_counter : counter_ok key0 1700000500 [530; 7] (w_redis two_out).
Proof.
  split; [repeat constructor|]. unfold two_out. cbn [w_redis set_redis r_reserved upd_reserved empty_redis].
  rewrite lookup_insert_eq. cbn. split; reflexivity.
Qed.

Lemma poor_alike : priced_alike poor.
Proof. split; reflexivity. Qed.

Lemma billing_returns_the_reservation_witness : counter_ok key0 1700000500 [7] (w_redis billed0).
Proof.
  refine (billing_returns_the_reservation poor "sb1" user0 2 4 480 1700000500 [530; 7] [7] two_out billed0
    poor_alike eq_refl _ eq_refl eq_refl _ two_out_counter billed0_runs).
  - discriminate.
  - reflexivity.
Defined.

End ReserveExamples.
