(* ===== verification/Chain.v ===== *)
(** * The chain client (internal/chain/client.go)

    The JSON-RPC node and the generated contract bindings are operations on the
    outside state; the client's own logic (statuses from receipts, the fate of
    a transaction, paging of events, activity rules) is modelled over them. *)

From Stdlib Require Import Floats.SpecFloat.
From S2P Require Import Prelude Hex Bytes Crypto Voucher Store Backlog Session Guard ChainTypes.

(** A log entry: its address, first topic, block, transaction and content. *)
Record Log := mkLog { lg_Address : addr; lg_Topic : option bytes; lg_Block : Z; lg_TxHash : Z; lg_Data : bytes }.

Record Receipt := mkReceipt { rc_Status : Z; rc_Logs : list Log }.

(** A decoded VoucherSettled log. *)
Record SettledLog := mkSettled { sl_User : addr; sl_Provider : addr; sl_TotalFee : Z; sl_Nonce : Z; sl_Status : SettlementStatus }.

(** The argument type of the settlement calls, field by field.
    [internal/chain/client.go:307-320 toContractVouchers] *)
Record ContractVoucher := mkContractVoucher {
  cv_User : addr; cv_Provider : addr; cv_TotalFee : option Z; cv_UsageHash : bytes; cv_Nonce : option Z; cv_Signature : bytes
}.

Definition toContractVoucher (v : SandboxVoucher) : ContractVoucher :=
  mkContractVoucher (User v) (Provider v) (TotalFee v) (UsageHash v) (Nonce v) (Signature v).

(** [internal/chain/client.go:307-320 toContractVouchers] *)
Definition toContractVouchers (vs : list SandboxVoucher) : list ContractVoucher := toContractVoucher <$> vs.

Record Service := mkService {
  sv_Url : string; sv_AppId : string; sv_PricePerCPUPerMin : Z; sv_PricePerMemGBPerMin : Z; sv_CreateFee : Z
}.

(** The node: receipts, confirmed account nonces, block numbers, header times,
    logs from a block on. *)
Class EthNode (C : Type) := {
  TransactionReceipt : Z -> C -> res (option Receipt) * C;
  NonceAt : addr -> C -> res Z * C;
  BlockNumber : C -> res Z * C;
  HeaderTime : Z -> C -> res Z * C;
  FilterLogs : Z -> addr -> bytes -> C -> res (list Log) * C
}.

(** The generated bindings of SandboxServing and TappRegistry; the addedAt of a
    node, the registration time and owner of an app. *)
Class Bindings (C : Type) := {
  b_SettleFeesWithTEE : list ContractVoucher -> C -> res (Z * Z) * C;
  b_PreviewSettlementResults : list ContractVoucher -> C -> res (list SettlementStatus) * C;
  b_ParseVoucherSettled : Log -> option SettledLog;
  b_IsActiveProvider : addr -> C -> res bool * C;
  b_Services : addr -> C -> res Service * C;
  b_ServiceExists : addr -> C -> res bool * C;
  b_GetLastNonce : addr -> addr -> C -> res Z * C;
  b_IsTEEAcknowledged : addr -> addr -> C -> res bool * C;
  b_GetBalance : addr -> addr -> C -> res (Z * Z * Z) * C;
  b_BalanceOfBatch : list addr -> addr -> C -> res (list Z) * C;
  b_FilterServiceUpdated : Z -> Z -> C -> res (list (addr * string * string * Z * Z)) * C;
  t_GetNode : string -> addr -> C -> res Z * C;
  t_GetAppInfo : string -> C -> res (option Z * addr) * C
}.

(** [internal/chain/client.go:56-71 Client] *)
Record Client := mkClient {
  c_contractAddr : addr;
  c_tappAddr : addr;
  c_chainID : Z;
  c_nodeKey : Z;
  c_providerKey : Z;
  c_providerAddr : addr;
  c_kmsProvider : bool
}.

Section Client.
Context `{Keccak} {C : Type} `{EthNode C} `{Bindings C}.

(** [internal/chain/client.go:324-324 voucherSettledTopic] *)
Definition voucherSettledTopic : bytes :=
  keccak256 (bytes_of_string "VoucherSettled(address,address,uint256,bytes32,uint256,uint8)").

(** ** Settlement *)

(** The hash and the sender's nonce of the broadcast transaction.
    [internal/chain/client.go:343-353 SubmitSettleFees] *)
Definition SubmitSettleFees (vs : list SandboxVoucher) : M C (Z * Z) := chain_call (b_SettleFeesWithTEE (toContractVouchers vs)).

(** The settler's key is the provider's.
    [internal/chain/client.go:367-390 ResolveTxFate] *)
Definition ResolveTxFate (cl : Client) (txHash accountNonce : Z) : M C (TxFate Receipt) :=
  let receipt : M C (option Receipt) :=
    let! x := attempt (chain_call (TransactionReceipt txHash)) in
    ret (match x with inl r => r | inr _ => None end) in
  let! r := receipt in
  match r with
  | Some r => ret (TxMined r)
  | None =>
      let! confirmed := attempt (chain_call (NonceAt (c_providerAddr cl))) in
      match confirmed with
      | inr _ => ret TxPending
      | inl confirmed =>
          if accountNonce <? confirmed then
            let! r2 := receipt in
            match r2 with Some r2 => ret (TxMined r2) | None => ret TxDropped end
          else ret TxPending
      end
  end.

(** [internal/chain/client.go:470-481 PreviewSettlementResults] *)
Definition PreviewSettlementResults (vs : list SandboxVoucher) : M C (list SettlementStatus) :=
  chain_call (b_PreviewSettlementResults (toContractVouchers vs)).

(** The statuses of the receipt's events by user and nonce; a later event
    replaces an earlier one. [internal/chain/client.go:407-422 SettleStatusesFromReceipt] *)
Definition from_event (cl : Client) (logs : list Log) : gmap (addr * option Z) SettlementStatus :=
  foldl (fun m l =>
    if bool_decide (lg_Address l = c_contractAddr cl) && bool_decide (lg_Topic l = Some voucherSettledTopic)
    then match b_ParseVoucherSettled l with Some ev => <[(sl_User ev, Some (sl_Nonce ev)) := sl_Status ev]> m | None => m end
    else m) ∅ logs.

Definition voucher_key (v : SandboxVoucher) : addr * option Z := (User v, Nonce v).

(** [StatusSuccess] is the zero value of an element not yet assigned.
    [internal/chain/client.go:424-436 SettleStatusesFromReceipt] *)
Fixpoint assign_events (m : gmap (addr * option Z) SettlementStatus) (i : nat) (vs : list SandboxVoucher)
  : list SettlementStatus * list nat * list SandboxVoucher :=
  match vs with
  | [] => ([], [], [])
  | v :: vs' =>
      let '(sts, idx, missing) := assign_events m (S i) vs' in
      match m !! voucher_key v with
      | Some s => (s :: sts, idx, missing)
      | None => (StatusSuccess :: sts, i :: idx, v :: missing)
      end
  end.

(** [internal/chain/client.go:444-446 SettleStatusesFromReceipt] *)
Fixpoint fill_fallback (sts : list SettlementStatus) (idx : list nat) (fallback : list SettlementStatus) : res (list SettlementStatus) :=
  match idx with
  | [] => Ok sts
  | i :: idx' => match fallback with
                 | s :: fallback' => fill_fallback (<[i := s]> sts) idx' fallback'
                 | [] => Panic
                 end
  end.

(** [internal/chain/client.go:402-450 SettleStatusesFromReceipt] *)
Definition SettleStatusesFromReceipt (cl : Client) (receipt : Receipt) (vs : list SandboxVoucher) : M C (list SettlementStatus) :=
  if rc_Status receipt =? 0 then fail ErrTxReverted
  else
    let '(sts, idx, missing) := assign_events (from_event cl (rc_Logs receipt)) 0 vs in
    if bool_decide (missing = []) then ret sts
    else
      let! fallback := PreviewSettlementResults missing in
      lift_res (fill_fallback sts idx fallback).

(** ** Activity *)

(** [internal/chain/client.go:185-192 GetServiceAppId] *)
Definition GetServiceAppId (provider : addr) : M C string :=
  let! svc := chain_call (b_Services provider) in ret (sv_AppId svc).

(** [internal/chain/client.go:198-205 GetAppOwner] *)
Definition GetAppOwner (appId : string) : M C addr := let! info := chain_call (t_GetAppInfo appId) in ret info.2.

(** [internal/chain/client.go:208-217 GetAppInstance] *)
Definition GetAppInstance (appId : string) : M C (Z * addr) :=
  let! info := chain_call (t_GetAppInfo appId) in
  match info.1 with
  | Some epoch => if (0 <=? epoch) && (epoch <? 2 ^ 64) then ret (epoch, info.2) else fail (EMsg "invalid app registration epoch")
  | None => fail (EMsg "invalid app registration epoch")
  end.

(** [internal/chain/client.go:222-229 IsActiveNode] *)
Definition IsActiveNode (appId : string) (signer : addr) : M C bool :=
  let! addedAt := chain_call (t_GetNode appId signer) in ret (negb (addedAt =? 0)).

Definition node_signer_active (provider : addr) : M C bool :=
  let! appId := GetServiceAppId provider in
  if bool_decide (appId = EmptyString) then ret false else IsActiveNode appId provider.

(** [internal/chain/client.go:237-251 IsProviderActive] *)
Definition IsProviderActive (cl : Client) : M C bool :=
  if c_kmsProvider cl then chain_call (b_IsActiveProvider (c_providerAddr cl)) else node_signer_active (c_providerAddr cl).

Definition error_contains (e : rerr) (sub : string) : bool := match e with EMsg s => contains s sub | _ => false end.

(** [internal/chain/client.go:259-275 IsActiveProvider] *)
Definition IsActiveProvider (provider : addr) : M C bool :=
  let! x := attempt (chain_call (b_IsActiveProvider provider)) in
  match x with
  | inl ok => ret ok
  | inr e => if negb (error_contains e "execution reverted") then fail (EMsg "isActiveProvider") else node_signer_active provider
  end.

(** ** Service data *)

(** Prices per second, [None] when no service is registered.
    [internal/chain/client.go:692-710 GetServicePricing] *)
Definition GetServicePricing (provider : addr) : M C (option (Z * Z * Z)) :=
  let! exists_ := chain_call (b_ServiceExists provider) in
  if negb exists_ then ret None
  else
    let! svc := chain_call (b_Services provider) in
    ret (Some (sv_PricePerCPUPerMin svc / 60, sv_PricePerMemGBPerMin svc / 60, sv_CreateFee svc)).

(** [internal/chain/client.go:725-745 GetServiceInfo] *)
Definition GetServiceInfo (provider : addr) : M C (option Service) :=
  let! exists_ := chain_call (b_ServiceExists provider) in
  if negb exists_ then ret None else let! svc := chain_call (b_Services provider) in ret (Some svc).

(** [internal/chain/client.go:748-754 ProviderEvent] *)
Record ProviderEvent := mkProviderEvent { pe_Provider : addr; pe_URL : string; pe_AppId : string; pe_Block : Z; pe_TxHash : Z }.

(** The iterator's events up to its end or error.
    [internal/chain/client.go:758-793 GetServiceUpdatedEvents] *)
Definition GetServiceUpdatedEvents (fromBlock : Z) : M C (list ProviderEvent * Z) :=
  let! latest := chain_call BlockNumber in
  let start := if fromBlock =? 0 then 1 else fromBlock in
  let! evs := chain_call (b_FilterServiceUpdated start latest) in
  ret ((fun '(p, url, app, block, tx) => mkProviderEvent p url app block tx) <$> evs, latest).

(** [internal/chain/client.go:797-804 GetBalanceBatch] *)
Definition GetBalanceBatch (users : list addr) (provider : addr) : M C (list Z) := chain_call (b_BalanceOfBatch users provider).

(** [internal/chain/client.go:808-815 GetProviderBalance] *)
Definition GetProviderBalance (user provider : addr) : M C (Z * Z * Z) := chain_call (b_GetBalance user provider).

(** [internal/chain/client.go:683-686 GetBalance] *)
Definition GetBalance (user provider : addr) : M C Z := let! r := GetProviderBalance user provider in ret r.1.1.

(** [internal/chain/client.go:672-679 IsAcknowledged] *)
Definition IsAcknowledged (cl : Client) (user : addr) : M C bool := chain_call (b_IsTEEAcknowledged user (c_providerAddr cl)).

(** ** Settlement events *)

(** [internal/chain/client.go:484-493 VoucherEvent] *)
Record VoucherEvent := mkVoucherEvent {
  ve_User : addr; ve_Provider : addr; ve_TotalFee : Z; ve_Nonce : Z; ve_Status : SettlementStatus;
  ve_TxHash : Z; ve_Block : Z; ve_Timestamp : Z
}.

(** [internal/chain/client.go:496-496 blockTimeCacheTTL] *)
Definition blockTimeCacheTTL : Z := 300.

(** [internal/chain/client.go:497-497 blockTimeSample] *)
Definition blockTimeSample : Z := 100.

Abbreviation float64 := spec_float.

(** [float64(n)], to nearest even. *)
Definition of_int (n : Z) : float64 := binary_normalize 53 1024 n 0 false.

Definition float_div (a b : float64) : float64 := SFdiv 53 1024 a b.

(** [uint64(f)] of a finite non-negative value below 2^64, truncating. *)
Definition to_uint64 (f : float64) : Z :=
  match f with
  | S754_finite false m e => Z.shiftl (Z.pos m) e
  | _ => 0
  end.

(** [internal/chain/client.go:498-498 blockTimeFallback] *)
Definition blockTimeFallback : float64 := of_int 1.

Definition positive_float (f : float64) : bool := match f with S754_finite false _ _ | S754_infinity false => true | _ => false end.

(** The cached average and the second it was taken at. *)
Definition block_cache : Type := float64 * Z.

(** [internal/chain/client.go:502-522 getAvgBlockTime] *)
Definition getAvgBlockTime (cache : block_cache) (latest : Z) : M C (float64 * block_cache) :=
  let! now := gets w_now in
  if positive_float cache.1 && (now - cache.2 <? blockTimeCacheTTL) then ret (cache.1, cache)
  else
    let! avg :=
      if blockTimeSample <? latest then
        let! hNew := attempt (chain_call (HeaderTime latest)) in
        let! hOld := attempt (chain_call (HeaderTime (latest - blockTimeSample))) in
        ret (match hNew, hOld with
             | inl tNew, inl tOld =>
                 if tOld <? tNew then float_div (of_int (tNew - tOld)) (of_int blockTimeSample) else blockTimeFallback
             | _, _ => blockTimeFallback
             end)
      else ret blockTimeFallback in
    let! now' := gets w_now in
    ret (avg, (avg, now')).

(** The first block to ask for. [internal/chain/client.go:536-549 GetVoucherEvents] *)
Definition from_block (cache : block_cache) (sinceTimestamp latest : Z) : M C (Z * block_cache) :=
  if 0 <? sinceTimestamp then
    let! now := gets w_now in
    if sinceTimestamp <? now then
      let! ac := getAvgBlockTime cache latest in
      let lookback := to_uint64 (float_div (of_int (now - sinceTimestamp)) ac.1) in
      ret (if lookback <? latest then latest - lookback else 1, ac.2)
    else ret (1, cache)
  else ret (1, cache).

(** The header times of the blocks, zero where a look-up failed. The look-ups
    run concurrently, one per block; here one after the other.
    [internal/chain/client.go:564-589 GetVoucherEvents] *)
Fixpoint fetchTimestamps (blocks : list Z) : M C (gmap Z Z) :=
  match blocks with
  | [] => ret ∅
  | bn :: blocks' =>
      let! x := attempt (chain_call (HeaderTime bn)) in
      let! rest := fetchTimestamps blocks' in
      ret (<[bn := match x with inl ts => ts | inr _ => 0 end]> rest)
  end.

(** A Go slice expression [l[lo:hi]] on a slice whose capacity is its length. *)
Definition go_slice {A} (l : list A) (lo hi : Z) : res (list A) :=
  if (0 <=? lo) && (lo <=? hi) && (hi <=? Z.of_nat (length l))
  then Ok (take (Z.to_nat (hi - lo)) (drop (Z.to_nat lo) l)) else Panic.

(** The logs of a page, ascending; [None] past the end. Ints wrap at 64 bits.
    [internal/chain/client.go:614-627 GetVoucherEvents] *)
Definition page_logs {A} (logs : list A) (page pageSize : Z) : res (option (list A)) :=
  let total := Z.of_nat (length logs) in
  if 0 <? pageSize then
    let start := int64_wrap (page * pageSize) in
    let stop := int64_wrap (start + pageSize) in
    if total <=? start then Ok None
    else
      let stop := if total <? stop then total else stop in
      res_bind (go_slice logs (int64_wrap (total - stop)) (int64_wrap (total - start))) (fun l => Ok (Some l))
  else Ok (Some logs).

(** Newest first; a log that does not decode is left out.
    [internal/chain/client.go:638-655 GetVoucherEvents] *)
Definition events_of (ts : gmap Z Z) (logs : list Log) : list VoucherEvent :=
  omap (fun l =>
    match b_ParseVoucherSettled l with
    | Some ev => Some (mkVoucherEvent (sl_User ev) (sl_Provider ev) (sl_TotalFee ev) (sl_Nonce ev) (sl_Status ev)
                         (lg_TxHash l) (lg_Block l) (default 0 (ts !! lg_Block l)))
    | None => None
    end) (reverse logs).

(** The page, the number of events, the latest block.
    [internal/chain/client.go:530-657 GetVoucherEvents] *)
Definition GetVoucherEvents (cl : Client) (cache : block_cache) (sinceTimestamp page pageSize : Z)
  : M C (list VoucherEvent * Z * Z * block_cache) :=
  let! latest := chain_call BlockNumber in
  let! fb := from_block cache sinceTimestamp latest in
  let '(fromBlock, cache) := fb in
  let! logs := chain_call (FilterLogs fromBlock (c_contractAddr cl) voucherSettledTopic) in
  let! known :=
    if 0 <? sinceTimestamp then let! ts := fetchTimestamps (distinct (lg_Block <$> logs)) in ret (Some ts) else ret None in
  let logs :=
    match known with
    | Some ts => filter (fun l => let t := default 0 (ts !! lg_Block l) in t = 0 \/ sinceTimestamp <= t) logs
    | None => logs
    end in
  let total := Z.of_nat (length logs) in
  let! pl := lift_res (page_logs logs page pageSize) in
  match pl with
  | None => ret ([], total, latest, cache)
  | Some pl =>
      let! ts := match known with Some ts => ret ts | None => fetchTimestamps (distinct (lg_Block <$> pl)) end in
      ret (events_of ts pl, total, latest, cache)
  end.

End Client.

(** ** Statuses *)

Section Statuses.
Context `{Keccak} {C : Type} `{EthNode C} `{Bindings C}.
Implicit Types w : world C.

(** The reference: every voucher keeps its place, taking its event's status or
    the next previewed one. *)
Fixpoint weave (m : gmap (addr * option Z) SettlementStatus) (vs : list SandboxVoucher) (previewed : list SettlementStatus)
  : list SettlementStatus :=
  match vs with
  | [] => []
  | v :: vs' =>
      match m !! voucher_key v with
      | Some s => s :: weave m vs' previewed
      | None => match previewed with s :: p => s :: weave m vs' p | [] => [] end
      end
  end.

(** The vouchers without an event. *)
Definition eventless (m : gmap (addr * option Z) SettlementStatus) (vs : list SandboxVoucher) : list SandboxVoucher :=
  filter (fun v => m !! voucher_key v = None) vs.

Lemma assign_missing m vs : forall i, (assign_events m i vs).2 = eventless m vs.
Proof.
  unfold eventless. induction vs as [|v vs IH]; intros i; cbn [assign_events]; [done|]. specialize (IH (S i)).
  destruct (assign_events m (S i) vs) as [[sts idx] missing]. cbn in IH. subst missing. rewrite filter_cons.
  destruct (m !! voucher_key v) eqn:E; cbn [snd]; [by rewrite decide_False by congruence|by rewrite decide_True].
Qed.

Lemma fill_weave m vs : forall i pre sts idx missing fallback,
  assign_events m i vs = (sts, idx, missing) -> i = length pre -> (length missing <= length fallback)%nat ->
  fill_fallback (pre ++ sts) idx fallback = Ok (pre ++ weave m vs fallback).
Proof.
  induction vs as [|v vs IH]; intros i pre sts idx missing fallback; cbn [assign_events weave].
  { intros [= <- <- <-] _ _. done. }
  destruct (assign_events m (S i) vs) as [[sts' idx'] missing'] eqn:E. intros Ha -> Hl.
  destruct (m !! voucher_key v) as [s|] eqn:Em; injection Ha as <- <- <-.
  - specialize (IH _ (pre ++ [s]) _ _ _ fallback E ltac:(rewrite length_app; cbn; lia) Hl).
    rewrite <- !app_assoc in IH. exact IH.
  - destruct fallback as [|s fallback]; [cbn in Hl; lia|]. cbn [fill_fallback].
    rewrite insert_app_r_alt, Nat.sub_diag by lia. cbn [insert list_insert].
    specialize (IH _ (pre ++ [s]) _ _ _ fallback E ltac:(rewrite length_app; cbn; lia) ltac:(cbn in Hl; lia)).
    rewrite <- !app_assoc in IH. exact IH.
Qed.

Lemma weave_all m vs fallback : eventless m vs = [] -> weave m vs fallback = (assign_events m 0 vs).1.1.
Proof.
  unfold eventless. generalize 0%nat. induction vs as [|v vs IH]; intros i; cbn [assign_events weave]; [done|].
  rewrite filter_cons. destruct (m !! voucher_key v) as [s|] eqn:E; [rewrite decide_False by done|by rewrite decide_True].
  intros Hn. rewrite (IH (S i) Hn). by destruct (assign_events m (S i) vs) as [[]].
Qed.

(** What the chain says of a receipt's vouchers: nothing when the transaction
    reverted; otherwise the statuses in the vouchers' order, an event's where
    there is one, else the preview's. *)
Theorem receipt_statuses cl receipt vs w sts w' :
  (forall l c p c', b_PreviewSettlementResults l c = (Ok p, c') -> length p = length l) ->
  SettleStatusesFromReceipt cl receipt vs w = (Ok sts, w') ->
  rc_Status receipt <> 0 /\ length sts = length vs /\
  exists previewed, sts = weave (from_event cl (rc_Logs receipt)) vs previewed /\
    (eventless (from_event cl (rc_Logs receipt)) vs = [] \/
     exists c, (b_PreviewSettlementResults (toContractVouchers (eventless (from_event cl (rc_Logs receipt)) vs)) c).1 = Ok previewed).
Proof.
  intros Hlen. unfold SettleStatusesFromReceipt. destruct (Z.eqb_spec (rc_Status receipt) 0) as [|Hs]; [done|].
  set (m := from_event cl (rc_Logs receipt)). destruct (assign_events m 0 vs) as [[sts0 idx] missing] eqn:E.
  pose proof (assign_missing m vs 0) as Hm. rewrite E in Hm. cbn in Hm. subst missing.
  assert (forall l p, length p = length (eventless m l) -> length (weave m l p) = length l) as Hw.
  { unfold eventless. induction l as [|v l IH]; intros p; cbn [weave]; [done|]. rewrite filter_cons.
    destruct (m !! voucher_key v) eqn:Ev; [rewrite decide_False by done|rewrite decide_True by done].
    - intros Hp. cbn. by rewrite (IH _ Hp).
    - destruct p as [|s p]; [done|]. intros [= Hp]. cbn. by rewrite (IH _ Hp). }
  destruct (bool_decide_reflect (eventless m vs = [])) as [Hn|Hn].
  - intros [= <- _]. split; [done|]. assert (sts0 = weave m vs []) as -> by (by rewrite (weave_all _ _ _ Hn), E).
    split; [apply Hw; by rewrite Hn|]. exists []. auto.
  - intros (p & w1 & Ep & Ef)%bind_Ok. unfold PreviewSettlementResults, chain_call in Ep.
    destruct (b_PreviewSettlementResults _ (w_chain w)) as [x c'] eqn:Eb. injection Ep as -> <-. injection Ef as Ef _.
    pose proof (Hlen _ _ _ _ Eb) as Hl. unfold toContractVouchers in Hl. rewrite length_fmap in Hl.
    pose proof (fill_weave m vs 0 [] _ _ _ p E eq_refl ltac:(lia)) as Hf. cbn in Hf. rewrite Ef in Hf. injection Hf as ->.
    split; [done|]. split; [by apply Hw|]. exists p. split; [done|]. right. exists (w_chain w). by rewrite Eb.
Qed.

(** C39: the fate of a broadcast transaction is evidence-based.  It is reported
    mined only with a receipt the node returned for it, and dropped only after
    the node showed the sender's confirmed nonce past it and then, asked again,
    returned no receipt. *)
Theorem fate_is_evidence cl txHash nonce w fate w' :
  ResolveTxFate cl txHash nonce w = (Ok fate, w') ->
  match fate with
  | TxMined r => exists c, (TransactionReceipt txHash c).1 = Ok (Some r)
  | TxDropped => exists c1 n c2, (NonceAt (c_providerAddr cl) c1).1 = Ok n /\ nonce < n /\
      (NonceAt (c_providerAddr cl) c1).2 = c2 /\ forall r, (TransactionReceipt txHash c2).1 <> Ok (Some r)
  | TxPending => True
  end.
Proof.
  assert (forall w1 x w2, (let! y := attempt (chain_call (TransactionReceipt txHash)) in
      ret (match y with inl r => r | inr _ => None end)) w1 = (Ok x, w2) ->
    match x with Some r => (TransactionReceipt txHash (w_chain w1)).1 = Ok (Some r)
                | None => forall r, (TransactionReceipt txHash (w_chain w1)).1 <> Ok (Some r) end) as Hr.
  { intros w1 x w2 (y & w3 & E & Er)%bind_Ok. apply attempt_Ok, chain_call_Ok in E. injection Er as <- _.
    rewrite E. by destruct y as [[r|]|e]. }
  unfold ResolveTxFate. cbv zeta. intros (r & w1 & E1 & E)%bind_Ok. pose proof (Hr _ _ _ E1) as Hr1.
  destruct r as [r|]; [injection E as <- _; eauto|]. apply bind_Ok in E as (n & w2 & E2 & E).
  destruct n as [n|e]; [|by injection E as <- _]. destruct (Z.ltb_spec nonce n) as [Hn|]; [|by injection E as <- _].
  apply bind_Ok in E as (r2 & w3 & E3 & E). pose proof (Hr _ _ _ E3) as Hr2. apply attempt_Ok in E2.
  destruct r2 as [r2|]; injection E as <- _; [eauto|]. exists (w_chain w1), n, (w_chain w2).
  pose proof (chain_call_Ok _ _ _ _ E2) as Hc. split; [exact Hc|]. split; [lia|]. split; [|exact Hr2].
  unfold chain_call in E2. destruct (NonceAt (c_providerAddr cl) (w_chain w1)) as [x c]. by injection E2 as _ <-.
Qed.

End Statuses.

(** ** Pages *)

Lemma go_slice_ok {A} (l : list A) lo hi :
  0 <= lo <= hi -> hi <= Z.of_nat (length l) -> go_slice l lo hi = Ok (take (Z.to_nat (hi - lo)) (drop (Z.to_nat lo) l)).
Proof.
  intros Hl Hh. unfold go_slice. destruct (Z.leb_spec 0 lo), (Z.leb_spec lo hi), (Z.leb_spec hi (Z.of_nat (length l))); try lia. done.
Qed.

Lemma reverse_take_drop {A} (l : list A) lo n k :
  (lo + n + k = length l)%nat -> reverse (take n (drop lo l)) = take n (drop k (reverse l)).
Proof.
  intros Hl. rewrite <- (take_drop lo l) at 2. rewrite reverse_app. set (d := drop lo l).
  assert (length d = (n + k)%nat) as Hd by (subst d; rewrite length_drop; lia).
  rewrite <- (take_drop n d) at 2. rewrite reverse_app, <- app_assoc.
  rewrite drop_app_length' by (rewrite length_reverse, length_drop; lia).
  rewrite take_app_length' by (rewrite length_reverse, length_take; lia). done.
Qed.

(** Paging shows every event once, newest first: as long as the page's
    end fits in 64 bits, page [p] is exactly the [p]-th slice of the reversed
    log, empty past its end. *)
Theorem voucher_page_is_reference {A} (logs : list A) page pageSize :
  0 <= page -> 0 < pageSize -> page * pageSize + pageSize < 2 ^ 63 -> Z.of_nat (length logs) < 2 ^ 63 ->
  exists x, page_logs logs page pageSize = Ok x /\
    reverse (default [] x) = take (Z.to_nat pageSize) (drop (Z.to_nat (page * pageSize)) (reverse logs)).
Proof.
  intros Hp Hs Hb Hl. unfold page_logs. cbv zeta. replace (0 <? pageSize) with true by lia.
  rewrite (int64_wrap_id (page * pageSize)), (int64_wrap_id (page * pageSize + pageSize)) by nia.
  set (total := Z.of_nat (length logs)) in *. set (start := page * pageSize) in *. assert (0 <= start) by (subst start; nia).
  destruct (Z.leb_spec total start).
  - exists None. split; [done|]. cbn. rewrite drop_ge by (rewrite length_reverse; subst total; lia). by rewrite take_nil.
  - rewrite (int64_wrap_id (total - start)) by lia.
    destruct (Z.ltb_spec total (start + pageSize)) as [Ht|Ht].
    + rewrite int64_wrap_id, go_slice_ok by lia. eexists. split; [reflexivity|]. cbn [default]. unfold id.
      rewrite (reverse_take_drop _ _ _ (Z.to_nat start)) by (subst total; lia).
      rewrite (take_ge _ (Z.to_nat (_ - _))) by (rewrite length_drop, length_reverse; subst total; lia).
      rewrite take_ge by (rewrite length_drop, length_reverse; subst total; lia). done.
    + rewrite int64_wrap_id, go_slice_ok by lia. eexists. split; [reflexivity|]. cbn [default]. unfold id.
      rewrite (reverse_take_drop _ _ _ (Z.to_nat start)) by (subst total; lia). f_equal. lia.
Qed.

(** The product wraps: a large enough page panics the handler. *)
Lemma page_overflow_panics : page_logs [1; 2; 3; 4; 5] (2 ^ 61) 4 = Panic.
Proof. vm_compute. reflexivity. Qed.
