(* ===== verification/Wiring.v ===== *)
(** * The settler over the chain client

    internal/chain/client.go discharges the interface of
    internal/settler/types.go, so the settle loop's conservation of usage holds
    of the two composed, for any node and any contract that answer as
    documented; and what a receipt outage does to it. *)

From S2P Require Import Prelude Hex Bytes Crypto Voucher Store Collapse Backlog Session ChainTypes Stops Sweep Pending Settler Ledger Books Chain.

(** What the client relies on: a preview has one status per voucher, and the
    library calls do not panic. *)
Class BindingLaws (C : Type) `{EthNode C} `{Bindings C} := {
  preview_length : forall l c p c', b_PreviewSettlementResults l c = (Ok p, c') -> length p = length l;
  preview_no_panic : forall l c, (b_PreviewSettlementResults l c).1 <> Panic;
  settle_no_panic : forall l c, (b_SettleFeesWithTEE l c).1 <> Panic;
  active_provider_no_panic : forall p c, (b_IsActiveProvider p c).1 <> Panic;
  services_no_panic : forall p c, (b_Services p c).1 <> Panic;
  node_no_panic : forall a p c, (t_GetNode a p c).1 <> Panic;
  batch_no_panic : forall us p c, (b_BalanceOfBatch us p c).1 <> Panic
}.

(** A client method as a call on the outside state: none of them uses Redis. *)
Definition on_chain {C A} (m : M C A) (c : C) : res A * C :=
  let '(x, w) := m (mkWorld empty_redis [] false [] 0 c [] []) in (x, w_chain w).

(** [internal/settler/types.go:22-45 ChainClient], implemented by *chain.Client. *)
Definition wire `{Keccak} {C} `{EthNode C} `{Bindings C} (cl : Client) : ChainClient C Receipt := {|
  ProviderAddress := c_providerAddr cl;
  ChainTypes.IsProviderActive := on_chain (IsProviderActive cl);
  ChainTypes.GetBalanceBatch us p := on_chain (GetBalanceBatch us p);
  ChainTypes.SubmitSettleFees vs := on_chain (SubmitSettleFees vs);
  ChainTypes.ResolveTxFate h n c := let '(x, c') := on_chain (ResolveTxFate cl h n) c in
                         (match x with Ok f => f | _ => TxPending end, c');
  ChainTypes.SettleStatusesFromReceipt rc vs := on_chain (SettleStatusesFromReceipt cl rc vs)
|}.

Section Wired.
Context `{Keccak} `{EL : EcdsaLaws} {C : Type} `{BL : BindingLaws C} `{NL : NonceReaderLaws C} `{SessionScan}.

Lemma on_chain_no_panic {A} (m : M C A) c : no_panic m -> (on_chain m c).1 <> Panic.
Proof. intros Hm. unfold on_chain. specialize (Hm (mkWorld empty_redis [] false [] 0 c [] [])). by destruct (m _). Qed.

Lemma on_chain_Ok {A} (m : M C A) c a c' : on_chain m c = (Ok a, c') -> exists w w', m w = (Ok a, w').
Proof. unfold on_chain. destruct (m _) as [x w'] eqn:E. intros [= -> _]. eauto. Qed.

Lemma client_laws cl : @ChainClientLaws C Receipt (wire cl).
Proof.
  assert (forall A (f : C -> res A * C), (forall c, (f c).1 <> Panic) -> no_panic (chain_call f)) as Hcall.
  { intros A f Hf. by apply no_panic_chain_call. }
  split; cbn.
  - intros rc vs c sts c' (w & w' & E)%on_chain_Ok.
    pose proof (receipt_statuses cl rc vs w sts w' preview_length E) as (_ & Hl & _). exact Hl.
  - intros rc vs c. apply on_chain_no_panic. intros w E. unfold SettleStatusesFromReceipt in E.
    destruct (rc_Status rc =? 0); [done|]. set (m := from_event cl (rc_Logs rc)) in E.
    destruct (assign_events m 0 vs) as [[sts idx] missing] eqn:Ea.
    pose proof (assign_missing m vs 0) as Hm. rewrite Ea in Hm. cbn in Hm. subst missing.
    case_bool_decide; [done|]. unfold bind, PreviewSettlementResults, chain_call in E.
    destruct (b_PreviewSettlementResults _ (w_chain w)) as [x c1] eqn:Eb. destruct x as [p|e|]; cbn in E; [|done|].
    + pose proof (preview_length _ _ _ _ Eb) as Hl. unfold toContractVouchers in Hl. rewrite length_fmap in Hl.
      pose proof (fill_weave m vs 0 [] _ _ _ p Ea eq_refl ltac:(lia)) as Hf. cbn in Hf. by rewrite Hf in E.
    + by apply (preview_no_panic (toContractVouchers (eventless m vs)) (w_chain w)); rewrite Eb.
  - intros vs c. apply on_chain_no_panic, Hcall. intros c'. apply settle_no_panic.
  - intros c. apply on_chain_no_panic. unfold IsProviderActive. destruct (c_kmsProvider cl).
    + apply Hcall. intros c'. apply active_provider_no_panic.
    + unfold node_signer_active, GetServiceAppId. apply no_panic_bind.
      * apply no_panic_bind; [apply Hcall; intros c'; apply services_no_panic|intros; apply no_panic_ret].
      * intros app. case_bool_decide; [apply no_panic_ret|]. unfold IsActiveNode.
        apply no_panic_bind; [apply Hcall; intros c'; apply node_no_panic|intros; apply no_panic_ret].
  - intros us p c. apply on_chain_no_panic, Hcall. intros c'. apply batch_no_panic.
Qed.

(** The chain client keeps the settler's contract.  Whatever the node
    answers and the receipts hold, a status list has one entry per voucher, and
    none of the calls the settler makes panics: the preview's answers are never
    indexed out of range. *)
Theorem client_keeps_the_interface cl : @ChainClientLaws C Receipt (wire cl).
Proof. apply client_laws. Qed.

(** C6: the settler over the real client conserves usage.  For any node and
    any contract that answer as documented, a drain through the chain client
    returns, and for every account the books afterwards plus the vouchers to
    which a receipt's events or the preview gave a final status are the books
    before. *)
Theorem settler_over_client_conserves cl sg polls cfg st w :
  drain_pre (H1 := wire cl) w -> signer_ok sg ->
  settles_from (H1 := wire cl) (w_redis w) (drain (CC := wire cl) sg polls cfg st) w.
Proof. apply (drain_settles (CL := client_laws cl)). Qed.

End Wired.

(** ** A receipt outage *)

Module WiringExamples.
Import Toy SessionExamples BooksExamples.

(** A node whose next receipt look-ups fail. The transaction is mined and its
    voucher settled; the account nonce is past it. *)
Definition outage : Type := nat.

#[export] Instance outage_node : EthNode outage := {|
  TransactionReceipt := fun _ down => match down with O => (Ok (Some (mkReceipt 1 [mkLog 1 (Some voucherSettledTopic) 50 777 []])), O) | S down => (Err EIO, down) end;
  NonceAt := fun _ c => (Ok 8, c);
  BlockNumber := fun c => (Ok 100, c);
  HeaderTime := fun b c => (Ok b, c);
  FilterLogs := fun _ _ _ c => (Ok [], c)
|}.

#[export] Instance outage_bindings : Bindings outage := {|
  b_SettleFeesWithTEE := fun _ c => (Ok (777, 7), c);
  b_PreviewSettlementResults := fun l c => (Ok ((fun _ => StatusInvalidNonce) <$> l), c);
  b_ParseVoucherSettled := fun _ => Some (mkSettled 4096 8192 10 1 StatusSuccess);
  b_IsActiveProvider := fun _ c => (Ok true, c);
  b_Services := fun _ c => (Ok (mkService "u" "app" 60 60 1), c);
  b_ServiceExists := fun _ c => (Ok true, c);
  b_GetLastNonce := fun _ _ c => (Ok 1, c);
  b_IsTEEAcknowledged := fun _ _ c => (Ok true, c);
  b_GetBalance := fun _ _ c => (Ok (0, 0, 0), c);
  b_BalanceOfBatch := fun us _ c => (Ok ((fun _ => 0) <$> us), c);
  b_FilterServiceUpdated := fun _ _ c => (Ok [], c);
  t_GetNode := fun _ _ c => (Ok 1, c);
  t_GetAppInfo := fun _ c => (Ok (Some 1, 0), c)
|}.

#[export] Instance outage_laws : BindingLaws outage.
Proof. split; try done. intros l c p c'. cbn. intros [= <- _]. by rewrite length_fmap. Qed.

#[export] Instance outage_nonces : NonceReader outage := fun _ _ c => (Ok 1, c).

#[export] Instance outage_nonces_laws : NonceReaderLaws outage.
Proof. done. Qed.

Definition client0 : Client := mkClient 1 5 16601 8192 8192 8192 false.

Lemma client_keeps_the_interface_witness : @ChainClientLaws outage Receipt (wire client0).
Proof. exact (client_keeps_the_interface client0). Defined.

Definition usage0 : SandboxVoucher := set_nonce (usage "sb-1" 4096 10) (Some 1).

(** A receipt outage looks like a drop.  A settled transaction is in
    flight: the chain's nonce covers its voucher and the account nonce is past
    it, but four receipt look-ups in a row fail.  Two polls call it dropped, and
    its usage goes back to the queue to be signed and charged again; the same
    node without the outage resolves it as mined. *)
Theorem receipt_outage_requeues :
  let p := mkPending 777 7 [usage0] (marshal (usage "sb-1" 4096 10)) 1 in
  let w down := world_of (C := outage) down (upd_pending <[8192 := p]> empty_redis) [] 1000 in
  let run down := resolvePendingTx (CC := wire client0) 5 (LQueue 8192) 8192 p 0 0 (w down) in
  (run 4%nat).1 = Ok None /\
  list_at (w_redis (run 4%nat).2) (LQueue 8192) = [marshal (usage "sb-1" 4096 10)] /\
  (@GetLastNonce outage _ 4096 8192 O).1 = Ok 1 /\
  (run 0%nat).1 = Ok (Some [StatusSuccess]) /\ list_at (w_redis (run 0%nat).2) (LQueue 8192) = [].
Proof. vm_compute. repeat split. Qed.

(** Without the outage the receipt is found at once. *)
Definition mined_world : world outage := world_of (C := outage) 0%nat empty_redis [] 1000.

Definition mined_receipt : Receipt := mkReceipt 1 [mkLog 1 (Some voucherSettledTopic) 50 777 []].

Lemma mined_fate : ResolveTxFate client0 777 7 mined_world = (Ok (TxMined mined_receipt), mined_world).
Proof. reflexivity. Qed.

Lemma fate_is_evidence_witness : exists c, (@TransactionReceipt outage _ 777 c).1 = Ok (Some mined_receipt).
Proof. exact (fate_is_evidence client0 777 7 mined_world _ mined_world mined_fate). Defined.

Lemma voucher_page_is_reference_witness :
  exists x, page_logs [1; 2; 3; 4; 5] 1 2 = Ok x /\
    reverse (default [] x) = take (Z.to_nat 2) (drop (Z.to_nat (1 * 2)) (reverse [1; 2; 3; 4; 5])).
Proof. apply (voucher_page_is_reference [1; 2; 3; 4; 5] 1 2); [lia|lia|reflexivity|reflexivity]. Defined.

End WiringExamples.
