(* ===== verification/Alert.v ===== *)
(** * Operator alerts and the monitors (internal/alert/alert.go,
    internal/observability)

    The webhook's history and its suppression of repeats; the three monitors' checks
    and their loops. *)

From S2P Require Import Prelude Hex Bytes Crypto Voucher Store Guard.

(** [internal/alert/alert.go:49-49 HistoryKey] *)
Definition HistoryKey : string := "alert:history".

(** [internal/alert/alert.go:52-52 HistoryMaxLen] *)
Definition HistoryMaxLen : Z := 100.

(** The POST of a payload: an entry and the provider it is about. *)
Class WebhookHTTP (C : Type) := post_webhook : string -> string -> Entry -> C -> res Z * C.

(** The window is in seconds; an empty URL is none.
    [internal/alert/alert.go:78-85 Webhook] *)
Record Webhook := mkWebhook { wh_URL : string; wh_provider : string; wh_dedupWindow : Z }.

(** [internal/alert/alert.go:89-98 NewWebhook] *)
Definition NewWebhook (webhookURL providerAddr : string) (dedupWindow : Z) : Webhook :=
  mkWebhook webhookURL providerAddr dedupWindow.

(** [internal/alert/alert.go:215-215 subjectKeys] *)
Definition subjectKeys : list string := ["user"; "provider"; "sandbox"].

Definition detail_of (details : list (string * detail)) (k : string) : option detail :=
  snd <$> find (fun kv => bool_decide (kv.1 = k)) details.

(** The part of a detail that joins the subject; a number does not.
    [internal/alert/alert.go:236-253 subject] *)
Definition subject_part (d : option detail) : string :=
  match d with
  | Some (DStr s) => if bool_decide (s = EmptyString) then EmptyString else String ":" (to_lower s)
  | Some (DAddr a) => String ":" (to_lower (addr_hex a))
  | Some (DInt _) | None => EmptyString
  end.

(** [internal/alert/alert.go:233-256 subject] *)
Definition subject (details : list (string * detail)) : string :=
  foldl (fun acc k => acc +:+ subject_part (detail_of details k)) EmptyString subjectKeys.

Definition dedup_key (kind : string) (details : list (string * detail)) : string := "alert:dedup:" +:+ kind +:+ subject details.

Section Alerts.
Context {C : Type}.

(** [internal/alert/alert.go:271-280 claimDedup] *)
Definition claimDedup (w : Webhook) (kind : string) (details : list (string * detail)) : M C bool :=
  let! now := gets w_now in
  let! x := attempt (rcmd (setnx now (dedup_key kind details) (wh_dedupWindow w))) in
  ret (match x with inl ok => ok | inr _ => true end).

(** LPUSH and LTRIM of one pipeline. [internal/alert/alert.go:162-174 persist] *)
Definition persist (e : Entry) : M C unit :=
  ignore (rwrite (fun r => upd_history (fun l => take (Z.to_nat HistoryMaxLen) (e :: l)) r)).

(** The entry a goroutine posts, if any. [internal/alert/alert.go:121-158 Notify] *)
Definition Notify (w : Webhook) (kind sev : string) (details : list (string * detail)) : M C (option Entry) :=
  let! claimed := if 0 <? wh_dedupWindow w then claimDedup w kind details else ret true in
  if negb claimed then ret None
  else
    let! now := gets w_now in
    let e := mkAlertEntry kind sev now details in
    persist e ;;
    ret (if bool_decide (wh_URL w = EmptyString) then None else Some e).

(** [internal/alert/alert.go:282-310 dispatch] *)
Definition dispatch `{WebhookHTTP C} (w : Webhook) (e : Entry) : M C unit :=
  ignore (chain_call (post_webhook (wh_URL w) (wh_provider w) e)).

(** [internal/alert/alert.go:178-195 History] *)
Definition History (n : Z) : M C (list Entry) :=
  let n := if n <=? 0 then HistoryMaxLen else n in
  rread (fun r => take (Z.to_nat n) (r_history r)).

End Alerts.

(** ** Monitors: one tick of each *)

Section Monitors.
Context {C : Type}.

(** [internal/observability/balance.go:30-30 settleTxGas] *)
Definition settleTxGas : Z := 300000.

(** [internal/observability/balance.go:61-98 check] *)
Definition check (balanceAt suggestGasPrice : C -> res Z * C) (lowBalanceFactor : Z) : M C unit :=
  let! b := attempt (chain_call balanceAt) in
  match b with
  | inr _ => ret tt
  | inl bal =>
      let! g := attempt (chain_call suggestGasPrice) in
      match g with
      | inr _ => ret tt
      | inl gasPrice =>
          let oneTx := gasPrice * settleTxGas in
          let warningThreshold := oneTx * lowBalanceFactor in
          let details := [("balance_wei", DInt bal); ("gas_price_wei", DInt gasPrice); ("one_tx_cost", DInt oneTx)] in
          if bal <? oneTx then notify "settler_no_balance" "critical" (details ++ [("threshold", DInt oneTx)])
          else if bal <? warningThreshold
          then notify "settler_low_balance" "warning" (details ++ [("threshold", DInt warningThreshold); ("factor", DInt lowBalanceFactor)])
          else ret tt
      end
  end.

(** The counter after a tick. [internal/observability/queue.go:32-55 RunQueueDepthMonitor] *)
Definition queue_tick (queueKey : lkey) (threshold : Z) (consecutiveOver : nat) : M C nat :=
  let! d := attempt (rread (fun r => Z.of_nat (length (list_at r queueKey)))) in
  match d with
  | inr _ => ret 0%nat
  | inl depth =>
      if threshold <? depth then
        (if (2 <=? S consecutiveOver)%nat
         then notify "queue_backlog" "warning" [("depth", DInt depth); ("threshold", DInt threshold)] else ret tt) ;;
        ret (S consecutiveOver)
      else ret 0%nat
  end.

(** [internal/observability/signer.go:60-94 checkSigner] *)
Definition checkSigner (settler provider : addr) (kms : bool) (getServiceAppId : addr -> C -> res string * C)
  (isProviderActive : C -> res bool * C) : M C unit :=
  let! a := attempt (chain_call (getServiceAppId provider)) in
  match a with
  | inr _ => ret tt
  | inl appId =>
      if bool_decide (appId = EmptyString) then ret tt
      else
        let! x := attempt (chain_call isProviderActive) in
        match x with
        | inl false =>
            let fix_ :=
              if kms then "the appId " +:+ appId +:+ " was re-registered since the provider was bound (or TappRegistry was redeployed: the contract owner runs repinKmsProvider)"
              else "register the TEE address as a tapp node, then call sandbox.addOrUpdateService with appId " +:+ appId in
            notify "settler_signer_mismatch" "critical"
              [("settler_addr", DAddr settler); ("provider", DAddr provider); ("app_id", DStr appId); ("fix", DStr fix_)]
        | _ => ret tt
        end
  end.

(** Seconds between two ticks of a monitor. *)
Definition monitor_period : Z := 60.

(** [internal/observability/queue.go:20-57 RunQueueDepthMonitor] *)
Definition RunQueueDepthMonitor (queueKey : lkey) (threshold : Z) (between : list (world C -> world C)) : M C nat :=
  ticker (queue_tick queueKey threshold) between 0%nat.

(** A first sample, then one per tick.
    [internal/observability/balance.go:40-59 RunBalanceMonitor] *)
Definition RunBalanceMonitor (balanceAt suggestGasPrice : C -> res Z * C) (lowBalanceFactor : Z)
  (between : list (world C -> world C)) : M C unit :=
  check balanceAt suggestGasPrice lowBalanceFactor ;;
  ticker (fun _ => check balanceAt suggestGasPrice lowBalanceFactor) between tt.

(** [internal/observability/signer.go:37-58 RunSignerMismatchMonitor] *)
Definition RunSignerMismatchMonitor (settler provider : addr) (kms : bool) (getServiceAppId : addr -> C -> res string * C)
  (isProviderActive : C -> res bool * C) (between : list (world C -> world C)) : M C unit :=
  checkSigner settler provider kms getServiceAppId isProviderActive ;;
  ticker (fun _ => checkSigner settler provider kms getServiceAppId isProviderActive) between tt.

End Monitors.

(** ** Properties *)

Section AlertProperties.
Context {C : Type}.
Implicit Types w : world C.

(** The history never outgrows its bound. *)
Definition history_bounded (r : redis) : Prop := (length (r_history r) <= Z.to_nat HistoryMaxLen)%nat.

Lemma flag_live_set now k ttl r t k' :
  flag_live t (set_flag now k ttl r) k' =
  if bool_decide (k' = k) then (if 0 <? ttl then t <? now + ttl else true) else flag_live t r k'.
Proof.
  unfold flag_live, set_flag. cbn [r_flags upd_flags]. case_bool_decide as Hk; [subst k'; rewrite lookup_insert_eq; by destruct (0 <? ttl)|by rewrite lookup_insert_ne].
Qed.

Lemma Notify_quiet wh kind sev details w :
  quiet w -> 0 < wh_dedupWindow wh ->
  let live := flag_live (w_now w) (w_redis w) (dedup_key kind details) in
  let e := mkAlertEntry kind sev (w_now w) details in
  Notify wh kind sev details w =
    if live then (Ok None, w)
    else (Ok (if bool_decide (wh_URL wh = EmptyString) then None else Some e),
          set_redis (upd_history (fun l => take (Z.to_nat HistoryMaxLen) (e :: l))
                       (set_flag (w_now w) (dedup_key kind details) (wh_dedupWindow wh) (w_redis w))) w).
Proof.
  intros Hq Hw live e. unfold Notify. replace (0 <? wh_dedupWindow wh) with true by lia.
  unfold claimDedup, bind, gets, attempt. rewrite rcmd_quiet by done. unfold setnx. fold live. destruct live.
  - cbn. by destruct w.
  - cbn [fst snd ret negb]. unfold persist, ignore, bind, attempt, rwrite. rewrite rcmd_quiet by done. by destruct w.
Qed.

(** One alert per condition and window, and only then.  On a working
    Redis, the first report of a kind about a subject goes to the history and
    the webhook; every further report of that kind and subject within the window
    changes nothing and sends nothing, whatever else was reported in between and
    however its other details differ; a report with another key is not held back
    by it. *)
Theorem alert_once_per_subject wh kind sev details w w1 x w2 kind' sev' details' :
  quiet w -> 0 < wh_dedupWindow wh -> flag_live (w_now w) (w_redis w) (dedup_key kind details) = false ->
  Notify wh kind sev details w = (Ok x, w1) ->
  quiet w2 -> w_now w <= w_now w2 < w_now w + wh_dedupWindow wh ->
  r_flags (w_redis w2) !! dedup_key kind details = r_flags (w_redis w1) !! dedup_key kind details ->
  let e := mkAlertEntry kind sev (w_now w) details in
  head (r_history (w_redis w1)) = Some e /\ (wh_URL wh <> EmptyString -> x = Some e) /\
  (dedup_key kind' details' = dedup_key kind details -> Notify wh kind' sev' details' w2 = (Ok None, w2)) /\
  (dedup_key kind' details' <> dedup_key kind details ->
     flag_live (w_now w1) (w_redis w1) (dedup_key kind' details') = flag_live (w_now w1) (w_redis w) (dedup_key kind' details')).
Proof.
  intros Hq Hw Hl E Hq2 Ht Hf e. rewrite Notify_quiet, Hl in E by done. injection E as <- <-. cbn [w_redis set_redis w_now] in *.
  split; [done|]. split; [intros Hu; by rewrite bool_decide_false|].
  assert (forall r k, flag_live (w_now w) (upd_history r (w_redis w)) k = flag_live (w_now w) (w_redis w) k) as Hh by done.
  split.
  - intros Hk. rewrite Notify_quiet by done. rewrite Hk.
    assert (flag_live (w_now w2) (w_redis w2) (dedup_key kind details) = true) as ->; [|done].
    unfold flag_live. rewrite Hf. cbn. rewrite lookup_insert_eq. replace (0 <? wh_dedupWindow wh) with true by lia. lia.
  - intros Hk. transitivity (flag_live (w_now w) (set_flag (w_now w) (dedup_key kind details) (wh_dedupWindow wh) (w_redis w)) (dedup_key kind' details')).
    + done.
    + rewrite flag_live_set. by rewrite bool_decide_false.
Qed.

Lemma Notify_bounded wh kind sev details w :
  quiet w -> 0 < wh_dedupWindow wh -> history_bounded (w_redis w) -> history_bounded (w_redis (Notify wh kind sev details w).2).
Proof.
  intros Hq Hw Hb. rewrite Notify_quiet by done. case_match; [done|]. unfold history_bounded. cbn [snd w_redis set_redis].
  change (length (take (Z.to_nat HistoryMaxLen) (mkAlertEntry kind sev (w_now w) details :: r_history (w_redis w))) <= Z.to_nat HistoryMaxLen)%nat.
  rewrite length_take. lia.
Qed.

(** The parts are joined without their field names: a user and a provider can
    stand for each other. *)
Lemma subject_collision : subject [("user", DAddr 77)] = subject [("provider", DAddr 77)].
Proof. reflexivity. Qed.

(** One tick on a working Redis: the alert is raised from the second sample
    above the threshold on. *)
Lemma queue_tick_quiet queueKey threshold over w :
  quiet w ->
  let depth := Z.of_nat (length (list_at (w_redis w) queueKey)) in
  queue_tick queueKey threshold over w =
    if threshold <? depth
    then (Ok (S over),
          if (2 <=? S over)%nat
          then (notify "queue_backlog" "warning" [("depth", DInt depth); ("threshold", DInt threshold)] w).2 else w)
    else (Ok 0%nat, w).
Proof.
  intros Hq depth. unfold queue_tick, bind. rewrite attempt_rread_quiet by done. fold depth. destruct (threshold <? depth); [|done].
  by destruct (2 <=? S over)%nat.
Qed.

Definition backlog_alert (threshold depth : Z) : alert_call :=
  mkAlert "queue_backlog" "warning" [("depth", DInt depth); ("threshold", DInt threshold)].

Definition depth_at (queueKey : lkey) w : Z := Z.of_nat (length (list_at (w_redis w) queueKey)).

(** The depth in the world a tick started from, and what the tick alerted. *)
Definition alarmed (queueKey : lkey) (threshold : Z) (over : bool) (fr : world C * world C) : Prop :=
  w_alerts fr.2 = w_alerts fr.1 ++
    (if over && (threshold <? depth_at queueKey fr.1) then [backlog_alert threshold (depth_at queueKey fr.1)] else []).

(** The ticks of a run with what the one before saw. *)
Fixpoint alarms (queueKey : lkey) (threshold : Z) (over : bool) (frames : list (world C * world C)) : Prop :=
  match frames with
  | [] => True
  | fr :: frames' => alarmed queueKey threshold over fr /\ alarms queueKey threshold (threshold <? depth_at queueKey fr.1) frames'
  end.

Lemma queue_run_alarms queueKey threshold between : forall over w,
  let frames := ticks_of (queue_tick queueKey threshold) between over w in
  Forall (fun fr => quiet fr.1) frames ->
  length frames = length between /\ alarms queueKey threshold (1 <=? over)%nat frames /\ Forall (fun fr => w_redis fr.2 = w_redis fr.1) frames.
Proof.
  induction between as [|f between IH]; intros over w frames; [done|]. subst frames. cbn [ticks_of].
  destruct (queue_tick queueKey threshold over (f w)) as [x w1] eqn:E. intros [Hq Hqs]%Forall_cons. cbn [fst] in Hq.
  rewrite queue_tick_quiet in E by done. fold (depth_at queueKey (f w)) in E.
  unfold alarms, alarmed; fold alarms. cbn [fst snd length]. destruct (threshold <? depth_at queueKey (f w)) eqn:Ed; injection E as <- <-.
  - destruct (IH (S over) _ Hqs) as (Hlen & Ha & Hr). split; [lia|]. split.
    + split; [|exact Ha]. destruct over; cbn; [by rewrite app_nil_r|done].
    + apply Forall_cons. split; [|done]. by destruct over.
  - destruct (IH 0%nat _ Hqs) as (Hlen & Ha & Hr). split; [lia|]. split.
    + split; [|exact Ha]. by rewrite andb_false_r, app_nil_r.
    + by apply Forall_cons.
Qed.

Lemma alarms_nth queueKey threshold frames : forall over, alarms queueKey threshold over frames ->
  forall i fr, frames !! i = Some fr -> alarmed queueKey threshold
    (match i with O => over | S j => match frames !! j with Some fr' => threshold <? depth_at queueKey fr'.1 | None => false end end) fr.
Proof.
  induction frames as [|fr0 frames IH]; intros over Ha i fr Ei; [by rewrite lookup_nil in Ei|]. destruct Ha as [Ha0 Ha].
  destruct i as [|i]; [by injection Ei as <-|]. cbn in Ei. specialize (IH _ Ha i fr Ei). by destruct i.
Qed.

(** The queue monitor cries after two samples, and only then.  Over any
    number of ticks, whatever the settler, the generator and everybody else do to
    the queue in between, as long as Redis answers: a tick changes nothing in
    Redis, and it raises the backlog alert, with the depth it saw, exactly if that
    depth and the one the tick before it saw are above the threshold. *)
Theorem two_samples_alarm queueKey threshold between w :
  let frames := ticks_of (queue_tick queueKey threshold) between 0%nat w in
  Forall (fun fr => quiet fr.1) frames ->
  length frames = length between /\ forall i a b, frames !! i = Some (a, b) ->
    w_redis b = w_redis a /\
    let high c := threshold <? depth_at queueKey c in
    let before := match i with O => false | S j => match frames !! j with Some fr => high fr.1 | None => false end end in
    w_alerts b = w_alerts a ++ (if before && high a then [backlog_alert threshold (depth_at queueKey a)] else []).
Proof.
  intros frames Hq. destruct (queue_run_alarms queueKey threshold between 0%nat w Hq) as (Hlen & Ha & Hr). split; [done|].
  intros i a b Ei. split; [rewrite Forall_forall in Hr; by apply (Hr (a, b)), list_elem_of_lookup_2 with i|].
  exact (alarms_nth queueKey threshold frames false Ha i (a, b) Ei).
Qed.

End AlertProperties.

Module AlertExamples.

Definition hook0 : Webhook := mkWebhook "https://ops.example" "0xp" 3600.

Definition details0 : list (string * detail) := [("user", DAddr 77); ("nonce", DInt 5)].

Definition aworld (r : redis) (now : Z) : world unit := mkWorld r [] false [] now tt [] [].

Definition first : res (option Entry) * world unit := Notify hook0 "voucher_rejected" "warning" details0 (aworld empty_redis 1000).

Lemma alert_once_per_subject_witness :
  first = (Ok (Some (mkAlertEntry "voucher_rejected" "warning" 1000 details0)), first.2) /\
  Notify hook0 "voucher_rejected" "warning" [("user", DAddr 77); ("nonce", DInt 6)] (aworld (w_redis first.2) 4000)
    = (Ok None, aworld (w_redis first.2) 4000).
Proof.
  split; [vm_compute; reflexivity|].
  refine (proj1 (proj2 (proj2 (alert_once_per_subject hook0 "voucher_rejected" "warning" details0 (aworld empty_redis 1000) first.2
    (Some (mkAlertEntry "voucher_rejected" "warning" 1000 details0)) (aworld (w_redis first.2) 4000) "voucher_rejected" "warning"
    [("user", DAddr 77); ("nonce", DInt 6)] eq_refl eq_refl _ _ eq_refl _ eq_refl))) eq_refl).
  - vm_compute. reflexivity.
  - vm_compute. reflexivity.
  - cbn. lia.
Defined.

(** Three samples of a queue at its limit of one, then a drained one. *)
Definition grow (n : nat) (w : world unit) : world unit :=
  set_now (w_now w + monitor_period) (set_redis (set_list (LQueue 8192) (replicate n (Malformed "x")) (w_redis w)) w).

Definition grown : list (world unit -> world unit) := [grow 2; grow 3; grow 4; grow 0].

Definition grown_frames := ticks_of (queue_tick (LQueue 8192) 1) grown 0%nat (aworld empty_redis 1000).

Lemma two_samples_alarm_witness :
  Forall (fun fr => quiet fr.1) grown_frames /\ length grown_frames = length grown /\
  ((fun fr => length (w_alerts fr.2)) <$> grown_frames) = [0; 1; 2; 2]%nat.
Proof.
  assert (Forall (fun fr => quiet fr.1) grown_frames) as Hq by (vm_compute; repeat constructor).
  split; [exact Hq|]. split; [exact (proj1 (two_samples_alarm (LQueue 8192) 1 grown (aworld empty_redis 1000) Hq))|vm_compute; reflexivity].
Defined.

End AlertExamples.
