(* ===== verification/Indexer.v ===== *)
(** * The provider index (internal/indexer/indexer.go)

    The in-memory store is passed from call to call; the copy in Redis is
    [r_providers], the last synced block [r_last_block].  Addresses are rendered
    in lower case.  Go's range order over the maps is the maps' own here; every
    step touches its own key only. *)

From S2P Require Import Prelude Hex Bytes Crypto Voucher Store Session ChainTypes Chain.

(** [internal/indexer/indexer.go:42-53 chainClient] *)
Class IndexerChain (C : Type) := {
  ix_GetServiceUpdatedEvents : Z -> C -> res (list ProviderEvent * Z) * C;
  ix_GetServiceInfo : addr -> C -> res (option Service) * C;
  ix_IsActiveProvider : addr -> C -> res bool * C
}.

Abbreviation index := (gmap string ProviderRecord).

Section Indexer.
Context {C : Type} `{IndexerChain C}.

(** [internal/indexer/indexer.go:105-116 isLiveProvider] *)
Definition isLiveProvider (appId : string) (provider : addr) : M C bool :=
  if bool_decide (appId = EmptyString) then ret false
  else
    let! x := attempt (chain_call (ix_IsActiveProvider provider)) in
    ret (match x with inl live => live | inr _ => true end).

(** [internal/indexer/indexer.go:119-129 removeProvider] *)
Definition removeProvider (idx : index) (addrKey : string) : M C index :=
  ignore (rwrite (upd_providers (delete addrKey))) ;; ret (delete addrKey idx).

(** [internal/indexer/indexer.go:143-147 revalidate] *)
Fixpoint revalidate_all (l : list (string * string)) (idx : index) : M C index :=
  match l with
  | [] => ret idx
  | (addrKey, appId) :: l' =>
      let! live := isLiveProvider appId (hex_to_address addrKey) in
      if live : bool then revalidate_all l' idx
      else let! idx' := removeProvider idx addrKey in revalidate_all l' idx'
  end.

(** [internal/indexer/indexer.go:135-148 revalidate] *)
Definition revalidate (idx : index) : M C index := revalidate_all (map_to_list (pr_AppId <$> idx)) idx.

(** [internal/indexer/indexer.go:152-177 LoadFromRedis] *)
Definition LoadFromRedis (idx : index) : M C index :=
  let! x := attempt (rread (fun r => map_to_list (r_providers r))) in
  match x with
  | inr _ => ret idx
  | inl recs =>
      (fix load recs idx := match recs with
       | [] => ret idx
       | (k, _) :: recs' =>
           let! y := attempt (rread (fun r => r_providers r !! k)) in
           load recs' (match y with inl (Some rec) => <[to_lower (pr_Address rec) := rec]> idx | _ => idx end)
       end) recs idx
  end.

(** [internal/indexer/indexer.go:180-188 GetAll] *)
Definition GetAll (idx : index) : list ProviderRecord := (map_to_list idx).*2.

(** [internal/indexer/indexer.go:191-196 Get] *)
Definition Get (idx : index) (addr : string) : option ProviderRecord := idx !! to_lower addr.

(** [internal/indexer/indexer.go:274-282 lastBlock] *)
Definition lastBlock : M C Z :=
  let! x := attempt (rread r_last_block) in
  ret (match x with inl (Some n) => n | _ => 0 end).

(** [internal/indexer/indexer.go:284-286 saveLastBlock] *)
Definition saveLastBlock (block : Z) : M C unit := ignore (rwrite (set_last_block block)).

(** [internal/indexer/indexer.go:288-294 persistProvider] *)
Definition persistProvider (addrKey : string) (rec : ProviderRecord) : M C unit := rwrite (upd_providers <[addrKey := rec]>).

(** The latest event of each provider; of two in one block the first.
    [internal/indexer/indexer.go:211-217 sync] *)
Definition latest_events (events : list ProviderEvent) : gmap string ProviderEvent :=
  foldl (fun m ev =>
    let key := addr_hex (pe_Provider ev) in
    match m !! key with
    | Some prev => if pe_Block prev <? pe_Block ev then <[key := ev]> m else m
    | None => <[key := ev]> m
    end) ∅ events.

(** [internal/indexer/indexer.go:240-251 sync] *)
Definition provider_record (ev : ProviderEvent) (s : Service) (now : Z) : ProviderRecord :=
  mkProvider (addr_hex (pe_Provider ev)) (sv_Url s) (sv_AppId s) (sv_PricePerCPUPerMin s) (sv_PricePerCPUPerMin s / 60)
    (sv_PricePerMemGBPerMin s) (sv_PricePerMemGBPerMin s / 60) (sv_CreateFee s) (pe_Block ev) now.

(** [internal/indexer/indexer.go:221-261 sync] *)
Definition refresh_provider (idx : index) (addrKey : string) (ev : ProviderEvent) : M C index :=
  let! x := attempt (chain_call (ix_GetServiceInfo (pe_Provider ev))) in
  match x with
  | inr _ | inl None => ret idx
  | inl (Some svc) =>
      let! live := isLiveProvider (sv_AppId svc) (pe_Provider ev) in
      if negb live then removeProvider idx addrKey
      else
        let! now := gets w_now in
        let rec := provider_record ev svc now in
        ignore (persistProvider addrKey rec) ;; ret (<[addrKey := rec]> idx)
  end.

(** [internal/indexer/indexer.go:220-262 sync] *)
Fixpoint refresh_all (l : list (string * ProviderEvent)) (idx : index) : M C index :=
  match l with
  | [] => ret idx
  | (k, ev) :: l' => let! idx' := refresh_provider idx k ev in refresh_all l' idx'
  end.

(** [internal/indexer/indexer.go:200-272 sync] *)
Definition sync (idx : index) : M C index :=
  let! last := lastBlock in
  let! x := attempt (chain_call (ix_GetServiceUpdatedEvents ((last + 1) mod 2 ^ 64))) in
  match x with
  | inr _ => ret idx
  | inl (events, latestBlock) =>
      let! idx' := refresh_all (map_to_list (latest_events events)) idx in
      (if 0 <? latestBlock then saveLastBlock latestBlock else ret tt) ;;
      ret idx'
  end.

(** One turn of the polling loop. [internal/indexer/indexer.go:79-94 Run] *)
Definition poll (idx : index) : M C index := let! idx' := sync idx in revalidate idx'.

End Indexer.

(** ** The two copies *)

Section IndexProperties.
Context {C : Type} `{IndexerChain C}.
Implicit Types w : world C.

(** The copy in Redis is the index, and every record is under its address. *)
Record mirrored (idx : index) (r : redis) : Prop := {
  mi_copy : r_providers r = idx;
  mi_keys : forall k rec, idx !! k = Some rec -> to_lower (pr_Address rec) = k
}.

(** What the index operations do on a working Redis: return, keep the network
    quiet and the two copies equal. *)
Definition mirrors (m : index -> M C index) : Prop :=
  forall idx w, quiet w -> mirrored idx (w_redis w) ->
  (m idx w).1 = Panic \/ exists idx' w', m idx w = (Ok idx', w') /\ quiet w' /\ mirrored idx' (w_redis w').

Lemma mirrors_bind (m : index -> M C index) (k : index -> M C index) :
  mirrors m -> mirrors k -> mirrors (fun idx => bind (m idx) k).
Proof.
  intros Hm Hk idx w Hq Hmi. destruct (Hm idx w Hq Hmi) as [E|(idx' & w' & E & Hq' & Hmi')].
  - left. unfold bind. destruct (m idx w) as [x w']. cbn in E. by subst x.
  - rewrite (bind_ok _ _ _ _ _ E). by apply Hk.
Qed.

Lemma attempt_chain {A B} (f : C -> res A * C) (k : A + rerr -> M C B) w :
  bind (attempt (chain_call f)) k w =
  match f (w_chain w) with
  | (Ok a, c) => k (inl a) (set_chain c w)
  | (Err e, c) => k (inr e) (set_chain c w)
  | (Panic, c) => (Panic, set_chain c w)
  end.
Proof. unfold bind, attempt, chain_call. by destruct (f (w_chain w)) as [[]]. Qed.

Lemma bind_panic {A B} (m : M C A) (k : A -> M C B) w w1 : m w = (Panic, w1) -> bind m k w = (Panic, w1).
Proof. intros E. unfold bind. by rewrite E. Qed.

(** A liveness check answers, or the client panics. *)
Lemma isLiveProvider_run appId p w : exists c, (exists live, isLiveProvider appId p w = (Ok live, set_chain c w)) \/
  isLiveProvider appId p w = (Panic, set_chain c w).
Proof.
  unfold isLiveProvider. case_bool_decide; [exists (w_chain w); left; exists false; by rewrite set_chain_same|].
  rewrite attempt_chain. destruct (ix_IsActiveProvider p (w_chain w)) as [[live|e|] c]; exists c; [left; eauto..|by right].
Qed.

Lemma removeProvider_mirrors k : mirrors (fun idx => removeProvider idx k).
Proof.
  intros idx w Hq [Hc Hk]. right. unfold removeProvider. rewrite (bind_ok _ _ _ _ _ (ignore_rwrite_quiet _ w Hq)).
  eexists _, _. split; [reflexivity|]. split; [exact Hq|]. split; [by rewrite <- Hc|].
  intros k' rec [_ Hl]%lookup_delete_Some. by apply Hk.
Qed.

Lemma revalidate_all_mirrors l : mirrors (revalidate_all l).
Proof.
  induction l as [|[k app] l IH]; intros idx w Hq Hmi; cbn [revalidate_all]; [right; eexists _, _; split; [reflexivity|by split]|].
  destruct (isLiveProvider_run app (hex_to_address k) w) as (c & [[live E]|E]); [|left; by rewrite (bind_panic _ _ _ _ E)].
  rewrite !(bind_ok _ _ _ _ _ E). destruct live; [by apply IH|].
  exact (mirrors_bind _ _ (removeProvider_mirrors k) IH idx (set_chain c w) Hq Hmi).
Qed.

Lemma refresh_mirrors k ev : k = addr_hex (pe_Provider ev) -> mirrors (fun idx => refresh_provider idx k ev).
Proof.
  intros -> idx w Hq Hmi. unfold refresh_provider. rewrite !attempt_chain.
  destruct (ix_GetServiceInfo _ (w_chain w)) as [[[svc|]|e|] c]; [|right; eexists _, _; split; [reflexivity|by split]..|by left].
  destruct (isLiveProvider_run (sv_AppId svc) (pe_Provider ev) (set_chain c w)) as (c' & [[live E]|E]);
    [|left; by rewrite (bind_panic _ _ _ _ E)].
  rewrite !(bind_ok _ _ _ _ _ E). change (set_chain c' (set_chain c w)) with (set_chain c' w).
  destruct live; cbn [negb]; [|by apply removeProvider_mirrors]. right. unfold bind at 1, gets. unfold persistProvider.
  rewrite (bind_ok _ _ _ _ _ (ignore_rwrite_quiet _ (set_chain c' w) Hq)). eexists _, _. split; [reflexivity|]. split; [exact Hq|].
  destruct Hmi as [Hc Hk]. split; [by rewrite <- Hc|]. intros k rec [[<- <-]|[_ Hl]]%lookup_insert_Some; [|by apply Hk].
  cbn. apply to_lower_addr_hex.
Qed.

Lemma latest_events_keys events k ev : latest_events events !! k = Some ev -> k = addr_hex (pe_Provider ev).
Proof.
  unfold latest_events. assert (forall m : gmap string ProviderEvent, (forall k ev, m !! k = Some ev -> k = addr_hex (pe_Provider ev)) ->
    forall k ev, foldl (fun m ev => let key := addr_hex (pe_Provider ev) in
      match m !! key with Some prev => if pe_Block prev <? pe_Block ev then <[key := ev]> m else m | None => <[key := ev]> m end) m events
      !! k = Some ev -> k = addr_hex (pe_Provider ev)) as Hf; [|apply Hf; by intros ? ? ?].
  clear k ev. induction events as [|e events IH]; intros m Hm; [exact Hm|]. cbn [foldl]. apply IH. intros k ev. cbv zeta.
  assert (<[addr_hex (pe_Provider e) := e]> m !! k = Some ev -> k = addr_hex (pe_Provider ev)) as Hi.
  { intros [[<- <-]|[_ Hl]]%lookup_insert_Some; [done|by apply Hm]. }
  case_match; [case_match; [exact Hi|apply Hm]|exact Hi].
Qed.

Lemma refresh_all_mirrors l : (forall k ev, (k, ev) ∈ l -> k = addr_hex (pe_Provider ev)) -> mirrors (refresh_all l).
Proof.
  induction l as [|[k ev] l IH]; intros Hl idx w Hq Hmi; cbn [refresh_all]; [right; eexists _, _; split; [reflexivity|by split]|].
  refine (mirrors_bind _ _ (refresh_mirrors k ev (Hl _ _ _)) (IH _) idx w Hq Hmi); [by left|]. intros k' ev' Hin. apply Hl. by right.
Qed.

Lemma lastBlock_quiet w : quiet w -> lastBlock w = (Ok (default 0 (r_last_block (w_redis w))), w).
Proof. intros Hq. unfold lastBlock. by rewrite (bind_ok _ _ _ _ _ (attempt_rread_quiet _ w Hq)). Qed.

Lemma sync_mirrors : mirrors sync.
Proof.
  intros idx w Hq Hmi. unfold sync. rewrite !(bind_ok _ _ _ _ _ (lastBlock_quiet w Hq)), !attempt_chain. destruct (ix_GetServiceUpdatedEvents _ (w_chain w)) as [[[events latest]|e|] c];
    [|right; eexists _, _; split; [reflexivity|by split]|by left].
  assert (mirrors (fun idx' => (if 0 <? latest then saveLastBlock latest else ret tt) ;; ret idx')) as Hs.
  { intros i w' Hq' [Hc Hk]. right. destruct (0 <? latest); [|eexists _, _; split; [reflexivity|by split]].
    unfold saveLastBlock. rewrite (bind_ok _ _ _ _ _ (ignore_rwrite_quiet _ w' Hq')). eexists _, _. split; [reflexivity|]. by split. }
  refine (mirrors_bind _ _ (refresh_all_mirrors _ _) Hs idx (set_chain c w) Hq Hmi).
  intros k ev Hin. eapply latest_events_keys. by apply elem_of_map_to_list.
Qed.

(** Any number of turns of the loop. *)
Fixpoint polls (n : nat) (idx : index) : M C index :=
  match n with O => ret idx | S n' => let! idx' := poll idx in polls n' idx' end.

Lemma polls_mirrors n : mirrors (polls n).
Proof.
  induction n as [|n IH]; [intros idx w Hq Hmi; right; eexists _, _; split; [reflexivity|by split]|].
  apply mirrors_bind; [|exact IH]. apply mirrors_bind; [exact sync_mirrors|]. intros idx w Hq Hmi.
  by apply revalidate_all_mirrors.
Qed.

Lemma LoadFromRedis_mirror r w : quiet w -> w_redis w = r -> mirrored (r_providers r) r -> LoadFromRedis ∅ w = (Ok (r_providers r), w).
Proof.
  intros Hq <- Hmi. unfold LoadFromRedis. rewrite (bind_ok _ _ _ _ _ (attempt_rread_quiet _ w Hq)).
  set (m := r_providers (w_redis w)) in *.
  assert (forall l (i : index), (forall k rec, (k, rec) ∈ l -> m !! k = Some rec) ->
    (fix load (recs : list (string * ProviderRecord)) idx {struct recs} := match recs with
       | [] => ret idx
       | (k, _) :: recs' =>
           let! y := attempt (rread (fun r => r_providers r !! k)) in
           load recs' (match y with inl (Some rec) => <[to_lower (pr_Address rec) := rec]> idx | _ => idx end)
       end : M C index) l i w = (Ok (foldl (fun i kv => <[kv.1 := kv.2]> i) i l), w)) as Hload.
  { induction l as [|[k rec] l IH]; intros i Hl; [done|].
    rewrite (bind_ok _ _ _ _ _ (attempt_rread_quiet _ w Hq)). cbn beta iota. fold m. rewrite (Hl k rec) by by left.
    rewrite (mi_keys _ _ Hmi k rec (Hl k rec ltac:(by left))). cbn [foldl fst snd]. apply IH. intros k' rec' Hin. apply Hl. by right. }
  cbn beta iota. rewrite Hload by (intros k rec; by apply elem_of_map_to_list). do 2 f_equal.
  assert (forall l : list (string * ProviderRecord), foldl (fun i kv => <[kv.1 := kv.2]> i) ∅ l = list_to_map (M := index) (reverse l)) as Hf.
  { intros l. rewrite <- (reverse_involutive l) at 1. induction (reverse l) as [|[k x] l' IHl]; [done|].
    by rewrite reverse_cons, foldl_app, IHl. }
  rewrite Hf. transitivity (list_to_map (M := index) (map_to_list m)); [|apply list_to_map_to_list].
  apply list_to_map_proper; [|apply reverse_Permutation]. rewrite fmap_reverse, reverse_Permutation. apply NoDup_fst_map_to_list.
Qed.

(** A restart loses no provider.  Whatever the chain client answers in
    any number of turns of the loop on a working Redis, started from a restored
    index, the index in memory and its copy in Redis stay equal, so what a
    restarted process loads is exactly what the old one served. *)
Theorem restart_restores_index n idx w idx' w' :
  quiet w -> mirrored idx (w_redis w) -> polls n idx w = (Ok idx', w') ->
  mirrored idx' (w_redis w') /\ LoadFromRedis ∅ w' = (Ok idx', w').
Proof.
  intros Hq Hmi E. destruct (polls_mirrors n idx w Hq Hmi) as [Ep|(i & w1 & E1 & Hq1 & Hmi1)]; [by rewrite E in Ep|].
  rewrite E in E1. injection E1 as <- <-. split; [done|]. pose proof (mi_copy _ _ Hmi1) as Hc.
  pose proof (LoadFromRedis_mirror _ w' Hq1 eq_refl) as Hl. rewrite Hc in Hl. by apply Hl.
Qed.

End IndexProperties.

(** ** What the index misses *)

Module IndexerExamples.

(** One provider's service, registered in block 7; the outside state is whether
    the info call works and whether the provider is active. *)
Definition service0 : Service := mkService "https://p.example" "app" 600 60 5.

#[export] Instance one_provider : IndexerChain (bool * bool) := {|
  ix_GetServiceUpdatedEvents := fun from c => (Ok (if from <=? 7 then [mkProviderEvent 8192 "https://p.example" "app" 7 1] else [], 9), c);
  ix_GetServiceInfo := fun _ c => (if (c.1 : bool) then Ok (Some service0) else Err EIO, c);
  ix_IsActiveProvider := fun _ c => (Ok c.2, c)
|}.

Definition iworld (c : bool * bool) : world (bool * bool) := mkWorld empty_redis [] false [] 1000 c [] [].

Definition rec0 : ProviderRecord := mkProvider (addr_hex 8192) "https://p.example" "app" 600 10 60 1 5 7 1000.

Lemma poll0 : polls 2 ∅ (iworld (true, true)) = (Ok {[addr_hex 8192 := rec0]},
  set_redis (upd_providers <[addr_hex 8192 := rec0]> (set_last_block 9 empty_redis)) (iworld (true, true))).
Proof. vm_compute. reflexivity. Qed.

Lemma restart_restores_index_witness :
  exists w', polls 2 ∅ (iworld (true, true)) = (Ok {[addr_hex 8192 := rec0]}, w') /\
    LoadFromRedis ∅ w' = (Ok {[addr_hex 8192 := rec0]}, w').
Proof.
  eexists. split; [exact poll0|].
  refine (proj2 (restart_restores_index 2 ∅ (iworld (true, true)) _ _ eq_refl _ poll0)).
  split; [reflexivity|]. intros k rec Hk. discriminate Hk.
Defined.

(** The index loses what one failed look-up or one inactive moment hits.
    When the info call fails for a freshly registered, active provider, the
    block is recorded as synced all the same, and no later turn finds the
    provider; the same happens to a provider that is not active yet when its
    registration is synced and to one that is inactive for one turn. *)
Theorem index_misses_providers :
  let again (c : bool * bool) (w : world (bool * bool)) := set_chain c w in
  let run n idx w := match polls n idx w with (Ok i, w') => (size i, i, w') | (_, w') => (99%nat, (∅ : index), w') end in
  let '(n1, i1, w1) := run 1%nat ∅ (iworld (false, true)) in
  let '(n2, _, w2) := run 5%nat i1 (again (true, true) w1) in
  let '(n3, i3, w3) := run 1%nat ∅ (iworld (true, true)) in
  let '(n4, i4, w4) := run 1%nat i3 (again (true, false) w3) in
  let '(n5, _, _) := run 5%nat i4 (again (true, true) w4) in
  (n1, n2, r_last_block (w_redis w1)) = (0%nat, 0%nat, Some 9) /\ (n3, n4, n5) = (1, 0, 0)%nat.
Proof. vm_compute. split; reflexivity. Qed.

End IndexerExamples.
