(* ===== verification/Daemon.v ===== *)
(** * The billing daemon's stop pipeline (cmd/billing/main.go)

    The settler's stop orders and the markers behind them, the handler that
    archives a sandbox and closes its billing, the recovery pass that re-queues
    markers, the runtime view the voucher generator asks, and what shutdown
    does to the running sandboxes. *)

From S2P Require Import Prelude Hex Bytes Crypto Voucher Store Session Billing ChainTypes Stops Json Daytona.

(** ** Definitions *)

(** [cmd/billing/main.go:1096-1102 sandboxDisposition] *)
Inductive sandboxDisposition := dispositionActive | dispositionArchived | dispositionGone.

#[global] Instance sandboxDisposition_eq_dec : EqDecision sandboxDisposition.
Proof. solve_decision. Defined.

(** [SCAN stop:sandbox:*]: every marker present throughout, in any order and
    possibly more than once. *)
Class StopScan := {
  stop_keys : redis -> list string;
  stop_keys_spec : forall r sid, sid ∈ stop_keys r <-> is_Some (r_stops r !! sid)
}.

Section Daemon.
Context `{SimpleFold} {C : Type} `{DaytonaHTTP C}.

Definition archived (s : Sandbox) : bool := EqualFold (sb_State s) "archived".

(** [cmd/billing/main.go:1111-1123 classifySandbox] *)
Definition classifySandbox (id : string) : M C sandboxDisposition :=
  let! x := attempt (GetSandbox id) in
  ret (match x with
       | inr e => if bool_decide (e = ErrNotFound) then dispositionGone else dispositionActive
       | inl s => if archived s then dispositionArchived else dispositionActive
       end).

(** The ids of one complete listing that are not archived.
    [cmd/billing/main.go:1132-1145 BillableSandboxIDs] *)
Definition billable_ids (pages : nat) : M C (gset string) :=
  let! list := ListSandboxes pages in
  ret (list_to_set (sb_ID <$> filter (fun s => archived s = false) list)).

(** [cmd/billing/main.go:1151-1153 ConfirmGone] *)
Definition confirm_gone (sandboxID : string) : M C bool :=
  let! d := classifySandbox sandboxID in ret (bool_decide (d = dispositionGone)).

(** An action that uses nothing but Daytona, run on its state alone. *)
Definition run_remote {A} (m : M C A) (c : C) : res A * C :=
  let '(x, w) := m (mkWorld empty_redis [] false [] 0 c [] []) in (x, w_chain w).

(** The runtime as the voucher generator sees it; its lookups answer a boolean,
    so a panic counts as no proof.
    [cmd/billing/main.go:1130-1130 daytonaBillable] *)
Definition daytonaBillable (pages : nat) : BillableSandboxes C := {|
  BillableSandboxIDs := run_remote (billable_ids pages);
  ConfirmGone := fun sid c =>
    let '(x, c') := run_remote (confirm_gone sid) c in (match x with Ok b => b | _ => false end, c')
|}.

(** Session and marker, then the broker's entry.
    [cmd/billing/main.go:1075-1079 runStopHandler] *)
Definition cleanup (deregisterBroker : option (string -> M C unit)) (sid : string) : M C unit :=
  ignore (rwrite (upd_sessions (delete sid))) ;;
  ignore (rwrite (upd_stops (delete sid))) ;;
  match deregisterBroker with Some f => f sid | None => ret tt end.

(** Steps 1 and 2; the wait's two minutes are sixty polls.
    [cmd/billing/main.go:1029-1044 runStopHandler] *)
Definition stop_and_wait (polls : nat) (sid : string) : M C unit :=
  ignore (StopSandbox sid) ;; ignore (WaitStopped (Nat.min polls 60) sid).

(** Step 3: the error of an archive that left the sandbox active.
    [cmd/billing/main.go:1053-1074 runStopHandler] *)
Definition archive_failure (sid : string) : M C (option rerr) :=
  let! x := attempt (ArchiveSandbox sid) in
  match x with
  | inl _ => ret None
  | inr e =>
      let! d := classifySandbox sid in
      ret (if bool_decide (d = dispositionActive) then Some e else None)
  end.

(** [cmd/billing/main.go:1059-1068 runStopHandler] *)
Definition report_failure (sig : StopSignal) (e : rerr) : M C unit :=
  notify "archive_failure" "critical"
    [("sandbox", DStr (stop_sandbox sig)); ("reason", DStr (stop_reason sig)); ("error", DStr (error_text e))] ;;
  ignore (events_Push "error" (stop_sandbox sig) EmptyString None).

(** One signal. [cmd/billing/main.go:1004-1093 runStopHandler] *)
Definition handle_stop (polls : nat) (deregisterBroker : option (string -> M C unit)) (sig : StopSignal) : M C unit :=
  let sid := stop_sandbox sig in
  let! d := classifySandbox sid in
  if negb (bool_decide (d = dispositionActive)) then cleanup deregisterBroker sid
  else
    stop_and_wait polls sid ;;
    let! failure := archive_failure sid in
    match failure with
    | Some e => report_failure sig e
    | None => cleanup deregisterBroker sid ;; ignore (events_Push "auto_stopped" sid EmptyString None)
    end.

(** The order for one marker; an unreadable reason is the empty one.
    [cmd/billing/main.go:986-987 recoverPendingStops] *)
Definition recovered_signal (sid : string) : M C StopSignal :=
  let! x := attempt (rcmd (fun r => (match r_stops r !! sid with Some reason => Ok reason | None => Err ENil end, r))) in
  ret (mkStop sid (match x with inl reason => reason | inr _ => EmptyString end)).

(** What the recovery pass works through.
    [cmd/billing/main.go:977-1000 recoverPendingStops] *)
Definition recovery_keys `{StopScan} : M C (list string) :=
  let! x := attempt (rread stop_keys) in ret (match x with inl ks => ks | inr _ => [] end).

(** One sandbox of the shutdown pass.
    [cmd/billing/main.go:917-938 archiveRunningOnShutdown] *)
Definition archive_on_shutdown (polls : nat) (s : Sandbox) : M C unit :=
  let state := to_lower (sb_State s) in
  if bool_decide (state ∈ ["started"; "starting"]) then
    ignore (StopSandbox (sb_ID s)) ;;
    let! x := attempt (WaitStopped polls (sb_ID s)) in
    match x with inr _ => ret tt | inl _ => ignore (ArchiveSandbox (sb_ID s)) end
  else if bool_decide (state = "stopped") then ignore (ArchiveSandbox (sb_ID s))
  else ret tt.

(** [cmd/billing/main.go:910-940 archiveRunningOnShutdown] *)
Definition archiveRunningOnShutdown (pages polls : nat) : M C unit :=
  let! x := attempt (ListSandboxes pages) in
  match x with inr _ => ret tt | inl sandboxes => mapM (archive_on_shutdown polls) sandboxes end.

End Daemon.

(** ** Actions that only talk to Daytona *)

(** The client reports a missing sandbox itself, by status; a failed exchange
    is another error, and no exchange panics. *)
Class DaytonaLaws (C : Type) `{DaytonaHTTP C} := {
  http_error : forall m p b c, (do_http m p b c).1 <> Err ErrNotFound;
  http_returns : forall m p b c, (do_http m p b c).1 <> Panic
}.

(** One exchange after another. *)
Definition reach {C} `{DaytonaHTTP C} : C -> C -> Prop := rtc (fun c c' => exists m p b, c' = (do_http m p b c).2).

Section Remote.
Context {C : Type} `{DaytonaLaws C}.
Implicit Types w : world C.

(** It returns, having let time pass and exchanged messages, nothing else. *)
Definition remote {A} (m : M C A) : Prop := forall w, exists x t c,
  m w = (x, set_now t (set_chain c w)) /\ reach (w_chain w) c /\ x <> Panic.

Lemma remote_pure {A} (f : world C -> res A) : (forall w, f w <> Panic) -> remote (fun w => (f w, w)).
Proof. intros Hf w. exists (f w), (w_now w), (w_chain w). split; [by destruct w|]. split; [apply rtc_refl|apply Hf]. Qed.

Lemma remote_ret {A} (a : A) : remote (ret a).
Proof. by apply (remote_pure (fun _ => Ok a)). Qed.

Lemma remote_fail {A} e : remote (fail e : M C A).
Proof. by apply (remote_pure (fun _ => Err e)). Qed.

Lemma remote_sleep d : remote (sleep d : M C unit).
Proof. intros w. exists (Ok tt), (w_now w + d), (w_chain w). split; [by destruct w|]. split; [apply rtc_refl|done]. Qed.

Lemma remote_request m p : remote (request m p).
Proof.
  intros w. unfold request, chain_call. pose proof (http_returns m p BEmpty (w_chain w)) as Hp.
  destruct (do_http m p BEmpty (w_chain w)) as [x c] eqn:E. exists x, (w_now w), c. split; [by destruct w|].
  split; [|done]. apply rtc_once. exists m, p, BEmpty. by rewrite E.
Qed.

Lemma remote_bind {A B} (m : M C A) (k : A -> M C B) : remote m -> (forall a, remote (k a)) -> remote (bind m k).
Proof.
  intros Hm Hk w. unfold bind. destruct (Hm w) as (x & t & c & -> & Hr & Hp). destruct x as [a|e|]; [|by exists (Err e), t, c|done].
  destruct (Hk a (set_now t (set_chain c w))) as (y & t' & c' & -> & Hr' & Hp'). exists y, t', c'. split; [done|].
  split; [by etrans|done].
Qed.

Lemma remote_attempt {A} (m : M C A) : remote m -> remote (attempt m).
Proof.
  intros Hm w. unfold attempt. destruct (Hm w) as (x & t & c & -> & Hr & Hp). destruct x; [by eexists _, t, c..|done].
Qed.

Lemma remote_ignore {A} (m : M C A) : remote m -> remote (ignore m).
Proof. intros Hm. apply remote_bind; [by apply remote_attempt|]. intros _. apply remote_ret. Qed.

(** It succeeds as well: what is left of a call whose error was looked at. *)
Definition sure {A} (m : M C A) : Prop := forall w, exists a t c, m w = (Ok a, set_now t (set_chain c w)) /\ reach (w_chain w) c.

Lemma sure_ret {A} (a : A) : sure (ret a).
Proof. intros w. exists a, (w_now w), (w_chain w). split; [by destruct w|apply rtc_refl]. Qed.

Lemma sure_attempt {A} (m : M C A) : remote m -> sure (attempt m).
Proof. intros Hm w. unfold attempt. destruct (Hm w) as (x & t & c & -> & Hr & Hp). destruct x; [by eexists _, t, c..|done]. Qed.

Lemma sure_bind {A B} (m : M C A) (k : A -> M C B) : sure m -> (forall a, sure (k a)) -> sure (bind m k).
Proof.
  intros Hm Hk w. unfold bind. destruct (Hm w) as (a & t & c & -> & Hr).
  destruct (Hk a (set_now t (set_chain c w))) as (b & t' & c' & -> & Hr'). exists b, t', c'. split; [done|by etrans].
Qed.

Lemma sure_ignore {A} (m : M C A) : remote m -> sure (ignore m).
Proof. intros Hm. apply sure_bind; [by apply sure_attempt|]. intros _. apply sure_ret. Qed.

Lemma sure_Ok {A} (m : M C A) w a w' : sure m -> m w = (Ok a, w') ->
  exists t c, w' = set_now t (set_chain c w) /\ reach (w_chain w) c.
Proof. intros Hm E. destruct (Hm w) as (b & t & c & E' & Hr). rewrite E' in E. injection E as _ <-. eauto. Qed.

End Remote.

Create HintDb remote.
#[export] Hint Resolve remote_ret remote_fail remote_sleep remote_request remote_attempt remote_ignore : remote.

Ltac remote := repeat first [progress eauto with remote | apply remote_bind; [|intros ?] | case_match | case_decide].

Section RemoteActions.
Context `{SimpleFold} {C : Type} `{DaytonaLaws C}.

Lemma GetSandbox_remote id : remote (GetSandbox id).
Proof. unfold GetSandbox. remote. Qed.

Lemma StopSandbox_remote id : remote (StopSandbox id).
Proof. unfold StopSandbox. remote. Qed.

Lemma ArchiveSandbox_remote id : remote (ArchiveSandbox id).
Proof. unfold ArchiveSandbox. remote. Qed.

Lemma WaitStopped_remote polls id : remote (WaitStopped polls id).
Proof.
  induction polls as [|polls IH]; cbn [WaitStopped].
  all: apply remote_bind; [apply GetSandbox_remote|]; intros s; case_match; auto with remote.
  apply remote_bind; auto with remote.
Qed.

Lemma classifySandbox_sure id : sure (classifySandbox id).
Proof. apply sure_bind; [apply sure_attempt, GetSandbox_remote|]. intros x. apply sure_ret. Qed.

Lemma stop_and_wait_sure polls sid : sure (stop_and_wait polls sid).
Proof. apply sure_bind; [apply sure_ignore, StopSandbox_remote|]. intros _. apply sure_ignore, WaitStopped_remote. Qed.

Lemma archive_failure_sure sid : sure (archive_failure sid).
Proof.
  apply sure_bind; [apply sure_attempt, ArchiveSandbox_remote|]. intros [_|e]; [apply sure_ret|].
  apply sure_bind; [apply classifySandbox_sure|]. intros d. apply sure_ret.
Qed.

(** ** Proof that a sandbox is over *)

Definition path_of (sid : string) : string := sandbox_path sid.

(** What Daytona answers at a point: no such sandbox, an archived one, or that
    it takes the archive order. *)
Inductive over (sid : string) (c : C) : Prop :=
| over_gone p : (do_http "GET" (path_of sid) BEmpty c).1 = Ok (404, p) -> over sid c
| over_archived s : (do_http "GET" (path_of sid) BEmpty c).1 = Ok (200, PSandbox s) -> archived s = true -> over sid c
| over_taken st p : (do_http "POST" (path_of sid +:+ "/archive") BEmpty c).1 = Ok (st, p) -> st < 300 -> over sid c.

Lemma request_Ok m p (w : world C) x w' : request m p w = (x, w') -> (do_http m p BEmpty (w_chain w)).1 = x.
Proof. apply chain_call_Ok. Qed.

Lemma GetSandbox_gone id (w w' : world C) : GetSandbox id w = (Err ErrNotFound, w') ->
  exists p, (do_http "GET" (path_of id) BEmpty (w_chain w)).1 = Ok (404, p).
Proof.
  unfold GetSandbox, bind. destruct (request _ _ w) as [[[st p]|e|] w1] eqn:E; apply request_Ok in E.
  - destruct (Z.eqb_spec st 404) as [->|]; [eauto|]. case_match; [done|]. by case_match.
  - intros [= -> _]. by destruct (http_error "GET" (sandbox_path id) BEmpty (w_chain w)).
  - done.
Qed.

Lemma GetSandbox_found id (w w' : world C) s : GetSandbox id w = (Ok s, w') ->
  (do_http "GET" (path_of id) BEmpty (w_chain w)).1 = Ok (200, PSandbox s).
Proof.
  unfold GetSandbox. intros ([st p] & w1 & E & Es)%bind_Ok. apply request_Ok in E. unfold path_of. rewrite E.
  destruct (st =? 404); [done|]. destruct (Z.eqb_spec st 200) as [->|]; [|done]. cbn [negb] in Es.
  destruct p; try discriminate Es. by injection Es as -> _.
Qed.

Lemma classify_gone id (w w' : world C) : classifySandbox id w = (Ok dispositionGone, w') ->
  exists p, (do_http "GET" (path_of id) BEmpty (w_chain w)).1 = Ok (404, p).
Proof.
  unfold classifySandbox. intros (x & w1 & E & Ed)%bind_Ok. apply attempt_Ok in E. destruct x as [s|e].
  - exfalso. injection Ed as Ed _. by destruct (archived s).
  - injection Ed as Ed _. destruct (bool_decide_reflect (e = ErrNotFound)) as [->|]; [|done]. by eapply GetSandbox_gone.
Qed.

Lemma classify_over id (w w' : world C) d : classifySandbox id w = (Ok d, w') -> d <> dispositionActive -> over id (w_chain w).
Proof.
  intros E Hd. destruct d; [done| |by apply classify_gone in E as [p Hp]; eapply over_gone].
  unfold classifySandbox in E. apply bind_Ok in E as (x & w1 & E & Ed). apply attempt_Ok in E. destruct x as [s|e].
  - apply GetSandbox_found in E. injection Ed as Ed _. destruct (archived s) eqn:Ea; [|done]. by eapply over_archived.
  - injection Ed as Ed _. by destruct (bool_decide _).
Qed.

Lemma archive_failure_none sid (w w' : world C) :
  archive_failure sid w = (Ok None, w') -> exists c, reach (w_chain w) c /\ over sid c.
Proof.
  unfold archive_failure. intros (x & w1 & E & Ed)%bind_Ok. destruct x as [[]|e].
  - apply attempt_Ok in E. unfold ArchiveSandbox in E. apply bind_Ok in E as ([st p] & w2 & E & Ep).
    exists (w_chain w). split; [apply rtc_refl|]. apply request_Ok in E. cbn [fst] in Ep. destruct (Z.leb_spec 300 st); [done|].
    by eapply over_taken.
  - destruct (sure_Ok _ _ _ _ (sure_attempt _ (ArchiveSandbox_remote sid)) E) as (t & c & -> & Hr).
    apply bind_Ok in Ed as (d & w2 & Ec & Ed). exists c. split; [exact Hr|].
    apply (classify_over _ _ _ _ Ec). injection Ed as Ed _. by destruct (bool_decide_reflect (d = dispositionActive)).
Qed.

End RemoteActions.

(** ** The stop handler *)

Section StopProperties.
Context `{SimpleFold} {C : Type} `{DaytonaLaws C}.
Context (polls : nat) (deregisterBroker : option (string -> M C unit)).
Implicit Types (w : world C) (sig : StopSignal).

Definition archive_alert sig (e : rerr) : alert_call :=
  mkAlert "archive_failure" "critical"
    [("sandbox", DStr (stop_sandbox sig)); ("reason", DStr (stop_reason sig)); ("error", DStr (error_text e))].

(** Which of its two ends a signal comes to: clean up with proof, or report. *)
Lemma handle_stop_ends sig w :
  (exists t c (m : M C unit), handle_stop polls deregisterBroker sig w =
      (cleanup deregisterBroker (stop_sandbox sig) ;; m) (set_now t (set_chain c w)) /\
      (m = ret tt \/ m = ignore (events_Push "auto_stopped" (stop_sandbox sig) EmptyString None)) /\
      exists c0, reach (w_chain w) c0 /\ over (stop_sandbox sig) c0) \/
  (exists t c e, handle_stop polls deregisterBroker sig w = report_failure sig e (set_now t (set_chain c w))).
Proof.
  set (sid := stop_sandbox sig). unfold handle_stop. cbv zeta. fold sid.
  destruct (classifySandbox_sure sid w) as (d & t1 & c1 & E1 & Hr1). rewrite (bind_ok _ _ _ _ _ E1).
  destruct (bool_decide_reflect (d = dispositionActive)) as [->|Hd]; cbn [negb].
  2:{ left. exists t1, c1, (ret tt). split; [|split; [by left|]].
      - unfold bind at 1. by destruct (cleanup _ _ _) as [[[]|e|] w2].
      - exists (w_chain w). split; [apply rtc_refl|]. by eapply classify_over. }
  destruct (stop_and_wait_sure polls sid (set_now t1 (set_chain c1 w))) as ([] & t2 & c2 & E2 & Hr2).
  rewrite (bind_ok _ _ _ _ _ E2).
  destruct (archive_failure_sure sid (set_now t2 (set_chain c2 w))) as (f & t3 & c3 & E3 & Hr3).
  rewrite (bind_ok _ _ _ _ _ E3). destruct f as [e|].
  - right. by exists t3, c3, e.
  - left. eexists t3, c3, _. split; [reflexivity|]. split; [by right|].
    apply archive_failure_none in E3 as (c0 & Hr & Ho). exists c0. split; [|exact Ho]. by do 2 (etrans; [eassumption|]).
Qed.

(** A write nobody waits for: alerts and the stop channel are not its business. *)
Lemma ignore_rwrite f w : exists w', ignore (rwrite f) w = (Ok tt, w') /\ w_alerts w' = w_alerts w /\ w_stopch w' = w_stopch w /\
  (quiet w -> quiet w' /\ w_redis w' = f (w_redis w)).
Proof.
  unfold quiet, ignore, bind, attempt, rwrite, rcmd, rcmd_dirty, ret.
  destruct (w_net w) as [|[]]; eexists; (split; [reflexivity|]); (split; [done|]); (split; [done|]); done.
Qed.

(** Reporting touches the event log only. *)
Lemma report_failure_spec sig e w : exists w', report_failure sig e w = (Ok tt, w') /\
  w_alerts w' = w_alerts w ++ [archive_alert sig e] /\ w_stopch w' = w_stopch w /\
  steps (w_net w) (fun r r' => exists f, r' = upd_events f r) (w_redis w) (w_redis w') /\
  (quiet w -> quiet w' /\ exists f, w_redis w' = upd_events f (w_redis w)).
Proof.
  set (w1 := set_alerts (w_alerts w ++ [archive_alert sig e]) w).
  set (f := upd_events (fun l => take maxEvents (mkEvent (w_now w) "error" (stop_sandbox sig) EmptyString None :: l))).
  change (report_failure sig e w) with (ignore (rwrite f) w1).
  assert (guarantees (fun r r' => exists f, r' = upd_events f r) (ignore (rwrite f) : M C unit)) as Hg.
  { apply guarantees_ignore, guarantees_rwrite. by eexists. }
  destruct (Hg w1) as [Hs _]. destruct (ignore_rwrite f w1) as (w' & E & Ha & Hc & Hq). rewrite E in *. exists w'. split_and!; [done..|]. intros Hq0. destruct (Hq Hq0) as [? ->].
  split; [done|by eexists].
Qed.


(** The broker is told, at most; an error there is the callee's to log. *)
Hypothesis deregister_returns : forall f, deregisterBroker = Some f -> forall sid w, exists c, f sid w = (Ok tt, set_chain c w).

Definition closed (sid : string) w w' : Prop :=
  r_stops (w_redis w') = delete sid (r_stops (w_redis w)) /\ r_sessions (w_redis w') = delete sid (r_sessions (w_redis w)) /\
  w_alerts w' = w_alerts w.

Definition reported sig w w' : Prop :=
  r_stops (w_redis w') = r_stops (w_redis w) /\ r_sessions (w_redis w') = r_sessions (w_redis w) /\
  exists e, w_alerts w' = w_alerts w ++ [archive_alert sig e].

Lemma cleanup_quiet sid w : quiet w -> exists w', cleanup deregisterBroker sid w = (Ok tt, w') /\
  quiet w' /\ w_stopch w' = w_stopch w /\ closed sid w w'.
Proof.
  intros Hq. unfold cleanup.
  destruct (ignore_rwrite (upd_sessions (delete sid)) w) as (w1 & E1 & Ha1 & Hc1 & Hk1). destruct (Hk1 Hq) as [Hq1 Hr1].
  destruct (ignore_rwrite (upd_stops (delete sid)) w1) as (w2 & E2 & Ha2 & Hc2 & Hk2). destruct (Hk2 Hq1) as [Hq2 Hr2].
  rewrite (bind_ok _ _ _ _ _ E1), (bind_ok _ _ _ _ _ E2). destruct deregisterBroker as [f|].
  - destruct (deregister_returns f eq_refl sid w2) as [c ->]. exists (set_chain c w2).
    split_and!; [done|exact Hq2|cbn; congruence|]. unfold closed. cbn. rewrite Hr2, Hr1. split_and!; [done..|congruence].
  - exists w2. split_and!; [done|exact Hq2|congruence|]. unfold closed. rewrite Hr2, Hr1. split_and!; [done..|congruence].
Qed.

Lemma handle_stop_quiet sig w : quiet w -> exists w', handle_stop polls deregisterBroker sig w = (Ok tt, w') /\
  quiet w' /\ w_stopch w' = w_stopch w /\ (closed (stop_sandbox sig) w w' \/ reported sig w w').
Proof.
  intros Hq. destruct (handle_stop_ends sig w) as [(t & c & m & -> & Hm & _)|(t & c & e & ->)].
  - destruct (cleanup_quiet (stop_sandbox sig) (set_now t (set_chain c w)) Hq) as (w1 & E1 & Hq1 & Hc1 & Hcl).
    rewrite (bind_ok _ _ _ _ _ E1). destruct Hm as [->| ->]; [by exists w1; split_and!; [..|left]|].
    destruct (ignore_rwrite (upd_events (fun l => take maxEvents (mkEvent (w_now w1) "auto_stopped" (stop_sandbox sig) EmptyString None :: l))) w1)
      as (w2 & E2 & Ha2 & Hc2 & Hk2). destruct (Hk2 Hq1) as [Hq2 Hr2]. exists w2. split; [exact E2|].
    split_and!; [exact Hq2|by rewrite Hc2|]. left. unfold closed. rewrite Hr2, Ha2. exact Hcl.
  - destruct (report_failure_spec sig e (set_now t (set_chain c w))) as (w' & E & Ha & Hc & _ & Hk). destruct (Hk Hq) as [Hq' [f Hr]].
    exists w'. split_and!; [exact E|exact Hq'|exact Hc|]. right. unfold reported. rewrite Hr, Ha. split_and!; [done..|by exists e].
Qed.

(** ** The recovery pass and the handler, interleaved

    The pass has keys left, and possibly an order it waits to send; the handler
    takes orders from the channel. *)
Record pipe := mkPipe { p_keys : list string; p_ready : option StopSignal; p_world : world C }.

Inductive pipe_step : pipe -> pipe -> Prop :=
| pipe_read key keys sig w w' :
    recovered_signal key w = (Ok sig, w') -> pipe_step (mkPipe (key :: keys) None w) (mkPipe keys (Some sig) w')
| pipe_send keys sig w w' :
    try_send sig w = (Ok true, w') -> pipe_step (mkPipe keys (Some sig) w) (mkPipe keys None w')
| pipe_take keys ready sig queue w x w' :
    w_stopch w = sig :: queue -> handle_stop polls deregisterBroker sig (set_stopch queue w) = (x, w') ->
    pipe_step (mkPipe keys ready w) (mkPipe keys ready w').

(** An order in flight for a sandbox, or its failed archive among the alerts
    raised after the first [base]. *)
Definition tracked (base : nat) (sid : string) (s : pipe) : Prop :=
  sid ∈ p_keys s \/ (exists sig, p_ready s = Some sig /\ stop_sandbox sig = sid) \/
  (exists sig, sig ∈ w_stopch (p_world s) /\ stop_sandbox sig = sid) \/
  (exists sig e, stop_sandbox sig = sid /\ archive_alert sig e ∈ drop base (w_alerts (p_world s))).

Definition all_tracked (base : nat) (s : pipe) : Prop :=
  quiet (p_world s) /\ (base <= length (w_alerts (p_world s)))%nat /\
  forall sid, is_Some (r_stops (w_redis (p_world s)) !! sid) -> tracked base sid s.

Definition work_left (s : pipe) : nat :=
  3 * length (p_keys s) + (match p_ready s with Some _ => 2 | None => 0 end) + length (w_stopch (p_world s)).

Lemma recovered_signal_quiet key w : quiet w -> exists reason, recovered_signal key w = (Ok (mkStop key reason), w).
Proof.
  intros Hq. unfold recovered_signal, bind, attempt. rewrite rcmd_quiet by done. destruct w; cbn.
  destruct (r_stops _ !! key); by eexists.
Qed.

Lemma pipe_tracked base s s' : all_tracked base s -> pipe_step s s' -> all_tracked base s'.
Proof.
  intros (Hq & Hb & Ht) Hs. destruct Hs as [key keys sig w w' E|keys sig w w' E|keys ready sig queue w x w' Eq E]; cbn in *.
  - destruct (recovered_signal_quiet key w Hq) as [reason E']. rewrite E' in E. injection E as <- <-. split; [done|]. split; [done|].
    intros sid Hsid. destruct (Ht sid Hsid) as [Hk|[(?&?&_)|[Hc|Ha]]]; cbn in *; [|done|by right; right; left|by right; right; right].
    apply elem_of_cons in Hk as [->|Hk]; [right; left; by eexists|by left].
  - unfold try_send in E. case_bool_decide; [|done]. injection E as <-. split; [exact Hq|]. split; [done|]. intros sid Hsid.
    destruct (Ht sid Hsid) as [Hk|[(? & [= <-] & Es)|[(sg & Hin & Es)|Ha]]]; [by left| | |by right; right; right].
    + right; right; left. exists sig. split; [apply elem_of_app; right; by left|done].
    + right; right; left. exists sg. split; [by apply elem_of_app; left|done].
  - destruct (handle_stop_quiet sig (set_stopch queue w) Hq) as (w2 & E2 & Hq2 & Hc2 & Ho). rewrite E2 in E. injection E as <- <-.
    assert (exists l, w_alerts w2 = w_alerts w ++ l /\
      forall sid, is_Some (r_stops (w_redis w2) !! sid) -> is_Some (r_stops (w_redis w) !! sid) /\
        (stop_sandbox sig = sid -> exists e, archive_alert sig e ∈ l)) as (l & Hl & Hsid0).
    { destruct Ho as [(Hst & _ & Ha)|(Hst & _ & e & Ha)].
      - exists []. split; [by rewrite Ha, app_nil_r|]. intros sid Hsid. rewrite Hst in Hsid.
        apply lookup_delete_is_Some in Hsid as [Hne Hsid]. split; [done|by intros ?].
      - exists [archive_alert sig e]. split; [exact Ha|]. intros sid Hsid. rewrite Hst in Hsid. split; [done|]. intros _. exists e. by left. }
    split; [exact Hq2|]. split; [cbn; rewrite Hl, length_app; lia|]. intros sid [Hold Hsig]%Hsid0. unfold tracked. cbn. rewrite Hl, drop_app_le by done.
    destruct (Ht sid Hold) as [Hk|[Hk|[(sg & Hin & Es)|(sg & e & Es & Hin)]]]; [by left|by right; left| |].
    + cbn in Hin. rewrite Eq in Hin. apply elem_of_cons in Hin as [->|Hin].
      * destruct (Hsig Es) as [e He]. right; right; right. exists sig, e. split; [done|]. apply elem_of_app. by right.
      * right; right; left. exists sg. by rewrite Hc2.
    + right; right; right. exists sg, e. split; [done|]. apply elem_of_app. by left.
Qed.

Lemma pipe_shrinks s s' : quiet (p_world s) -> pipe_step s s' -> (work_left s' < work_left s)%nat.
Proof.
  intros Hq Hs. destruct Hs as [key keys sig w w' E|keys sig w w' E|keys ready sig queue w x w' Eq E]; unfold work_left; cbn in *.
  - destruct (recovered_signal_quiet key w Hq) as [reason E']. rewrite E' in E. injection E as _ <-. lia.
  - unfold try_send in E. case_bool_decide; [|done]. injection E as <-. cbn. rewrite length_app. cbn. lia.
  - destruct (handle_stop_quiet sig (set_stopch queue w) Hq) as (w2 & E2 & _ & Hc2 & _). rewrite E2 in E. injection E as _ <-.
    rewrite Hc2, Eq. cbn. lia.
Qed.

Lemma pipe_idle s : quiet (p_world s) -> (forall s', ~ pipe_step s s') -> p_keys s = [] /\ p_ready s = None /\ w_stopch (p_world s) = [].
Proof.
  destruct s as [keys ready w]. cbn. intros Hq Hn. destruct (w_stopch w) as [|sig queue] eqn:Ec.
  2:{ destruct (handle_stop polls deregisterBroker sig (set_stopch queue w)) as [x w'] eqn:E. destruct (Hn (mkPipe keys ready w')). by econstructor. }
  destruct ready as [sig|].
  { destruct (Hn (mkPipe keys None (set_stopch (w_stopch w ++ [sig]) w))). constructor. unfold try_send. by rewrite bool_decide_true by (rewrite Ec; cbn; unfold stopCh_cap; lia). }
  destruct keys as [|key keys]; [done|]. destruct (recovered_signal_quiet key w Hq) as [reason E].
  destruct (Hn (mkPipe keys (Some (mkStop key reason)) w)). by constructor.
Qed.

Lemma recovery_tracked `{StopScan} w keys w0 :
  quiet w -> recovery_keys w = (Ok keys, w0) -> w0 = w /\ keys = stop_keys (w_redis w) /\ all_tracked (length (w_alerts w)) (mkPipe keys None w).
Proof.
  intros Hq Ek. unfold recovery_keys in Ek. rewrite (bind_ok _ _ _ _ _ (attempt_rread_quiet _ _ Hq)) in Ek. injection Ek as <- <-.
  split; [done|]. split; [done|]. split; [exact Hq|]. split; [done|]. intros sid Hsid. left. by apply stop_keys_spec.
Qed.

Lemma pipe_ends base n s0 s : nsteps pipe_step n s0 s -> all_tracked base s0 -> (n + work_left s <= work_left s0)%nat /\ all_tracked base s.
Proof.
  intros Hn. induction Hn as [s|n s0 s1 s Hs Hn IH]; intros Ht; [split; [lia|done]|].
  pose proof (pipe_shrinks _ _ (proj1 Ht) Hs). destruct (IH (pipe_tracked _ _ _ Ht Hs)) as [Hle Ht']. split; [lia|done].
Qed.

Lemma tracked_idle base s sid : all_tracked base s -> (forall s', ~ pipe_step s s') -> is_Some (r_stops (w_redis (p_world s)) !! sid) ->
  exists sig e, stop_sandbox sig = sid /\ archive_alert sig e ∈ drop base (w_alerts (p_world s)).
Proof.
  intros (Hq & _ & Ht) Hnf Hsid. destruct (pipe_idle s Hq Hnf) as (Hk & Hr & Hc).
  destruct (Ht sid Hsid) as [Hin|[(sg & Hs & _)|[(sg & Hin & _)|Ha]]]; [|congruence| |exact Ha].
  - rewrite Hk in Hin. by apply elem_of_nil in Hin.
  - rewrite Hc in Hin. by apply elem_of_nil in Hin.
Qed.


(** ** The recovery loop *)

(** [cmd/billing/main.go:944-944 pendingStopRetryInterval] *)
Definition pendingStopRetryInterval : Z := 5 * 60.

(** A pass over the markers of a world, to the end of the handler's work on it. *)
Definition recovery_pass `{StopScan} w w' : Prop :=
  exists keys w0 n s, recovery_keys w = (Ok keys, w0) /\ nsteps pipe_step n (mkPipe keys None w) s /\
    (forall s', ~ pipe_step s s') /\ p_world s = w'.

(** The first pass at start-up, then one per tick.
    [cmd/billing/main.go:958-971 runPendingStopRecovery] *)
Inductive runPendingStopRecovery `{StopScan} : nat -> world C -> world C -> Prop :=
| recovery_startup w w1 : recovery_pass w w1 -> runPendingStopRecovery 1 w w1
| recovery_tick k w w1 w2 :
    runPendingStopRecovery k w w1 -> recovery_pass (set_now (w_now w1 + pendingStopRetryInterval) w1) w2 ->
    runPendingStopRecovery (S k) w w2.

Definition archive_failed (sid : string) (a : alert_call) : Prop := exists sig e, stop_sandbox sig = sid /\ a = archive_alert sig e.

(** Each pass keeps Redis working, adds no marker, keeps the alerts and reports
    every marker it leaves. *)
Lemma pass_reports `{StopScan} w w' : quiet w -> recovery_pass w w' ->
  quiet w' /\ exists l, w_alerts w' = w_alerts w ++ l /\ forall sid, is_Some (r_stops (w_redis w') !! sid) ->
    is_Some (r_stops (w_redis w) !! sid) /\ exists a, archive_failed sid a /\ a ∈ l.
Proof.
  intros Hq (keys & w0 & n & s & Ek & Hn & Hnf & <-). destruct (recovery_tracked w keys w0 Hq Ek) as (_ & _ & Ht).
  destruct (pipe_ends _ _ _ _ Hn Ht) as [_ Ht']. split; [exact (proj1 Ht')|].
  assert (quiet (p_world s) /\ exists l, w_alerts (p_world s) = w_alerts w ++ l /\
    forall sid, is_Some (r_stops (w_redis (p_world s)) !! sid) -> is_Some (r_stops (w_redis w) !! sid)) as (_ & l & Hl & Hm).
  { clear Hnf Ht' Ek. change w with (p_world (mkPipe keys None w)) in Hq. change w with (p_world (mkPipe keys None w)) at 1 2. revert Hq.
    clear Ht. induction Hn as [s0|n s0 s1 s Hs Hn IH]; intros Hq0; [split; [done|]; exists []; by rewrite app_nil_r|].
    assert (quiet (p_world s1) /\ exists l, w_alerts (p_world s1) = w_alerts (p_world s0) ++ l /\
      forall sid, is_Some (r_stops (w_redis (p_world s1)) !! sid) -> is_Some (r_stops (w_redis (p_world s0)) !! sid)) as (Hq1 & l1 & Hl1 & Hm1).
    { destruct Hs as [key ks sig v v' E|ks sig v v' E|ks ready sig queue v x v' Eq E]; cbn in *.
      - destruct (recovered_signal_quiet key v Hq0) as [reason E']. rewrite E' in E. injection E as _ <-. split; [done|]. exists []. by rewrite app_nil_r.
      - unfold try_send in E. case_bool_decide; [|done]. injection E as <-. split; [exact Hq0|]. exists []. by rewrite app_nil_r.
      - destruct (handle_stop_quiet sig (set_stopch queue v) Hq0) as (w2 & E2 & Hq2 & _ & Ho). rewrite E2 in E. injection E as _ <-. split; [done|].
        destruct Ho as [(Hst & _ & Ha)|(Hst & _ & e & Ha)]; rewrite Hst, Ha; cbn; [exists []|by eexists]. split; [by rewrite app_nil_r|].
        by intros sid [_ ?]%lookup_delete_is_Some. }
    destruct (IH Hq1) as (Hq2 & l2 & Hl2 & Hm2). split; [done|]. exists (l1 ++ l2). rewrite Hl2, Hl1, app_assoc. split; [done|]. auto. }
  exists l. split; [done|]. intros sid Hsid. split; [by apply Hm|].
  destruct (tracked_idle _ s sid Ht' Hnf Hsid) as (sig & e & Es & Hin). rewrite Hl, drop_app_length in Hin. exists (archive_alert sig e).
  split; [by exists sig, e|done].
Qed.


End StopProperties.

(** ** The voucher generator over this runtime *)

Section Runtime.
Context `{Keccak} `{SimpleFold} {C : Type} `{DaytonaLaws C} `{SessionScan} (pages : nat).

#[local] Instance runtime : BillableSandboxes C := daytonaBillable pages.

Definition keeps_session (sid : string) (r r' : redis) : Prop := is_Some (r_sessions r !! sid) -> is_Some (r_sessions r' !! sid).

Lemma keeps_session_hset sid sid' fs r : keeps_session sid r (hset sid' fs r).
Proof.
  intros Hs. unfold hset, upd_sessions. cbn. destruct (decide (sid = sid')) as [->|].
  - by rewrite lookup_insert_eq.
  - by rewrite lookup_insert_ne.
Qed.

Lemma bill_session_keeps sid h now s : guarantees (keeps_session sid) (bill_session h now s : M C unit).
Proof.
  assert (forall fuel price start overdue, guarantees (keeps_session sid) (catchup fuel h s price start overdue : M C unit)) as Hc.
  { induction fuel as [|fuel IH]; intros price start overdue; cbn [catchup]; [apply guarantees_ret|].
    case_match; [|apply guarantees_ret]. cbv zeta.
    apply guarantees_bind; [apply guarantees_attempt|intros [nva|e]; [|apply guarantees_ret]].
    - unfold emitPeriodVoucher, Enqueue. cbv zeta. case_match; [apply guarantees_ret|].
      apply guarantees_bind; [|intros; apply guarantees_ret]. apply guarantees_rwrite. by intros r Hr.
    - apply guarantees_bind; [apply guarantees_attempt|intros [|]; [apply IH|apply guarantees_ret]].
      apply guarantees_rwrite. intros r. apply keeps_session_hset. }
  unfold bill_session. repeat case_match; try apply guarantees_panic; apply Hc.
Qed.

(** A confirmation is a 404 of that moment. *)
Lemma confirmed_gone sid (c c' : C) :
  ConfirmGone sid c = (true, c') -> exists p, (do_http "GET" (path_of sid) BEmpty c).1 = Ok (404, p).
Proof.
  cbn [ConfirmGone runtime daytonaBillable]. unfold run_remote.
  destruct (confirm_gone sid _) as [x w'] eqn:E. destruct x as [[]|e|]; intros [= _]. unfold confirm_gone in E.
  apply bind_Ok in E as (d & w1 & Ec & Ed). injection Ed as Ed _. apply bool_decide_eq_true in Ed as ->.
  apply classify_gone in Ec. exact Ec.
Qed.

(** The billing session of a sandbox Daytona knows survives every tick of
    the voucher generator, whatever the network does and however long the
    listing leaves the sandbox out: only a 404 for that very id lets the
    generator close it. *)
Theorem known_sandbox_keeps_session h cb skips sid :
  (forall c p, (do_http "GET" (path_of sid) BEmpty c).1 <> Ok (404, p)) ->
  (forall f, cb = Some f -> forall x, guarantees (keeps_session sid) (f x : M C unit)) ->
  guarantees (keeps_session sid) (runGeneration h true cb skips).
Proof.
  intros Hknown Hcb.
  assert (forall now live skips s, guarantees (keeps_session sid) (generate_one h cb now live skips s)) as Hone.
  { intros now live sk s. unfold generate_one. cbv zeta. destruct (now <? _); [apply guarantees_ret|].
    destruct (match live with Some _ => _ | None => _ end);
      [|apply guarantees_bind; [apply bill_session_keeps|intros; apply guarantees_ret]].
    destruct (_ <=? _)%nat; [|apply guarantees_ret]. intros w.
    destruct (ConfirmGone (s_SandboxID s) (w_chain w)) as [g c'] eqn:E.
    assert (chain_call (fun c => let '(b, c') := ConfirmGone (s_SandboxID s) c in (Ok b, c')) w = (Ok g, set_chain c' w)) as Ec
      by (unfold chain_call; by rewrite E).
    rewrite (bind_ok _ _ _ _ _ Ec). destruct g.
    2:{ exact (guarantees_ret (keeps_session sid) _ (set_chain c' w)). }
    assert (sid <> s_SandboxID s) as Hne. { intros ->. apply confirmed_gone in E as [p Hp]. by eapply Hknown. }
    match goal with |- context [bind ?m ?k (set_chain c' w)] => assert (guarantees (keeps_session sid) (bind m k)) as Hg end.
    { apply guarantees_bind; [|intros; apply guarantees_ret]. unfold closePhantomSession.
      apply guarantees_bind; [apply guarantees_attempt; apply guarantees_rwrite|intros [|]; [|apply guarantees_ret]].
      { intros r Hr. cbn. by rewrite lookup_delete_ne by done. }
      apply guarantees_bind; [apply guarantees_ignore, guarantees_rwrite; by intros r Hr|]. intros _.
      destruct cb; [by apply Hcb|apply guarantees_ret]. }
    exact (Hg (set_chain c' w)). }
  assert (forall ss now live skips, guarantees (keeps_session sid) (generate_all h cb now live skips ss)) as Ha.
  { induction ss as [|s ss IH]; intros now live sk; cbn [generate_all]; [apply guarantees_ret|]. apply guarantees_bind; [apply Hone|]. intros. apply IH. }
  unfold runGeneration. apply guarantees_bind; [|intros [ss|]; [|apply guarantees_ret]].
  - apply guarantees_attempt, guarantees_bind; [apply guarantees_rread|]. intros. apply scan_fetch_guarantees.
  - apply guarantees_bind; [apply guarantees_bind; [apply guarantees_attempt, guarantees_chain_call|intros; apply guarantees_ret]|].
    intros live. apply guarantees_bind; [apply guarantees_gets|]. intros now. apply Ha.
Qed.

End Runtime.

(** ** Examples *)

Module DaemonExamples.
Import Toy SessionExamples BillingExamples.

(** Daytona with one sandbox, whose state is the outside state; a wedged one
    takes no archive order. *)
#[export] Instance one_sandbox : DaytonaHTTP string := fun method path _ state =>
  if bool_decide (path = "/api/sandbox/sb-1") then (Ok (200, PSandbox (mkSandbox "sb-1" "sb-1" state ∅ 2 4 "agent")), state)
  else if bool_decide (path = "/api/sandbox/sb-1/stop") then
    (Ok (200, POther), if bool_decide (state = "wedged") then state else "stopped")
  else if bool_decide (path = "/api/sandbox/sb-1/archive") then
    if bool_decide (state = "wedged") then (Ok (500, POther), state) else (Ok (200, POther), "archived")
  else if bool_decide (path = "/api/sandbox?limit=200") then (Ok (200, PSandboxPage [] EmptyString), state)
  else (Ok (404, POther), state).

#[export] Instance one_sandbox_laws : DaytonaLaws string.
Proof. split; intros m p b c; unfold do_http, one_sandbox; by repeat case_match. Qed.

Lemma stops_listed r sid : sid ∈ (map_to_list (r_stops r)).*1 <-> is_Some (r_stops r !! sid).
Proof.
  rewrite list_elem_of_fmap. split.
  - intros ([k x] & -> & Hin%elem_of_map_to_list). by exists x.
  - intros [x Hx]. exists (sid, x). split; [done|]. by apply elem_of_map_to_list.
Qed.

#[export] Instance scan_stops : StopScan := {| stop_keys := fun r => (map_to_list (r_stops r)).*1; stop_keys_spec := stops_listed |}.

(** A billed sandbox with a stop order on it. *)
Definition ordered (state : string) : world string :=
  mkWorld (upd_stops <["sb-1" := "insufficient_balance"]> r0) [] false [] 1000 state [] [].

Definition order : StopSignal := mkStop "sb-1" "insufficient_balance".

Definition left_over (w : world string) : bool * bool :=
  (bool_decide (is_Some (r_stops (w_redis w) !! "sb-1")), bool_decide (is_Some (r_sessions (w_redis w) !! "sb-1"))).

Example started_is_archived : left_over (handle_stop 5 None order (ordered "started")).2 = (false, false).
Proof. vm_compute. reflexivity. Qed.

Example wedged_is_kept : left_over (handle_stop 5 None order (ordered "wedged")).2 = (true, true).
Proof. vm_compute. reflexivity. Qed.

Lemma wedged_not_over c : c = "wedged" -> ~ over "sb-1" c.
Proof.
  intros ->. intros [p E|s E Ha|st p E Hs]; cbn in E; [discriminate E| |].
  - injection E as <-. vm_compute in Ha. discriminate Ha.
  - injection E as <- _. lia.
Qed.

Definition wedged_end : res unit * world string := handle_stop 5 None order (ordered "wedged").


Definition read_world : world string := set_stopch [order] (ordered "started").

Definition handled : world string := (handle_stop 5 None order (set_stopch [] read_world)).2.

Lemma recovered : recovery_keys (ordered "started") = (Ok ["sb-1"], ordered "started").
Proof. vm_compute. reflexivity. Qed.

Definition recovered_end : pipe := mkPipe [] None handled.

Lemma recovery_runs : nsteps (pipe_step 5 None) 3 (mkPipe ["sb-1"] None (ordered "started")) recovered_end.
Proof.
  eapply nsteps_l; [apply (pipe_read 5 None "sb-1" [] order (ordered "started") (ordered "started")); vm_compute; reflexivity|].
  eapply nsteps_l; [apply (pipe_send 5 None [] order (ordered "started") read_world); reflexivity|].
  eapply nsteps_l; [|apply nsteps_O].
  apply (pipe_take 5 None [] None order [] read_world (handle_stop 5 None order (set_stopch [] read_world)).1 handled); [reflexivity|].
  apply surjective_pairing.
Qed.

Lemma no_callback f : (None : option (string -> M string unit)) = Some f -> forall sid w, exists c, f sid w = (Ok tt, set_chain c w).
Proof. discriminate. Qed.


Definition pass_end (w : world string) : world string := (handle_stop 5 None order (set_stopch [] (set_stopch [order] w))).2.

Lemma one_marker_pass w :
  recovery_keys w = (Ok ["sb-1"], w) -> recovered_signal "sb-1" w = (Ok order, w) -> w_stopch w = [] -> w_stopch (pass_end w) = [] ->
  recovery_pass 5 None w (pass_end w).
Proof.
  intros Ek Es Hc He. exists ["sb-1"], w, 3%nat, (mkPipe [] None (pass_end w)). split; [exact Ek|]. split; [|split; [|done]].
  - eapply nsteps_l; [apply (pipe_read 5 None "sb-1" [] order w w Es)|].
    eapply nsteps_l; [apply (pipe_send 5 None [] order w (set_stopch [order] w)); unfold try_send; by rewrite bool_decide_true, Hc by (rewrite Hc; cbn; unfold stopCh_cap; lia)|].
    eapply nsteps_l; [|apply nsteps_O]. by eapply (pipe_take 5 None [] None order []); [reflexivity|apply surjective_pairing].
  - intros s' Hs. inversion Hs as [| |keys ready sig queue w1 x w2 Eq]; subst. by rewrite He in Eq.
Qed.

(** The wedged sandbox after the start-up pass and one tick. *)
Definition once : world string := pass_end (ordered "wedged").
Definition twice : world string := pass_end (set_now (w_now once + pendingStopRetryInterval) once).

Lemma two_passes : runPendingStopRecovery 5 None 2 (ordered "wedged") twice.
Proof. eapply recovery_tick; [apply recovery_startup|]; apply one_marker_pass; vm_compute; reflexivity. Qed.

Lemma still_marked : is_Some (r_stops (w_redis twice) !! "sb-1").
Proof. vm_compute. by eexists. Qed.


Lemma sb1_known c p : (do_http "GET" (path_of "sb-1") BEmpty c).1 <> Ok (404, p).
Proof. discriminate. Qed.

(** Left out of the listing, the running sandbox keeps its session. *)
Lemma known_sandbox_keeps_session_witness :
  guarantees (keeps_session "sb-1") (runGeneration (H0 := daytonaBillable 5) h0 true None {["sb-1" := 50%nat]} : M string _).
Proof.
  apply (known_sandbox_keeps_session 5 h0 None {["sb-1" := 50%nat]} "sb-1").
  - exact sb1_known.
  - intros f E. discriminate E.
Defined.

End DaemonExamples.
