(* ===== verification/Startup.v ===== *)
(** * What the billing daemon starts with (cmd/billing/main.go)

    The prices it charges, resolved from the chain and the environment, the two
    handlers built on them, and the resolver of the app owner, whose answer is
    an administrator of every operator endpoint. *)

From S2P Require Import Prelude Decimal Hex Bytes Crypto Voucher Store Session Billing Json CreatePolicy Guard Config ChainTypes Chain Daytona Seal Registry Http Auth Broker Gate Access Reserve.

(** ** Prices *)

Record Prices := mkPrices { pr_cpu : Z; pr_mem : Z; pr_flat : Z; pr_fee : Z }.

(** A price per resource: on chain unless absent or zero; [log.Fatal] is an error.
    [cmd/billing/main.go:160-171 main] *)
Definition resource_price (onchain : option Z) (env name : string) : res Z :=
  let from_env :=
    if bool_decide (env = "0") || bool_decide (env = EmptyString) then Ok 0
    else match SetString env with Some p => Ok p | None => Err (EMsg ("invalid " +:+ name)) end in
  match onchain with
  | Some p => if p =? 0 then from_env else Ok p
  | None => from_env
  end.

(** The flat rate, read only when both prices per resource are zero.
    [cmd/billing/main.go:189-197 main] *)
Definition flat_price (cpu mem : Z) (env : string) : res Z :=
  if (cpu =? 0) && (mem =? 0) then
    match SetString env with Some p => Ok p | None => Err (EMsg "invalid COMPUTE_PRICE_PER_SEC") end
  else Ok 0.

(** [cmd/billing/main.go:200-209 main] *)
Definition create_fee (onchain : option Z) (env : string) : res Z :=
  let from_env := match SetString env with Some p => Ok p | None => Err (EMsg "invalid CREATE_FEE") end in
  match onchain with
  | Some p => if p =? 0 then from_env else Ok p
  | None => from_env
  end.

(** [cmd/billing/main.go:160-209 main] *)
Definition resolve_prices (bc : BillingConfig) (onchain : option (Z * Z * Z)) : res Prices :=
  match resource_price (fst ∘ fst <$> onchain) (bc_PricePerCPUPerSec bc) "PRICE_PER_CPU_PER_SEC" with
  | Err e => Err e | Panic => Panic
  | Ok cpu =>
  match resource_price (snd ∘ fst <$> onchain) (bc_PricePerMemGBPerSec bc) "PRICE_PER_MEM_GB_PER_SEC" with
  | Err e => Err e | Panic => Panic
  | Ok mem =>
  match flat_price cpu mem (bc_ComputePricePerSec bc) with
  | Err e => Err e | Panic => Panic
  | Ok flat =>
  match create_fee (snd <$> onchain) (bc_CreateFee bc) with
  | Err e => Err e | Panic => Panic
  | Ok fee => Ok (mkPrices cpu mem flat fee)
  end end end end.

(** An unreadable registration counts as none.
    [cmd/billing/main.go:154-209 main] *)
Definition startup_prices {C} `{Bindings C} (bc : BillingConfig) (provider : addr) : M C Prices :=
  let! x := attempt (GetServicePricing provider) in
  lift_res (resolve_prices bc (match x with inl o => o | inr _ => None end)).

(** [cmd/billing/main.go:225-235 main] *)
Definition billing_handler (bc : BillingConfig) (pr : Prices) (provider : addr) (sg : Signer) : EventHandler :=
  NewEventHandler (addr_hex provider) (pr_flat pr) (pr_fee pr) (pr_cpu pr) (pr_mem pr) (bc_VoucherIntervalSec bc) sg.

(** What the proxy is given besides prices and identities. *)
Record Facilities (C : Type) := mkFacilities {
  fa_adminKey : string;
  fa_balCheck : addr -> addr -> C -> res Z * C;
  fa_ackCheck : addr -> C -> res bool * C;
  fa_sshGatewayHost : string;
  fa_sealKey : Z;
  fa_broker : option brokerClient;
  fa_SealedOnly : bool;
  fa_AppOwner : C -> res string * C;
  fa_AppAdmin : option (string -> C -> res bool * C);
  fa_SealIssuer : C -> res SealIssuer * C;
  fa_pages : nat;
  fa_domain : string;
  fa_protocol : string
}.
Arguments fa_adminKey {C}. Arguments fa_balCheck {C}. Arguments fa_ackCheck {C}. Arguments fa_sshGatewayHost {C}.
Arguments fa_sealKey {C}. Arguments fa_broker {C}. Arguments fa_SealedOnly {C}. Arguments fa_AppOwner {C}. Arguments fa_AppAdmin {C}.
Arguments fa_SealIssuer {C}. Arguments fa_pages {C}. Arguments fa_domain {C}. Arguments fa_protocol {C}.

(** [cmd/billing/main.go:577-589 main] *)
Definition proxy_handler {C} (bc : BillingConfig) (cc : ChainConfig) (pr : Prices) (provider : addr) (sg : Signer) (fa : Facilities C) : Handler C := {|
  px_adminKey := fa_adminKey fa;
  px_billing := billing_handler bc pr provider sg;
  px_balCheck := Some (fa_balCheck fa);
  px_ackCheck := Some (fa_ackCheck fa);
  px_createFee := pr_fee pr;
  px_pricePerCPUPerSec := Some (pr_cpu pr);
  px_pricePerMemGBPerSec := Some (pr_mem pr);
  px_computePricePerSec := Some (pr_flat pr);
  px_voucherIntervalSec := bc_VoucherIntervalSec bc;
  px_providerAddress := addr_hex provider;
  px_adminAddresses := AdminList cc;
  px_sshGatewayHost := fa_sshGatewayHost fa;
  px_sealKey := Some (fa_sealKey fa);
  px_broker := fa_broker fa;
  px_SealedOnly := fa_SealedOnly fa;
  px_AppOwner := Some (fa_AppOwner fa);
  px_AppAdmin := fa_AppAdmin fa;
  px_SealIssuer := Some (fa_SealIssuer fa);
  px_pages := fa_pages fa;
  px_domain := fa_domain fa;
  px_protocol := fa_protocol fa
|}.

(** The balance /api/info calls the minimum.
    [cmd/billing/main.go:238-238 main] *)
Definition minBalance (bc : BillingConfig) (pr : Prices) : Z := pr_fee pr + pr_flat pr * bc_VoucherIntervalSec bc.

(** ** The app owner *)

(** [cmd/billing/main.go:1166-1166 appOwnerTTL] *)
Definition appOwnerTTL : Z := 15.

(** [cmd/billing/main.go:1170-1170 appOwnerRetryEvery] *)
Definition appOwnerRetryEvery : Z := 5.

(** [cmd/billing/main.go:1177-1177 appOwnerStaleCap] *)
Definition appOwnerStaleCap : Z := 600.

(** The resolver's variables.
    [cmd/billing/main.go:1184-1188 newAppOwnerResolver] *)
Record owner_state := mkOwner { os_cached : string; os_fetchedAt : Z; os_lastErr : option rerr; os_lastTry : Z }.

Definition no_owner : owner_state := mkOwner EmptyString 0 None 0.

Section Owner.
Context {C : Type}.

(** Asking the chain; [fetch] reads the owner there and may take time.
    [cmd/billing/main.go:1210-1228 newAppOwnerResolver] *)
Definition ask_owner (staleCap : Z) (fetch : M C addr) (st : owner_state) : M C ((string + rerr) * owner_state) :=
  let! x := attempt fetch in
  let! now := gets w_now in
  match x with
  | inr e =>
      ret (if negb (bool_decide (os_cached st = EmptyString)) && (now - os_fetchedAt st <? staleCap) then inl (os_cached st) else inr e,
           mkOwner (os_cached st) (os_fetchedAt st) (Some e) now)
  | inl owner =>
      if owner =? 0 then ret (inr (EMsg "app not registered in TappRegistry"), mkOwner (os_cached st) (os_fetchedAt st) None now)
      else ret (inl (addr_hex owner), mkOwner (addr_hex owner) now None now)
  end.

(** One call, under the mutex.
    [cmd/billing/main.go:1189-1229 newAppOwnerResolver] *)
Definition appOwner (ttl staleCap retryEvery : Z) (backendAppName : string) (fetch : M C addr) (st : owner_state)
  : M C ((string + rerr) * owner_state) :=
  let! now := gets w_now in
  let have := negb (bool_decide (os_cached st = EmptyString)) in
  if have && (now - os_fetchedAt st <? ttl) then ret (inl (os_cached st), st)
  else if bool_decide (backendAppName = EmptyString) then ret (inr (EMsg "BACKEND_APP_NAME not set"), st)
  else
    match os_lastErr st with
    | Some e =>
        if now - os_lastTry st <? retryEvery then
          ret (if have && (now - os_fetchedAt st <? staleCap) then inl (os_cached st) else inr e, st)
        else ask_owner staleCap fetch st
    | None => ask_owner staleCap fetch st
    end.

End Owner.

(** ** Prices: properties *)

Section PriceProperties.
Implicit Types (bc : BillingConfig) (pr : Prices).

(** The two handlers are configured alike, as the release of a reservation
    assumes. *)
Lemma wired_alike {C} bc cc pr provider sg (fa : Facilities C) : priced_alike (proxy_handler bc cc pr provider sg fa).
Proof. by split. Qed.

Lemma resource_price_onchain p env name : p <> 0 -> resource_price (Some p) env name = Ok p.
Proof. intros Hp. unfold resource_price. by replace (p =? 0) with false by lia. Qed.

(** Users pay the registered rate.  When the chain's prices per second and
    create fee are positive, the daemon starts whatever the environment says, its
    flat rate is zero, and both halves charge exactly the registered amounts: the
    gate asks for the create fee and one interval of the sandbox's rate, and the
    generator's rate is the cores' and gigabytes' registered prices. *)
Theorem registered_rate_is_charged {C} bc cc c m f provider sg (fa : Facilities C) cpu mem :
  0 < c -> 0 < m -> 0 < f ->
  exists pr, resolve_prices bc (Some (c, m, f)) = Ok pr /\ pr_flat pr = 0 /\
    let px := proxy_handler bc cc pr provider sg fa in
    px_createFee px = f /\ eh_createFee (px_billing px) = f /\
    intervalCost px cpu mem = Ok ((c * cpu + m * mem) * bc_VoucherIntervalSec bc) /\
    computePrice (px_billing px) cpu mem = cpu * c + mem * m.
Proof.
  intros Hc Hm Hf. exists (mkPrices c m 0 f). unfold resolve_prices. cbn [fmap option_fmap option_map compose fst snd].
  rewrite !resource_price_onchain by lia. unfold flat_price, create_fee.
  replace (c =? 0) with false by lia. replace (f =? 0) with false by lia. cbn [andb].
  cbv zeta. split; [done|]. split; [done|]. split; [done|]. split; [done|]. split.
  - unfold intervalCost, positive. cbn. by replace (0 <? c) with true by lia.
  - unfold computePrice. cbn. by replace (0 <? c) with true by lia.
Qed.

(** The flat rate is a fallback: it is charged only without prices per resource. *)
Lemma flat_is_fallback bc o pr : resolve_prices bc o = Ok pr -> pr_flat pr <> 0 -> pr_cpu pr = 0 /\ pr_mem pr = 0.
Proof.
  unfold resolve_prices. destruct (resource_price _ _ "PRICE_PER_CPU_PER_SEC") as [c| |]; [|done..].
  destruct (resource_price _ _ "PRICE_PER_MEM_GB_PER_SEC") as [m| |]; [|done..].
  destruct (flat_price c m _) as [fl| |] eqn:Ef; [|done..]. destruct (create_fee _ _) as [fee| |]; [|done..].
  intros [= <-] Hn. cbn in *. unfold flat_price in Ef. destruct (_ && _) eqn:Eb; [zbool; lia|]. injection Ef as <-. done.
Qed.

End PriceProperties.

(** ** The app owner: properties *)

Section OwnerProperties.
Context {C : Type} (ttl staleCap retryEvery : Z) (app : string) (fetch : M C addr).
Implicit Types w : world C.

(** The resolver over time: the worlds it was called in, so far; between calls
    anything may happen but the clock going back. *)
Inductive owner_run : list (world C) -> owner_state -> world C -> Prop :=
| run_start w : owner_run [] no_owner w
| run_wait calls st w w' : owner_run calls st w -> w_now w <= w_now w' -> owner_run calls st w'
| run_call calls st w x st' w' :
    owner_run calls st w -> appOwner ttl staleCap retryEvery app fetch st w = (Ok (x, st'), w') ->
    owner_run (calls ++ [w]) st' w'.

(** [o] is what the chain answered in one of the calls, at time [t]. *)
Definition answered (calls : list (world C)) (o : string) (t : Z) : Prop :=
  exists w a w1, w ∈ calls /\ fetch w = (Ok a, w1) /\ a <> 0 /\ o = addr_hex a /\ w_now w1 = t.

Definition remembers (calls : list (world C)) (st : owner_state) : Prop :=
  os_cached st <> EmptyString -> answered calls (os_cached st) (os_fetchedAt st).

Lemma answered_app calls w o t : answered calls o t -> answered (calls ++ [w]) o t.
Proof. intros (w0 & a & w1 & Hin & Hr). exists w0, a, w1. split; [by apply elem_of_app; left|done]. Qed.

Lemma bind_gets {A B} (f : world C -> A) (k : A -> M C B) w : bind (gets f) k w = k (f w) w.
Proof. done. Qed.

Lemma have_cached st : negb (bool_decide (os_cached st = EmptyString)) = true <-> os_cached st <> EmptyString.
Proof. by destruct (bool_decide_reflect (os_cached st = EmptyString)). Qed.

Lemma ask_owner_answers calls st w x st' w' :
  remembers calls st -> ask_owner staleCap fetch st w = (Ok (x, st'), w') ->
  remembers (calls ++ [w]) st' /\
  (forall o, x = inl o -> exists t, answered (calls ++ [w]) o t /\ (w_now w' = t \/ w_now w' - t < staleCap)).
Proof.
  intros Hr E. unfold ask_owner in E. apply bind_Ok in E as (y & w1 & Ef & E). apply attempt_Ok in Ef.
  rewrite bind_gets in E. destruct y as [a|e].
  - destruct (Z.eqb_spec a 0) as [->|Ha]; injection E as <- <- <-; [split; [intros Hc; by apply answered_app, Hr|done]|].
    assert (answered (calls ++ [w]) (addr_hex a) (w_now w1)) as Hans.
    { exists w, a, w1. split_and!; try done. apply elem_of_app. right. by left. }
    split; [by intros _|]. intros o [= <-]. exists (w_now w1). split; [done|by left].
  - injection E as <- <- <-. split; [intros Hc; by apply answered_app, Hr|]. intros o Ho.
    destruct (_ && _) eqn:Eb in Ho; [|done]. injection Ho as <-. apply andb_true_iff in Eb as [Hh%have_cached Hs%Z.ltb_lt].
    exists (os_fetchedAt st). split; [by apply answered_app, Hr|by right].
Qed.

Lemma appOwner_answers calls st w x st' w' :
  ttl <= staleCap -> remembers calls st -> appOwner ttl staleCap retryEvery app fetch st w = (Ok (x, st'), w') ->
  remembers (calls ++ [w]) st' /\
  (forall o, x = inl o -> exists t, answered (calls ++ [w]) o t /\ (w_now w' = t \/ w_now w' - t < staleCap)).
Proof.
  intros Hle Hr E. unfold appOwner in E. rewrite bind_gets in E. cbv zeta in E.
  assert (remembers (calls ++ [w]) st) as Hr' by (intros Hc; by apply answered_app, Hr).
  destruct (_ && (_ <? ttl)) eqn:Eb.
  { injection E as <- <- <-. apply andb_true_iff in Eb as [Hh%have_cached Hs%Z.ltb_lt]. split; [done|].
    intros o [= <-]. exists (os_fetchedAt st). split; [by apply Hr'|right; lia]. }
  destruct (bool_decide (app = EmptyString)); [by injection E as <- <- _|].
  destruct (os_lastErr st) as [e|]; [|by eapply ask_owner_answers].
  destruct (_ <? retryEvery); [|by eapply ask_owner_answers].
  injection E as <- <- <-. split; [done|]. intros o Ho. destruct (_ && _) eqn:Es in Ho; [|done]. injection Ho as <-.
  apply andb_true_iff in Es as [Hh%have_cached Hs%Z.ltb_lt]. exists (os_fetchedAt st). split; [by apply Hr'|by right].
Qed.

Lemma owner_run_remembers calls st w : ttl <= staleCap -> owner_run calls st w -> remembers calls st.
Proof.
  intros Hle Hrun. induction Hrun as [w|calls st w w' Hrun IH _|calls st w x st' w' Hrun IH E]; [by intros ?|exact IH|].
  by apply (appOwner_answers _ _ _ _ _ _ Hle IH E).
Qed.

(** The owner who is taken for an administrator is one the chain named.
    Over any sequence of calls, delays and outages, whatever the resolver
    answers was the non-zero owner the registry returned to one of its own
    reads, and that read ended now or less than the stale cap ago. *)
Theorem owner_is_recent calls st w o st' w' :
  ttl <= staleCap -> owner_run calls st w ->
  appOwner ttl staleCap retryEvery app fetch st w = (Ok (inl o, st'), w') ->
  exists w0 a w1, w0 ∈ calls ++ [w] /\ fetch w0 = (Ok a, w1) /\ a <> 0 /\ o = addr_hex a /\
    (w_now w' = w_now w1 \/ w_now w' - w_now w1 < staleCap).
Proof.
  intros Hle Hrun E. pose proof (owner_run_remembers _ _ _ Hle Hrun) as Hr.
  destruct (proj2 (appOwner_answers _ _ _ _ _ _ Hle Hr E) o eq_refl) as (t & (w0 & a & w1 & Hin & Hf & Ha & Ho & <-) & Ht).
  by exists w0, a, w1.
Qed.

End OwnerProperties.

(** ** Examples *)

Module StartupExamples.
Import Toy.

(** The registry's answers, in order. *)
Definition next_answer (c : list (res addr)) : res addr * list (res addr) :=
  match c with x :: c' => (x, c') | [] => (Err EIO, []) end.

Definition fetch0 : M (list (res addr)) addr := chain_call next_answer.

Definition registry_world (now : Z) (answers : list (res addr)) : world (list (res addr)) := mkWorld empty_redis [] false [] now answers [] [].

Definition resolve0 := appOwner (C := list (res addr)) appOwnerTTL appOwnerStaleCap appOwnerRetryEvery "app" fetch0.

Definition first_world : world (list (res addr)) := registry_world 1000 [Ok 4096; Err EIO].

Definition owner0 : owner_state := mkOwner (addr_hex 4096) 1000 None 1000.

Definition outage_world : world (list (res addr)) := registry_world 1300 [Err EIO].

Lemma first_call : resolve0 no_owner first_world = (Ok (inl (addr_hex 4096), owner0), registry_world 1000 [Err EIO]).
Proof. vm_compute. reflexivity. Qed.

Lemma outage_call :
  resolve0 owner0 outage_world = (Ok (inl (addr_hex 4096), mkOwner (addr_hex 4096) 1000 (Some EIO) 1300), registry_world 1300 []).
Proof. vm_compute. reflexivity. Qed.

Lemma outage_run : owner_run appOwnerTTL appOwnerStaleCap appOwnerRetryEvery "app" fetch0 [first_world] owner0 outage_world.
Proof.
  eapply run_wait; [eapply (run_call _ _ _ _ _ []); [apply run_start|exact first_call]|]. by vm_compute.
Qed.

Lemma owner_is_recent_witness :
  exists w0 a w1, w0 ∈ [first_world] ++ [outage_world] /\ fetch0 w0 = (Ok a, w1) /\ a <> 0 /\ addr_hex 4096 = addr_hex a /\
    (w_now (registry_world 1300 []) = w_now w1 \/ w_now (registry_world 1300 []) - w_now w1 < appOwnerStaleCap).
Proof.
  exact (owner_is_recent appOwnerTTL appOwnerStaleCap appOwnerRetryEvery "app" fetch0 [first_world] owner0 outage_world
           (addr_hex 4096) _ (registry_world 1300 []) ltac:(unfold appOwnerTTL, appOwnerStaleCap; lia) outage_run outage_call).
Defined.

(** A sequence of calls at given times; what each answers. *)
Fixpoint calls (times : list Z) (st : owner_state) (w : world (list (res addr))) : list (option string) :=
  match times with
  | [] => []
  | t :: ts =>
      match resolve0 st (set_now t w) with
      | (Ok (x, st'), w') => (match x with inl o => Some o | inr _ => None end) :: calls ts st' w'
      | _ => []
      end
  end.

(** An owner the chain removed comes back with an outage.  The registry
    says at second 20 that the app has no owner, and the former owner is
    refused; ten seconds later the node fails and the former owner is served, an
    administrator again for up to the stale cap since the last good answer. *)
Theorem removed_owner_returns :
  calls [0; 20; 30; 300; 700] no_owner (registry_world 0 [Ok 4096; Ok 0; Err EIO; Err EIO; Err EIO]) =
  [Some (addr_hex 4096); None; Some (addr_hex 4096); Some (addr_hex 4096); None].
Proof. vm_compute. reflexivity. Qed.

Definition billing0 : BillingConfig := mkBillingConfig 60 0 "16667" "1000" "0" "50".

Definition facilities0 : Facilities Z :=
  mkFacilities Z "admin" (fun _ _ c => (Ok c, c)) (fun _ c => (Ok true, c)) EmptyString 9 None false (fun c => (Err EIO, c)) None
    (fun c => (Err EIO, c)) 5 "proxy.example" "https".

Definition chain0 : ChainConfig :=
  mkChainConfig "http://rpc" "0xaa" "0xbb" EmptyString "local" EmptyString EmptyString EmptyString EmptyString 16601.

Definition signer0 : Signer := mkSigner 8192 16601 99 8192.

Lemma registered_rate_is_charged_witness :
  exists pr, resolve_prices billing0 (Some (7, 3, 20)) = Ok pr /\ pr_flat pr = 0 /\
    let px := proxy_handler billing0 chain0 pr 8192 signer0 facilities0 in
    px_createFee px = 20 /\ eh_createFee (px_billing px) = 20 /\
    intervalCost px 2 4 = Ok ((7 * 2 + 3 * 4) * bc_VoucherIntervalSec billing0) /\
    computePrice (px_billing px) 2 4 = 2 * 7 + 4 * 3.
Proof. apply (registered_rate_is_charged billing0 chain0 7 3 20 8192 signer0 facilities0 2 4); lia. Defined.

(** A registered price can be replaced by the environment's.  A price of
    59 a minute is zero a second; the daemon takes it for no price and charges
    the thousand a second its environment says, although the service is
    registered. *)
Theorem low_price_reads_env :
  resolve_prices billing0 (Some (59 / 60, 60 / 60, 20)) = Ok (mkPrices 1000 1 0 20) /\
  (forall pr, resolve_prices billing0 (Some (59 / 60, 60 / 60, 20)) = Ok pr ->
     computePrice (billing_handler billing0 pr 8192 signer0) 1 0 = 1000).
Proof. split; [reflexivity|]. intros pr E. vm_compute in E. injection E as <-. reflexivity. Qed.

(** The minimum balance /api/info shows leaves the prices per resource out: a
    user who holds exactly it is refused. *)
Lemma min_balance_understates :
  let pr := mkPrices 7 3 0 20 in
  minBalance billing0 pr = 20 /\ intervalCost (proxy_handler billing0 chain0 pr 8192 signer0 facilities0) 1 1 = Ok 600.
Proof. vm_compute. by split. Qed.

End StartupExamples.
