(* ===== verification/Console.v ===== *)
(** * The operator's and the public read endpoints (cmd/billing/main.go,
    internal/proxy/handler.go: handleEvents)

    The handlers of the billing daemon that are not under /api/sandbox: image
    import and garbage collection, the voucher queue and its dead letters, the
    dashboard's counters, the provider list, the registry's images and the
    on-chain events. *)

From stdpp Require Import pretty.
From S2P Require Import Prelude Decimal Hex Bytes Crypto Voucher Store Backlog Session Billing Json CreatePolicy Guard Config ChainTypes Daytona Seal Registry Http Auth Broker Gate Access Chain Alert.

(** ** Answers *)

(** A row of the provider list.
    [cmd/billing/main.go:319-328 ProviderInfo] *)
Record ProviderInfo := mkInfo {
  in_Address : string;
  in_URL : string;
  in_AppId : string;
  in_PricePerCPUPerMin : Z;
  in_PricePerCPUPerSec : Z;
  in_PricePerMemGBPerMin : Z;
  in_PricePerMemGBPerSec : Z;
  in_CreateFee : Z
}.

(** What a garbage collection did with each candidate.
    [cmd/billing/main.go:664-667 main] *)
Record gc_report := mkGC {
  gc_deleted : list string;
  gc_kept : list string;
  gc_skipped : list (string * rerr);
  gc_failed : list (string * rerr)
}.

Inductive page :=
| PReply (r : reply)
| PImage (image : string)
| PCollected (dryRun : bool) (candidates : nat) (g : gc_report)
| PSummary (rows : list Summary) (scanned : nat) (truncated : bool) (limit : Z)
| PDeadLetters (entries : list DLQEntry)
| PRemoved (n : Z)
| PAggregated (r : AggregateResult)
| PHealth (depth dlq_depth threshold : Z) (status : string) (recent : list Entry)
| PProviders (l : list ProviderInfo)
| PSnapshots (l : list Snapshot)
| PImages (l : list string)
| PEvents (current_block since total page page_size : Z) (l : list VoucherEvent).

Definition page_status (p : page) : Z := match p with PReply r => reply_status r | _ => 200 end.

Abbreviation page_answer := page.

(** The internal registry's catalog API.  The exchange may fail; the answer's
    text may not decode.  Tags are what could be decoded of theirs. *)
Class RegistryV2 (C : Type) := {
  v2_catalog : C -> res (res (list string)) * C;
  v2_tags : string -> C -> res (list string) * C
}.

Definition bad (status : Z) (msg : string) : page := PReply (error_reply status msg).

(** ** Requests *)

(** The string fields of a JSON body ([ShouldBindJSON] reads one value and
    ignores what follows; [null] leaves every field empty). *)
Fixpoint bind_strings `{SimpleFold} (fields : list string) (ms : list (string * json)) : res (list string) :=
  match fields with
  | [] => Ok []
  | f :: fs => res_bind (field_string f ms) (fun x => res_bind (bind_strings fs ms) (fun xs => Ok (x :: xs)))
  end.

Definition bind_body `{SimpleFold} (fields : list string) (b : body) : res (list string) :=
  match b with
  | BText (JObj ms) _ => bind_strings fields ms
  | BText JNull _ => Ok (const EmptyString <$> fields)
  | _ => Err (EMsg "invalid request body")
  end.

(** The nonce of a discard request as text: no number is equal to a text that
    is not its canonical decimal. *)
Definition nonce_arg (s : string) : option (option Z) :=
  if bool_decide (s = EmptyString) then None
  else Some (match SetString s with Some n => if bool_decide (pretty n = s) then Some n else None | None => None end).

(** The query parameter [min_count], one unless it starts with an integer.
    [cmd/billing/main.go:708-713 main] *)
Definition min_count (v : string) : Z :=
  if bool_decide (v = EmptyString) then 1 else default 1 (Sscanf_d v).

Inductive console_route :=
| CPull | CGC (dry_run : string) | CQueueSummary (min_count : string) | CDeadLetters | CDiscard | CAggregate | CObservability.

(** What the operator's endpoints were built with; [co_refHost] is the host of the
    registry URL. *)
Record Console (C : Type) := mkConsole {
  co_proxy : Handler C;
  co_provider : addr;
  co_refHost : string;
  co_catalog : C -> res (list string) * C;
  co_tags : string -> C -> res (list string) * C;
  co_backlogThreshold : Z
}.
Arguments co_proxy {C}. Arguments co_provider {C}. Arguments co_refHost {C}. Arguments co_catalog {C}. Arguments co_tags {C}.
Arguments co_backlogThreshold {C}.

Section Console.
Context `{Keccak} `{SimpleFold} {C : Type} `{DaytonaHTTP C} `{ImageNames} `{Crane C}.
Implicit Types (co : Console C).

(** [cmd/billing/main.go:598-602 main] *)
Definition console_gate co (wallet : string) (next : M C page) : M C page :=
  let! admin := isAdmin (co_proxy co) wallet in
  if admin : bool then next else ret (PReply admin_only).

(** [cmd/billing/main.go:597-632 main] *)
Definition registry_pull (b : body) : M C page :=
  match bind_body ["src"; "name"; "tag"; "username"; "password"] b with
  | Panic => panic
  | Ok [src; name; tag; _; _] =>
      if bool_decide (EmptyString ∈ [src; name; tag]) then ret (bad 400 "src, name, and tag are required")
      else
        let! x := attempt (Copy src name tag) in
        ret (match x with
             | inl dst => PImage dst
             | inr e => bad (if bool_decide (e = ErrTagExists) then 409 else if bool_decide (e = ErrReservedTarget) then 400 else 502)
                            (error_text e)
             end)
  | _ => ret (bad 400 "invalid request body")
  end.

(** The images snapshots run from.
    [cmd/billing/main.go:657-662 main] *)
Definition in_use (snaps : list Snapshot) : gset string :=
  list_to_set (filter (fun n => n <> EmptyString) (sn_ImageName <$> snaps)).

(** [cmd/billing/main.go:668-686 main] *)
Fixpoint gc_loop (inUse : gset string) (dryRun : bool) (candidates : list string) (g : gc_report) : M C gc_report :=
  match candidates with
  | [] => ret g
  | ref :: rest =>
      if bool_decide (ref ∈ inUse) then
        gc_loop inUse dryRun rest (mkGC (gc_deleted g) (gc_kept g ++ [ref]) (gc_skipped g) (gc_failed g))
      else if dryRun then
        gc_loop inUse dryRun rest (mkGC (gc_deleted g ++ [ref]) (gc_kept g) (gc_skipped g) (gc_failed g))
      else
        let! x := attempt (DeleteTag ref) in
        gc_loop inUse dryRun rest
          (match x with
           | inl _ => mkGC (gc_deleted g ++ [ref]) (gc_kept g) (gc_skipped g) (gc_failed g)
           | inr e =>
               if bool_decide (e = ErrTagSharesManifest)
               then mkGC (gc_deleted g) (gc_kept g) (gc_skipped g ++ [(ref, e)]) (gc_failed g)
               else mkGC (gc_deleted g) (gc_kept g) (gc_skipped g) (gc_failed g ++ [(ref, e)])
           end)
  end.

(** [cmd/billing/main.go:645-695 main] *)
Definition registry_gc co (dry_run : string) : M C page :=
  let dryRun := bool_decide (dry_run = "true") in
  let! x := attempt (ListDerivedTags (co_refHost co) (co_catalog co) (co_tags co)) in
  match x with
  | inr e => ret (bad 502 (error_text e))
  | inl candidates =>
      let! y := attempt (ListSnapshots (px_pages (co_proxy co))) in
      match y with
      | inr e => ret (bad 502 (error_text e))
      | inl snaps =>
          let! g := gc_loop (in_use snaps) dryRun candidates (mkGC [] [] [] []) in
          ret (PCollected dryRun (length candidates) g)
      end
  end.

(** [cmd/billing/main.go:708-725 main] *)
Definition queue_summary co (v : string) : M C page :=
  let! x := attempt (SummarizeQueue (LQueue (co_provider co)) (Z.to_nat (min_count v))) in
  ret (match x with
       | inr e => bad 500 (error_text e)
       | inl (rows, scanned, truncated) => PSummary rows scanned truncated MaxScanItems
       end).

(** [cmd/billing/main.go:738-743 main] *)
Definition queue_dlq co : M C page :=
  let! x := attempt (ListDLQ (co_provider co)) in
  ret (match x with inr e => bad 500 (error_text e) | inl entries => PDeadLetters entries end).

(** [cmd/billing/main.go:759-777 main] *)
Definition dlq_discard (b : body) : M C page :=
  match bind_body ["user"; "provider"; "nonce"] b with
  | Panic => panic
  | Ok [user; provider; nonce] =>
      if bool_decide (EmptyString ∈ [user; provider; nonce]) then ret (bad 400 "user, provider, and nonce are required")
      else
        let! x := attempt (DiscardFromDLQ (hex_to_address user) (hex_to_address provider) (nonce_arg nonce)) in
        ret (match x with inr e => bad 500 (error_text e) | inl n => PRemoved n end)
  | _ => ret (bad 400 "user, provider, and nonce are required")
  end.

(** The operator's collapse, with its audit event.
    [cmd/billing/main.go:789-828 main] *)
Definition queue_aggregate co (b : body) : M C page :=
  match bind_body ["user"; "provider"] b with
  | Panic => panic
  | Ok [user; provider] =>
      if bool_decide (EmptyString ∈ [user; provider]) then ret (bad 400 "user and provider are required")
      else
        let! x := attempt (Aggregate (LQueue (co_provider co)) (hex_to_address user) (hex_to_address provider)) in
        match x with
        | inr e => ret (bad 500 (error_text e))
        | inl result =>
            (if (0 <? ar_Matched result)%nat then ignore (events_Push "aggregated" EmptyString user (Some (ar_TotalFee result)))
             else ret tt) ;;
            ret (PAggregated result)
        end
  | _ => ret (bad 400 "invalid request body")
  end.

(** A failed count is shown as zero.
    [cmd/billing/main.go:842-860 main] *)
Definition observability co : M C page :=
  let! d := attempt (rread (fun r => Z.of_nat (length (list_at r (LQueue (co_provider co)))))) in
  let! q := attempt (rread (fun r => Z.of_nat (length (list_at r (LDLQ (co_provider co)))))) in
  let depth := match d with inl n => n | inr _ => 0 end in
  let! h := attempt (History 50) in
  ret (PHealth depth (match q with inl n => n | inr _ => 0 end) (co_backlogThreshold co)
         (if co_backlogThreshold co <? depth then "backlogged" else "ok") (match h with inl l => l | inr _ => [] end)).

(** The operator group. [cmd/billing/main.go:595-861 main] *)
Definition console co (wallet : string) (r : console_route) (b : body) : M C page :=
  console_gate co wallet
    (match r with
     | CPull => registry_pull b
     | CGC dry => registry_gc co dry
     | CQueueSummary v => queue_summary co v
     | CDeadLetters => queue_dlq co
     | CDiscard => dlq_discard b
     | CAggregate => queue_aggregate co b
     | CObservability => observability co
     end).

End Console.

(** ** Public reads *)

Section Public.
Context `{Keccak} `{SimpleFold} {C : Type} `{DaytonaHTTP C} `{EthNode C} `{Bindings C}.

(** The one provider, unless its registration cannot be read.
    [cmd/billing/main.go:318-357 main] *)
Definition list_providers (provider : addr) : M C page :=
  let! x := attempt (GetServiceInfo provider) in
  ret (PProviders (match x with
       | inl (Some s) =>
           [mkInfo (addr_hex provider) (sv_Url s) (sv_AppId s) (sv_PricePerCPUPerMin s) (sv_PricePerCPUPerMin s / 60)
              (sv_PricePerMemGBPerMin s) (sv_PricePerMemGBPerMin s / 60) (sv_CreateFee s)]
       | _ => []
       end)).

(** [cmd/billing/main.go:486-496 main] *)
Definition list_snapshot_images (pages : nat) : M C page :=
  let! x := attempt (ListSnapshots pages) in
  ret (match x with inr _ => bad 502 "upstream error" | inl snaps => PSnapshots snaps end).

(** [cmd/billing/main.go:547-568 main] *)
Definition sandbox_list (pages : nat) (wallet : string) : M C page :=
  if bool_decide (wallet = EmptyString) then ret (bad 400 "wallet required")
  else
    let! x := attempt (ListSandboxes pages) in
    ret (PReply (match x with
         | inr _ => error_reply 502 "upstream error"
         | inl sandboxes => RSandboxes (filter (fun s => EqualFold (default EmptyString (sb_Labels s !! ownerLabel)) wallet = true) sandboxes)
         end)).

(** A non-negative integer query parameter, or its default. *)
Definition query_nat (s : string) (dflt : Z) : option Z :=
  if bool_decide (s = EmptyString) then Some dflt
  else match Atoi s with Some n => if n <? 0 then None else Some n | None => None end.

(** [internal/proxy/handler.go:1061-1139 handleEvents] *)
Definition handleEvents (cl : Client) (cache : block_cache) (since page page_size : string) : M C (page_answer * block_cache) :=
  match (if bool_decide (since = EmptyString) then Some 0 else ParseUint since) with
  | None => ret (bad 400 "invalid since", cache)
  | Some n =>
      let! now := gets w_now in
      let sinceTimestamp := if n =? 0 then (now - 7 * 24 * 3600) mod 2 ^ 64 else n in
      match query_nat page 0 with
      | None => ret (bad 400 "invalid page", cache)
      | Some p =>
      match query_nat page_size 50 with
      | None => ret (bad 400 "invalid page_size", cache)
      | Some ps =>
          let! x := attempt (GetVoucherEvents cl cache sinceTimestamp p ps) in
          ret (match x with
               | inr _ => (bad 502 "chain query failed", cache)
               | inl (evts, total, latest, cache') => (PEvents latest sinceTimestamp total p ps evts, cache')
               end)
      end end
  end.

(** [/api/events], behind the same path check as everything else.
    [internal/proxy/handler.go:327-332 RegisterPublic] *)
Definition public_events (cl : Client) (cache : block_cache) (path escaped since page page_size : string) : M C (page_answer * block_cache) :=
  if PathTraversalGuard path escaped then handleEvents cl cache since page page_size
  else ret (bad 400 "malformed path", cache).

(** The name behind the last slash. [cmd/billing/main.go:519-522 main] *)
Definition repo_base (repo : string) : string := default repo (last (split_char "/" repo)).

(** Daytona's own images and its backups are not offered.
    [cmd/billing/main.go:523-525 main] *)
Definition internal_repo (repo : string) : bool := starts_with "daytona-" (repo_base repo) || starts_with "backup-" (repo_base repo).

(** A repository whose tags cannot be asked for is passed over.
    [cmd/billing/main.go:517-538 main] *)
Fixpoint image_names `{RegistryV2 C} (repos : list string) : M C (list string) :=
  match repos with
  | [] => ret []
  | repo :: rest =>
      if internal_repo repo then image_names rest
      else
        let! x := attempt (chain_call (v2_tags repo)) in
        let! l := image_names rest in
        ret (match x with inl tags => ((fun tag => "registry:6000/" +:+ repo +:+ ":" +:+ tag) <$> tags) ++ l | inr _ => l end)
  end.

(** [cmd/billing/main.go:500-543 main] *)
Definition registry_images `{RegistryV2 C} : M C page :=
  let! x := attempt (chain_call v2_catalog) in
  match x with
  | inr _ => ret (bad 502 "registry unavailable")
  | inl (Err _) | inl Panic => ret (bad 500 "decode catalog")
  | inl (Ok repos) => let! l := image_names repos in ret (PImages l)
  end.

(** Only images of repositories the catalog names and Daytona does not own are
    listed, each with a tag. *)
Lemma registry_images_offered `{RegistryV2 C} w l w' img :
  registry_images w = (Ok (PImages l), w') -> img ∈ l ->
  exists repos c repo tag, v2_catalog (w_chain w) = (Ok (Ok repos), c) /\ repo ∈ repos /\ internal_repo repo = false /\
    img = "registry:6000/" +:+ repo +:+ ":" +:+ tag.
Proof.
  unfold registry_images. intros E Hin. apply bind_Ok in E as (x & w1 & Ec & E). destruct x as [[repos| |]|]; try done.
  apply attempt_Ok in Ec. apply bind_Ok in E as (l' & w2 & Ei & E). injection E as -> <-.
  unfold chain_call in Ec. destruct (v2_catalog (w_chain w)) as [r c] eqn:Ev. injection Ec as -> <-. exists repos, c.
  enough (exists repo tag, repo ∈ repos /\ internal_repo repo = false /\ img = "registry:6000/" +:+ repo +:+ ":" +:+ tag) as (repo & tag & ?); [by exists repo, tag|].
  clear Ev. revert l Hin Ei. generalize (set_chain c w) w2. induction repos as [|repo repos IH]; intros w3 w4 l Hin Ei; cbn [image_names] in Ei.
  { injection Ei as <- _. by apply elem_of_nil in Hin. }
  destruct (internal_repo repo) eqn:Er.
  { destruct (IH _ _ _ Hin Ei) as (a & b & ? & ?). exists a, b. split; [by right|done]. }
  apply bind_Ok in Ei as (x & w5 & _ & Ei). apply bind_Ok in Ei as (l' & w6 & Ei & E). injection E as <- _.
  assert (img ∈ l' -> exists a b, a ∈ repo :: repos /\ internal_repo a = false /\ img = "registry:6000/" +:+ a +:+ ":" +:+ b) as Hrest.
  { intros Hl. destruct (IH _ _ _ Hl Ei) as (a & b & ? & ?). exists a, b. split; [by right|done]. }
  destruct x as [tags|]; [|by apply Hrest]. apply elem_of_app in Hin as [(tag & -> & _)%list_elem_of_fmap|Hin]; [|by apply Hrest].
  exists repo, tag. split; [by left|done].
Qed.

End Public.

(** ** Properties *)

Section ConsoleProperties.
Context `{Keccak} `{SimpleFold} {C : Type} `{DaytonaHTTP C} `{ImageNames} `{Crane C}.
Implicit Types (co : Console C) (w : world C).

(** The operator's endpoints are the administrators'.  Whoever no admin
    look-up knows is refused with 403 on each of them, whatever the body and the
    query: Redis, the registry and the queues are as they were, only the look-ups
    themselves took place. *)
Theorem console_is_for_admins co wallet r b w :
  never_admin (co_proxy co) wallet w ->
  exists c, console co wallet r b w = (Ok (PReply admin_only), set_chain c w) /\ seen (co_proxy co) w c.
Proof.
  intros Hn. unfold console, console_gate. destruct (reads_isAdmin (co_proxy co) wallet w) as (x & c & E & Hc).
  pose proof (Hn _ (seen_refl (co_proxy co) w)) as Ha. rewrite set_chain_same, E in Ha. cbn in Ha. subst x.
  rewrite (bind_ok _ _ _ _ _ E). by exists c.
Qed.

(** What a report adds up to. *)
Definition accounted (g : gc_report) : list string := gc_deleted g ++ gc_kept g ++ (gc_skipped g).*1 ++ (gc_failed g).*1.

Lemma gc_loop_dry inUse candidates g w : exists g', gc_loop inUse true candidates g w = (Ok g', w).
Proof. revert g. induction candidates as [|ref l IH]; intros g; cbn [gc_loop]; [by eexists|]. case_bool_decide; apply IH. Qed.

Lemma gc_loop_accounts inUse dry candidates g w g' w' :
  gc_loop inUse dry candidates g w = (Ok g', w') ->
  Permutation (accounted g') (accounted g ++ candidates) /\ gc_kept g' = gc_kept g ++ filter (fun ref => ref ∈ inUse) candidates.
Proof.
  revert g w. induction candidates as [|ref l IH]; intros g w; cbn [gc_loop].
  { intros [= <- <-]. by rewrite !app_nil_r. }
  assert (forall g1 w1, gc_loop inUse dry l g1 w1 = (Ok g', w') -> Permutation (accounted g1) (ref :: accounted g) ->
    forall kept, gc_kept g1 = gc_kept g ++ kept -> filter (fun x => x ∈ inUse) [ref] = kept ->
    Permutation (accounted g') (accounted g ++ ref :: l) /\ gc_kept g' = gc_kept g ++ filter (fun x => x ∈ inUse) (ref :: l)) as Hstep.
  { intros g1 w1 E Hp kept Hk Hf. destruct (IH _ _ E) as [Hp' Hk']. split.
    - rewrite Hp', Hp. by rewrite <- Permutation_middle.
    - rewrite Hk', Hk, <- Hf, <- app_assoc. f_equal. by rewrite <- filter_app. }
  destruct (bool_decide_reflect (ref ∈ inUse)) as [Hin|Hnin].
  { intros E. eapply Hstep; [exact E| |reflexivity|by rewrite filter_cons_True]. unfold accounted. cbn. solve_Permutation. }
  assert (filter (fun x => x ∈ inUse) [ref] = []) as Hnil by (rewrite filter_cons_False; done).
  destruct dry.
  { intros E. eapply Hstep; [exact E| |symmetry; apply app_nil_r|done]. unfold accounted. cbn. solve_Permutation. }
  intros (x & w1 & _ & E)%bind_Ok. destruct x as [[]|e]; [|destruct (bool_decide _)];
    (eapply Hstep; [exact E| |symmetry; apply app_nil_r|done]); unfold accounted; cbn; rewrite ?fmap_app; cbn; solve_Permutation.
Qed.

End ConsoleProperties.

Section GCProperties.
Context `{Keccak} `{SimpleFold} {C : Type} `{DaytonaHTTP C} `{CL : CraneLaws C}.
Implicit Types (co : Console C) (w : world C).

(** [ref] is a name of the tag [tag] of [repo]. *)
Definition names (ref repo tag : string) : Prop := exists r, ParseReference ref = Some r /\ ref_repo r = repo /\ ref_tag r = Some tag.

Lemma delete_spares ref repo tag w x w' : DeleteTag ref w = (x, w') -> ~ names ref repo tag ->
  tag_at (w_chain w') repo tag = tag_at (w_chain w) repo tag.
Proof.
  intros E Hn. destruct (ParseReference ref) as [r|] eqn:Ep.
  - destruct (ref_tag r) as [t|] eqn:Et.
    + eapply delete_tag_spares; [exact Ep|exact Et|exact E|]. intros [= -> ->]. apply Hn. by exists r.
    + unfold DeleteTag, bind, parse_ref, lift_res in E. rewrite Ep, Et in E. by injection E as _ <-.
  - unfold DeleteTag, bind, parse_ref, lift_res in E. rewrite Ep in E. by injection E as _ <-.
Qed.

Lemma gc_loop_spares inUse dry candidates g w g' w' repo tag :
  gc_loop inUse dry candidates g w = (Ok g', w') ->
  (forall ref, ref ∈ candidates -> ref ∉ inUse -> ~ names ref repo tag) ->
  tag_at (w_chain w') repo tag = tag_at (w_chain w) repo tag.
Proof.
  intros E Hn. destruct dry; [destruct (gc_loop_dry inUse candidates g w) as [? E']; rewrite E' in E; by injection E as _ <-|].
  revert g w E. induction candidates as [|ref l IH]; intros g w; cbn [gc_loop]; [by intros [= _ <-]|].
  assert (forall ref, ref ∈ l -> ref ∉ inUse -> ~ names ref repo tag) as Hl by (intros; apply Hn; [by right|done]).
  case_bool_decide as Hin; [by apply IH|]. intros (x & w1 & Ed & E)%bind_Ok. rewrite (IH Hl _ _ E).
  apply attempt_Ok in Ed. eapply delete_spares; [exact Ed|]. apply Hn; [by left|done].
Qed.

(** Garbage collection takes orphans only.  When it reports, every derived
    tag it found is accounted for exactly once, the kept ones are exactly those
    some listed snapshot runs from, and every tag of the registry that no
    orphan among them names still points at the manifest it did when the
    snapshots were listed; a dry run leaves everything as it was. *)
Theorem gc_takes_orphans_only co dry w d n g w' :
  registry_gc co dry w = (Ok (PCollected d n g), w') ->
  exists candidates snaps w0 w1, ListSnapshots (px_pages (co_proxy co)) w0 = (Ok snaps, w1) /\
    n = length candidates /\ Permutation (accounted g) candidates /\
    gc_kept g = filter (fun ref => ref ∈ in_use snaps) candidates /\
    (d = true -> w' = w1) /\
    (forall repo tag, (forall ref, ref ∈ candidates -> ref ∉ in_use snaps -> ~ names ref repo tag) ->
       tag_at (w_chain w') repo tag = tag_at (w_chain w1) repo tag).
Proof.
  unfold registry_gc. cbv zeta. intros (x & w0 & Ec & E)%bind_Ok. destruct x as [candidates|e]; [|done].
  apply bind_Ok in E as (y & w1 & Es & E). destruct y as [snaps|e]; [|done]. apply attempt_Ok in Es.
  apply bind_Ok in E as (g1 & w2 & Eg & E). injection E as <- <- <- <-. exists candidates, snaps, w0, w1.
  destruct (gc_loop_accounts _ _ _ _ _ _ _ Eg) as [Hp Hk]. split_and!; [done|done|exact Hp|exact Hk| |].
  - intros Hd. rewrite Hd in Eg. destruct (gc_loop_dry (in_use snaps) candidates (mkGC [] [] [] []) w1) as [? E']. rewrite E' in Eg. by injection Eg as _ <-.
  - intros repo tag Hn. by eapply gc_loop_spares.
Qed.

End GCProperties.

(** ** The operator's collapse *)

Section Collapse.
Context `{Keccak} {C : Type}.
Implicit Types (qk : lkey) (u p : addr).

(** What a collapse leaves: everyone else's entries in their order, malformed
    ones included, then one aggregate for the pair's fees; or nothing changed. *)
Record collapsed qk u p (r r' : redis) : Prop := {
  col_queue : mine_of u p (list_at r qk) <> [] /\ exists agg, User agg = u /\ Provider agg = p /\ Nonce agg = None /\
    fee_of agg = zsum raw_fee (mine_of u p (list_at r qk)) /\
    list_at r' qk = kept_of u p (list_at r qk) ++ [Raw agg];
  col_lists : forall k, k <> qk -> list_at r' k = list_at r k;
  col_rest : r_held_users r' = r_held_users r /\ r_nonces r' = r_nonces r /\ r_sessions r' = r_sessions r /\ r_stops r' = r_stops r /\
    r_pending r' = r_pending r /\ r_reserved r' = r_reserved r /\ r_events r' = r_events r
}.

Lemma aggregate_fold u p l : forall kept total n,
  foldl (aggregate_step u p) (kept, total, n) l =
  (kept ++ kept_of u p l, total + zsum raw_fee (mine_of u p l), (n + length (mine_of u p l))%nat).
Proof.
  induction l as [|x l IH]; intros kept total n; cbn [foldl].
  { unfold kept_of, mine_of. cbn. rewrite app_nil_r, zsum_nil, Z.add_0_r, Nat.add_0_r. done. }
  unfold kept_of, mine_of in *. unfold aggregate_step at 2.
  destruct (unmarshal x) as [v|] eqn:Ex.
  - assert (is_mine u p x = belongs u p v) as Em by (unfold is_mine; by rewrite Ex).
    destruct (belongs u p v).
    + rewrite IH, filter_cons_False, filter_cons_True, zsum_cons by (rewrite Em; auto).
      cbn [length]. f_equal; [f_equal|lia]. assert (raw_fee x = fee_of v) as -> by (unfold raw_fee; by rewrite Ex).
      unfold fee_of. destruct (TotalFee v); cbn; lia.
    + rewrite IH, filter_cons_True, filter_cons_False by (rewrite Em; auto). by rewrite <- app_assoc.
  - assert (is_mine u p x = false) as Em by (unfold is_mine; by rewrite Ex).
    rewrite IH, filter_cons_True, filter_cons_False by (rewrite Em; auto). by rewrite <- app_assoc.
Qed.

Lemma aggregate_rewrite_lists qk kept agg r k :
  list_at (aggregate_rewrite qk kept agg r) k = if decide (k = qk) then kept ++ [agg] else list_at r k.
Proof.
  unfold aggregate_rewrite, rpush, ldel. destruct (decide (k = qk)) as [->|Hk].
  - case_bool_decide as Hb; rewrite !list_at_set_eq; by subst.
  - case_bool_decide; rewrite !list_at_set_ne by done; done.
Qed.

Lemma aggregate_rewrite_rest qk kept agg r : exists f, aggregate_rewrite qk kept agg r = upd_lists f r.
Proof. unfold aggregate_rewrite. case_bool_decide; by eexists (fun l => _). Qed.

Lemma collapse_committed qk u p now r :
  mine_of u p (list_at r qk) <> [] ->
  collapsed qk u p r (aggregate_rewrite qk (kept_of u p (list_at r qk))
    (marshal (mint_agg u p now AggregatedSandboxID (zsum raw_fee (mine_of u p (list_at r qk))))) r).
Proof.
  intros Hm. split.
  - split; [done|]. eexists. split_and!; [..|rewrite aggregate_rewrite_lists, decide_True by done; reflexivity]; done.
  - intros k Hk. by rewrite aggregate_rewrite_lists, decide_False.
  - destruct (aggregate_rewrite_rest qk (kept_of u p (list_at r qk))
      (marshal (mint_agg u p now AggregatedSandboxID (zsum raw_fee (mine_of u p (list_at r qk))))) r) as [f ->]. done.
Qed.

(** The operator's collapse moves no money.  Whatever fails and whoever
    else writes, each change it makes to Redis replaces the pair's queued vouchers
    by one unsigned voucher of the same user and provider whose fee is their sum,
    keeps everyone else's entries in order and touches nothing else. *)
Theorem operator_collapse_conserves (q u p : addr) :
  guarantees (collapsed (LQueue q) u p) (Aggregate (LQueue q) u p : M C AggregateResult).
Proof.
  apply retry_tx_guarantees, guarantees_watching. intros l. apply in_watch_read. intros items. rewrite aggregate_fold.
  cbn [app Nat.add]. rewrite Z.add_0_l. case_bool_decide as Hm; [apply in_watch_guarantees, guarantees_ret|].
  apply in_watch_gets. intros now. apply in_watch_exec; [|intros; apply guarantees_ret].
  intros r Hr [_ (r1 & Hr1 & ->)]. rewrite !lrange_all in *. unfold lists_at in *. cbn in Hr, Hr1. rewrite <- Hr in Hr1.
  injection Hr1 as Hr1. rewrite Hr1 in Hm |- *. apply collapse_committed. intros Hn. apply Hm. by rewrite Hn.
Qed.

End Collapse.

(** ** Examples *)

Module ConsoleExamples.
Import Toy RegistryExamples.

(** Daytona over the toy registry: one snapshot, run from the derived tag. *)
#[export] Instance one_snapshot : DaytonaHTTP toy_registry := fun _ path _ c =>
  if bool_decide (path = "/api/snapshots?limit=100&page=1")
  then (Ok (200, PSnapshotPage [mkSnapshot "s1" "agent" "h/r:d-1" "h/copy:1" "active" 2 4 10 ["/run"] None] 1), c)
  else (Ok (404, POther), c).

Definition proxy0 (admins : list string) : Handler toy_registry := {|
  px_adminKey := "admin"; px_billing := mkHandler (addr_hex 8192) 0 2 1 50 60 (mkSigner 8192 16601 99 8192);
  px_balCheck := None; px_ackCheck := None;
  px_createFee := 50; px_pricePerCPUPerSec := Some 2; px_pricePerMemGBPerSec := Some 1; px_computePricePerSec := Some 0;
  px_voucherIntervalSec := 60; px_providerAddress := addr_hex 8192; px_adminAddresses := admins;
  px_sshGatewayHost := EmptyString; px_sealKey := None; px_broker := None; px_SealedOnly := false; px_AppOwner := None;
  px_AppAdmin := None; px_SealIssuer := None; px_pages := 5; px_domain := EmptyString; px_protocol := EmptyString
|}.

Definition console0 : Console toy_registry :=
  mkConsole _ (proxy0 [addr_hex 12288]) 8192 "h" (fun c => (Ok ["r"; "daytona-backup"], c))
    (fun repo c => (Ok ["d-1"; "d-2"; "v1"], c)) 1000.

Lemma stranger_never_admin : never_admin (co_proxy console0) (addr_hex 20480) reg_world.
Proof. intros c _. vm_compute. reflexivity. Qed.

Lemma console_is_for_admins_witness :
  exists c, console console0 (addr_hex 20480) CAggregate BEmpty reg_world = (Ok (PReply admin_only), set_chain c reg_world) /\
    seen (co_proxy console0) reg_world c.
Proof. exact (console_is_for_admins console0 (addr_hex 20480) CAggregate BEmpty reg_world stranger_never_admin). Defined.

(** One derived tag is in use, the other cannot be resolved. *)
Definition report0 : gc_report := mkGC [] ["h/r:d-1"] [] [("h/r:d-2", EMsg "parse image ref")].

Lemma gc_runs : registry_gc console0 "false" reg_world = (Ok (PCollected false 2 report0), reg_world).
Proof. vm_compute. reflexivity. Qed.

Lemma gc_takes_orphans_only_witness :
  exists candidates snaps w0 w1, ListSnapshots (px_pages (co_proxy console0)) w0 = (Ok snaps, w1) /\
    2%nat = length candidates /\ Permutation (accounted report0) candidates /\
    gc_kept report0 = filter (fun ref => ref ∈ in_use snaps) candidates /\
    (false = true -> reg_world = w1) /\
    (forall repo tag, (forall ref, ref ∈ candidates -> ref ∉ in_use snaps -> ~ names ref repo tag) ->
       tag_at (w_chain reg_world) repo tag = tag_at (w_chain w1) repo tag).
Proof. exact (gc_takes_orphans_only console0 "false" reg_world false 2 report0 reg_world gc_runs). Defined.

(** A dry run reports what it would take. *)
Example gc_dry_run :
  registry_gc console0 "true" reg_world = (Ok (PCollected true 2 (mkGC ["h/r:d-2"] ["h/r:d-1"] [] [])), reg_world).
Proof. vm_compute. reflexivity. Qed.

Example discard_needs_a_nonce :
  (dlq_discard (C := unit) (BText (JObj [("user", JStr "0x1"); ("provider", JStr "0x2")]) false) (mkWorld empty_redis [] false [] 0 tt [] [])).1
  = Ok (bad 400 "user, provider, and nonce are required").
Proof. vm_compute. reflexivity. Qed.

End ConsoleExamples.
