(* ===== verification/Identity.v ===== *)
(** * The attestor's identity (cmd/billing/attestor.go)

    The attestor app is discovered through the local tapp; each use rechecks
    its registration on the chain and against the authorized instance, which
    Redis keeps.  The instance's Redis key has its own family in [redis]. *)

From stdpp Require Import pretty.
From S2P Require Import Prelude Decimal Hex Bytes Crypto Voucher Store Config ChainTypes Chain.

(** ** Data *)

(** [internal/tee/identity.go:18-24 AppIdentity] *)
Record AppIdentity := mkIdentity {
  ai_AppID : string;
  ai_Signer : addr;
  ai_TLSPins : list string;
  ai_RegisteredAt : Z;
  ai_ExpiresAt : Z
}.

(** The discovery through the tapp ([tee.ResolveAppIdentity]); the first argument is
    the clock the answer is checked against. *)
Class TappLookup (C : Type) := ResolveAppIdentity : Z -> Z -> string -> string -> C -> res (option AppIdentity) * C.

(** [cmd/billing/attestor.go:33-48 attestorIdentity] *)
Record attestorIdentity := mkAttestor {
  as_chainID : Z;
  as_registry : string;
  as_appID : string;
  as_key : string;
  as_authorized : string
}.

(** [cmd/billing/attestor.go:52-58 newAttestorIdentity] *)
Definition newAttestorIdentity (chainID : Z) (registry appID authorized : string) : attestorIdentity :=
  mkAttestor chainID registry appID
    ("identity:attestor:" +:+ pretty chainID +:+ ":" +:+ to_lower registry +:+ ":" +:+ appID +:+ ":instance") authorized.

(** ** Operations; the cached discovery is the caller's and is handed back *)

Section Identity.
Context {C : Type} `{Bindings C} `{TappLookup C}.
Implicit Types (s : attestorIdentity) (cached : option AppIdentity).

(** [cmd/billing/attestor.go:63-68 storeAuthorized] *)
Definition storeAuthorized s : M C unit :=
  if bool_decide (as_authorized s = EmptyString) then ret tt else rwrite (set_identity (as_key s) (as_authorized s)).

(** [SET key v NX], no expiry. *)
Definition setnx_identity (k v : string) (r : redis) : redis :=
  match r_identities r !! k with Some _ => r | None => set_identity k v r end.

(** [cmd/billing/attestor.go:72-81 pinned] *)
Definition pinned s (instance : string) : M C string :=
  if negb (bool_decide (as_authorized s = EmptyString)) then ret (as_authorized s)
  else
    let! _ := rwrite (setnx_identity (as_key s) instance) in
    let! v := rread (fun r => r_identities r !! as_key s) in
    match v with Some v => ret v | None => fail (EMsg "redis: nil") end.

(** A clock in seconds loses nothing: leases end on whole seconds.
    [cmd/billing/attestor.go:157-164 cachedFor] *)
Definition cachedFor (minLease now : Z) cached : option AppIdentity :=
  match cached with
  | Some ident => if minLease <? ai_ExpiresAt ident - now then Some ident else None
  | None => None
  end.

(** The lookup its callers share; [inl] the identity.
    [cmd/billing/attestor.go:127-145 discovered] *)
Definition lookup_identity s (minLease : Z) cached : M C ((AppIdentity + rerr) * option AppIdentity) :=
  let! now := gets w_now in
  match cachedFor minLease now cached with
  | Some ident => ret (inl ident, cached)
  | None =>
      let! x := attempt (chain_call (ResolveAppIdentity now (as_chainID s) (as_registry s) (as_appID s))) in
      match x with
      | inr e => ret (inr e, cached)
      | inl ident =>
          let! now := gets w_now in
          match ident with
          | Some ident =>
              if now <? ai_ExpiresAt ident then ret (inl ident, Some ident)
              else ret (inr (EMsg "attestor identity expired during discovery"), cached)
          | None => ret (inr (EMsg "attestor identity expired during discovery"), cached)
          end
      end
  end.

(** [patient]: the caller's context outlives the lookup, which goes on without
    it. [cmd/billing/attestor.go:123-155 discovered] *)
Definition discovered s (minLease : Z) (patient : bool) cached : M C ((AppIdentity + rerr) * option AppIdentity) :=
  let! now := gets w_now in
  match cachedFor minLease now cached with
  | Some ident => ret (inl ident, cached)
  | None =>
      let! r := lookup_identity s minLease cached in
      ret (if patient then r.1 else inr (EMsg "context canceled"), r.2)
  end.

(** The checks of one discovered identity. [cmd/billing/attestor.go:91-116 Current] *)
Definition authorize s (ident : AppIdentity) : M C AppIdentity :=
  let! live := GetAppInstance (as_appID s) in
  let '(current, owner) := live in
  if (current =? 0) || (owner =? 0) || negb (current =? ai_RegisteredAt ident)
  then fail (EMsg "attestor registration instance changed")
  else
    let instance := instance_text current owner in
    let! p := pinned s instance in
    if negb (bool_decide (p = instance)) then fail (EMsg "attestor instance requires explicit re-authorization")
    else
      let! now := gets w_now in
      if now <? ai_ExpiresAt ident then ret ident
      else fail (EMsg "attestor identity expired during authorization").

(** [cmd/billing/attestor.go:86-117 Current] *)
Definition Current s (minLease : Z) (patient : bool) cached : M C ((AppIdentity + rerr) * option AppIdentity) :=
  let! r := discovered s minLease patient cached in
  match r.1 with
  | inr e => ret (inr e, r.2)
  | inl ident => let! x := attempt (authorize s ident) in ret (x, r.2)
  end.

(** [cmd/billing/attestor.go:168-177 IsAppSigner] *)
Definition IsAppSigner s (patient : bool) cached (wallet : string) : M C ((bool + rerr) * option AppIdentity) :=
  if negb (IsHexAddress wallet) then ret (inl false, cached)
  else
    let! r := Current s 0 patient cached in
    ret (match r.1 with inl ident => inl (hex_to_address wallet =? ai_Signer ident) | inr e => inr e end, r.2).

(** [cmd/billing/attestor.go:180-186 TLSPins] *)
Definition TLSPins s (minLease : Z) (patient : bool) cached : M C ((list string * Z + rerr) * option AppIdentity) :=
  let! r := Current s minLease patient cached in
  ret (match r.1 with inl ident => inl (ai_TLSPins ident, ai_ExpiresAt ident) | inr e => inr e end, r.2).

End Identity.

(** ** Lemmas *)

(** The two parts of a stored instance can be read off it. *)
Lemma instance_text_inj n m a b :
  0 <= n -> 0 <= m -> addr_ok a -> addr_ok b -> instance_text n a = instance_text m b -> n = m /\ a = b.
Proof.
  intros Hn Hm Ha Hb E. apply (f_equal (cut ":")) in E. unfold instance_text in E.
  change (":" +:+ addr_hex a) with (String ":" (addr_hex a)) in E. change (":" +:+ addr_hex b) with (String ":" (addr_hex b)) in E.
  destruct (pretty_digits n Hn) as [Hdn Hpn], (pretty_digits m Hm) as [Hdm Hpm].
  rewrite !cut_none_app in E by (intros c Hc; apply digit_no_space; auto).
  split; [|apply addr_hex_inj; [done..|]; by apply (f_equal snd), (inj Some) in E].
  apply (f_equal fst) in E. cbn in E. rewrite E, Hpm in Hpn. by injection Hpn.
Qed.

(** The stored instance survives. *)
Definition keeps_identity (k : string) (r r' : redis) : Prop := forall v, r_identities r !! k = Some v -> r_identities r' !! k = Some v.

#[export] Instance keeps_identity_preorder k : PreOrder (keeps_identity k).
Proof. split; unfold keeps_identity; red; eauto. Qed.

Lemma setnx_keeps k v r : keeps_identity k r (setnx_identity k v r).
Proof. unfold setnx_identity. intros x Hx. by rewrite Hx. Qed.

Section IdentityProperties.
Context {C : Type} `{Bindings C} `{TappLookup C}.
Implicit Types (s : attestorIdentity) (cached : option AppIdentity) (w : world C).

Lemma GetAppInstance_Ok app w epoch owner w' :
  GetAppInstance app w = (Ok (epoch, owner), w') ->
  (t_GetAppInfo app (w_chain w)).1 = Ok (Some epoch, owner) /\ 0 <= epoch < 2 ^ 64 /\ w_redis w' = w_redis w /\ w_net w' = w_net w.
Proof.
  intros ([o a] & w1 & E & Er)%bind_Ok. cbn [fst snd] in Er. destruct o as [e|]; [|done]. destruct (_ && _) eqn:Eb; [|done].
  injection Er as <- <- <-. zbool. split; [by eapply chain_call_Ok|]. split; [lia|].
  unfold chain_call in E. destruct (t_GetAppInfo app (w_chain w)). by injection E as _ <-.
Qed.

(** What [pinned] answers was stored when it answered, unless the operator
    named it. *)
Lemma pinned_Ok s inst w v w' :
  pinned s inst w = (Ok v, w') ->
  (as_authorized s <> EmptyString /\ v = as_authorized s /\ w' = w) \/
  (as_authorized s = EmptyString /\ r_identities (w_redis w') !! as_key s = Some v).
Proof.
  unfold pinned. destruct (bool_decide_reflect (as_authorized s = EmptyString)) as [Ha|Ha]; [|by intros [= <- <-]; left].
  intros (u & w1 & _ & (x & w2 & E & Ex)%bind_Ok)%bind_Ok. right. split; [done|].
  destruct x as [x|]; [|done]. injection Ex as <- <-. revert E. unfold rread, rcmd, rcmd_dirty.
  destruct (w_net w1) as [|[]]; try done; cbn; by intros [= ? <-].
Qed.

Lemma pinned_keeps s inst : guarantees (keeps_identity (as_key s)) (pinned s inst : M C string).
Proof. unfold pinned. case_match; guarantee; intros; guarantee. apply guarantees_rwrite. intros. apply setnx_keeps. Qed.

(** The chain names the registration of [ident] and its owner at the moment the
    discovery ends. *)
Definition live_instance s (ident : AppIdentity) (owner : addr) (wm : world C) : Prop :=
  (t_GetAppInfo (as_appID s) (w_chain wm)).1 = Ok (Some (ai_RegisteredAt ident), owner) /\
  0 < ai_RegisteredAt ident < 2 ^ 64 /\ owner <> 0.

(** The instance in force: the operator's setting, or else the stored one. *)
Definition in_force s (r : redis) (inst : string) : Prop :=
  if bool_decide (as_authorized s = EmptyString) then r_identities r !! as_key s = Some inst else as_authorized s = inst.

Lemma authorize_Ok s ident w ident' w' :
  authorize s ident w = (Ok ident', w') ->
  ident' = ident /\ w_now w' < ai_ExpiresAt ident /\
  exists owner, live_instance s ident owner w /\ in_force s (w_redis w') (instance_text (ai_RegisteredAt ident) owner).
Proof.
  unfold authorize. intros ([epoch owner] & w1 & (Ec & Hb & _ & _)%GetAppInstance_Ok & E)%bind_Ok.
  destruct (_ || _) eqn:Eb; [done|]. zbool. replace epoch with (ai_RegisteredAt ident) in * by lia.
  apply bind_Ok in E as (p & w2 & Ep & E). case_bool_decide as Hp; [|done]. subst p. cbn [negb] in E.
  apply bind_Ok in E as (now & w3 & [= <- <-] & E). destruct (Z.ltb_spec (w_now w2) (ai_ExpiresAt ident)); [|done].
  injection E as <- <-. split; [done|]. split; [done|]. exists owner. split; [split; [done|lia]|]. unfold in_force.
  apply pinned_Ok in Ep as [(Ha & -> & _)|[Ha Hr]]; [by rewrite bool_decide_false|by rewrite bool_decide_true].
Qed.

Lemma authorize_keeps s ident : guarantees (keeps_identity (as_key s)) (authorize s ident : M C AppIdentity).
Proof. unfold authorize, GetAppInstance. guarantee. apply pinned_keeps. Qed.

Lemma Current_Ok s minLease patient cached w ident cached' w' :
  Current s minLease patient cached w = (Ok (inl ident, cached'), w') ->
  exists wm, discovered s minLease patient cached w = (Ok (inl ident, cached'), wm) /\ authorize s ident wm = (Ok ident, w').
Proof.
  unfold Current. intros ([[i|e] c] & wm & Ed & E)%bind_Ok; cbn [fst snd] in E; [|done].
  apply bind_Ok in E as (x & w1 & Ea & E). injection E as -> <- <-. apply attempt_Ok in Ea.
  destruct (authorize_Ok _ _ _ _ _ Ea) as (-> & _). by exists wm.
Qed.

Lemma Current_keeps s minLease patient cached : guarantees (keeps_identity (as_key s)) (Current s minLease patient cached : M C _).
Proof.
  unfold Current. apply guarantees_bind; [unfold discovered, lookup_identity; guarantee|]. intros [[i|e] c]; cbn [fst snd]; [|guarantee].
  apply guarantees_bind; [apply guarantees_attempt, authorize_keeps|]. guarantee.
Qed.

(** Only Redis clients that leave the stored instance alone interfere. *)
Definition keeps_net (k : string) (n : list netev) : Prop := forall g r, NRace g ∈ n -> keeps_identity k r (g r).

Lemma guarantees_keeps k {A} (m : M C A) w :
  guarantees (keeps_identity k) m -> keeps_net k (w_net w) -> keeps_identity k (w_redis w) (w_redis (m w).2).
Proof.
  intros Hm Hn. destruct (Hm w) as [Hs _]. induction Hs as [|a b c [(g & Hg & ->)|HG] _ IH]; [done|..].
  - etrans; [by apply Hn|done].
  - etrans; [done|done].
Qed.

Lemma in_force_unique s r i j : in_force s r i -> in_force s r j -> i = j.
Proof. unfold in_force. case_bool_decide; congruence. Qed.

Lemma in_force_kept s r r' i : keeps_identity (as_key s) r r' -> in_force s r i -> in_force s r' i.
Proof. unfold in_force. case_bool_decide; [by intros Hk Hi; apply Hk|done]. Qed.

(** An attestor is never swapped silently.  Two times this provider accepts
    the attestor's identity, however far apart, with whatever caches, lost or
    failed Redis round trips and chain answers in between, the chain named the
    same registration and the same owner: an app that was removed and registered
    again, or handed to another owner, is refused until the operator authorizes
    it. *)
Theorem attestor_never_switches s
  (owner_addr : forall app c e o, (t_GetAppInfo app c).1 = Ok (e, o) -> addr_ok o)
  m1 p1 c1 w1 id1 c1' w1' m2 p2 c2 w2 id2 c2' w2' :
  Current s m1 p1 c1 w1 = (Ok (inl id1, c1'), w1') ->
  keeps_identity (as_key s) (w_redis w1') (w_redis w2) -> keeps_net (as_key s) (w_net w2) ->
  Current s m2 p2 c2 w2 = (Ok (inl id2, c2'), w2') ->
  ai_RegisteredAt id1 = ai_RegisteredAt id2 /\ w_now w2' < ai_ExpiresAt id2 /\
  exists owner wm1 wm2,
    discovered s m1 p1 c1 w1 = (Ok (inl id1, c1'), wm1) /\ live_instance s id1 owner wm1 /\
    discovered s m2 p2 c2 w2 = (Ok (inl id2, c2'), wm2) /\ live_instance s id2 owner wm2.
Proof.
  intros E1 Hk Hn E2. pose proof (guarantees_keeps _ _ w2 (Current_keeps s m2 p2 c2) Hn) as Hk2. rewrite E2 in Hk2.
  apply Current_Ok in E1 as (wm1 & Ed1 & (_ & _ & o1 & Hl1 & Hf1)%authorize_Ok).
  apply Current_Ok in E2 as (wm2 & Ed2 & (_ & Hx & o2 & Hl2 & Hf2)%authorize_Ok).
  eapply in_force_kept in Hf1; [|etrans; [exact Hk|exact Hk2]]. pose proof (in_force_unique _ _ _ _ Hf1 Hf2) as Hi.
  pose proof Hl1 as (Hc1 & Hb1 & Hz1). pose proof Hl2 as (Hc2 & Hb2 & Hz2).
  apply instance_text_inj in Hi as [Hr ->]; [|lia|lia|by eapply owner_addr|by eapply owner_addr].
  split; [done|]. split; [done|]. by exists o2, wm1, wm2.
Qed.

(** An application admin's wallet is the signer of an identity the chain and
    the authorized instance confirm. *)
Lemma app_signer_is_attested s patient cached wallet w cached' w' :
  IsAppSigner s patient cached wallet w = (Ok (inl true, cached'), w') ->
  exists ident owner wm, hex_to_address wallet = ai_Signer ident /\ live_instance s ident owner wm /\
    in_force s (w_redis w') (instance_text (ai_RegisteredAt ident) owner) /\ w_now w' < ai_ExpiresAt ident.
Proof.
  unfold IsAppSigner. destruct (IsHexAddress wallet); [|done]. intros ([[i|e] c] & w1 & Ec & E)%bind_Ok; cbn in E; [|discriminate E].
  injection E as Es _ <-. zbool. apply Current_Ok in Ec as (wm & _ & (_ & Hx & o & Hl & Hf)%authorize_Ok).
  by exists i, o, wm.
Qed.

End IdentityProperties.

(** ** A concrete attestor *)

Module IdentityExamples.

(** A registry with one app: its registration time and owner, and the signer
    the tapp discovers. *)
Definition registry : Type := Z * addr * addr.

Definition no_answer {A} (c : registry) : res A * registry := (Err EIO, c).

#[export] Instance registry_bindings : Bindings registry := {|
  b_SettleFeesWithTEE := fun _ => no_answer; b_PreviewSettlementResults := fun _ => no_answer; b_ParseVoucherSettled := fun _ => None;
  b_IsActiveProvider := fun _ => no_answer; b_Services := fun _ => no_answer; b_ServiceExists := fun _ => no_answer;
  b_GetLastNonce := fun _ _ => no_answer; b_IsTEEAcknowledged := fun _ _ => no_answer; b_GetBalance := fun _ _ => no_answer;
  b_BalanceOfBatch := fun _ _ => no_answer; b_FilterServiceUpdated := fun _ _ => no_answer; t_GetNode := fun _ _ => no_answer;
  t_GetAppInfo := fun _ c => (Ok (Some c.1.1, c.1.2 mod addr_bound), c)
|}.

#[export] Instance registry_lookup : TappLookup registry :=
  fun _ _ _ app c => (Ok (Some (mkIdentity app c.2 ["pin"] c.1.1 2000)), c).

Definition attestor0 : attestorIdentity := newAttestorIdentity 16601 "0xAB" "attestor" EmptyString.

Definition at_registry (now : Z) (r : redis) (c : registry) : world registry := mkWorld r [] false [] now c [] [].

Definition ident0 : AppIdentity := mkIdentity "attestor" 77 ["pin"] 9 2000.

Definition bootstrapped : redis := set_identity (as_key attestor0) (instance_text 9 4096) empty_redis.

Definition bootstrap_world := at_registry 1000 empty_redis (9, 4096, 77).

Definition later_world := at_registry 1990 bootstrapped (9, 4096, 77).

Lemma first_use :
  Current attestor0 60 true None bootstrap_world = (Ok (inl ident0, Some ident0), at_registry 1000 bootstrapped (9, 4096, 77)).
Proof. vm_compute. reflexivity. Qed.

Lemma second_use : Current attestor0 60 true None later_world = (Ok (inl ident0, Some ident0), later_world).
Proof. vm_compute. reflexivity. Qed.

Lemma registry_owner app (c : registry) e o : (t_GetAppInfo app c).1 = Ok (e, o) -> addr_ok o.
Proof. intros [= <- <-]. apply Z.mod_pos_bound. done. Qed.

Lemma quiet_keeps k : keeps_net k [].
Proof. intros g r Hg. by apply elem_of_nil in Hg. Qed.

Lemma attestor_never_switches_witness :
  ai_RegisteredAt ident0 = ai_RegisteredAt ident0 /\ w_now later_world < ai_ExpiresAt ident0 /\
  exists owner wm1 wm2,
    discovered attestor0 60 true None bootstrap_world = (Ok (inl ident0, Some ident0), wm1) /\ live_instance attestor0 ident0 owner wm1 /\
    discovered attestor0 60 true None later_world = (Ok (inl ident0, Some ident0), wm2) /\ live_instance attestor0 ident0 owner wm2.
Proof.
  exact (attestor_never_switches attestor0 registry_owner 60 true None bootstrap_world ident0 (Some ident0) _ 60 true None later_world
           ident0 (Some ident0) later_world first_use (fun v E => E) (quiet_keeps _) second_use).
Defined.

(** A new owner and a new registration are refused, with the old discovery
    cached or not; the operator's setting admits them. *)
Example replaced_app_is_refused :
  (Current attestor0 60 true None (at_registry 1100 bootstrapped (9, 8192, 77))).1
    = Ok (inr (EMsg "attestor instance requires explicit re-authorization"), Some ident0) /\
  (Current attestor0 60 true (Some ident0) (at_registry 1100 bootstrapped (10, 4096, 77))).1
    = Ok (inr (EMsg "attestor registration instance changed"), Some ident0) /\
  (Current (newAttestorIdentity 16601 "0xAB" "attestor" (instance_text 9 8192)) 60 true None (at_registry 1100 bootstrapped (9, 8192, 77))).1
    = Ok (inl ident0, Some ident0).
Proof. vm_compute. repeat split. Qed.

End IdentityExamples.
