(* ===== verification/Attestor.v ===== *)
(** * The attestor's TLS statement (internal/proxy/attestortls.go)

    GET /api/attestor-tls serves the attestor's TLS pins, signed by the provider
    key under a lease of at most 300 seconds.  Requests share one background
    refresh.  Issuing reads the clock in whole seconds ([w_now]); the serving
    windows are compared in nanoseconds. *)

From stdpp Require Import pretty.
From S2P Require Import Prelude Decimal Hex Bytes Crypto Json CreatePolicy Voucher Store Seal.

(** ** The statement *)

(** [internal/proxy/attestortls.go:23-26 attestorTLSVersion, attestorTLSDomainName, attestorTLSDomainVersion, attestorTLSMaxPins] *)
Definition attestorTLSVersion : Z := 3.

Definition attestorTLSMaxPins : nat := 16.

(** [internal/proxy/attestortls.go:27-27 attestorTLSMaxLease] *)
Definition attestorTLSMaxLease : Z := 300.

(** [internal/proxy/attestortls.go:51-59 AttestorTLSStatement] *)
Record AttestorTLSStatement := mkStatement {
  ts_Version : Z;
  ts_ChainID : Z;
  ts_RegistryAddress : addr;
  ts_TLSSPKISHA256 : list string;
  ts_IssuedAt : Z;
  ts_ExpiresAt : Z;
  ts_Signature : string
}.

Definition set_signature (sig : string) (s : AttestorTLSStatement) : AttestorTLSStatement :=
  mkStatement (ts_Version s) (ts_ChainID s) (ts_RegistryAddress s) (ts_TLSSPKISHA256 s) (ts_IssuedAt s) (ts_ExpiresAt s) sig.

(** One pin: its bytes, unless it is not 64 lowercase hex digits.
    [internal/proxy/attestortls.go:73-76 pinsHash] *)
Definition pin_bytes (pin : string) : option bytes :=
  match hex_decode pin with
  | Some d => if bool_decide (length d = 32%nat) && bool_decide (pin = to_lower pin) then Some d else None
  | None => None
  end.

(** The concatenated pins; each must follow the one before.
    [internal/proxy/attestortls.go:72-81 pinsHash] *)
Fixpoint pins_concat (prev : option string) (pins : list string) : res bytes :=
  match pins with
  | [] => Ok []
  | pin :: rest =>
      match pin_bytes pin with
      | None => Err (EMsg "attestor tls pin must be 64 lowercase hex chars")
      | Some decoded =>
          if match prev with Some p => String.leb pin p | None => false end
          then Err (EMsg "attestor tls pins must be strictly ascending")
          else res_bind (pins_concat (Some pin) rest) (fun b => Ok (decoded ++ b))
      end
  end.

Section Statement.
Context `{Keccak} `{Ecdsa}.
Implicit Types s : AttestorTLSStatement.

(** [internal/proxy/attestortls.go:43-45 attestorTLSTypeHash] *)
Definition attestorTLSTypeHash : bytes :=
  keccak256 (bytes_of_string "AttestorTLS(bytes32[] tlsSpkiSha256,uint64 issuedAt,uint64 expiresAt)").

(** [internal/proxy/attestortls.go:61-63 domainSeparator] *)
Definition statement_domain s : bytes :=
  eip712DomainSeparator "0G Sandbox AttestorTLS" "3" (ts_ChainID s) (ts_RegistryAddress s).

(** [internal/proxy/attestortls.go:67-83 pinsHash] *)
Definition pinsHash s : res bytes :=
  let n := length (ts_TLSSPKISHA256 s) in
  if (n =? 0)%nat || (attestorTLSMaxPins <? n)%nat then Err (EMsg "attestor tls statement needs 1..16 pins")
  else res_bind (pins_concat None (ts_TLSSPKISHA256 s)) (fun b => Ok (keccak256 b)).

(** The four words of the struct. [internal/proxy/attestortls.go:99-104 structHash] *)
Definition statement_words s (pins : bytes) : bytes :=
  let encoded := replicate 128 0 in
  let encoded := copy_slice 0 32 attestorTLSTypeHash encoded in
  let encoded := copy_slice 32 64 pins encoded in
  let encoded := putUint64Word 64 (ts_IssuedAt s) encoded in
  putUint64Word 96 (ts_ExpiresAt s) encoded.

(** The sum of two [uint64]s wraps.
    [internal/proxy/attestortls.go:85-105 structHash] *)
Definition statement_struct s : res bytes :=
  if negb (ts_Version s =? attestorTLSVersion) then Err (EMsg "unsupported attestor tls statement version")
  else if (ts_ChainID s =? 0) || (ts_RegistryAddress s =? 0) then Err (EMsg "invalid attestor tls statement scope")
  else if (ts_IssuedAt s =? 0) || (ts_ExpiresAt s <=? ts_IssuedAt s)
          || ((ts_IssuedAt s + attestorTLSMaxLease) mod 2 ^ 64 <? ts_ExpiresAt s)
  then Err (EMsg "attestor tls statement needs issued_at < expires_at <= issued_at+300")
  else res_bind (pinsHash s) (fun pins => Ok (keccak256 (statement_words s pins))).

(** [internal/proxy/attestortls.go:107-113 signingDigest] *)
Definition statement_digest s : res bytes := res_bind (statement_struct s) (fun h => Ok (eip712Digest (statement_domain s) h)).

(** A JSON array of strings. *)
Definition json_strings (l : list string) : string :=
  "[" +:+ foldr (fun x acc => json_quote x +:+ (if bool_decide (acc = EmptyString) then EmptyString else "," +:+ acc)) EmptyString l +:+ "]".

(** Field order is the wire order. [internal/proxy/attestortls.go:51-59 AttestorTLSStatement] *)
Definition statement_json s : string :=
  "{" +:+ json_field "version" (pretty (ts_Version s)) +:+ "," +:+
  json_field "chain_id" (pretty (ts_ChainID s)) +:+ "," +:+
  json_field "registry_address" (json_quote (addr_hex (ts_RegistryAddress s))) +:+ "," +:+
  json_field "tls_spki_sha256" (json_strings (ts_TLSSPKISHA256 s)) +:+ "," +:+
  json_field "issued_at" (pretty (ts_IssuedAt s)) +:+ "," +:+
  json_field "expires_at" (pretty (ts_ExpiresAt s)) +:+ "," +:+
  json_field "signature" (json_quote (ts_Signature s)) +:+ "}".

(** The signed statement; [statement_json] renders it.
    [internal/proxy/attestortls.go:116-125 sign] *)
Definition sign_statement s (key : Z) : res AttestorTLSStatement :=
  res_bind (statement_digest s) (fun digest =>
  res_bind (signDigest digest key) (fun sig => Ok (set_signature sig s))).

End Statement.

(** ** Issuing *)

(** Bytewise order of strings. *)
Definition string_le (a b : string) : Prop := String.leb a b = true.

#[export] Instance string_le_dec : RelDecision string_le.
Proof. intros a b. unfold string_le. apply _. Defined.

(** [sort.Strings]. *)
Definition sort_strings (l : list string) : list string := merge_sort string_le l.

(** [internal/proxy/attestortls.go:30-30 attestorTLSRefreshAhead] *)
Definition attestorTLSRefreshAhead : Z := 60.

Section Issue.
Context `{Keccak} `{Ecdsa} {C : Type} (key chainID : Z) (registry : addr) (pins : Z -> M C (list string * Z)).

(** The statement's text and the end of its lease; a positive [int64] is the
    same [uint64].
    [internal/proxy/attestortls.go:277-300 issue] *)
Definition issue : M C (string * Z) :=
  let! r := pins attestorTLSRefreshAhead in
  let '(ps, leaseEnd) := r in
  let sorted := sort_strings ps in
  let! issuedAt := gets w_now in
  let expiresAt := if issuedAt + attestorTLSMaxLease <? leaseEnd then issuedAt + attestorTLSMaxLease else leaseEnd in
  if (issuedAt <=? 0) || (expiresAt <=? issuedAt) then fail (EMsg "attestor identity lease has ended")
  else
    let! s := lift_res (sign_statement (mkStatement attestorTLSVersion chainID registry sorted issuedAt expiresAt EmptyString) key) in
    ret (statement_json s, expiresAt).

End Issue.

(** ** Serving *)

Definition ns_per_sec : Z := 10 ^ 9.

(** [internal/proxy/attestortls.go:31-34 attestorTLSServeMargin, attestorTLSFailMargin, attestorTLSRetryInterval] *)
Definition attestorTLSServeMargin : Z := 30.

Definition attestorTLSFailMargin : Z := 5.

Definition attestorTLSRetryInterval : Z := 5.

(** The endpoint's shared state: the body and its expiry in seconds, the start
    of the last attempt in nanoseconds, whether a refresh runs.
    [internal/proxy/attestortls.go:135-148 AttestorTLS] *)
Record AttestorTLS := mkTLS {
  tls_body : option string;
  tls_expiresAt : Z;
  tls_lastTry : option Z;
  tls_refreshing : bool
}.

Definition fresh_tls : AttestorTLS := mkTLS None 0 None false.

(** Whether the endpoint has a pin source at all.
    [internal/proxy/attestortls.go:153-166 NewAttestorTLS] *)
Definition NewAttestorTLS {P} (key : option Z) (chainID : Z) (registry : addr) (pins : option P) : option P :=
  match key with
  | None => None
  | Some _ => if (chainID =? 0) || (registry =? 0) then None else pins
  end.

(** Which channel the caller gets: the running refresh's, a new one's, or the
    closed one. *)
Inductive refresh_wait := Running | Started | Idle.

(** Under the mutex. [internal/proxy/attestortls.go:244-259 startRefresh] *)
Definition startRefresh (now : Z) (st : AttestorTLS) : refresh_wait * AttestorTLS :=
  if tls_refreshing st then (Running, st)
  else if match tls_lastTry st with Some t => now - t <? attestorTLSRetryInterval * ns_per_sec | None => false end then (Idle, st)
  else (Started, mkTLS (tls_body st) (tls_expiresAt st) (Some now) true).

(** The end of the background refresh, under the mutex.
    [internal/proxy/attestortls.go:261-275 refresh] *)
Definition refresh (x : (string * Z) + rerr) (st : AttestorTLS) : AttestorTLS :=
  match x with
  | inl (body, expiresAt) => mkTLS (Some body) expiresAt (tls_lastTry st) false
  | inr _ => mkTLS (tls_body st) (tls_expiresAt st) (tls_lastTry st) false
  end.

(** The cached body, if [margin] seconds before its expiry lie ahead. *)
Definition valid_for (margin now : Z) (st : AttestorTLS) : option string :=
  match tls_body st with
  | Some b => if now <? (tls_expiresAt st - margin) * ns_per_sec then Some b else None
  | None => None
  end.

(** What a request does first: serve, and perhaps start a refresh, or wait for
    one. [internal/proxy/attestortls.go:203-209 statement] *)
Definition starts_refresh (now : Z) (st : AttestorTLS) : bool :=
  match valid_for attestorTLSServeMargin now st with
  | Some _ => (tls_expiresAt st - attestorTLSRefreshAhead) * ns_per_sec <=? now
  | None => true
  end.

(** One request: it looks at the state at [now1], starts a refresh at [now2] and
    looks again at [now3], each time at the state the other goroutines left;
    [allow] is the rate limiter's answer, asked only when a refresh runs.  It
    waits before [now3] for the refresh or for its own context.
    [internal/proxy/attestortls.go:202-231 statement] *)
Definition statement (allow : bool) (now1 : Z) (st1 : AttestorTLS) (now2 : Z) (st2 : AttestorTLS) (now3 : Z) (st3 : AttestorTLS)
  : option string * Z :=
  match valid_for attestorTLSServeMargin now1 st1 with
  | Some b => (Some b, 200)
  | None =>
      let limited := match (startRefresh now2 st2).1 with Idle => false | _ => negb allow end in
      match valid_for attestorTLSFailMargin now3 st3 with
      | Some b => (Some b, 200)
      | None => (None, if limited then 429 else 503)
      end
  end.

(** Status, Retry-After and body of the answer.
    [internal/proxy/attestortls.go:169-186 Handle] *)
Definition Handle {P} (pins : option P) (answer : option string * Z) : Z * option Z * option string :=
  match pins with
  | None => (503, None, None)
  | Some _ =>
      if answer.2 =? 200 then (200, None, answer.1)
      else if answer.2 =? 429 then (429, Some 1, None)
      else (503, Some 5, None)
  end.

(** ** Lemmas *)

Section StatementLemmas.
Context `{KeccakLaws} `{EcdsaLaws}.
Implicit Types s : AttestorTLSStatement.

(** The buffer is Solidity's [abi.encode] of the struct's words. *)
Lemma statement_words_abi s pins :
  length pins = 32%nat -> 0 <= ts_IssuedAt s < 2 ^ 64 -> 0 <= ts_ExpiresAt s < 2 ^ 64 ->
  statement_words s pins = attestorTLSTypeHash ++ pins ++ be_bytes 32 (ts_IssuedAt s) ++ be_bytes 32 (ts_ExpiresAt s).
Proof.
  intros Hp Hi He. unfold statement_words, putUint64Word. cbn [Nat.add]. rewrite !word64 by done. unfold attestorTLSTypeHash.
  generalize (bytes_of_string "AttestorTLS(bytes32[] tlsSpkiSha256,uint64 issuedAt,uint64 expiresAt)"). intros t.
  change (replicate 128 0) with ([] ++ replicate 128 0).
  do 4 (rewrite copy_slice_step by (autorewrite with sandbox_rw; rewrite ?keccak_length, ?length_replicate, ?Hp; cbn; lia);
    autorewrite with sandbox_rw; rewrite ?keccak_length, ?length_replicate, ?Hp; cbn [length Nat.sub Nat.add app]).
  cbn [replicate app Nat.sub]. rewrite ?app_nil_r, <- ?app_assoc. reflexivity.
Qed.

(** A well-formed pin list: at most 16 different SHA-256 values, lowercase, in
    ascending order. *)
Definition pin_ok (pin : string) : Prop := exists d, hex_decode pin = Some d /\ length d = 32%nat /\ to_lower pin = pin.

Fixpoint ascending (prev : option string) (pins : list string) : Prop :=
  match pins with
  | [] => True
  | pin :: rest => match prev with Some p => String.leb pin p = false | None => True end /\ ascending (Some pin) rest
  end.

Lemma pin_bytes_Some pin d : pin_bytes pin = Some d -> pin_ok pin.
Proof.
  unfold pin_bytes. destruct (hex_decode pin) as [b|] eqn:Eb; [|done]. destruct (_ && _) eqn:E; [|done]. intros _.
  zbool. by exists b.
Qed.

Lemma pins_concat_Ok prev pins b : pins_concat prev pins = Ok b -> Forall pin_ok pins /\ ascending prev pins.
Proof.
  revert prev b. induction pins as [|pin rest IH]; intros prev b E; [by split; [constructor|]|]. cbn [pins_concat] in E.
  destruct (pin_bytes pin) as [d|] eqn:Ed; [|done]. destruct (match prev with Some p => _ | None => _ end) eqn:Ep; [done|].
  destruct (pins_concat (Some pin) rest) as [r| |] eqn:Er; [|done..]. apply IH in Er as [Hf Ha].
  split; [constructor; [by eapply pin_bytes_Some|done]|]. split; [|done]. by destruct prev.
Qed.

(** What a signed statement tells its reader. *)
Record statement_ok s (key : Z) : Prop := {
  so_scope : ts_Version s = 3 /\ ts_ChainID s <> 0 /\ ts_RegistryAddress s <> 0;
  so_pins : (1 <= length (ts_TLSSPKISHA256 s) <= 16)%nat /\ Forall pin_ok (ts_TLSSPKISHA256 s) /\ ascending None (ts_TLSSPKISHA256 s);
  so_lease : ts_IssuedAt s < ts_ExpiresAt s <= ts_IssuedAt s + 300;
  so_verifies : exists d sig, statement_digest s = Ok d /\ ts_Signature s = "0x" +:+ hex_encode sig /\
    length sig = 65%nat /\ sig_to_addr d (normalize_sig sig) = Ok (key_addr key)
}.

Lemma pinsHash_Ok s h :
  pinsHash s = Ok h ->
  (1 <= length (ts_TLSSPKISHA256 s) <= 16)%nat /\ Forall pin_ok (ts_TLSSPKISHA256 s) /\ ascending None (ts_TLSSPKISHA256 s).
Proof.
  unfold pinsHash. cbv zeta. destruct (_ || _) eqn:En; [done|]. apply orb_false_iff in En as [E1%Nat.eqb_neq E2%Nat.ltb_ge].
  destruct (pins_concat None _) as [b| |] eqn:Eb; [|done..]. intros _. apply pins_concat_Ok in Eb as [Hf Ha].
  unfold attestorTLSMaxPins in E2. split; [lia|done].
Qed.

Lemma sign_statement_ok s key s' :
  0 <= ts_IssuedAt s -> sign_statement s key = Ok s' -> (exists sig, s' = set_signature sig s) /\ statement_ok s' key.
Proof.
  intros Hi E. unfold sign_statement in E. destruct (statement_digest s) as [d| |] eqn:Ed; cbn [res_bind] in E; [|done..].
  destruct (signDigest d key) as [t| |] eqn:Es; cbn [res_bind] in E; [|done..]. injection E as <-.
  destruct (signDigest_inv _ _ _ Es) as (sig & -> & Hl & Hr). split; [by eexists|].
  pose proof Ed as Ed'. unfold statement_digest in Ed'. destruct (statement_struct s) as [h| |] eqn:Eh; [|done..].
  unfold statement_struct in Eh. destruct (negb _) eqn:Ev; [done|]. destruct (_ || _) eqn:Esc; [done|]. destruct (_ || _ || _) eqn:El; [done|].
  destruct (pinsHash s) as [ph| |] eqn:Ep; [|done..]. apply pinsHash_Ok in Ep. unfold attestorTLSVersion, attestorTLSMaxLease in *. zbool.
  pose proof (Z.mod_le (ts_IssuedAt s + 300) (2 ^ 64) ltac:(lia) ltac:(lia)). split; cbn; [by repeat split|done|lia|]. by exists d, sig.
Qed.

End StatementLemmas.

Section ServingProperties.
Context `{KeccakLaws} `{EcdsaLaws} {C : Type} (key chainID : Z) (registry : addr) (pins : Z -> M C (list string * Z)).
Implicit Types (st : AttestorTLS) (w : world C).

(** A text this endpoint may serve: a sound statement in its scope that names
    the pins one resolution of the identity answered, within their lease. *)
Definition issued (body : string) (exp : Z) : Prop :=
  exists s ps leaseEnd w wp, body = statement_json s /\ statement_ok s key /\ ts_ChainID s = chainID /\ ts_RegistryAddress s = registry /\
    pins attestorTLSRefreshAhead w = (Ok (ps, leaseEnd), wp) /\ Permutation (ts_TLSSPKISHA256 s) ps /\
    ts_IssuedAt s = w_now wp /\ ts_ExpiresAt s = exp /\ exp <= leaseEnd.

Lemma issue_Ok w body exp w' : issue key chainID registry pins w = (Ok (body, exp), w') -> issued body exp.
Proof.
  unfold issue. intros ([ps leaseEnd] & wp & Ep & E)%bind_Ok. cbv zeta in E. apply bind_Ok in E as (t & w1 & [= <- <-] & E).
  destruct (_ || _) eqn:Eb; [done|]. apply bind_Ok in E as (s & w2 & Es & E). injection E as <- <- <-.
  unfold lift_res in Es. injection Es as Es _. zbool. apply sign_statement_ok in Es as [(sig & ->) Hok]; [|cbn; lia].
  eexists _, ps, leaseEnd, w, wp. split; [reflexivity|]. split; [exact Hok|]. cbn. split; [done|]. split; [done|]. split; [exact Ep|].
  split; [apply merge_sort_Permutation|]. split; [done|]. split; [done|]. clear. destruct (Z.ltb_spec (w_now wp + attestorTLSMaxLease) leaseEnd); lia.
Qed.

(** The endpoint over time, with the starts of its refreshes, newest first, and
    how many of them run: any request may come at any time, and a running
    refresh ends in some later world. *)
Inductive tls_run : list Z -> nat -> AttestorTLS -> Prop :=
| tls_start : tls_run [] 0 fresh_tls
| tls_request now starts n st : tls_run starts n st ->
    tls_run (match (startRefresh now st).1 with Started => now :: starts | _ => starts end)
            (match (startRefresh now st).1 with Started => S n | _ => n end) (startRefresh now st).2
| tls_refreshed starts n st w x w' : tls_run starts (S n) st -> attempt (issue key chainID registry pins) w = (Ok x, w') ->
    tls_run starts n (refresh x st).

Fixpoint spaced (gap : Z) (l : list Z) : Prop :=
  match l with
  | t :: l' => match l' with t' :: _ => gap <= t - t' | [] => True end /\ spaced gap l'
  | [] => True
  end.

(** What holds whenever the mutex is free. *)
Record tls_inv (starts : list Z) (n : nat) st : Prop := {
  ti_running : n = if tls_refreshing st then 1%nat else 0%nat;
  ti_last : tls_lastTry st = head starts;
  ti_spaced : spaced (attestorTLSRetryInterval * ns_per_sec) starts;
  ti_body : forall b, tls_body st = Some b -> issued b (tls_expiresAt st)
}.

Lemma tls_run_inv starts n st : tls_run starts n st -> tls_inv starts n st.
Proof.
  induction 1 as [|now starts n st _ [Hn Hl Hs Hb]|starts n st w x w' _ [Hn Hl Hs Hb] E]; [by split| |].
  - unfold startRefresh. destruct (tls_refreshing st) eqn:Er; [split; cbn; [by rewrite Er|done..]|].
    destruct (match tls_lastTry st with Some t => _ | None => _ end) eqn:Et; [split; cbn; [by rewrite Er|done..]|].
    split; cbn; [by rewrite Hn|done| |done]. split; [|done]. rewrite Hl in Et. destruct starts as [|t l]; [done|]. cbn in Et. zlia.
  - destruct (tls_refreshing st); [|done]. injection Hn as ->. unfold attempt in E.
    destruct (issue _ _ _ _ w) as [[[b exp]|e|] w1] eqn:Ei; [| |done]; injection E as <- _; split; cbn; try done.
    intros b' [= <-]. by eapply issue_Ok.
Qed.

Lemma valid_for_Some margin now st b : valid_for margin now st = Some b -> tls_body st = Some b /\ now < (tls_expiresAt st - margin) * ns_per_sec.
Proof. unfold valid_for. destruct (tls_body st) as [b'|]; [|done]. destruct (Z.ltb_spec now ((tls_expiresAt st - margin) * ns_per_sec)); [|done]. by intros [= <-]. Qed.

(** C35: what GET /api/attestor-tls serves can be trusted.  However requests,
    refreshes and failures interleave, a body answered with 200 is a statement
    this endpoint issued: in its own scope, with at most 16 ascending pins that one
    resolution of the attestor's identity named, leased for at most 300 seconds
    and not past that resolution's lease, signed by the provider key, and at
    least five seconds away from its expiry when it is sent. *)
Theorem served_statement_is_sound allow now1 starts1 n1 st1 now2 st2 now3 starts3 n3 st3 body :
  tls_run starts1 n1 st1 -> tls_run starts3 n3 st3 ->
  statement allow now1 st1 now2 st2 now3 st3 = (Some body, 200) ->
  exists exp now, issued body exp /\ (now = now1 \/ now = now3) /\ now < (exp - 5) * ns_per_sec.
Proof.
  intros Hr1 Hr3. unfold statement. destruct (valid_for attestorTLSServeMargin now1 st1) as [b|] eqn:E1.
  - intros [= <-]. apply valid_for_Some in E1 as [Eb Hx]. apply tls_run_inv in Hr1 as [_ _ _ Hb].
    exists (tls_expiresAt st1), now1. split; [by apply Hb|]. split; [by left|]. unfold attestorTLSServeMargin, ns_per_sec in *. lia.
  - destruct (valid_for attestorTLSFailMargin now3 st3) as [b|] eqn:E3; [|by case_match]. intros [= <-].
    apply valid_for_Some in E3 as [Eb Hx]. apply tls_run_inv in Hr3 as [_ _ _ Hb].
    exists (tls_expiresAt st3), now3. split; [by apply Hb|]. split; [by right|done].
Qed.

(** One refresh at a time.  However many requests come, at most one refresh
    runs, and two refreshes never start less than five seconds apart. *)
Theorem refreshes_are_single_and_spaced starts n st :
  tls_run starts n st -> (n <= 1)%nat /\ spaced (5 * ns_per_sec) starts.
Proof. intros [Hn _ Hs _]%tls_run_inv. split; [|exact Hs]. destruct (tls_refreshing st); lia. Qed.

(** A statement that is good for another 30 seconds is served without asking the
    limiter, and one good for five whatever the limiter says. *)
Lemma valid_statement_is_served allow now1 st1 now2 st2 now3 st3 b :
  valid_for attestorTLSFailMargin now3 st3 = Some b -> (statement allow now1 st1 now2 st2 now3 st3).2 = 200.
Proof. intros E. unfold statement. rewrite E. by destruct (valid_for _ now1 st1). Qed.

End ServingProperties.

(** ** A concrete endpoint *)

Module AttestorExamples.
Import Toy.

Definition pin_a : string := "0a0a0a0a0a0a0a0a0a0a0a0a0a0a0a0a0a0a0a0a0a0a0a0a0a0a0a0a0a0a0a0a".

Definition pin_b : string := "b00bb00bb00bb00bb00bb00bb00bb00bb00bb00bb00bb00bb00bb00bb00bb00b".

(** A pin source whose lease ends at 1500, unless it is down. *)
Definition pins0 (_ : Z) : M bool (list string * Z) :=
  let! up := (gets w_chain : M bool bool) in if up then ret ([pin_b; pin_a], 1500) else fail EIO.

Definition world_at (now : Z) (up : bool) : world bool := mkWorld empty_redis [] false [] now up [] [].

Definition issue0 : M bool (string * Z) := issue 9 16601 4096 pins0.

Definition text0 : string := match (issue0 (world_at 1000 true)).1 with Ok (b, _) => b | _ => EmptyString end.

Definition asked : AttestorTLS := mkTLS None 0 (Some (1000 * ns_per_sec)) true.

Definition ready : AttestorTLS := mkTLS (Some text0) 1300 (Some (1000 * ns_per_sec)) false.

Lemma issued_once : attempt issue0 (world_at 1000 true) = (Ok (inl (text0, 1300)), world_at 1000 true).
Proof. vm_compute. reflexivity. Qed.

Lemma ready_run : tls_run 9 16601 4096 pins0 [1000 * ns_per_sec] 0 ready.
Proof.
  apply (tls_refreshed _ _ _ _ _ 0 asked (world_at 1000 true) (inl (text0, 1300)) (world_at 1000 true)); [|exact issued_once].
  exact (tls_request _ _ _ _ (1000 * ns_per_sec) [] 0 fresh_tls (tls_start _ _ _ _)).
Qed.

Lemma served_at_1200 : statement true (1200 * ns_per_sec) ready (1200 * ns_per_sec) ready (1200 * ns_per_sec) ready = (Some text0, 200).
Proof. reflexivity. Qed.

Lemma served_statement_is_sound_witness :
  exists exp now, issued 9 16601 4096 pins0 text0 exp /\ (now = 1200 * ns_per_sec \/ now = 1200 * ns_per_sec) /\ now < (exp - 5) * ns_per_sec.
Proof. exact (served_statement_is_sound 9 16601 4096 pins0 _ _ _ _ _ _ _ _ _ _ _ _ ready_run ready_run served_at_1200). Defined.

Lemma refreshes_are_single_and_spaced_witness : (0 <= 1)%nat /\ spaced (5 * ns_per_sec) [1000 * ns_per_sec].
Proof. exact (refreshes_are_single_and_spaced 9 16601 4096 pins0 _ _ _ ready_run). Defined.

(** Near the end of the lease the source is down: the text is served until five
    seconds before its expiry, then not. *)
Example outage_serving :
  let failed now := (attempt issue0 (world_at now false)).1 in
  failed 1280 = Ok (inr EIO) /\
  statement true (1280 * ns_per_sec) ready (1280 * ns_per_sec) ready (1281 * ns_per_sec) (refresh (inr EIO) ready) = (Some text0, 200) /\
  statement true (1296 * ns_per_sec) ready (1296 * ns_per_sec) ready (1297 * ns_per_sec) (refresh (inr EIO) ready) = (None, 503) /\
  statement false (1296 * ns_per_sec) ready (1296 * ns_per_sec) ready (1297 * ns_per_sec) ready = (None, 429).
Proof. vm_compute. repeat split. Qed.

End AttestorExamples.
