(* ===== verification/Relay.v ===== *)
(** * The broker's relay (internal/broker/relayguard.go, cmd/broker/main.go)

    The broker forwards a browser's requests to the provider whose URL the
    chain names.  The URL is anybody's text, so the dialer refuses addresses of
    the broker's own network, and a marker bounds how often a request can come
    back.  Parsing of URLs is net/url's and an argument of the handler. *)

From S2P Require Import Prelude Hex Bytes Crypto Json CreatePolicy Guard Voucher Store Daytona Config Seal Http ChainTypes Chain Indexer.

(** ** Destinations *)

(** The parts of a parsed URL the relay looks at. *)
Record url := mkUrl { u_Scheme : string; u_Hostname : string }.

(** [internal/broker/relayguard.go:25-33 ValidateRelayTarget] *)
Definition ValidateRelayTarget (u : url) : res unit :=
  if negb (bool_decide (u_Scheme u = "http")) && negb (bool_decide (u_Scheme u = "https")) then Err (EMsg "provider URL scheme not allowed")
  else if bool_decide (u_Hostname u = EmptyString) then Err (EMsg "provider URL has no host")
  else Ok tt.

(** An address as [net.ParseIP] returns it: 16 bytes, an IPv4 address under the
    prefix ::ffff:0:0/96. *)
Definition ip_bytes : Type := list Z.

(** [net.IP.To4]. *)
Definition To4 (ip : ip_bytes) : option (Z * Z * Z * Z) :=
  match ip with
  | [0; 0; 0; 0; 0; 0; 0; 0; 0; 0; 255; 255; a; b; c; d] => Some (a, b, c, d)
  | _ => None
  end.

Definition byte_at (i : nat) (ip : ip_bytes) : Z := nth i ip 0.

Definition IPv6loopback : ip_bytes := replicate 15 0 ++ [1].

(** The predicates of [net.IP]. *)
Definition IsLoopback (ip : ip_bytes) : bool :=
  match To4 ip with Some (a, _, _, _) => a =? 127 | None => bool_decide (ip = IPv6loopback) end.

Definition IsPrivate (ip : ip_bytes) : bool :=
  match To4 ip with
  | Some (a, b, _, _) => (a =? 10) || ((a =? 172) && (Z.land b 240 =? 16)) || ((a =? 192) && (b =? 168))
  | None => Z.land (byte_at 0 ip) 254 =? 252
  end.

Definition IsLinkLocalUnicast (ip : ip_bytes) : bool :=
  match To4 ip with
  | Some (a, b, _, _) => (a =? 169) && (b =? 254)
  | None => (byte_at 0 ip =? 254) && (Z.land (byte_at 1 ip) 192 =? 128)
  end.

Definition IsLinkLocalMulticast (ip : ip_bytes) : bool :=
  match To4 ip with
  | Some (a, b, c, _) => (a =? 224) && (b =? 0) && (c =? 0)
  | None => (byte_at 0 ip =? 255) && (Z.land (byte_at 1 ip) 15 =? 2)
  end.

Definition IsInterfaceLocalMulticast (ip : ip_bytes) : bool := (byte_at 0 ip =? 255) && (Z.land (byte_at 1 ip) 15 =? 1).

Definition IsMulticast (ip : ip_bytes) : bool :=
  match To4 ip with Some (a, _, _, _) => Z.land a 240 =? 224 | None => byte_at 0 ip =? 255 end.

Definition IsUnspecified (ip : ip_bytes) : bool :=
  match To4 ip with Some q => bool_decide (q = (0, 0, 0, 0)) | None => bool_decide (ip = replicate 16 0) end.

(** [internal/broker/relayguard.go:39-48 forbiddenIP] *)
Definition forbiddenIP (ip : option ip_bytes) : bool :=
  match ip with
  | None => true
  | Some ip => IsLoopback ip || IsPrivate ip || IsLinkLocalUnicast ip || IsLinkLocalMulticast ip
               || IsInterfaceLocalMulticast ip || IsMulticast ip || IsUnspecified ip
  end.

(** The dialer's check of the address it is about to connect to; a text that
    does not split into host and port is [None].
    [internal/broker/relayguard.go:58-67 GuardedTransport] *)
Definition Control (host : option (option ip_bytes)) : res unit :=
  match host with
  | None => Err (EMsg "relay dial")
  | Some ip => if forbiddenIP ip then Err (EMsg "relay destination is not publicly routable") else Ok tt
  end.

(** ** The relayed request *)

(** [internal/broker/relayguard.go:18-18 RelayLoopHeader] *)
Definition RelayLoopHeader : string := "X-0g-Broker-Relay".

(** [textproto.CanonicalMIMEHeaderKey] of an ASCII token: upper case at the start
    and after a hyphen. *)
Fixpoint canonical_key (upper : bool) (s : string) : string :=
  match s with
  | EmptyString => EmptyString
  | String c s' =>
      let n := nat_of_ascii c in
      let c' := if upper && (97 <=? n)%nat && (n <=? 122)%nat then ascii_of_nat (n - 32)
                else if negb upper then lower_ascii c else c in
      String c' (canonical_key (bool_decide (c = "-"%char)) s')
  end.

Definition hop_headers : list string :=
  ["Connection"; "Proxy-Connection"; "Keep-Alive"; "Proxy-Authenticate"; "Proxy-Authorization"; "Te"; "Trailer"; "Transfer-Encoding"; "Upgrade"].

(** The header names a Connection header lists. *)
Definition connection_names (h : headers) : list string :=
  filter (fun n => n <> EmptyString) (canonical_key true <$> (TrimSpace <$> (default [] (h !! "Connection") ≫= split_char ","))).

(** [httputil.ReverseProxy]'s [removeHopByHopHeaders], which runs after the
    director. *)
Definition remove_hop_by_hop (h : headers) : headers := delete_all hop_headers (delete_all (connection_names h) h).

(** The upgrade a request asks for, if its Connection header says so. *)
Definition upgrade_type (h : headers) : string :=
  if bool_decide ("upgrade" ∈ to_lower <$> (TrimSpace <$> (default [] (h !! "Connection") ≫= split_char ","))) then header_get h "Upgrade" else EmptyString.

(** The headers that leave the relay: the director marks the request, then the
    reverse proxy drops hop-by-hop headers and keeps an upgrade alive (what it adds
    to Te and X-Forwarded-For is left out); the URL is the target's. [internal/broker/relayguard.go:90-93 GuardedRelayProxy] *)
Definition relay_headers (h : headers) : headers :=
  let h := <[RelayLoopHeader := ["1"]]> h in
  let up := upgrade_type h in
  let h' := remove_hop_by_hop h in
  if bool_decide (up = EmptyString) then h' else <["Upgrade" := [up]]> (<["Connection" := ["Upgrade"]]> h').

(** What the relay does with a request: answer it, or send it on. *)
Inductive relayed :=
| RelayReply (r : reply)
| RelayTo (target : url) (rq : request).

(** The relay route; [path] is the rest of the path after the provider's address.
    [cmd/broker/main.go:137-163 main] *)
Definition relay (parse : string -> option url) (idx : index) (providerAddr path : string) (rq : request) : relayed :=
  if negb (bool_decide (header_get (rq_header rq) RelayLoopHeader = EmptyString)) then RelayReply (error_reply 508 "relay loop")
  else
    match Get idx (to_lower providerAddr) with
    | None => RelayReply (error_reply 404 "provider not found")
    | Some rec =>
        match parse (pr_URL rec) with
        | None => RelayReply (error_reply 502 "invalid provider URL")
        | Some target =>
            match ValidateRelayTarget target with
            | Ok _ => RelayTo target (mkReq (rq_method rq) path (relay_headers (rq_header rq)) (rq_body rq))
            | _ => RelayReply (error_reply 502 "invalid provider URL")
            end
        end
    end.

(** The answer to a dial that failed; [refused]: by [Control].
    [internal/broker/relayguard.go:94-100 GuardedRelayProxy] *)
Definition relay_error (refused : bool) : Z * string :=
  (502, if refused then "provider URL is not publicly routable (private, loopback, or link-local address)" else "upstream provider unreachable").

(** ** Properties: destinations *)

Definition ip4 (a b c d : Z) : ip_bytes := [0; 0; 0; 0; 0; 0; 0; 0; 0; 0; 255; 255; a; b; c; d].

Definition ip4_value (a b c d : Z) : Z := ((a * 256 + b) * 256 + c) * 256 + d.

(** An address block: its first address and the length of its prefix. *)
Definition in_block (v : Z) (blk : Z * Z) : bool := v / 2 ^ (32 - blk.2) =? blk.1 / 2 ^ (32 - blk.2).

(** Loopback, the private ranges, link-local, multicast and the unspecified
    address. *)
Definition forbidden_blocks : list (Z * Z) :=
  [(ip4_value 127 0 0 0, 8); (ip4_value 10 0 0 0, 8); (ip4_value 172 16 0 0, 12); (ip4_value 192 168 0 0, 16);
   (ip4_value 169 254 0 0, 16); (ip4_value 224 0 0 0, 24); (ip4_value 224 0 0 0, 4); (0, 32)].

Lemma land_240 b : byte_ok b -> Z.land b 240 = b / 16 * 16.
Proof.
  intros Hb. assert (Forall (fun x => Z.land x 240 = x / 16 * 16) (seqZ 0 256)) as Hf by (by apply (bool_decide_unpack _); vm_compute).
  rewrite Forall_forall in Hf. apply Hf, elem_of_seqZ. unfold byte_ok in Hb. lia.
Qed.

(** The prefixes of an address. *)
Lemma ip4_prefixes a b c d : byte_ok a -> byte_ok b -> byte_ok c -> byte_ok d ->
  let v := ip4_value a b c d in
  v / 2 ^ 28 = a / 16 /\ v / 2 ^ 24 = a /\ v / 2 ^ 20 = a * 16 + b / 16 /\ v / 2 ^ 16 = a * 256 + b /\ v / 2 ^ 8 = (a * 256 + b) * 256 + c /\ v / 2 ^ 0 = v.
Proof. unfold byte_ok, ip4_value. cbv zeta. intros. split_and!; Z.div_mod_to_equations; lia. Qed.

(** The dialer refuses exactly the IPv4 addresses of the listed blocks,
    whatever byte tests it is written with. *)
Theorem control_is_block_list a b c d :
  byte_ok a -> byte_ok b -> byte_ok c -> byte_ok d ->
  Control (Some (Some (ip4 a b c d))) =
    if existsb (in_block (ip4_value a b c d)) forbidden_blocks then Err (EMsg "relay destination is not publicly routable") else Ok tt.
Proof.
  intros Ha Hb Hc Hd. destruct (ip4_prefixes a b c d Ha Hb Hc Hd) as (E28 & E24 & E20 & E16 & E8 & E0).
  set (v := ip4_value a b c d) in *. unfold Control. replace (forbiddenIP (Some (ip4 a b c d))) with (existsb (in_block v) forbidden_blocks); [done|].
  unfold forbidden_blocks, in_block. cbn [existsb fst snd].
  change (32 - 8) with 24. change (32 - 12) with 20. change (32 - 16) with 16. change (32 - 24) with 8. change (32 - 4) with 28. change (32 - 32) with 0.
  rewrite E28, E24, E20, E16, E8, E0. unfold forbiddenIP, IsLoopback, IsPrivate, IsLinkLocalUnicast,
    IsLinkLocalMulticast, IsInterfaceLocalMulticast, IsMulticast, IsUnspecified, byte_at, ip4. cbn [To4 nth].
  rewrite !land_240 by done. apply eq_true_iff_eq. rewrite !orb_true_iff, !andb_true_iff, !Z.eqb_eq, bool_decide_eq_true.
  assert (((a, b, c, d) = (0, 0, 0, 0)) <-> v = 0) as -> by (subst v; unfold ip4_value, byte_ok in *; split; [by intros [= -> -> -> ->]|intros; repeat f_equal; lia]).
  change (ip4_value 127 0 0 0 / 2 ^ 24) with 127. change (ip4_value 10 0 0 0 / 2 ^ 24) with 10. change (ip4_value 172 16 0 0 / 2 ^ 20) with 2753.
  change (ip4_value 192 168 0 0 / 2 ^ 16) with 49320. change (ip4_value 169 254 0 0 / 2 ^ 16) with 43518.
  change (ip4_value 224 0 0 0 / 2 ^ 8) with 14680064. change (ip4_value 224 0 0 0 / 2 ^ 28) with 14. change (0 / 2 ^ 0) with 0.
  clearbody v. unfold byte_ok in *.
  assert (a * 16 + b / 16 = 2753 <-> a = 172 /\ b / 16 * 16 = 16) as -> by (Z.div_mod_to_equations; lia).
  assert (a * 256 + b = 49320 <-> a = 192 /\ b = 168) as -> by lia. assert (a * 256 + b = 43518 <-> a = 169 /\ b = 254) as -> by lia.
  assert ((a * 256 + b) * 256 + c = 14680064 <-> (a = 224 /\ b = 0) /\ c = 0) as -> by lia.
  assert (a / 16 = 14 <-> a / 16 * 16 = 224) as -> by lia.
  assert (0 <> 255) by lia. assert (false <> true) by done. tauto.
Qed.

(** ** Properties: the relay's depth *)

Lemma relay_marked parse idx p path rq :
  header_get (rq_header rq) RelayLoopHeader <> EmptyString -> relay parse idx p path rq = RelayReply (error_reply 508 "relay loop").
Proof. intros Hm. unfold relay. by rewrite bool_decide_false. Qed.

Lemma relay_to_headers parse idx p path rq t rq' :
  relay parse idx p path rq = RelayTo t rq' -> rq_header rq' = relay_headers (rq_header rq) /\ ValidateRelayTarget t = Ok tt.
Proof.
  unfold relay. destruct (negb _); [done|]. destruct (Get _ _) as [rec|]; [|done]. destruct (parse _) as [u|]; [|done].
  destruct (ValidateRelayTarget u) as [[]| |] eqn:Ev; [|done..]. by intros [= <- <-].
Qed.

Definition marked (h : headers) : Prop := h !! RelayLoopHeader = Some ["1"].

Lemma marked_refused h : marked h -> header_get h RelayLoopHeader <> EmptyString.
Proof. unfold marked, header_get. by intros ->. Qed.

(** The mark survives unless the request lists it as a connection header. *)
Lemma relay_headers_marked h : RelayLoopHeader ∉ connection_names h -> marked (relay_headers h).
Proof.
  intros Hn. assert (connection_names (<[RelayLoopHeader := ["1"]]> h) = connection_names h) as Ec
    by (unfold connection_names; by rewrite lookup_insert_ne).
  assert (marked (remove_hop_by_hop (<[RelayLoopHeader := ["1"]]> h))) as Hm.
  { unfold marked, remove_hop_by_hop. rewrite Ec, !delete_all_lookup, (bool_decide_false (_ ∈ hop_headers)) by not_in.
    rewrite bool_decide_false by done. apply lookup_insert_eq. }
  unfold relay_headers. case_bool_decide; [done|]. unfold marked. by rewrite !lookup_insert_ne.
Qed.

(** After one hop the only connection header left is an upgrade's. *)
Lemma relay_headers_connection h : RelayLoopHeader ∉ connection_names (relay_headers h).
Proof.
  assert (relay_headers h !! "Connection" = None \/ relay_headers h !! "Connection" = Some ["Upgrade"]) as [E|E].
  - unfold relay_headers. case_bool_decide.
    + left. unfold remove_hop_by_hop. rewrite delete_all_lookup, bool_decide_true by in_list. done.
    + right. rewrite lookup_insert_ne by done. apply lookup_insert_eq.
  - unfold connection_names. rewrite E. cbn. not_in.
  - unfold connection_names. rewrite E. intros Hin. apply list_elem_of_filter in Hin as [_ Hin]. vm_compute in Hin.
    apply elem_of_cons in Hin as [Hin|Hin]; [discriminate Hin|by apply elem_of_nil in Hin].
Qed.

(** C38: the relay cannot be made to chase its own tail.  Whatever provider
    URLs the chain names and whatever headers a request carries, a request that
    came back through the relay twice is refused with 508; one whose Connection
    header does not list the relay's mark is refused the first time it comes
    back. *)
Theorem relay_ends parse idx p path rq t rq1 p1 path1 :
  relay parse idx p path rq = RelayTo t rq1 ->
  (RelayLoopHeader ∉ connection_names (rq_header rq) -> relay parse idx p1 path1 rq1 = RelayReply (error_reply 508 "relay loop")) /\
  (forall t1 rq2 p2 path2, relay parse idx p1 path1 rq1 = RelayTo t1 rq2 ->
     relay parse idx p2 path2 rq2 = RelayReply (error_reply 508 "relay loop")).
Proof.
  intros [Eh _]%relay_to_headers. split.
  - intros Hn. apply relay_marked, marked_refused. rewrite Eh. by apply relay_headers_marked.
  - intros t1 rq2 p2 path2 [Eh2 _]%relay_to_headers. apply relay_marked, marked_refused. rewrite Eh2.
    apply relay_headers_marked. rewrite Eh. apply relay_headers_connection.
Qed.

(** ** A concrete relay *)

Module RelayExamples.

Definition index0 : index := {[addr_hex 8192 := mkProvider (addr_hex 8192) "https://relay.example" "app" 600 10 60 1 5 7 1000]}.

Definition parse0 (s : string) : option url := Some (mkUrl "https" "relay.example").

Definition get_request (h : headers) : request := mkReq "GET" "/" h BEmpty.

Lemma first_hop :
  relay parse0 index0 (addr_hex 8192) "/x" (get_request ∅) = RelayTo (mkUrl "https" "relay.example") (mkReq "GET" "/x" {[RelayLoopHeader := ["1"]]} BEmpty).
Proof. vm_compute. reflexivity. Qed.

Lemma relay_ends_witness :
  relay parse0 index0 (addr_hex 8192) "/x" (mkReq "GET" "/x" {[RelayLoopHeader := ["1"]]} BEmpty) = RelayReply (error_reply 508 "relay loop").
Proof. refine (proj1 (relay_ends parse0 index0 (addr_hex 8192) "/x" (get_request ∅) _ _ _ _ first_hop) _). apply (bool_decide_unpack _). vm_compute. exact I. Defined.

(** A request that lists the mark as a connection header loses it in the
    reverse proxy, and the relay forwards it to itself once. *)
Lemma relay_hops_twice :
  let target := mkUrl "https" "relay.example" in
  relay parse0 index0 (addr_hex 8192) "/x" (get_request {["Connection" := ["x-0g-broker-relay"]]}) = RelayTo target (mkReq "GET" "/x" ∅ BEmpty) /\
  relay parse0 index0 (addr_hex 8192) "/x" (mkReq "GET" "/x" ∅ BEmpty) = RelayTo target (mkReq "GET" "/x" {[RelayLoopHeader := ["1"]]} BEmpty).
Proof. vm_compute. split; reflexivity. Qed.

(** Shared address space (100.64.0.0/10) is dialled. *)
Lemma shared_space_is_dialled : Control (Some (Some (ip4 100 100 100 200))) = Ok tt.
Proof. reflexivity. Qed.

Lemma control_is_block_list_witness :
  Control (Some (Some (ip4 169 254 169 254))) =
    if existsb (in_block (ip4_value 169 254 169 254)) forbidden_blocks then Err (EMsg "relay destination is not publicly routable") else Ok tt.
Proof. apply (control_is_block_list 169 254 169 254); unfold byte_ok; lia. Defined.

End RelayExamples.
