(* ===== verification/Issuer.v ===== *)
(** * The issuer check (internal/chain/seal_issuer.go)

    Before a certificate is issued the provider is authenticated against one
    block of the chain: its app's registration, its service record, its key
    binding and its activity.  The result is the issuer every certificate names. *)

From S2P Require Import Prelude Decimal Hex Bytes Crypto Json CreatePolicy Voucher Store ChainTypes Chain Seal.

(** The node's chain id, its block headers (the latest or one by number: number
    and hash), and the contracts' state at a block: the registry SandboxServing
    uses, an app's registration time and owner, a service record, a provider's
    key binding (epoch and hash of the app id), whether it is active.
    [deadline] fails once the call's own five seconds are over. *)
Class BlockReads (C : Type) := {
  n_ChainID : C -> res Z * C;
  n_Header : option Z -> C -> res (Z * bytes) * C;
  b_TappRegistry : Z -> C -> res addr * C;
  b_AppInfo : Z -> string -> C -> res (option Z * addr) * C;
  b_ServiceAt : Z -> addr -> C -> res Service * C;
  b_KmsBindings : Z -> addr -> C -> res (option Z * bytes) * C;
  b_ActiveAt : Z -> addr -> C -> res bool * C;
  deadline : C -> res unit * C
}.

(** The client's scope: its chain id, the registry it is configured with, its
    provider address, and whether its key is the app's. *)
Record scope := mkScope { sc_chainID : option Z; sc_tappAddr : addr; sc_providerAddr : addr; sc_kmsProvider : bool }.

Section Issuer.
Context `{Keccak} {C : Type} `{BlockReads C}.
Implicit Types sc : scope.

(** A big integer that is a positive [uint64]. *)
Definition positive_uint64 (x : option Z) : bool := match x with Some n => (0 <? n) && (n <? 2 ^ 64) | None => false end.

Definition check (b : bool) (msg : string) : M C unit := if b then ret tt else fail (EMsg msg).

(** [internal/chain/seal_issuer.go:21-93 GetSealedAppInstance] *)
Definition GetSealedAppInstance sc (appID : string) : M C Z :=
  check (sc_kmsProvider sc) "sealed attestations require a KMS app signer" ;;
  check (positive_uint64 (sc_chainID sc) && negb (sc_tappAddr sc =? 0)) "invalid sealed issuer chain scope" ;;
  check (negb (String.length appID =? 0)%nat && (String.length appID <=? 256)%nat && utf8_valid appID)
    "sealed issuer app_id must be 1..256 UTF-8 bytes" ;;
  let! rpcChainID := chain_call n_ChainID in
  check (bool_decide (Some rpcChainID = sc_chainID sc)) "sealed issuer RPC chain ID differs from configured chain" ;;
  let! header := chain_call (n_Header None) in
  let number := header.1 in
  let! registry := chain_call (b_TappRegistry number) in
  check (registry =? sc_tappAddr sc) "sealed issuer contract registry differs from configured registry" ;;
  let! info := chain_call (b_AppInfo number appID) in
  check (negb (info.2 =? 0) && positive_uint64 info.1) "sealed issuer app has no valid current registration" ;;
  let! service := chain_call (b_ServiceAt number (sc_providerAddr sc)) in
  check (bool_decide (sv_AppId service = appID)) "sealed issuer service app_id differs from configured app" ;;
  let! binding := chain_call (b_KmsBindings number (sc_providerAddr sc)) in
  check (bool_decide (is_Some binding.1) && bool_decide (binding.1 = info.1) && bool_decide (binding.2 = keccak256 (bytes_of_string appID)))
    "sealed issuer KMS binding does not match current app instance" ;;
  let! active := chain_call (b_ActiveAt number (sc_providerAddr sc)) in
  check active "sealed issuer provider is not active" ;;
  let! current := chain_call (n_Header (Some number)) in
  check (bool_decide (current.2 = header.2)) "sealed issuer block changed during lookup" ;;
  let! _ := chain_call deadline in
  ret (default 0 info.1).

(** What the proxy is given to authenticate itself by.
    [cmd/billing/main.go:578-584 main] *)
Definition SealIssuer_of sc (appID : string) : M C SealIssuer :=
  let! epoch := GetSealedAppInstance sc appID in
  ret (mkIssuer (default 0 (sc_chainID sc)) (sc_tappAddr sc) appID epoch).

End Issuer.

(** ** Properties *)

Section IssuerProperties.
Context `{Keccak} {C : Type} `{BlockReads C}.
Implicit Types (sc : scope) (w : world C).

Lemma check_Ok b msg w u w' : check b msg w = (Ok u, w') -> b = true /\ w' = w.
Proof. unfold check. destruct b; [by intros [= _ <-]|done]. Qed.

Lemma positive_uint64_Some x : positive_uint64 x = true -> exists n, x = Some n /\ 0 < n < 2 ^ 64.
Proof. destruct x as [n|]; [|done]. cbn. intros. exists n. split; [done|]. zlia. Qed.

(** What one block says of this provider: the configured registry is the
    contract's, the app is registered there since [epoch] by somebody, the
    provider's service names it, the provider's key is bound to that very
    registration, and the provider is active. *)
Record attests sc (appID : string) (block epoch : Z) : Prop := {
  at_registry : exists c, (b_TappRegistry block c).1 = Ok (sc_tappAddr sc);
  at_registration : exists c owner, (b_AppInfo block appID c).1 = Ok (Some epoch, owner) /\ owner <> 0;
  at_service : exists c sv, (b_ServiceAt block (sc_providerAddr sc) c).1 = Ok sv /\ sv_AppId sv = appID;
  at_binding : exists c, (b_KmsBindings block (sc_providerAddr sc) c).1 = Ok (Some epoch, keccak256 (bytes_of_string appID));
  at_active : exists c, (b_ActiveAt block (sc_providerAddr sc) c).1 = Ok true
}.

(** The instance is read off one block of one chain: the block has the hash it
    was chosen with when the reads are over. *)
Lemma sealed_instance_attested sc appID w n w' :
  GetSealedAppInstance sc appID w = (Ok n, w') ->
  sc_kmsProvider sc = true /\ 0 < n < 2 ^ 64 /\
  exists block hash, (exists c, (n_Header None c).1 = Ok (block, hash)) /\ attests sc appID block n /\
    (exists c number, (n_Header (Some block) c).1 = Ok (number, hash)) /\ exists c, (n_ChainID c).1 = Ok (default 0 (sc_chainID sc)).
Proof.
  unfold GetSealedAppInstance. intros (? & w1 & [Hk ->]%check_Ok & E)%bind_Ok. apply bind_Ok in E as (? & w1' & [Hs ->]%check_Ok & E).
  apply bind_Ok in E as (? & w2 & [_ ->]%check_Ok & E). apply bind_Ok in E as (id & w3 & Eid%chain_call_Ok & E).
  apply bind_Ok in E as (? & w4 & [Hid ->]%check_Ok & E). apply bind_Ok in E as ([block hash] & w5 & Eh%chain_call_Ok & E).
  cbn [fst snd] in E. apply bind_Ok in E as (reg & w6 & Er%chain_call_Ok & E). apply bind_Ok in E as (? & w7 & [Hr ->]%check_Ok & E).
  apply bind_Ok in E as ([o owner] & w8 & Ei%chain_call_Ok & E). apply bind_Ok in E as (? & w9 & [Hi ->]%check_Ok & E). cbn [fst snd] in *.
  apply bind_Ok in E as (sv & w10 & Es%chain_call_Ok & E). apply bind_Ok in E as (? & w11 & [Hsv ->]%check_Ok & E).
  apply bind_Ok in E as ([e h] & w12 & Eb%chain_call_Ok & E). apply bind_Ok in E as (? & w13 & [Hb ->]%check_Ok & E). cbn [fst snd] in *.
  apply bind_Ok in E as (a & w14 & Ea%chain_call_Ok & E). apply bind_Ok in E as (? & w15 & [Ha ->]%check_Ok & E). subst a.
  apply bind_Ok in E as ([num hash'] & w16 & Ec%chain_call_Ok & E). apply bind_Ok in E as (? & w17 & [Hc ->]%check_Ok & E). cbn [fst snd] in *.
  apply bind_Ok in E as (? & w18 & _ & E). injection E as <- _. zbool. subst.
  match goal with E : positive_uint64 o = true |- _ => apply positive_uint64_Some in E as (n & -> & Hn) end. cbn [default].
  split; [done|]. split; [done|]. exists block, hash. split; [eauto|]. split; [|split; [eauto|by rewrite <- Hid; eauto]].
  split; eauto 10.
Qed.

Lemma sealed_instance_scope sc appID w n w' :
  GetSealedAppInstance sc appID w = (Ok n, w') ->
  positive_uint64 (sc_chainID sc) = true /\ sc_tappAddr sc <> 0 /\ (1 <= String.length appID <= 256)%nat /\ utf8_valid appID = true.
Proof.
  unfold GetSealedAppInstance. intros (? & w1 & [_ ->]%check_Ok & E)%bind_Ok. apply bind_Ok in E as (? & w1' & [Hs ->]%check_Ok & E).
  apply bind_Ok in E as (? & w2 & [Ha _]%check_Ok & _). zbool.
  repeat match goal with E : (_ =? _)%nat = false |- _ => apply Nat.eqb_neq in E | E : (_ <=? _)%nat = true |- _ => apply Nat.leb_le in E end.
  split; [done|]. split; [lia|]. split; [lia|done].
Qed.

(** A certificate names an issuer one block of the chain attests.  Every
    issuer the check lets through is valid for certificates and in this
    provider's own scope, and its registration is the one a single block, still
    in the chain under its hash when the reads were over, names in the registry,
    in the provider's service and in its key binding, while the provider is
    active. *)
Theorem issuer_is_attested sc appID w iss w' :
  SealIssuer_of sc appID w = (Ok iss, w') ->
  validate_issuer iss = Ok tt /\ is_AppID iss = appID /\ sc_chainID sc = Some (is_ChainID iss) /\ is_RegistryAddress iss = sc_tappAddr sc /\
  exists block hash, (exists c, (n_Header None c).1 = Ok (block, hash)) /\ attests sc appID block (is_RegisteredAt iss) /\
    (exists c number, (n_Header (Some block) c).1 = Ok (number, hash)) /\ exists c, (n_ChainID c).1 = Ok (is_ChainID iss).
Proof.
  unfold SealIssuer_of. intros (n & w1 & En & E)%bind_Ok. injection E as <- <-. cbn.
  pose proof (sealed_instance_scope _ _ _ _ _ En) as (Hc & Ht & Hl & Hu).
  apply sealed_instance_attested in En as (_ & Hn & block & hash & Hh & Hat & Hre & Hid).
  apply positive_uint64_Some in Hc as (id & Eid & Hpos). rewrite Eid in *. cbn [from_option] in *. unfold Datatypes.id in *.
  split; [|by repeat (split; [done|]); exists block, hash].
  unfold validate_issuer. cbn [is_ChainID is_RegistryAddress is_RegisteredAt is_AppID]. rewrite Hu. rewrite (proj2 (Z.eqb_neq id 0)), (proj2 (Z.eqb_neq (sc_tappAddr sc) 0)), (proj2 (Z.eqb_neq n 0)) by lia. rewrite bool_decide_false by lia.
  by replace (256 <? String.length appID)%nat with false by (symmetry; apply Nat.ltb_ge; lia).
Qed.

End IssuerProperties.

(** ** A concrete chain *)

Module IssuerExamples.
Import Toy.

(** Two blocks with the given hashes: the state is the hash block 7 has now. *)
#[export] Instance chain_reads : BlockReads bytes := {|
  n_ChainID := fun c => (Ok 16601, c);
  n_Header := fun _ c => (Ok (7, c), c);
  b_TappRegistry := fun _ c => (Ok 4096, c);
  b_AppInfo := fun _ _ c => (Ok (Some 9, 5), c);
  b_ServiceAt := fun _ _ c => (Ok (mkService "u" "app" 60 60 1), c);
  b_KmsBindings := fun _ _ c => (Ok (Some 9, keccak256 (bytes_of_string "app")), c);
  b_ActiveAt := fun _ _ c => (Ok true, [2]);
  deadline := fun c => (Ok tt, c)
|}.

Definition scope0 : scope := mkScope (Some 16601) 4096 8192 true.

Definition stable : world bytes := mkWorld empty_redis [] false [] 1000 [2] [] [].

Definition reorged : world bytes := mkWorld empty_redis [] false [] 1000 [1] [] [].

Definition issuer1 : SealIssuer := mkIssuer 16601 4096 "app" 9.

Lemma stable_issuer : SealIssuer_of scope0 "app" stable = (Ok issuer1, stable).
Proof. vm_compute. reflexivity. Qed.

Lemma issuer_is_attested_witness :
  validate_issuer issuer1 = Ok tt /\ is_AppID issuer1 = "app" /\ sc_chainID scope0 = Some (is_ChainID issuer1) /\
  is_RegistryAddress issuer1 = sc_tappAddr scope0 /\
  exists block hash, (exists c, (n_Header None c).1 = Ok (block, hash)) /\ attests scope0 "app" block (is_RegisteredAt issuer1) /\
    (exists c number, (n_Header (Some block) c).1 = Ok (number, hash)) /\ exists c, (n_ChainID c).1 = Ok (is_ChainID issuer1).
Proof. exact (issuer_is_attested scope0 "app" stable issuer1 stable stable_issuer). Defined.

(** A block that changes its hash under the reads is refused. *)
Lemma reorg_is_refused : (SealIssuer_of scope0 "app" reorged).1 = Err (EMsg "sealed issuer block changed during lookup").
Proof. vm_compute. reflexivity. Qed.

End IssuerExamples.
