(* ===== verification/Serving.v ===== *)
(** * The settlement contract (contracts/src/SandboxServing.sol)

    The counterparty of the settler: prepaid balances per user and provider,
    refunds behind a time lock, settlement of signed vouchers, earnings, service
    registration and the pin of KMS providers.  A call is a transaction of the
    monad [tx]; a revert or a checked-arithmetic panic discards its effects.
    TappRegistry is a class over the rest of the chain.  The recipient of a
    [call{value:}] is an argument ([receiver]): what it does to the whole chain
    before it returns, calls back into the contract included, and whether it
    accepts. *)

From S2P Require Import Prelude Hex Bytes Crypto Voucher ChainTypes Chain.

(** ** The world outside the contract *)

(** [getAppInfo(appId)], the two fields the contract uses. *)
Record AppInfo := mkAppInfo { ai_owner : addr; ai_registeredAt : Z }.

(** TappRegistry at an address; a call may revert. [t_addedAt] is
    [getNode(appId, signer).addedAt].
    [contracts/src/SandboxServing.sol:7-25 ITappRegistry] *)
Class TappRegistry (R : Type) := {
  t_getAppInfo : addr -> string -> R -> res AppInfo;
  t_addedAt : addr -> string -> addr -> R -> res Z;
  t_isAcknowledged : addr -> addr -> string -> R -> res bool;
  t_isAuthorizedInvalidator : addr -> string -> addr -> R -> res bool;
  t_invalidateAcks : addr -> addr -> string -> R -> res R
}.

(** The precompile: digest, V, R, S; zero when there is no such signer. *)
Class Ecrecover := ecrecover : bytes -> Z -> bytes -> bytes -> addr.

(** The precompile recovers what [crypto.Sign] signed. *)
Class EcrecoverLaws `{Ecdsa} `{Ecrecover} := {
  ecrecover_sign : forall k d rs v, ecdsa_sign k d = Ok (rs ++ [v]) ->
    ecrecover d (v + 27) (take 32 rs) (drop 32 rs) = key_addr k
}.

(** ** Data *)

(** [contracts/src/SandboxServing.sol:125-132 SandboxVoucher] *)
Record SolVoucher := mkSolVoucher {
  v_user : addr; v_provider : addr; v_totalFee : Z; v_usageHash : bytes; v_nonce : Z; v_signature : bytes
}.

(** [contracts/src/SandboxServing.sol:120-123 KmsBinding] *)
Record KmsBinding := mkKmsBinding { kb_epoch : Z; kb_appIdHash : bytes }.

(** [contracts/src/SandboxServing.sol:169-186 events] *)
Inductive Event :=
| Deposited (recipient provider sender : addr) (amount : Z)
| RefundRequested (user provider : addr) (amount unlockAt : Z)
| RefundWithdrawn (user provider : addr) (amount : Z)
| VoucherSettled (user provider : addr) (totalFee : Z) (usageHash : bytes) (nonce : Z) (status : SettlementStatus)
| EarningsWithdrawn (provider to : addr) (amount : Z)
| ServiceUpdated (provider : addr) (appId url : string)
| ServiceRemoved (provider appOwner : addr)
| KmsProviderBound (provider : addr) (appId : string) (endorsingNode : addr) (epoch : Z)
| KmsProviderRepinned (provider : addr) (previousEpoch epoch : Z)
| OwnershipTransferred (previousOwner newOwner : addr)
| TappRegistryUpdated (previousRegistry newRegistry : addr).

(** A [mapping(address => uint256)] of an [Account] is a map by user and
    provider; an absent key reads as the zero value.
    [contracts/src/SandboxServing.sol:145-162 SandboxServing] *)
Record Serving := mkServing {
  s_locked : bool;
  s_initialized : bool;
  s_balances : gmap (addr * addr) Z;
  s_pendingRefunds : gmap (addr * addr) Z;
  s_refundUnlockAts : gmap (addr * addr) Z;
  s_lastNonce : gmap (addr * addr) Z;
  s_services : gmap addr Service;
  s_serviceExists : gset addr;
  s_providerEarnings : gmap addr Z;
  s_domainSeparator : bytes;
  s_owner : addr;
  s_tappRegistry : addr;
  s_kmsBindings : gmap addr KmsBinding
}.

Definition at0 {K} `{Countable K} (m : gmap K Z) (k : K) : Z := default 0 (m !! k).

Definition no_service : Service := mkService EmptyString EmptyString 0 0 0.
Definition no_binding : KmsBinding := mkKmsBinding 0 (replicate 32 0).

Definition service_of (s : Serving) (p : addr) : Service := default no_service (s_services s !! p).
Definition binding_of (s : Serving) (p : addr) : KmsBinding := default no_binding (s_kmsBindings s !! p).

Definition balance (s : Serving) (u p : addr) : Z := at0 (s_balances s) (u, p).
Definition pending (s : Serving) (u p : addr) : Z := at0 (s_pendingRefunds s) (u, p).
Definition unlock_at (s : Serving) (u p : addr) : Z := at0 (s_refundUnlockAts s) (u, p).
Definition last_nonce (s : Serving) (u p : addr) : Z := at0 (s_lastNonce s) (u, p).
Definition earnings (s : Serving) (p : addr) : Z := at0 (s_providerEarnings s) p.

(** The storage of a fresh proxy. *)
Definition blank : Serving :=
  mkServing false false ∅ ∅ ∅ ∅ ∅ ∅ ∅ (replicate 32 0) 0 0 ∅.

(** *** Storage writes *)

Definition set_locked (b : bool) (s : Serving) : Serving :=
  mkServing b (s_initialized s) (s_balances s) (s_pendingRefunds s) (s_refundUnlockAts s) (s_lastNonce s) (s_services s)
    (s_serviceExists s) (s_providerEarnings s) (s_domainSeparator s) (s_owner s) (s_tappRegistry s) (s_kmsBindings s).

Definition set_balance (u p : addr) (v : Z) (s : Serving) : Serving :=
  mkServing (s_locked s) (s_initialized s) (<[(u, p) := v]> (s_balances s)) (s_pendingRefunds s) (s_refundUnlockAts s)
    (s_lastNonce s) (s_services s) (s_serviceExists s) (s_providerEarnings s) (s_domainSeparator s) (s_owner s)
    (s_tappRegistry s) (s_kmsBindings s).

Definition set_pending (u p : addr) (v : Z) (s : Serving) : Serving :=
  mkServing (s_locked s) (s_initialized s) (s_balances s) (<[(u, p) := v]> (s_pendingRefunds s)) (s_refundUnlockAts s)
    (s_lastNonce s) (s_services s) (s_serviceExists s) (s_providerEarnings s) (s_domainSeparator s) (s_owner s)
    (s_tappRegistry s) (s_kmsBindings s).

Definition set_unlock (u p : addr) (v : Z) (s : Serving) : Serving :=
  mkServing (s_locked s) (s_initialized s) (s_balances s) (s_pendingRefunds s) (<[(u, p) := v]> (s_refundUnlockAts s))
    (s_lastNonce s) (s_services s) (s_serviceExists s) (s_providerEarnings s) (s_domainSeparator s) (s_owner s)
    (s_tappRegistry s) (s_kmsBindings s).

Definition set_last_nonce (u p : addr) (v : Z) (s : Serving) : Serving :=
  mkServing (s_locked s) (s_initialized s) (s_balances s) (s_pendingRefunds s) (s_refundUnlockAts s)
    (<[(u, p) := v]> (s_lastNonce s)) (s_services s) (s_serviceExists s) (s_providerEarnings s) (s_domainSeparator s)
    (s_owner s) (s_tappRegistry s) (s_kmsBindings s).

Definition set_earnings (p : addr) (v : Z) (s : Serving) : Serving :=
  mkServing (s_locked s) (s_initialized s) (s_balances s) (s_pendingRefunds s) (s_refundUnlockAts s) (s_lastNonce s)
    (s_services s) (s_serviceExists s) (<[p := v]> (s_providerEarnings s)) (s_domainSeparator s) (s_owner s)
    (s_tappRegistry s) (s_kmsBindings s).

(** [svc] with its existence flag; [None] is [delete] and [false]. *)
Definition set_service (p : addr) (svc : option Service) (s : Serving) : Serving :=
  mkServing (s_locked s) (s_initialized s) (s_balances s) (s_pendingRefunds s) (s_refundUnlockAts s) (s_lastNonce s)
    (partial_alter (fun _ => svc) p (s_services s))
    (match svc with Some _ => {[p]} ∪ s_serviceExists s | None => s_serviceExists s ∖ {[p]} end)
    (s_providerEarnings s) (s_domainSeparator s) (s_owner s) (s_tappRegistry s) (s_kmsBindings s).

Definition set_owner (a : addr) (s : Serving) : Serving :=
  mkServing (s_locked s) (s_initialized s) (s_balances s) (s_pendingRefunds s) (s_refundUnlockAts s) (s_lastNonce s)
    (s_services s) (s_serviceExists s) (s_providerEarnings s) (s_domainSeparator s) a (s_tappRegistry s) (s_kmsBindings s).

Definition set_registry (a : addr) (s : Serving) : Serving :=
  mkServing (s_locked s) (s_initialized s) (s_balances s) (s_pendingRefunds s) (s_refundUnlockAts s) (s_lastNonce s)
    (s_services s) (s_serviceExists s) (s_providerEarnings s) (s_domainSeparator s) (s_owner s) a (s_kmsBindings s).

Definition set_binding (p : addr) (b : KmsBinding) (s : Serving) : Serving :=
  mkServing (s_locked s) (s_initialized s) (s_balances s) (s_pendingRefunds s) (s_refundUnlockAts s) (s_lastNonce s)
    (s_services s) (s_serviceExists s) (s_providerEarnings s) (s_domainSeparator s) (s_owner s) (s_tappRegistry s)
    (<[p := b]> (s_kmsBindings s)).

(** The writes of [initialize]. *)
Definition set_initialized (sep : bytes) (ownr registry : addr) (s : Serving) : Serving :=
  mkServing (s_locked s) true (s_balances s) (s_pendingRefunds s) (s_refundUnlockAts s) (s_lastNonce s)
    (s_services s) (s_serviceExists s) (s_providerEarnings s) sep ownr registry (s_kmsBindings s).

(** ** Transactions *)

(** The contract's storage and ether, the rest of the chain, the log. *)
Record chain (R : Type) := mkChain { st : Serving; eth : Z; reg : R; evs : list Event }.
Arguments mkChain {R}.
Arguments st {R}.
Arguments eth {R}.
Arguments reg {R}.
Arguments evs {R}.

Definition tx (R A : Type) : Type := chain R -> res (A * chain R).

#[global] Instance tx_ret R : MRet (tx R) := fun A a w => Ok (a, w).
#[global] Instance tx_bind R : MBind (tx R) := fun A B k m w => res_bind (m w) (fun x => k x.1 x.2).

Record env := mkEnv { msg_sender : addr; msg_value : Z; block_timestamp : Z; chainid : Z; this : addr }.

(** What the recipient of a [call{value:}] does, and whether the call succeeds. *)
Record receiver (R : Type) := mkReceiver { does : chain R -> chain R; accepts : bool }.
Arguments mkReceiver {R}.
Arguments does {R}.
Arguments accepts {R}.

Section Primitives.
Context {R : Type}.

Definition revert {A} (s : string) : tx R A := fun _ => Err (EMsg s).
Definition require (b : bool) (s : string) : tx R unit := if b then mret () else revert s.
Definition sread {A} (f : Serving -> A) : tx R A := fun w => Ok (f (st w), w).
Definition swrite (f : Serving -> Serving) : tx R unit :=
  fun w => Ok ((), mkChain (f (st w)) (eth w) (reg w) (evs w)).
Definition emit (e : Event) : tx R unit := fun w => Ok ((), mkChain (st w) (eth w) (reg w) (evs w ++ [e])).

(** A view call to the registry. *)
Definition view {A} (f : R -> res A) : tx R A := fun w => res_bind (f (reg w)) (fun a => Ok (a, w)).

(** A call of the registry that changes it. *)
Definition registry_call (f : R -> res R) : tx R unit :=
  fun w => res_bind (f (reg w)) (fun r => Ok ((), mkChain (st w) (eth w) r (evs w))).

(** Checked arithmetic of uint256. *)
Definition add256 (a b : Z) : tx R Z := if a + b <? 2 ^ 256 then mret (a + b) else fun _ => Panic.
Definition sub256 (a b : Z) : tx R Z := if b <=? a then mret (a - b) else fun _ => Panic.

(** [(bool ok,) = msg.sender.call{value: amount}(""); require(ok, "transfer failed")]. *)
Definition pay (rx : receiver R) (amount : Z) : tx R unit := fun w =>
  if eth w <? amount then Err (EMsg "transfer failed")
  else
    let w' := does rx (mkChain (st w) (eth w - amount) (reg w) (evs w)) in
    if accepts rx then Ok ((), w') else Err (EMsg "transfer failed").

(** [contracts/src/SandboxServing.sol:195-200 nonReentrant] *)
Definition nonReentrant {A} (body : tx R A) : tx R A :=
  locked ← sread s_locked;
  require (negb locked) "reentrant";;
  swrite (set_locked true);;
  x ← body;
  swrite (set_locked false);;
  mret x.

End Primitives.

(** ** Signatures *)

Section Digests.
Context `{Keccak} `{Ecrecover}.

(** [contracts/src/SandboxServing.sol:90-92 VOUCHER_TYPEHASH] *)
Definition VOUCHER_TYPEHASH : bytes :=
  keccak256 (bytes_of_string
    "SandboxVoucher(address user,address provider,bytes32 usageHash,uint256 nonce,uint256 totalFee)").

(** [contracts/src/SandboxServing.sol:96-98 KMS_PROVIDER_TYPEHASH] *)
Definition KMS_PROVIDER_TYPEHASH : bytes :=
  keccak256 (bytes_of_string "KmsProvider(address provider,string appId)").

(** [abi.encode]: a 32-byte word per argument.
    [contracts/src/SandboxServing.sol:226-232 initialize] *)
Definition domain_separator_of (chain_id : Z) (self : addr) : bytes :=
  keccak256 (keccak256 (bytes_of_string
      "EIP712Domain(string name,string version,uint256 chainId,address verifyingContract)")
    ++ keccak256 (bytes_of_string "0G Sandbox Serving") ++ keccak256 (bytes_of_string "1")
    ++ be_bytes 32 chain_id ++ be_bytes 32 self).

(** [abi.encodePacked] of the prefix, the domain and the struct hash. *)
Definition typed_digest (sep structHash : bytes) : bytes := keccak256 (25 :: 1 :: sep ++ structHash).

(** [contracts/src/SandboxServing.sol:379-387 _verifySignature] *)
Definition voucher_digest (sep : bytes) (v : SolVoucher) : bytes :=
  typed_digest sep (keccak256 (VOUCHER_TYPEHASH ++ be_bytes 32 (v_user v) ++ be_bytes 32 (v_provider v)
    ++ v_usageHash v ++ be_bytes 32 (v_nonce v) ++ be_bytes 32 (v_totalFee v))).

(** [contracts/src/SandboxServing.sol:561-564 kmsProviderDigest] *)
Definition kmsProviderDigest (sep : bytes) (provider : addr) (appId : string) : bytes :=
  typed_digest sep (keccak256 (KMS_PROVIDER_TYPEHASH ++ be_bytes 32 provider ++ keccak256 (bytes_of_string appId))).

(** [contracts/src/SandboxServing.sol:409-422 _ecrecover] *)
Definition _ecrecover (digest sig : bytes) : addr :=
  if negb (bool_decide (length sig = 65%nat)) then 0
  else
    let r := take 32 sig in
    let s := take 32 (drop 32 sig) in
    let v := nth 64 sig 0 in
    let v := if v <? 27 then v + 27 else v in
    if negb ((v =? 27) || (v =? 28)) then 0 else ecrecover digest v r s.

(** The voucher is signed by its payee.
    [contracts/src/SandboxServing.sol:388-389 _verifySignature] *)
Definition payee_signed (sep : bytes) (v : SolVoucher) : bool :=
  let recovered := _ecrecover (voucher_digest sep v) (v_signature v) in
  negb ((recovered =? 0) || negb (recovered =? v_provider v)).

End Digests.

(** ** The contract *)

Section Contract.
Context `{Keccak} `{Ecrecover} {R : Type} `{TappRegistry R}.

(** [contracts/src/SandboxServing.sol:222-233 initialize] *)
Definition initialize (e : env) (tappRegistry_ : addr) : tx R unit :=
  done ← sread s_initialized;
  require (negb done) "already initialized";;
  require (negb (tappRegistry_ =? 0)) "zero tappRegistry";;
  swrite (set_initialized (domain_separator_of (chainid e) (this e)) (msg_sender e) tappRegistry_).

(** [contracts/src/SandboxServing.sol:238-242 deposit] *)
Definition deposit (e : env) (recipient provider : addr) : tx R unit :=
  require (0 <? msg_value e) "zero deposit";;
  b ← sread (fun s => balance s recipient provider);
  b ← add256 b (msg_value e);
  swrite (set_balance recipient provider b);;
  emit (Deposited recipient provider (msg_sender e) (msg_value e)).

(** [2 hours] in seconds. [contracts/src/SandboxServing.sol:87-87 LOCK_TIME] *)
Definition LOCK_TIME : Z := 7200.

(** [contracts/src/SandboxServing.sol:246-256 requestRefund] *)
Definition requestRefund (e : env) (provider : addr) (amount : Z) : tx R unit :=
  let user := msg_sender e in
  require (0 <? amount) "zero amount";;
  b ← sread (fun s => balance s user provider);
  p ← sread (fun s => pending s user provider);
  b ← add256 b p;
  swrite (set_balance user provider b);;
  require (amount <=? b) "insufficient balance";;
  b ← sub256 b amount;
  swrite (set_balance user provider b);;
  swrite (set_pending user provider amount);;
  t ← add256 (block_timestamp e) LOCK_TIME;
  swrite (set_unlock user provider t);;
  emit (RefundRequested user provider amount t).

(** [contracts/src/SandboxServing.sol:259-268 withdrawRefund] *)
Definition withdrawRefund (e : env) (rx : receiver R) (provider : addr) : tx R unit :=
  nonReentrant (
    let user := msg_sender e in
    amount ← sread (fun s => pending s user provider);
    require (0 <? amount) "no pending refund";;
    t ← sread (fun s => unlock_at s user provider);
    require (t <=? block_timestamp e) "refund locked";;
    swrite (set_pending user provider 0);;
    pay rx amount;;
    emit (RefundWithdrawn user provider amount)).

(** *** Settlement *)

(** [contracts/src/SandboxServing.sol:289-293 ProviderCheck] *)
Record ProviderCheck := mkCheck { pc_provider : addr; pc_checked : bool; pc_valid : bool }.

Definition no_check : ProviderCheck := mkCheck 0 false false.

(** [contracts/src/SandboxServing.sol:401-407 _providerKeyValid] *)
Definition _providerKeyValid (provider : addr) (appId : string) : tx R bool :=
  registry ← sread s_tappRegistry;
  epoch ← sread (fun s => kb_epoch (binding_of s provider));
  if negb (epoch =? 0) then
    info ← view (t_getAppInfo registry appId);
    mret (ai_registeredAt info =? epoch)
  else
    at_ ← view (t_addedAt registry appId provider);
    mret (negb (at_ =? 0)).

(** [contracts/src/SandboxServing.sol:374-396 _verifySignature] *)
Definition _verifySignature (v : SolVoucher) (appId : string) (check : ProviderCheck) : tx R (bool * ProviderCheck) :=
  sep ← sread s_domainSeparator;
  if negb (payee_signed sep v) then mret (false, check)
  else if negb (pc_checked check) || negb (pc_provider check =? v_provider v) then
    valid ← _providerKeyValid (v_provider v) appId;
    mret (valid, mkCheck (v_provider v) true valid)
  else mret (pc_valid check, check).

(** The checks that [_settleOne] and [_previewOne] share: the status of a
    voucher refused, [None] for one to charge.
    [contracts/src/SandboxServing.sol:296-312 _settleOne] *)
Definition refused (v : SolVoucher) (check : ProviderCheck) : tx R (option SettlementStatus * ProviderCheck) :=
  exists_ ← sread (fun s => bool_decide (v_provider v ∈ s_serviceExists s));
  if negb exists_ then mret (Some StatusProviderMismatch, check)
  else
    appId ← sread (fun s => sv_AppId (service_of s (v_provider v)));
    registry ← sread s_tappRegistry;
    ack ← view (t_isAcknowledged registry (v_user v) appId);
    if negb ack then mret (Some StatusNotAcknowledged, check)
    else
      last ← sread (fun s => last_nonce s (v_user v) (v_provider v));
      if v_nonce v <=? last then mret (Some StatusInvalidNonce, check)
      else
        '(ok, check) ← _verifySignature v appId check;
        if negb (ok : bool) then mret (Some StatusInvalidSignature, check) else mret (None, check).

(** [contracts/src/SandboxServing.sol:314-333 _settleOne] *)
Definition charge (v : SolVoucher) : tx R SettlementStatus :=
  let u := v_user v in
  let p := v_provider v in
  swrite (set_last_nonce u p (v_nonce v));;
  b ← sread (fun s => balance s u p);
  if v_totalFee v <=? b then
    b ← sub256 b (v_totalFee v);
    swrite (set_balance u p b);;
    earned ← sread (fun s => earnings s p);
    earned ← add256 earned (v_totalFee v);
    swrite (set_earnings p earned);;
    pend ← sread (fun s => pending s u p);
    (if b <? pend then swrite (set_pending u p b) else mret ());;
    emit (VoucherSettled u p (v_totalFee v) (v_usageHash v) (v_nonce v) StatusSuccess);;
    mret StatusSuccess
  else
    pend ← sread (fun s => pending s u p);
    paid ← add256 b pend;
    swrite (set_balance u p 0);;
    swrite (set_pending u p 0);;
    earned ← sread (fun s => earnings s p);
    earned ← add256 earned paid;
    swrite (set_earnings p earned);;
    emit (VoucherSettled u p (v_totalFee v) (v_usageHash v) (v_nonce v) StatusInsufficientBalance);;
    mret StatusInsufficientBalance.

(** [contracts/src/SandboxServing.sol:295-334 _settleOne] *)
Definition _settleOne (v : SolVoucher) (check : ProviderCheck) : tx R (SettlementStatus * ProviderCheck) :=
  '(no, check) ← refused v check;
  match no with
  | Some status => mret (status, check)
  | None => status ← charge v; mret (status, check)
  end.

(** [contracts/src/SandboxServing.sol:278-282 settleFeesWithTEE] *)
Fixpoint settle_all (vs : list SolVoucher) (check : ProviderCheck) : tx R (list SettlementStatus) :=
  match vs with
  | [] => mret []
  | v :: vs =>
      '(status, check) ← _settleOne v check;
      statuses ← settle_all vs check;
      mret (status :: statuses)
  end.

(** [contracts/src/SandboxServing.sol:273-283 settleFeesWithTEE] *)
Definition settleFeesWithTEE (vouchers : list SolVoucher) : tx R (list SettlementStatus) :=
  nonReentrant (settle_all vouchers no_check).

(** [contracts/src/SandboxServing.sol:349-368 _previewOne] *)
Definition _previewOne (v : SolVoucher) (check : ProviderCheck) : tx R (SettlementStatus * ProviderCheck) :=
  '(no, check) ← refused v check;
  match no with
  | Some status => mret (status, check)
  | None =>
      b ← sread (fun s => balance s (v_user v) (v_provider v));
      mret (if v_totalFee v <=? b then StatusSuccess else StatusInsufficientBalance, check)
  end.

(** [contracts/src/SandboxServing.sol:342-346 previewSettlementResults] *)
Fixpoint preview_all (vs : list SolVoucher) (check : ProviderCheck) : tx R (list SettlementStatus) :=
  match vs with
  | [] => mret []
  | v :: vs =>
      '(status, check) ← _previewOne v check;
      statuses ← preview_all vs check;
      mret (status :: statuses)
  end.

(** [contracts/src/SandboxServing.sol:337-347 previewSettlementResults] *)
Definition previewSettlementResults (vouchers : list SolVoucher) : tx R (list SettlementStatus) :=
  preview_all vouchers no_check.

(** *** Earnings *)

(** [contracts/src/SandboxServing.sol:445-452 _isAppOwnerOf] *)
Definition _isAppOwnerOf (provider caller : addr) : tx R bool :=
  appId ← sread (fun s => sv_AppId (service_of s provider));
  if bool_decide (appId = EmptyString) then mret false
  else
    registry ← sread s_tappRegistry;
    info ← view (t_getAppInfo registry appId);
    epoch ← sread (fun s => kb_epoch (binding_of s provider));
    mret (negb (negb (epoch =? 0) && negb (ai_registeredAt info =? epoch)) && (ai_owner info =? caller)).

(** [contracts/src/SandboxServing.sol:430-438 withdrawEarnings] *)
Definition withdrawEarnings (e : env) (rx : receiver R) (signer : addr) : tx R unit :=
  nonReentrant (
    ok ← _isAppOwnerOf signer (msg_sender e);
    require ok "not app owner";;
    amount ← sread (fun s => earnings s signer);
    require (0 <? amount) "no earnings";;
    swrite (set_earnings signer 0);;
    pay rx amount;;
    emit (EarningsWithdrawn signer (msg_sender e) amount)).

(** *** Administration *)

(** [contracts/src/SandboxServing.sol:190-193 onlyOwner] *)
Definition onlyOwner {A} (e : env) (body : tx R A) : tx R A :=
  o ← sread s_owner;
  require (msg_sender e =? o) "not owner";;
  body.

(** [contracts/src/SandboxServing.sol:457-461 transferOwnership] *)
Definition transferOwnership (e : env) (newOwner : addr) : tx R unit :=
  onlyOwner e (
    require (negb (newOwner =? 0)) "zero address";;
    old ← sread s_owner;
    emit (OwnershipTransferred old newOwner);;
    swrite (set_owner newOwner)).

(** [contracts/src/SandboxServing.sol:466-470 setTappRegistry] *)
Definition setTappRegistry (e : env) (newRegistry : addr) : tx R unit :=
  onlyOwner e (
    require (negb (newRegistry =? 0)) "zero tappRegistry";;
    old ← sread s_tappRegistry;
    emit (TappRegistryUpdated old newRegistry);;
    swrite (set_registry newRegistry)).

(** [contracts/src/SandboxServing.sol:477-485 repinKmsProvider] *)
Definition repinKmsProvider (e : env) (provider : addr) : tx R unit :=
  onlyOwner e (
    b ← sread (fun s => binding_of s provider);
    require (negb (kb_epoch b =? 0)) "not a kms provider";;
    exists_ ← sread (fun s => bool_decide (provider ∈ s_serviceExists s));
    require exists_ "no service";;
    registry ← sread s_tappRegistry;
    appId ← sread (fun s => sv_AppId (service_of s provider));
    info ← view (t_getAppInfo registry appId);
    let epoch := ai_registeredAt info in
    require (negb (epoch =? 0)) "app not registered";;
    emit (KmsProviderRepinned provider (kb_epoch b) epoch);;
    swrite (set_binding provider (mkKmsBinding epoch (kb_appIdHash b)))).

(** *** Services *)

(** [keccak256(bytes(appId))]. *)
Definition app_hash (appId : string) : bytes := keccak256 (bytes_of_string appId).

(** A service's commercial terms, in the argument order of the calls. *)
Record terms := mkTerms { tm_url : string; tm_pricePerCPUPerMin : Z; tm_createFee : Z; tm_pricePerMemGBPerMin : Z }.

(** [contracts/src/SandboxServing.sol:592-596 _upsertService] *)
Definition prices_changed (svc : Service) (t : terms) : bool :=
  negb (sv_PricePerCPUPerMin svc =? tm_pricePerCPUPerMin t)
  || negb (sv_PricePerMemGBPerMin svc =? tm_pricePerMemGBPerMin t)
  || negb (sv_CreateFee svc =? tm_createFee t).

(** [contracts/src/SandboxServing.sol:568-609 _upsertService] *)
Definition _upsertService (e : env) (signer : addr) (appId : string) (t : terms) : tx R unit :=
  registry ← sread s_tappRegistry;
  authorized ← view (t_isAuthorizedInvalidator registry appId (this e));
  require authorized "sandbox not authorized as invalidator";;
  svc ← sread (fun s => service_of s signer);
  let isNew := bool_decide (sv_AppId svc = EmptyString) in
  require (isNew || bool_decide (app_hash (sv_AppId svc) = app_hash appId)) "appId immutable; remove to change";;
  let kept := if isNew then appId else sv_AppId svc in
  swrite (set_service signer
    (Some (mkService (tm_url t) kept (tm_pricePerCPUPerMin t) (tm_pricePerMemGBPerMin t) (tm_createFee t))));;
  (if negb isNew && prices_changed svc t then registry_call (t_invalidateAcks registry (this e) appId) else mret ());;
  emit (ServiceUpdated signer appId (tm_url t)).

(** [contracts/src/SandboxServing.sol:502-514 addOrUpdateService] *)
Definition addOrUpdateService (e : env) (signer : addr) (appId : string) (t : terms) : tx R unit :=
  registry ← sread s_tappRegistry;
  info ← view (t_getAppInfo registry appId);
  require (ai_owner info =? msg_sender e) "not app owner";;
  epoch ← sread (fun s => kb_epoch (binding_of s signer));
  require (epoch =? 0) "kms provider; use addOrUpdateKmsService";;
  at_ ← view (t_addedAt registry appId signer);
  require (negb (at_ =? 0)) "signer not an active node";;
  _upsertService e signer appId t.

(** The endorsing node, the zero address when there is none.
    [contracts/src/SandboxServing.sol:540-540 addOrUpdateKmsService] *)
Definition endorsing_node (provider : addr) (appId : string) (endorsement : bytes) : tx R addr :=
  sep ← sread s_domainSeparator;
  mret (_ecrecover (kmsProviderDigest sep provider appId) endorsement).

(** [contracts/src/SandboxServing.sol:546-555 addOrUpdateKmsService] *)
Definition bind_kms (provider : addr) (appId : string) (node : addr) (registeredAt : Z) : tx R unit :=
  b ← sread (fun s => binding_of s provider);
  if kb_epoch b =? 0 then
    exists_ ← sread (fun s => bool_decide (provider ∈ s_serviceExists s));
    require (negb exists_) "node-signer service; remove it first";;
    swrite (set_binding provider (mkKmsBinding registeredAt (app_hash appId)));;
    emit (KmsProviderBound provider appId node registeredAt)
  else
    require (bool_decide (kb_appIdHash b = app_hash appId)) "kms provider bound to another app";;
    require (kb_epoch b =? registeredAt) "app re-registered since the provider was bound".

(** [contracts/src/SandboxServing.sol:527-557 addOrUpdateKmsService] *)
Definition addOrUpdateKmsService (e : env) (provider : addr) (appId : string) (t : terms) (endorsement : bytes) : tx R unit :=
  registry ← sread s_tappRegistry;
  info ← view (t_getAppInfo registry appId);
  require (ai_owner info =? msg_sender e) "not app owner";;
  require (negb (ai_registeredAt info =? 0)) "app not registered";;
  node ← endorsing_node provider appId endorsement;
  active ← (if node =? 0 then mret false
            else at_ ← view (t_addedAt registry appId node); mret (negb (at_ =? 0)));
  require active "endorsement not from an active node";;
  bind_kms provider appId node (ai_registeredAt info);;
  _upsertService e provider appId t.

(** [contracts/src/SandboxServing.sol:623-638 removeService] *)
Definition removeService (e : env) (rx : receiver R) (signer : addr) : tx R unit :=
  nonReentrant (
    exists_ ← sread (fun s => bool_decide (signer ∈ s_serviceExists s));
    require exists_ "no service to remove";;
    ok ← _isAppOwnerOf signer (msg_sender e);
    require ok "not app owner";;
    amount ← sread (fun s => earnings s signer);
    swrite (set_earnings signer 0);;
    swrite (set_service signer None);;
    (if 0 <? amount then pay rx amount;; emit (EarningsWithdrawn signer (msg_sender e) amount) else mret ());;
    emit (ServiceRemoved signer (msg_sender e))).

(** *** Views *)

(** [contracts/src/SandboxServing.sol:642-649 getBalance] *)
Definition getBalance (user provider : addr) : tx R (Z * Z * Z) :=
  sread (fun s => (balance s user provider, pending s user provider, unlock_at s user provider)).

(** [contracts/src/SandboxServing.sol:651-660 balanceOfBatch] *)
Definition balanceOfBatch (users : list addr) (provider : addr) : tx R (list Z) :=
  sread (fun s => (fun u => balance s u provider) <$> users).

(** [contracts/src/SandboxServing.sol:662-664 getLastNonce] *)
Definition getLastNonce (user provider : addr) : tx R Z := sread (fun s => last_nonce s user provider).

(** [contracts/src/SandboxServing.sol:666-668 getProviderEarnings] *)
Definition getProviderEarnings (provider : addr) : tx R Z := sread (fun s => earnings s provider).

(** [contracts/src/SandboxServing.sol:672-676 isTEEAcknowledged] *)
Definition isTEEAcknowledged (user provider : addr) : tx R bool :=
  appId ← sread (fun s => sv_AppId (service_of s provider));
  if bool_decide (appId = EmptyString) then mret false
  else registry ← sread s_tappRegistry; view (t_isAcknowledged registry user appId).

(** [contracts/src/SandboxServing.sol:682-685 isActiveProvider] *)
Definition isActiveProvider (provider : addr) : tx R bool :=
  exists_ ← sread (fun s => bool_decide (provider ∈ s_serviceExists s));
  if negb exists_ then mret false
  else appId ← sread (fun s => sv_AppId (service_of s provider)); _providerKeyValid provider appId.

(** ** Calls from outside *)

(** The state-changing entry points. *)
Inductive entry :=
| EInitialize (tappRegistry_ : addr)
| EDeposit (recipient provider : addr)
| ERequestRefund (provider : addr) (amount : Z)
| EWithdrawRefund (provider : addr)
| ESettleFeesWithTEE (vouchers : list SolVoucher)
| EWithdrawEarnings (signer : addr)
| ETransferOwnership (newOwner : addr)
| ESetTappRegistry (newRegistry : addr)
| ERepinKmsProvider (provider : addr)
| EAddOrUpdateService (signer : addr) (appId : string) (t : terms)
| EAddOrUpdateKmsService (provider : addr) (appId : string) (t : terms) (endorsement : bytes)
| ERemoveService (signer : addr).

Definition payable (c : entry) : bool := match c with EDeposit _ _ => true | _ => false end.

Definition enter (e : env) (rx : receiver R) (c : entry) : tx R unit :=
  match c with
  | EInitialize r => initialize e r
  | EDeposit u p => deposit e u p
  | ERequestRefund p a => requestRefund e p a
  | EWithdrawRefund p => withdrawRefund e rx p
  | ESettleFeesWithTEE vs => settleFeesWithTEE vs;; mret ()
  | EWithdrawEarnings p => withdrawEarnings e rx p
  | ETransferOwnership a => transferOwnership e a
  | ESetTappRegistry a => setTappRegistry e a
  | ERepinKmsProvider p => repinKmsProvider e p
  | EAddOrUpdateService p a t => addOrUpdateService e p a t
  | EAddOrUpdateKmsService p a t sig => addOrUpdateKmsService e p a t sig
  | ERemoveService p => removeService e rx p
  end.

Definition uint256_ok (z : Z) : bool := (0 <=? z) && (z <? 2 ^ 256).
Definition address_ok (a : addr) : bool := (0 <=? a) && (a <? 2 ^ 160).
Definition terms_ok (t : terms) : bool :=
  uint256_ok (tm_pricePerCPUPerMin t) && uint256_ok (tm_createFee t) && uint256_ok (tm_pricePerMemGBPerMin t).
Definition voucher_ok (v : SolVoucher) : bool :=
  address_ok (v_user v) && address_ok (v_provider v) && uint256_ok (v_totalFee v) && uint256_ok (v_nonce v)
  && bool_decide (length (v_usageHash v) = 32%nat).

(** The arguments are values of their Solidity types. *)
Definition typed (c : entry) : bool :=
  match c with
  | EInitialize a | EWithdrawRefund a | EWithdrawEarnings a | ETransferOwnership a | ESetTappRegistry a
  | ERepinKmsProvider a | ERemoveService a => address_ok a
  | EDeposit u p => address_ok u && address_ok p
  | ERequestRefund p a => address_ok p && uint256_ok a
  | ESettleFeesWithTEE vs => forallb voucher_ok vs
  | EAddOrUpdateService p _ t => address_ok p && terms_ok t
  | EAddOrUpdateKmsService p _ t _ => address_ok p && terms_ok t
  end.

(** A message call.  Calldata decodes to values of the argument types; a
    non-payable function refuses ether; a call that does not return leaves
    nothing behind. *)
Definition message (e : env) (rx : receiver R) (c : entry) (w : chain R) : chain R :=
  if negb (typed c) || (negb (payable c) && negb (msg_value e =? 0)) then w
  else match enter e rx c (mkChain (st w) (eth w + msg_value e) (reg w) (evs w)) with
       | Ok (_, w') => w'
       | _ => w
       end.

(** What happens on the chain: a call of the contract, with what its sender does
    when it is paid; ether forced on the contract; anything elsewhere. *)
Inductive act :=
| Call (e : env) (c : entry) (during : list act) (ok : bool)
| Forced (amount : Z)
| Elsewhere (f : R -> R).

Fixpoint exec (a : act) (w : chain R) : chain R :=
  match a with
  | Call e c during ok =>
      message e (mkReceiver (fun w => (fix go l w := match l with [] => w | a :: l => go l (exec a w) end) during w) ok) c w
  | Forced amount => mkChain (st w) (eth w + Z.max 0 amount) (reg w) (evs w)
  | Elsewhere f => mkChain (st w) (eth w) (f (reg w)) (evs w)
  end.

Definition run (l : list act) (w : chain R) : chain R := foldl (fun w a => exec a w) w l.

End Contract.

#[global] Arguments Call {R}.
#[global] Arguments Forced {R}.
#[global] Arguments Elsewhere {R}.

(** ** Reasoning about transactions *)

(** A call that returned ran each of its steps. *)
Lemma tx_bind_inv {R A B} (m : tx R A) (k : A -> tx R B) w b w' :
  (m ≫= k) w = Ok (b, w') <-> exists a w1, m w = Ok (a, w1) /\ k a w1 = Ok (b, w').
Proof.
  unfold mbind, tx_bind. split.
  - destruct (m w) as [[a w1]|e|] eqn:E; cbn; [|done|done]. by exists a, w1.
  - intros (a & w1 & -> & E). exact E.
Qed.

Lemma require_inv {R} b s (w : chain R) x w' : require b s w = Ok (x, w') -> b = true /\ w' = w.
Proof. unfold require. destruct b; [|done]. intros [= _ <-]. done. Qed.

Lemma swrite_inv {R} f (w : chain R) x w' : swrite f w = Ok (x, w') -> w' = mkChain (f (st w)) (eth w) (reg w) (evs w).
Proof. by intros [= _ <-]. Qed.

Lemma emit_inv {R} ev (w : chain R) x w' : emit ev w = Ok (x, w') -> w' = mkChain (st w) (eth w) (reg w) (evs w ++ [ev]).
Proof. by intros [= _ <-]. Qed.

Lemma mret_inv {R A} (a : A) (w : chain R) x w' : (mret a : tx R A) w = Ok (x, w') -> x = a /\ w' = w.
Proof. by intros [= <- <-]. Qed.

Lemma view_inv {R A} (f : R -> res A) (w : chain R) a w' : view f w = Ok (a, w') -> f (reg w) = Ok a /\ w' = w.
Proof. unfold view. destruct (f (reg w)); [|done|done]. intros [= <- <-]. done. Qed.

Lemma registry_call_inv {R} (f : R -> res R) (w : chain R) x w' :
  registry_call f w = Ok (x, w') -> exists r, f (reg w) = Ok r /\ w' = mkChain (st w) (eth w) r (evs w).
Proof. unfold registry_call. destruct (f (reg w)) as [r| |]; [|done|done]. intros [= _ <-]. by exists r. Qed.

Lemma add256_inv {R} a b (w : chain R) x w' : add256 a b w = Ok (x, w') -> x = a + b /\ a + b < 2 ^ 256 /\ w' = w.
Proof. unfold add256. case_match_eq; [|done]. intros [= <- <-]. zbool. done. Qed.

Lemma sub256_inv {R} a b (w : chain R) x w' : sub256 a b w = Ok (x, w') -> x = a - b /\ b <= a /\ w' = w.
Proof. unfold sub256. case_match_eq; [|done]. intros [= <- <-]. zbool. done. Qed.

(** What a transfer leaves: what the recipient made of the chain without the ether. *)
Lemma pay_inv {R} (rx : receiver R) amount w x w' :
  pay rx amount w = Ok (x, w') ->
  accepts rx = true /\ amount <= eth w /\ w' = does rx (mkChain (st w) (eth w - amount) (reg w) (evs w)).
Proof. unfold pay. case_match_eq; [done|]. case_match_eq; [|done]. intros [= _ <-]. zbool. done. Qed.

Lemma nonReentrant_inv {R A} (body : tx R A) w a w' :
  nonReentrant body w = Ok (a, w') ->
  s_locked (st w) = false /\ exists w1,
    body (mkChain (set_locked true (st w)) (eth w) (reg w) (evs w)) = Ok (a, w1) /\
    w' = mkChain (set_locked false (st w1)) (eth w1) (reg w1) (evs w1).
Proof.
  unfold nonReentrant. intros (l & w1 & [= <- <-] & E)%tx_bind_inv.
  apply tx_bind_inv in E as (? & ? & [Hl ->]%require_inv & E). apply negb_true_iff in Hl. split; [done|].
  apply tx_bind_inv in E as (? & ? & [= <- <-] & E). apply tx_bind_inv in E as (a' & w1 & Hb & E).
  apply tx_bind_inv in E as (? & ? & [= <- <-] & E). injection E as <- <-. by exists w1.
Qed.

(** Splits a hypothesis that a call returned into its steps. *)
Ltac tx_run H :=
  lazymatch type of H with
  | mbind _ _ _ = Ok _ => let E := fresh "E" in apply tx_bind_inv in H as (? & ? & E & H); tx_run E; tx_run H
  | require _ _ _ = Ok _ => apply require_inv in H as [H ->]
  | view _ _ = Ok _ => let E := fresh "E" in apply view_inv in H as [E ->]
  | registry_call _ _ = Ok _ => let E := fresh "E" in apply registry_call_inv in H as (? & E & ->)
  | (let '(_, _) := ?p in _) _ = Ok _ => destruct p; cbn beta iota in H; tx_run H
  | (if ?b then _ else _) _ = Ok _ => let E := fresh "E" in destruct b eqn:E; tx_run H
  | add256 _ _ _ = Ok _ => let E := fresh "E" in apply add256_inv in H as (-> & E & ->)
  | sub256 _ _ _ = Ok _ => let E := fresh "E" in apply sub256_inv in H as (-> & E & ->)
  | pay _ _ _ = Ok _ => let E := fresh "E" in let E' := fresh "E" in apply pay_inv in H as (E & E' & ->)
  | nonReentrant _ _ = Ok _ => let E := fresh "E" in apply nonReentrant_inv in H as (E & ? & H & ->); tx_run H
  | sread _ _ = Ok _ => injection H as <- <-
  | swrite _ _ = Ok _ => apply swrite_inv in H as ->
  | emit _ _ = Ok _ => apply emit_inv in H as ->
  | mret _ _ = Ok _ =>
      let E := fresh "E" in apply mret_inv in H as [E ->]; try (match type of E with ?x = _ => is_var x; subst x end)
  | revert _ _ = Ok _ => discriminate H
  | _ => idtac
  end.

(** Reads a storage through the writes made to it. *)
Ltac storage :=
  unfold balance, pending, unlock_at, last_nonce, earnings, service_of, binding_of in *;
  cbn [st eth reg evs s_locked s_initialized s_balances s_pendingRefunds s_refundUnlockAts s_lastNonce s_services
       s_serviceExists s_providerEarnings s_domainSeparator s_owner s_tappRegistry s_kmsBindings set_locked
       set_balance set_pending set_unlock set_last_nonce set_earnings set_service set_owner set_registry
       set_binding set_initialized] in *.

(** ** Running transactions forward *)

Section Forward.
Context {R : Type}.
Implicit Types (w : chain R).

Lemma tx_bind_eq {A B} (m : tx R A) (f : A -> tx R B) w : (m ≫= f) w = res_bind (m w) (fun x => f x.1 x.2).
Proof. done. Qed.

Lemma sread_bind {A B} (f : Serving -> A) (g : A -> tx R B) w : (sread f ≫= g) w = g (f (st w)) w.
Proof. done. Qed.

Lemma view_bind {A B} (f : R -> res A) (g : A -> tx R B) w : (view f ≫= g) w = res_bind (f (reg w)) (fun a => g a w).
Proof. unfold mbind, tx_bind, view. by destruct (f (reg w)). Qed.

Lemma mret_bind {A B} (a : A) (g : A -> tx R B) w : (mret a ≫= g) w = g a w.
Proof. done. Qed.

Lemma swrite_bind {B} f (g : unit -> tx R B) w : (swrite f ≫= g) w = g () (mkChain (f (st w)) (eth w) (reg w) (evs w)).
Proof. done. Qed.

Lemma emit_bind {B} ev (g : unit -> tx R B) w : (emit ev ≫= g) w = g () (mkChain (st w) (eth w) (reg w) (evs w ++ [ev])).
Proof. done. Qed.

Lemma require_bind {B} b s (g : unit -> tx R B) w : b = true -> (require b s ≫= g) w = g () w.
Proof. by intros ->. Qed.

Lemma add256_bind {B} a b (g : Z -> tx R B) w : a + b < 2 ^ 256 -> (add256 a b ≫= g) w = g (a + b) w.
Proof. intros Hab. unfold add256. destruct (Z.ltb_spec (a + b) (2 ^ 256)); [done|lia]. Qed.

Lemma sub256_bind {B} a b (g : Z -> tx R B) w : b <= a -> (sub256 a b ≫= g) w = g (a - b) w.
Proof. intros Hab. unfold sub256. by rewrite (proj2 (Z.leb_le b a) Hab). Qed.

Lemma nonReentrant_run {A} (body : tx R A) w a w1 :
  s_locked (st w) = false -> body (mkChain (set_locked true (st w)) (eth w) (reg w) (evs w)) = Ok (a, w1) ->
  nonReentrant body w = Ok (a, mkChain (set_locked false (st w1)) (eth w1) (reg w1) (evs w1)).
Proof.
  intros Hl Hb. unfold nonReentrant. rewrite sread_bind, Hl, require_bind, swrite_bind by done. by rewrite tx_bind_eq, Hb.
Qed.

Lemma pay_bind {B} (rx : receiver R) x (g : unit -> tx R B) w :
  accepts rx = true -> x <= eth w -> (pay rx x ≫= g) w = g () (does rx (mkChain (st w) (eth w - x) (reg w) (evs w))).
Proof. intros Ha Hx. unfold pay. rewrite tx_bind_eq, Ha. by rewrite (proj2 (Z.ltb_ge (eth w) x) Hx). Qed.
End Forward.

(** One step of a transaction whose steps return. *)
Ltac tx_go :=
  repeat first [rewrite sread_bind | rewrite mret_bind | rewrite swrite_bind | rewrite emit_bind
    | rewrite sub256_bind by (storage; lia) | rewrite add256_bind by (storage; lia)]; cbn [st eth reg evs].
