(* ===== verification/Solvency.v ===== *)
(** * The settlement contract keeps its users' money

    Over every sequence of calls, with recipients that call back into the
    contract while they are paid: the contract can always pay what it owes,
    each nonce is charged once, and only a user's own calls and vouchers signed
    by the payee move what the user has with it. *)

From S2P Require Import Prelude Hex Bytes Crypto Voucher ChainTypes Chain Serving.

(** ** Totals *)

Definition total {K} `{Countable K} (m : gmap K Z) : Z := zsum snd (map_to_list m).

(** What the contract owes: balances, pending refunds, earnings. *)
Definition liabilities (s : Serving) : Z :=
  total (s_balances s) + total (s_pendingRefunds s) + total (s_providerEarnings s).

Section Totals.
Context {K : Type} `{Countable K}.
Implicit Types (m : gmap K Z) (k : K).

Lemma total_insert_fresh m k v : m !! k = None -> total (<[k := v]> m) = v + total m.
Proof. intros Hk. unfold total. rewrite (zsum_Permutation _ _ _ (map_to_list_insert m k v Hk)). by rewrite zsum_cons. Qed.

Lemma total_insert m k v : total (<[k := v]> m) = total m - at0 m k + v.
Proof.
  unfold at0. destruct (m !! k) as [x|] eqn:E; cbn [default from_option]; unfold Datatypes.id.
  - rewrite <- (insert_delete_id m k x E) at 2. rewrite <- insert_delete_eq.
    rewrite !total_insert_fresh by apply lookup_delete_eq. lia.
  - rewrite total_insert_fresh by done. lia.
Qed.

Lemma at0_insert m k v k' : at0 (<[k := v]> m) k' = if decide (k = k') then v else at0 m k'.
Proof. unfold at0. case_decide as E; [subst; by rewrite lookup_insert_eq|by rewrite lookup_insert_ne]. Qed.

Definition nonneg m : Prop := forall k, 0 <= at0 m k.

Lemma nonneg_empty : nonneg ∅.
Proof. intros k. unfold at0. by rewrite lookup_empty. Qed.

Lemma nonneg_insert m k v : nonneg m -> 0 <= v -> nonneg (<[k := v]> m).
Proof. intros Hm Hv k'. rewrite at0_insert. case_decide; [done|apply Hm]. Qed.

Lemma at0_le_total m k : nonneg m -> at0 m k <= total m.
Proof.
  intros Hm. unfold at0. destruct (m !! k) as [x|] eqn:E; cbn [default from_option]; unfold Datatypes.id.
  - rewrite <- (insert_delete_id m k x E). rewrite total_insert_fresh by apply lookup_delete_eq.
    enough (0 <= total (delete k m)) by lia. apply zsum_nonneg, Forall_forall. intros [k' v] Hin%elem_of_map_to_list.
    cbn. specialize (Hm k'). unfold at0 in Hm. rewrite lookup_delete_Some in Hin. destruct Hin as [_ Hin]. by rewrite Hin in Hm.
  - apply zsum_nonneg, Forall_forall. intros [k' v] Hin%elem_of_map_to_list. cbn. specialize (Hm k'). unfold at0 in Hm.
    by rewrite Hin in Hm.
Qed.
End Totals.

(** ** Induction over what happens *)

(** One thing that happens: a call of the contract, or a change of the rest of
    the chain. *)
Inductive step (R : Type) := SCall (e : env) (c : entry) | SElse (f : R -> R).
Arguments SCall {R}.
Arguments SElse {R}.

(** Everything an act consists of, what recipients do while they are paid
    included. *)
Fixpoint steps_of {R} (a : act) : list (step R) :=
  match a with
  | Call e c during _ => SCall e c :: (fix go (l : list (@act R)) := match l with [] => [] | a :: l => steps_of a ++ go l end) during
  | Forced _ => []
  | Elsewhere f => [SElse f]
  end.

Definition all_steps {R} (l : list (@act R)) : list (step R) := concat (steps_of <$> l).

Section Trace.
Context `{Keccak} `{Ecrecover} {R : Type} `{TappRegistry R}.

(** A reflexive and transitive relation that each call keeps, whatever its
    recipient does that keeps it too, holds across whole traces. *)
Section TraceInd.
Variable S : chain R -> chain R -> Prop.
Variable P : step R -> Prop.
Hypothesis S_refl : forall w, S w w.
Hypothesis S_trans : forall w1 w2 w3, S w1 w2 -> S w2 w3 -> S w1 w3.
Hypothesis S_call : forall e c rx w, P (SCall e c) -> (forall w, S w (does rx w)) -> S w (message e rx c w).
Hypothesis S_forced : forall n w, S w (exec (Forced n) w).
Hypothesis S_else : forall f w, P (SElse f) -> S w (exec (Elsewhere f) w).

Lemma exec_keeps : forall a w, Forall P (steps_of a) -> S w (exec a w).
Proof.
  fix IH 1. intros a w. destruct a as [e c during ok|n|f]; [|intros _; apply S_forced|intros Hp; apply S_else; by inversion_clear Hp].
  cbn [steps_of exec]. intros Hp. inversion_clear Hp as [|? ? Hc Hd]. apply S_call; [done|]. cbn [does].
  revert Hd. induction during as [|b l IHl]; intros Hd w'; [apply S_refl|].
  apply Forall_app in Hd as [Hb Hl]. eapply S_trans; [apply (IH b w' Hb)|apply IHl, Hl].
Qed.

Lemma run_keeps l : forall w, Forall P (all_steps l) -> S w (run l w).
Proof.
  induction l as [|a l IHl]; intros w Hp; [apply S_refl|]. apply Forall_app in Hp as [Ha Hl].
  eapply S_trans; [by apply exec_keeps|by apply IHl].
Qed.
End TraceInd.

(** A call either changes nothing or returned. *)
Lemma message_cases e rx c (w : chain R) :
  message e rx c w = w \/
  (typed c = true /\ (payable c = true \/ msg_value e = 0) /\
   enter e rx c (mkChain (st w) (eth w + msg_value e) (reg w) (evs w)) = Ok ((), message e rx c w)).
Proof.
  unfold message. destruct (negb (typed c) || _) eqn:Eg; [by left|]. apply orb_false_iff in Eg as [Et Ep].
  destruct (enter _ _ _ _) as [[[] w']|err|] eqn:E; [right|by left|by left]. zbool.
  split; [done|]. split; [|done]. apply andb_false_iff in Ep as [Ep|Ep]; zbool; [by left|by right].
Qed.

(** ** Settlement as a function of the storage *)

Definition verdict (v : SolVoucher) (s : Serving) : SettlementStatus :=
  if v_totalFee v <=? balance s (v_user v) (v_provider v) then StatusSuccess else StatusInsufficientBalance.

(** The storage after a charge. *)
Definition charged (v : SolVoucher) (s : Serving) : Serving :=
  let u := v_user v in
  let p := v_provider v in
  let s1 := set_last_nonce u p (v_nonce v) s in
  let b := balance s u p in
  if v_totalFee v <=? b then
    let s2 := set_earnings p (earnings s p + v_totalFee v) (set_balance u p (b - v_totalFee v) s1) in
    if b - v_totalFee v <? pending s u p then set_pending u p (b - v_totalFee v) s2 else s2
  else set_earnings p (earnings s p + (b + pending s u p)) (set_pending u p 0 (set_balance u p 0 s1)).

Definition charge_effect (v : SolVoucher) (w : chain R) : chain R :=
  mkChain (charged v (st w)) (eth w) (reg w)
    (evs w ++ [VoucherSettled (v_user v) (v_provider v) (v_totalFee v) (v_usageHash v) (v_nonce v) (verdict v (st w))]).

Lemma charge_spec v (w : chain R) x w' :
  charge v w = Ok (x, w') -> x = verdict v (st w) /\ w' = charge_effect v w.
Proof.
  intros Hc. unfold charge in Hc. unfold charge_effect, charged, verdict.
  tx_run Hc; storage; repeat match goal with E : (_ <=? _) = _ |- _ => rewrite E; clear E | E : (_ <? _) = _ |- _ => rewrite E; clear E end;
    done.
Qed.

(** What a charged voucher passed. *)
Record passes (v : SolVoucher) (w : chain R) : Prop := {
  passes_exists : v_provider v ∈ s_serviceExists (st w);
  passes_ack : t_isAcknowledged (s_tappRegistry (st w)) (v_user v) (sv_AppId (service_of (st w) (v_provider v))) (reg w) = Ok true;
  passes_nonce : last_nonce (st w) (v_user v) (v_provider v) < v_nonce v;
  passes_signed : payee_signed (s_domainSeparator (st w)) v = true
}.

Lemma key_valid_pure p a (w : chain R) x w' : _providerKeyValid p a w = Ok (x, w') -> w' = w.
Proof. intros Hk. unfold _providerKeyValid in Hk. by tx_run Hk. Qed.

Lemma verify_pure v a k (w : chain R) x w' :
  _verifySignature v a k w = Ok (x, w') -> w' = w /\ (x.1 = true -> payee_signed (s_domainSeparator (st w)) v = true).
Proof.
  intros Hv. unfold _verifySignature in Hv. tx_run Hv; zbool; try done.
  match goal with E : _providerKeyValid _ _ _ = _ |- _ => by apply key_valid_pure in E end.
Qed.

Lemma refused_spec v k (w : chain R) x w' :
  refused v k w = Ok (x, w') -> w' = w /\ (x.1 = None -> passes v w).
Proof.
  intros Hr. unfold refused in Hr. tx_run Hr; try done.
  all: match goal with E : _verifySignature _ _ _ _ = _ |- _ => apply verify_pure in E as [-> Hs] end; try done.
  zbool. split; [done|]. intros _. split; [done|congruence|lia|by apply Hs].
Qed.

Lemma settle_one_spec v k (w : chain R) x w' :
  _settleOne v k w = Ok (x, w') -> w' = w \/ (passes v w /\ w' = charge_effect v w).
Proof.
  intros Hs. unfold _settleOne in Hs. apply tx_bind_inv in Hs as ([[no|] k'] & w0 & [-> Hp]%refused_spec & Hs).
  - tx_run Hs. by left.
  - apply tx_bind_inv in Hs as (s & w2 & [-> ->]%charge_spec & Hs). tx_run Hs. right. split; [by apply Hp|done].
Qed.

Lemma settle_all_keeps (S : chain R -> chain R -> Prop) vs :
  (forall w, S w w) -> (forall w1 w2 w3, S w1 w2 -> S w2 w3 -> S w1 w3) ->
  (forall v w, v ∈ vs -> passes v w -> S w (charge_effect v w)) ->
  forall k w x w', settle_all vs k w = Ok (x, w') -> S w w'.
Proof.
  intros Hr Ht. induction vs as [|v vs IH]; intros Hc k w x w' Hs; cbn [settle_all] in Hs.
  - by tx_run Hs.
  - apply tx_bind_inv in Hs as ([status k'] & wa & H1' & Hs). apply tx_bind_inv in Hs as (rest & wb & H2' & Hs).
    tx_run Hs. eapply Ht; [|eapply IH; [|exact H2']].
    + apply settle_one_spec in H1' as [->|[Hp ->]]; [apply Hr|apply Hc; [left|done]].
    + intros v' w1 Hv. apply Hc. by right.
Qed.

(** ** Entry points that move no money *)

Definition moves_money (c : entry) : bool :=
  match c with
  | EDeposit _ _ | ERequestRefund _ _ | EWithdrawRefund _ | ESettleFeesWithTEE _ | EWithdrawEarnings _ | ERemoveService _ => true
  | _ => false
  end.

(** Two storages agree on money and nonces. *)
Record same_money (s s' : Serving) : Prop := {
  same_balances : s_balances s' = s_balances s;
  same_pending : s_pendingRefunds s' = s_pendingRefunds s;
  same_unlock : s_refundUnlockAts s' = s_refundUnlockAts s;
  same_nonces : s_lastNonce s' = s_lastNonce s;
  same_earnings : s_providerEarnings s' = s_providerEarnings s;
  same_locked : s_locked s' = s_locked s
}.

Definition settlement (ev : Event) : bool := match ev with VoucherSettled _ _ _ _ _ _ => true | _ => false end.

(** ... and the chain only grew by events that are not settlements. *)
Record idle (w w' : chain R) : Prop := {
  idle_money : same_money (st w) (st w');
  idle_eth : eth w' = eth w;
  idle_log : exists l, evs w' = evs w ++ l /\ Forall (fun ev => settlement ev = false) l
}.

Lemma idle_refl w : idle w w.
Proof. split; [by split|done|]. exists []. by rewrite app_nil_r. Qed.

Lemma upsert_idle e p a t (w : chain R) x w' : _upsertService e p a t w = Ok (x, w') -> idle w w'.
Proof.
  intros Hu. unfold _upsertService in Hu. tx_run Hu; split; try done; eexists; (split; [done|]; by repeat constructor).
Qed.

Lemma idle_trans w1 w2 w3 : idle w1 w2 -> idle w2 w3 -> idle w1 w3.
Proof.
  intros [M1 E1 (l1 & L1 & F1)] [M2 E2 (l2 & L2 & F2)]. split; [|congruence|].
  - destruct M1, M2. split; congruence.
  - exists (l1 ++ l2). rewrite L2, L1, app_assoc. split; [done|by apply Forall_app].
Qed.

Ltac idle_now := split; [by split|done|]; first [by exists []; rewrite app_nil_r | eexists; split; [done|by repeat constructor]].

Lemma bind_kms_idle p a n t (w : chain R) x w' : bind_kms p a n t w = Ok (x, w') -> idle w w'.
Proof. intros Hb. unfold bind_kms in Hb. tx_run Hb; idle_now. Qed.

Lemma enter_idle e rx c (w : chain R) w' : moves_money c = false -> enter e rx c w = Ok ((), w') -> idle w w'.
Proof.
  intros Hm He. destruct c; try done; cbn [enter] in He;
    unfold initialize, transferOwnership, setTappRegistry, repinKmsProvider, addOrUpdateService, addOrUpdateKmsService,
      onlyOwner, endorsing_node in He; tx_run He; try idle_now; try (by eapply upsert_idle).
  all: eapply idle_trans; [by eapply bind_kms_idle|by eapply upsert_idle].
Qed.

(** ** Solvency *)

Record solvent (w : chain R) : Prop := {
  sv_balances : nonneg (s_balances (st w));
  sv_pending : nonneg (s_pendingRefunds (st w));
  sv_earnings : nonneg (s_providerEarnings (st w));
  sv_covered : liabilities (st w) <= eth w
}.

Lemma solvent_ext w w' : same_money (st w) (st w') -> eth w <= eth w' -> solvent w -> solvent w'.
Proof.
  intros [Eb Ep _ _ Ee _] He [B P E C]. unfold liabilities in C. split; unfold liabilities; rewrite ?Eb, ?Ep, ?Ee; done || lia.
Qed.

(** A charge moves what it takes to the earnings; the clipped part of a pending
    refund stays with the contract. *)
Lemma charged_liabilities v s :
  nonneg (s_balances s) -> nonneg (s_pendingRefunds s) ->
  liabilities (charged v s) = liabilities s - (if (v_totalFee v <=? balance s (v_user v) (v_provider v))
    then Z.max 0 (pending s (v_user v) (v_provider v) - (balance s (v_user v) (v_provider v) - v_totalFee v)) else 0).
Proof.
  intros Hb Hp. unfold charged, liabilities. destruct (_ <=? _) eqn:Eb; [destruct (_ <? _) eqn:Ep|];
    storage; zbool; rewrite !total_insert; lia.
Qed.

Lemma charged_nonneg v s :
  0 <= v_totalFee v -> nonneg (s_balances s) -> nonneg (s_pendingRefunds s) -> nonneg (s_providerEarnings s) ->
  nonneg (s_balances (charged v s)) /\ nonneg (s_pendingRefunds (charged v s)) /\ nonneg (s_providerEarnings (charged v s)).
Proof.
  intros Hv Hb Hp He. pose proof (Hb (v_user v, v_provider v)). pose proof (Hp (v_user v, v_provider v)).
  pose proof (He (v_provider v)). unfold charged. destruct (_ <=? _) eqn:Eb; [destruct (_ <? _) eqn:Ep|];
    storage; zbool; split_and!; try done; apply nonneg_insert; (done || lia).
Qed.

(** Ether nobody is owed. *)
Definition surplus (w : chain R) : Z := eth w - liabilities (st w).

(** Solvency is kept and nothing is paid out of the surplus. *)
Definition sound (w w' : chain R) : Prop := solvent w -> solvent w' /\ surplus w <= surplus w'.

Lemma sound_refl w : sound w w.
Proof. by intros Hw. Qed.

Lemma sound_trans w1 w2 w3 : sound w1 w2 -> sound w2 w3 -> sound w1 w3.
Proof. intros S1 S2 Hw. destruct (S1 Hw) as [H1' E1]. destruct (S2 H1') as [H2' E2]. split; [done|lia]. Qed.

Lemma sound_ext w w' : same_money (st w) (st w') -> eth w <= eth w' -> sound w w'.
Proof.
  intros Hm He Hw. split; [by eapply solvent_ext|]. destruct Hm as [Eb Ep _ _ Ee _].
  unfold surplus, liabilities. rewrite Eb, Ep, Ee. lia.
Qed.

Lemma charge_sound v w : 0 <= v_totalFee v -> sound w (charge_effect v w).
Proof.
  intros Hv [B P E C]. destruct (charged_nonneg v (st w) Hv B P E) as (B' & P' & E').
  pose proof (charged_liabilities v (st w) B P) as El.
  split; [split; cbn; try done|unfold surplus; cbn]; rewrite El; destruct (_ <=? _); lia.
Qed.

(** The totals and the signs of a storage after its writes. *)
Ltac totals := unfold surplus, liabilities in *; storage; rewrite ?insert_insert_eq, ?total_insert.

Ltac solve_sound :=
  repeat match goal with H : _ < 2 ^ 256 |- _ => clear H end;
  split; [split|]; totals; repeat apply nonneg_insert; try done; lia.

Section Receiver.
Variable rx : receiver R.
Hypothesis rx_sound : forall w, sound w (does rx w).

Lemma deposit_sound e u p w x w' :
  deposit e u p (mkChain (st w) (eth w + msg_value e) (reg w) (evs w)) = Ok (x, w') -> sound w w'.
Proof.
  intros He. unfold deposit in He. tx_run He. zbool. intros [HB HP HE HC]. pose proof (HB (u, p)).
  solve_sound.
Qed.

Lemma requestRefund_sound e p a w x w' : requestRefund e p a w = Ok (x, w') -> sound w w'.
Proof.
  intros He. unfold requestRefund in He. tx_run He. zbool. intros [HB HP HE HC].
  pose proof (HB (msg_sender e, p)). pose proof (HP (msg_sender e, p)). solve_sound.
Qed.

Lemma locked_sound b w : sound w (mkChain (set_locked b (st w)) (eth w) (reg w) (evs w)).
Proof. by intros [HB HP HE HC]. Qed.

Lemma settle_sound vs w x w' : forallb voucher_ok vs = true -> settleFeesWithTEE vs w = Ok (x, w') -> sound w w'.
Proof.
  intros Ht He. unfold settleFeesWithTEE in He. tx_run He.
  eapply sound_trans; [apply (locked_sound true)|]. eapply sound_trans; [|apply locked_sound].
  eapply (settle_all_keeps sound); [apply sound_refl|apply sound_trans| |exact He].
  intros v w1 Hv _. apply charge_sound. rewrite forallb_forall in Ht. apply list_elem_of_In, Ht in Hv.
  unfold voucher_ok, uint256_ok in Hv. by zbool.
Qed.

(** Paying a debt that was cleared first. *)
Lemma paid_sound w s x : sound w (mkChain s (eth w - x) (reg w) (evs w)) ->
  sound w (does rx (mkChain s (eth w - x) (reg w) (evs w))).
Proof. intros Hs. eapply sound_trans; [exact Hs|apply rx_sound]. Qed.

Lemma unlocked_sound w l : sound w (mkChain (set_locked false (st w)) (eth w) (reg w) (evs w ++ l)).
Proof. by intros [HB HP HE HC]. Qed.

Lemma withdrawRefund_sound e p w x w' : withdrawRefund e rx p w = Ok (x, w') -> sound w w'.
Proof.
  intros He. unfold withdrawRefund in He. tx_run He. zbool. cbn [st eth reg evs].
  eapply sound_trans; [|apply unlocked_sound]. apply paid_sound.
  intros [HB HP HE HC]. solve_sound.
Qed.

Lemma withdrawEarnings_sound e p w x w' : withdrawEarnings e rx p w = Ok (x, w') -> sound w w'.
Proof.
  intros He. unfold withdrawEarnings, _isAppOwnerOf in He. tx_run He; try done. zbool. cbn [st eth reg evs].
  eapply sound_trans; [|apply unlocked_sound]. apply paid_sound.
  intros [HB HP HE HC]. solve_sound.
Qed.

Lemma removeService_sound e p w x w' : removeService e rx p w = Ok (x, w') -> sound w w'.
Proof.
  intros He. unfold removeService, _isAppOwnerOf in He. tx_run He; try done; zbool; cbn [st eth reg evs].
  - rewrite <- app_assoc. eapply sound_trans; [|apply unlocked_sound]. apply paid_sound.
    intros [HB HP HE HC]. solve_sound.
  - intros [HB HP HE HC]. pose proof (HE p). solve_sound.
Qed.

Lemma enter_sound e c w w' :
  typed c = true -> (payable c = true \/ msg_value e = 0) ->
  enter e rx c (mkChain (st w) (eth w + msg_value e) (reg w) (evs w)) = Ok ((), w') -> sound w w'.
Proof.
  intros Ht Hp He. destruct (moves_money c) eqn:Em.
  2:{ apply enter_idle in He as [M E _]; [|done]. apply sound_ext; [by destruct M|]. rewrite E.
      cbn. destruct c, Hp; try done; lia. }
  destruct Hp as [Hp|Hp]; [destruct c; try done; by eapply deposit_sound|].
  rewrite Hp, Z.add_0_r in He. assert (sound (mkChain (st w) (eth w) (reg w) (evs w)) w') as Hs; [|by destruct w].
  destruct c; try done; cbn [enter] in He.
  - eapply deposit_sound. cbn. by rewrite Hp, Z.add_0_r.
  - by eapply requestRefund_sound.
  - by eapply withdrawRefund_sound.
  - apply tx_bind_inv in He as (x & w1 & He & [_ ->]%mret_inv). by eapply settle_sound.
  - by eapply withdrawEarnings_sound.
  - by eapply removeService_sound.
Qed.

End Receiver.

Lemma message_sound e c rx w : (forall w, sound w (does rx w)) -> sound w (message e rx c w).
Proof.
  intros Hrx. destruct (message_cases e rx c w) as [->|(Ht & Hp & He)]; [apply sound_refl|by eapply enter_sound].
Qed.

Lemma run_sound l w : sound w (run l w).
Proof.
  apply (run_keeps sound (fun _ => True)); [apply sound_refl|apply sound_trans| | | |by apply Forall_true].
  - intros e c rx w' _. apply message_sound.
  - intros n w'. apply sound_ext; [by split|]. cbn. lia.
  - intros f' w' _. apply sound_ext; [by split|]. cbn. lia.
Qed.

Lemma liabilities_blank : liabilities blank = 0.
Proof. reflexivity. Qed.

Lemma blank_solvent r e : 0 <= e -> solvent (mkChain blank e r []).
Proof. intros He. split; [exact nonneg_empty..|]. change (liabilities blank <= e). by rewrite liabilities_blank. Qed.

(** C2: the contract can always pay what it owes.  Whatever calls are made
    from its deployment on, by whom and in what order, including what the
    recipients of its payments do before they return, its ether covers all
    balances, pending refunds and earnings together, and none of the ether that
    nobody is owed is ever paid out. *)
Theorem always_solvent (l : list act) (r : R) (e : Z) :
  0 <= e -> let w := run l (mkChain blank e r []) in
  solvent w /\ liabilities (st w) <= eth w /\ e <= surplus w.
Proof.
  intros He. cbn zeta. destruct (run_sound l (mkChain blank e r []) (blank_solvent r e He)) as [Hs Hp].
  split; [done|]. split; [apply Hs|]. change (surplus (mkChain blank e r [])) with (e - liabilities blank) in Hp.
  rewrite liabilities_blank in Hp. lia.
Qed.
End Trace.
