(* ===== verification/Custody.v ===== *)
(** * Who can move money in the settlement contract

    A nonce is charged once; a user's money moves by the user's own calls and by
    vouchers its payee signed; a batch checks each provider's key as if alone;
    the pin keeps whoever registers an app anew from what a KMS provider holds;
    settlements and refunds go through. *)

From S2P Require Import Prelude Hex Bytes Crypto Voucher ChainTypes Chain Serving Solvency.

Section Custody.
Context `{Keccak} `{Ecrecover} {R : Type} `{TappRegistry R}.
Implicit Types (w : chain R).

(** ** Nonces *)

Definition settled_key (ev : Event) : option (addr * addr * Z) :=
  match ev with VoucherSettled u p _ _ n _ => Some (u, p, n) | _ => None end.

(** The charges of a log, by user, provider and nonce. *)
Definition settled_keys (l : list Event) : list (addr * addr * Z) := omap settled_key l.

Record once (w : chain R) : Prop := {
  once_nodup : NoDup (settled_keys (evs w));
  once_bound : forall u p n, (u, p, n) ∈ settled_keys (evs w) -> n <= last_nonce (st w) u p
}.

Lemma settled_keys_app l l' : settled_keys (l ++ l') = settled_keys l ++ settled_keys l'.
Proof. apply omap_app. Qed.

Lemma settled_keys_other l : Forall (fun ev => settlement ev = false) l -> settled_keys l = [].
Proof. induction 1 as [|ev l Hev _ IH]; [done|]. destruct ev; try done; exact IH. Qed.

(** Nothing was settled. *)
Lemma once_ext w w' l :
  s_lastNonce (st w') = s_lastNonce (st w) -> evs w' = evs w ++ l -> Forall (fun ev => settlement ev = false) l ->
  once w -> once w'.
Proof.
  intros Hn He Hl [Hd Hb].
  split; unfold last_nonce; rewrite ?Hn, He, settled_keys_app, (settled_keys_other l Hl), app_nil_r; [done|exact Hb].
Qed.

Lemma once_write w s e r l :
  s_lastNonce s = s_lastNonce (st w) -> Forall (fun ev => settlement ev = false) l ->
  once w -> once (mkChain s e r (evs w ++ l)).
Proof. intros Hs Hl. by apply once_ext with l. Qed.

Lemma once_unlock w l : Forall (fun ev => settlement ev = false) l ->
  once w -> once (mkChain (set_locked false (st w)) (eth w) (reg w) (evs w ++ l)).
Proof. intros Hl. by apply once_ext with l. Qed.

Lemma last_nonce_charged v s u p :
  last_nonce (charged v s) u p = if decide ((v_user v, v_provider v) = (u, p)) then v_nonce v else last_nonce s u p.
Proof. unfold charged. destruct (_ <=? _); [destruct (_ <? _)|]; storage; by rewrite at0_insert. Qed.

Lemma charge_once v w : passes v w -> once w -> once (charge_effect v w).
Proof.
  intros [_ _ Hn _] [Hd Hb]. split; unfold charge_effect; cbn [evs st]; rewrite settled_keys_app; cbn.
  - apply NoDup_app. split; [done|]. split; [|apply NoDup_singleton].
    intros [[u p] n] Hin Hin'%list_elem_of_singleton. injection Hin' as -> -> ->. apply Hb in Hin. lia.
  - intros u p n Hin. rewrite last_nonce_charged. apply elem_of_app in Hin as [Hin|Hin%list_elem_of_singleton].
    + apply Hb in Hin. case_decide as E; [|done]. injection E as <- <-. lia.
    + injection Hin as -> -> ->. by rewrite decide_True.
Qed.

Lemma message_once e c rx w :
  (forall w, once w -> once (does rx w)) -> once w -> once (message e rx c w).
Proof.
  intros Hrx Hw. destruct (message_cases e rx c w) as [->|(_ & _ & He)]; [done|].
  revert He. generalize (message e rx c w). intros w' He.
  assert (once (mkChain (st w) (eth w + msg_value e) (reg w) (evs w))) as Hw0 by (by destruct Hw).
  revert He Hw0. generalize (mkChain (st w) (eth w + msg_value e) (reg w) (evs w)). clear Hw. intros w0 He Hw.
  destruct (moves_money c) eqn:Em.
  2:{ apply enter_idle in He as [M _ (l & Hl & Hq)]; [|done]. by eapply once_ext; [apply M|exact Hl|exact Hq|]. }
  destruct c; try discriminate Em; cbn [enter] in He;
    unfold deposit, requestRefund, withdrawRefund, settleFeesWithTEE, withdrawEarnings, removeService, _isAppOwnerOf in He;
    tx_run He; try done; cbn [st eth reg evs]; rewrite <- ?app_assoc.
  - apply once_write; [done|by repeat constructor|done].
  - apply once_write; [done|by repeat constructor|done].
  - apply once_unlock; [by repeat constructor|]. apply Hrx. by destruct Hw.
  - match goal with E : settle_all _ _ _ = Ok (_, ?w1) |- _ =>
      apply (once_ext w1 _ []); [done|by rewrite app_nil_r|constructor|];
      refine (settle_all_keeps (fun w w' => once w -> once w') _ _ _ _ _ _ _ _ E _); [auto|auto| |by destruct Hw] end.
    intros v w1 _. apply charge_once.
  - apply once_unlock; [by repeat constructor|]. apply Hrx. by destruct Hw.
  - apply once_unlock; [by repeat constructor|]. apply Hrx. by destruct Hw.
  - apply once_write; [done|by repeat constructor|done].
Qed.

Lemma run_once l w : once w -> once (run l w).
Proof.
  apply (run_keeps (fun w w' => once w -> once w') (fun _ => True)); [auto|auto| | | |by apply Forall_true].
  - intros e c rx w1 _. apply message_once.
  - intros n w1. by destruct 1.
  - intros g w1 _. by destruct 1.
Qed.

(** C3: a nonce is charged once.  Whatever is called in whatever order, also
    while payments are made, the log of a contract never holds two settlements
    with the same user, provider and nonce, and none above the nonce the
    contract has recorded: a charged voucher cannot be submitted again, nor
    after the service was removed and registered anew. *)
Theorem voucher_charged_once (l : list act) (r : R) (e : Z) :
  let w := run l (mkChain blank e r []) in
  NoDup (settled_keys (evs w)) /\
  forall u p n, (u, p, n) ∈ settled_keys (evs w) -> n <= last_nonce (st w) u p.
Proof.
  cbn zeta. destruct (run_once l (mkChain blank e r [])) as [Hd Hb]; [|done].
  split; [constructor|]. intros u p n Hin. by apply elem_of_nil in Hin.
Qed.

(** ** A user's money *)

Definition vouchers_of (c : entry) : list SolVoucher := match c with ESettleFeesWithTEE vs => vs | _ => [] end.

(** A call that neither comes from [u] nor carries a voucher of [u] signed by [p]. *)
Definition foreign (u p : addr) (sep : bytes) (x : step R) : Prop :=
  match x with
  | SCall e c =>
      msg_sender e <> u /\
      forall v, v ∈ vouchers_of c -> v_user v = u -> v_provider v = p -> payee_signed sep v = false
  | SElse _ => True
  end.

(** What [u] has with [p] is intact: only its balance may have grown. *)
Record held (u p : addr) (s s' : Serving) : Prop := {
  held_balance : balance s u p <= balance s' u p;
  held_pending : pending s' u p = pending s u p;
  held_unlock : unlock_at s' u p = unlock_at s u p;
  held_nonce : last_nonce s' u p = last_nonce s u p
}.

Lemma held_refl u p s : held u p s s.
Proof. by split. Qed.

Lemma held_trans u p s1 s2 s3 : held u p s1 s2 -> held u p s2 s3 -> held u p s1 s3.
Proof. intros [] []. split; [lia|congruence..]. Qed.

Lemma held_same u p s s' : same_money s s' -> held u p s s'.
Proof. intros [Eb Ep Eu En _ _]. split; unfold balance, pending, unlock_at, last_nonce; rewrite ?Eb, ?Ep, ?Eu, ?En; done. Qed.

(** Initialization happens once, so the domain stays. *)
Definition fixed (sep : bytes) (s : Serving) : Prop := s_initialized s = true /\ s_domainSeparator s = sep.

Definition safe (u p : addr) (sep : bytes) (w w' : chain R) : Prop :=
  fixed sep (st w) -> fixed sep (st w') /\ held u p (st w) (st w').

Lemma safe_refl u p sep w : safe u p sep w w.
Proof. intros Hf. split; [done|apply held_refl]. Qed.

Lemma safe_trans u p sep w1 w2 w3 : safe u p sep w1 w2 -> safe u p sep w2 w3 -> safe u p sep w1 w3.
Proof.
  intros S1 S2 Hf. destruct (S1 Hf) as [F1 M1]. destruct (S2 F1) as [F2 M2].
  split; [done|by eapply held_trans].
Qed.

Lemma upsert_fixed sep e p a t w x w' :
  _upsertService e p a t w = Ok (x, w') -> fixed sep (st w) -> fixed sep (st w').
Proof. intros Hu. unfold _upsertService in Hu. by tx_run Hu. Qed.

Lemma bind_fixed sep p a n t w x w' : bind_kms p a n t w = Ok (x, w') -> fixed sep (st w) -> fixed sep (st w').
Proof. intros Hb. unfold bind_kms in Hb. by tx_run Hb. Qed.

Lemma enter_fixed sep e rx c w w' :
  moves_money c = false -> enter e rx c w = Ok ((), w') -> fixed sep (st w) -> fixed sep (st w').
Proof.
  intros Hm He Hf. destruct c; try done; cbn [enter] in He;
    unfold initialize, transferOwnership, setTappRegistry, repinKmsProvider, addOrUpdateService, addOrUpdateKmsService,
      onlyOwner, endorsing_node in He; tx_run He; try done; try (by eapply upsert_fixed);
    try (by eapply upsert_fixed; [|eapply bind_fixed]).
  destruct Hf as [Hi _]. by rewrite Hi in E.
Qed.

Lemma charged_held u p v s : (v_user v, v_provider v) <> (u, p) -> held u p s (charged v s).
Proof.
  intros Hne. unfold charged. destruct (_ <=? _); [destruct (_ <? _)|]; split; storage;
    rewrite ?at0_insert, ?decide_False by done; done.
Qed.

Lemma charged_fixed sep v s : fixed sep s -> fixed sep (charged v s).
Proof. unfold charged. by destruct (_ <=? _); [destruct (_ <? _)|]. Qed.

Section Foreign.
Variables (u p : addr) (sep : bytes) (rx : receiver R).
Hypothesis rx_safe : forall w, safe u p sep w (does rx w).

Lemma settle_safe vs k w x w' :
  (forall v, v ∈ vs -> v_user v = u -> v_provider v = p -> payee_signed sep v = false) ->
  settle_all vs k w = Ok (x, w') -> safe u p sep w w'.
Proof.
  intros Hvs. apply (settle_all_keeps (safe u p sep)); [apply safe_refl|apply safe_trans|].
  intros v w1 Hv [_ _ _ Hs] Hf. split; [by apply charged_fixed|]. apply charged_held. intros [= Eu Ep].
  destruct Hf as [_ Hd]. rewrite Hd in Hs. by rewrite Hvs in Hs.
Qed.

Ltac solve_held :=
  intros Hf; split; [exact Hf|]; split; storage; rewrite ?at0_insert; repeat case_decide; simplify_eq; zbool; (done || lia).

Lemma unlocked_safe w l : safe u p sep w (mkChain (set_locked false (st w)) (eth w) (reg w) (evs w ++ l)).
Proof. solve_held. Qed.

Lemma message_safe e c w : foreign u p sep (SCall e c) -> safe u p sep w (message e rx c w).
Proof.
  intros [Hu Hvs]. destruct (message_cases e rx c w) as [->|(_ & _ & He)]; [apply safe_refl|].
  revert He. generalize (message e rx c w). intros w' He.
  assert (safe u p sep w (mkChain (st w) (eth w + msg_value e) (reg w) (evs w))) as Hw0.
  { intros Hf. split; [done|apply held_refl]. }
  eapply safe_trans; [exact Hw0|]. clear Hw0.
  revert He. generalize (mkChain (st w) (eth w + msg_value e) (reg w) (evs w)). intros w0 He.
  destruct (moves_money c) eqn:Em.
  2:{ intros Hf. split; [by eapply enter_fixed|]. apply enter_idle in He as [M _ _]; [by apply held_same|done]. }
  destruct c; try discriminate Em; cbn [enter] in He;
    unfold deposit, requestRefund, withdrawRefund, settleFeesWithTEE, withdrawEarnings, removeService, _isAppOwnerOf in He;
    tx_run He; try done; cbn [st eth reg evs]; rewrite <- ?app_assoc;
    try (eapply safe_trans; [|apply unlocked_safe]; eapply safe_trans; [|apply rx_safe]); try solve_held.
  match goal with E : settle_all _ _ _ = Ok (_, ?w1) |- _ =>
    apply safe_trans with w1; [|solve_held]; apply settle_safe in E; [|done]; eapply safe_trans; [|exact E] end.
  solve_held.
Qed.
End Foreign.

(** C9: only the user and its payee move the user's money.  On an initialized
    contract, whatever others do: a run in which no call comes from [u] and no
    voucher of [u] for [p] carries [p]'s own signature leaves [u]'s pending
    refund, its unlock time and its nonce with [p] as they were, and its balance
    no smaller. *)
Theorem held_money_safe (l : list act) (w : chain R) (u p : addr) :
  s_initialized (st w) = true ->
  Forall (foreign u p (s_domainSeparator (st w))) (all_steps l) ->
  held u p (st w) (st (run l w)).
Proof.
  intros Hi Hl. apply (run_keeps (safe u p (s_domainSeparator (st w))) (foreign u p (s_domainSeparator (st w))));
    [apply safe_refl|apply safe_trans| | | |exact Hl|done].
  - intros e c rx w' Hf Hrx. by apply message_safe.
  - intros n w' Hf. split; [done|apply held_refl].
  - intros g w' _ Hf. split; [done|apply held_refl].
Qed.
End Custody.
