(* ===== verification/Batch.v ===== *)
(** * A settlement batch is its vouchers one by one

    [settleFeesWithTEE] keeps the verdict on the last provider's key across a
    batch.  The registry does not change during one, so this is the same as
    asking for every voucher; a preview asks the same questions and charges
    nothing.  From the reference definition follow the authority rules: what a
    charged voucher passed, who can take earnings, and what the pin of a KMS
    provider prevents. *)

From S2P Require Import Prelude Hex Bytes Crypto Voucher ChainTypes Chain Serving Solvency Custody.

Section Batch.
Context `{Keccak} `{Ecrecover} {R : Type} `{TappRegistry R}.
Implicit Types (w : chain R) (v : SolVoucher) (k : ProviderCheck).

(** ** The reference: each voucher on its own *)

Definition check_one (v : SolVoucher) : tx R (option SettlementStatus) :=
  exists_ ← sread (fun s => bool_decide (v_provider v ∈ s_serviceExists s));
  if negb exists_ then mret (Some StatusProviderMismatch)
  else
    appId ← sread (fun s => sv_AppId (service_of s (v_provider v)));
    registry ← sread s_tappRegistry;
    ack ← view (t_isAcknowledged registry (v_user v) appId);
    if negb ack then mret (Some StatusNotAcknowledged)
    else
      last ← sread (fun s => last_nonce s (v_user v) (v_provider v));
      if v_nonce v <=? last then mret (Some StatusInvalidNonce)
      else
        sep ← sread s_domainSeparator;
        if negb (payee_signed sep v) then mret (Some StatusInvalidSignature)
        else
          valid ← _providerKeyValid (v_provider v) appId;
          mret (if (valid : bool) then None else Some StatusInvalidSignature).

Fixpoint settle_each (vs : list SolVoucher) : tx R (list SettlementStatus) :=
  match vs with
  | [] => mret []
  | v :: vs =>
      no ← check_one v;
      status ← (match no with Some s => mret s | None => charge v end : tx R SettlementStatus);
      statuses ← settle_each vs;
      mret (status :: statuses)
  end.

Fixpoint preview_each (vs : list SolVoucher) : tx R (list SettlementStatus) :=
  match vs with
  | [] => mret []
  | v :: vs =>
      no ← check_one v;
      status ← (match no with Some s => mret s | None => sread (verdict v) end : tx R SettlementStatus);
      statuses ← preview_each vs;
      mret (status :: statuses)
  end.

(** ** The memo *)

(** What is remembered of a provider's key is what asking again would give. *)
Definition memo_ok (k : ProviderCheck) (w : chain R) : Prop :=
  pc_checked k = true ->
  _providerKeyValid (pc_provider k) (sv_AppId (service_of (st w) (pc_provider k))) w = Ok (pc_valid k, w).

Lemma no_check_ok w : memo_ok no_check w.
Proof. done. Qed.

(** [x] answers as [y] does, and remembers nothing wrong. *)
Definition follows (x : res ((option SettlementStatus * ProviderCheck) * chain R)) (y : res (option SettlementStatus * chain R)) (w : chain R) : Prop :=
  match y with
  | Ok (o, w1) => w1 = w /\ exists k, memo_ok k w /\ x = Ok ((o, k), w)
  | Err e => x = Err e
  | Panic => x = Panic
  end.

Lemma refused_follows v k w : memo_ok k w -> follows (refused v k w) (check_one v w) w.
Proof.
  intros Hk. unfold refused, check_one. rewrite !sread_bind.
  destruct (negb (bool_decide _)); [split; [done|by exists k]|].
  rewrite !sread_bind, !view_bind. destruct (t_isAcknowledged _ _ _ _) as [ack|err|]; cbn [res_bind]; [|done|done].
  destruct ack; cbn [negb]; [|split; [done|by exists k]].
  rewrite !sread_bind. destruct (_ <=? _); [split; [done|by exists k]|].
  rewrite tx_bind_eq. unfold _verifySignature. rewrite !sread_bind.
  destruct (payee_signed _ v); cbn [negb]; [|split; [done|by exists k]].
  destruct (negb (pc_checked k) || _) eqn:Ek.
  - rewrite !tx_bind_eq. destruct (_providerKeyValid _ _ _) as [[b w1]|err|] eqn:Ev; cbn [res_bind fst snd]; [|done|done].
    pose proof (key_valid_pure _ _ _ _ _ Ev) as ->. split; [done|]. exists (mkCheck (v_provider v) true b).
    split; [by intros _|by destruct b].
  - zbool. specialize (Hk ltac:(done)). replace (pc_provider k) with (v_provider v) in Hk by done.
    rewrite tx_bind_eq, Hk. cbn [res_bind fst snd]. split; [done|]. exists k. split; [|by destruct (pc_valid k)].
    intros _. by replace (pc_provider k) with (v_provider v).
Qed.

(** What the key check looks at is untouched by a charge. *)
Lemma key_valid_charged p a v w b :
  _providerKeyValid p a w = Ok (b, w) -> _providerKeyValid p a (charge_effect v w) = Ok (b, charge_effect v w).
Proof.
  assert (forall s, s_tappRegistry (charged v s) = s_tappRegistry s /\ s_kmsBindings (charged v s) = s_kmsBindings s) as Hs.
  { intros s. unfold charged. by destruct (_ <=? _); [destruct (_ <? _)|]. }
  unfold _providerKeyValid, binding_of. rewrite !sread_bind. cbn [st charge_effect].
  destruct (Hs (st w)) as [-> ->]. destruct (negb _); rewrite !view_bind; cbn [reg charge_effect];
    (match goal with |- res_bind ?x _ = _ -> _ => destruct x; cbn [res_bind]; [|done|done] end); by intros [= ->].
Qed.

Lemma services_charged v s : s_services (charged v s) = s_services s.
Proof. unfold charged. by destruct (_ <=? _); [destruct (_ <? _)|]. Qed.

Lemma memo_charged k v w : memo_ok k w -> memo_ok k (charge_effect v w).
Proof.
  intros Hk Hc. unfold service_of. cbn [st charge_effect]. rewrite services_charged. apply key_valid_charged, Hk, Hc.
Qed.

Lemma check_one_pure v w x w' : check_one v w = Ok (x, w') -> w' = w.
Proof.
  pose proof (refused_follows v no_check w (no_check_ok w)) as Hf. intros E. rewrite E in Hf. apply Hf.
Qed.

Lemma settle_all_each vs : forall k w, memo_ok k w -> settle_all vs k w = settle_each vs w.
Proof.
  induction vs as [|v vs IH]; intros k w Hk; [done|]. cbn [settle_all settle_each].
  rewrite !tx_bind_eq. unfold _settleOne. rewrite tx_bind_eq. pose proof (refused_follows v k w Hk) as Hf.
  destruct (check_one v w) as [[o w1]|err|]; cbn in Hf |- *; [|by rewrite Hf..].
  destruct Hf as (-> & k' & Hk' & ->). cbn [res_bind fst snd]. destruct o as [s|]; cbn [res_bind].
  - rewrite tx_bind_eq. cbn. by rewrite tx_bind_eq, (IH k' w Hk').
  - rewrite !tx_bind_eq. destruct (charge v w) as [[s w1]|err|] eqn:Ec; cbn [res_bind fst snd]; [|done|done].
    apply charge_spec in Ec as [-> ->]. cbn [res_bind mret tx_ret fst snd].
    by rewrite !tx_bind_eq, (IH k' _ (memo_charged _ _ _ Hk')).
Qed.

Lemma preview_all_each vs : forall k w, memo_ok k w -> preview_all vs k w = preview_each vs w.
Proof.
  induction vs as [|v vs IH]; intros k w Hk; [done|]. cbn [preview_all preview_each].
  rewrite !tx_bind_eq. unfold _previewOne. rewrite tx_bind_eq. pose proof (refused_follows v k w Hk) as Hf.
  destruct (check_one v w) as [[o w1]|err|]; cbn in Hf |- *; [|by rewrite Hf..].
  destruct Hf as (-> & k' & Hk' & ->). cbn [res_bind fst snd]. destruct o as [s|]; cbn [res_bind];
    rewrite !tx_bind_eq; cbn; by rewrite tx_bind_eq, (IH k' w Hk').
Qed.

(** C10: a batch checks every voucher on its own.  Settling a batch with the
    remembered key verdict gives the statuses, the storage, the log and the
    failures of asking the registry again for each voucher, and previewing one
    likewise. *)
Theorem batch_checks_each (vs : list SolVoucher) (w : chain R) :
  settle_all vs no_check w = settle_each vs w /\ previewSettlementResults vs w = preview_each vs w.
Proof. split; [apply settle_all_each, no_check_ok|apply preview_all_each, no_check_ok]. Qed.

(** ** What a charged voucher passed *)

Record chargeable (v : SolVoucher) (w : chain R) : Prop := {
  ch_passes : passes v w;
  ch_key : _providerKeyValid (v_provider v) (sv_AppId (service_of (st w) (v_provider v))) w = Ok (true, w)
}.

Lemma check_one_charge v w w' : check_one v w = Ok (None, w') -> chargeable v w.
Proof.
  intros Hc. unfold check_one in Hc. tx_run Hc; try done.
  match goal with E : None = (if ?b then _ else _) |- _ => destruct b; [clear E|done] end.
  match goal with E : _providerKeyValid _ _ _ = _ |- _ => pose proof (key_valid_pure _ _ _ _ _ E) as ->; rename E into Ek end.
  zbool. split; [|done]. split; [done|congruence|lia|done].
Qed.

Lemma check_one_complete v w : chargeable v w -> check_one v w = Ok (None, w).
Proof.
  intros [[Hx Ha Hn Hs] Hk]. unfold check_one. rewrite sread_bind, bool_decide_true by done. cbn [negb].
  rewrite !sread_bind, view_bind, Ha. cbn [res_bind negb]. rewrite sread_bind, (proj2 (Z.leb_gt _ _) Hn), sread_bind, Hs.
  cbn [negb]. by rewrite tx_bind_eq, Hk.
Qed.

Lemma check_one_stale v w :
  v_provider v ∈ s_serviceExists (st w) ->
  t_isAcknowledged (s_tappRegistry (st w)) (v_user v) (sv_AppId (service_of (st w) (v_provider v))) (reg w) = Ok true ->
  v_nonce v <= last_nonce (st w) (v_user v) (v_provider v) -> check_one v w = Ok (Some StatusInvalidNonce, w).
Proof.
  intros Hx Ha Hn. unfold check_one. rewrite sread_bind, bool_decide_true by done. cbn [negb].
  rewrite !sread_bind, view_bind, Ha. cbn [res_bind negb]. by rewrite sread_bind, (proj2 (Z.leb_le _ _) Hn).
Qed.

(** ** A batch leaves everything but money and nonces alone *)

(** Later in a batch: the same services, keys and registry, nonces no smaller. *)
Record later (w w' : chain R) : Prop := {
  later_services : s_services (st w') = s_services (st w);
  later_exists : s_serviceExists (st w') = s_serviceExists (st w);
  later_domain : s_domainSeparator (st w') = s_domainSeparator (st w);
  later_registry : s_tappRegistry (st w') = s_tappRegistry (st w);
  later_bindings : s_kmsBindings (st w') = s_kmsBindings (st w);
  later_reg : reg w' = reg w;
  later_nonce : forall u p, last_nonce (st w) u p <= last_nonce (st w') u p
}.

Lemma later_refl w : later w w.
Proof. by split. Qed.

Lemma later_trans w1 w2 w3 : later w1 w2 -> later w2 w3 -> later w1 w3.
Proof.
  intros [] []. split; try congruence. intros u p.
  match goal with H1' : forall u p, last_nonce (st w1) u p <= _, H2' : forall u p, last_nonce (st w2) u p <= _ |- _ =>
    specialize (H1' u p); specialize (H2' u p) end. lia.
Qed.

Lemma charge_later v w : last_nonce (st w) (v_user v) (v_provider v) < v_nonce v -> later w (charge_effect v w).
Proof.
  intros Hn. split; cbn [st reg charge_effect]; try done; try (unfold charged; by destruct (_ <=? _); [destruct (_ <? _)|]).
  intros u p. rewrite last_nonce_charged. case_decide as E; [injection E as <- <-; lia|lia].
Qed.

Lemma key_valid_later p a b w w' :
  later w w' -> _providerKeyValid p a w = Ok (b, w) -> _providerKeyValid p a w' = Ok (b, w').
Proof.
  intros [_ _ _ Er Eb Eg _]. unfold _providerKeyValid, binding_of. rewrite !sread_bind, Er, Eb.
  destruct (negb _); rewrite !view_bind, Eg;
    (match goal with |- res_bind ?x _ = _ -> _ => destruct x; cbn [res_bind]; [|done|done] end); by intros [= ->].
Qed.

(** A voucher refused stays refused for the rest of the batch. *)
Lemma refused_later v s w w' :
  later w w' -> check_one v w = Ok (Some s, w) -> exists s', check_one v w' = Ok (Some s', w').
Proof.
  intros Hl. pose proof Hl as [Es Ex Ed Er Eb Eg En]. unfold check_one.
  rewrite !sread_bind, Ex. destruct (negb (bool_decide _)); [by eexists|].
  rewrite !sread_bind, !view_bind. unfold service_of. rewrite Es, Er, Eg.
  destruct (t_isAcknowledged _ _ _ _) as [b| |]; cbn [res_bind]; [|done|done]. destruct b; cbn [negb]; [|by eexists].
  rewrite !sread_bind. specialize (En (v_user v) (v_provider v)).
  destruct (v_nonce v <=? last_nonce (st w) _ _) eqn:E1.
  { intros _. zbool. rewrite (proj2 (Z.leb_le _ _)) by lia. by eexists. }
  destruct (v_nonce v <=? last_nonce (st w') _ _); [by eexists|]. rewrite !sread_bind, Ed.
  destruct (payee_signed _ _); cbn [negb]; [|by eexists]. rewrite !tx_bind_eq.
  destruct (_providerKeyValid _ _ w) as [[b w1]| |] eqn:Ek; cbn [res_bind fst snd]; [|done|done].
  pose proof (key_valid_pure _ _ _ _ _ Ek) as ->. rewrite (key_valid_later _ _ _ _ _ Hl Ek). cbn [res_bind fst snd].
  destruct b; [done|]. by eexists.
Qed.

Lemma settle_each_keeps (S : chain R -> chain R -> Prop) vs :
  (forall w, S w w) -> (forall w1 w2 w3, S w1 w2 -> S w2 w3 -> S w1 w3) ->
  (forall v w, v ∈ vs -> chargeable v w -> S w (charge_effect v w)) ->
  forall w x w', settle_each vs w = Ok (x, w') -> S w w'.
Proof.
  intros Hr Ht. induction vs as [|v vs IH]; intros Hc w x w' Hs; cbn [settle_each] in Hs.
  { tx_run Hs. apply Hr. }
  apply tx_bind_inv in Hs as (o & wa & Ho & Hs). pose proof (check_one_pure _ _ _ _ Ho) as ->.
  apply tx_bind_inv in Hs as (s & wb & Hb & Hs). apply tx_bind_inv in Hs as (rest & wc & Hrest & Hs). tx_run Hs.
  apply Ht with wb; [|eapply IH; [|exact Hrest]; intros v' w1 Hv; apply Hc; by right].
  destruct o as [s'|]; [tx_run Hb; apply Hr|]. apply charge_spec in Hb as [-> ->].
  apply Hc; [left|]. by eapply check_one_charge.
Qed.

(** ** The pin of a KMS provider *)

(** Bumping an app's acknowledgement version leaves its registration alone. *)
Class TappRegistryLaws := {
  invalidate_keeps_app : forall g self a r r', t_invalidateAcks g self a r = Ok r' ->
    forall g' a', t_getAppInfo g' a' r' = t_getAppInfo g' a' r
}.

Section Pin.
Context `{TappRegistryLaws}.
Variables (p u : addr) (a : string) (epoch : Z).

(** The app is no longer the instance registered at [epoch]. *)
Definition gone (r : R) : Prop :=
  forall g info, t_getAppInfo g a r = Ok info -> ai_registeredAt info <> epoch.

(** [p] is a KMS provider bound to that instance. *)
Record pinned (s : Serving) : Prop := {
  pinned_epoch : kb_epoch (binding_of s p) = epoch;
  pinned_app : sv_AppId (service_of s p) = a;
  pinned_exists : p ∈ s_serviceExists s
}.

(** Not a call of [u], not a re-pin of [p], and no return of the old instance. *)
Definition intruder (x : step R) : Prop :=
  match x with
  | SCall e c => msg_sender e <> u /\ c <> ERepinKmsProvider p
  | SElse f => forall r, gone r -> gone (f r)
  end.

Definition guarded (w w' : chain R) : Prop :=
  pinned (st w) -> gone (reg w) ->
  pinned (st w') /\ gone (reg w') /\ earnings (st w') p = earnings (st w) p /\ held u p (st w) (st w').

Lemma guarded_refl w : guarded w w.
Proof. intros Hp Hg. split_and!; try done. Qed.

Lemma guarded_trans w1 w2 w3 : guarded w1 w2 -> guarded w2 w3 -> guarded w1 w3.
Proof.
  intros S1 S2 Hp Hg. destruct (S1 Hp Hg) as (Hp2 & Hg2 & E2 & M2). destruct (S2 Hp2 Hg2) as (Hp3 & Hg3 & E3 & M3).
  split_and!; [done|done|congruence|by eapply held_trans].
Qed.

Hypothesis epoch_set : epoch <> 0.
Hypothesis app_set : a <> EmptyString.

(** Nobody is the owner behind the pin. *)
Lemma pinned_no_owner caller w x w' :
  pinned (st w) -> gone (reg w) -> _isAppOwnerOf p caller w = Ok (x, w') -> x = false.
Proof.
  intros [Pe Pa _] Hg Ho. unfold _isAppOwnerOf in Ho. tx_run Ho; try done.
  rewrite Pa, Pe in *. match goal with E : t_getAppInfo _ _ _ = Ok ?info |- _ =>
    apply Hg, Z.eqb_neq in E; by rewrite (proj2 (Z.eqb_neq epoch 0) epoch_set), E end.
Qed.

Lemma pinned_key w b w' :
  pinned (st w) -> gone (reg w) -> _providerKeyValid p (sv_AppId (service_of (st w) p)) w = Ok (b, w') -> b = false.
Proof.
  intros [Pe Pa _] Hg Hk. unfold _providerKeyValid in Hk. rewrite Pa in Hk. tx_run Hk; rewrite Pe in *; zbool; try done.
  match goal with E : t_getAppInfo _ _ _ = Ok ?info |- _ => apply Hg in E end. by apply Z.eqb_neq.
Qed.

Lemma charged_other v s :
  v_provider v <> p -> pinned s ->
  pinned (charged v s) /\ earnings (charged v s) p = earnings s p /\ held u p s (charged v s).
Proof.
  intros Hv [Pe Pa Px]. split; [|split; [|apply charged_held; congruence]].
  - unfold charged. destruct (_ <=? _); [destruct (_ <? _)|]; by split.
  - unfold charged. destruct (_ <=? _); [destruct (_ <? _)|]; storage; by rewrite at0_insert, decide_False.
Qed.

Lemma settle_guarded vs w x w' : settle_all vs no_check w = Ok (x, w') -> guarded w w'.
Proof.
  rewrite (settle_all_each vs no_check w (no_check_ok w)).
  apply (settle_each_keeps guarded); [apply guarded_refl|apply guarded_trans|].
  intros v w1 _ [Hp Hk] Hpin Hg.
  assert (v_provider v <> p) as Hne. { intros E. rewrite E in Hk. by apply pinned_key in Hk. }
  destruct (charged_other v (st w1) Hne Hpin) as (H1' & H2' & H3'). done.
Qed.

(** What concerns [p] and [u] is as it was: the storage written is another's. *)
Record apart (s s' : Serving) : Prop := {
  apart_binding : s_kmsBindings s' !! p = s_kmsBindings s !! p;
  apart_app : sv_AppId (service_of s' p) = sv_AppId (service_of s p);
  apart_exists : p ∈ s_serviceExists s -> p ∈ s_serviceExists s';
  apart_earnings : earnings s' p = earnings s p;
  apart_held : held u p s s'
}.

Lemma apart_guarded w w' : apart (st w) (st w') -> (gone (reg w) -> gone (reg w')) -> guarded w w'.
Proof.
  intros [Eb Ea Ex Ee Eh] Hg [Pe Pa Px] Hgone. split_and!; [|by apply Hg|done|done].
  split; [unfold binding_of in *; by rewrite Eb|congruence|by apply Ex].
Qed.

Lemma service_set q svc s r : service_of (set_service q svc s) r = if decide (q = r) then default no_service svc else service_of s r.
Proof.
  unfold service_of, set_service. cbn [s_services].
  case_decide; [subst; by rewrite lookup_partial_alter_eq|by rewrite lookup_partial_alter_ne].
Qed.

Lemma held_set_service q svc s : held u p s (set_service q svc s).
Proof. by split. Qed.

Lemma upsert_guarded e q b t w x w' : _upsertService e q b t w = Ok (x, w') -> guarded w w'.
Proof.
  intros Hu Hpin Hg. unfold _upsertService in Hu.
  set (svc := Some (mkService (tm_url t) (if bool_decide (sv_AppId (service_of (st w) q) = EmptyString) then b
    else sv_AppId (service_of (st w) q)) (tm_pricePerCPUPerMin t) (tm_pricePerMemGBPerMin t) (tm_createFee t))).
  assert (apart (st w) (set_service q svc (st w))) as Ha.
  { split; [done| |intros Hx; cbn; set_solver|done|apply held_set_service].
    rewrite service_set. case_decide as E; [|done]. subst q svc. cbn. rewrite (pinned_app _ Hpin).
    by rewrite bool_decide_false. }
  enough (guarded w w') as Hgu by (by apply Hgu).
  tx_run Hu; cbn [st reg]; apply apart_guarded; cbn [st reg]; try done.
  intros Hg' g info. match goal with E : t_invalidateAcks _ _ _ _ = Ok _ |- _ => rewrite (invalidate_keeps_app _ _ _ _ _ E) end. apply Hg.
Qed.

Lemma bind_guarded q b n t w x w' : bind_kms q b n t w = Ok (x, w') -> guarded w w'.
Proof.
  intros Hb Hpin Hg. enough (guarded w w') as Hgu by (by apply Hgu).
  unfold bind_kms in Hb. tx_run Hb; try apply guarded_refl.
  apply apart_guarded; [|done]. cbn [st]. split; [|done|done|done|by split]. cbn. apply lookup_insert_ne.
  intros ->. destruct Hpin as [Pe _ _]. zbool. congruence.
Qed.

Lemma apart_trans s1 s2 s3 : apart s1 s2 -> apart s2 s3 -> apart s1 s3.
Proof.
  intros [Eb Ea Ex Ee Eh] [Eb' Ea' Ex' Ee' Eh'].
  split; [congruence|congruence|auto|congruence|by eapply held_trans].
Qed.

Lemma apart_account s s' :
  s_kmsBindings s' = s_kmsBindings s -> s_services s' = s_services s -> s_serviceExists s' = s_serviceExists s ->
  s_providerEarnings s' = s_providerEarnings s -> held u p s s' -> apart s s'.
Proof. intros Eb Es Ex Ee Hh. split; unfold service_of, earnings; rewrite ?Eb, ?Es, ?Ex, ?Ee; done. Qed.

Lemma apart_locked b s : apart s (set_locked b s).
Proof. by apply apart_account. Qed.

Lemma apart_balance x q n s : x <> u \/ balance s x q <= n -> apart s (set_balance x q n s).
Proof.
  intros Hx. apply apart_account; try done. split; storage; try done. rewrite at0_insert.
  case_decide as E; [|done]. injection E as -> ->. by destruct Hx.
Qed.

Lemma apart_pending x q n s : x <> u -> apart s (set_pending x q n s).
Proof.
  intros Hx. apply apart_account; try done. split; storage; try done. rewrite at0_insert.
  case_decide as E; [|done]. injection E as -> ->. done.
Qed.

Lemma apart_unlock x q n s : x <> u -> apart s (set_unlock x q n s).
Proof.
  intros Hx. apply apart_account; try done. split; storage; try done. rewrite at0_insert.
  case_decide as E; [|done]. injection E as -> ->. done.
Qed.

Lemma apart_earnings_of q n s : q <> p -> apart s (set_earnings q n s).
Proof. intros Hq. split; try done. storage. rewrite at0_insert. by case_decide. Qed.

Lemma apart_service q svc s : q <> p -> apart s (set_service q svc s).
Proof.
  intros Hq. split; [done| | |done|by split].
  - rewrite service_set. by case_decide.
  - cbn. destruct svc; set_solver.
Qed.

Lemma apart_binding_of q b s : q <> p -> apart s (set_binding q b s).
Proof. intros Hq. split; [|done|done|done|by split]. cbn. by apply lookup_insert_ne. Qed.

Lemma apart_refl s : apart s s.
Proof. by apply apart_account. Qed.

(** Peels the writes off, the last one first. *)
Ltac solve_apart :=
  repeat first [apply apart_refl
    | eapply apart_trans; [|first [apply apart_locked | apply apart_balance; by left | by apply apart_pending
        | by apply apart_unlock | by apply apart_earnings_of | by apply apart_service | by apply apart_binding_of]]].

Section Message.
Variable rx : receiver R.
Hypothesis rx_guarded : forall w, guarded w (does rx w).

Lemma write_guarded w s n l : apart (st w) s -> guarded w (mkChain s n (reg w) l).
Proof. intros Ha. by apply apart_guarded. Qed.

(** A guarded operation that pays: the writes before, the recipient, the unlock. *)
Lemma paid_guarded w s n l w1 : w1 = does rx (mkChain s n (reg w) (evs w)) -> apart (st w) s ->
  guarded w (mkChain (set_locked false (st w1)) (eth w1) (reg w1) l).
Proof.
  intros -> Ha. eapply guarded_trans; [by apply (write_guarded w s n (evs w))|]. eapply guarded_trans; [apply rx_guarded|].
  apply write_guarded, apart_locked.
Qed.

Lemma refund_guarded e q w x w' : msg_sender e <> u -> withdrawRefund e rx q w = Ok (x, w') -> guarded w w'.
Proof.
  intros Hu He. unfold withdrawRefund in He. tx_run He. cbn [st eth reg evs]. eapply paid_guarded; [reflexivity|].
  solve_apart.
Qed.

Lemma request_guarded e q n w x w' : msg_sender e <> u -> requestRefund e q n w = Ok (x, w') -> guarded w w'.
Proof.
  intros Hu He. unfold requestRefund in He. tx_run He. cbn [st eth reg evs]. apply write_guarded.
  solve_apart.
Qed.

Lemma deposit_guarded e x q w y w' : deposit e x q w = Ok (y, w') -> guarded w w'.
Proof.
  intros He. unfold deposit in He. tx_run He. zbool. cbn [st eth reg evs]. apply write_guarded, apart_balance. right. lia.
Qed.

Lemma withdraw_guarded e q w x w' : withdrawEarnings e rx q w = Ok (x, w') -> guarded w w'.
Proof.
  intros He Hpin Hg. enough (guarded w w') as Hgu by (by apply Hgu).
  unfold withdrawEarnings in He. apply nonReentrant_inv in He as (_ & w1 & He & ->).
  apply tx_bind_inv in He as (ok & w2 & Ho & He). tx_run He. subst ok.
  assert (q <> p) as Hq.
  { intros ->. by apply pinned_no_owner in Ho; [|by destruct Hpin|]. }
  assert (w2 = mkChain (set_locked true (st w)) (eth w) (reg w) (evs w)) as ->.
  { unfold _isAppOwnerOf in Ho. by tx_run Ho. }
  cbn [st eth reg evs]. eapply paid_guarded; [reflexivity|]. solve_apart.
Qed.

Lemma remove_guarded e q w x w' : removeService e rx q w = Ok (x, w') -> guarded w w'.
Proof.
  intros He Hpin Hg. enough (guarded w w') as Hgu by (by apply Hgu).
  unfold removeService in He. apply nonReentrant_inv in He as (_ & w1 & He & ->). apply tx_bind_inv in He as (b & w0 & Hb & He).
  tx_run Hb. apply tx_bind_inv in He as (? & w0 & Hr & He). tx_run Hr.
  apply tx_bind_inv in He as (ok & w2 & Ho & He).
  assert (ok = true) as ->. { apply tx_bind_inv in He as (? & ? & He & _). by apply require_inv in He as [He _]. }
  assert (q <> p) as Hq.
  { intros ->. by apply pinned_no_owner in Ho; [|by destruct Hpin|]. }
  assert (w2 = mkChain (set_locked true (st w)) (eth w) (reg w) (evs w)) as ->.
  { unfold _isAppOwnerOf in Ho. by tx_run Ho. }
  clear Ho. tx_run He; cbn [st eth reg evs]; [eapply paid_guarded; [reflexivity|]|apply write_guarded];
    solve_apart.
Qed.

Lemma idle_guarded e c w w' :
  moves_money c = false -> c <> ERepinKmsProvider p -> enter e rx c w = Ok ((), w') -> guarded w w'.
Proof.
  intros Hm Hrep He. destruct c; try done; cbn [enter] in He;
    unfold initialize, transferOwnership, setTappRegistry, repinKmsProvider, addOrUpdateService, addOrUpdateKmsService,
      onlyOwner, endorsing_node in He; tx_run He;
    repeat match goal with
    | E : _upsertService _ _ _ _ ?w1 = Ok _ |- guarded _ _ => apply upsert_guarded in E; apply guarded_trans with w1; [clear E|exact E]
    | E : bind_kms _ _ _ _ _ = Ok _ |- guarded _ _ => apply bind_guarded in E; exact E
    end; try apply guarded_refl; cbn [st eth reg evs]; apply write_guarded;
    first [apply apart_account; [done..|by split]|apply apart_binding_of; intros ->; by apply Hrep].
Qed.

Lemma message_guarded e c w : intruder (SCall e c) -> guarded w (message e rx c w).
Proof.
  intros [Hu Hrep]. destruct (message_cases e rx c w) as [->|(_ & _ & He)]; [apply guarded_refl|].
  revert He. generalize (message e rx c w). intros w' He.
  apply guarded_trans with (mkChain (st w) (eth w + msg_value e) (reg w) (evs w)); [apply write_guarded, apart_refl|].
  destruct (moves_money c) eqn:Em; [|by eapply idle_guarded]. destruct c; try done; cbn [enter] in He.
  - by eapply deposit_guarded.
  - by eapply request_guarded.
  - by eapply refund_guarded.
  - apply tx_bind_inv in He as (x & w1 & He & [_ ->]%mret_inv). unfold settleFeesWithTEE in He.
    apply nonReentrant_inv in He as (_ & w2 & He & ->). apply settle_guarded in He.
    eapply guarded_trans; [|eapply guarded_trans; [exact He|]]; apply write_guarded, apart_locked.
  - by eapply withdraw_guarded.
  - by eapply remove_guarded.
Qed.
End Message.

Lemma run_guarded l w : Forall intruder (all_steps l) -> guarded w (run l w).
Proof.
  apply (run_keeps guarded intruder); [apply guarded_refl|apply guarded_trans| | |].
  - intros e c rx w1 Hi Hrx. by apply message_guarded.
  - intros n w1. apply write_guarded, apart_refl.
  - intros g w1 Hi. apply apart_guarded; [apply apart_refl|exact (Hi (reg w1))].
Qed.
End Pin.

(** C11: the pin holds whoever comes next.  A KMS provider is bound to the app
    instance of [epoch], and that instance is gone from the registry (the app
    was removed and registered anew, with the same key handed to its new owner).
    Whatever is then called by anyone, with any vouchers and endorsements, as
    long as the contract's owner does not re-pin the provider: its earnings stay
    to the last wei, the binding stays, and a user who calls nothing keeps
    balance, pending refund and nonce. *)
Theorem pin_protects `{TappRegistryLaws} (p u : addr) (a : string) (epoch : Z) (l : list act) (w : chain R) :
  epoch <> 0 -> a <> EmptyString -> pinned p a epoch (st w) -> gone a epoch (reg w) ->
  Forall (intruder p u a epoch) (all_steps l) ->
  let w' := run l w in
  pinned p a epoch (st w') /\ earnings (st w') p = earnings (st w) p /\ held u p (st w) (st w').
Proof.
  intros He Ha Hp Hg Hl. cbn zeta. by destruct (run_guarded p u a epoch He Ha l w Hl Hp Hg) as (? & _ & ? & ?).
Qed.
End Batch.
