(* ===== verification/Payout.v ===== *)
(** * Settlements and refunds go through

    Between calls the contract is unlocked, so nobody can wedge it; a batch is
    settled with one status per voucher whatever the vouchers are; a refund is
    paid in full once its lock has passed.  Two closed counterexamples show
    where settlement takes more from a user than the voucher says. *)

From S2P Require Import Prelude Hex Bytes Crypto Voucher ChainTypes Chain Serving Solvency Custody Batch.

Section Payout.
Context `{Keccak} `{Ecrecover} {R : Type} `{TappRegistry R}.
Implicit Types (w : chain R) (v : SolVoucher).

(** ** The reentrancy lock is free between calls *)

Definition same_lock (w w' : chain R) : Prop := s_locked (st w') = s_locked (st w).

Lemma charged_locked v s : s_locked (charged v s) = s_locked s.
Proof. unfold charged. by destruct (_ <=? _); [destruct (_ <? _)|]. Qed.

Lemma settle_lock vs k w x w' : settle_all vs k w = Ok (x, w') -> same_lock w w'.
Proof.
  apply (settle_all_keeps same_lock); unfold same_lock; [done|congruence|]. intros v w1 _ _. apply charged_locked.
Qed.

Lemma message_lock e c rx w : same_lock w (message e rx c w).
Proof.
  destruct (message_cases e rx c w) as [->|(_ & _ & He)]; [done|].
  revert He. generalize (message e rx c w). intros w' He. unfold same_lock.
  destruct (moves_money c) eqn:Em. 2:{ apply enter_idle in He as [[_ _ _ _ _ El] _ _]; done. }
  destruct c; try discriminate Em; cbn [enter] in He.
  - unfold deposit in He. by tx_run He.
  - unfold requestRefund in He. by tx_run He.
  - apply nonReentrant_inv in He as (E & ? & _ & ->). by rewrite <- E.
  - apply tx_bind_inv in He as (x & w1 & He & [_ ->]%mret_inv). apply nonReentrant_inv in He as (E & ? & _ & ->). by rewrite <- E.
  - apply nonReentrant_inv in He as (E & ? & _ & ->). by rewrite <- E.
  - apply nonReentrant_inv in He as (E & ? & _ & ->). by rewrite <- E.
Qed.

Lemma run_lock l w : same_lock w (run l w).
Proof.
  apply (run_keeps same_lock (fun _ => True)); unfold same_lock; [done|congruence| |done|done|by apply Forall_true].
  intros e c rx w1 _ _. apply message_lock.
Qed.

(** ** Settlement *)

(** The registry's views return. *)
Class TappAnswers := {
  answers_ack : forall g u a r, exists b, t_isAcknowledged g u a r = Ok b;
  answers_app : forall g a r, exists info, t_getAppInfo g a r = Ok info;
  answers_node : forall g a n r, exists at_, t_addedAt g a n r = Ok at_
}.

Lemma key_valid_answers `{TappAnswers} p a w : exists b, _providerKeyValid p a w = Ok (b, w).
Proof.
  unfold _providerKeyValid. rewrite !sread_bind. destruct (negb _); rewrite view_bind.
  - destruct (answers_app (s_tappRegistry (st w)) a (reg w)) as [info ->]. by eexists.
  - destruct (answers_node (s_tappRegistry (st w)) a p (reg w)) as [at_ ->]. by eexists.
Qed.

Lemma check_one_answers `{TappAnswers} v w : exists o, check_one v w = Ok (o, w).
Proof.
  unfold check_one. rewrite !sread_bind. destruct (negb (bool_decide _)); [by eexists|].
  rewrite !sread_bind, view_bind.
  destruct (answers_ack (s_tappRegistry (st w)) (v_user v) (sv_AppId (service_of (st w) (v_provider v))) (reg w)) as [b ->].
  cbn [res_bind]. destruct b; cbn [negb]; [|by eexists].
  rewrite !sread_bind. destruct (_ <=? _); [by eexists|]. rewrite !sread_bind.
  destruct (payee_signed _ _); cbn [negb]; [|by eexists]. rewrite tx_bind_eq.
  destruct (key_valid_answers (v_provider v) (sv_AppId (service_of (st w) (v_provider v))) w) as [b ->].
  by eexists.
Qed.

(** A solvent contract with less than 2^256 wei has no sum that overflows. *)
Lemma charge_returns v w :
  solvent w -> eth w < 2 ^ 256 -> 0 <= v_totalFee v -> charge v w = Ok (verdict v (st w), charge_effect v w).
Proof.
  intros [HB HP HE HC] Hmax Hv. unfold liabilities in HC.
  pose proof (at0_le_total (s_balances (st w)) (v_user v, v_provider v) HB) as Hb.
  pose proof (at0_le_total (s_pendingRefunds (st w)) (v_user v, v_provider v) HP) as Hp.
  pose proof (at0_le_total (s_providerEarnings (st w)) (v_provider v) HE) as He.
  enough (exists x w', charge v w = Ok (x, w')) as (x & w' & E) by (rewrite E; by apply charge_spec in E as [-> ->]).
  pose proof (HB (v_user v, v_provider v)). pose proof (HP (v_user v, v_provider v)). pose proof (HE (v_provider v)).
  clear HB HP HE. unfold charge. tx_go. destruct (_ <=? _) eqn:Eb; zbool; tx_go; [|by eexists _, _].
  rewrite tx_bind_eq. destruct (_ <? _); by eexists _, _.
Qed.

Lemma settle_each_returns `{TappAnswers} vs : forall w,
  solvent w -> eth w < 2 ^ 256 -> Forall (fun v => 0 <= v_totalFee v) vs ->
  exists sts w', settle_each vs w = Ok (sts, w') /\ length sts = length vs /\ solvent w' /\ eth w' = eth w.
Proof.
  induction vs as [|v vs IH]; intros w Hs He Hv; [by eexists [], w|]. inversion_clear Hv as [|? ? Hv1 Hvs].
  cbn [settle_each]. destruct (check_one_answers v w) as [o Ho]. rewrite tx_bind_eq, Ho. cbn [res_bind fst snd].
  assert (exists s w1, (match o with Some s => mret s | None => charge v end : tx R SettlementStatus) w = Ok (s, w1)
    /\ solvent w1 /\ eth w1 = eth w) as (s & w1 & E1 & Hs1 & He1).
  { destruct o as [s|]; [by exists s, w|]. exists (verdict v (st w)), (charge_effect v w).
    split; [by apply charge_returns|]. split; [by apply charge_sound|done]. }
  rewrite tx_bind_eq, E1. cbn [res_bind fst snd].
  destruct (IH w1 Hs1 ltac:(lia) Hvs) as (sts & w2 & E2 & Hl & Hs2 & He2).
  rewrite tx_bind_eq, E2. cbn. exists (s :: sts), w2. cbn. split_and!; [done|lia|done|lia].
Qed.

(** *** What a batch logs *)

(** The event of a voucher with its status: only charges have one. *)
Definition settlement_event (x : SolVoucher * SettlementStatus) : option Event :=
  let '(v, s) := x in
  match s with
  | StatusSuccess | StatusInsufficientBalance =>
      Some (VoucherSettled (v_user v) (v_provider v) (v_totalFee v) (v_usageHash v) (v_nonce v) s)
  | _ => None
  end.

Definition settlement_log (vs : list SolVoucher) (sts : list SettlementStatus) : list Event := omap settlement_event (zip vs sts).

Lemma check_one_refuses v w s w' : check_one v w = Ok (Some s, w') -> settlement_event (v, s) = None.
Proof. intros Hc. unfold check_one in Hc. tx_run Hc; simplify_eq; try done. by case_match; simplify_eq. Qed.

Lemma settle_each_log vs : forall w sts w',
  settle_each vs w = Ok (sts, w') -> length sts = length vs /\ evs w' = evs w ++ settlement_log vs sts.
Proof.
  induction vs as [|v vs IH]; intros w sts w' Hs; cbn [settle_each] in Hs.
  { apply mret_inv in Hs as [-> ->]. by rewrite app_nil_r. }
  apply tx_bind_inv in Hs as (o & w1 & Ho & Hs). pose proof (check_one_pure _ _ _ _ Ho) as ->.
  apply tx_bind_inv in Hs as (s & w2 & Hb & Hs). apply tx_bind_inv in Hs as (rest & w3 & Hrest & Hs).
  apply mret_inv in Hs as [-> ->]. destruct (IH _ _ _ Hrest) as [Hl El].
  split; [cbn; congruence|]. rewrite El. unfold settlement_log. cbn [zip zip_with omap list_omap].
  destruct o as [s'|].
  - apply mret_inv in Hb as [-> ->]. by rewrite (check_one_refuses _ _ _ _ Ho).
  - apply charge_spec in Hb as [-> ->]. cbn [evs charge_effect]. rewrite <- app_assoc. f_equal.
    unfold settlement_event, verdict. by destruct (_ <=? _).
Qed.


(** ** Refunds *)

(** The chain after [n] was paid to the receiver [rx] of [u], whose refund was
    cleared before. *)
Definition paid_out (u p : addr) (n : Z) (rx : receiver R) (w : chain R) : chain R :=
  let w1 := does rx (mkChain (set_pending u p 0 (set_locked true (st w))) (eth w - n) (reg w) (evs w)) in
  mkChain (set_locked false (st w1)) (eth w1) (reg w1) (evs w1 ++ [RefundWithdrawn u p n]).

(** C13: a refund is paid.  In every state the contract can reach, a user with
    a pending refund whose lock has passed and whose account accepts ether gets
    all of it: the call returns, has cleared the refund before it paid and has
    logged it.  Before the lock has passed the call fails. *)
Theorem refund_is_paid (l : list act) (r : R) (e : env) (rx : receiver R) (p : addr) :
  let w := run l (mkChain blank 0 r []) in
  let u := msg_sender e in
  let n := pending (st w) u p in
  0 < n -> accepts rx = true ->
  if block_timestamp e <? unlock_at (st w) u p then withdrawRefund e rx p w = Err (EMsg "refund locked")
  else
    withdrawRefund e rx p w = Ok ((), paid_out u p n rx w).
Proof.
  intros w u n Hn Ha. pose proof (run_lock l (mkChain blank 0 r [])) as Hl. fold w in Hl. unfold same_lock in Hl. cbn in Hl.
  destruct (run_sound l (mkChain blank 0 r []) (blank_solvent r 0 ltac:(lia))) as [[HB HP HE HC] _]. fold w in HB, HP, HE, HC.
  assert (n <= eth w) as Hle.
  { pose proof (at0_le_total (s_pendingRefunds (st w)) (u, p) HP). pose proof (at0_le_total (s_balances (st w)) (u, p) HB).
    pose proof (at0_le_total (s_providerEarnings (st w)) p HE). pose proof (HB (u, p)). pose proof (HE p).
    unfold liabilities in HC. unfold n, pending. lia. }
  destruct (_ <? _) eqn:Et; zbool.
  - unfold withdrawRefund, nonReentrant. rewrite sread_bind, Hl, require_bind, swrite_bind by done.
    rewrite tx_bind_eq, sread_bind. fold u.
    rewrite require_bind by (apply Z.ltb_lt; exact Hn). rewrite sread_bind. unfold require.
    change (unlock_at _ u p) with (unlock_at (st w) u p). by rewrite (proj2 (Z.leb_gt _ _) Et).
  - unfold paid_out. cbv zeta. set (w1 := does rx _). unfold withdrawRefund.
    refine (nonReentrant_run _ w () (mkChain (st w1) (eth w1) (reg w1) (evs w1 ++ [RefundWithdrawn u p n])) Hl _).
    rewrite sread_bind. fold u. rewrite require_bind by (apply Z.ltb_lt; exact Hn). rewrite sread_bind.
    rewrite require_bind by (apply Z.leb_le; exact Et). rewrite swrite_bind, pay_bind by done. done.
Qed.

(** ** The preview *)

(** What the preview says of a voucher is what settling it at once would give. *)
Lemma preview_one v w sts w' :
  settle_each [v] w = Ok (sts, w') -> previewSettlementResults [v] w = Ok (sts, w).
Proof.
  intros Hs. unfold previewSettlementResults. rewrite (preview_all_each [v] no_check w (no_check_ok w)).
  cbn [settle_each preview_each] in *. apply tx_bind_inv in Hs as (o & w1 & Ho & Hs).
  pose proof (check_one_pure _ _ _ _ Ho) as ->. rewrite tx_bind_eq, Ho. cbn [res_bind fst snd].
  apply tx_bind_inv in Hs as (s & w2 & Hb & Hs). apply tx_bind_inv in Hs as (rest & w3 & Hr & Hs).
  apply mret_inv in Hr as [-> ->]. apply mret_inv in Hs as [-> ->].
  destruct o as [s'|]; [by apply mret_inv in Hb as [-> _]|]. by apply charge_spec in Hb as [-> _].
Qed.
End Payout.

(** ** Concrete chains *)

Module ToyChain.
Import Toy.

#[export] Instance toy_ecrecover : Ecrecover :=
  fun d v r s => match sig_to_addr d (r ++ s ++ [v - 27]) with Ok a => a | _ => 0 end.

#[export] Instance toy_ecrecover_laws : EcrecoverLaws.
Proof.
  split. intros k d rs v Hs. unfold ecrecover, toy_ecrecover.
  rewrite app_assoc, take_drop, Z.add_simpl_r. by rewrite (sign_recover _ _ _ Hs).
Qed.

(** A registry with one app: its owner, instance, nodes and acknowledgements. *)
Record book := mkBook { bk_owner : addr; bk_epoch : Z; bk_nodes : list addr; bk_acks : list addr }.

#[export] Instance toy_registry : TappRegistry book := {|
  t_getAppInfo := fun _ a r => Ok (if bool_decide (a = "app") then mkAppInfo (bk_owner r) (bk_epoch r) else mkAppInfo 0 0);
  t_addedAt := fun _ a n r => Ok (if bool_decide (a = "app" /\ n ∈ bk_nodes r) then 5 else 0);
  t_isAcknowledged := fun _ u a r => Ok (bool_decide (a = "app" /\ u ∈ bk_acks r));
  t_isAuthorizedInvalidator := fun _ _ _ _ => Ok true;
  t_invalidateAcks := fun _ _ _ r => Ok (mkBook (bk_owner r) (bk_epoch r) (bk_nodes r) [])
|}.

#[export] Instance toy_registry_laws : TappRegistryLaws (R := book).
Proof. split. by intros g self a r r' [= <-]. Qed.

#[export] Instance toy_answers : TappAnswers (R := book).
Proof. split; intros; cbn; by eexists. Qed.

(** Sent by [s] with [v] wei at time [t], to the contract 99 on chain 16601. *)
Definition at_ (s v t : Z) : env := mkEnv s v t 16601 99.

Definition sep0 : bytes := domain_separator_of 16601 99.

(** Signed as [crypto.Sign] does, V raised by 27. *)
Definition solsig (k : Z) (digest : bytes) : bytes :=
  match ecdsa_sign k digest with Ok s => take 64 s ++ [nth 64 s 0 + 27] | _ => [] end.

Definition voucher_of (k u p fee n : Z) : SolVoucher :=
  let v := mkSolVoucher u p fee (replicate 32 7) n [] in
  mkSolVoucher u p fee (replicate 32 7) n (solsig k (voucher_digest sep0 v)).

Definition terms0 : terms := mkTerms "https://p" 6 1 6.

(** Deployed by 1, registry 77, the node 8192 registered by the app's owner 5. *)
Definition opened : list (act (R := book)) :=
  [Call (at_ 1 0 0) (EInitialize 77) [] true; Call (at_ 5 0 1) (EAddOrUpdateService 8192 "app" terms0) [] true].

Definition book0 : book := mkBook 5 3 [8192] [4096].
Definition chain0 : chain book := mkChain blank 0 book0 [].

(** The user 4096 deposits, asks for some back, and is then settled. *)
Definition story (deposit_ refund fee : Z) : chain book :=
  run (opened ++ [Call (at_ 4096 deposit_ 10) (EDeposit 4096 8192) [] true;
                  Call (at_ 4096 0 20) (ERequestRefund 8192 refund) [] true;
                  Call (at_ 7 0 30) (ESettleFeesWithTEE [voucher_of 8192 4096 8192 fee 1]) [] true]) chain0.

Lemma story_clips :
  let s := st (story 1000 500 400) in
  balance s 4096 8192 = 100 /\ pending s 4096 8192 = 100 /\ earnings s 8192 = 400 /\ surplus (story 1000 500 400) = 400.
Proof. vm_compute. done. Qed.

Lemma story_solvent : solvent (story 1000 500 400).
Proof. unfold story. by apply (run_sound _ chain0), blank_solvent. Qed.

(** A settlement destroys a pending refund.  A user deposits 1000, asks for 500
    back, and a voucher of 400 is settled from the other 500: the pending refund
    is cut to the 100 left in the balance, from which it had already been taken.
    400 wei then belong to nobody, and no sequence of calls, by anybody, ever
    pays them out. *)
Theorem clipped_refund_is_lost :
  balance (st (story 1000 500 400)) 4096 8192 = 100 /\ pending (st (story 1000 500 400)) 4096 8192 = 100 /\
  earnings (st (story 1000 500 400)) 8192 = 400 /\
  forall l, 400 <= surplus (run l (story 1000 500 400)).
Proof.
  destruct story_clips as (Hb & Hp & He & Hs). refine (conj Hb (conj Hp (conj He _))).
  intros l. destruct (run_sound l _ story_solvent) as [_ Hm]. rewrite Hs in Hm. exact Hm.
Qed.

(** A voucher the balance falls short of takes the pending refund whole: with
    100 left in the balance and 900 waiting to be refunded, a voucher of 150
    costs the user 1000. *)
Theorem shortfall_takes_refund :
  let s := st (story 1000 900 150) in
  balance s 4096 8192 = 0 /\ pending s 4096 8192 = 0 /\ earnings s 8192 = 1000 /\
  evs (story 1000 900 150) !! 3%nat = Some (VoucherSettled 4096 8192 150 (replicate 32 7) 1 StatusInsufficientBalance).
Proof. vm_compute. done. Qed.

(** *** Witnesses *)

Lemma always_solvent_witness : let w := run opened chain0 in solvent w /\ liabilities (st w) <= eth w /\ 0 <= surplus w.
Proof. apply (always_solvent opened book0 0). lia. Defined.

(** What strangers try against the user 4096: a refund to themselves, a
    withdrawal that pays them and calls back, a voucher signed by the wrong key. *)
Definition forged : SolVoucher := voucher_of 9 4096 8192 400 1.

Definition strangers : list (act (R := book)) :=
  [Call (at_ 7 0 30) (ERequestRefund 8192 500) [] true;
   Call (at_ 5 0 31) (EWithdrawEarnings 8192) [Call (at_ 5 0 31) (ERemoveService 8192) [] true] true;
   Call (at_ 7 0 32) (ESettleFeesWithTEE [forged]) [] true].

Definition funded : chain book := run (opened ++ [Call (at_ 4096 1000 10) (EDeposit 4096 8192) [] true]) chain0.

Lemma funded_domain : s_initialized (st funded) = true /\ s_domainSeparator (st funded) = sep0.
Proof. vm_compute. done. Qed.

Lemma forged_refused : payee_signed sep0 forged = false.
Proof. vm_compute. done. Qed.

Lemma strangers_foreign : Forall (foreign 4096 8192 (s_domainSeparator (st funded))) (all_steps strangers).
Proof.
  rewrite (proj2 funded_domain).
  repeat constructor; try done; intros v Hv; repeat (apply elem_of_cons in Hv as [->|Hv]);
    try (by apply elem_of_nil in Hv). intros _ _. exact forged_refused.
Qed.

Lemma held_money_safe_witness : held 4096 8192 (st funded) (st (run strangers funded)).
Proof. exact (held_money_safe strangers funded 4096 8192 (proj1 funded_domain) strangers_foreign). Defined.

Lemma funded_eth : eth funded < 2 ^ 256.
Proof. vm_compute. done. Qed.

Lemma vouchers_typed : forallb voucher_ok [voucher_of 8192 4096 8192 400 1; forged] = true.
Proof. vm_compute. done. Qed.


(** A recipient that tries to be paid twice. *)
Definition greedy : receiver book :=
  mkReceiver (run [Call (at_ 4096 0 9000) (EWithdrawRefund 8192) [] true]) true.

Definition asked : list (act (R := book)) :=
  opened ++ [Call (at_ 4096 1000 10) (EDeposit 4096 8192) [] true; Call (at_ 4096 0 20) (ERequestRefund 8192 500) [] true].

Definition due : env := at_ 4096 0 9000.

Lemma asked_pending : 0 < pending (st (run asked chain0)) 4096 8192.
Proof. vm_compute. done. Qed.

Lemma asked_due : (block_timestamp due <? unlock_at (st (run asked (mkChain blank 0 book0 []))) (msg_sender due) 8192) = false.
Proof. vm_compute. done. Qed.

Lemma refund_is_paid_witness : exists w, withdrawRefund due greedy 8192 (run asked chain0) = Ok ((), w).
Proof.
  pose proof (refund_is_paid asked book0 due greedy 8192 asked_pending eq_refl) as Hp. cbv zeta in Hp.
  rewrite asked_due in Hp. exact (ex_intro _ _ Hp).
Defined.

(** A KMS provider bound to the first instance of the app; then the app belongs
    to 6, registered anew. *)
Definition kms_acts : list (act (R := book)) :=
  [Call (at_ 1 0 0) (EInitialize 77) [] true;
   Call (at_ 5 0 1) (EAddOrUpdateKmsService 12288 "app" terms0 (solsig 8192 (kmsProviderDigest sep0 12288 "app"))) [] true;
   Call (at_ 4096 1000 10) (EDeposit 4096 12288) [] true;
   Call (at_ 7 0 30) (ESettleFeesWithTEE [voucher_of 12288 4096 12288 400 1]) [] true;
   Elsewhere (fun r => mkBook 6 9 [] (bk_acks r))].

Definition taken_over : chain book := run kms_acts chain0.

(** The new owner holds the provider's key too. *)
Definition takeover : list (act (R := book)) :=
  [Call (at_ 6 0 40) (EWithdrawEarnings 12288) [] true; Call (at_ 6 0 41) (ERemoveService 12288) [] true;
   Call (at_ 6 0 42) (ESettleFeesWithTEE [voucher_of 12288 4096 12288 600 2]) [] true;
   Elsewhere (fun r => mkBook 6 9 [8192] (bk_acks r));
   Call (at_ 6 0 43) (EAddOrUpdateKmsService 12288 "app" terms0 (solsig 8192 (kmsProviderDigest sep0 12288 "app"))) [] true].

Lemma taken_over_state :
  kb_epoch (binding_of (st taken_over) 12288) = 3 /\ sv_AppId (service_of (st taken_over) 12288) = "app"%string /\
  bool_decide (12288 ∈ s_serviceExists (st taken_over)) = true /\ bk_epoch (reg taken_over) = 9 /\
  earnings (st taken_over) 12288 = 400 /\ balance (st taken_over) 4096 12288 = 600.
Proof. vm_compute. done. Qed.

Lemma taken_over_pinned : pinned 12288 "app" 3 (st taken_over).
Proof.
  destruct taken_over_state as (He & Ha & Hx & _). split; [exact He|exact Ha|]. by apply bool_decide_eq_true in Hx.
Qed.

Lemma gone_epoch r : bk_epoch r = 9 -> gone "app" 3 r.
Proof. intros Hr g info [= <-]. cbn. by rewrite Hr. Qed.

Lemma takeover_intrudes : Forall (intruder 12288 4096 "app" 3) (all_steps takeover).
Proof. repeat constructor; try done. intros r _. by apply gone_epoch. Qed.

Lemma pin_protects_witness :
  let w' := run takeover taken_over in
  pinned 12288 "app" 3 (st w') /\ earnings (st w') 12288 = earnings (st taken_over) 12288 /\
  held 4096 12288 (st taken_over) (st w').
Proof.
  exact (pin_protects 12288 4096 "app" 3 takeover taken_over ltac:(discriminate) ltac:(discriminate) taken_over_pinned
    (gone_epoch _ (proj1 (proj2 (proj2 (proj2 taken_over_state))))) takeover_intrudes).
Defined.
End ToyChain.
