(* ===== verification/Onchain.v ===== *)
(** * The services' signatures on the contract

    What internal/voucher signs is what SandboxServing.sol checks: a voucher
    signed with the provider's key is charged, and an endorsement signed by a
    node registers a KMS provider.  The packing of a voucher into call data is
    the generated bindings'. *)

From S2P Require Import Prelude Hex Bytes Crypto Voucher ChainTypes Chain Serving Solvency Custody Batch Payout.

Section Signatures.
Context `{KeccakLaws} `{EcdsaLaws} `{Ecrecover} {EL : EcrecoverLaws}.

(** The call data of a voucher: integers as 256-bit words; a nil integer is
    refused before anything is sent. *)
Definition pack (v : ContractVoucher) : res SolVoucher :=
  match cv_TotalFee v, cv_Nonce v with
  | Some fee, Some n =>
      Ok (mkSolVoucher (cv_User v) (cv_Provider v) (fee mod 2 ^ 256) (cv_UsageHash v) (n mod 2 ^ 256) (cv_Signature v))
  | _, _ => Err (EMsg "abi: nil integer")
  end.

Lemma pack_ok v n f : abi_ok v n f ->
  pack (toContractVoucher v) = Ok (mkSolVoucher (User v) (Provider v) f (UsageHash v) n (Signature v)).
Proof.
  intros (_ & _ & _ & Hn & Hf & Hnr & Hfr). unfold pack. cbn. rewrite Hn, Hf, !Z.mod_small by lia. done.
Qed.

(** The Go layout of a voucher hashes to the contract's digest. *)
Lemma hash_is_digest v n f c a d :
  abi_ok v n f -> 0 <= c < 2 ^ 256 -> addr_ok a -> hashVoucher v c a = Ok d ->
  d = voucher_digest (domain_separator_of c a) (mkSolVoucher (User v) (Provider v) f (UsageHash v) n (Signature v)).
Proof.
  intros Hv Hc Ha Hd. unfold hashVoucher in Hd. rewrite (voucher_encoding_abi _ _ _ Hv) in Hd. cbn [res_bind] in Hd.
  unfold domainSeparator in Hd. rewrite (domain_encoding_abi _ _ Hc Ha) in Hd. cbn [res_bind] in Hd.
  injection Hd as <-. rewrite eip712_message_concat by apply keccak_length. reflexivity.
Qed.

Lemma kms_is_digest c a p appId d :
  0 <= c < 2 ^ 256 -> addr_ok a -> addr_ok p -> KmsProviderDigest c a p appId = Ok d ->
  d = kmsProviderDigest (domain_separator_of c a) p appId.
Proof.
  intros Hc Ha Hp Hd. unfold KmsProviderDigest in Hd. rewrite (kms_encoding_abi _ _ Hp) in Hd.
  unfold domainSeparator in Hd. rewrite (domain_encoding_abi _ _ Hc Ha) in Hd. cbn [res_bind] in Hd.
  injection Hd as <-. rewrite eip712_message_concat by apply keccak_length. reflexivity.
Qed.

(** The contract recovers the signer of a signature whose V was raised. *)
Lemma ecrecover_bumped k d sig sig' :
  ecdsa_sign k d = Ok sig -> bump_v sig = Ok sig' -> _ecrecover d sig' = key_addr k.
Proof.
  intros Hs Hb. destruct (sign_shape _ _ _ Hs) as (rs & v & -> & Hl & Hv).
  assert (sig' = rs ++ [v + 27]) as ->.
  { unfold bump_v in Hb. rewrite lookup_app_r, Hl in Hb by lia. cbn [lookup list_lookup Nat.sub] in Hb. injection Hb as <-.
    replace 64%nat with (length rs + 0)%nat by lia. rewrite insert_app_r. cbn. by rewrite Z.mod_small by lia. }
  unfold _ecrecover. rewrite bool_decide_true by (rewrite length_app; cbn; lia). cbn [negb].
  assert (nth 64 (rs ++ [v + 27]) 0 = v + 27) as ->.
  { rewrite app_nth2 by lia. by rewrite Hl. }
  rewrite (proj2 (Z.ltb_ge (v + 27) 27)) by lia.
  assert (((v + 27 =? 27) || (v + 27 =? 28)) = true) as ->. { apply orb_true_iff. rewrite !Z.eqb_eq. lia. }
  cbn [negb]. rewrite take_app_le, drop_app_le by lia. rewrite (take_app_length' (drop 32 rs)) by (rewrite length_drop; lia).
  by apply ecrecover_sign.
Qed.

Section Contract.
Context {R : Type} `{TappRegistry R}.
Implicit Types (w : chain R).

(** A node's endorsement registers the KMS provider.  What Go's
    EndorseKmsProvider signs with the key of an active node, sent by the app's
    owner to a contract that may invalidate acknowledgements, binds a fresh
    provider to the app's present instance and opens its service; nothing else
    of the contract changes. *)
Lemma endorsement_registers nodeKey c p appId sig e t w info at_ :
  EndorseKmsProvider nodeKey c (this e) p appId = Ok sig ->
  0 <= c < 2 ^ 256 -> addr_ok (this e) -> addr_ok p -> key_addr nodeKey <> 0 -> appId <> EmptyString ->
  s_domainSeparator (st w) = domain_separator_of c (this e) ->
  t_getAppInfo (s_tappRegistry (st w)) appId (reg w) = Ok info -> ai_owner info = msg_sender e -> ai_registeredAt info <> 0 ->
  t_addedAt (s_tappRegistry (st w)) appId (key_addr nodeKey) (reg w) = Ok at_ -> at_ <> 0 ->
  t_isAuthorizedInvalidator (s_tappRegistry (st w)) appId (this e) (reg w) = Ok true ->
  s_kmsBindings (st w) !! p = None -> s_services (st w) !! p = None -> p ∉ s_serviceExists (st w) ->
  addOrUpdateKmsService e p appId t sig w =
    Ok ((), mkChain
      (set_service p (Some (mkService (tm_url t) appId (tm_pricePerCPUPerMin t) (tm_pricePerMemGBPerMin t) (tm_createFee t)))
        (set_binding p (mkKmsBinding (ai_registeredAt info) (app_hash appId)) (st w)))
      (eth w) (reg w)
      ((evs w ++ [KmsProviderBound p appId (key_addr nodeKey) (ai_registeredAt info)]) ++ [ServiceUpdated p appId (tm_url t)])).
Proof.
  intros He Hc Ha Hp Hz Hid Hd Hi Ho Hr Hn Hat Hau Hb Hs Hx.
  unfold EndorseKmsProvider in He. destruct (KmsProviderDigest c (this e) p appId) as [d| |] eqn:Ed; cbn [res_bind] in He; try done.
  destruct (ecdsa_sign nodeKey d) as [sg| |] eqn:Es; cbn [res_bind] in He; try done.
  rewrite (kms_is_digest c (this e) p appId d Hc Ha Hp Ed) in Es.
  unfold addOrUpdateKmsService. rewrite sread_bind, view_bind, Hi. cbn [res_bind].
  rewrite require_bind by (by apply Z.eqb_eq). rewrite require_bind by (by apply negb_true_iff, Z.eqb_neq).
  unfold endorsing_node. rewrite tx_bind_eq, sread_bind. cbn [mret tx_ret res_bind fst snd].
  rewrite Hd, (ecrecover_bumped nodeKey _ sg sig Es He), (proj2 (Z.eqb_neq _ _) Hz).
  rewrite tx_bind_eq, view_bind, Hn. cbn [res_bind mret tx_ret fst snd]. rewrite (proj2 (Z.eqb_neq _ _) Hat).
  rewrite require_bind by done. unfold bind_kms, binding_of. rewrite tx_bind_eq, sread_bind, Hb. cbn [default from_option no_binding kb_epoch Z.eqb].
  rewrite sread_bind, bool_decide_false by done. rewrite require_bind, swrite_bind by done. cbn [emit res_bind fst snd st eth reg evs].
  unfold _upsertService. rewrite sread_bind, view_bind. cbn [st reg set_binding s_tappRegistry]. rewrite Hau. cbn [res_bind].
  rewrite require_bind, sread_bind by done. unfold service_of. cbn [st set_binding s_services]. rewrite Hs.
  cbn [default from_option]. unfold Datatypes.id. cbn [no_service sv_AppId]. rewrite bool_decide_true by done. cbn [orb negb andb].
  rewrite require_bind, swrite_bind, mret_bind by done. done.
Qed.
End Contract.
End Signatures.

(** ** Concrete inputs *)

Module OnchainExamples.
Import Toy ToyChain.

Definition go_voucher : SandboxVoucher := mkVoucher "sb-1" 4096 8192 (Some 60) (replicate 32 7) (Some 1) [] false.

Definition go_signed : SandboxVoucher := match Sign go_voucher 8192 16601 99 with Ok v => v | _ => go_voucher end.

Lemma go_signs : Sign go_voucher 8192 16601 99 = Ok go_signed.
Proof. vm_compute. reflexivity. Qed.

Lemma go_abi : abi_ok go_voucher 1 60.
Proof. split_and!; (done || cbn; unfold addr_bound; lia). Qed.

Lemma funded_ready :
  bool_decide (8192 ∈ s_serviceExists (st funded)) = true /\
  t_isAcknowledged (s_tappRegistry (st funded)) 4096 (sv_AppId (service_of (st funded) 8192)) (reg funded) = Ok true /\
  last_nonce (st funded) 4096 8192 = 0 /\ kb_epoch (binding_of (st funded) 8192) = 0 /\
  t_addedAt (s_tappRegistry (st funded)) (sv_AppId (service_of (st funded) 8192)) 8192 (reg funded) = Ok 5.
Proof. vm_compute. done. Qed.

Lemma funded_key : _providerKeyValid 8192 (sv_AppId (service_of (st funded) 8192)) funded = Ok (true, funded).
Proof.
  destruct funded_ready as (_ & _ & _ & He & Ha). unfold _providerKeyValid. rewrite !sread_bind, He.
  cbn [Z.eqb negb]. by rewrite view_bind, Ha.
Qed.

Lemma go_nonce : last_nonce (st funded) 4096 8192 < 1.
Proof. destruct funded_ready as (_ & _ & -> & _). lia. Qed.

Lemma chain_range : 0 <= 16601 < 2 ^ 256.
Proof. lia. Qed.

Lemma addr_99 : addr_ok 99.
Proof. unfold addr_ok, addr_bound. lia. Qed.


(** A contract without services; the node 8192 endorses the provider 12288. *)
Definition deployed : chain book := run [Call (at_ 1 0 0) (EInitialize 77) [] true] chain0.

Definition endorsed : bytes := match EndorseKmsProvider 8192 16601 99 12288 "app" with Ok s => s | _ => [] end.

Lemma endorses : EndorseKmsProvider 8192 16601 (this (at_ 5 0 1)) 12288 "app" = Ok endorsed.
Proof. vm_compute. reflexivity. Qed.

Lemma deployed_state :
  s_domainSeparator (st deployed) = sep0 /\ s_kmsBindings (st deployed) = ∅ /\ s_services (st deployed) = ∅ /\
  s_serviceExists (st deployed) = ∅ /\ reg deployed = book0.
Proof. vm_compute. done. Qed.

Lemma endorsement_registers_witness :
  exists w, addOrUpdateKmsService (at_ 5 0 1) 12288 "app" terms0 endorsed deployed = Ok ((), w) /\ 12288 ∈ s_serviceExists (st w).
Proof.
  destruct deployed_state as (Hd & Hb & Hs & Hx & Hr).
  assert (addr_ok 12288) as Hp by (unfold addr_ok, addr_bound; lia).
  assert (s_kmsBindings (st deployed) !! 12288 = None) as Hb' by (rewrite Hb; exact (lookup_empty _)).
  assert (s_services (st deployed) !! 12288 = None) as Hs' by (rewrite Hs; exact (lookup_empty _)).
  assert (12288 ∉ s_serviceExists (st deployed)) as Hx' by (rewrite Hx; apply not_elem_of_empty).
  assert (t_getAppInfo (s_tappRegistry (st deployed)) "app" (reg deployed) = Ok (mkAppInfo 5 3)) as Hi by (rewrite Hr; reflexivity).
  assert (t_addedAt (s_tappRegistry (st deployed)) "app" (key_addr 8192) (reg deployed) = Ok 5) as Hn by (rewrite Hr; reflexivity).
  eexists. split.
  - exact (endorsement_registers 8192 16601 12288 "app" endorsed (at_ 5 0 1) terms0 deployed (mkAppInfo 5 3) 5
      endorses chain_range addr_99 Hp (fun E => ltac:(discriminate E)) (fun E => ltac:(discriminate E)) Hd Hi eq_refl
      (fun E => ltac:(discriminate E)) Hn (fun E => ltac:(discriminate E)) eq_refl Hb' Hs' Hx').
  - by apply elem_of_union_l, elem_of_singleton.
Defined.
End OnchainExamples.
