(* ===== verification/Node.v ===== *)
(** * The chain client on the contract

    A node with the settlement contract behind it: the transactions of the
    service wait in a pool until they are mined, other people's calls come in
    between, and a request may fail.  It answers the chain client
    (internal/chain/client.go) as the generated bindings do, so the settler's
    conservation of usage holds over the contract, and what the client reads of
    a receipt is what the contract did. *)

From S2P Require Import Prelude Hex Bytes Crypto Voucher Store Collapse Backlog Session ChainTypes Stops Sweep Pending Settler Ledger Books Chain Wiring Serving Solvency Custody Batch Payout Onchain.

(** ** Logs *)

Definition status_code (s : SettlementStatus) : Z :=
  match s with
  | StatusSuccess => 0 | StatusInsufficientBalance => 1 | StatusProviderMismatch => 2
  | StatusNotAcknowledged => 3 | StatusInvalidNonce => 4 | StatusInvalidSignature => 5
  end.

Definition status_of (z : Z) : option SettlementStatus :=
  match z with
  | 0 => Some StatusSuccess | 1 => Some StatusInsufficientBalance | 2 => Some StatusProviderMismatch
  | 3 => Some StatusNotAcknowledged | 4 => Some StatusInvalidNonce | 5 => Some StatusInvalidSignature
  | _ => None
  end.

Section Logs.
Context `{Keccak}.

(** The indexed arguments and the data of a settlement, a word each. *)
Definition settled_words (u p fee : Z) (h : bytes) (n : Z) (s : SettlementStatus) : bytes :=
  be_bytes 32 u ++ be_bytes 32 p ++ be_bytes 32 fee ++ be_bytes 32 (be_value h) ++ be_bytes 32 n ++ be_bytes 32 (status_code s).

(** The log of an event; only settlements are decoded by the client. *)
Definition log_of (self : addr) (block txHash : Z) (ev : Event) : Log :=
  match ev with
  | VoucherSettled u p fee h n s => mkLog self (Some voucherSettledTopic) block txHash (settled_words u p fee h n s)
  | _ => mkLog self None block txHash []
  end.

Definition word (i : nat) (d : bytes) : Z := be_value (take 32 (drop (32 * i) d)).

(** [ParseVoucherSettled]. *)
Definition parse_settled (l : Log) : option SettledLog :=
  if negb (bool_decide (length (lg_Data l) = 192%nat)) then None
  else
    let d := lg_Data l in
    match status_of (word 5 d) with
    | Some s => Some (mkSettled (word 0 d) (word 1 d) (word 2 d) (word 4 d) s)
    | None => None
    end.

Lemma status_of_code s : status_of (status_code s) = Some s.
Proof. by destruct s. Qed.

Lemma word_app i (x : Z) (d : bytes) (pre : bytes) :
  0 <= x < 2 ^ 256 -> length pre = (32 * i)%nat -> word i (pre ++ be_bytes 32 x ++ d) = x.
Proof.
  intros Hx Hl. unfold word. rewrite drop_app_length' by done. rewrite take_app_length' by (by rewrite be_bytes_length).
  rewrite be_value_be_bytes. apply Z.mod_small. exact Hx.
Qed.

Definition in_range (z : Z) : Prop := 0 <= z < 2 ^ 256.

Lemma parse_log_of self b t u p fee h n s :
  in_range u -> in_range p -> in_range fee -> in_range n ->
  parse_settled (log_of self b t (VoucherSettled u p fee h n s)) = Some (mkSettled u p fee n s).
Proof.
  intros Hu Hp Hf Hn. unfold parse_settled, log_of. cbn [lg_Data].
  assert (length (settled_words u p fee h n s) = 192%nat) as Hl by (unfold settled_words; autorewrite with sandbox_rw; done).
  rewrite Hl. cbn [bool_decide decide decide_rel]. rewrite bool_decide_true by done. cbn [negb].
  assert (in_range (status_code s)) as Hs by (unfold in_range; destruct s; cbn; lia).
  set (d := settled_words u p fee h n s).
  assert (word 0 d = u) as -> by exact (word_app 0 u _ [] Hu eq_refl).
  assert (word 1 d = p) as -> by (exact (word_app 1 p _ (be_bytes 32 u) Hp (be_bytes_length _ _))).
  assert (word 2 d = fee) as ->.
  { unfold d, settled_words. rewrite (app_assoc (be_bytes 32 u)). apply word_app; [done|]. autorewrite with sandbox_rw; done. }
  assert (word 4 d = n) as ->.
  { unfold d, settled_words. rewrite !app_assoc, <- (app_assoc _ (be_bytes 32 n)). apply word_app; [done|]. autorewrite with sandbox_rw; done. }
  assert (word 5 d = status_code s) as ->.
  { unfold d, settled_words. rewrite !app_assoc, <- (app_nil_r (be_bytes 32 (status_code s))). apply word_app; [done|].
    autorewrite with sandbox_rw; done. }
  by rewrite status_of_code.
Qed.
End Logs.

(** ** The node *)

Section Node.
Context `{KeccakLaws} `{Ecrecover} {R : Type} `{TappRegistry R} {TA : TappAnswers}.

(** What happens before a request is answered: the next of the service's
    transactions is mined at a time, others act, or the request fails. *)
Inductive tick := Mine (now : Z) | Others (l : list (@act R)) | Down.

Record node := mkNode {
  nd_chain : chain R;
  nd_self : addr;
  nd_chainid : Z;
  nd_sender : addr;
  nd_pool : list (Z * list SolVoucher);
  nd_next : Z;
  nd_confirmed : Z;
  nd_block : Z;
  nd_receipts : gmap Z Receipt;
  nd_logs : list Log;
  nd_future : list tick
}.

Definition with_chain (w : chain R) (n : node) : node :=
  mkNode w (nd_self n) (nd_chainid n) (nd_sender n) (nd_pool n) (nd_next n) (nd_confirmed n) (nd_block n) (nd_receipts n)
    (nd_logs n) (nd_future n).

Definition with_future (l : list tick) (n : node) : node :=
  mkNode (nd_chain n) (nd_self n) (nd_chainid n) (nd_sender n) (nd_pool n) (nd_next n) (nd_confirmed n) (nd_block n)
    (nd_receipts n) (nd_logs n) l.

(** The logs that one chain has and an earlier one has not. *)
Definition new_logs (n : node) (hash : Z) (w w' : chain R) : list Log :=
  log_of (nd_self n) (nd_block n + 1) hash <$> drop (length (evs w)) (evs w').

(** The first transaction of the pool is included in a block: a receipt with
    its logs, or with status 0 when the call reverted. *)
Definition mine (now : Z) (n : node) : node :=
  match nd_pool n with
  | [] => n
  | (hash, vs) :: pool =>
      let w := nd_chain n in
      let '(w', receipt) :=
        match settleFeesWithTEE vs w with
        | Ok (_, w') => (w', mkReceipt 1 (new_logs n hash w w'))
        | _ => (w, mkReceipt 0 [])
        end in
      mkNode w' (nd_self n) (nd_chainid n) (nd_sender n) pool (nd_next n) (nd_confirmed n + 1) (nd_block n + 1)
        (<[hash := receipt]> (nd_receipts n)) (nd_logs n ++ rc_Logs receipt) (nd_future n)
  end.

(** A request: what comes before it, then its answer. *)
Definition rpc {A} (f : node -> res A * node) (n : node) : res A * node :=
  match nd_future n with
  | [] => f n
  | Mine now :: l => f (mine now (with_future l n))
  | Others acts :: l => let n := with_future l n in f (with_chain (run acts (nd_chain n)) n)
  | Down :: l => (Err EIO, with_future l n)
  end.

(** A call of a view function at the head; a revert is an error. *)
Definition call_view {A} (m : tx R A) : node -> res A * node :=
  rpc (fun n => (match m (nd_chain n) with Ok (a, _) => Ok a | _ => Err (EMsg "execution reverted") end, n)).

Fixpoint pack_all (l : list ContractVoucher) : res (list SolVoucher) :=
  match l with
  | [] => Ok []
  | v :: l => res_bind (pack v) (fun sv => res_bind (pack_all l) (fun svs => Ok (sv :: svs)))
  end.

(** Broadcasting: the transaction joins the pool under the next account nonce,
    which also stands for its hash. *)
Definition submit (l : list ContractVoucher) : node -> res (Z * Z) * node :=
  rpc (fun n => match pack_all l with
    | Ok svs =>
        (Ok (nd_next n, nd_next n),
         mkNode (nd_chain n) (nd_self n) (nd_chainid n) (nd_sender n) (nd_pool n ++ [(nd_next n, svs)]) (nd_next n + 1)
           (nd_confirmed n) (nd_block n) (nd_receipts n) (nd_logs n) (nd_future n))
    | _ => (Err (EMsg "abi: nil integer"), n)
    end).

#[export] Instance node_rpc : EthNode node := {|
  TransactionReceipt := fun hash => rpc (fun n => (Ok (nd_receipts n !! hash), n));
  NonceAt := fun _ => rpc (fun n => (Ok (nd_confirmed n), n));
  BlockNumber := rpc (fun n => (Ok (nd_block n), n));
  HeaderTime := fun b => rpc (fun n => (Ok b, n));
  FilterLogs := fun from _ _ => rpc (fun n => (Ok (filter (fun l => from <= lg_Block l) (nd_logs n)), n))
|}.

#[export] Instance node_bindings : Bindings node := {|
  b_SettleFeesWithTEE := submit;
  b_PreviewSettlementResults := fun l n =>
    match pack_all l with
    | Ok svs => call_view (previewSettlementResults svs) n
    | _ => (Err (EMsg "abi: nil integer"), n)
    end;
  b_ParseVoucherSettled := parse_settled;
  b_IsActiveProvider := fun p => call_view (isActiveProvider p);
  b_Services := fun p => call_view (sread (fun s => service_of s p));
  b_ServiceExists := fun p => call_view (sread (fun s => bool_decide (p ∈ s_serviceExists s)));
  b_GetLastNonce := fun u p => call_view (getLastNonce u p);
  b_IsTEEAcknowledged := fun u p => call_view (isTEEAcknowledged u p);
  b_GetBalance := fun u p => call_view (getBalance u p);
  b_BalanceOfBatch := fun us p => call_view (balanceOfBatch us p);
  b_FilterServiceUpdated := fun _ _ => rpc (fun n =>
    (Ok (omap (fun ev => match ev with ServiceUpdated p a url => Some (p, url, a, nd_block n, 0) | _ => None end) (evs (nd_chain n))), n));
  t_GetNode := fun a signer => call_view (registry ← sread s_tappRegistry; view (t_addedAt registry a signer));
  t_GetAppInfo := fun a => call_view (registry ← sread s_tappRegistry; info ← view (t_getAppInfo registry a);
                                       mret (Some (ai_registeredAt info), ai_owner info))
|}.

#[export] Instance node_nonces : NonceReader node := fun u p => call_view (getLastNonce u p).

(** ** The interface's laws *)

Lemma rpc_no_panic {A} (f : node -> res A * node) n : (forall n, (f n).1 <> Panic) -> (rpc f n).1 <> Panic.
Proof. intros Hf. unfold rpc. destruct (nd_future n) as [|[now|l|] fut]; [apply Hf|apply Hf|apply Hf|done]. Qed.

Lemma view_no_panic {A} (m : tx R A) n : (call_view m n).1 <> Panic.
Proof. apply rpc_no_panic. intros n'. cbn. by destruct (m (nd_chain n')) as [[]| |]. Qed.

Lemma pack_all_length l svs : pack_all l = Ok svs -> length svs = length l.
Proof.
  revert svs. induction l as [|v l IH]; intros svs; cbn [pack_all]; [by intros [= <-]|].
  destruct (pack v); cbn [res_bind]; try done. destruct (pack_all l) as [x| |]; cbn [res_bind]; try done.
  intros [= <-]. cbn. by rewrite (IH x).
Qed.

Lemma preview_each_length vs : forall (w : chain R) sts w', preview_each vs w = Ok (sts, w') -> length sts = length vs.
Proof.
  induction vs as [|v vs IH]; intros w sts w' Hp; cbn [preview_each] in Hp; [by apply mret_inv in Hp as [-> _]|].
  apply tx_bind_inv in Hp as (o & w1 & _ & Hp). apply tx_bind_inv in Hp as (s & w2 & _ & Hp).
  apply tx_bind_inv in Hp as (rest & w3 & Hr & Hp). apply mret_inv in Hp as [-> _]. cbn. f_equal. by eapply IH.
Qed.

#[export] Instance node_laws : BindingLaws node.
Proof.
  split.
  - intros l n p n'. cbn. destruct (pack_all l) as [svs| |] eqn:El; try done. unfold call_view, rpc.
    rewrite <- (pack_all_length _ _ El).
    assert (forall n0, (match previewSettlementResults svs (nd_chain n0) with Ok (a, _) => Ok a | _ => Err (EMsg "execution reverted") end, n0) = (Ok p, n') -> length p = length svs) as Hp.
    { intros n0. destruct (previewSettlementResults svs (nd_chain n0)) as [[a w']| |] eqn:E; try done. intros [= -> _].
      unfold previewSettlementResults in E. rewrite (preview_all_each svs no_check _ (no_check_ok _)) in E. by eapply preview_each_length. }
    destruct (nd_future n) as [|[now|acts|] fut]; try apply Hp. done.
  - intros l n. cbn. destruct (pack_all l); [apply view_no_panic|done|done].
  - intros l n. cbn. apply rpc_no_panic. intros n'. by destruct (pack_all l).
  - intros p n. apply view_no_panic.
  - intros p n. apply view_no_panic.
  - intros a p n. apply view_no_panic.
  - intros us p n. apply view_no_panic.
Qed.


#[export] Instance node_nonces_laws : NonceReaderLaws node.
Proof. intros u p n. apply view_no_panic. Qed.

(** ** What the client reads of a receipt *)

Definition is_charge (s : SettlementStatus) : bool :=
  match s with StatusSuccess | StatusInsufficientBalance => true | _ => false end.

(** The client's status of a voucher against the contract's. *)
Definition agrees (s s' : SettlementStatus) : Prop := if is_charge s then s' = s else is_charge s' = false.

(** [sv] is the call data of the voucher [v]. *)
Definition packed (v : SandboxVoucher) (sv : SolVoucher) : Prop :=
  (exists n f, abi_ok v n f) /\ pack (toContractVoucher v) = Ok sv.

Lemma packed_key v sv : packed v sv ->
  voucher_key v = (v_user sv, Some (v_nonce sv)) /\ in_range (v_user sv) /\ in_range (v_provider sv) /\
  in_range (v_totalFee sv) /\ in_range (v_nonce sv).
Proof.
  intros [(n & f & Hv) Hp]. rewrite (pack_ok v n f Hv) in Hp. injection Hp as <-. cbn.
  destruct Hv as (Hu & Hp & _ & Hn & _ & Hnr & Hfr). unfold voucher_key, addr_ok, addr_bound, in_range in *. rewrite Hn. split; [done|lia].
Qed.

Section Receipt.
Variables (cl : Client) (b hash : Z).

Definition step_event (m : gmap (addr * option Z) SettlementStatus) (l : Log) : gmap (addr * option Z) SettlementStatus :=
  if bool_decide (lg_Address l = c_contractAddr cl) && bool_decide (lg_Topic l = Some voucherSettledTopic)
  then match parse_settled l with Some ev => <[(sl_User ev, Some (sl_Nonce ev)) := sl_Status ev]> m | None => m end
  else m.

Definition logs (l : list Event) : list Log := log_of (c_contractAddr cl) b hash <$> l.

Lemma step_settled m v sv s : packed v sv -> is_charge s = true ->
  step_event m (log_of (c_contractAddr cl) b hash
    (VoucherSettled (v_user sv) (v_provider sv) (v_totalFee sv) (v_usageHash sv) (v_nonce sv) s)) = <[voucher_key v := s]> m.
Proof.
  intros Hp _. destruct (packed_key v sv Hp) as (-> & Hu & Hpr & Hf & Hn). unfold step_event.
  rewrite (parse_log_of (c_contractAddr cl) b hash _ _ _ (v_usageHash sv) _ s Hu Hpr Hf Hn).
  cbn [log_of lg_Address lg_Topic]. by rewrite !bool_decide_true.
Qed.

Lemma logs_cons m v sv s svs sts : packed v sv ->
  foldl step_event m (logs (settlement_log (sv :: svs) (s :: sts))) =
  foldl step_event (if is_charge s then <[voucher_key v := s]> m else m) (logs (settlement_log svs sts)).
Proof.
  intros Hp. unfold settlement_log. cbn [zip zip_with omap list_omap settlement_event].
  destruct s; cbn [is_charge logs fmap list_fmap foldl]; rewrite ?(step_settled m v sv) by done; reflexivity.
Qed.

Lemma logs_other vs svs : Forall2 packed vs svs -> forall sts m k,
  k ∉ voucher_key <$> vs -> foldl step_event m (logs (settlement_log svs sts)) !! k = m !! k.
Proof.
  induction 1 as [|v sv vs svs Hp Hv IH]; intros sts m k Hk; [by destruct sts|]. destruct sts as [|s sts]; [done|].
  rewrite (logs_cons m v sv s svs sts Hp). rewrite IH by set_solver. destruct (is_charge s); [|done].
  apply lookup_insert_ne. set_solver.
Qed.

(** Every charge is found under its voucher's key, and nothing else is. *)
Lemma logs_statuses vs svs : Forall2 packed vs svs -> forall sts m, NoDup (voucher_key <$> vs) -> length sts = length svs ->
  (forall v, v ∈ vs -> m !! voucher_key v = None) ->
  Forall2 (fun v s => foldl step_event m (logs (settlement_log svs sts)) !! voucher_key v = if is_charge s then Some s else None) vs sts.
Proof.
  induction 1 as [|v sv vs svs Hp Hv IH]; intros sts m Hnd Hl Hm; [by destruct sts|]. destruct sts as [|s sts]; [done|].
  apply NoDup_cons in Hnd as [Hk Hnd]. rewrite (logs_cons m v sv s svs sts Hp). constructor.
  - rewrite (logs_other vs svs Hv) by done. destruct (is_charge s); [apply lookup_insert_eq|apply Hm; left].
  - apply IH; [done|by injection Hl|]. intros v' Hin. destruct (is_charge s); [|apply Hm; by right].
    rewrite lookup_insert_ne; [apply Hm; by right|]. intros E. apply Hk. rewrite E. by apply list_elem_of_fmap_2.
Qed.

Lemma weave_agrees m vs sts : forall previewed,
  Forall2 (fun v s => m !! voucher_key v = if is_charge s then Some s else None) vs sts ->
  length previewed = length (eventless m vs) -> Forall (fun s => is_charge s = false) previewed ->
  Forall2 agrees sts (weave m vs previewed).
Proof.
  intros previewed Hm. revert previewed. unfold eventless. induction Hm as [|v s vs sts Hv _ IH]; intros previewed Hl Hp; [constructor|].
  cbn [weave]. rewrite filter_cons in Hl. rewrite Hv in *. unfold agrees at 1. destruct (is_charge s) eqn:Es.
  - rewrite decide_False in Hl by done. constructor; [by rewrite Es|by apply IH].
  - rewrite decide_True in Hl by done. destruct previewed as [|s' previewed]; [done|]. inversion_clear Hp.
    constructor; [by rewrite Es|]. apply IH; [by injection Hl|done].
Qed.
End Receipt.

Definition refusable (w : chain R) (sv : SolVoucher) : Prop := exists s, check_one sv w = Ok (Some s, w).

Lemma refused_no_charge sv s (w w' : chain R) : check_one sv w = Ok (Some s, w') -> is_charge s = false.
Proof. intros Hc. apply check_one_refuses in Hc. by destruct s. Qed.

Lemma preview_refused msvs w : Forall (refusable w) msvs ->
  exists p, preview_each msvs w = Ok (p, w) /\ length p = length msvs /\ Forall (fun s => is_charge s = false) p.
Proof.
  induction 1 as [|sv msvs [s Hs] _ (p & Hp & Hl & Hf)]; [by exists []|]. exists (s :: p). cbn [preview_each].
  rewrite tx_bind_eq, Hs. cbn [res_bind fst snd]. rewrite mret_bind, tx_bind_eq, Hp. cbn. split_and!; [done|by rewrite Hl|].
  constructor; [by eapply refused_no_charge|done].
Qed.

(** What a batch refused is refused after it too. *)
Lemma settle_each_refused svs : forall w sts w',
  settle_each svs w = Ok (sts, w') -> later w w' /\ Forall2 (fun sv s => is_charge s = false -> refusable w' sv) svs sts.
Proof.
  induction svs as [|sv svs IH]; intros w sts w' Hs; cbn [settle_each] in Hs.
  { apply mret_inv in Hs as [-> ->]. split; [apply later_refl|constructor]. }
  apply tx_bind_inv in Hs as (o & wa & Ho & Hs). pose proof (check_one_pure _ _ _ _ Ho) as ->.
  apply tx_bind_inv in Hs as (s & wb & Hb & Hs). apply tx_bind_inv in Hs as (rest & wc & Hr & Hs).
  apply mret_inv in Hs as [-> ->]. destruct (IH _ _ _ Hr) as [Hl Hf].
  destruct o as [s'|].
  - apply mret_inv in Hb as [-> ->]. split; [done|]. constructor; [|done]. intros _. by eapply refused_later.
  - pose proof (check_one_charge _ _ _ Ho) as [Hpass _]. apply charge_spec in Hb as [-> ->].
    split; [eapply later_trans; [apply charge_later, Hpass|exact Hl]|]. constructor; [|done].
    intros Hc. unfold verdict in Hc. by destruct (_ <=? _).
Qed.

Lemma eventless_refusable m w vs svs sts :
  Forall2 packed vs svs -> Forall2 (fun sv s => is_charge s = false -> refusable w sv) svs sts ->
  Forall2 (fun v s => m !! voucher_key v = if is_charge s then Some s else None) vs sts ->
  exists msvs, Forall2 packed (eventless m vs) msvs /\ Forall (refusable w) msvs.
Proof.
  intros Hp. revert sts. unfold eventless. induction Hp as [|v sv vs svs Hv _ IH]; intros sts Hr Hm; [by exists []|].
  destruct sts as [|s sts']; [by inversion Hr|]. apply Forall2_cons in Hr as [Hs Hr'], Hm as [Hk Hm'].
  destruct (IH sts' Hr' Hm') as (msvs & Hpk & Hrf). rewrite filter_cons. destruct (is_charge s) eqn:Es.
  - rewrite decide_False by congruence. by exists msvs.
  - rewrite decide_True by done. exists (sv :: msvs). split; constructor; auto.
Qed.

Lemma pack_all_packed vs svs : Forall2 packed vs svs -> pack_all (toContractVouchers vs) = Ok svs.
Proof.
  unfold toContractVouchers. induction 1 as [|v sv vs svs [_ Hp] _ IH]; [done|]. cbn [fmap list_fmap pack_all].
  by rewrite Hp, IH.
Qed.

(** C7: the client reads off a receipt what the contract did.  For a batch
    whose vouchers differ in user or nonce, mined and settled by the contract:
    asked before anything else happens, SettleStatusesFromReceipt returns, a
    charged voucher has exactly the status it was charged with, and no voucher
    that was not charged is reported as charged. *)
Theorem receipt_tells_what_was_charged cl vs svs w sts w' b hash (W : world node) :
  Forall2 packed vs svs -> NoDup (voucher_key <$> vs) -> settleFeesWithTEE svs w = Ok (sts, w') ->
  nd_chain (w_chain W) = w' -> nd_future (w_chain W) = [] ->
  exists sts' W', SettleStatusesFromReceipt cl
      (mkReceipt 1 (log_of (c_contractAddr cl) b hash <$> drop (length (evs w)) (evs w'))) vs W = (Ok sts', W') /\
    Forall2 agrees sts sts'.
Proof.
  intros Hp Hnd Hs Hw Hf. unfold settleFeesWithTEE in Hs. apply nonReentrant_inv in Hs as (_ & w1 & Hs & Ew).
  rewrite (settle_all_each svs no_check _ (no_check_ok _)) in Hs.
  destruct (settle_each_log _ _ _ _ Hs) as [Hl El]. cbn [evs] in El. destruct (settle_each_refused _ _ _ _ Hs) as [_ Hr].
  assert (drop (length (evs w)) (evs w') = settlement_log svs sts) as ->. { rewrite Ew. cbn [evs]. rewrite El. apply drop_app_length. }
  assert (later w1 w') as Hlat by (rewrite Ew; split; (done || intros; apply Z.le_refl)).
  set (m := from_event cl (log_of (c_contractAddr cl) b hash <$> settlement_log svs sts)).
  assert (Forall2 (fun v s => m !! voucher_key v = if is_charge s then Some s else None) vs sts) as Hm.
  { apply (logs_statuses cl b hash vs svs Hp sts ∅ Hnd Hl). intros. apply lookup_empty. }
  assert (Forall2 (fun sv s => is_charge s = false -> refusable w' sv) svs sts) as Hr'.
  { eapply Forall2_impl; [exact Hr|]. intros sv s Hsv Hc. destruct (Hsv Hc) as [s' Hs']. by eapply refused_later. }
  destruct (eventless_refusable m w' vs svs sts Hp Hr' Hm) as (msvs & Hpk & Hrf).
  destruct (preview_refused msvs w' Hrf) as (p & Hpv & Hpl & Hpc).
  assert (length p = length (eventless m vs)) as Hpe by (by rewrite Hpl, (Forall2_length _ _ _ Hpk)).
  unfold SettleStatusesFromReceipt. cbn [rc_Status rc_Logs Z.eqb]. fold m.
  destruct (assign_events m 0 vs) as [[sts0 idx] missing] eqn:E.
  pose proof (assign_missing m vs 0) as Hmiss. rewrite E in Hmiss. cbn in Hmiss. subst missing.
  case_bool_decide as Hn.
  - exists sts0, W. split; [done|]. assert (sts0 = weave m vs p) as -> by (by rewrite (weave_all _ _ _ Hn), E).
    by apply weave_agrees.
  - exists (weave m vs p), W. split; [|by apply weave_agrees].
    unfold bind, PreviewSettlementResults, chain_call. cbn [b_PreviewSettlementResults node_bindings].
    rewrite (pack_all_packed _ _ Hpk). unfold call_view, rpc. rewrite Hf, Hw. unfold previewSettlementResults.
    rewrite (preview_all_each msvs no_check _ (no_check_ok _)), Hpv.
    pose proof (fill_weave m vs 0 [] _ _ _ p E eq_refl ltac:(lia)) as Hfill. cbn in Hfill. rewrite Hfill.
    unfold lift_res. by destruct W.
Qed.

End Node.

(** ** Concrete runs *)

Module NodeExamples.
Import Toy ToyChain SessionExamples BooksExamples OnchainExamples.

Definition node_of (w : chain book) (future : list tick) : node (R := book) := mkNode w 99 16601 8192 [] 7 7 100 ∅ [] future.

Definition kms_free : Client := mkClient 99 5 16601 8192 8192 8192 false.

Definition signer8192 : Signer := mkSigner 8192 16601 99 8192.

Definition two_usages : redis := set_list (LQueue 8192) (marshal <$> [usage "sb-1" 4096 10; usage "sb-2" 4096 7]) empty_redis.

Definition end_world (future : list tick) : world (node (R := book)) := world_of (node_of funded future) two_usages [] 1000.

Definition drained (future : list tick) := drain (CC := wire kms_free) signer8192 9 cfg0 run_init (end_world future).


(** Two usages are drained while a block is found: the contract moved their 17
    wei from the user's balance to the provider's earnings, and the queue and
    the transaction record are empty. *)
Theorem usage_reaches_the_contract :
  let w := (drained [Others []; Others []; Mine 1001]).2 in
  list_at (w_redis w) (LQueue 8192) = [] /\ r_pending (w_redis w) !! 8192 = None /\
  earnings (st (nd_chain (w_chain w))) 8192 = 17 /\ balance (st (nd_chain (w_chain w))) 4096 8192 = 983 /\
  last_nonce (st (nd_chain (w_chain w))) 4096 8192 = 2.
Proof. vm_compute. done. Qed.

Lemma end_pre future : drain_pre (H1 := wire kms_free) (end_world future).
Proof.
  split; [done|by vm_compute|done| |by vm_compute]. split; [|cbn; unfold held_users_at; cbn; set_solver].
  change (Forall raw_typed (marshal <$> [usage "sb-1" 4096 10; usage "sb-2" 4096 7])). cbn [fmap list_fmap].
  repeat (apply Forall_cons; split; [apply usage_typed; [by vm_compute|lia]|]). by apply Forall_nil.
Qed.

Lemma signer8192_ok : signer_ok signer8192.
Proof. unfold signer_ok. cbn. lia. Qed.

(** The settler over the client over the contract. *)
Lemma settler_over_client_conserves_witness :
  settles_from (H1 := wire kms_free) two_usages
    (drain (CC := wire kms_free) signer8192 9 cfg0 run_init) (end_world [Others []; Others []; Mine 1001]).
Proof. exact (settler_over_client_conserves kms_free signer8192 9 cfg0 run_init _ (end_pre _) signer8192_ok). Defined.

(** *** A receipt read at once, and one read too late *)

Definition sol_of (v : SandboxVoucher) : SolVoucher :=
  match pack (toContractVoucher v) with Ok sv => sv | _ => mkSolVoucher 0 0 0 [] 0 [] end.

Lemma go_packed : Forall2 packed [go_signed] [sol_of go_signed].
Proof.
  apply Forall2_cons. split; [split|by apply Forall2_nil].
  - exists 1, 60. vm_compute. by split_and!.
  - vm_compute. reflexivity.
Qed.

Definition settled1 : list SettlementStatus * chain book :=
  match settleFeesWithTEE [sol_of go_signed] funded with Ok x => x | _ => ([], funded) end.

Lemma settles1 : settleFeesWithTEE [sol_of go_signed] funded = Ok (settled1.1, settled1.2).
Proof. vm_compute. reflexivity. Qed.

Definition asked_at_once : world (node (R := book)) := world_of (node_of settled1.2 []) empty_redis [] 1000.

Lemma go_distinct : NoDup (voucher_key <$> [go_signed]).
Proof. apply NoDup_singleton. Qed.

Lemma receipt_tells_what_was_charged_witness :
  exists sts' W', SettleStatusesFromReceipt kms_free
      (mkReceipt 1 (log_of 99 101 7 <$> drop (length (evs funded)) (evs settled1.2))) [go_signed] asked_at_once = (Ok sts', W') /\
    Forall2 agrees settled1.1 sts'.
Proof.
  exact (receipt_tells_what_was_charged kms_free [go_signed] [sol_of go_signed] funded settled1.1 settled1.2 101 7 asked_at_once
    go_packed go_distinct settles1 eq_refl eq_refl).
Defined.

(** The user withdrew its acknowledgement before the batch was mined and renewed
    it before the receipt was read. *)
Definition unacked : chain book := exec (Elsewhere (fun r => mkBook (bk_owner r) (bk_epoch r) (bk_nodes r) [])) funded.

Definition reacked : tick (R := book) := Others [Elsewhere (fun r => mkBook (bk_owner r) (bk_epoch r) (bk_nodes r) [4096])].

(** A preview forgives usage.  The contract refuses a voucher as not
    acknowledged and logs nothing; by the time the client previews the voucher
    to learn why, the user has acknowledged again and the preview answers
    success.  The settler then drops a voucher that was never charged. *)
Theorem preview_forgives_usage :
  (exists w, settleFeesWithTEE [sol_of go_signed] unacked = Ok ([StatusNotAcknowledged], w)) /\
  (SettleStatusesFromReceipt kms_free (mkReceipt 1 []) [go_signed]
     (world_of (node_of unacked [reacked]) empty_redis [] 1000)).1 = Ok [StatusSuccess] /\
  earnings (st unacked) 8192 = 0.
Proof.
  split; [eexists; vm_compute; reflexivity|]. split; vm_compute; reflexivity.
Qed.

End NodeExamples.
