(* ===== verification/Tee.v ===== *)
(** * Keys and identities from the TEE (internal/tee)

    The local tapp daemon answers over gRPC, a call on the outside state; what
    the sources check of its answers is modelled: the app's signing key, the
    KMS provider key, and the identity of another app, node by node.  The
    environment is an argument. *)

From S2P Require Import Prelude Decimal Hex Bytes Crypto Json CreatePolicy Voucher Store Config ChainTypes Chain Guard Seal Attestor Identity.

(** ** The daemon's answers *)

(** [internal/tee/appkey.go:20-26 AppKey] *)
Record AppKey := mkAppKey { PrivateKeyHex : string; EthAddressHex : string }.

(** The answer to GetAppSecretKey. *)
Record SecretAnswer := mkSecretAnswer { sa_Success : bool; sa_PrivateKey : bytes; sa_EthAddress : bytes }.

(** The answer to GetAppSigner. *)
Record SignerAnswer := mkSignerAnswer {
  sg_Success : bool;
  sg_KeySource : string;
  sg_Derivation : string;
  sg_Secret : bytes;
  sg_EthAddress : bytes;
  sg_PublicKey : bytes;
  sg_MeasuredInEvidence : bool;
  sg_Commitment : bytes;
  sg_CommitmentScheme : string
}.

(** One node's observation in the answer to ResolveAppIdentity. *)
Record NodeObservation := mkObservation {
  no_CheckedAt : Z;
  no_ExpiresAt : Z;
  no_ImageEnv : string;
  no_TlsSpkiSha256 : string;
  no_AppSigner : string
}.

(** The answer to ResolveAppIdentity; a nil node is [None]. *)
Record IdentityAnswer := mkIdentityAnswer {
  ia_Success : bool;
  ia_ChainId : Z;
  ia_AppId : string;
  ia_RegistryAddress : string;
  ia_RegisteredAt : Z;
  ia_Nodes : list (option NodeObservation)
}.

(** The daemon behind a dial target. *)
Class TappDaemon (C : Type) := {
  rpc_GetAppSecretKey : string -> string -> C -> res SecretAnswer * C;
  rpc_GetAppSigner : string -> string -> C -> res SignerAnswer * C;
  rpc_ResolveAppIdentity : string -> Z -> string -> string -> C -> res (option IdentityAnswer) * C
}.

(** [crypto.ToECDSA], [crypto.HexToECDSA], and [crypto.DecompressPubkey] followed
    by [PubkeyToAddress]. *)
Class SecpKeys := {
  ToECDSA : bytes -> res Z;
  HexToECDSA : string -> res Z;
  pubkey_address : bytes -> option addr
}.

(** A private key is its big-endian scalar; reading a key from hex text decodes
    the text first. *)
Class SecpLaws `{SecpKeys} := {
  to_ecdsa_scalar : forall b k, ToECDSA b = Ok k -> k = be_value b;
  hex_to_ecdsa : forall s b, hex_decode s = Some b -> HexToECDSA s = ToECDSA b
}.

(** [internal/tee/appkey.go:115-120 envOrDefault] *)
Definition envOrDefault (getenv : string -> string) (key dflt : string) : string :=
  if bool_decide (getenv key <> EmptyString) then getenv key else dflt.

(** [internal/tee/appkey.go:126-133 tappTarget] *)
Definition tappTarget (getenv : string -> string) : string :=
  let sock := getenv "BACKEND_TAPP_SOCKET" in
  if bool_decide (sock <> EmptyString) then "unix://" +:+ sock
  else envOrDefault getenv "BACKEND_TAPP_IP" "127.0.0.1" +:+ ":" +:+ envOrDefault getenv "BACKEND_TAPP_PORT" "50051".

Section Keys.
Context `{Ecdsa} `{SecpKeys} {C : Type} `{TappDaemon C}.
Variable getenv : string -> string.

(** [internal/tee/appkey.go:64-75 fetchMock] *)
Definition fetchMock : res AppKey :=
  let raw := getenv "MOCK_APP_PRIVATE_KEY" in
  if bool_decide (raw = EmptyString) then Err (EMsg "tee: MOCK_TEE is set but MOCK_APP_PRIVATE_KEY is empty")
  else
    let keyHex := trim_prefix "0x" raw in
    if negb (String.length keyHex =? 64)%nat then Err (EMsg "tee: MOCK_APP_PRIVATE_KEY must be a 32-byte hex string")
    else Ok (mkAppKey keyHex (getenv "MOCK_APP_ETH_ADDRESS")).

(** [internal/tee/appkey.go:86-113 fetchGRPC] *)
Definition fetchGRPC : M C AppKey :=
  let! resp := chain_call (rpc_GetAppSecretKey (tappTarget getenv) (getenv "BACKEND_APP_NAME")) in
  if negb (sa_Success resp) then fail (EMsg "tee: GetAppSecretKey failed")
  else if bool_decide (sa_PrivateKey resp = []) then fail (EMsg "tee: GetAppSecretKey returned empty private key")
  else ret (mkAppKey (hex_encode (sa_PrivateKey resp)) ("0x" +:+ hex_encode (sa_EthAddress resp))).

(** [internal/tee/appkey.go:56-61 fetch] *)
Definition fetch : M C AppKey :=
  if bool_decide (getenv "MOCK_TEE" <> EmptyString) then lift_res fetchMock else fetchGRPC.

(** The key and the cache afterwards; an error leaves the cache empty.
    [internal/tee/appkey.go:42-54 Get] *)
Definition Get (cachedKey : option AppKey) : M C (AppKey * option AppKey) :=
  match cachedKey with
  | Some key => ret (key, cachedKey)
  | None => let! key := fetch in ret (key, Some key)
  end.

(** ** The provider key *)

(** [internal/tee/providerkey.go:28-36 ProviderKey] *)
Record ProviderKey := mkProviderKey { pk_PrivateKeyHex : string; pk_Address : addr; pk_InEvidence : bool }.

(** [bytes.Compare(a, b) < 0]. *)
Fixpoint bytes_lt (a b : bytes) : bool :=
  match a, b with
  | x :: a, y :: b => (x <? y) || ((x =? y) && bytes_lt a b)
  | [], _ :: _ => true
  | _, [] => false
  end.

(** The BN254 scalar modulus, big endian.
    [internal/tee/providerkey.go:103-103 canonicalCommitment] *)
Definition modulus : bytes := default [] (hex_decode "30644e72e131a029b85045b68181585d2833e84879b9709143e1f593f0000001").

(** [internal/tee/providerkey.go:101-105 canonicalCommitment] *)
Definition canonicalCommitment (commitment : bytes) : bool :=
  (length commitment =? 32)%nat && bytes_lt commitment modulus.

(** [internal/tee/providerkey.go:110-129 providerKeyFromSecret] *)
Definition providerKeyFromSecret (secret ethAddress : bytes) : res ProviderKey :=
  if negb (length secret =? 32)%nat then Err (EMsg "tee: KMS secret is not 32 bytes")
  else
    match ToECDSA secret with
    | Ok key =>
        let pk := mkProviderKey (hex_encode secret) (key_addr key) false in
        if negb (bool_decide (ethAddress = []))
           && (negb (length ethAddress =? 20)%nat || negb (be_value ethAddress =? pk_Address pk))
        then Err (EMsg "tee: tapp-server lists the KMS key as another address")
        else Ok pk
    | Err e => Err (EMsg "tee: KMS secret is not a secp256k1 private key")
    | Panic => Panic
    end.

(** [internal/tee/providerkey.go:51-61 providerKeyMock] *)
Definition providerKeyMock : res ProviderKey :=
  let raw := trim_prefix "0x" (getenv "MOCK_PROVIDER_PRIVATE_KEY") in
  if bool_decide (raw = EmptyString) then Err (EMsg "tee: MOCK_TEE is set but MOCK_PROVIDER_PRIVATE_KEY is empty")
  else match hex_decode raw with
       | None => Err (EMsg "tee: MOCK_PROVIDER_PRIVATE_KEY")
       | Some secret => providerKeyFromSecret secret []
       end.

(** The checks of one answer. [internal/tee/providerkey.go:80-98 providerKeyGRPC] *)
Definition checkSigner (resp : SignerAnswer) : res ProviderKey :=
  if negb (sg_Success resp) then Err (EMsg "tee: GetAppSigner failed")
  else if negb (bool_decide (sg_KeySource resp = "kms")) || negb (bool_decide (sg_Derivation resp = "raw-scalar-v1"))
          || negb (length (sg_EthAddress resp) =? 20)%nat
  then Err (EMsg "tee: unexpected app signer source or derivation")
  else
    res_bind (providerKeyFromSecret (sg_Secret resp) (sg_EthAddress resp)) (fun pk =>
    match pubkey_address (sg_PublicKey resp) with
    | Some a =>
        if negb (a =? pk_Address pk) then Err (EMsg "tee: app signer public key does not match the secret/address")
        else if negb (sg_MeasuredInEvidence resp) || negb (canonicalCommitment (sg_Commitment resp))
                || negb (bool_decide (sg_CommitmentScheme resp = "poseidon-bn254-4-v1"))
        then Err (EMsg "tee: app signer was not recorded in attestation evidence")
        else Ok (mkProviderKey (pk_PrivateKeyHex pk) (pk_Address pk) true)
    | None => Err (EMsg "tee: app signer public key does not match the secret/address")
    end).

(** [internal/tee/providerkey.go:63-99 providerKeyGRPC] *)
Definition providerKeyGRPC : M C ProviderKey :=
  let appID := getenv "BACKEND_APP_NAME" in
  if bool_decide (appID = EmptyString) then fail (EMsg "tee: BACKEND_APP_NAME is required for the KMS provider key")
  else
    let! resp := chain_call (rpc_GetAppSigner (tappTarget getenv) appID) in
    lift_res (checkSigner resp).

(** [internal/tee/providerkey.go:44-49 GetProviderKey] *)
Definition GetProviderKey : M C ProviderKey :=
  if bool_decide (getenv "MOCK_TEE" <> EmptyString) then lift_res providerKeyMock else providerKeyGRPC.

End Keys.

(** ** The identity of an app *)

(** What the loop over the nodes has collected: the signer (zero before the
    first), the pins in order, the earliest expiry. *)
Record collected := mkCollected { co_Signer : addr; co_Pins : list string; co_ExpiresAt : option Z }.

Definition no_nodes : collected := mkCollected 0 [] None.

(** [internal/tee/identity.go:58-58 appIdentityFromResponse] *)
Definition node_pin (n : NodeObservation) : string := to_lower (trim_prefix "0x" (no_TlsSpkiSha256 n)).

(** [internal/tee/identity.go:54-55 appIdentityFromResponse] *)
Definition stale (now : Z) (n : NodeObservation) : bool :=
  (no_CheckedAt n <=? 0) || (now + 30 <? no_CheckedAt n) || (no_ExpiresAt n <=? now)
  || (no_CheckedAt n + 300 <? no_ExpiresAt n) || negb (bool_decide (no_ImageEnv n = "prod")).

(** One node. [internal/tee/identity.go:54-83 appIdentityFromResponse] *)
Definition observe (now : Z) (out : collected) (node : option NodeObservation) : res collected :=
  match node with
  | None => Err (EMsg "tee: expired or non-production identity")
  | Some n =>
      if stale now n then Err (EMsg "tee: expired or non-production identity")
      else
        let pin := node_pin n in
        if match hex_decode pin with Some d => negb (length d =? 32)%nat | None => true end
        then Err (EMsg "tee: invalid app TLS pin")
        else if bool_decide (no_AppSigner n = EmptyString) then Ok out
        else if negb (IsHexAddress (no_AppSigner n)) || (hex_to_address (no_AppSigner n) =? 0)
        then Err (EMsg "tee: invalid stable app signer")
        else
          let signer := hex_to_address (no_AppSigner n) in
          if negb (co_Signer out =? 0) && negb (co_Signer out =? signer)
          then Err (EMsg "tee: current nodes disagree about the stable app signer")
          else Ok (mkCollected signer
                 (if bool_decide (pin ∈ co_Pins out) then co_Pins out else co_Pins out ++ [pin])
                 (Some (match co_ExpiresAt out with
                        | Some t => if no_ExpiresAt n <? t then no_ExpiresAt n else t
                        | None => no_ExpiresAt n
                        end)))
  end.

(** [internal/tee/identity.go:51-84 appIdentityFromResponse] *)
Fixpoint observe_all (now : Z) (out : collected) (nodes : list (option NodeObservation)) : res collected :=
  match nodes with
  | [] => Ok out
  | n :: rest => res_bind (observe now out n) (fun out => observe_all now out rest)
  end.

(** [internal/tee/identity.go:44-89 appIdentityFromResponse] *)
Definition appIdentityFromResponse (resp : option IdentityAnswer) (chainID : Z) (registry appID : string) (now : Z) : res AppIdentity :=
  match resp with
  | None => Err (EMsg "tee: identity response does not match app/chain/registry/instance")
  | Some r =>
      if negb (ia_Success r) || negb (ia_ChainId r =? chainID) || negb (bool_decide (ia_AppId r = appID))
         || negb (IsHexAddress registry) || negb (IsHexAddress (ia_RegistryAddress r))
         || negb (hex_to_address registry =? hex_to_address (ia_RegistryAddress r))
         || (ia_RegisteredAt r =? 0) || bool_decide (ia_Nodes r = [])
      then Err (EMsg "tee: identity response does not match app/chain/registry/instance")
      else
        res_bind (observe_all now no_nodes (ia_Nodes r)) (fun out =>
        if co_Signer out =? 0 then Err (EMsg "tee: no current node has a ready stable app signer")
        else Ok (mkIdentity appID (co_Signer out) (co_Pins out) (ia_RegisteredAt r) (default 0 (co_ExpiresAt out))))
  end.

(** The discovery that cmd/billing/attestor.go calls.
    [internal/tee/identity.go:26-42 ResolveAppIdentity] *)
Definition resolve_app_identity `{TappDaemon C} (getenv : string -> string) : TappLookup C := fun now chainID registry appID c =>
  if bool_decide (getenv "BACKEND_TAPP_SOCKET" = EmptyString)
  then (Err (EMsg "tee: BACKEND_TAPP_SOCKET is required for identity discovery"), c)
  else
    let '(resp, c) := rpc_ResolveAppIdentity (tappTarget getenv) chainID registry appID c in
    (res_bind resp (fun resp => res_bind (appIdentityFromResponse resp chainID registry appID now) (fun ident => Ok (Some ident))), c).

(** ** Lemmas *)

(** An observation that is current, of a production node, with a good pin. *)
Record current (now : Z) (n : NodeObservation) : Prop := {
  cu_checked : 0 < no_CheckedAt n <= now + 30;
  cu_expires : now < no_ExpiresAt n <= no_CheckedAt n + 300;
  cu_prod : no_ImageEnv n = "prod"%string;
  cu_pin : pin_ok (node_pin n)
}.

(** The nodes with a signer, in order. *)
Definition ready (nodes : list (option NodeObservation)) : list NodeObservation :=
  filter (fun n => no_AppSigner n <> EmptyString) (omap id nodes).

Lemma ready_cons n nodes : ready (Some n :: nodes) = if bool_decide (no_AppSigner n = EmptyString) then ready nodes else n :: ready nodes.
Proof.
  unfold ready. cbn [omap list_omap id]. rewrite filter_cons.
  destruct (bool_decide_reflect (no_AppSigner n = EmptyString)); [by rewrite decide_False by (intros Hn; by apply Hn)|by rewrite decide_True].
Qed.

Definition earlier (t : option Z) (x : Z) : Z := match t with Some t => if x <? t then x else t | None => x end.

Lemma observe_inv now out node out' :
  observe now out node = Ok out' ->
  exists n, node = Some n /\ current now n /\
    if bool_decide (no_AppSigner n = EmptyString) then out' = out
    else hex_to_address (no_AppSigner n) <> 0 /\ (co_Signer out = 0 \/ co_Signer out = hex_to_address (no_AppSigner n)) /\
      out' = mkCollected (hex_to_address (no_AppSigner n))
        (if bool_decide (node_pin n ∈ co_Pins out) then co_Pins out else co_Pins out ++ [node_pin n])
        (Some (earlier (co_ExpiresAt out) (no_ExpiresAt n))).
Proof.
  unfold observe. destruct node as [n|]; [|done]. destruct (stale now n) eqn:Es; [done|]. cbv zeta.
  destruct (hex_decode (node_pin n)) as [d|] eqn:Ed; [|done]. destruct (negb (length d =? 32)%nat) eqn:El; [done|].
  intros E. exists n. split; [done|]. unfold stale in Es. zbool. apply Nat.eqb_eq in El. split.
  { split; [lia|lia|done|]. exists d. split; [done|]. split; [done|]. unfold node_pin. apply to_lower_idemp. }
  case_bool_decide; [by injection E as <-|].
  destruct (_ || _) eqn:Ea; [done|]. destruct (_ && _) eqn:Ec; [done|]. injection E as <-. zbool.
  split; [done|]. split; [|done]. apply andb_false_iff in Ec as [Ec|Ec]; zbool; auto.
Qed.

(** What the loop makes of its start. *)
Lemma observe_all_inv now nodes : forall out out',
  observe_all now out nodes = Ok out' ->
  Forall (fun o => exists n, o = Some n /\ current now n) nodes /\
  Forall (fun n => hex_to_address (no_AppSigner n) = co_Signer out') (ready nodes) /\
  (ready nodes = [] -> out' = out) /\ (ready nodes <> [] -> co_Signer out' <> 0) /\
  (co_Signer out = 0 \/ co_Signer out' = co_Signer out) /\
  co_Pins out' = foldl (fun ks k => if decide (k ∈ ks) then ks else ks ++ [k]) (co_Pins out) (node_pin <$> ready nodes) /\
  co_ExpiresAt out' = foldl (fun t x => Some (earlier t x)) (co_ExpiresAt out) (no_ExpiresAt <$> ready nodes).
Proof.
  induction nodes as [|o nodes IH]; intros out out' E; cbn [observe_all] in E.
  { injection E as <-. split_and!; try done; auto. }
  destruct (observe now out o) as [out1| |] eqn:Eo; cbn [res_bind] in E; [|done..].
  apply observe_inv in Eo as (n & -> & Hc & Ho). destruct (IH _ _ E) as (Hf & Hs & H1' & H2' & H3' & Hp & He).
  rewrite ready_cons. destruct (bool_decide_reflect (no_AppSigner n = EmptyString)) as [Hn|Hn].
  { subst out1. split_and!; try done. constructor; [by exists n|done]. }
  destruct Ho as (Hz & Hsig & ->). cbn [co_Signer co_Pins co_ExpiresAt] in *.
  assert (co_Signer out' = hex_to_address (no_AppSigner n)) as Hsn by (destruct H3'; congruence).
  split_and!.
  - constructor; [by exists n|done].
  - constructor; [by rewrite Hsn|done].
  - done.
  - intros _. by rewrite Hsn.
  - destruct Hsig as [? | ->]; [by left|by right].
  - rewrite Hp. cbn [fmap list_fmap foldl]. f_equal.
    case_bool_decide; [by rewrite decide_True|by rewrite decide_False].
  - by rewrite He.
Qed.

Lemma earliest_spec l : forall t,
  l <> [] \/ t <> None -> exists m, foldl (fun t x => Some (earlier t x)) t l = Some m /\
    (Some m = t \/ m ∈ l) /\ Forall (fun x => m <= x) l /\ (forall y, t = Some y -> m <= y).
Proof.
  induction l as [|x l IH]; intros t Ht; cbn [foldl].
  { destruct t as [y|]; [|by destruct Ht]. exists y. split_and!; [done|by left|constructor|]. by intros ? [= <-]. }
  destruct (IH (Some (earlier t x)) ltac:(by right)) as (m & -> & Hm & Hf & Hle).
  specialize (Hle _ eq_refl). exists m. split; [done|].
  assert (earlier t x <= x /\ forall y, t = Some y -> earlier t x <= y) as [Hx Hy].
  { unfold earlier. destruct t as [y|]; [|split; [lia|done]]. destruct (Z.ltb_spec x y); split; try lia; intros ? [= <-]; lia. }
  split_and!.
  - destruct Hm as [[= ->]|Hm]; [|right; by right]. unfold earlier. destruct t as [y|]; [|right; left].
    destruct (x <? y); [right; left|by left].
  - constructor; [lia|done].
  - intros y Hy'. specialize (Hy y Hy'). lia.
Qed.

(** What a resolution says of the nodes that stand behind an identity: all are
    current production nodes, those with a signer share it, and the lease ends
    with the first of theirs. *)
Record vouched (now : Z) (nodes : list (option NodeObservation)) (ident : AppIdentity) : Prop := {
  vo_nodes : Forall (fun o => exists n, o = Some n /\ current now n) nodes;
  vo_signer : ai_Signer ident <> 0 /\ Forall (fun n => hex_to_address (no_AppSigner n) = ai_Signer ident) (ready nodes);
  vo_pins : ai_TLSPins ident <> [] /\ NoDup (ai_TLSPins ident) /\ Forall pin_ok (ai_TLSPins ident) /\
    forall pin, pin ∈ ai_TLSPins ident <-> exists n, n ∈ ready nodes /\ node_pin n = pin;
  vo_first : exists n, n ∈ ready nodes /\ ai_ExpiresAt ident = no_ExpiresAt n;
  vo_lease : Forall (fun n => ai_ExpiresAt ident <= no_ExpiresAt n) (ready nodes)
}.

(** The daemon's answer concerns the app, the chain and the registry asked for. *)
Definition in_scope (chainID : Z) (registry appID : string) (r : IdentityAnswer) : Prop :=
  ia_Success r = true /\ ia_ChainId r = chainID /\ ia_AppId r = appID /\
  hex_to_address (ia_RegistryAddress r) = hex_to_address registry /\ ia_RegisteredAt r <> 0.

Lemma elem_of_ready n nodes : n ∈ ready nodes -> Some n ∈ nodes.
Proof. intros [_ Hn]%list_elem_of_filter. apply list_elem_of_omap in Hn as (o & Ho & Hs). cbn in Hs. by subst o. Qed.

Lemma ready_current now nodes :
  Forall (fun o => exists n, o = Some n /\ current now n) nodes -> Forall (current now) (ready nodes).
Proof.
  rewrite !Forall_forall. intros Hf n Hn%elem_of_ready. destruct (Hf _ Hn) as (m & [= <-] & Hm). done.
Qed.

Lemma appIdentityFromResponse_Ok resp chainID registry appID now ident :
  appIdentityFromResponse resp chainID registry appID now = Ok ident ->
  exists r, resp = Some r /\ in_scope chainID registry appID r /\ ai_AppID ident = appID /\
    ai_RegisteredAt ident = ia_RegisteredAt r /\ vouched now (ia_Nodes r) ident.
Proof.
  unfold appIdentityFromResponse. destruct resp as [r|]; [|done]. destruct (_ || _) eqn:Eb; [done|].
  destruct (observe_all now no_nodes (ia_Nodes r)) as [out| |] eqn:Eo; cbn [res_bind]; [|done..].
  destruct (Z.eqb_spec (co_Signer out) 0) as [|Hz]; [done|]. intros [= <-]. exists r. zbool.
  destruct (observe_all_inv _ _ _ _ Eo) as (Hf & Hs & Hn & _ & _ & Hp & He).
  destruct (decide (ready (ia_Nodes r) = [])) as [Hr|Hr]; [by rewrite (Hn Hr) in Hz|].
  destruct (earliest_spec (no_ExpiresAt <$> ready (ia_Nodes r)) None) as (m & Em & Hin & Hle & _).
  { left. by intros E%fmap_nil_inv. }
  cbn [co_ExpiresAt co_Pins no_nodes] in He, Hp. rewrite Em in He. destruct Hin as [|Hin]; [done|].
  change (foldl _ [] ?l) with (distinct l) in Hp.
  assert (forall pin, pin ∈ co_Pins out <-> exists n, n ∈ ready (ia_Nodes r) /\ node_pin n = pin) as Hpins.
  { intros pin. rewrite Hp, elem_of_distinct, list_elem_of_fmap. split; intros (n & ? & ?); by exists n. }
  split; [done|]. split; [by split_and!|]. split; [done|]. split; [done|]. split; cbn [ai_Signer ai_TLSPins ai_ExpiresAt].
  - done.
  - done.
  - split; [|split; [by rewrite Hp; apply NoDup_distinct|split; [|done]]].
    + destruct (ready (ia_Nodes r)) as [|n l] eqn:El; [done|]. intros E.
      apply (not_elem_of_nil (node_pin n)). rewrite <- E. apply Hpins. exists n. split; [left|done].
    + apply Forall_forall. intros pin (n & Hin' & <-)%Hpins.
      pose proof (ready_current _ _ Hf) as Hc. rewrite Forall_forall in Hc. apply (Hc n Hin').
  - rewrite He. apply list_elem_of_fmap in Hin as (n & -> & Hn'). by exists n.
  - rewrite He. cbn [default from_option id]. rewrite Forall_fmap in Hle. exact Hle.
Qed.

Lemma vouched_bounds now nodes ident : vouched now nodes ident -> now < ai_ExpiresAt ident <= now + 330.
Proof.
  intros [Hf _ _ (n & Hn & ->) _]. pose proof (ready_current _ _ Hf) as Hc. rewrite Forall_forall in Hc.
  destruct (Hc _ Hn) as [[? ?] [? ?] _ _]. lia.
Qed.

(** ** Identities in use *)

Section Attested.
Context {C : Type} `{Bindings C} `{TappDaemon C}.
Variable getenv : string -> string.
Variable s : attestorIdentity.

#[local] Instance tapp : TappLookup C := resolve_app_identity getenv.

(** At some moment [t] the daemon vouched for the identity. *)
Definition attested (ident : AppIdentity) : Prop :=
  exists t c r c', rpc_ResolveAppIdentity (tappTarget getenv) (as_chainID s) (as_registry s) (as_appID s) c = (Ok (Some r), c') /\
    in_scope (as_chainID s) (as_registry s) (as_appID s) r /\ ai_RegisteredAt ident = ia_RegisteredAt r /\ vouched t (ia_Nodes r) ident.

Definition attested_cache (cached : option AppIdentity) : Prop := forall ident, cached = Some ident -> attested ident.

Lemma resolve_Ok now (c : C) ident c' :
  ResolveAppIdentity now (as_chainID s) (as_registry s) (as_appID s) c = (Ok (Some ident), c') -> attested ident.
Proof.
  unfold ResolveAppIdentity, tapp, resolve_app_identity. case_bool_decide; [done|].
  destruct (rpc_ResolveAppIdentity _ _ _ _ c) as [x c1] eqn:Er. intros [= E <-].
  destruct x as [resp| |]; cbn [res_bind] in E; [|done..].
  destruct (appIdentityFromResponse _ _ _ _ _) as [i| |] eqn:Ei; cbn [res_bind] in E; [|done..]. injection E as <-.
  apply appIdentityFromResponse_Ok in Ei as (r & -> & Hs & _ & Hr & Hv). by exists now, c, r, c1.
Qed.

Lemma cachedFor_attested minLease now cached ident :
  attested_cache cached -> cachedFor minLease now cached = Some ident -> attested ident.
Proof. intros Hc. unfold cachedFor. destruct cached as [i|]; [|done]. case_match; [|done]. intros [= <-]. by apply Hc. Qed.

Lemma discovered_attested minLease patient cached (w : world C) x cached' w' :
  attested_cache cached -> discovered s minLease patient cached w = (Ok (x, cached'), w') ->
  attested_cache cached' /\ forall ident, x = inl ident -> attested ident.
Proof.
  intros Hc. unfold discovered. intros (now & w0 & [= <- <-] & E)%bind_Ok.
  destruct (cachedFor _ _ cached) as [i|] eqn:Ei.
  { injection E as <- <- <-. split; [done|]. intros ? [= <-]. exact (cachedFor_attested _ _ _ _ Hc Ei). }
  apply bind_Ok in E as ([y c1] & w1 & E & Ey). cbn [fst snd] in Ey.
  enough (attested_cache c1 /\ forall ident, y = inl ident -> attested ident) as [Hc1 Hy].
  { destruct patient; injection Ey as <- <- <-; (split; [exact Hc1|]); [exact Hy|intros ident Ei'; discriminate Ei']. }
  clear Ey. unfold lookup_identity in E. apply bind_Ok in E as (now & w2 & [= <- <-] & E). rewrite Ei in E.
  apply bind_Ok in E as (z & w3 & Ez & E). destruct z as [[i|]|e].
  - apply attempt_Ok, chain_call_Ok in Ez. destruct (ResolveAppIdentity _ _ _ _ _) as [z c2] eqn:Er. cbn in Ez. subst z.
    apply resolve_Ok in Er. apply bind_Ok in E as (now & w4 & [= <- <-] & E).
    case_match; injection E as <- <- <-; [|by split]. split; [|by intros ? [= <-]]. by intros ? [= <-].
  - apply bind_Ok in E as (now & w4 & [= <- <-] & E). injection E as <- <- <-. by split.
  - injection E as <- <- <-. by split.
Qed.

(** The pins and the lease that the attestor's statements carry come from
    attested nodes.  Whatever identity the process had cached, the pins it hands
    out belong to an app of which the local tapp listed every node: each was
    observed within its five minutes, runs the production image and presents a
    32-byte pin, those that have a service signer have the same one, and the
    pins are theirs without duplicates.  The lease ends with the first of their
    observations and still runs, and the chain names the registration the tapp
    resolved, with an owner. *)
Theorem pins_are_attested minLease patient cached w pins exp cached' w' :
  attested_cache cached ->
  TLSPins s minLease patient cached w = (Ok (inl (pins, exp), cached'), w') ->
  exists ident t nodes owner wm,
    vouched t nodes ident /\ pins = ai_TLSPins ident /\ exp = ai_ExpiresAt ident /\
    w_now w' < exp <= t + 330 /\ live_instance s ident owner wm /\
    in_force s (w_redis w') (instance_text (ai_RegisteredAt ident) owner) /\ attested_cache cached'.
Proof.
  intros Hc. unfold TLSPins. intros ([[i|e] c] & w1 & Ec & E)%bind_Ok; cbn [fst snd] in E; [|done].
  injection E as <- <- <- <-. apply Current_Ok in Ec as (wm & Ed & (_ & Hx & o & Hl & Hf)%authorize_Ok).
  destruct (discovered_attested _ _ _ _ _ _ _ Hc Ed) as [Hc' Hi].
  destruct (Hi i eq_refl) as (t & ch & r & ch' & _ & _ & _ & Hv). pose proof (vouched_bounds _ _ _ Hv).
  exists i, t, (ia_Nodes r), o, wm. by split_and!; try lia.
Qed.

End Attested.

(** ** The provider key *)

Lemma hex_value_range c v : hex_value c = Some v -> 0 <= v < 16.
Proof. unfold hex_value. repeat case_match; intros E; try discriminate E; injection E as <-; zbool; lia. Qed.

Lemma hex_decode_bytes b : forall s, hex_decode s = Some b -> Forall byte_ok b.
Proof.
  induction b as [|x b IH]; intros s E; [constructor|]. destruct s as [|c [|d s]]; try done. cbn [hex_decode] in E.
  destruct (hex_value c) as [h|] eqn:Eh; [|done]. destruct (hex_value d) as [l|] eqn:El; [|done].
  destruct (hex_decode s) as [b'|] eqn:Es; [|done]. injection E as <- <-. constructor; [|by eapply IH].
  apply hex_value_range in Eh, El. unfold byte_ok. lia.
Qed.

Lemma bytes_lt_be_value a : forall b,
  length a = length b -> Forall byte_ok a -> Forall byte_ok b -> bytes_lt a b = bool_decide (be_value a < be_value b).
Proof.
  induction a as [|x a IH]; intros [|y b] Hl Ha Hb; try done. injection Hl as Hl. inversion_clear Ha as [|? ? Hx Ha']. inversion_clear Hb as [|? ? Hy Hb'].
  cbn [bytes_lt be_value]. rewrite (IH b Hl Ha' Hb'), Hl.
  pose proof (be_value_range a Ha') as Hra. pose proof (be_value_range b Hb') as Hrb. rewrite Hl in Hra.
  unfold byte_ok in *. set (p := 256 ^ Z.of_nat (length b)) in *.
  assert (forall u v, u < v -> (u + 1) * p <= v * p) as Hm by (intros; apply Z.mul_le_mono_nonneg_r; lia).
  destruct (Z.ltb_spec x y) as [Hxy|]; [specialize (Hm _ _ Hxy); cbn [orb]; rewrite bool_decide_true by lia; done|].
  destruct (Z.eqb_spec x y) as [->|]; cbn [orb andb].
  - apply bool_decide_ext. lia.
  - specialize (Hm y x ltac:(lia)). rewrite bool_decide_false by lia. done.
Qed.

(** The BN254 scalar field's order. *)
Definition bn254_order : Z := 21888242871839275222246405745257275088548364400416034343698204186575808495617.

Lemma modulus_is_order : length modulus = 32%nat /\ Forall byte_ok modulus /\ be_value modulus = bn254_order.
Proof. split; [reflexivity|]. split; [|vm_compute; reflexivity]. vm_compute. repeat constructor; discriminate. Qed.

Lemma canonical_is_scalar commitment :
  Forall byte_ok commitment ->
  canonicalCommitment commitment = bool_decide (length commitment = 32%nat /\ be_value commitment < bn254_order).
Proof.
  intros Hc. destruct modulus_is_order as (Hl & Ho & Hv). unfold canonicalCommitment.
  destruct (Nat.eqb_spec (length commitment) 32) as [E|E]; cbn [andb].
  - rewrite bytes_lt_be_value, Hv by (done || by rewrite E, Hl). apply bool_decide_ext. tauto.
  - rewrite bool_decide_false by tauto. done.
Qed.

Section ProviderKeys.
Context `{Ecdsa} `{SecpLaws}.

Lemma providerKeyFromSecret_Ok secret ethAddress pk :
  Forall byte_ok secret -> providerKeyFromSecret secret ethAddress = Ok pk ->
  length secret = 32%nat /\ pk_PrivateKeyHex pk = hex_encode secret /\ pk_InEvidence pk = false /\
  HexToECDSA (pk_PrivateKeyHex pk) = Ok (be_value secret) /\ pk_Address pk = key_addr (be_value secret) /\
  (ethAddress <> [] -> length ethAddress = 20%nat /\ be_value ethAddress = pk_Address pk).
Proof.
  intros Hb. unfold providerKeyFromSecret. destruct (Nat.eqb_spec (length secret) 32) as [Hl|]; [|done]. cbn [negb].
  destruct (ToECDSA secret) as [k| |] eqn:Ek; [|done..]. cbv zeta. destruct (_ && _) eqn:Ea; [done|]. intros [= <-].
  pose proof (to_ecdsa_scalar _ _ Ek) as ->. cbn [pk_PrivateKeyHex pk_InEvidence pk_Address] in *.
  split_and!; try done; [by rewrite (hex_to_ecdsa _ _ (hex_decode_encode _ Hb))|].
  intros Hne. rewrite bool_decide_false in Ea by done. cbn [negb andb] in Ea.
  destruct (Nat.eqb_spec (length ethAddress) 20); [|done]. cbn [negb orb] in Ea. by zbool.
Qed.

Context {C : Type} `{TappDaemon C}.

(** The daemon answers with byte strings. *)
Definition answers_bytes : Prop :=
  forall target app (c : C) r c', rpc_GetAppSigner target app c = (Ok r, c') -> Forall byte_ok (sg_Secret r) /\ Forall byte_ok (sg_Commitment r).

(** C23: a provider key from the KMS is the key it says it is, and is measured.
    When [GetProviderKey] answers outside of mock mode, the local tapp answered
    for this application with a 32-byte scalar from the KMS; the hex text the
    service goes on with reads back as that scalar, the provider address is that
    key's and is the one the tapp computed from the secret and from the public
    key, and the tapp confirmed the commitment, a canonical BN254 scalar, in the
    attestation evidence. *)
Theorem provider_key_is_measured getenv (w : world C) pk w' :
  answers_bytes -> getenv "MOCK_TEE" = EmptyString ->
  GetProviderKey getenv w = (Ok pk, w') ->
  getenv "BACKEND_APP_NAME" <> EmptyString /\ pk_InEvidence pk = true /\
  exists r, (rpc_GetAppSigner (tappTarget getenv) (getenv "BACKEND_APP_NAME") (w_chain w)).1 = Ok r /\
    sg_Success r = true /\ sg_KeySource r = "kms" /\ sg_Derivation r = "raw-scalar-v1" /\
    length (sg_Secret r) = 32%nat /\ HexToECDSA (pk_PrivateKeyHex pk) = Ok (be_value (sg_Secret r)) /\
    pk_Address pk = key_addr (be_value (sg_Secret r)) /\ pk_Address pk = be_value (sg_EthAddress r) /\
    pubkey_address (sg_PublicKey r) = Some (pk_Address pk) /\
    sg_MeasuredInEvidence r = true /\ sg_CommitmentScheme r = "poseidon-bn254-4-v1" /\
    length (sg_Commitment r) = 32%nat /\ be_value (sg_Commitment r) < bn254_order.
Proof.
  intros Hb Hm. unfold GetProviderKey, providerKeyGRPC. rewrite Hm, bool_decide_false by tauto. cbn [negb].
  destruct (bool_decide_reflect (getenv "BACKEND_APP_NAME" = EmptyString)) as [|Hn]; [done|].
  intros (r & w1 & Er & E)%bind_Ok. unfold lift_res in E. injection E as E <-. split; [done|].
  assert (Forall byte_ok (sg_Secret r) /\ Forall byte_ok (sg_Commitment r)) as [Hs Hcm].
  { pose proof Er as Er'. unfold chain_call in Er'. destruct (rpc_GetAppSigner _ _ _) as [x c] eqn:Ex. injection Er' as -> _. by eapply Hb. }
  apply chain_call_Ok in Er. unfold checkSigner in E.
  destruct (sg_Success r) eqn:Esu; [|done]. cbn [negb] in E. destruct (_ || _) eqn:Eo; [done|].
  destruct (providerKeyFromSecret _ _) as [k| |] eqn:Ek; cbn [res_bind] in E; [|done..].
  apply providerKeyFromSecret_Ok in Ek as (Hl & Hh & _ & Hk & Ha & Hea); [|done].
  destruct (pubkey_address _) as [a|] eqn:Ep; [|done]. destruct (Z.eqb_spec a (pk_Address k)) as [->|]; [|done]. cbn [negb] in E.
  destruct (_ || _) eqn:Em in E; [done|]. injection E as <-. cbn [pk_InEvidence pk_PrivateKeyHex pk_Address] in *. split; [done|].
  rewrite canonical_is_scalar in Em by done. destruct (Nat.eqb_spec (length (sg_EthAddress r)) 20) as [Hl20|]; [|by rewrite !orb_true_r in Eo].
  cbn [negb] in Eo. rewrite orb_false_r in Eo. zbool.
  destruct Hea as [_ Hea]; [by intros E0; rewrite E0 in Hl20|]. exists r. split_and!; try done; tauto.
Qed.

(** Whatever the mode, the key's text reads back as the key of its address. *)
Lemma provider_key_reads_back getenv (w : world C) pk w' :
  answers_bytes -> GetProviderKey getenv w = (Ok pk, w') ->
  exists k, HexToECDSA (pk_PrivateKeyHex pk) = Ok k /\ pk_Address pk = key_addr k /\ pk_PrivateKeyHex pk <> EmptyString.
Proof.
  intros Hb E.
  assert (exists secret ethAddress k, providerKeyFromSecret secret ethAddress = Ok k /\ Forall byte_ok secret /\
    pk_PrivateKeyHex pk = pk_PrivateKeyHex k /\ pk_Address pk = pk_Address k) as (secret & ea & k & Ek & Hs & -> & ->).
  { revert E. unfold GetProviderKey. case_bool_decide; unfold lift_res.
    - unfold providerKeyMock. intros [= E _]. case_bool_decide; [done|]. destruct (hex_decode _) as [secret|] eqn:Ed; [|done].
      exists secret, [], pk. split_and!; try done. by eapply hex_decode_bytes.
    - unfold providerKeyGRPC. case_bool_decide; [done|]. intros (r & w1 & Er & E)%bind_Ok. unfold lift_res in E. injection E as E _.
      unfold chain_call in Er. destruct (rpc_GetAppSigner _ _ _) as [x c] eqn:Ex. injection Er as -> _. apply Hb in Ex as [Hs _].
      unfold checkSigner in E. destruct (negb _); [done|]. destruct (_ || _); [done|].
      destruct (providerKeyFromSecret _ _) as [k| |] eqn:Ek; cbn [res_bind] in E; [|done..].
      destruct (pubkey_address _) as [a|]; [|done]. destruct (negb _) in E; [done|]. destruct (_ || _) in E; [done|].
      injection E as <-. by exists (sg_Secret r), (sg_EthAddress r), k. }
  apply providerKeyFromSecret_Ok in Ek as (Hl & Hh & _ & Hk & Ha & _); [|done]. exists (be_value secret). split_and!; try done.
  rewrite Hh. by destruct secret.
Qed.

(** In mock mode no key counts as measured. *)
Lemma mock_key_unmeasured getenv (w : world C) pk w' :
  getenv "MOCK_TEE" <> EmptyString -> GetProviderKey getenv w = (Ok pk, w') -> pk_InEvidence pk = false.
Proof.
  intros Hm. unfold GetProviderKey. rewrite bool_decide_true by done. unfold lift_res, providerKeyMock. intros [= E _].
  case_bool_decide; [done|]. destruct (hex_decode _) as [secret|]; [|done]. unfold providerKeyFromSecret in E.
  destruct (negb _); [done|]. destruct (ToECDSA secret); [|done..]. cbv zeta in E. destruct (_ && _); [done|]. by injection E as <-.
Qed.

(** The signing key is fetched once: after a success the daemon is not asked. *)
Lemma Get_once getenv (w : world C) key cache w' w2 :
  Get getenv None w = (Ok (key, cache), w') -> cache = Some key /\ Get getenv cache w2 = (Ok (key, cache), w2).
Proof. unfold Get. intros (k & w1 & _ & E)%bind_Ok. injection E as <- <- _. done. Qed.

End ProviderKeys.

(** ** A concrete daemon *)

Module TeeExamples.
Import Toy IdentityExamples.

#[export] Instance toy_secp : SecpKeys := {|
  ToECDSA b := if (length b =? 32)%nat then Ok (be_value b) else Err (EMsg "invalid length");
  HexToECDSA s := match hex_decode s with
                  | Some b => if (length b =? 32)%nat then Ok (be_value b) else Err (EMsg "invalid length")
                  | None => Err (EMsg "invalid hex") end;
  pubkey_address b := Some (be_value b)
|}.

#[export] Instance toy_secp_laws : SecpLaws.
Proof.
  split; cbn.
  - intros b k. case_match; [by intros [= <-]|done].
  - intros s b ->. done.
Qed.

Definition pin_a : string := "0A0a0a0a0a0a0a0a0a0a0a0a0a0a0a0a0a0a0a0a0a0a0a0a0a0a0a0a0a0a0a0a".

Definition pin_b : string := "b00bb00bb00bb00bb00bb00bb00bb00bb00bb00bb00bb00bb00bb00bb00bb00b".

(** Two nodes that serve and a standby whose signer is not up yet. *)
Definition nodes0 : list (option NodeObservation) := [
  Some (mkObservation 990 1290 "prod" ("0x" +:+ pin_a) (addr_hex 77));
  Some (mkObservation 995 1200 "prod" pin_b EmptyString);
  Some (mkObservation 1010 1250 "prod" pin_b (addr_hex 77));
  Some (mkObservation 980 1280 "prod" pin_b (addr_hex 77))].

Definition signer0 : SignerAnswer := mkSignerAnswer true "kms" "raw-scalar-v1" (be_bytes 32 12288) (be_bytes 20 12288) (be_bytes 20 12288) true
  (be_bytes 32 (bn254_order - 1)) "poseidon-bn254-4-v1".

#[export] Instance toy_daemon : TappDaemon registry := {|
  rpc_GetAppSecretKey _ _ c := (Ok (mkSecretAnswer true (be_bytes 32 8192) (be_bytes 20 8192)), c);
  rpc_GetAppSigner _ _ c := (Ok signer0, c);
  rpc_ResolveAppIdentity _ chainID reg app c := (Ok (Some (mkIdentityAnswer true chainID app reg c.1.1 nodes0)), c)
|}.

Definition env0 (key : string) : string :=
  if bool_decide (key = "BACKEND_TAPP_SOCKET") then "/run/tapp.sock"
  else if bool_decide (key = "BACKEND_APP_NAME") then "app" else EmptyString.

Definition attestor1 : attestorIdentity := newAttestorIdentity 16601 (addr_hex 171) "attestor" EmptyString.

Definition used_at : world registry := at_registry 1000 empty_redis (9, 4096, 77).

Definition ident1 : AppIdentity := mkIdentity "attestor" 77 [to_lower pin_a; pin_b] 9 1250.

Definition after_use : world registry :=
  at_registry 1000 (set_identity (as_key attestor1) (instance_text 9 4096) empty_redis) (9, 4096, 77).

Lemma pins_in_use :
  @TLSPins registry registry_bindings (resolve_app_identity env0) attestor1 60 true None used_at = (Ok (inl (ai_TLSPins ident1, 1250), Some ident1), after_use).
Proof. vm_compute. reflexivity. Qed.

Lemma no_cache : attested_cache env0 attestor1 None.
Proof. intros ident E. discriminate E. Qed.

Lemma pins_are_attested_witness :
  exists ident t nodes owner wm,
    vouched t nodes ident /\ ai_TLSPins ident1 = ai_TLSPins ident /\ 1250 = ai_ExpiresAt ident /\
    w_now after_use < 1250 <= t + 330 /\ live_instance attestor1 ident owner wm /\
    in_force attestor1 (w_redis after_use) (instance_text (ai_RegisteredAt ident) owner) /\ attested_cache env0 attestor1 (Some ident1).
Proof. exact (pins_are_attested env0 attestor1 60 true None used_at _ 1250 _ after_use no_cache pins_in_use). Defined.

(** A stale node, a node that is not the production image and a node with
    another signer each refuse the whole identity. *)
Example one_bad_node_refuses :
  let ask n := match appIdentityFromResponse (Some (mkIdentityAnswer true 16601 "attestor" (addr_hex 171) 9 (nodes0 ++ [Some n]))) 16601 (addr_hex 171) "attestor" 1000 with
               | Err (EMsg m) => m | _ => EmptyString end in
  ask (mkObservation 690 990 "prod" pin_b (addr_hex 77)) = "tee: expired or non-production identity"%string /\
  ask (mkObservation 990 1290 "dev" pin_b (addr_hex 77)) = "tee: expired or non-production identity"%string /\
  ask (mkObservation 990 1290 "prod" pin_b (addr_hex 78)) = "tee: current nodes disagree about the stable app signer"%string.
Proof. vm_compute. repeat split. Qed.

Definition provider0 : ProviderKey := mkProviderKey (hex_encode (be_bytes 32 12288)) 12288 true.

Lemma daemon_bytes : answers_bytes (C := registry).
Proof. intros target app c r c' [= <- <-]. split; apply be_bytes_ok. Qed.

Lemma takes_provider : GetProviderKey env0 used_at = (Ok provider0, used_at).
Proof. vm_compute. reflexivity. Qed.

Lemma provider_key_is_measured_witness :
  env0 "BACKEND_APP_NAME" <> EmptyString /\ pk_InEvidence provider0 = true /\
  exists r, (rpc_GetAppSigner (tappTarget env0) (env0 "BACKEND_APP_NAME") (w_chain used_at)).1 = Ok r /\
    sg_Success r = true /\ sg_KeySource r = "kms"%string /\ sg_Derivation r = "raw-scalar-v1"%string /\
    length (sg_Secret r) = 32%nat /\ HexToECDSA (pk_PrivateKeyHex provider0) = Ok (be_value (sg_Secret r)) /\
    pk_Address provider0 = key_addr (be_value (sg_Secret r)) /\ pk_Address provider0 = be_value (sg_EthAddress r) /\
    pubkey_address (sg_PublicKey r) = Some (pk_Address provider0) /\
    sg_MeasuredInEvidence r = true /\ sg_CommitmentScheme r = "poseidon-bn254-4-v1"%string /\
    length (sg_Commitment r) = 32%nat /\ be_value (sg_Commitment r) < bn254_order.
Proof. exact (provider_key_is_measured env0 used_at provider0 used_at daemon_bytes eq_refl takes_provider). Defined.

End TeeExamples.
