(* ===== verification/Keys.v ===== *)
(** * The keys the billing daemon runs with (internal/chain/client.go:
    NewClient and its accessors; cmd/billing/main.go: startup)

    The node's signing key and, with PROVIDER_KEY_SOURCE=kms, the provider key
    come from the TEE (Tee); the chain client, the voucher signer and the node's
    endorsement of the provider are built from them. *)

From S2P Require Import Prelude Decimal Hex Bytes Crypto Voucher Store Session Config ChainTypes Chain Guard Seal Identity Tee.

(** ** The chain client *)

(** Dialling the node and binding the two contracts' generated code. *)
Class Endpoints (C : Type) := {
  ep_Dial : string -> C -> res unit * C;
  ep_NewSandboxServing : addr -> res unit;
  ep_NewTappRegistry : addr -> res unit
}.

(** What else the client asks the node and the contract. *)
Class NodeReads (C : Type) := {
  n_BalanceAt : addr -> C -> res Z * C;
  n_SuggestGasPrice : C -> res Z * C;
  n_WaitMined : Z -> C -> res Receipt * C;
  b_KmsBindings : addr -> C -> res (Z * bytes) * C
}.

Section NewClient.
Context `{Ecdsa} `{SecpKeys} {C : Type} `{Endpoints C}.

(** [internal/chain/client.go:73-131 NewClient] *)
Definition NewClient (cc : ChainConfig) : M C Client :=
  let! _ := chain_call (ep_Dial (cc_RPCURL cc)) in
  let! nodeKey := lift_res (HexToECDSA (cc_TEEPrivateKey cc)) in
  let! provider :=
    if bool_decide (cc_ProviderPrivateKey cc = EmptyString) then ret (nodeKey, false)
    else let! k := lift_res (HexToECDSA (cc_ProviderPrivateKey cc)) in ret (k, true) in
  let addr := hex_to_address (cc_ContractAddress cc) in
  let! _ := lift_res (ep_NewSandboxServing addr) in
  if bool_decide (cc_TappRegistry cc = EmptyString) then fail (EMsg "TAPP_REGISTRY is required")
  else
    let tappAddr := hex_to_address (cc_TappRegistry cc) in
    let! _ := lift_res (ep_NewTappRegistry tappAddr) in
    ret (mkClient addr tappAddr (cc_ChainID cc) nodeKey provider.1 (key_addr provider.1) provider.2).

End NewClient.

Section Accessors.
Context `{Keccak} `{Ecdsa}.

(** [internal/chain/client.go:135-135 TappRegistryAddress] *)
Definition TappRegistryAddress (cl : Client) : addr := c_tappAddr cl.

(** [internal/chain/client.go:139-139 ProviderKey] *)
Definition client_ProviderKey (cl : Client) : Z := c_providerKey cl.

(** [internal/chain/client.go:144-144 NodeKey] *)
Definition NodeKey (cl : Client) : Z := c_nodeKey cl.

(** [internal/chain/client.go:147-147 NodeAddress] *)
Definition NodeAddress (cl : Client) : addr := key_addr (c_nodeKey cl).

(** [internal/chain/client.go:151-151 KmsProvider] *)
Definition KmsProvider (cl : Client) : bool := c_kmsProvider cl.

(** [internal/chain/client.go:154-154 ChainID] *)
Definition client_ChainID (cl : Client) : Z := c_chainID cl.

(** [internal/chain/client.go:157-157 ContractAddress] *)
Definition ContractAddress (cl : Client) : addr := c_contractAddr cl.

(** [internal/chain/client.go:162-164 SettlerAddress] *)
Definition SettlerAddress (cl : Client) : addr := key_addr (c_providerKey cl).

(** [internal/chain/client.go:169-169 ProviderAddress] *)
Definition ProviderAddress (cl : Client) : addr := c_providerAddr cl.

(** [internal/chain/client.go:291-293 KmsProviderEndorsement] *)
Definition KmsProviderEndorsement (cl : Client) (appId : string) : res bytes :=
  EndorseKmsProvider (c_nodeKey cl) (c_chainID cl) (c_contractAddr cl) (c_providerAddr cl) appId.

Context {C : Type} `{EthNode C} `{Bindings C} `{NodeReads C}.

(** [internal/chain/client.go:173-175 BalanceAt] *)
Definition BalanceAt (a : addr) : M C Z := chain_call (n_BalanceAt a).

(** [internal/chain/client.go:179-181 SuggestGasPrice] *)
Definition SuggestGasPrice : M C Z := chain_call n_SuggestGasPrice.

(** The pinned registration and the hash of the app id.
    [internal/chain/client.go:280-286 KmsBinding] *)
Definition KmsBinding (provider : addr) : M C (Z * bytes) := chain_call (b_KmsBindings provider).

(** [internal/chain/client.go:456-466 SettleFeesWithTEE] *)
Definition SettleFeesWithTEE (cl : Client) (vs : list SandboxVoucher) : M C (list SettlementStatus) :=
  let! tx := SubmitSettleFees vs in
  let! receipt := chain_call (n_WaitMined tx.1) in
  SettleStatusesFromReceipt cl receipt vs.

(** [internal/chain/client.go:660-667 GetLastNonce] *)
Definition client_GetLastNonce (user provider : addr) : M C Z := chain_call (b_GetLastNonce user provider).

End Accessors.

(** ** Startup *)

Definition set_TEEPrivateKey (k : string) (cc : ChainConfig) : ChainConfig :=
  mkChainConfig (cc_RPCURL cc) (cc_ContractAddress cc) (cc_TappRegistry cc) k (cc_ProviderKeySource cc)
    (cc_ProviderPrivateKey cc) (cc_AdminAddresses cc) (cc_AttestorAppID cc) (cc_AttestorInstance cc) (cc_ChainID cc).

Definition set_ProviderPrivateKey (k : string) (cc : ChainConfig) : ChainConfig :=
  mkChainConfig (cc_RPCURL cc) (cc_ContractAddress cc) (cc_TappRegistry cc) (cc_TEEPrivateKey cc) (cc_ProviderKeySource cc)
    k (cc_AdminAddresses cc) (cc_AttestorAppID cc) (cc_AttestorInstance cc) (cc_ChainID cc).

Section Startup.
Context `{Keccak} `{Ecdsa} `{SecpKeys} {C : Type} `{TappDaemon C} `{Endpoints C} `{Bindings C}.
Variable getenv : string -> string.

(** The chain settings with the keys filled in, and whether the provider key is
    in the attestation evidence.
    [cmd/billing/main.go:69-94 main] *)
Definition take_keys (cc : ChainConfig) : M C (ChainConfig * bool) :=
  let! k := Get getenv None in
  let cc := set_TEEPrivateKey (PrivateKeyHex k.1) cc in
  if bool_decide (cc_ProviderKeySource cc = "kms") then
    let! pk := GetProviderKey getenv in
    ret (set_ProviderPrivateKey (pk_PrivateKeyHex pk) cc, pk_InEvidence pk)
  else ret (cc, false).

(** [cmd/billing/main.go:131-141 main] *)
Definition provider_endorsement (cl : Client) (backendAppName : string) : res string :=
  if KmsProvider cl then
    if bool_decide (backendAppName = EmptyString) then Err (EMsg "PROVIDER_KEY_SOURCE=kms requires BACKEND_APP_NAME")
    else res_bind (KmsProviderEndorsement cl backendAppName) (fun sig => Ok ("0x" +:+ hex_encode sig))
  else Ok EmptyString.

(** The registered app id, when it is not the one the key was fetched for.
    [cmd/billing/main.go:145-148 main] *)
Definition app_drift (cl : Client) (backendAppName : string) : M C (option string) :=
  let! x := attempt (GetServiceAppId (ProviderAddress cl)) in
  ret (match x with
       | inl appId =>
           if negb (bool_decide (appId = EmptyString)) && negb (bool_decide (backendAppName = EmptyString)) &&
              negb (bool_decide (appId = backendAppName)) then Some appId else None
       | inr _ => None
       end).

(** [cmd/billing/main.go:211-219 main] *)
Definition voucher_signer (cl : Client) : Signer :=
  NewSigner (client_ProviderKey cl) (client_ChainID cl) (ContractAddress cl) (ProviderAddress cl).

(** What the daemon goes on with. *)
Record Booted := mkBooted {
  bt_client : Client;
  bt_inEvidence : bool;
  bt_endorsement : string;
  bt_drift : option string;
  bt_signer : Signer
}.

(** The steps that can end the process, in order, and the drift check; the app
    owner, asked for in between, is Startup's, and so are the prices read next.
    [cmd/billing/main.go:69-148 main] *)
Definition boot (cc : ChainConfig) : M C Booted :=
  let backendAppName := getenv "BACKEND_APP_NAME" in
  let! keys := take_keys cc in
  let! cl := NewClient keys.1 in
  let! endorsement := lift_res (provider_endorsement cl backendAppName) in
  let! drift := app_drift cl backendAppName in
  ret (mkBooted cl keys.2 endorsement drift (voucher_signer cl)).

End Startup.

(** ** Lemmas *)

Lemma NewClient_Ok `{Ecdsa} `{SecpKeys} {C} `{Endpoints C} cc (w : world C) cl w' :
  NewClient cc w = (Ok cl, w') ->
  HexToECDSA (cc_TEEPrivateKey cc) = Ok (c_nodeKey cl) /\
  c_contractAddr cl = hex_to_address (cc_ContractAddress cc) /\ c_tappAddr cl = hex_to_address (cc_TappRegistry cc) /\
  c_chainID cl = cc_ChainID cc /\ c_providerAddr cl = key_addr (c_providerKey cl) /\
  if bool_decide (cc_ProviderPrivateKey cc = EmptyString) then c_kmsProvider cl = false /\ c_providerKey cl = c_nodeKey cl
  else c_kmsProvider cl = true /\ HexToECDSA (cc_ProviderPrivateKey cc) = Ok (c_providerKey cl).
Proof.
  unfold NewClient. intros (u & w1 & _ & (nk & w2 & En & ([pk kms] & w3 & Ep & E)%bind_Ok)%bind_Ok)%bind_Ok.
  unfold lift_res in En. injection En as En <-. cbv zeta in E.
  apply bind_Ok in E as (u1 & w4 & _ & E). case_bool_decide as Ht; [done|].
  apply bind_Ok in E as (u2 & w5 & _ & E). injection E as <- _. cbn [fst snd c_nodeKey c_contractAddr c_tappAddr c_chainID c_providerAddr c_providerKey c_kmsProvider].
  split_and!; try done. case_bool_decide as Hp; [by injection Ep as <- <- _|].
  apply bind_Ok in Ep as (k & w6 & Ek & Ep). unfold lift_res in Ek. injection Ek as Ek _. by injection Ep as <- <- _.
Qed.

Section BootProperties.
Context `{Keccak} `{Ecdsa} `{SecpKeys} {C : Type} `{TappDaemon C} `{Endpoints C} `{Bindings C}.
Variable getenv : string -> string.

Lemma boot_Ok cc (w : world C) b w' :
  boot getenv cc w = (Ok b, w') ->
  exists keys w1 w2, take_keys getenv cc w = (Ok keys, w1) /\ NewClient keys.1 w1 = (Ok (bt_client b), w2) /\
    provider_endorsement (bt_client b) (getenv "BACKEND_APP_NAME") = Ok (bt_endorsement b) /\
    bt_inEvidence b = keys.2 /\ bt_signer b = voucher_signer (bt_client b).
Proof.
  unfold boot. cbv zeta. intros (keys & w1 & Ek & (cl & w2 & Ec & (en & w3 & Ee & (d & w4 & _ & E)%bind_Ok)%bind_Ok)%bind_Ok)%bind_Ok.
  unfold lift_res in Ee. injection Ee as Ee <-. injection E as <- _. by exists keys, w1, w2.
Qed.

Lemma take_keys_Ok cc (w : world C) cc' ev w' :
  take_keys getenv cc w = (Ok (cc', ev), w') ->
  exists k cache w1, Get getenv None w = (Ok (k, cache), w1) /\
    if bool_decide (cc_ProviderKeySource cc = "kms") then
      exists pk, GetProviderKey getenv w1 = (Ok pk, w') /\ ev = pk_InEvidence pk /\
        cc' = set_ProviderPrivateKey (pk_PrivateKeyHex pk) (set_TEEPrivateKey (PrivateKeyHex k) cc)
    else ev = false /\ cc' = set_TEEPrivateKey (PrivateKeyHex k) cc.
Proof.
  unfold take_keys. intros ([k cache] & w1 & Ek & E)%bind_Ok. cbv zeta in E. cbn [fst] in E. exists k, cache, w1. split; [done|].
  change (cc_ProviderKeySource (set_TEEPrivateKey (PrivateKeyHex k) cc)) with (cc_ProviderKeySource cc) in E.
  case_bool_decide; [|by injection E as <- <- _].
  apply bind_Ok in E as (pk & w2 & Ep & E). injection E as <- <- <-. by exists pk.
Qed.

End BootProperties.

(** ** Who the daemon is *)

Section Identity.
Context `{KeccakLaws} `{EcdsaLaws} `{SecpLaws} {C : Type} `{TappDaemon C} `{Endpoints C} `{Bindings C}.

(** What a started daemon is made of. *)
Lemma boot_identity_of getenv cc (w : world C) b w' :
  answers_bytes (C := C) -> cc_ProviderPrivateKey cc = EmptyString ->
  boot getenv cc w = (Ok b, w') ->
  let cl := bt_client b in
  ProviderAddress cl = key_addr (client_ProviderKey cl) /\ SettlerAddress cl = ProviderAddress cl /\
  ContractAddress cl = hex_to_address (cc_ContractAddress cc) /\ client_ChainID cl = cc_ChainID cc /\
  bt_signer b = mkSigner (client_ProviderKey cl) (cc_ChainID cc) (hex_to_address (cc_ContractAddress cc)) (ProviderAddress cl) /\
  if bool_decide (cc_ProviderKeySource cc = "kms") then
    KmsProvider cl = true /\
    (exists pk w1 w2, GetProviderKey getenv w1 = (Ok pk, w2) /\ pk_Address pk = ProviderAddress cl /\ pk_InEvidence pk = bt_inEvidence b) /\
    getenv "BACKEND_APP_NAME" <> EmptyString /\
    exists sig, bt_endorsement b = "0x" +:+ hex_encode sig /\
      EndorseKmsProvider (NodeKey cl) (cc_ChainID cc) (hex_to_address (cc_ContractAddress cc)) (ProviderAddress cl) (getenv "BACKEND_APP_NAME") = Ok sig
  else KmsProvider cl = false /\ ProviderAddress cl = NodeAddress cl /\ bt_endorsement b = EmptyString /\ bt_inEvidence b = false.
Proof.
  intros Hb Hp. intros ([cc' ev] & w1 & w2 & Ek & Ec & Ee & Hev & Hsg)%boot_Ok. cbv zeta. cbn [fst snd] in *.
  apply NewClient_Ok in Ec as (_ & Hca & _ & Hch & Hpa & Hmode).
  apply take_keys_Ok in Ek as (k & cache & w3 & _ & Ek).
  assert (cc_ContractAddress cc' = cc_ContractAddress cc /\ cc_ChainID cc' = cc_ChainID cc) as [Hc1 Hc2].
  { destruct (bool_decide (cc_ProviderKeySource cc = "kms")); [by destruct Ek as (pk & _ & _ & ->)|by destruct Ek as (_ & ->)]. }
  rewrite Hc1 in Hca. rewrite Hc2 in Hch. rewrite Hsg.
  unfold ProviderAddress, client_ProviderKey, SettlerAddress, ContractAddress, client_ChainID, KmsProvider, NodeAddress, NodeKey, voucher_signer in *.
  split; [done|]. split; [done|]. split; [done|]. split; [done|].
  split; [by rewrite <- Hch, <- Hca|]. destruct (bool_decide_reflect (cc_ProviderKeySource cc = "kms")) as [Hkms|Hkms].
  - destruct Ek as (pk & Epk & -> & ->). pose proof (provider_key_reads_back _ _ _ _ Hb Epk) as (kk & Ekk & Haa & Hne).
    cbn [set_ProviderPrivateKey cc_ProviderPrivateKey] in Hmode. rewrite bool_decide_false in Hmode by done.
    destruct Hmode as [Hk1 Hk2]. rewrite Ekk in Hk2. injection Hk2 as Hk2. split; [done|]. split.
    { exists pk, w3, w1. split; [done|]. split; [|done]. by rewrite Haa, Hpa, <- Hk2. }
    unfold provider_endorsement, KmsProvider, KmsProviderEndorsement in Ee. rewrite Hk1 in Ee.
    case_bool_decide as Ha; [done|]. split; [done|].
    destruct (EndorseKmsProvider _ _ _ _ _) as [sig| |] eqn:Es in Ee; cbn [res_bind] in Ee; [|done..]. injection Ee as Ee.
    exists sig. by rewrite <- Hch, <- Hca.
  - destruct Ek as (-> & ->). cbn [set_TEEPrivateKey cc_ProviderPrivateKey] in Hmode. rewrite Hp, bool_decide_true in Hmode by done.
    destruct Hmode as [Hk1 Hk2]. unfold provider_endorsement, KmsProvider in Ee. rewrite Hk1 in Ee. injection Ee as <-.
    split_and!; try done. by rewrite Hpa, Hk2.
Qed.

(** The daemon is who its keys say.  Once it has started, vouchers are signed
    with, settlements sent from and the provider address taken from one key: the
    app's KMS key when PROVIDER_KEY_SOURCE is kms, the one [GetProviderKey]
    answered, and the node's own TEE key otherwise.  With a KMS key there is an
    endorsement, and it is the node key's signature that this provider is the
    app's on this chain and contract; without one there is none. *)
Theorem booted_identity getenv cc (w : world C) b w' :
  answers_bytes (C := C) -> cc_ProviderPrivateKey cc = EmptyString ->
  boot getenv cc w = (Ok b, w') ->
  let cl := bt_client b in
  ProviderAddress cl = key_addr (client_ProviderKey cl) /\ SettlerAddress cl = ProviderAddress cl /\
  ContractAddress cl = hex_to_address (cc_ContractAddress cc) /\ client_ChainID cl = cc_ChainID cc /\
  bt_signer b = mkSigner (client_ProviderKey cl) (cc_ChainID cc) (hex_to_address (cc_ContractAddress cc)) (ProviderAddress cl) /\
  if bool_decide (cc_ProviderKeySource cc = "kms") then
    KmsProvider cl = true /\
    (exists pk w1 w2, GetProviderKey getenv w1 = (Ok pk, w2) /\ pk_Address pk = ProviderAddress cl /\ pk_InEvidence pk = bt_inEvidence b) /\
    getenv "BACKEND_APP_NAME" <> EmptyString /\
    exists sig, bt_endorsement b = "0x" +:+ hex_encode sig /\
      EndorseKmsProvider (NodeKey cl) (cc_ChainID cc) (hex_to_address (cc_ContractAddress cc)) (ProviderAddress cl) (getenv "BACKEND_APP_NAME") = Ok sig
  else KmsProvider cl = false /\ ProviderAddress cl = NodeAddress cl /\ bt_endorsement b = EmptyString /\ bt_inEvidence b = false.
Proof. apply boot_identity_of. Qed.

End Identity.

(** ** A concrete daemon *)

Module KeysExamples.
Import Toy IdentityExamples TeeExamples.

#[export] Instance registry_endpoints : Endpoints registry := {|
  ep_Dial _ c := (Ok tt, c); ep_NewSandboxServing _ := Ok tt; ep_NewTappRegistry _ := Ok tt
|}.

(** The settings of a daemon for the contract at address 99, without keys. *)
Definition chain0 (source : string) : ChainConfig :=
  mkChainConfig "http://node" (addr_hex 99) (addr_hex 171) EmptyString source EmptyString EmptyString EmptyString EmptyString 16601.

Definition kms_cfg : ChainConfig := chain0 "kms".

Definition boot_with (source : string) : res Booted * world registry := boot env0 (chain0 source) used_at.

Definition booted0 : Booted :=
  match (boot_with "kms").1 with Ok b => b | _ => mkBooted (mkClient 0 0 0 0 0 0 false) false EmptyString None (mkSigner 0 0 0 0) end.

(** The registry's services cannot be read here, so nothing is said about drift. *)
Lemma kms_boots : boot env0 kms_cfg used_at = (Ok booted0, used_at).
Proof. vm_compute. reflexivity. Qed.

Lemma booted_identity_witness :
  let cl := bt_client booted0 in
  ProviderAddress cl = key_addr (client_ProviderKey cl) /\ SettlerAddress cl = ProviderAddress cl /\
  ContractAddress cl = hex_to_address (cc_ContractAddress kms_cfg) /\ client_ChainID cl = cc_ChainID kms_cfg /\
  bt_signer booted0 = mkSigner (client_ProviderKey cl) (cc_ChainID kms_cfg) (hex_to_address (cc_ContractAddress kms_cfg)) (ProviderAddress cl) /\
  if bool_decide (cc_ProviderKeySource kms_cfg = "kms") then
    KmsProvider cl = true /\
    (exists pk (w1 w2 : world registry), GetProviderKey env0 w1 = (Ok pk, w2) /\ pk_Address pk = ProviderAddress cl /\ pk_InEvidence pk = bt_inEvidence booted0) /\
    env0 "BACKEND_APP_NAME" <> EmptyString /\
    exists sig, bt_endorsement booted0 = "0x" +:+ hex_encode sig /\
      EndorseKmsProvider (NodeKey cl) (cc_ChainID kms_cfg) (hex_to_address (cc_ContractAddress kms_cfg)) (ProviderAddress cl) (env0 "BACKEND_APP_NAME") = Ok sig
  else KmsProvider cl = false /\ ProviderAddress cl = NodeAddress cl /\ bt_endorsement booted0 = EmptyString /\ bt_inEvidence booted0 = false.
Proof. exact (booted_identity env0 kms_cfg used_at booted0 used_at daemon_bytes eq_refl kms_boots). Defined.

(** Without a KMS key the node is the provider. *)
Example local_boots :
  match (boot_with "local").1 with
  | Ok b => ProviderAddress (bt_client b) = 8192 /\ NodeAddress (bt_client b) = 8192 /\ bt_endorsement b = EmptyString
  | _ => False
  end.
Proof. vm_compute. repeat split. Qed.

End KeysExamples.
