(* ===== verification/Info.v ===== *)
(** * What a node says of itself (GET /api/info) and who reads it

    The billing daemon's public description of itself (cmd/billing/main.go),
    the checks the operator's tool makes of it before registering a KMS provider
    (cmd/provider/main.go) and the provider binding the command-line tools take
    from it. *)

From stdpp Require Import pretty.
From S2P Require Import Prelude Decimal Hex Bytes Crypto Voucher Store Session Billing Json CreatePolicy Guard Config ChainTypes Chain Daytona Seal Registry Http Auth Broker Gate Access Reserve Startup Identity Tee Keys.

(** [internal/tee/providerkey.go:23-23 ProviderMaterial] *)
Definition ProviderMaterial : string := "70726f7669646572".

(** ** The answer *)

Section ApiInfo.
Context `{Keccak} `{Ecdsa} {C : Type} `{Bindings C} `{NodeReads C}.

(** The node's signer and whether its provider can settle.
    [cmd/billing/main.go:383-408 main] *)
Definition signer_health (cl : Client) : M C (list (string * json)) :=
  let nodeAddr := NodeAddress cl in
  let local := ("local", JStr (addr_hex nodeAddr)) in
  let! app := attempt (GetServiceAppId (ProviderAddress cl)) in
  match app with
  | inr e => ret [local; ("status", JStr "unknown"); ("error", JStr (error_text e))]
  | inl appId =>
      if bool_decide (appId = EmptyString) then ret [local; ("status", JStr "unregistered")]
      else
        let! active := attempt (IsProviderActive cl) in
        let health := match active with
                      | inr e => [("status", JStr "unknown"); ("error", JStr (error_text e))]
                      | inl true => [("status", JStr "aligned")]
                      | inl false => [("status", JStr "mismatch")]
                      end in
        let! node :=
          if KmsProvider cl then
            let! x := attempt (IsActiveNode appId nodeAddr) in
            ret (match x with inl isNode => [("node_active", JBool isNode)] | inr _ => [] end)
          else ret [] in
        ret (local :: ("app_id", JStr appId) :: health ++ node)
  end.

(** What the settler's wallet can still pay.
    [cmd/billing/main.go:411-429 main] *)
Definition settler_health (cl : Client) (factor : Z) : M C (list (string * json)) :=
  let settlerAddr := SettlerAddress cl in
  let address := ("address", JStr (addr_hex settlerAddr)) in
  let unknown := [address; ("status", JStr "unknown")] in
  let! b := attempt (BalanceAt settlerAddr) in
  match b with
  | inr _ => ret unknown
  | inl bal =>
      let! g := attempt SuggestGasPrice in
      match g with
      | inr _ => ret unknown
      | inl gasPrice =>
          let oneTx := gasPrice * 300000 in
          let warningThreshold := oneTx * factor in
          let status := if bal <? oneTx then "critical" else if bal <? warningThreshold then "warning" else "healthy" in
          ret [address; ("balance_wei", JStr (pretty bal)); ("gas_price_wei", JStr (pretty gasPrice));
               ("one_tx_cost_wei", JStr (pretty oneTx)); ("warning_threshold_wei", JStr (pretty warningThreshold));
               ("status", JStr status)]
      end
  end.

(** The settings the answer repeats. *)
Record Posted := mkPosted {
  po_chain : ChainConfig;
  po_billing : BillingConfig;
  po_prices : Prices;
  po_rpcOrigin : string;
  po_backendAppName : string;
  po_sealedOnly : bool;
  po_lowBalanceFactor : Z
}.

(** The fields that do not depend on the state of the chain.
    [cmd/billing/main.go:431-447 main] *)
Definition info_fields (po : Posted) (cl : Client) (owner : string) (signer settler : list (string * json)) : list (string * json) := [
  ("contract_address", JStr (cc_ContractAddress (po_chain po)));
  ("provider_address", JStr (addr_hex (ProviderAddress cl)));
  ("provider_key_source", JStr (cc_ProviderKeySource (po_chain po)));
  ("node_address", JStr (addr_hex (NodeAddress cl)));
  ("owner_address", JStr owner);
  ("app_id", JStr (po_backendAppName po));
  ("chain_id", JNum (cc_ChainID (po_chain po)) false);
  ("rpc_url", JStr (po_rpcOrigin po));
  ("compute_price_per_sec", JStr (pretty (pr_flat (po_prices po))));
  ("create_fee", JStr (pretty (pr_fee (po_prices po))));
  ("voucher_interval_sec", JNum (bc_VoucherIntervalSec (po_billing po)) false);
  ("min_balance", JStr (pretty (minBalance (po_billing po) (po_prices po))));
  ("sealed_only", JBool (po_sealedOnly po));
  ("signer", JObj signer);
  ("settler", JObj settler)].

(** [cmd/billing/main.go:453-455 main] *)
Definition kms_fields (endorsement : string) (inEvidence : bool) : list (string * json) := [
  ("provider_endorsement", JStr endorsement);
  ("provider_key_material", JStr ProviderMaterial);
  ("provider_in_evidence", JBool inEvidence)].

(** [owner] is the resolver of the app owner; its failure leaves the field empty.
    [cmd/billing/main.go:373-458 main] *)
Definition api_info (po : Posted) (b : Booted) (owner : M C (string + rerr)) : M C (list (string * json)) :=
  let cl := bt_client b in
  let! signer := signer_health cl in
  let! settler := settler_health cl (po_lowBalanceFactor po) in
  let! o := owner in
  ret (info_fields po cl (match o with inl o => o | inr _ => EmptyString end) signer settler ++
       if KmsProvider cl then kms_fields (bt_endorsement b) (bt_inEvidence b) else []).

End ApiInfo.

(** ** The readers *)

(** [cmd/provider/main.go:214-224 kmsNodeInfo] *)
Record kmsNodeInfo := mkNodeInfo {
  ni_ProviderAddress : string;
  ni_ProviderKeySource : string;
  ni_ProviderEndorsement : string;
  ni_ProviderKeyMaterial : string;
  ni_ProviderInEvidence : bool;
  ni_NodeAddress : string;
  ni_ContractAddress : string;
  ni_AppId : string;
  ni_ChainID : Z
}.

Section Readers.
Context `{SimpleFold}.

(** One boolean field of a struct. *)
Definition field_bool (f : string) (ms : list (string * json)) : res bool :=
  foldl (fun acc '(k, v) =>
    if EqualFold k f
    then match acc, v with
         | Ok _, JBool b => Ok b
         | Ok b, JNull => Ok b
         | Ok _, _ => Err (EMsg "json: cannot unmarshal into a bool")
         | _, _ => acc
         end
    else acc) (Ok false) ms.

(** [json.NewDecoder(resp.Body).Decode(&info)].
    [cmd/provider/main.go:268-273 registerKms] *)
Definition decode_info (b : body) : res kmsNodeInfo :=
  match b with
  | BText (JObj ms) _ =>
      res_bind (field_string "provider_address" ms) (fun pa =>
      res_bind (field_string "provider_key_source" ms) (fun ks =>
      res_bind (field_string "provider_endorsement" ms) (fun pe =>
      res_bind (field_string "provider_key_material" ms) (fun pm =>
      res_bind (field_bool "provider_in_evidence" ms) (fun ie =>
      res_bind (field_string "node_address" ms) (fun na =>
      res_bind (field_string "contract_address" ms) (fun ca =>
      res_bind (field_string "app_id" ms) (fun ai =>
      res_bind (field_int64 "chain_id" ms) (fun ci => Ok (mkNodeInfo pa ks pe pm ie na ca ai ci))))))))))
  | BText JNull _ => Ok (mkNodeInfo EmptyString EmptyString EmptyString EmptyString false EmptyString EmptyString EmptyString 0)
  | _ => Err (EMsg "decode")
  end.

Context `{Keccak} `{Ecdsa}.

(** The provider and its endorsement.
    [cmd/provider/main.go:231-258 checkKmsNodeInfo] *)
Definition checkKmsNodeInfo (info : kmsNodeInfo) (chainID : Z) (contract : addr) (appId : string) : res (addr * bytes) :=
  if negb (bool_decide (ni_ProviderKeySource info = "kms")) then Err (EMsg "set PROVIDER_KEY_SOURCE=kms on it first")
  else if negb (IsHexAddress (ni_ProviderAddress info)) || negb (IsHexAddress (ni_NodeAddress info)) then
    Err (EMsg "node /api/info lacks provider_address or node_address")
  else if negb (bool_decide (ni_AppId info = appId)) then Err (EMsg "node runs another app")
  else if negb (ni_ChainID info =? chainID) || negb (IsHexAddress (ni_ContractAddress info)) || negb (hex_to_address (ni_ContractAddress info) =? contract) then
    Err (EMsg "node is configured for another contract or chain")
  else
    let provider := hex_to_address (ni_ProviderAddress info) in
    match hex_decode (trim_prefix "0x" (ni_ProviderEndorsement info)) with
    | None => Err (EMsg "provider_endorsement")
    | Some sig =>
        res_bind (KmsProviderEndorser sig chainID contract provider appId) (fun endorser =>
        if negb (endorser =? hex_to_address (ni_NodeAddress info)) then Err (EMsg "provider_endorsement is not signed by the node")
        else Ok (provider, sig))
    end.

(** [strings.TrimRight(s, "/")]. *)
Fixpoint trim_slashes (s : string) : string :=
  match s with
  | EmptyString => EmptyString
  | String c s' =>
      match trim_slashes s' with
      | EmptyString => if bool_decide (c = "/"%char) then EmptyString else String c EmptyString
      | t => String c t
      end
  end.

Context {C : Type}.

(** The tools' view of the web: the body of an answer, whatever its status. *)
Class WebGet (C : Type) := http_get : string -> C -> res body * C.

Context `{WebGet C}.

(** The address a node names; empty when it cannot be read. *)
Definition provider_of (x : body + rerr) : string :=
  match x with
  | inl (BText (JObj ms) _) => match field_string "provider_address" ms with Ok a => a | _ => EmptyString end
  | _ => EmptyString
  end.

(** The address and the cache afterwards, which keeps failures too.
    [cmd/user/main.go:1006-1026 providerAddressFor] *)
Definition providerAddressFor (apiBase : string) (cache : gmap string string) : M C (string * gmap string string) :=
  match cache !! apiBase with
  | Some v => ret (v, cache)
  | None =>
      let! x := attempt (chain_call (http_get (trim_slashes apiBase +:+ "/api/info"))) in
      let addr := provider_of x in
      ret (addr, <[apiBase := addr]> cache)
  end.

End Readers.

(** [cmd/provider/main.go:967-987 providerAddressFor] *)
Definition provider_providerAddressFor `{SimpleFold} {C} `{WebGet C} : string -> gmap string string -> M C (string * gmap string string) :=
  providerAddressFor.

(** ** Lemmas *)

Section ReadBack.
Context `{SF : SimpleFold} `{!SimpleFoldLaws}.

(** Field names of the structs are ASCII: which members they match can be
    computed. *)
Lemma EqualFold_computes k f : is_ascii f = true -> EqualFold k f = @EqualFold ascii_simple_fold k f.
Proof. intros Hf. apply bool_decide_ext. by apply fold_ascii. Qed.

Lemma field_fold_ascii {A} f (step : res A -> json -> res A) ms : forall init, is_ascii f = true ->
  foldl (fun acc '(k, v) => if EqualFold k f then step acc v else acc) init ms =
  foldl (fun acc '(k, v) => if @EqualFold ascii_simple_fold k f then step acc v else acc) init ms.
Proof.
  induction ms as [|[k v] ms IH]; intros init Hf; [done|]. cbn [foldl]. rewrite (EqualFold_computes k f Hf). by apply IH.
Qed.

(** A field is decoded from the one member that matches it. *)
Definition others (f : string) (ms : list (string * json)) : bool := forallb (fun kv => negb (@EqualFold ascii_simple_fold kv.1 f)) ms.

Lemma fold_others {A} f (step : res A -> json -> res A) ms : forall init, others f ms = true ->
  foldl (fun acc '(k, v) => if @EqualFold ascii_simple_fold k f then step acc v else acc) init ms = init.
Proof.
  induction ms as [|[k v] ms IH]; intros init Ho; [done|]. cbn [others forallb fst] in Ho. apply andb_true_iff in Ho as [Hk Ho].
  cbn [foldl]. apply negb_true_iff in Hk. rewrite Hk. by apply IH.
Qed.

Lemma fold_member {A} f (step : res A -> json -> res A) i ms v init :
  ms !! i = Some (f, v) -> others f (take i ms) = true -> others f (drop (S i) ms) = true ->
  foldl (fun acc '(k, v) => if @EqualFold ascii_simple_fold k f then step acc v else acc) init ms = step init v.
Proof.
  intros Hi Ha Hb. rewrite <- (take_drop_middle _ _ _ Hi), foldl_app. cbn [foldl].
  rewrite (fold_others f step _ init Ha), (EqualFold_refl (H := ascii_simple_fold)). by apply fold_others.
Qed.

Lemma field_string_ascii f ms : is_ascii f = true -> field_string f ms = @field_string ascii_simple_fold f ms.
Proof. apply (field_fold_ascii f (fun acc v => match acc, v with Ok _, JStr s => Ok s | Ok s, JNull => Ok s | Ok _, _ => _ | _, _ => acc end)). Qed.

Lemma field_int64_ascii f ms : is_ascii f = true -> field_int64 f ms = @field_int64 ascii_simple_fold f ms.
Proof. unfold field_int64. apply (field_fold_ascii f (fun acc v => match acc, v with Ok _, JNum z false => if (- 2 ^ 63 <=? z) && (z <? 2 ^ 63) then Ok z else _ | Ok z, JNull => Ok z | Ok _, _ => _ | _, _ => acc end)). Qed.

Lemma field_bool_ascii f ms : is_ascii f = true -> field_bool f ms = @field_bool ascii_simple_fold f ms.
Proof. apply (field_fold_ascii f (fun acc v => match acc, v with Ok _, JBool b => Ok b | Ok b, JNull => Ok b | Ok _, _ => _ | _, _ => acc end)). Qed.

Lemma field_string_at i f ms s :
  is_ascii f = true -> ms !! i = Some (f, JStr s) -> others f (take i ms) = true -> others f (drop (S i) ms) = true ->
  field_string f ms = Ok s.
Proof.
  intros Hf Hi Ha Hb. rewrite (field_string_ascii f ms Hf). unfold field_string.
  by rewrite (fold_member f (fun acc v => match acc, v with Ok _, JStr s => Ok s | Ok s, JNull => Ok s | Ok _, _ => _ | _, _ => acc end) i ms (JStr s)).
Qed.

Lemma field_bool_at i f ms b :
  is_ascii f = true -> ms !! i = Some (f, JBool b) -> others f (take i ms) = true -> others f (drop (S i) ms) = true ->
  field_bool f ms = Ok b.
Proof.
  intros Hf Hi Ha Hb. rewrite (field_bool_ascii f ms Hf). unfold field_bool.
  by rewrite (fold_member f (fun acc v => match acc, v with Ok _, JBool b => Ok b | Ok b, JNull => Ok b | Ok _, _ => _ | _, _ => acc end) i ms (JBool b)).
Qed.

Lemma field_int64_at i f ms z :
  is_ascii f = true -> ms !! i = Some (f, JNum z false) -> others f (take i ms) = true -> others f (drop (S i) ms) = true ->
  - 2 ^ 63 <= z < 2 ^ 63 -> field_int64 f ms = Ok z.
Proof.
  intros Hf Hi Ha Hb Hz. rewrite (field_int64_ascii f ms Hf). unfold field_int64.
  rewrite (fold_member f (fun acc v => match acc, v with Ok _, JNum z false => if (- 2 ^ 63 <=? z) && (z <? 2 ^ 63) then Ok z else _ | Ok z, JNull => Ok z | Ok _, _ => _ | _, _ => acc end) i ms (JNum z false)) by done.
  assert ((- 2 ^ 63 <=? z) && (z <? 2 ^ 63) = true) as -> by lia. done.
Qed.

End ReadBack.

(** The digest is a string of 32 bytes, and so the endorsement's are bytes. *)
Lemma kms_digest_bytes `{KeccakLaws} c a p appId d : KmsProviderDigest c a p appId = Ok d -> Forall byte_ok d.
Proof. unfold KmsProviderDigest. destruct (domainSeparator c a); cbn [res_bind]; [|done..]. intros [= <-]. apply keccak_bytes. Qed.

Lemma endorsement_recovers `{KeccakLaws} `{EcdsaLaws} k c a p appId sig :
  EndorseKmsProvider k c a p appId = Ok sig -> Forall byte_ok sig /\ KmsProviderEndorser sig c a p appId = Ok (key_addr k).
Proof.
  unfold EndorseKmsProvider, KmsProviderEndorser. destruct (KmsProviderDigest c a p appId) as [d| |] eqn:Ed; cbn [res_bind]; [|done..].
  destruct (ecdsa_sign k d) as [s| |] eqn:Es; cbn [res_bind]; [|done..]. intros Eb.
  destruct (bump_normalize _ _ _ Es) as (s' & Eb' & Hn & Hl). rewrite Eb in Eb'. injection Eb' as <-. split.
  - pose proof (sign_bytes _ _ _ (kms_digest_bytes _ _ _ _ _ Ed) Es) as Hs. unfold bump_v in Eb.
    destruct (s !! 64%nat) as [v|]; [|done]. injection Eb as <-. apply Forall_insert; [done|]. apply Z.mod_pos_bound. lia.
  - rewrite bool_decide_true by done. cbn [negb]. by rewrite Hn, (sign_recover _ _ _ Es).
Qed.

Section Posting.
Context `{SF : SimpleFold} `{!SimpleFoldLaws} `{KeccakLaws} `{EcdsaLaws}.

(** The struct the tool decodes has what the daemon put in. *)
Lemma decode_info_posted po cl owner signer settler endorsement inEvidence trailing :
  - 2 ^ 63 <= cc_ChainID (po_chain po) < 2 ^ 63 ->
  decode_info (BText (JObj (info_fields po cl owner signer settler ++ kms_fields endorsement inEvidence)) trailing) =
  Ok (mkNodeInfo (addr_hex (ProviderAddress cl)) (cc_ProviderKeySource (po_chain po)) endorsement ProviderMaterial inEvidence
        (addr_hex (NodeAddress cl)) (cc_ContractAddress (po_chain po)) (po_backendAppName po) (cc_ChainID (po_chain po))).
Proof.
  intros Hc. unfold decode_info.
  rewrite (field_string_at 1 "provider_address" _ (addr_hex (ProviderAddress cl))) by reflexivity.
  rewrite (field_string_at 2 "provider_key_source" _ (cc_ProviderKeySource (po_chain po))) by reflexivity.
  rewrite (field_string_at 15 "provider_endorsement" _ endorsement) by reflexivity.
  rewrite (field_string_at 16 "provider_key_material" _ ProviderMaterial) by reflexivity.
  rewrite (field_bool_at 17 "provider_in_evidence" _ inEvidence) by reflexivity.
  rewrite (field_string_at 3 "node_address" _ (addr_hex (NodeAddress cl))) by reflexivity.
  rewrite (field_string_at 0 "contract_address" _ (cc_ContractAddress (po_chain po))) by reflexivity.
  rewrite (field_string_at 5 "app_id" _ (po_backendAppName po)) by reflexivity.
  rewrite (field_int64_at 6 "chain_id" _ (cc_ChainID (po_chain po))) by (reflexivity || done). done.
Qed.

Lemma api_info_Ok {C} `{Bindings C} `{NodeReads C} po b owner (w : world C) ms w' :
  api_info po b owner w = (Ok ms, w') -> exists o signer settler,
    ms = info_fields po (bt_client b) o signer settler ++
      if KmsProvider (bt_client b) then kms_fields (bt_endorsement b) (bt_inEvidence b) else [].
Proof.
  unfold api_info. cbv zeta. intros (signer & w1 & _ & (settler & w2 & _ & (o & w3 & _ & E)%bind_Ok)%bind_Ok)%bind_Ok.
  injection E as <- _. by eexists _, signer, settler.
Qed.

(** A KMS node's description of itself passes the operator's checks.  What
    GET /api/info answers, at any time and whatever the chain says then, on a
    daemon started with PROVIDER_KEY_SOURCE=kms, read by the operator's tool for
    the same app, chain and contract, yields the daemon's provider and an
    endorsement that the node's key made for exactly that provider, app, chain
    and contract. *)
Lemma info_registers `{SecpLaws} {C} `{TappDaemon C} `{Endpoints C} `{Bindings C} `{NodeReads C} getenv (w : world C) b w'
  po owner (wi : world C) ms wi' trailing :
  answers_bytes (C := C) -> cc_ProviderPrivateKey (po_chain po) = EmptyString -> cc_ProviderKeySource (po_chain po) = "kms" ->
  IsHexAddress (cc_ContractAddress (po_chain po)) = true -> - 2 ^ 63 <= cc_ChainID (po_chain po) < 2 ^ 63 ->
  boot getenv (po_chain po) w = (Ok b, w') -> po_backendAppName po = getenv "BACKEND_APP_NAME" ->
  api_info po b owner wi = (Ok ms, wi') ->
  let cl := bt_client b in
  let contract := hex_to_address (cc_ContractAddress (po_chain po)) in
  let chainID := cc_ChainID (po_chain po) in
  let appId := po_backendAppName po in
  exists sig,
    res_bind (decode_info (BText (JObj ms) trailing)) (fun info => checkKmsNodeInfo info chainID contract appId) = Ok (ProviderAddress cl, sig) /\
    EndorseKmsProvider (NodeKey cl) chainID contract (ProviderAddress cl) appId = Ok sig.
Proof.
  intros Hb Hp Hk Hh Hc Eb Ha (o & signer & settler & ->)%api_info_Ok. cbv zeta.
  pose proof (boot_identity_of _ _ _ _ _ Hb Hp Eb) as Hi. cbv zeta in Hi. rewrite Hk, bool_decide_true in Hi by done.
  destruct Hi as (Hpa & _ & _ & _ & _ & -> & _ & _ & sig & Ee & Es). rewrite decode_info_posted by done. cbn [res_bind].
   rewrite <- Ha in Es.
  destruct (endorsement_recovers _ _ _ _ _ _ Es) as [Hbytes Hr]. exists sig. split; [|done].
  unfold checkKmsNodeInfo. cbn [ni_ProviderKeySource ni_ProviderAddress ni_NodeAddress ni_AppId ni_ChainID ni_ContractAddress ni_ProviderEndorsement].
  rewrite Hk, !bool_decide_true, !IsHexAddress_addr_hex, Hh, !Z.eqb_refl by done. cbn [negb orb].
  rewrite Ee, trim_0x, (hex_decode_encode _ Hbytes).
  rewrite !hex_to_address_addr_hex by (rewrite ?Hpa; apply key_addr_ok).
  rewrite Hr. cbn [res_bind]. unfold NodeAddress, NodeKey. by rewrite Z.eqb_refl.
Qed.

End Posting.

(** ** A concrete node *)

Module InfoExamples.
Import Toy IdentityExamples TeeExamples KeysExamples.

#[export] Instance registry_reads : NodeReads registry := {|
  n_BalanceAt _ c := (Ok 1000000, c); n_SuggestGasPrice c := (Ok 2, c); n_WaitMined _ c := (Err EIO, c); b_KmsBindings _ c := (Err EIO, c)
|}.

Definition posted0 : Posted :=
  mkPosted kms_cfg (mkBillingConfig 3600 0 "16667" "0" "0" "5000000") (mkPrices 3 4 0 60) "http://node" "app" false 2.

Definition asked : res (list (string * json)) * world registry := api_info posted0 booted0 (ret (inl (addr_hex 4096))) used_at.

Definition answer0 : list (string * json) := match asked.1 with Ok ms => ms | _ => [] end.

Lemma answers : api_info posted0 booted0 (ret (inl (addr_hex 4096))) used_at = (Ok answer0, used_at).
Proof. vm_compute. reflexivity. Qed.

Lemma in_int64 : - 2 ^ 63 <= 16601 < 2 ^ 63.
Proof. split; [vm_compute; discriminate|reflexivity]. Qed.

Lemma contract_hex : IsHexAddress (cc_ContractAddress (po_chain posted0)) = true.
Proof. apply IsHexAddress_addr_hex. Qed.

Lemma info_registers_witness :
  let cl := bt_client booted0 in
  let contract := hex_to_address (cc_ContractAddress (po_chain posted0)) in
  let chainID := cc_ChainID (po_chain posted0) in
  let appId := po_backendAppName posted0 in
  exists sig,
    res_bind (decode_info (BText (JObj answer0) false)) (fun info => checkKmsNodeInfo info chainID contract appId) = Ok (ProviderAddress cl, sig) /\
    EndorseKmsProvider (NodeKey cl) chainID contract (ProviderAddress cl) appId = Ok sig.
Proof.
  exact (info_registers env0 used_at booted0 used_at posted0 _ used_at answer0 used_at false
           daemon_bytes eq_refl eq_refl contract_hex in_int64 kms_boots eq_refl answers).
Defined.

(** Another contract, another app, another chain or a daemon without a KMS key
    is refused by name. *)
Example refused_nodes :
  let look po c contract app := match res_bind (decode_info (BText (JObj (info_fields po (bt_client booted0) EmptyString [] [] ++ kms_fields (bt_endorsement booted0) true)) false))
                                    (fun info => checkKmsNodeInfo info c contract app) with Err (EMsg m) => m | _ => EmptyString end in
  look posted0 16601 98 "app" = "node is configured for another contract or chain" /\
  look posted0 16602 99 "app" = "node is configured for another contract or chain" /\
  look posted0 16601 99 "other" = "node runs another app" /\
  look (mkPosted (chain0 "local") (po_billing posted0) (po_prices posted0) EmptyString "app" false 2) 16601 99 "app" = "set PROVIDER_KEY_SOURCE=kms on it first".
Proof. vm_compute. repeat split. Qed.

End InfoExamples.
