(* ===== verification/Operator.v ===== *)
(** * The operator's tool on the contract (cmd/provider/main.go)

    The subcommands that act on the settlement contract, signed by the app
    owner's key, over the contract itself (Serving): each request may be
    preceded by other people's calls or fail.  The values of the flags are the
    arguments; what is printed is not modelled, but for [runStatus], which is
    nothing else. *)

From S2P Require Import Prelude Decimal Hex Bytes Crypto Voucher Store Session Billing Json CreatePolicy Guard Config ChainTypes Chain Daytona Seal Registry Http Auth Broker Gate Access Reserve Startup Identity Tee Keys Info Serving Solvency Custody Batch Payout Onchain.

(** ** The chain from the operator's desk *)

Section Desk.
Context `{Keccak} `{Ecrecover} {R : Type} `{TappRegistry R}.

(** What comes before a request is answered: others act, or the request fails. *)
Inductive beat := Before (l : list (@act R)) | Lost.

Record desk := mkDesk {
  dk_chain : chain R;
  dk_self : addr;
  dk_chainid : Z;
  dk_now : Z;
  dk_web : string -> res body;
  dk_future : list beat
}.

Definition dk_with (w : chain R) (l : list beat) (d : desk) : desk :=
  mkDesk w (dk_self d) (dk_chainid d) (dk_now d) (dk_web d) l.

Definition request {A} (f : desk -> res A * desk) (d : desk) : res A * desk :=
  match dk_future d with
  | [] => f d
  | Before l :: rest => f (dk_with (run l (dk_chain d)) rest d)
  | Lost :: rest => (Err EIO, dk_with (dk_chain d) rest d)
  end.

(** A view function of the contract at an address; elsewhere there is no code. *)
Definition call_at {A} (contract : addr) (m : tx R A) : desk -> res A * desk :=
  request (fun d => (if contract =? dk_self d
                     then match m (dk_chain d) with Ok (a, _) => Ok a | _ => Err (EMsg "execution reverted") end
                     else Err (EMsg "no contract code at given address"), d)).

(** A call is estimated first: one that would revert is not sent. *)
Definition would_return (e : env) (c : entry) (w : chain R) : bool :=
  typed c && (payable c || (msg_value e =? 0)) &&
  match enter e (mkReceiver (fun w => w) true) c (mkChain (st w) (eth w + msg_value e) (reg w) (evs w)) with Ok _ => true | _ => false end.

Definition sent_by (from value : Z) (d : desk) : env := mkEnv from value (dk_now d) (dk_chainid d) (dk_self d).

(** Sending a transaction: the estimate, then the pool, which wants the chain's
    id. *)
Definition send (from value chainID : Z) (contract : addr) (c : entry) : desk -> res unit * desk :=
  request (fun d =>
    (if contract =? dk_self d then
       if would_return (sent_by from value d) c (dk_chain d)
       then if chainID =? dk_chainid d then Ok tt else Err (EMsg "invalid chain id for signer")
       else Err (EMsg "execution reverted")
     else Err (EMsg "no contract code at given address"), d)).

(** [bind.WaitMined]: the transaction is included, by then possibly reverting; it
    answers a receipt in both cases, an error only when there was none. *)
Definition wait_mined (from value : Z) (c : entry) : desk -> res unit * desk :=
  request (fun d => (Ok tt, dk_with (exec (Call (sent_by from value d) c [] true) (dk_chain d)) (dk_future d) d)).

(** A transaction from a key's wallet, which runs no code when it is paid. *)
Definition transact (from value chainID : Z) (contract : addr) (c : entry) : M desk unit :=
  let! _ := chain_call (send from value chainID contract c) in
  chain_call (wait_mined from value c).

#[export] Instance desk_web : WebGet desk := fun url => request (fun d => (dk_web d url, d)).

(** ** Flags and helpers *)

Context `{Ecdsa} `{SecpKeys} `{SimpleFold}.
Variable getenv : string -> string.

(** [cmd/provider/main.go:114-130 resolveOwnerKey] *)
Definition resolveOwnerKey (flagVal : string) : res Z :=
  let hex := flagVal in
  let hex := if bool_decide (hex = EmptyString) then getenv "OWNER_KEY" else hex in
  let hex := if bool_decide (hex = EmptyString) then getenv "PROVIDER_KEY" else hex in
  if bool_decide (hex = EmptyString) then Err (EMsg "app owner private key required: use --key or OWNER_KEY env")
  else HexToECDSA (trim_prefix "0x" hex).

(** [cmd/provider/main.go:1032-1038 parseBigInt] *)
Definition parseBigInt (s : string) : res Z :=
  match SetString s with Some v => Ok v | None => Err (EMsg "invalid value") end.

(** The contract's address; dialling a well-formed URL asks nobody.
    [cmd/provider/main.go:1040-1053 dialContract] *)
Definition dialContract (contractHex : string) : M desk addr :=
  if bool_decide (contractHex = EmptyString) then fail (EMsg "settlement contract is required")
  else ret (hex_to_address contractHex).

(** Integers are packed as words. *)
Definition words (url : string) (cpu fee mem : Z) : terms := mkTerms url (cpu mod 2 ^ 256) (fee mod 2 ^ 256) (mem mod 2 ^ 256).

(** The flags the transactions share. *)
Record tx_flags := mkFlags { fl_chainID : Z; fl_contract : string; fl_key : string }.

(** The three prices of a registration. *)
Record price_flags := mkPriceFlags { fl_pricePerCPU : string; fl_pricePerMem : string; fl_fee : string }.

(** [cmd/provider/main.go:281-283 registerKms] *)
Definition parse_prices (pf : price_flags) : res (Z * Z * Z) :=
  res_bind (parseBigInt (fl_pricePerCPU pf)) (fun cpu =>
  res_bind (parseBigInt (fl_pricePerMem pf)) (fun mem =>
  res_bind (parseBigInt (fl_fee pf)) (fun fee => Ok (cpu, mem, fee)))).

(** ** Registration *)

(** [cmd/provider/main.go:260-317 registerKms] *)
Definition registerKms (infoBase : string) (fl : tx_flags) (appId serviceURL : string) (pf : price_flags) : M desk unit :=
  if bool_decide (fl_contract fl = EmptyString) then fail (EMsg "--contract (or SETTLEMENT_CONTRACT) is required")
  else
    let! body := chain_call (http_get (trim_slashes infoBase +:+ "/api/info")) in
    let! info := lift_res (decode_info body) in
    let contract := hex_to_address (fl_contract fl) in
    let! checked := lift_res (checkKmsNodeInfo info (fl_chainID fl) contract appId) in
    let '(provider, endorsement) := checked in
    let! key := lift_res (resolveOwnerKey (fl_key fl)) in
    let! prices := lift_res (parse_prices pf) in
    let '(cpu, mem, fee) := prices in
    let! contract := dialContract (fl_contract fl) in
    transact (key_addr key) 0 (fl_chainID fl) contract (EAddOrUpdateKmsService provider appId (words serviceURL cpu fee mem) endorsement).

(** [cmd/provider/main.go:144-211 runRegister] *)
Definition runRegister (fl : tx_flags) (signerHex appId : string) (kms : bool) (infoURL serviceURL : string) (pf : price_flags) : M desk unit :=
  if bool_decide (serviceURL = EmptyString) then fail (EMsg "--url is required")
  else if bool_decide (appId = EmptyString) then fail (EMsg "--app-id is required")
  else if kms then registerKms (if bool_decide (infoURL = EmptyString) then serviceURL else infoURL) fl appId serviceURL pf
  else if bool_decide (signerHex = EmptyString) then fail (EMsg "--signer is required")
  else
    let! key := lift_res (resolveOwnerKey (fl_key fl)) in
    let signerAddr := hex_to_address signerHex in
    let! prices := lift_res (parse_prices pf) in
    let '(cpu, mem, fee) := prices in
    let! contract := dialContract (fl_contract fl) in
    transact (key_addr key) 0 (fl_chainID fl) contract (EAddOrUpdateService signerAddr appId (words serviceURL cpu fee mem)).

(** ** Removal, rotation, withdrawal *)

Definition view_exists (p : addr) : tx R bool := sread (fun s => bool_decide (p ∈ s_serviceExists s)).
Definition view_binding (p : addr) : tx R KmsBinding := sread (fun s => binding_of s p).
Definition view_service (p : addr) : tx R Service := sread (fun s => service_of s p).
Definition view_earnings (p : addr) : tx R Z := sread (fun s => earnings s p).

(** [cmd/provider/main.go:325-372 runRemoveService] *)
Definition runRemoveService (fl : tx_flags) (signerHex : string) : M desk unit :=
  if bool_decide (signerHex = EmptyString) then fail (EMsg "--signer is required")
  else
    let! key := lift_res (resolveOwnerKey (fl_key fl)) in
    let signerAddr := hex_to_address signerHex in
    let! contract := dialContract (fl_contract fl) in
    let! exists_ := chain_call (call_at contract (view_exists signerAddr)) in
    if negb exists_ then fail (EMsg "no service registered: nothing to remove")
    else
      let! _ := chain_call (call_at contract (view_earnings signerAddr)) in
      transact (key_addr key) 0 (fl_chainID fl) contract (ERemoveService signerAddr).

(** [cmd/provider/main.go:391-476 runRotate] *)
Definition runRotate (fl : tx_flags) (oldHex newHex urlOverride : string) : M desk unit :=
  if bool_decide (oldHex = EmptyString) || bool_decide (newHex = EmptyString) then fail (EMsg "--old and --new are required")
  else
    let! key := lift_res (resolveOwnerKey (fl_key fl)) in
    let oldAddr := hex_to_address oldHex in
    let newAddr := hex_to_address newHex in
    let! contract := dialContract (fl_contract fl) in
    let! oldExists := chain_call (call_at contract (view_exists oldAddr)) in
    if negb oldExists then fail (EMsg "no service registered for the old signer: nothing to rotate from")
    else
      let! b := attempt (chain_call (call_at contract (view_binding oldAddr))) in
      if match b with inl b => negb (kb_epoch b =? 0) | inr _ => false end
      then fail (EMsg "a KMS provider: there is nothing to rotate")
      else
        let! svc := chain_call (call_at contract (view_service oldAddr)) in
        let! _ := chain_call (call_at contract (view_earnings oldAddr)) in
        let newURL := if bool_decide (urlOverride = EmptyString) then sv_Url svc else urlOverride in
        let t := words newURL (sv_PricePerCPUPerMin svc) (sv_CreateFee svc) (sv_PricePerMemGBPerMin svc) in
        let! _ := transact (key_addr key) 0 (fl_chainID fl) contract (EAddOrUpdateService newAddr (sv_AppId svc) t) in
        transact (key_addr key) 0 (fl_chainID fl) contract (ERemoveService oldAddr).

(** Whether a transaction was sent.
    [cmd/provider/main.go:572-616 runWithdraw] *)
Definition runWithdraw (fl : tx_flags) (signerHex : string) : M desk bool :=
  if bool_decide (signerHex = EmptyString) then fail (EMsg "--signer is required")
  else
    let! key := lift_res (resolveOwnerKey (fl_key fl)) in
    let signerAddr := hex_to_address signerHex in
    let! contract := dialContract (fl_contract fl) in
    let! earned := chain_call (call_at contract (view_earnings signerAddr)) in
    if earned =? 0 then ret false
    else
      transact (key_addr key) 0 (fl_chainID fl) contract (EWithdrawEarnings signerAddr) ;;
      ret true.

(** The subcommands that send transactions, with their flags. *)
Inductive command :=
| CmdRegister (signerHex appId : string) (kms : bool) (infoURL serviceURL : string) (pf : price_flags)
| CmdRemoveService (signerHex : string)
| CmdRotate (oldHex newHex urlOverride : string)
| CmdWithdraw (signerHex : string).

(** [cmd/provider/main.go:83-93 main] *)
Definition operator_main (fl : tx_flags) (cmd : command) : M desk unit :=
  match cmd with
  | CmdRegister signerHex appId kms infoURL serviceURL pf => runRegister fl signerHex appId kms infoURL serviceURL pf
  | CmdRemoveService signerHex => runRemoveService fl signerHex
  | CmdRotate oldHex newHex urlOverride => runRotate fl oldHex newHex urlOverride
  | CmdWithdraw signerHex => runWithdraw fl signerHex ;; ret tt
  end.

(** ** Status *)

(** What [runStatus] shows of a registered service. *)
Record service_status := mkStatus {
  ss_service : Service;
  ss_earnings : Z;
  ss_kms : option Z;
  ss_canSettle : option bool;
  ss_app : option (addr * bool)  (** the owner, and whether the instance or the node is current *)
}.

(** The registry is another contract, read at its own address.
    [cmd/provider/main.go:480-565 runStatus] *)
Definition runStatus (contractHex addrHex tappHex : string) : M desk (bool * addr * option service_status) :=
  if bool_decide (addrHex = EmptyString) then fail (EMsg "--address is required")
  else
    let providerAddr := hex_to_address addrHex in
    let! contract := dialContract contractHex in
    let! registered := chain_call (call_at contract (view_exists providerAddr)) in
    let! ownr := chain_call (call_at contract (sread s_owner)) in
    if negb registered then ret (registered, ownr, None)
    else
      let! svc := chain_call (call_at contract (view_service providerAddr)) in
      let! earned := chain_call (call_at contract (view_earnings providerAddr)) in
      let! b := attempt (chain_call (call_at contract (view_binding providerAddr))) in
      let kms := match b with inl b => if kb_epoch b =? 0 then None else Some (kb_epoch b) | inr _ => None end in
      let! a := attempt (chain_call (call_at contract (isActiveProvider providerAddr))) in
      let canSettle := match a with inl x => Some x | inr _ => None end in
      let! app :=
        if bool_decide (tappHex = EmptyString) || bool_decide (sv_AppId svc = EmptyString) then ret None
        else
          let tapp := hex_to_address tappHex in
          let! info := chain_call (request (fun d => (t_getAppInfo tapp (sv_AppId svc) (reg (dk_chain d)), d))) in
          match kms with
          | Some epoch => ret (Some (ai_owner info, ai_registeredAt info =? epoch))
          | None =>
              let! at_ := chain_call (request (fun d => (t_addedAt tapp (sv_AppId svc) providerAddr (reg (dk_chain d)), d))) in
              ret (Some (ai_owner info, negb (at_ =? 0)))
          end in
      ret (registered, ownr, Some (mkStatus svc earned kms canSettle app)).

End Desk.

(** ** Whatever happens, users keep their money *)

Section Tame.
Context `{KeccakLaws} `{Ecrecover} {R : Type} `{TappRegistry R} `{Ecdsa} `{SecpKeys} `{SimpleFold}.
Variables (u p : addr) (sep : bytes).

Definition beat_foreign (b : beat (R := R)) : Prop :=
  match b with Before l => Forall (foreign u p sep) (all_steps l) | Lost => True end.

Lemma run_safe (l : list (@act R)) w : Forall (foreign u p sep) (all_steps l) -> safe u p sep w (run l w).
Proof.
  apply run_keeps; [apply safe_refl|apply safe_trans| | |].
  - intros e c rx w' Hf Hrx. by apply message_safe.
  - intros n w' Hf. split; [done|apply held_refl].
  - intros g w' _ Hf. split; [done|apply held_refl].
Qed.

(** A step at the desk leaves [u]'s money with [p] alone, if others do. *)
Definition tame_step {A} (f : desk (R := R) -> res A * desk) : Prop := forall d,
  Forall beat_foreign (dk_future d) -> safe u p sep (dk_chain d) (dk_chain (f d).2) /\ Forall beat_foreign (dk_future (f d).2).

Lemma tame_request {A} (f : desk -> res A * desk) : tame_step f -> tame_step (request f).
Proof.
  intros Hf d Hd. unfold request. destruct (dk_future d) as [|[l|] rest] eqn:Ef; [by apply Hf; rewrite Ef| |].
  - inversion_clear Hd as [|? ? Hl Hr]. cbn in Hl. destruct (Hf (dk_with (run l (dk_chain d)) rest d) Hr) as [Hs Hr'].
    split; [|done]. eapply safe_trans; [by apply run_safe|done].
  - inversion_clear Hd as [|? ? _ Hr]. cbn. split; [apply safe_refl|done].
Qed.

Lemma tame_read {A} (f : desk -> res A) : tame_step (fun d => (f d, d)).
Proof. intros d Hd. split; [apply safe_refl|done]. Qed.

Lemma tame_call {A} contract (m : tx R A) : tame_step (call_at contract m).
Proof. apply tame_request, tame_read. Qed.

Lemma tame_wait from value c : from <> u -> vouchers_of c = [] -> tame_step (wait_mined from value c).
Proof.
  intros Hfr Hv. apply tame_request. intros d Hd. split; [|exact Hd]. cbn [fst snd dk_with dk_chain exec].
  apply message_safe; [intros w; apply safe_refl|]. split; [done|]. rewrite Hv. intros v Hin. by apply elem_of_nil in Hin.
Qed.

Definition tame {A} (m : M (desk (R := R)) A) : Prop := forall w,
  Forall beat_foreign (dk_future (w_chain w)) ->
  safe u p sep (dk_chain (w_chain w)) (dk_chain (w_chain (m w).2)) /\ Forall beat_foreign (dk_future (w_chain (m w).2)).

Lemma tame_pure {A} (m : M desk A) : (forall w, w_chain (m w).2 = w_chain w) -> tame m.
Proof. intros Hm w Hd. rewrite Hm. split; [apply safe_refl|done]. Qed.

Lemma tame_chain_call {A} (f : desk -> res A * desk) : tame_step f -> tame (chain_call f).
Proof. intros Hf w Hd. specialize (Hf _ Hd). unfold chain_call. by destruct (f (w_chain w)). Qed.

Lemma tame_bind {A B} (m : M desk A) (k : A -> M desk B) : tame m -> (forall a, tame (k a)) -> tame (bind m k).
Proof.
  intros Hm Hk w Hd. destruct (Hm w Hd) as [Hs Hd']. unfold bind. destruct (m w) as [[a|e|] w'] eqn:E; cbn [fst snd] in *; [|done..].
  destruct (Hk a w' Hd') as [Hs' Hd'']. split; [by eapply safe_trans|done].
Qed.

Lemma tame_lift_bind {A B} (x : res A) (k : A -> M desk B) : (forall a, x = Ok a -> tame (k a)) -> tame (bind (lift_res x) k).
Proof. intros Hk w Hd. unfold bind, lift_res. destruct x as [a|e|]; [by apply Hk|split; [apply safe_refl|done]..]. Qed.

Lemma tame_attempt {A} (m : M desk A) : tame m -> tame (attempt m).
Proof. intros Hm w Hd. specialize (Hm w Hd). unfold attempt. by destruct (m w) as [[]]. Qed.

Lemma tame_ret {A} (a : A) : tame (ret a).
Proof. by apply tame_pure. Qed.

Lemma tame_fail {A} e : tame (fail e : M desk A).
Proof. by apply tame_pure. Qed.

Lemma tame_dial contractHex : tame (dialContract contractHex).
Proof. unfold dialContract. case_match; [apply tame_fail|apply tame_ret]. Qed.

Lemma tame_transact from value chainID contract c : from <> u -> vouchers_of c = [] -> tame (transact from value chainID contract c).
Proof.
  intros Hfr Hv. apply tame_bind; [apply tame_chain_call, tame_request, tame_read|]. intros _. by apply tame_chain_call, tame_wait.
Qed.

Lemma tame_get url : tame_step (http_get url : desk -> res body * desk).
Proof. apply tame_request, tame_read. Qed.

Create HintDb tame.
#[local] Hint Resolve tame_ret tame_fail tame_dial tame_call tame_get tame_chain_call tame_attempt : tame.

Ltac tame :=
  repeat first
    [ apply tame_lift_bind; intros ? ?
    | apply tame_bind; [solve [auto with tame]|intros ?]
    | apply tame_bind; [apply tame_transact; [by eauto|reflexivity]|intros ?]
    | apply tame_transact; [by eauto|reflexivity]
    | solve [auto with tame]
    | apply tame_bind; [|intros ?; solve [auto with tame]]
    | progress case_match ].

(** The operator's tool cannot touch users' money.  Whatever subcommand the
    app's owner runs, with whatever flags, failing requests and reverting
    transactions, and whatever others do in between that leaves this user's money
    with this provider alone: its pending refund, unlock time and nonce are as they
    were and its balance is no smaller. *)
Theorem operator_leaves_users_alone getenv fl cmd (w : world (desk (R := R))) :
  fixed sep (st (dk_chain (w_chain w))) -> Forall beat_foreign (dk_future (w_chain w)) ->
  (forall key, resolveOwnerKey getenv (fl_key fl) = Ok key -> key_addr key <> u) ->
  held u p (st (dk_chain (w_chain w))) (st (dk_chain (w_chain (operator_main getenv fl cmd w).2))).
Proof.
  intros Hi Hd Hu. enough (tame (operator_main getenv fl cmd)) as Ht by (destruct (Ht w Hd) as [Hs _]; by apply Hs).
  destruct cmd; cbn [operator_main]; unfold runRegister, registerKms, runRemoveService, runRotate, runWithdraw; tame.
Qed.

End Tame.

(** ** Undisturbed runs *)

Section Undisturbed.
Context `{KeccakLaws} `{Ecrecover} {R : Type} `{TappRegistry R} `{Ecdsa} `{SecpKeys} `{SimpleFold}.
Implicit Types (d : desk (R := R)) (W : world (desk (R := R))).

(** A world whose desk has another chain. *)
Definition on_chain (w : chain R) W : world desk := set_chain (dk_with w [] (w_chain W)) W.

Lemma on_chain_twice w1 w2 W : on_chain w2 (on_chain w1 W) = on_chain w2 W.
Proof. done. Qed.

Section Quiet.
Variable W : world (desk (R := R)).
Hypothesis quiet_desk : dk_future (w_chain W) = [].

Lemma on_chain_same : on_chain (dk_chain (w_chain W)) W = W.
Proof. unfold on_chain, dk_with, set_chain. destruct W as [? ? ? ? ? [? ? ? ? ? ?] ? ?]. cbn in *. by subst. Qed.

Lemma call_now {A} contract (m : tx R A) a w :
  contract = dk_self (w_chain W) -> m (dk_chain (w_chain W)) = Ok (a, w) -> chain_call (call_at contract m) W = (Ok a, W).
Proof.
  intros -> Em. unfold chain_call, call_at, request. rewrite quiet_desk, Z.eqb_refl, Em. by destruct W.
Qed.

Lemma transact_now from value chainID contract c w :
  contract = dk_self (w_chain W) -> chainID = dk_chainid (w_chain W) -> typed c = true -> payable c = true \/ value = 0 ->
  (let e := sent_by from value (w_chain W) in
   enter e (mkReceiver (fun w => w) true) c (let w0 := dk_chain (w_chain W) in mkChain (st w0) (eth w0 + value) (reg w0) (evs w0)) = Ok ((), w)) ->
  transact from value chainID contract c W = (Ok tt, on_chain w W).
Proof.
  intros -> -> Ht Hv He. cbv zeta in He. set (e := sent_by from value (w_chain W)) in *.
  assert (negb (payable c) && negb (msg_value e =? 0) = false) as Hp by (destruct Hv as [->| ->]; [done|by rewrite andb_false_r]).
  unfold transact. rewrite (bind_ok _ _ W tt W).
  - unfold chain_call, wait_mined, request. rewrite quiet_desk. cbn [fst snd exec]. fold e. unfold message. rewrite Ht, Hp. cbn [negb orb].
    change (msg_value e) with value. by rewrite He.
  - unfold chain_call, send, request, would_return. rewrite quiet_desk, !Z.eqb_refl. fold e. change (msg_value e) with value. rewrite He, Ht.
    destruct Hv as [->| ->]; rewrite ?orb_true_r; by destruct W.
Qed.

Lemma dial_now contractHex :
  contractHex <> EmptyString -> dialContract contractHex W = (Ok (hex_to_address contractHex), W).
Proof. intros Hc. unfold dialContract. by rewrite bool_decide_false by done. Qed.

End Quiet.

(** Registering a new node's service, and removing a service, by the app's owner. *)
Definition opened_service (appId : string) (t : terms) : Service :=
  mkService (tm_url t) appId (tm_pricePerCPUPerMin t) (tm_pricePerMemGBPerMin t) (tm_createFee t).

(** What the registry says that lets [from] manage services of an app. *)
Record manages (self from : addr) (appId : string) (w : chain R) (info : AppInfo) : Prop := {
  mg_app : appId <> EmptyString;
  mg_info : t_getAppInfo (s_tappRegistry (st w)) appId (reg w) = Ok info;
  mg_owner : ai_owner info = from;
  mg_invalidator : t_isAuthorizedInvalidator (s_tappRegistry (st w)) appId self (reg w) = Ok true
}.

Lemma add_service_fresh e p appId t w info at_ :
  manages (this e) (msg_sender e) appId w info ->
  t_addedAt (s_tappRegistry (st w)) appId p (reg w) = Ok at_ -> at_ <> 0 ->
  kb_epoch (binding_of (st w) p) = 0 -> s_services (st w) !! p = None ->
  addOrUpdateService e p appId t w =
    Ok ((), mkChain (set_service p (Some (opened_service appId t)) (st w)) (eth w) (reg w) (evs w ++ [ServiceUpdated p appId (tm_url t)])).
Proof.
  intros [Hid Hi Ho Hau] Ha Hat Hb Hs. unfold addOrUpdateService. rewrite sread_bind, view_bind, Hi. cbn [res_bind].
  rewrite require_bind by (by apply Z.eqb_eq). rewrite sread_bind, Hb. rewrite require_bind by done. rewrite view_bind, Ha. cbn [res_bind].
  rewrite require_bind by (by apply negb_true_iff, Z.eqb_neq).
  unfold _upsertService. rewrite sread_bind, view_bind, Hau. cbn [res_bind]. rewrite require_bind, sread_bind by done.
  unfold service_of. rewrite Hs. cbn [default from_option]. unfold Datatypes.id. cbn [no_service sv_AppId].
  rewrite bool_decide_true by done. cbn [orb negb andb]. rewrite require_bind, swrite_bind, mret_bind by done. done.
Qed.

(** A service and its earnings are gone. *)
Definition without_service (p : addr) (s : Serving) : Serving := set_service p None (set_earnings p 0 s).

Lemma remove_service_runs e p w info :
  let appId := sv_AppId (service_of (st w) p) in
  s_locked (st w) = false -> p ∈ s_serviceExists (st w) -> manages (this e) (msg_sender e) appId w info ->
  kb_epoch (binding_of (st w) p) = 0 -> 0 <= earnings (st w) p <= eth w ->
  exists l, removeService e (mkReceiver (fun w => w) true) p w =
    Ok ((), mkChain (set_locked false (without_service p (set_locked true (st w)))) (eth w - earnings (st w) p) (reg w) (evs w ++ l)).
Proof.
  intros appId Hl Hx [Hid Hi Ho _] Hb He. set (n := earnings (st w) p) in *.
  exists ((if 0 <? n then [EarningsWithdrawn p (msg_sender e) n] else []) ++ [ServiceRemoved p (msg_sender e)]).
  refine (nonReentrant_run _ w () (mkChain (without_service p (set_locked true (st w))) (eth w - n) (reg w) _) Hl _).
  rewrite sread_bind. cbn [st]. rewrite require_bind by (by apply bool_decide_eq_true). unfold _isAppOwnerOf.
  rewrite tx_bind_eq, sread_bind. cbn [st]. change (sv_AppId (service_of (set_locked true (st w)) p)) with appId.
  rewrite bool_decide_false, sread_bind, view_bind by done. cbn [st reg]. change (s_tappRegistry (set_locked true (st w))) with (s_tappRegistry (st w)).
  rewrite Hi. cbn [res_bind]. rewrite sread_bind. cbn [st]. change (binding_of (set_locked true (st w)) p) with (binding_of (st w) p).
  rewrite Hb. cbn [Z.eqb negb andb mret tx_ret res_bind fst snd]. rewrite require_bind by (by apply Z.eqb_eq).
  rewrite sread_bind, !swrite_bind. cbn [st eth reg evs]. change (earnings (set_locked true (st w)) p) with n.
  destruct (Z.ltb_spec 0 n) as [Hn|Hn].
  - rewrite tx_bind_eq, pay_bind by (done || cbn; lia). cbn [does emit res_bind fst snd st eth reg evs].
    unfold emit at 1. cbn [st eth reg evs]. by rewrite <- app_assoc.
  - rewrite mret_bind. unfold emit. cbn [st eth reg evs app]. by replace (eth w - n) with (eth w) by lia.
Qed.

Lemma earnings_covered (w : chain R) p : solvent w -> 0 <= earnings (st w) p <= eth w.
Proof.
  intros [HB HP HE HC]. pose proof (at0_le_total (s_providerEarnings (st w)) p HE) as Hle. pose proof (HE p) as Hn.
  pose proof (at0_le_total _ (p, p) HB). pose proof (at0_le_total _ (p, p) HP). pose proof (HB (p, p)). pose proof (HP (p, p)). unfold liabilities in HC. unfold earnings. lia.
Qed.

Lemma address_of_text text : address_ok (hex_to_address text) = true.
Proof. pose proof (hex_to_address_ok text) as Hok. unfold addr_ok, addr_bound, address_ok in *. lia. Qed.

(** The rotated contract: the new node under the old terms, the old one gone, and
    its earnings paid out. *)
Definition rotated (old new : addr) (url : string) (s : Serving) : Serving :=
  let svc := service_of s old in
  let t := mkTerms url (sv_PricePerCPUPerMin svc) (sv_CreateFee svc) (sv_PricePerMemGBPerMin svc) in
  set_locked false (without_service old (set_locked true (set_service new (Some (opened_service (sv_AppId svc) t)) s))).

(** What is known of a rotated contract. *)
Record handed_over (old new : addr) (url : string) (s s' : Serving) : Prop := {
  ho_new : service_of s' new = mkService url (sv_AppId (service_of s old)) (sv_PricePerCPUPerMin (service_of s old))
                                 (sv_PricePerMemGBPerMin (service_of s old)) (sv_CreateFee (service_of s old));
  ho_exists : new ∈ s_serviceExists s' /\ (old ∈ s_serviceExists s' -> False);
  ho_old : service_of s' old = no_service /\ earnings s' old = 0;
  ho_money : s_balances s' = s_balances s /\ s_pendingRefunds s' = s_pendingRefunds s /\ s_lastNonce s' = s_lastNonce s
}.

Lemma rotated_hands_over old new url s : old <> new -> handed_over old new url s (rotated old new url s).
Proof.
  intros Hne. unfold rotated, without_service. set (svc := service_of s old). split.
  - unfold service_of. cbn [set_locked set_service set_earnings s_services].
    rewrite lookup_partial_alter_ne, lookup_partial_alter_eq by done. done.
  - cbn [set_locked set_service set_earnings s_serviceExists]. split.
    + apply elem_of_difference. split; [by apply elem_of_union_l, elem_of_singleton|]. by rewrite elem_of_singleton.
    + rewrite elem_of_difference, elem_of_singleton. by intros [_ []].
  - split; [unfold service_of|unfold earnings, at0]; cbn [set_locked set_service set_earnings s_services s_providerEarnings].
    + by rewrite lookup_partial_alter_eq.
    + by rewrite lookup_insert_eq.
  - done.
Qed.

(** A rotation hands the service over.  Run by the app's owner while nobody
    interferes, with an old node's service and a new node of the same app that
    has none, [rotate] succeeds: the new provider has the old one's app and prices,
    at the old URL or the one given, the old one has no service and no earnings
    left, those earnings have left the contract in full, and no acknowledgement,
    balance, pending refund or nonce of anybody has changed. *)
Theorem rotate_hands_over getenv fl key oldHex newHex urlOverride W info at_ :
  let d := w_chain W in
  let w := dk_chain d in
  let old := hex_to_address oldHex in
  let new := hex_to_address newHex in
  let svc := service_of (st w) old in
  let url := if bool_decide (urlOverride = EmptyString) then sv_Url svc else urlOverride in
  dk_future d = [] -> solvent w -> s_locked (st w) = false ->
  oldHex <> EmptyString -> newHex <> EmptyString -> resolveOwnerKey getenv (fl_key fl) = Ok key ->
  fl_contract fl <> EmptyString -> hex_to_address (fl_contract fl) = dk_self d -> fl_chainID fl = dk_chainid d ->
  old ∈ s_serviceExists (st w) -> kb_epoch (binding_of (st w) old) = 0 ->
  manages (dk_self d) (key_addr key) (sv_AppId svc) w info ->
  s_services (st w) !! new = None -> kb_epoch (binding_of (st w) new) = 0 ->
  t_addedAt (s_tappRegistry (st w)) (sv_AppId svc) new (reg w) = Ok at_ -> at_ <> 0 ->
  uint256_ok (sv_PricePerCPUPerMin svc) = true -> uint256_ok (sv_CreateFee svc) = true -> uint256_ok (sv_PricePerMemGBPerMin svc) = true ->
  exists l, runRotate getenv fl oldHex newHex urlOverride W =
    (Ok tt, on_chain (mkChain (rotated old new url (st w)) (eth w - earnings (st w) old) (reg w) (evs w ++ l)) W) /\
    handed_over old new url (st w) (rotated old new url (st w)).
Proof.
  cbv zeta. set (d := w_chain W). set (w := dk_chain d). set (old := hex_to_address oldHex). set (new := hex_to_address newHex).
  set (svc := service_of (st w) old). intros Hq Hsol Hl Ho Hn Hk Hc Hself Hid Hex Hkb Hmg Hns Hnb Ha Hat Hp1 Hp2 Hp3.
  assert (old <> new) as Hne.
  { intros E. apply (mg_app _ _ _ _ _ Hmg). unfold svc, service_of. by rewrite E, Hns. }
  set (url := if bool_decide _ then _ else _).
  set (t := mkTerms url (sv_PricePerCPUPerMin svc) (sv_CreateFee svc) (sv_PricePerMemGBPerMin svc)).
  set (s1 := set_service new (Some (opened_service (sv_AppId svc) t)) (st w)).
  set (w1 := mkChain s1 (eth w) (reg w) (evs w ++ [ServiceUpdated new (sv_AppId svc) url])).
  assert (service_of s1 old = svc) as Hs1.
  { unfold service_of, s1. cbn [s_services set_service]. by rewrite lookup_partial_alter_ne. }
  assert (old ∈ s_serviceExists s1) as Hx1 by (unfold s1; cbn [s_serviceExists set_service]; by apply elem_of_union_r).
  destruct (remove_service_runs (sent_by (key_addr key) 0 d) old w1 info) as [l Er]; cbn [st eth reg w1]; rewrite ?Hs1; try done.
  { destruct Hmg as [Hm1 Hm2 Hm3 Hm4]. split; done. }
  { exact (earnings_covered w old Hsol). }
  exists (ServiceUpdated new (sv_AppId svc) url :: l). split.
  - unfold runRotate. rewrite !bool_decide_false by done. cbn [orb]. rewrite (bind_ok _ _ W key W) by (unfold lift_res; by rewrite Hk).
    fold old new. cbv zeta. rewrite (bind_ok _ _ W (dk_self d) W) by (rewrite dial_now by done; by rewrite Hself).
    rewrite (bind_ok _ _ W true W) by (apply (call_now W Hq _ _ true w eq_refl); unfold view_exists, sread; by rewrite bool_decide_true).
    cbn [negb]. rewrite (bind_ok _ _ W (inl (binding_of (st w) old)) W).
    2: { unfold attempt. by rewrite (call_now W Hq _ _ (binding_of (st w) old) w eq_refl eq_refl). }
    rewrite Hkb. cbn [Z.eqb negb]. rewrite (bind_ok _ _ W svc W) by exact (call_now W Hq _ _ svc w eq_refl eq_refl).
    rewrite (bind_ok _ _ W (earnings (st w) old) W) by exact (call_now W Hq _ _ _ w eq_refl eq_refl).
    fold url.
    assert (words url (sv_PricePerCPUPerMin svc) (sv_CreateFee svc) (sv_PricePerMemGBPerMin svc) = t) as ->.
    { unfold uint256_ok in *. zbool. unfold words, t. by rewrite !Z.mod_small. }
    rewrite (bind_ok _ _ W tt (on_chain w1 W)).
    2: { apply transact_now; [done|done|done| |by right|].
         - cbn [typed]. unfold terms_ok, t. cbn [tm_pricePerCPUPerMin tm_createFee tm_pricePerMemGBPerMin]. rewrite Hp1, Hp2, Hp3.
           by rewrite (address_of_text newHex : address_ok new = true).
         - cbn [enter]. rewrite (add_service_fresh _ new (sv_AppId svc) t _ info at_); [|destruct Hmg; by split|done..].
           by rewrite Z.add_0_r. }
    rewrite (transact_now (on_chain w1 W) eq_refl (key_addr key) 0 _ _ (ERemoveService old)
      (mkChain (rotated old new url (st w)) (eth w - earnings (st w) old) (reg w) (evs w ++ ServiceUpdated new (sv_AppId svc) url :: l)));
      [done|done|done|by apply address_of_text|by right|].
    cbn [enter]. change (sent_by (key_addr key) 0 (w_chain (on_chain w1 W))) with (sent_by (key_addr key) 0 d).
    cbn [on_chain set_chain dk_with w_chain dk_chain]. rewrite Z.add_0_r. change (mkChain (st w1) (eth w1) (reg w1) (evs w1)) with w1. rewrite Er.
    cbn [evs w1]. rewrite <- app_assoc. done.
  - by apply rotated_hands_over.
Qed.

End Undisturbed.

(** ** From the TEE to the contract *)

Section EndToEnd.
Context `{KeccakLaws} `{EcdsaLaws} `{SecpLaws} `{Ecrecover} {EL : EcrecoverLaws} `{SF : SimpleFold} {SFL : SimpleFoldLaws}.
Context {C : Type} `{TappDaemon C} `{Endpoints C} `{Bindings C} `{NodeReads C}.
Context {R : Type} `{TappRegistry R}.

(** What the contract is after a KMS provider was registered for the first time. *)
Definition kms_registered (provider : addr) (appId : string) (epoch : Z) (t : terms) (s : Serving) : Serving :=
  set_service provider (Some (opened_service appId t)) (set_binding provider (mkKmsBinding epoch (app_hash appId)) s).


End EndToEnd.

(** ** Concrete runs *)

Module OperatorExamples.
Import Toy ToyChain IdentityExamples TeeExamples KeysExamples InfoExamples OnchainExamples.

(** The app's owner, 5, has the nodes 8192 and 12288; the first one serves. *)
Definition two_nodes : book := mkBook 5 3 [8192; 12288] [4096].

Definition serving : chain book :=
  run (opened ++ [Call (at_ 4096 1000 10) (EDeposit 4096 8192) [] true;
                  Call (at_ 7 0 30) (ESettleFeesWithTEE [voucher_of 8192 4096 8192 400 1]) [] true]) (mkChain blank 0 two_nodes []).

Definition no_web (_ : string) : res body := Err EIO.

Definition desk0 (w : chain book) (future : list (beat (R := book))) : desk := mkDesk w 99 16601 100 no_web future.

Definition at_desk (w : chain book) (future : list (beat (R := book))) : world (desk (R := book)) :=
  mkWorld empty_redis [] false [] 0 (desk0 w future) [] [].

Definition no_env (_ : string) : string := EmptyString.

Definition owner_flags : tx_flags := mkFlags 16601 (addr_hex 99) ("0x" +:+ hex_encode (be_bytes 32 5)).

Definition rotate_at (w : chain book) (future : list beat) (old new : addr) :=
  runRotate no_env owner_flags (addr_hex old) (addr_hex new) EmptyString (at_desk w future).

Definition after (x : res unit * world (desk (R := book))) : chain book := dk_chain (w_chain x.2).

(** A race that loses the service.  The new node is dropped from the registry
    between the estimate of the registration and its inclusion: the transaction
    reverts, [rotate] takes it for confirmed, removes the old service, and reports
    success with neither node registered. *)
Theorem rotate_can_lose_the_service :
  let calm := Before [] in
  let dropped := Before [Elsewhere (fun r => mkBook (bk_owner r) (bk_epoch r) [8192] (bk_acks r))] in
  let x := rotate_at serving [calm; calm; calm; calm; calm; dropped] 8192 12288 in
  x.1 = Ok tt /\ s_serviceExists (st serving) = {[8192]} /\ s_serviceExists (st (after x)) = ∅.
Proof. vm_compute. done. Qed.

(** Nothing keeps the new node from being the old one: the service is updated,
    then removed. *)
Theorem rotate_onto_itself_removes :
  let x := rotate_at serving [] 8192 8192 in
  x.1 = Ok tt /\ s_serviceExists (st serving) = {[8192]} /\ s_serviceExists (st (after x)) = ∅.
Proof. vm_compute. done. Qed.

(** A new node that has a service of its own, at other prices, gets the old one's:
    every user's acknowledgement of the app is gone. *)
Theorem rotate_can_drop_acknowledgements :
  let both := run [Call (at_ 5 0 40) (EAddOrUpdateService 12288 "app" (mkTerms "https://q" 7 1 6)) [] true] serving in
  let x := rotate_at both [] 8192 12288 in
  x.1 = Ok tt /\ bk_acks (reg both) = [4096] /\ bk_acks (reg (after x)) = [].
Proof. vm_compute. done. Qed.

(** *** Witnesses *)

Lemma serving_state :
  s_initialized (st serving) = true /\ s_domainSeparator (st serving) = sep0 /\ s_locked (st serving) = false /\
  bool_decide (8192 ∈ s_serviceExists (st serving)) = true /\ kb_epoch (binding_of (st serving) 8192) = 0 /\
  service_of (st serving) 8192 = mkService "https://p" "app" 6 6 1 /\ s_services (st serving) !! 12288 = None /\
  kb_epoch (binding_of (st serving) 12288) = 0 /\ reg serving = two_nodes.
Proof. vm_compute. done. Qed.

Lemma serving_solvent : solvent serving.
Proof. unfold serving. by apply (run_sound _ (mkChain blank 0 two_nodes [])), blank_solvent. Qed.

Lemma owner_key : resolveOwnerKey no_env (fl_key owner_flags) = Ok 5.
Proof. vm_compute. reflexivity. Qed.

Lemma text_8192 : hex_to_address (addr_hex 8192) = 8192.
Proof. vm_compute. reflexivity. Qed.

Lemma text_12288 : hex_to_address (addr_hex 12288) = 12288.
Proof. vm_compute. reflexivity. Qed.

Lemma text_99 : hex_to_address (fl_contract owner_flags) = 99.
Proof. vm_compute. reflexivity. Qed.

Lemma owner_is_no_user key : resolveOwnerKey no_env (fl_key owner_flags) = Ok key -> key_addr key <> 4096.
Proof. rewrite owner_key. intros [= <-]. intros E. vm_compute in E. discriminate E. Qed.

Lemma operator_leaves_users_alone_witness :
  held 4096 8192 (st serving)
    (st (dk_chain (w_chain (operator_main no_env owner_flags (CmdRotate (addr_hex 8192) (addr_hex 12288) EmptyString) (at_desk serving [])).2))).
Proof.
  exact (operator_leaves_users_alone 4096 8192 sep0 no_env owner_flags _ (at_desk serving [])
    (conj (proj1 serving_state) (proj1 (proj2 serving_state))) (Forall_nil_2 _) owner_is_no_user).
Defined.

Lemma serving_managed : manages 99 (key_addr 5) (sv_AppId (service_of (st serving) (hex_to_address (addr_hex 8192)))) serving (mkAppInfo 5 3).
Proof.
  destruct serving_state as (_ & _ & _ & _ & _ & Es & _ & _ & Er). rewrite text_8192, Es. cbn [sv_AppId].
  split; [intros E; discriminate E|rewrite Er; reflexivity|reflexivity|rewrite Er; reflexivity].
Qed.

Lemma rotate_hands_over_witness :
  let old := hex_to_address (addr_hex 8192) in
  let new := hex_to_address (addr_hex 12288) in
  let url := sv_Url (service_of (st serving) old) in
  exists l, runRotate no_env owner_flags (addr_hex 8192) (addr_hex 12288) EmptyString (at_desk serving []) =
    (Ok tt, on_chain (mkChain (rotated old new url (st serving)) (eth serving - earnings (st serving) old) (reg serving) (evs serving ++ l)) (at_desk serving [])) /\
    handed_over old new url (st serving) (rotated old new url (st serving)).
Proof.
  assert (8192 ∈ s_serviceExists (st serving)) as Hx by exact (proj1 (bool_decide_eq_true _) (proj1 (proj2 (proj2 (proj2 serving_state))))).
  assert (addr_hex 8192 <> EmptyString) as H1' by (intros E; discriminate E).
  assert (addr_hex 12288 <> EmptyString) as H2' by (intros E; discriminate E).
  assert (fl_contract owner_flags <> EmptyString) as H3' by (intros E; discriminate E).
  destruct serving_state as (_ & _ & Hl & _ & Hb & Es & Hn & Hnb & Er).
  assert (t_addedAt (s_tappRegistry (st serving)) (sv_AppId (service_of (st serving) (hex_to_address (addr_hex 8192)))) (hex_to_address (addr_hex 12288)) (reg serving) = Ok 5) as Ha.
  { rewrite text_8192, text_12288, Es, Er. reflexivity. }
  refine (rotate_hands_over no_env owner_flags 5 (addr_hex 8192) (addr_hex 12288) EmptyString (at_desk serving []) (mkAppInfo 5 3) 5
    eq_refl serving_solvent Hl H1' H2' owner_key H3' text_99 eq_refl _ _ serving_managed _ _ Ha _ _ _ _);
    rewrite ?text_8192, ?text_12288.
  - exact Hx.
  - exact Hb.
  - exact Hn.
  - exact Hnb.
  - intros E. discriminate E.
  - change (uint256_ok (sv_PricePerCPUPerMin (service_of (st serving) 8192)) = true). rewrite Es. reflexivity.
  - change (uint256_ok (sv_CreateFee (service_of (st serving) 8192)) = true). rewrite Es. reflexivity.
  - change (uint256_ok (sv_PricePerMemGBPerMin (service_of (st serving) 8192)) = true). rewrite Es. reflexivity.
Defined.

(** The daemon of KeysExamples, whose provider is 12288, and the tool reading what
    InfoExamples answers. *)
Definition node_web (url : string) : res body :=
  if bool_decide (url = "https://sandbox/api/info") then Ok (BText (JObj answer0) false) else Err EIO.

Definition registering : world (desk (R := book)) :=
  mkWorld empty_redis [] false [] 0 (mkDesk deployed 99 16601 100 node_web []) [] [].

Definition asked_prices : price_flags := mkPriceFlags "6" "7" "1".

Lemma prices_parse : parse_prices asked_prices = Ok (6, 7, 1).
Proof. vm_compute. reflexivity. Qed.

Lemma web_answers : dk_web (w_chain registering) (trim_slashes "https://sandbox/" +:+ "/api/info") = Ok (BText (JObj answer0) false).
Proof. reflexivity. Qed.

Lemma daemon_is : NodeAddress (bt_client booted0) = 8192 /\ ProviderAddress (bt_client booted0) = 12288.
Proof. vm_compute. done. Qed.

Lemma deployed_manages : manages 99 (key_addr 5) "app" deployed (mkAppInfo 5 3).
Proof.
  destruct deployed_state as (_ & _ & _ & _ & Er).
  split; [intros E; discriminate E|rewrite Er; reflexivity|reflexivity|rewrite Er; reflexivity].
Qed.

Lemma chain_id_range : 0 <= cc_ChainID (po_chain posted0) < 2 ^ 63.
Proof. split; [vm_compute; discriminate|reflexivity]. Qed.

Lemma same_contract : hex_to_address (fl_contract owner_flags) = hex_to_address (cc_ContractAddress (po_chain posted0)).
Proof. reflexivity. Qed.


End OperatorExamples.
