(* ===== verification/Request.v ===== *)
(** * The requests the command-line tools sign (cmd/user/main.go,
    cmd/provider/main.go)

    Every API subcommand signs one JSON message and sends it in three headers.
    The requests are built here and shown to be what the service's
    authentication (Auth), routes (Access) and create policy (CreatePolicy)
    accept.  encoding/json's writer is a parameter that its reader undoes. *)

From stdpp Require Import pretty.
From S2P Require Import Operator Prelude Decimal Hex Bytes Crypto Voucher Store Session Billing Json CreatePolicy Guard Config ChainTypes Chain Daytona Seal Registry Http Auth Broker Gate Access Startup Identity Tee Keys Info.

(** ** Base64 ([base64.StdEncoding.EncodeToString]) *)

Definition b64_char (v : Z) : ascii :=
  ascii_of_nat (Z.to_nat (if v <? 26 then v + 65 else if v <? 52 then v + 71 else if v <? 62 then v - 4 else if v =? 62 then 43 else 47)).

Fixpoint b64_encode (l : bytes) : string :=
  match l with
  | [] => EmptyString
  | [a] => String (b64_char (a / 4)) (String (b64_char (a mod 4 * 16)) "==")
  | [a; b] => String (b64_char (a / 4)) (String (b64_char (a mod 4 * 16 + b / 16)) (String (b64_char (b mod 16 * 4)) "="))
  | a :: b :: c :: l =>
      String (b64_char (a / 4)) (String (b64_char (a mod 4 * 16 + b / 16))
        (String (b64_char (b mod 16 * 4 + c / 64)) (String (b64_char (c mod 64)) (b64_encode l))))
  end.

Definition b64_plain (v : Z) : bool :=
  match b64_value (b64_char v) with Some x => x =? v | None => false end && negb (b64_pad (b64_char v))
  && negb (bool_decide (b64_char v = "010"%char)) && negb (bool_decide (b64_char v = "013"%char)).

Lemma b64_digits : forallb b64_plain (seqZ 0 64) = true.
Proof. vm_compute. reflexivity. Qed.

Lemma b64_digit v : 0 <= v < 64 ->
  b64_value (b64_char v) = Some v /\ b64_pad (b64_char v) = false /\ b64_char v <> "010"%char /\ b64_char v <> "013"%char.
Proof.
  intros Hv. pose proof (proj1 (forallb_forall _ _) b64_digits v) as Hp.
  specialize (Hp ltac:(apply list_elem_of_In, elem_of_seqZ; lia)). unfold b64_plain in Hp.
  apply andb_true_iff in Hp as [Hp H4]. apply andb_true_iff in Hp as [Hp H3]. apply andb_true_iff in Hp as [H1' H2'].
  destruct (b64_value _) as [x|]; [|done]. zbool. by subst.
Qed.

(** Three bytes at a time. *)
Lemma triples_ind (P : bytes -> Prop) :
  P [] -> (forall a, P [a]) -> (forall a b, P [a; b]) -> (forall a b c l, P l -> P (a :: b :: c :: l)) -> forall l, P l.
Proof.
  intros H0' H1' H2' H3' l. enough (P l /\ (forall a, P (a :: l)) /\ forall a b, P (a :: b :: l)) by tauto.
  induction l as [|x l (IH0 & IH1 & IH2)]; [done|]. split_and!; auto.
Qed.

Ltac sixbits := unfold byte_ok in *; Z.to_euclidean_division_equations; lia.

Lemma drop_newlines_keep c s : c <> "010"%char -> c <> "013"%char -> drop_newlines (String c s) = String c (drop_newlines s).
Proof. intros. cbn [drop_newlines]. by rewrite !bool_decide_false by done. Qed.

(** What is written is read back. *)
Lemma b64_decode_encode l : Forall byte_ok l -> b64_decode (b64_encode l) = Some l.
Proof.
  unfold b64_decode. assert (drop_newlines (b64_encode l) = b64_encode l /\ b64_groups (b64_encode l) = Some l -> b64_groups (drop_newlines (b64_encode l)) = Some l) as Hs
    by (intros [-> E]; exact E).
  intros Hl. apply Hs. clear Hs. revert Hl. induction l as [|a|a b|a b c l IH] using triples_ind; intros Hl; rewrite ?Forall_cons in Hl; destruct_and? Hl; [done|..];
    cbn [b64_encode].
  - destruct (b64_digit (a / 4)) as (V1 & P1 & N1 & R1); [sixbits|]. destruct (b64_digit (a mod 4 * 16)) as (V2 & P2 & N2 & R2); [sixbits|].
    split; [by rewrite !drop_newlines_keep|]. cbn [b64_groups]. rewrite V1, V2. cbn. do 2 f_equal. sixbits.
  - destruct (b64_digit (a / 4)) as (V1 & P1 & N1 & R1); [sixbits|]. destruct (b64_digit (a mod 4 * 16 + b / 16)) as (V2 & P2 & N2 & R2); [sixbits|].
    destruct (b64_digit (b mod 16 * 4)) as (V3 & P3 & N3 & R3); [sixbits|]. split; [by rewrite !drop_newlines_keep|].
    cbn [b64_groups]. rewrite V1, V2, P3, V3. cbn. repeat f_equal; sixbits.
  - destruct (b64_digit (a / 4)) as (V1 & P1 & N1 & R1); [sixbits|]. destruct (b64_digit (a mod 4 * 16 + b / 16)) as (V2 & P2 & N2 & R2); [sixbits|].
    destruct (b64_digit (b mod 16 * 4 + c / 64)) as (V3 & P3 & N3 & R3); [sixbits|]. destruct (b64_digit (c mod 64)) as (V4 & P4 & N4 & R4); [sixbits|].
    destruct IH as [IH1 IH2]; [done|]. split; [by rewrite !drop_newlines_keep, IH1|].
    cbn [b64_groups]. rewrite V1, V2, P3, V3, P4, V4, IH2. repeat f_equal; sixbits.
Qed.

(** ** encoding/json's writer *)

Class JsonMarshal := json_marshal : json -> bytes.

(** ASCII text and integers a float64 holds exactly. *)
Fixpoint plain (j : json) : bool :=
  match j with
  | JNum z fraction => negb fraction && (Z.abs z <=? 2 ^ 53)
  | JStr s => is_ascii s
  | JArr l => forallb plain l
  | JObj ms => forallb (fun '(k, v) => is_ascii k && plain v) ms
  | _ => true
  end.

(** The text is not empty and reads back as the value it was written from. *)
Class JsonLaws `{JsonMarshal} `{JsonText} := {
  marshal_read : forall j, plain j = true -> json_text (json_marshal j) = BText j false;
  marshal_bytes : forall j, Forall byte_ok (json_marshal j);
  marshal_nonempty : forall j, json_marshal j <> []
}.

(** Sixteen bytes of [crypto/rand]. *)
Class Random16 (C : Type) := rand16 : C -> bytes * C.

Class Random16Laws (C : Type) `{Random16 C} := rand16_bytes : forall c, Forall byte_ok (rand16 c).1.

(** One exchange with the service at a base URL; a URL or a method that makes no
    request is an error too. *)
Class ApiHTTP (C : Type) := do_api : string -> request -> C -> res response * C.

(** ** The signed message and its headers *)

(** [cmd/user/main.go:1037-1054 signRequest] *)
Definition signedRequest (action : string) (expiresAt : Z) (nonce : string) (payload : json) (provider resourceID : string) : json :=
  JObj ([("action", JStr action); ("expires_at", JNum expiresAt false); ("nonce", JStr nonce); ("payload", payload)]
        ++ (if bool_decide (provider = EmptyString) then [] else [("provider", JStr provider)])
        ++ [("resource_id", JStr resourceID)]).

Definition no_payload : json := JObj [].

Section Sign.
Context `{Keccak} `{Ecdsa} `{JsonMarshal} {C : Type} `{Random16 C}.

(** The message, the signature and the wallet, as the headers carry them.
    [cmd/user/main.go:1030-1072 signRequest] *)
Definition signRequest (privKey : Z) (provider action resourceID : string) (payload : json) : M C (string * string * string) :=
  let! nonceBuf := chain_call (fun c => let '(b, c') := rand16 c in (Ok b, c')) in
  let! now := gets w_now in
  let msgBytes := json_marshal (signedRequest action (now + 180) (hex_encode nonceBuf) payload provider resourceID) in
  let! sig := lift_res (res_bind (ecdsa_sign privKey (HashMessage msgBytes)) bump_v) in
  ret (b64_encode msgBytes, "0x" +:+ hex_encode sig, addr_hex (key_addr privKey)).

End Sign.

(** [cmd/provider/main.go:989-1012 signRequest] *)
Definition provider_signRequest `{Keccak} `{Ecdsa} `{JsonMarshal} {C} `{Random16 C} : Z -> string -> string -> string -> json -> M C (string * string * string) :=
  signRequest.

(** [cmd/user/main.go:1075-1087 mustLoadKey] *)
Definition mustLoadKey `{SecpKeys} (getenv : string -> string) (keyHex : string) : res Z :=
  let keyHex := if bool_decide (keyHex = EmptyString) then getenv "USER_KEY" else keyHex in
  if bool_decide (keyHex = EmptyString) then Err (EMsg "private key required: use --key or USER_KEY env")
  else HexToECDSA (trim_prefix "0x" keyHex).

(** ** One call of the API *)

(** What a subcommand asks for: the signed action, resource and payload, the
    request line behind the base URL, and a body with its type. *)
Record call := mkCall {
  ca_action : string;
  ca_resource : string;
  ca_payload : json;
  ca_method : string;
  ca_path : string;
  ca_content : option string;
  ca_body : body
}.

Abbreviation provider_cache := (gmap string string).

Definition auth_headers (content : option string) (msg sig wallet : string) : headers :=
  let h : headers := {["X-Wallet-Address" := [wallet]; "X-Signed-Message" := [msg]; "X-Wallet-Signature" := [sig]]} in
  match content with Some t => <["Content-Type" := [t]]> h | None => h end.

Section Calls.
Context `{Keccak} `{Ecdsa} `{SimpleFold} `{JsonMarshal} `{JsonText} {C : Type} `{Random16 C} `{WebGet C} `{ApiHTTP C}.

(** The request: signed for the provider the service names.
    [cmd/user/main.go:646-654 runStop] *)
Definition signed_call (privKey : Z) (apiURL : string) (ca : call) (cache : provider_cache) : M C (request * provider_cache) :=
  let! pc := providerAddressFor apiURL cache in
  let '(provider, cache) := pc in
  let! h := signRequest privKey provider (ca_action ca) (ca_resource ca) (ca_payload ca) in
  let '(msg, sig, walletAddr) := h in
  ret (mkReq (ca_method ca) (ca_path ca) (auth_headers (ca_content ca) msg sig walletAddr) (ca_body ca), cache).

(** The exchange; a status of 300 or more ends the tool.
    [cmd/user/main.go:656-665 runStop] *)
Definition exchange (apiURL : string) (rq : request) : M C response :=
  let! rsp := chain_call (do_api apiURL rq) in
  if 300 <=? rs_status rsp then fail (EMsg "HTTP error") else ret rsp.

Definition do_call (privKey : Z) (apiURL : string) (ca : call) (cache : provider_cache) : M C (response * provider_cache) :=
  let! rc := signed_call privKey apiURL ca cache in
  let! rsp := exchange apiURL rc.1 in
  ret (rsp, rc.2).

End Calls.

(** ** cmd/user *)

(** The values of the flags. [cmd/user/main.go:504-514 runCreate] *)
Record create_flags := mkCreate {
  cf_snapshot : string;
  cf_name : string;
  cf_sealed : bool;
  cf_sealID : string;
  cf_ports : string;
  cf_env : list string
}.

(** [cmd/user/main.go:536-542 runCreate] *)
Fixpoint port_list (ps : list string) : res (list json) :=
  match ps with
  | [] => Ok []
  | p :: ps' =>
      match Atoi (TrimSpace p) with
      | None => Err (EMsg "--ports must be comma-separated integers")
      | Some n => res_bind (port_list ps') (fun l => Ok (JNum n false :: l))
      end
  end.

(** [cmd/user/main.go:546-552 runCreate] *)
Fixpoint env_of (kvs : list string) (env : jmap) : res jmap :=
  match kvs with
  | [] => Ok env
  | kv :: kvs' =>
      match cut "=" kv with
      | (_, None) | (EmptyString, _) => Err (EMsg "--env must be KEY=VAL")
      | (k, Some v) => env_of kvs' (<[k := JStr v]> env)
      end
  end.

Definition put_unless (skip : bool) (k : string) (v : json) (m : jmap) : jmap := if skip then m else <[k := v]> m.

Definition unset (s : string) : bool := bool_decide (s = EmptyString).

(** [cmd/user/main.go:522-554 runCreate] *)
Definition create_fields (fl : create_flags) : res jmap :=
  let body := put_unless (unset (cf_name fl)) "name" (JStr (cf_name fl)) ∅ in
  let body := put_unless (unset (cf_snapshot fl)) "snapshot" (JStr (cf_snapshot fl)) body in
  let body := put_unless (negb (cf_sealed fl)) "sealed" (JBool true) body in
  let body := put_unless (unset (cf_sealID fl)) "seal_id" (JStr (cf_sealID fl)) body in
  res_bind (if unset (cf_ports fl) then Ok body
            else res_bind (port_list (split_char "," (cf_ports fl))) (fun l => Ok (<["publicPorts" := JArr l]> body))) (fun body =>
  match cf_env fl with
  | [] => Ok body
  | kvs => res_bind (env_of kvs ∅) (fun env => Ok (<["env" := JObj (map_members env)]> body))
  end).

Definition JSON_type : string := "application/json".

Definition sandbox_path (id : string) : string := "/api/sandbox/" +:+ id.

Definition need_id (id : string) (ca : call) : res call := if unset id then Err (EMsg "--id is required") else Ok ca.

Definition toolbox_path (id action : string) : string := "/api/toolbox/" +:+ id +:+ "/toolbox/" +:+ action.

Definition upper_ascii (c : ascii) : ascii :=
  let n := nat_of_ascii c in if ((97 <=? n) && (n <=? 122))%nat then ascii_of_nat (n - 32) else c.

(** [strings.ToUpper] of an ASCII method name. *)
Fixpoint to_upper (s : string) : string :=
  match s with EmptyString => EmptyString | String c s' => String (upper_ascii c) (to_upper s') end.

(** What each subcommand asks for, after the checks of its flags. *)
Section UserCalls.
Context `{JsonMarshal} `{JsonText}.

(** The body is the text that is written. *)
Definition written (j : json) : body := json_text (json_marshal j).

(** [cmd/user/main.go:503-570 runCreate] *)
Definition create_call (fl : create_flags) : res call :=
  res_bind (create_fields fl) (fun body =>
  let payload := JObj (map_members body) in
  Ok (mkCall "create" EmptyString payload "POST" "/api/sandbox" (Some JSON_type) (written payload))).

(** [cmd/user/main.go:591-604 runList] *)
Definition list_call : call := mkCall "list" EmptyString no_payload "GET" "/api/sandbox" None BEmpty.

(** [cmd/user/main.go:635-653 runStop] *)
Definition stop_call (id : string) : res call :=
  need_id id (mkCall "stop" id no_payload "POST" (sandbox_path id +:+ "/stop") None BEmpty).

(** [cmd/user/main.go:671-689 runDelete] *)
Definition delete_call (id : string) : res call := need_id id (mkCall "delete" id no_payload "DELETE" (sandbox_path id) None BEmpty).

(** [cmd/user/main.go:708-737 runExec] *)
Definition exec_call (id command : string) (timeout : Z) : res call :=
  res_bind (need_id id (mkCall "toolbox" id no_payload "POST" (toolbox_path id "process/execute") (Some JSON_type)
                          (written (JObj [("command", JStr command); ("timeout", JNum timeout false)])))) (fun ca =>
  if unset command then Err (EMsg "--cmd is required") else Ok ca).

(** [cmd/user/main.go:817-847 runToolbox] *)
Definition toolbox_call (id action method body : string) : res call :=
  res_bind (need_id id (mkCall "toolbox" id no_payload (to_upper method) (toolbox_path id (trim_prefix "/" action))
                          (if unset body then None else Some JSON_type) (json_text (bytes_of_string body)))) (fun ca =>
  if unset action then Err (EMsg "--action is required") else Ok ca).

(** [cmd/user/main.go:864-884 runStart] *)
Definition start_call (id : string) : res call :=
  need_id id (mkCall "start" id no_payload "POST" (sandbox_path id +:+ "/start") None BEmpty).

(** [cmd/user/main.go:902-922 runSSHAccess] *)
Definition ssh_call (id : string) : res call :=
  need_id id (mkCall "ssh-access" id no_payload "POST" (sandbox_path id +:+ "/ssh-access") None BEmpty).

End UserCalls.

Section UserCommands.
Context `{Keccak} `{Ecdsa} `{SecpKeys} `{SimpleFold} `{JsonMarshal} `{JsonText} {C : Type} `{Random16 C} `{WebGet C} `{ApiHTTP C}.
Variable getenv : string -> string.

(** The flags' check, the key, the signed request and its answer; the cache
    of a fresh process is empty. *)
Definition run_call (ca : res call) (apiURL keyHex : string) : M C response :=
  let! ca := lift_res ca in
  let! privKey := lift_res (mustLoadKey getenv keyHex) in
  let! r := do_call privKey apiURL ca ∅ in
  ret r.1.

(** The key is loaded between the check of the snapshot and the reading of the
    other flags. [cmd/user/main.go:503-587 runCreate] *)
Definition runCreate (apiURL keyHex : string) (fl : create_flags) : M C response :=
  if unset (cf_snapshot fl) then fail (EMsg "--snapshot is required")
  else
    let! _ := lift_res (mustLoadKey getenv keyHex) in
    run_call (create_call fl) apiURL keyHex.

(** [cmd/user/main.go:591-631 runList] *)
Definition runList (apiURL keyHex : string) : M C response := run_call (Ok list_call) apiURL keyHex.

(** [cmd/user/main.go:635-667 runStop] *)
Definition runStop (apiURL keyHex id : string) : M C response := run_call (stop_call id) apiURL keyHex.

(** [cmd/user/main.go:671-703 runDelete] *)
Definition runDelete (apiURL keyHex id : string) : M C response := run_call (delete_call id) apiURL keyHex.

(** The process's exit code: the command's, when the answer can be read.
    [cmd/user/main.go:708-761 runExec] *)
Definition runExec (apiURL keyHex id command : string) (timeout : Z) : M C Z :=
  let! rsp := run_call (exec_call id command timeout) apiURL keyHex in
  ret (match rs_body rsp with
       | BText (JObj ms) false =>
           match field_int64 "exitCode" ms, field_string "result" ms with Ok code, Ok _ => code | _, _ => 0 end
       | _ => 0
       end).

(** [cmd/user/main.go:817-860 runToolbox] *)
Definition runToolbox (apiURL keyHex id action method body : string) : M C response :=
  run_call (toolbox_call id action method body) apiURL keyHex.

(** [cmd/user/main.go:864-897 runStart] *)
Definition runStart (apiURL keyHex id : string) : M C response := run_call (start_call id) apiURL keyHex.

(** The command to connect with, the token's expiry and the token.
    [cmd/user/main.go:902-955 runSSHAccess] *)
Definition runSSHAccess (apiURL keyHex id : string) : M C (string * string * string) :=
  let! rsp := run_call (ssh_call id) apiURL keyHex in
  let! r := lift_res (match rs_body rsp with
    | BText (JObj ms) false =>
        res_bind (field_string "token" ms) (fun t =>
        res_bind (field_string "expiresAt" ms) (fun e =>
        res_bind (field_string "sshCommand" ms) (fun s => Ok (t, e, s))))
    | BText JNull false => Ok (EmptyString, EmptyString, EmptyString)
    | _ => Err (EMsg "parse response")
    end) in
  let '(token, expires, command) := r in
  let apiHost := default EmptyString (hd_error (split_char ":" (trim_prefix "http://" (trim_prefix "https://" apiURL)))) in
  ret (replace_all (String.length command) "localhost" apiHost command, expires, token).

(** A public endpoint: nothing is signed. [cmd/user/main.go:959-995 runListSnapshots] *)
Definition runListSnapshots (apiURL : string) : M C response := exchange apiURL (mkReq "GET" "/api/snapshots" ∅ BEmpty).

End UserCommands.

(** ** cmd/provider *)

(** [cmd/provider/main.go:700-705 snapshotTier] *)
Record snapshotTier := mkTier { suffix : string; tier_cpu : Z; tier_memory : Z; tier_disk : Z }.

(** [cmd/provider/main.go:708-712 defaultTiers] *)
Definition defaultTiers : list snapshotTier := [mkTier "small" 1 1 10; mkTier "medium" 2 4 30; mkTier "large" 4 8 60].

(** [strings.HasSuffix]. *)
Definition has_suffix (suf s : string) : bool :=
  (String.length suf <=? String.length s)%nat &&
  bool_decide (substring (String.length s - String.length suf) (String.length suf) s = suf).

(** The image names [push-image] takes. [cmd/provider/main.go:639-650 runPushImage] *)
Definition push_target (image name registry : string) : res string :=
  if unset image then Err (EMsg "--image is required")
  else if negb (contains image ":") || has_suffix ":latest" image then
    Err (EMsg "image must include an explicit version tag, e.g. rust-sandbox:1.0.0 (not :latest)")
  else Ok (registry +:+ "/daytona/" +:+ (if unset name then image else name)).

Section ProviderCalls.
Context `{JsonMarshal} `{JsonText}.

(** [cmd/provider/main.go:766-785 createSnapshot] *)
Definition snapshot_call (imageName name : string) (cpu memory disk : Z) : call :=
  let payload := JObj [("cpu", JNum cpu false); ("disk", JNum disk false); ("imageName", JStr imageName);
                       ("memory", JNum memory false); ("name", JStr name)] in
  mkCall "snapshot" EmptyString payload "POST" "/api/snapshots" (Some JSON_type) (written payload).

(** [cmd/provider/main.go:810-825 runListSnapshots] *)
Definition snapshots_call : call := mkCall "list" EmptyString no_payload "GET" "/api/snapshots" None BEmpty.

(** [cmd/provider/main.go:856-876 runDeleteSnapshot] *)
Definition delete_snapshot_call (id : string) : res call :=
  need_id id (mkCall "delete-snapshot" id no_payload "DELETE" ("/api/snapshots/" +:+ id) None BEmpty).

(** [cmd/provider/main.go:891-912 runGCImages] *)
Definition gc_call (dryRun : bool) : call :=
  mkCall "gc-images" EmptyString no_payload "POST" ("/api/registry/gc" +:+ if dryRun then "?dry_run=true" else EmptyString) None BEmpty.

End ProviderCalls.

(** Running [docker], alone or reading another one's output. *)
Class Docker (C : Type) := {
  docker : list string -> C -> res unit * C;
  docker_pipe : list string -> list string -> C -> res unit * C
}.

Section ProviderCommands.
Context `{Keccak} `{Ecdsa} `{SecpKeys} `{SimpleFold} `{JsonMarshal} `{JsonText} {C : Type} `{Random16 C} `{WebGet C} `{ApiHTTP C}.
Variable getenv : string -> string.

(** [cmd/provider/main.go:631-695 runPushImage] *)
Definition runPushImage `{Docker C} (image name runner registry : string) : M C unit :=
  let! registryPath := lift_res (push_target image name registry) in
  chain_call (docker_pipe ["save"; image] ["exec"; "-i"; runner; "docker"; "load"]) ;;
  chain_call (docker ["exec"; runner; "docker"; "tag"; image; registryPath]) ;;
  chain_call (docker ["exec"; runner; "docker"; "push"; registryPath]).

(** [cmd/provider/main.go:766-807 createSnapshot] *)
Definition createSnapshot (privKey : Z) (apiURL imageName name : string) (cpu memory disk : Z) (cache : provider_cache) : M C (response * provider_cache) :=
  do_call privKey apiURL (snapshot_call imageName name cpu memory disk) cache.

(** A tier that fails does not stop the next; the names that were registered. A
    failed call has resolved the provider too, or left it to the next.
    [cmd/provider/main.go:743-751 runSnapshot] *)
Fixpoint snapshot_tiers (privKey : Z) (apiURL image baseName : string) (tiers : list snapshotTier) (cache : provider_cache) : M C (list string) :=
  match tiers with
  | [] => ret []
  | t :: tiers' =>
      let n := baseName +:+ "-" +:+ suffix t in
      let! pc := providerAddressFor apiURL cache in
      let! x := attempt (createSnapshot privKey apiURL image n (tier_cpu t) (tier_memory t) (tier_disk t) pc.2) in
      let! rest := snapshot_tiers privKey apiURL image baseName tiers' pc.2 in
      ret (match x with inl _ => n :: rest | inr _ => rest end)
  end.

(** The values of the flags. [cmd/provider/main.go:720-728 runSnapshot] *)
Record snapshot_flags := mkSnapshotFlags {
  sf_image : string;
  sf_name : string;
  sf_tiers : bool;
  sf_cpu : Z;
  sf_memory : Z;
  sf_disk : Z
}.

(** The names that were registered. [cmd/provider/main.go:719-763 runSnapshot] *)
Definition runSnapshot (apiURL keyHex : string) (fl : snapshot_flags) : M C (list string) :=
  if unset (sf_image fl) then fail (EMsg "--image is required")
  else
    let! privKey := lift_res (resolveOwnerKey getenv keyHex) in
    let baseName := if unset (sf_name fl) then sf_image fl else sf_name fl in
    if sf_tiers fl then snapshot_tiers privKey apiURL (sf_image fl) baseName defaultTiers ∅
    else
      let! _ := createSnapshot privKey apiURL (sf_image fl) baseName (sf_cpu fl) (sf_memory fl) (sf_disk fl) ∅ in
      ret [baseName].

Definition run_owner_call (ca : res call) (apiURL keyHex : string) : M C response :=
  let! ca := lift_res ca in
  let! privKey := lift_res (resolveOwnerKey getenv keyHex) in
  let! r := do_call privKey apiURL ca ∅ in
  ret r.1.

(** The public listing, asked for with a signature nobody reads.
    [cmd/provider/main.go:810-853 runListSnapshots] *)
Definition provider_runListSnapshots (apiURL keyHex : string) : M C response := run_owner_call (Ok snapshots_call) apiURL keyHex.

(** [cmd/provider/main.go:856-887 runDeleteSnapshot] *)
Definition runDeleteSnapshot (apiURL keyHex id : string) : M C response := run_owner_call (delete_snapshot_call id) apiURL keyHex.

(** [cmd/provider/main.go:891-958 runGCImages] *)
Definition runGCImages (apiURL keyHex : string) (dryRun : bool) : M C response := run_owner_call (Ok (gc_call dryRun)) apiURL keyHex.

End ProviderCommands.

(** ** Lemmas *)

Lemma hex_digit_ascii n : 0 <= n < 16 -> (nat_of_ascii (hex_digit n) < 128)%nat.
Proof.
  intros Hn. assert (forallb (fun n => nat_of_ascii (hex_digit n) <? 128)%nat (seqZ 0 16) = true) as E by (vm_compute; reflexivity).
  apply Nat.ltb_lt. apply (proj1 (forallb_forall _ _) E). apply list_elem_of_In, elem_of_seqZ. lia.
Qed.

Lemma hex_encode_ascii b : Forall byte_ok b -> is_ascii (hex_encode b) = true.
Proof.
  induction 1 as [|x l Hx _ IH]; [done|]. cbn [hex_encode is_ascii]. unfold byte_ok in Hx. rewrite IH, !andb_true_iff, !Nat.ltb_lt.
  split_and!; try done; apply hex_digit_ascii; Z.to_euclidean_division_equations; lia.
Qed.

Section Message.
Context `{SF : SimpleFold} `{!SimpleFoldLaws}.

(** What the service reads in the message. *)
Lemma unmarshal_signedRequest action t nonce payload provider resourceID :
  - 2 ^ 63 <= t < 2 ^ 63 ->
  unmarshal_signed (BText (signedRequest action t nonce payload provider resourceID) false) = Ok (mkSigned t nonce provider resourceID).
Proof.
  intros Ht. unfold unmarshal_signed, signedRequest. case_bool_decide as Hp; cbn [app].
  - rewrite (field_string_at 0 "action" _ action), (field_int64_at 1 "expires_at" _ t), (field_string_at 2 "nonce" _ nonce),
      (field_string_at 4 "resource_id" _ resourceID) by (reflexivity || exact Ht). cbn [res_bind].
    rewrite (field_string_ascii "provider") by reflexivity. by rewrite Hp.
  - rewrite (field_string_at 0 "action" _ action), (field_int64_at 1 "expires_at" _ t), (field_string_at 2 "nonce" _ nonce),
      (field_string_at 4 "provider" _ provider), (field_string_at 5 "resource_id" _ resourceID) by (reflexivity || exact Ht). done.
Qed.

End Message.

Lemma plain_signedRequest action t nonce payload provider resourceID :
  is_ascii action = true -> 0 <= t <= 2 ^ 53 -> is_ascii nonce = true -> plain payload = true -> is_ascii provider = true ->
  is_ascii resourceID = true -> plain (signedRequest action t nonce payload provider resourceID) = true.
Proof.
  intros Ha Ht Hn Hp Hv Hi. unfold signedRequest. cbn [plain]. rewrite !forallb_app. cbn [forallb plain]. rewrite Ha, Hn, Hp, Hi.
  assert ((Z.abs t <=? 2 ^ 53) = true) as -> by lia. case_bool_decide; [done|]. cbn [forallb plain]. by rewrite Hv.
Qed.

Section Signed.
Context `{KeccakLaws} `{EcdsaLaws} `{SF : SimpleFold} `{!SimpleFoldLaws} `{JsonLaws} {C : Type} `{Random16Laws C}.
Implicit Types w : world C.

(** The three headers carry a message of the wallet's with the fields asked for,
    which expires three minutes later. *)
Lemma signRequest_inv key provider action resourceID payload w msg sig wallet w' :
  signRequest key provider action resourceID payload w = (Ok (msg, sig, wallet), w') ->
  is_ascii action = true -> plain payload = true -> is_ascii provider = true -> is_ascii resourceID = true -> 0 <= w_now w <= 2 ^ 52 ->
  let nonce := hex_encode (rand16 (w_chain w)).1 in
  wallet = addr_hex (key_addr key) /\ msg <> EmptyString /\ w_now w' = w_now w /\
  exists m s, b64_decode msg = Some m /\ unmarshal_signed (json_text m) = Ok (mkSigned (w_now w + 180) nonce provider resourceID) /\
    sig = "0x" +:+ hex_encode s /\ hex_decode (trim_prefix "0x" sig) = Some s /\ Recover m s = Ok (key_addr key).
Proof.
  intros E Ha Hp Hv Hi Ht nonce. unfold signRequest in E. unfold bind at 1, chain_call in E. subst nonce.
  pose proof (rand16_bytes (w_chain w)) as Hb. destruct (rand16 (w_chain w)) as [b c]. cbn [fst] in *.
  unfold bind at 1, gets, lift_res in E. cbn [w_now set_chain] in E.
  set (j := signedRequest action (w_now w + 180) (hex_encode b) payload provider resourceID) in *.
  destruct (ecdsa_sign key _) as [s| |] eqn:Es; cbn [res_bind] in E; [|done..].
  destruct (bump_normalize _ _ _ Es) as (s' & Es' & Hn & Hl). rewrite Es' in E. unfold bind in E. injection E as <- <- <- <-.
  assert (Forall byte_ok s') as Hs by (eapply bump_v_bytes; [|exact Es']; eapply sign_bytes; [|exact Es]; apply keccak_bytes).
  assert (plain j = true) as Hj by (apply plain_signedRequest; auto using hex_encode_ascii; lia).
  pose proof (b64_decode_encode (json_marshal j) (marshal_bytes j)) as Hd.
  split; [done|]. split. { intros Ee. rewrite Ee in Hd. injection Hd as Hd. by apply (marshal_nonempty j). }
  split; [done|]. exists (json_marshal j), s'. split; [exact Hd|].
  rewrite (marshal_read j Hj). split; [apply unmarshal_signedRequest; lia|]. split; [done|]. rewrite trim_0x. split; [by apply hex_decode_encode|].
  unfold Recover. rewrite bool_decide_true by done. cbn [negb]. rewrite Hn. by apply sign_recover.
Qed.

End Signed.

Lemma hex_digits_ascii n : forall a, is_ascii (hex_digits n a) = true.
Proof.
  induction n as [|n IH]; intros a; cbn [hex_digits is_ascii]; [done|]. rewrite IH, andb_true_r.
  apply Nat.ltb_lt, hex_digit_ascii, mod16_range.
Qed.

Lemma addr_hex_ascii a : is_ascii (addr_hex a) = true.
Proof. unfold addr_hex. cbn [is_ascii]. by rewrite hex_digits_ascii. Qed.

(** What the tool writes into the message is plain text. *)
Record call_plain (ca : call) : Prop := {
  cp_action : is_ascii (ca_action ca) = true;
  cp_resource : is_ascii (ca_resource ca) = true;
  cp_payload : plain (ca_payload ca) = true
}.

Section Built.
Context `{KeccakLaws} `{EcdsaLaws} `{SF : SimpleFold} `{!SimpleFoldLaws} `{JsonLaws} {C : Type} `{Random16Laws C} `{WebGet C}.
Implicit Types w : world C.

Lemma providerAddressFor_now api cache w r w' : providerAddressFor api cache w = (Ok r, w') -> w_now w' = w_now w.
Proof.
  unfold providerAddressFor. destruct (cache !! api); [by intros [= _ <-]|]. unfold bind, attempt, chain_call.
  destruct (http_get _ _) as [[b| |] c]; intros [= _ <-]; done.
Qed.

(** A built request in one piece. *)
Lemma signed_call_inv key api ca cache w rq cache' w' :
  signed_call key api ca cache w = (Ok (rq, cache'), w') -> call_plain ca -> 0 <= w_now w <= 2 ^ 52 ->
  exists provider w1, providerAddressFor api cache w = (Ok (provider, cache'), w1) /\
  (is_ascii provider = true ->
   let nonce := hex_encode (rand16 (w_chain w1)).1 in
   rq_path rq = ca_path ca /\ rq_method rq = ca_method ca /\ rq_body rq = ca_body ca /\
   header_get (rq_header rq) "X-Wallet-Address" = addr_hex (key_addr key) /\
   header_get (rq_header rq) "X-Signed-Message" <> EmptyString /\ header_get (rq_header rq) "X-Wallet-Signature" <> EmptyString /\
   exists m s, signed_message rq = Some m /\ unmarshal_signed (json_text m) = Ok (mkSigned (w_now w + 180) nonce provider (ca_resource ca)) /\
     hex_decode (trim_prefix "0x" (header_get (rq_header rq) "X-Wallet-Signature")) = Some s /\ Recover m s = Ok (key_addr key)).
Proof.
  intros E [Ha Hi Hp] Ht. unfold signed_call in E. apply bind_Ok in E as ([provider cache1] & w1 & Ep & E).
  apply bind_Ok in E as ([[msg sig] wallet] & w2 & Es & E). injection E as <- <- <-.
  exists provider, w1. split; [done|]. intros Hv. pose proof (providerAddressFor_now _ _ _ _ _ Ep) as Hn.
  apply signRequest_inv in Es as (-> & Hm & _ & m & s & Hd & Hu & -> & Hs & Hr); try done; [|by rewrite Hn].
  rewrite Hn in Hu. unfold signed_message. cbn [rq_path rq_method rq_body rq_header].
  assert (forall k v t, k <> "Content-Type" -> header_get (auth_headers t msg ("0x" +:+ hex_encode s) (addr_hex (key_addr key))) k = v <->
    header_get (auth_headers None msg ("0x" +:+ hex_encode s) (addr_hex (key_addr key))) k = v) as Hh.
  { intros k v [t|] Hk; [|done]. unfold auth_headers, header_get. by rewrite lookup_insert_ne. }
  assert (header_get (auth_headers (ca_content ca) msg ("0x" +:+ hex_encode s) (addr_hex (key_addr key))) "X-Wallet-Address" = addr_hex (key_addr key)) as ->
    by (by apply Hh).
  assert (header_get (auth_headers (ca_content ca) msg ("0x" +:+ hex_encode s) (addr_hex (key_addr key))) "X-Signed-Message" = msg) as -> by (by apply Hh).
  assert (header_get (auth_headers (ca_content ca) msg ("0x" +:+ hex_encode s) (addr_hex (key_addr key))) "X-Wallet-Signature" = "0x" +:+ hex_encode s) as ->
    by (by apply Hh).
  split_and!; try done. exists m, s. by split_and!.
Qed.

End Built.

(** The service's checks, for a request with an intact signature. *)
Lemma Middleware_accepts `{Keccak} `{Ecdsa} `{SimpleFold} `{JsonText} {C} opts id rq (w : world C) m s req a :
  header_get (rq_header rq) "X-Wallet-Address" = addr_hex a -> header_get (rq_header rq) "X-Signed-Message" <> EmptyString ->
  header_get (rq_header rq) "X-Wallet-Signature" <> EmptyString -> signed_message rq = Some m ->
  unmarshal_signed (json_text m) = Ok req -> hex_decode (trim_prefix "0x" (header_get (rq_header rq) "X-Wallet-Signature")) = Some s ->
  Recover m s = Ok a -> w_now w < sr_ExpiresAt req <= w_now w + maxFutureWindow -> binding_error opts id req = None ->
  quiet w -> flag_live (w_now w) (w_redis w) (nonce_flag (addr_hex a) (sr_Nonce req)) = false ->
  MiddlewareWithOptions opts id rq w =
    (Ok (inl (addr_hex a)), set_redis (set_flag (w_now w) (nonce_flag (addr_hex a) (sr_Nonce req)) (sr_ExpiresAt req - w_now w) (w_redis w)) w).
Proof.
  intros Hw Hm Hs Em Er Es Ea Ht Hb Hq Hf. unfold MiddlewareWithOptions. cbv zeta. rewrite Hw.
  rewrite (bool_decide_false (addr_hex a = EmptyString)), (bool_decide_false (header_get _ "X-Signed-Message" = _)),
    (bool_decide_false (header_get _ "X-Wallet-Signature" = _)) by done.
  cbn [orb]. unfold signed_message in Em. rewrite Em, Er. unfold bind at 1. cbn [gets].
  destruct (Z.leb_spec (sr_ExpiresAt req) (w_now w)); [lia|]. destruct (Z.ltb_spec (w_now w + maxFutureWindow) (sr_ExpiresAt req)); [lia|].
  rewrite Es, Ea. unfold equal_fold. rewrite bool_decide_true by done. cbn [negb]. rewrite Hb.
  unfold bind, attempt. rewrite rcmd_quiet by done. unfold setnx. rewrite Hf. done.
Qed.

(** ** From the tool to the service *)

(** A strict or lax service is happy with a message for it. *)
Lemma binding_error_own opts id req :
  (o_ProviderAddress opts <> EmptyString -> sr_Provider req = o_ProviderAddress opts) -> sr_ResourceID req = id ->
  binding_error opts id req = None.
Proof.
  intros Hp <-. unfold binding_error. destruct (bool_decide_reflect (o_ProviderAddress opts = EmptyString)) as [E|E]; cbn [negb andb].
  - destruct (bool_decide_reflect (sr_ResourceID req = EmptyString)) as [|E2]; cbn [negb andb]; [done|]. by rewrite (bool_decide_true (sr_ResourceID req = _)).
  - rewrite (Hp E). unfold equal_fold. rewrite (bool_decide_true (to_lower _ = _)) by done. rewrite (bool_decide_false (o_ProviderAddress opts = EmptyString)) by done.
    cbn [negb andb]. destruct (bool_decide_reflect (sr_ResourceID req = EmptyString)) as [|E2]; cbn [negb andb]; [done|].
    by rewrite (bool_decide_true (sr_ResourceID req = _)).
Qed.

(** What the tools read in a daemon's description is the daemon's provider. *)
Lemma provider_of_info `{KeccakLaws} `{EcdsaLaws} `{SF : SimpleFold} `{!SimpleFoldLaws} {C} `{Bindings C} `{NodeReads C} po b owner (w : world C) ms w' trailing :
  api_info po b owner w = (Ok ms, w') -> provider_of (inl (BText (JObj ms) trailing)) = addr_hex (ProviderAddress (bt_client b)).
Proof.
  intros E. apply api_info_Ok in E as (o & signer & settler & ->). unfold provider_of.
  destruct (KmsProvider (bt_client b)); by rewrite (field_string_at 1 "provider_address" _ (addr_hex (ProviderAddress (bt_client b)))).
Qed.

Section Served.
Context `{KeccakLaws} `{EcdsaLaws} `{SF : SimpleFold} `{!SimpleFoldLaws} `{JsonLaws} {T : Type} `{Random16Laws T} `{WebGet T}.
Context {D : Type} `{Bindings D} `{NodeReads D}.
Context {C : Type} `{DaytonaHTTP C} `{BrokerHTTP C} `{ImageNames} `{Crane C} `{KeyGen C} `{Upstream C} `{SessionScan} `{SealDebug}.

(** C28: the service serves what its tools sign.  A subcommand that read the
    daemon's /api/info, signed with the user's key and is delivered between
    two minutes before and three minutes after the signing (the clocks may
    differ), on the route that binds the resource it signed, passes the
    authentication of that daemon, strict or not: the route's handler runs for
    the key's wallet, and the message's nonce is taken. *)
Theorem cli_request_served (px : Handler C) strict polls escaped r key api ca (wt wt' : world T) rq cache (ws : world C)
  po b owner (wi : world D) ms wi' trailing web :
  api_info po b owner wi = (Ok ms, wi') ->
  http_get (trim_slashes api +:+ "/api/info") (w_chain wt) = (Ok (BText (JObj ms) trailing), web) ->
  signed_call key api ca ∅ wt = (Ok (rq, cache), wt') -> call_plain ca -> 0 <= w_now wt <= 2 ^ 52 ->
  ca_resource ca = route_id r -> w_now wt - 120 <= w_now ws < w_now wt + 180 -> quiet ws ->
  let nonce := nonce_flag (addr_hex (key_addr key)) (hex_encode (rand16 web).1) in
  flag_live (w_now ws) (w_redis ws) nonce = false -> PathTraversalGuard (ca_path ca) escaped = true ->
  serve px (mkOptions (addr_hex (ProviderAddress (bt_client b))) strict) polls escaped r rq ws =
  dispatch_route px polls (addr_hex (key_addr key)) r rq
    (set_redis (set_flag (w_now ws) nonce (w_now wt + 180 - w_now ws) (w_redis ws)) ws).
Proof.
  intros Hinfo Hweb E Hca Ht Hr Hnow Hq nonce Hf Hg.
  apply signed_call_inv in E as (provider & w1 & Ep & Hb); [|done..].
  unfold providerAddressFor in Ep. rewrite lookup_empty in Ep. unfold bind, attempt, chain_call in Ep. rewrite Hweb in Ep.
  cbv zeta in Ep. injection Ep as <- _ <-. pose proof (provider_of_info _ _ _ _ _ _ trailing Hinfo) as Hp.
  cbn [provider_of] in Hp. rewrite Hp in Hb.
  destruct (Hb (addr_hex_ascii _)) as (Hpath & _ & _ & Hw & Hm & Hs & m & s & Em & Er & Es & Ea). cbn [w_chain set_chain] in Er. clear Hb.
  unfold serve. erewrite bind_ok.
  2: { eapply Middleware_accepts; try done; cbn [sr_ExpiresAt sr_Nonce].
       - unfold maxFutureWindow. lia.
       - by apply binding_error_own. }
  rewrite Hpath, Hg. reflexivity.
Qed.

(** What a captured request is good for.  Whoever replays a tool's message,
    in whatever request, at whatever service and with whatever signature: it is
    accepted only within five minutes around the signing, by the provider the
    tool resolved if it resolved one, and for the resource it names. *)
Theorem cli_request_bound key api ca cache (wt wt' : world T) rq cache' provider wt1 opts id rq' (ws ws' : world C) wallet :
  providerAddressFor api cache wt = (Ok (provider, cache'), wt1) ->
  signed_call key api ca cache wt = (Ok (rq, cache'), wt') -> call_plain ca -> is_ascii provider = true -> 0 <= w_now wt <= 2 ^ 52 ->
  signed_message rq' = signed_message rq ->
  MiddlewareWithOptions opts id rq' ws = (Ok (inl wallet), ws') ->
  w_now wt - 120 <= w_now ws < w_now wt + 180 /\
  (provider <> EmptyString -> o_ProviderAddress opts <> EmptyString -> to_lower provider = to_lower (o_ProviderAddress opts)) /\
  (ca_resource ca <> EmptyString -> id <> EmptyString -> ca_resource ca = id) /\
  (o_Strict opts = true -> o_ProviderAddress opts <> EmptyString -> provider <> EmptyString).
Proof.
  intros Ep E Hca Hv Ht Hm Hacc. apply signed_call_inv in E as (p & w1 & Ep' & Hb); [|done..]. rewrite Ep in Ep'. injection Ep' as <- <-.
  destruct (Hb Hv) as (_ & _ & _ & _ & _ & _ & m & s & Em & Er & _).
  apply Middleware_inv in Hacc as (_ & m' & req & r & [Em' Er' Hfresh _ Hp Hres Hst] & _).
  rewrite Hm, Em in Em'. injection Em' as <-. rewrite Er in Er'. injection Er' as <-. cbn [sr_ExpiresAt sr_Provider sr_ResourceID] in *.
  unfold maxFutureWindow in *. split; [lia|]. split; [auto|]. split; [auto|]. intros S. by apply Hst.
Qed.

End Served.

(** ** The bodies the tool builds *)

Definition tool_fields : list string := ["name"; "snapshot"; "sealed"; "seal_id"; "publicPorts"; "env"].

Section Policy.
Context `{SF : SimpleFold} `{!SimpleFoldLaws}.

(** Fixed spellings: how the fields fold against each other and against the
    policy's can be computed. *)
Lemma tool_field_folds k f : k ∈ tool_fields -> is_ascii f = true -> EqualFold k f = bool_decide (ascii_fold k = ascii_fold f).
Proof. intros _ Hf. by apply EqualFold_ascii. Qed.

Lemma tool_fields_check (P : string -> bool) : forallb P tool_fields = true -> forall k, k ∈ tool_fields -> P k = true.
Proof. intros E k Hk. apply (proj1 (forallb_forall _ _) E). by apply list_elem_of_In. Qed.

Ltac tool_check P Hk Hc :=
  let E := fresh in assert (forallb P tool_fields = true) as E by (vm_compute; reflexivity);
  pose proof (tool_fields_check P E _ Hk) as Hc; cbv beta in Hc; clear E.

Lemma tool_fold_inj k k' : k ∈ tool_fields -> k' ∈ tool_fields -> foldName k = foldName k' -> k = k'.
Proof.
  intros Hk Hk' E. tool_check (fun k => forallb (fun k' => is_ascii k' && implb (bool_decide (ascii_fold k = ascii_fold k')) (bool_decide (k = k'))) tool_fields) Hk Hc.
  pose proof (tool_fields_check _ Hc k' Hk') as Hc'. cbv beta in Hc'. apply andb_true_iff in Hc' as [Ha Hi].
  apply (fold_ascii k k' Ha) in E. rewrite (bool_decide_true (ascii_fold k = _)) in Hi by done. cbn [implb] in Hi. by apply bool_decide_eq_true in Hi.
Qed.

Lemma reject_folded_pass ks : forall seen,
  NoDup ks -> (forall k, k ∈ ks -> k ∈ tool_fields) -> (forall k, k ∈ ks -> seen !! foldName k = None) -> reject_folded ks seen = Ok tt.
Proof.
  induction ks as [|k ks IH]; intros seen Hnd Hin Hseen; [done|]. apply NoDup_cons in Hnd as [Hk Hnd]. cbn [reject_folded].
  assert (EqualFold k "snapshot" && negb (bool_decide (k = "snapshot")) = false) as ->.
  { assert (k ∈ tool_fields) as Hkt by (apply Hin; by left). rewrite (tool_field_folds k "snapshot" Hkt) by reflexivity.
    tool_check (fun k => negb (bool_decide (ascii_fold k = ascii_fold "snapshot") && negb (bool_decide (k = "snapshot")))) Hkt Hc. by apply negb_true_iff in Hc. }
  rewrite (Hseen k) by (by left). apply IH; [done|intros x Hx; apply Hin; by right|].
  intros x Hx. apply lookup_insert_None. split; [apply Hseen; by right|]. intros E. apply tool_fold_inj in E; [by subst|apply Hin..]; [by left|by right].
Qed.

Lemma no_custom_pass ks : (forall k, k ∈ ks -> k ∈ tool_fields) -> no_custom_resources ks = Ok tt.
Proof.
  intros Hin. unfold no_custom_resources. destruct (existsb _ ks) eqn:E; [|done]. apply existsb_exists in E as (k & Hk & E).
  apply existsb_exists in E as (f & Hf & E). apply list_elem_of_In in Hk. specialize (Hin k Hk).
  tool_check (fun k => forallb (fun f => is_ascii f && negb (bool_decide (ascii_fold k = ascii_fold f))) customResourceFields) Hin Hc. cbv beta in Hc. apply (proj1 (forallb_forall _ _)) with (x := f) in Hc; [|done].
  apply andb_true_iff in Hc as [Ha Hc]. rewrite (tool_field_folds k f Hin Ha) in E. by rewrite E in Hc.
Qed.

Lemma only_fields_pass kvs :
  (forall k v, (k, v) ∈ kvs -> k ∈ tool_fields /\ (k = "name" -> exists s, v = JStr s /\ contains_char "." s = false)) ->
  only_create_fields kvs = Ok tt.
Proof.
  induction kvs as [|[k v] kvs IH]; intros Hin; [done|]. cbn [only_create_fields].
  destruct (Hin k v) as [Hk Hn]; [by left|].
  tool_check (fun k => existsb (fun f => bool_decide (k = f)) createFields) Hk Hc.
  assert (existsb (EqualFold k) createFields = true) as ->.
  { apply existsb_exists in Hc as (f & Hf & ->%bool_decide_eq_true). apply existsb_exists. exists f. split; [done|apply EqualFold_refl]. }
  cbn [negb]. assert ((if EqualFold k "name" then checkSandboxName v else Ok tt) = Ok tt) as ->.
  { rewrite (tool_field_folds k "name" Hk) by reflexivity. case_bool_decide as E; [|done].
    tool_check (fun k => implb (bool_decide (ascii_fold k = ascii_fold "name")) (bool_decide (k = "name"))) Hk Hi.
    cbv beta in Hi. rewrite bool_decide_true in Hi by done. cbn [implb] in Hi. apply bool_decide_eq_true in Hi.
    destruct (Hn Hi) as (s & -> & Hs). cbn [checkSandboxName]. by rewrite Hs. }
  cbn [res_bind]. apply IH. intros x y Hx. apply Hin. by right.
Qed.

(** A map with the tool's fields only. *)
Lemma tool_body_policy (m : jmap) s :
  (forall k, is_Some (m !! k) -> k ∈ tool_fields) -> (forall v, m !! "name" = Some v -> exists n, v = JStr n) -> m !! "snapshot" = Some (JStr s) ->
  requireSnapshotCreate (BText (JObj (map_members m)) false) = Ok tt <->
  blank s = false /\ forall n, m !! "name" = Some (JStr n) -> contains_char "." n = false.
Proof.
  intros Hin Hname Hs. split.
  - intros (ms & tr & [= <- _] & Hspec)%create_policy_spec. cbv zeta in Hspec. rewrite members_map_map_members in Hspec.
    destruct Hspec as ((s' & Es & Hb) & _ & _ & _ & Hn & _). rewrite Hs in Es. injection Es as <-. split; [done|].
    intros n E. eapply Hn; [exact E|]. apply EqualFold_refl.
  - intros [Hb Hn]. unfold requireSnapshotCreate. cbn [decode_map json_map res_bind map_or_nil default]. rewrite members_map_map_members. unfold id.
    cbv zeta. unfold rejectFoldedKeys. rewrite reject_folded_pass; cbn [res_bind].
    + rewrite no_custom_pass by (intros k Hk; by apply Hin, elem_of_map_keys). cbn [res_bind].
      rewrite only_fields_pass; cbn [res_bind]; [by rewrite Hs, Hb|].
      intros k v Hk. apply elem_of_map_to_list in Hk. split; [apply Hin; by eexists|]. intros ->. destruct (Hname v Hk) as [n ->]. eauto.
    + apply NoDup_fst_map_to_list.
    + intros k Hk. by apply Hin, elem_of_map_keys.
    + intros k _. apply lookup_empty.
Qed.

Lemma put_unless_lookup skip k v m x : put_unless skip k v m !! x = if negb skip && bool_decide (x = k) then Some v else m !! x.
Proof.
  unfold put_unless. destruct skip; cbn [negb andb]; [done|]. case_bool_decide as E; [subst; by rewrite lookup_insert_eq|by rewrite lookup_insert_ne].
Qed.

(** What the flags say of a body. *)
Definition tool_body (fl : create_flags) (m : jmap) : Prop :=
  (forall k, is_Some (m !! k) -> k ∈ tool_fields) /\ m !! "snapshot" = Some (JStr (cf_snapshot fl)) /\
  m !! "name" = (if unset (cf_name fl) then None else Some (JStr (cf_name fl))).

Lemma tool_body_insert fl f v m : f ∈ tool_fields -> f <> "snapshot" -> f <> "name" -> tool_body fl m -> tool_body fl (<[f := v]> m).
Proof.
  intros Hf Hs Hn (A & B & D). unfold tool_body. rewrite !lookup_insert_ne by done. split_and!; try done.
  intros k. destruct (decide (k = f)) as [->|]; [done|]. rewrite lookup_insert_ne by done. apply A.
Qed.

Lemma tool_body_put fl skip f v m : f ∈ tool_fields -> f <> "snapshot" -> f <> "name" -> tool_body fl m -> tool_body fl (put_unless skip f v m).
Proof. destruct skip; [done|]. apply tool_body_insert. Qed.

(** The fields a set of flags gives. *)
Lemma create_fields_spec fl m : create_fields fl = Ok m -> cf_snapshot fl <> EmptyString -> tool_body fl m.
Proof.
  intros E Hs. unfold create_fields in E. cbv zeta in E.
  assert (tool_body fl (put_unless (unset (cf_snapshot fl)) "snapshot" (JStr (cf_snapshot fl)) (put_unless (unset (cf_name fl)) "name" (JStr (cf_name fl)) ∅))) as Hb.
  { unfold tool_body. rewrite !put_unless_lookup, !lookup_empty. unfold unset. rewrite (bool_decide_false (cf_snapshot fl = _)) by done.
    split; [|split; [reflexivity|]].
    2: { change (bool_decide ("name" = "snapshot")) with false. change (bool_decide ("name" = "name")) with true. cbn. rewrite andb_true_r. by destruct (bool_decide (cf_name fl = _)). }
    intros k. rewrite !put_unless_lookup, lookup_empty. cbn [negb andb]. unfold tool_fields. case_bool_decide as E1; [subst; intros _; in_list|].
    rewrite andb_comm. case_bool_decide as E2; [subst; intros _; in_list|]. intros []. done. }
  assert (forall b m', tool_body fl b -> match cf_env fl with [] => Ok b | kvs => res_bind (env_of kvs ∅) (fun env => Ok (<["env" := JObj (map_members env)]> b)) end = Ok m' ->
    tool_body fl m') as Henv.
  { intros b m' Hb' E'. destruct (cf_env fl); [congruence|]. destruct (env_of _ _); cbn [res_bind] in E'; [|done..]. injection E' as <-.
    apply tool_body_insert; [unfold tool_fields; in_list|done..]. }
  destruct (unset (cf_ports fl)); [|destruct (port_list _) as [l| |]; cbn [res_bind] in E; [|done..]]; cbn [res_bind] in E;
    (eapply Henv; [|exact E]); [|apply tool_body_insert; [unfold tool_fields; in_list|done|done|]];
    (apply tool_body_put; [unfold tool_fields; in_list|done|done|]; apply tool_body_put; [unfold tool_fields; in_list|done|done|exact Hb]).
Qed.

(** A [create] the tool builds is refused by the create policy in two cases
    only: the snapshot's name is blank, or the display name has a dot.  Otherwise
    the body passes, whatever ports, environment and seal were asked for. *)
Theorem create_body_policy `{JsonLaws} fl ca :
  create_call fl = Ok ca -> cf_snapshot fl <> EmptyString -> plain (ca_payload ca) = true ->
  requireSnapshotCreate (ca_body ca) = Ok tt <-> blank (cf_snapshot fl) = false /\ contains_char "." (cf_name fl) = false.
Proof.
  unfold create_call. destruct (create_fields fl) as [m| |] eqn:Em; cbn [res_bind]; [|done..]. intros [= <-] Hs Hp. cbn [ca_body ca_payload] in *.
  unfold written. rewrite (marshal_read _ Hp). destruct (create_fields_spec fl m Em Hs) as (Hk & Hsn & Hn).
  rewrite (tool_body_policy m (cf_snapshot fl)); [|done| |done].
  - rewrite Hn. unfold unset. destruct (bool_decide_reflect (cf_name fl = EmptyString)) as [->|Hne].
    + split; intros [? _]; by split.
    + split; intros [? Hd]; split; [done| |done|]; [by apply Hd|]. by intros n [= <-].
  - intros v. rewrite Hn. destruct (unset _); [done|]. intros [= <-]. by eexists.
Qed.

End Policy.

(** ** A tool and a service *)

Module RequestExamples.
Import Toy IdentityExamples TeeExamples KeysExamples InfoExamples SessionExamples SealExamples GateExamples AccessExamples.

(** A writer and a reader that undo each other: JSON values as trees. *)
Fixpoint tree_of (j : json) : gen_tree (Z + string) :=
  match j with
  | JNull => GenNode 0 []
  | JBool b => GenNode (if b then 1 else 2) []
  | JNum z f => GenNode (if f then 4 else 3) [GenLeaf (inl z)]
  | JStr s => GenLeaf (inr s)
  | JArr l => GenNode 5 (map tree_of l)
  | JObj ms => GenNode 6 (map (fun '(k, v) => GenNode 7 [GenLeaf (inr k); tree_of v]) ms)
  end.

Fixpoint of_tree (t : gen_tree (Z + string)) : json :=
  match t with
  | GenLeaf (inr s) => JStr s
  | GenNode 1 _ => JBool true
  | GenNode 2 _ => JBool false
  | GenNode 3 [GenLeaf (inl z)] => JNum z false
  | GenNode 4 [GenLeaf (inl z)] => JNum z true
  | GenNode 5 l => JArr (map of_tree l)
  | GenNode 6 l => JObj (map (fun m => match m with GenNode 7 [GenLeaf (inr k); v] => (k, of_tree v) | _ => (EmptyString, JNull) end) l)
  | _ => JNull
  end.

Lemma of_tree_of j : of_tree (tree_of j) = j.
Proof.
  induction j as [|[]|z []|s|l IH|ms IH] using json_ind'; try reflexivity; cbn [tree_of of_tree]; f_equal; rewrite map_map.
  - induction IH as [|x l Hx _ IHl]; [done|]. cbn [map]. by rewrite Hx, IHl.
  - induction IH as [|[k v] ms Hx _ IHl]; [done|]. cbn [map]. cbn [snd] in Hx. by rewrite Hx, IHl.
Qed.

(** One byte a bit. *)
Fixpoint bytes_of_pos (p : BinNums.positive) : bytes :=
  match p with xH => [1] | xO p => 0 :: bytes_of_pos p | xI p => 1 :: bytes_of_pos p end.

Fixpoint pos_of_bytes (b : bytes) : BinNums.positive :=
  match b with
  | [] | [_] => xH
  | x :: b' => if x =? 0 then xO (pos_of_bytes b') else xI (pos_of_bytes b')
  end.

Lemma pos_of_bytes_of p : pos_of_bytes (bytes_of_pos p) = p.
Proof. induction p as [p IH|p IH|]; cbn; [destruct p; cbn in *; congruence..|done]. Qed.

Lemma bytes_of_pos_ok p : Forall byte_ok (bytes_of_pos p) /\ bytes_of_pos p <> [].
Proof. induction p as [p [IH _]|p [IH _]|]; cbn; (split; [|done]); repeat constructor; try done; lia. Qed.

#[export] Instance tree_writer : JsonMarshal := fun j => bytes_of_pos (encode (tree_of j)).

#[export] Instance tree_reader : JsonText := fun b =>
  match decode (pos_of_bytes b) with Some t => BText (of_tree t) false | None => BBad end.

#[export] Instance tree_json : JsonLaws.
Proof.
  split.
  - intros j _. unfold json_text, json_marshal, tree_reader, tree_writer. by rewrite pos_of_bytes_of, decode_encode, of_tree_of.
  - intros j. apply bytes_of_pos_ok.
  - intros j. apply bytes_of_pos_ok.
Qed.

(** The tool's machine: what the web answers, and sixteen bytes. *)
#[export] Instance desk_random : Random16 unit := fun c => (be_bytes 16 77, c).

#[export] Instance desk_random_laws : Random16Laws unit.
Proof. intros c. apply be_bytes_ok. Qed.

#[export] Instance node_page : WebGet unit := fun url c =>
  (if bool_decide (url = "https://sandbox/api/info") then Ok (BText (JObj answer0) false) else Err EIO, c).

Definition tool_world : world unit := mkWorld empty_redis [] false [] 1699999990 tt [] [].

Definition stop0 : call := mkCall "stop" "sb1" no_payload "POST" "/api/sandbox/sb1/stop" None BEmpty.

Lemma stop0_call : stop_call "sb1" = Ok stop0.
Proof. reflexivity. Qed.

Definition stop_request : request :=
  match (signed_call 4096 "https://sandbox/" stop0 ∅ tool_world).1 with Ok (rq, _) => rq | _ => ask "GET" "/" end.

Lemma stop_signed :
  signed_call 4096 "https://sandbox/" stop0 ∅ tool_world = (Ok (stop_request, {["https://sandbox/" := addr_hex 12288]}), tool_world).
Proof. vm_compute. reflexivity. Qed.

Lemma node_answers : http_get (trim_slashes "https://sandbox/" +:+ "/api/info") (w_chain tool_world) = (Ok (BText (JObj answer0) false), tt).
Proof. vm_compute. reflexivity. Qed.

Lemma stop0_plain : call_plain stop0.
Proof. split; reflexivity. Qed.

Lemma stop_nonce_fresh : flag_live (w_now gworld) (w_redis gworld) (nonce_flag (addr_hex (key_addr 4096)) (hex_encode (rand16 tt).1)) = false.
Proof. vm_compute. reflexivity. Qed.

Lemma stop_path : PathTraversalGuard (ca_path stop0) (ca_path stop0) = true.
Proof. vm_compute. reflexivity. Qed.

Lemma cli_request_served_witness :
  serve poor (mkOptions (addr_hex (ProviderAddress (bt_client booted0))) true) 5 (ca_path stop0) (RCatchAll "sb1" "/stop") stop_request gworld =
  dispatch_route poor 5 (addr_hex (key_addr 4096)) (RCatchAll "sb1" "/stop") stop_request
    (set_redis (set_flag 1700000000 (nonce_flag (addr_hex (key_addr 4096)) (hex_encode (rand16 tt).1)) (1699999990 + 180 - 1700000000) (w_redis gworld)) gworld).
Proof.
  exact (cli_request_served poor true 5 (ca_path stop0) (RCatchAll "sb1" "/stop") 4096 "https://sandbox/" stop0 tool_world tool_world stop_request _ gworld
    posted0 booted0 (ret (inl (addr_hex 4096))) used_at answer0 used_at false tt
    answers node_answers stop_signed stop0_plain ltac:(cbn; lia) eq_refl ltac:(cbn; lia) eq_refl stop_nonce_fresh stop_path).
Defined.

Lemma service_accepts :
  MiddlewareWithOptions (mkOptions (addr_hex 12288) true) "sb1" stop_request gworld =
  (Ok (inl (addr_hex 4096)), (MiddlewareWithOptions (mkOptions (addr_hex 12288) true) "sb1" stop_request gworld).2).
Proof. vm_compute. reflexivity. Qed.

Lemma page_read : providerAddressFor "https://sandbox/" ∅ tool_world = (Ok (addr_hex 12288, {["https://sandbox/" := addr_hex 12288]}), tool_world).
Proof. vm_compute. reflexivity. Qed.

Lemma cli_request_bound_witness :
  w_now tool_world - 120 <= w_now gworld < w_now tool_world + 180 /\
  (addr_hex 12288 <> EmptyString -> addr_hex 12288 <> EmptyString -> to_lower (addr_hex 12288) = to_lower (addr_hex 12288)) /\
  (ca_resource stop0 <> EmptyString -> "sb1" <> EmptyString -> ca_resource stop0 = "sb1") /\
  (true = true -> addr_hex 12288 <> EmptyString -> addr_hex 12288 <> EmptyString).
Proof.
  exact (cli_request_bound 4096 "https://sandbox/" stop0 ∅ tool_world tool_world stop_request _ (addr_hex 12288) tool_world
    (mkOptions (addr_hex 12288) true) "sb1" stop_request gworld _ (addr_hex 4096)
    page_read stop_signed stop0_plain (addr_hex_ascii 12288) ltac:(cbn; lia) eq_refl service_accepts).
Defined.

(** A create with everything set. *)
Definition full_create : create_flags := mkCreate "agent-small" "my-box" true EmptyString "8080, 3000" ["A=1"; "B=x=y"].

Definition created_call : call := match create_call full_create with Ok ca => ca | _ => stop0 end.

Lemma creates : create_call full_create = Ok created_call.
Proof. vm_compute. reflexivity. Qed.

Lemma create_body_policy_witness :
  requireSnapshotCreate (ca_body created_call) = Ok tt <->
  blank (cf_snapshot full_create) = false /\ contains_char "." (cf_name full_create) = false.
Proof. exact (create_body_policy full_create created_call creates ltac:(discriminate) ltac:(vm_compute; reflexivity)). Defined.

(** What is left to the service: the ports of a sealed sandbox, its id. *)
Example create_fields_read :
  match ca_payload created_call with JObj ms => (members_map ms !! "publicPorts", as_map (members_map ms !! "env"), members_map ms !! "sealed") | _ => (None, None, None) end
  = (Some (JArr [JNum 8080 false; JNum 3000 false]), Some {["A" := JStr "1"; "B" := JStr "x=y"]}, Some (JBool true)) /\
  ValidatePublicPorts (ca_body created_call) true = Ok tt /\
  create_call (mkCreate "a" EmptyString false EmptyString "80,x" []) = Err (EMsg "--ports must be comma-separated integers") /\
  create_call (mkCreate "a" EmptyString false EmptyString EmptyString ["=v"]) = Err (EMsg "--env must be KEY=VAL").
Proof. vm_compute. repeat split. Qed.

(** The colon of a registry's port passes for a version tag. *)
Theorem untagged_image_passes :
  push_target "registry:5000/foo" EmptyString "registry:6000" = Ok "registry:6000/daytona/registry:5000/foo" /\
  push_target "foo" EmptyString "registry:6000" = Err (EMsg "image must include an explicit version tag, e.g. rust-sandbox:1.0.0 (not :latest)").
Proof. vm_compute. split; reflexivity. Qed.

(** The owner's stop reaches Daytona and leaves the billing hook to run. *)
Example stop_is_served :
  match (serve poor (mkOptions (addr_hex 12288) true) 5 (ca_path stop0) (RCatchAll "sb1" "/stop") stop_request gworld).1 with
  | Ok (r, ts) => (reply_status r, ts) | _ => (0, []) end = (200, [TOnStop "sb1"]).
Proof. vm_compute. reflexivity. Qed.

End RequestExamples.
