(* ===== verification/Wallet.v ===== *)
(** * The user's tool on the contract (cmd/user/main.go)

    The subcommands that read or write the chain for a user, at the desk of
    Operator: the balance, the deposit, the acknowledgement of an app and the
    list of providers.  What is printed is what they answer. *)

From stdpp Require Import pretty.
From S2P Require Import Prelude Decimal Hex Bytes Crypto Voucher Store Session Billing Json CreatePolicy Guard Config ChainTypes Chain Daytona Seal Registry Http Auth Broker Gate Access Startup Identity Tee Keys Info Serving Solvency Custody Batch Payout Onchain Request Operator.

(** ** Amounts *)

(** A finite float64: a mantissa and a binary exponent. *)
Record float64 := mkFloat { fl_mantissa : Z; fl_exponent : Z }.

(** [big.Float.Mul] at 64 bits of precision, to the nearest, ties to even: the
    mantissa and what the exponent grows by. *)
Definition round64 (p : Z) : Z * Z :=
  let s := Z.max 0 (Z.log2 p + 1 - 64) in
  let q := p / 2 ^ s in
  let r := p mod 2 ^ s in
  ((if (2 ^ s <? 2 * r) || ((2 * r =? 2 ^ s) && (0 <? s) && Z.odd q) then q + 1 else q), s).

(** Towards zero. *)
Definition int_of (m e : Z) : Z := if 0 <=? e then m * 2 ^ e else m / 2 ^ (- e).

(** [cmd/user/main.go:1107-1113 ogToNeuron] *)
Definition ogToNeuron (og : float64) : Z :=
  let '(m, s) := round64 (Z.abs (fl_mantissa og) * 10 ^ 18) in
  Z.sgn (fl_mantissa og) * int_of m (s + fl_exponent og).

(** ** The registry for a user *)

(** What the user's tool asks TappRegistry for, beyond what the contract does. *)
Class UserRegistry (R : Type) := {
  t_nodeList : addr -> string -> R -> res (list addr);
  t_teeUrl : addr -> string -> addr -> R -> res string;
  t_ackVersion : addr -> string -> R -> res Z;
  t_acknowledge : addr -> addr -> string -> R -> res R;
  t_revoke : addr -> addr -> string -> R -> res R
}.

(** Acknowledging and revoking do what they say, and nothing to the app. *)
Class UserRegistryLaws (R : Type) `{TappRegistry R} `{UserRegistry R} := {
  acknowledge_acks : forall g u a r r', t_acknowledge g u a r = Ok r' -> t_isAcknowledged g u a r' = Ok true;
  revoke_revokes : forall g u a r r', t_revoke g u a r = Ok r' -> t_isAcknowledged g u a r' = Ok false;
  acknowledge_keeps : forall g u a r r', t_acknowledge g u a r = Ok r' ->
    forall g' a' n', t_getAppInfo g' a' r' = t_getAppInfo g' a' r /\ t_addedAt g' a' n' r' = t_addedAt g' a' n' r
}.

(** A wallet's native balance. *)
Class NativeBalance (D : Type) := native_balance : addr -> D -> res Z.

Section Tool.
Context `{Keccak} `{Ecrecover} {R : Type} `{TappRegistry R} `{UserRegistry R} `{Ecdsa} `{SecpKeys} `{!NativeBalance (desk (R := R))}.
Variable getenv : string -> string.

(** The flags of a chain subcommand. [cmd/user/main.go:131-138 addChainFlags] *)
Record chainFlags := mkChainFlags { cf_chainID : Z; cf_contract : string; cf_tapp : string }.

(** [cmd/user/main.go:1090-1105 mustDialContract] *)
Definition mustDialContract (contractHex : string) : M (desk (R := R)) addr :=
  if bool_decide (contractHex = EmptyString) then fail (EMsg "settlement contract is required")
  else ret (hex_to_address contractHex).

Definition ask_registry {A} (f : R -> res A) : M desk A := chain_call (request (fun d => (f (reg (dk_chain d)), d))).

(** ** Balance *)

(** The native balance, then the balance, nonce and earnings with a provider.
    [cmd/user/main.go:142-197 runBalance] *)
Definition runBalance (cf : chainFlags) (addrHex keyHex providerHex : string) : M desk (Z * option (Z * Z * Z)) :=
  let! walletAddr := lift_res (if bool_decide (addrHex = EmptyString) then res_bind (mustLoadKey getenv keyHex) (fun k => Ok (key_addr k))
                               else Ok (hex_to_address addrHex)) in
  let! contract := mustDialContract (cf_contract cf) in
  let! nativeBal := chain_call (request (fun d => (native_balance walletAddr d, d))) in
  if bool_decide (providerHex = EmptyString) then ret (nativeBal, None)
  else
    let providerAddr := hex_to_address providerHex in
    let! bal := chain_call (call_at contract (getBalance walletAddr providerAddr)) in
    let! nonce := chain_call (call_at contract (getLastNonce walletAddr providerAddr)) in
    let! earned := chain_call (call_at contract (getProviderEarnings providerAddr)) in
    ret (nativeBal, Some (bal.1.1, nonce, earned)).

(** ** Deposit *)

(** The node estimates a transaction only if the wallet has the value; gas is
    left out. *)
Definition has_funds (from value : Z) (d : desk (R := R)) : res unit * desk (R := R) :=
  (res_bind (native_balance from d) (fun b => if b <? value then Err (EMsg "insufficient funds for transfer") else Ok tt), d).

(** A value that is no uint256 is no transaction.  The balance afterwards; when
    it cannot be read, printing the missing balance panics.
    [cmd/user/main.go:201-253 runDeposit] *)
Definition runDeposit (cf : chainFlags) (keyHex providerHex : string) (amount : float64) : M desk Z :=
  if bool_decide (providerHex = EmptyString) then fail (EMsg "--provider is required")
  else
    let! privKey := lift_res (mustLoadKey getenv keyHex) in
    let userAddr := key_addr privKey in
    let providerAddr := hex_to_address providerHex in
    let! contract := mustDialContract (cf_contract cf) in
    let depositWei := ogToNeuron amount in
    if negb (uint256_ok depositWei) then fail (EMsg "Deposit")
    else
      let! _ := chain_call (has_funds userAddr depositWei) in
      let! _ := transact userAddr depositWei (cf_chainID cf) contract (EDeposit userAddr providerAddr) in
      let! bal := attempt (chain_call (call_at contract (getBalance userAddr providerAddr))) in
      match bal with inl b => ret b.1.1 | inr _ => panic end.

(** ** Acknowledgement *)

(** A registry transaction: estimated, sent, included. *)
Definition registry_transact (chainID : Z) (f : R -> res R) : M desk unit :=
  let! _ := chain_call (request (fun d =>
    (match f (reg (dk_chain d)) with
     | Ok _ => if chainID =? dk_chainid d then Ok tt else Err (EMsg "invalid chain id for signer")
     | _ => Err (EMsg "execution reverted")
     end, d))) in
  chain_call (request (fun d =>
    (Ok tt, match f (reg (dk_chain d)) with
            | Ok r => let w := dk_chain d in dk_with (mkChain (st w) (eth w) r (evs w)) (dk_future d) d
            | _ => d
            end))).

(** Whether the provider can settle; without the contract's answer, whether it is
    a node of the app. [cmd/user/main.go:317-326 runAcknowledge] *)
Definition can_settle (contract tapp : addr) (appId : string) (providerAddr : addr) : M desk bool :=
  let! a := attempt (chain_call (call_at contract (isActiveProvider providerAddr))) in
  match a with
  | inl active => ret active
  | inr _ => let! at_ := ask_registry (t_addedAt tapp appId providerAddr) in ret (negb (at_ =? 0))
  end.

(** One look-up a node, for the summary; failures are shown.
    [cmd/user/main.go:371-379 runAcknowledge] *)
Fixpoint node_urls (tapp : addr) (appId : string) (nodes : list addr) : M desk (list (addr * (string + rerr))) :=
  match nodes with
  | [] => ret []
  | n :: nodes' =>
      let! u := attempt (ask_registry (t_teeUrl tapp appId n)) in
      let! rest := node_urls tapp appId nodes' in
      ret ((n, u) :: rest)
  end.

(** What the user is shown before deciding. *)
Record summary := mkSummary {
  sm_service : Service;
  sm_app : AppInfo;
  sm_kms : bool;
  sm_ackVersion : Z;
  sm_acked : bool;
  sm_nodes : list (addr * (string + rerr))
}.

(** [y] or [yes], in any case. [cmd/user/main.go:395-397 runAcknowledge] *)
Definition confirmed (answer : string) : bool := bool_decide (TrimSpace (to_lower answer) ∈ ["y"; "yes"]).

(** The summary shown, and whether a transaction was made.
    [cmd/user/main.go:263-423 runAcknowledge] *)
Definition runAcknowledge (cf : chainFlags) (keyHex providerHex : string) (revoke yes : bool) (answer : string) : M desk (summary * bool) :=
  if bool_decide (providerHex = EmptyString) then fail (EMsg "--provider is required")
  else if bool_decide (cf_tapp cf = EmptyString) then fail (EMsg "--tapp is required (or set TAPP_REGISTRY)")
  else
    let! privKey := lift_res (mustLoadKey getenv keyHex) in
    let userAddr := key_addr privKey in
    let providerAddr := hex_to_address providerHex in
    let! contract := mustDialContract (cf_contract cf) in
    let tapp := hex_to_address (cf_tapp cf) in
    let! svc := chain_call (call_at contract (view_service providerAddr)) in
    let appId := sv_AppId svc in
    if bool_decide (appId = EmptyString) then fail (EMsg "provider has not registered a service yet (no appId)")
    else
      let! appInfo := ask_registry (t_getAppInfo tapp appId) in
      if ai_owner appInfo =? 0 then fail (EMsg "app is not registered in TappRegistry (or was unregistered)")
      else
        let! b := attempt (chain_call (call_at contract (view_binding providerAddr))) in
        let isKms := match b with inl b => negb (kb_epoch b =? 0) | inr _ => false end in
        let! active := can_settle contract tapp appId providerAddr in
        if negb active then fail (EMsg "trust mismatch: provider cannot settle for the app; refuse to ack")
        else
          let! nodes := ask_registry (t_nodeList tapp appId) in
          let! ackVersion := ask_registry (t_ackVersion tapp appId) in
          let! alreadyAcked := ask_registry (t_isAcknowledged tapp userAddr appId) in
          let! urls := node_urls tapp appId nodes in
          let sm := mkSummary svc appInfo isKms ackVersion alreadyAcked urls in
          if negb yes && negb (confirmed answer) then ret (sm, false)
          else
            registry_transact (cf_chainID cf) (if revoke then t_revoke tapp userAddr appId else t_acknowledge tapp userAddr appId) ;;
            ret (sm, true).

(** ** Providers *)

(** The addresses of the events, each once, in the order they first appear.
    [cmd/user/main.go:449-457 runProviders] *)
Fixpoint first_seen (seen : gset addr) (l : list addr) : list addr :=
  match l with
  | [] => []
  | a :: l' => if bool_decide (a ∈ seen) then first_seen seen l' else a :: first_seen ({[a]} ∪ seen) l'
  end.

Definition updated_provider (ev : Event) : option addr := match ev with ServiceUpdated p _ _ => Some p | _ => None end.

(** The log of the contract at the address, from genesis. *)
Definition filter_updated (contract : addr) : desk -> res (list addr) * desk :=
  request (fun d => (Ok (if contract =? dk_self d then omap updated_provider (evs (dk_chain d)) else []), d)).

(** A look-up that fails is shown and passed over. *)
Fixpoint provider_services (contract : addr) (l : list addr) : M desk (list (addr * (Service + rerr))) :=
  match l with
  | [] => ret []
  | a :: l' =>
      let! svc := attempt (chain_call (call_at contract (view_service a))) in
      let! rest := provider_services contract l' in
      ret ((a, svc) :: rest)
  end.

(** The last look-up only fills the hint for a single provider.
    [cmd/user/main.go:431-493 runProviders] *)
Definition runProviders (cf : chainFlags) : M desk (list (addr * (Service + rerr))) :=
  let! contract := mustDialContract (cf_contract cf) in
  let! l := chain_call (filter_updated contract) in
  let! svcs := provider_services contract (first_seen ∅ l) in
  match svcs with
  | [(a, _)] => ignore (chain_call (call_at contract (view_service a))) ;; ret svcs
  | _ => ret svcs
  end.

End Tool.

(** ** Undisturbed reads *)

Section Reads.
Context `{Keccak} `{Ecrecover} {R : Type} `{TappRegistry R}.
Implicit Types W : world (desk (R := R)).

(** A read, then the rest in the same world. *)
Lemma read_bind {A B} (g : desk -> res A) (k : A -> M desk B) W :
  dk_future (w_chain W) = [] ->
  bind (chain_call (request (fun d => (g d, d)))) k W =
  match g (w_chain W) with Ok a => k a W | Err e => (Err e, W) | Panic => (Panic, W) end.
Proof. intros Hq. unfold bind, chain_call, request. rewrite Hq. destruct W. by destruct (g _). Qed.

Lemma attempt_read_bind {A B} (g : desk -> res A) (k : A + rerr -> M desk B) W :
  dk_future (w_chain W) = [] ->
  bind (attempt (chain_call (request (fun d => (g d, d))))) k W =
  match g (w_chain W) with Ok a => k (inl a) W | Err e => k (inr e) W | Panic => (Panic, W) end.
Proof. intros Hq. unfold bind, attempt, chain_call, request. rewrite Hq. destruct W. by destruct (g _). Qed.

Lemma lift_bind {A B} (x : res A) (k : A -> M desk B) W :
  bind (lift_res x) k W = match x with Ok a => k a W | Err e => (Err e, W) | Panic => (Panic, W) end.
Proof. by destruct x. Qed.

End Reads.

Section DialBind.
Context {R : Type}.
Implicit Types W : world (desk (R := R)).

Lemma dial_bind {B} contractHex (k : addr -> M desk B) W b W' :
  bind (mustDialContract contractHex) k W = (Ok b, W') -> contractHex <> EmptyString /\ k (hex_to_address contractHex) W = (Ok b, W').
Proof. unfold mustDialContract, bind. case_bool_decide; by intros E. Qed.

End DialBind.

(** ** Deposits *)

Section Deposit.
Context `{KeccakLaws} `{Ecrecover} {R : Type} `{TappRegistry R} `{UserRegistry R} `{EcdsaLaws} `{SecpKeys} `{!NativeBalance (desk (R := R))}.
Implicit Types W : world (desk (R := R)).

(** A deposit while nobody interferes: the user's balance with the provider
    grows by exactly the amount in neuron, as does the contract's ether; nothing
    else changes, and the tool answers the new balance. *)
Theorem deposit_credits getenv cf keyHex providerHex amount key funds W :
  let d := w_chain W in
  let w := dk_chain d in
  let u := key_addr key in
  let p := hex_to_address providerHex in
  let n := ogToNeuron amount in
  let b := balance (st w) u p + n in
  dk_future d = [] -> providerHex <> EmptyString -> mustLoadKey getenv keyHex = Ok key -> cf_contract cf <> EmptyString ->
  hex_to_address (cf_contract cf) = dk_self d -> cf_chainID cf = dk_chainid d -> 0 < n < 2 ^ 256 -> b < 2 ^ 256 -> native_balance u d = Ok funds -> n <= funds ->
  runDeposit getenv cf keyHex providerHex amount W =
    (Ok b, on_chain (mkChain (set_balance u p b (st w)) (eth w + n) (reg w) (evs w ++ [Deposited u p u n])) W).
Proof.
  cbv zeta. intros Hq Hp Hk Hc Hself Hid Hn Hb Hf Hle. unfold runDeposit. rewrite bool_decide_false by done. rewrite lift_bind, Hk. cbv zeta.
  set (n := ogToNeuron amount) in *. set (u := key_addr key) in *. set (p := hex_to_address providerHex) in *.
  unfold bind at 1, mustDialContract. rewrite bool_decide_false, Hself by done. cbn [ret].
  assert (uint256_ok n = true) as -> by (unfold uint256_ok; lia). cbn [negb].
  set (w := dk_chain (w_chain W)) in *. set (b := balance (st w) u p + n) in *.
  set (w1 := mkChain (set_balance u p b (st w)) (eth w + n) (reg w) (evs w ++ [Deposited u p u n])).
  rewrite (bind_ok _ _ W tt W).
  2: { unfold chain_call, has_funds. rewrite Hf. cbn [res_bind]. destruct (Z.ltb_spec funds n); [lia|]. by destruct W. }
  rewrite (bind_ok _ _ W tt (on_chain w1 W)).
  - unfold call_at. rewrite attempt_read_bind by done. cbn [on_chain set_chain w_chain dk_with dk_self dk_chain]. rewrite Z.eqb_refl. cbn.
    unfold balance, at0. cbn [s_balances set_balance]. by rewrite lookup_insert_eq.
  - apply transact_now; [done|done|done| |by left|].
    + cbn [typed]. pose proof (key_addr_ok key) as Ha. pose proof (hex_to_address_ok providerHex) as Ha'.
      fold u in Ha. fold p in Ha'. unfold addr_ok, addr_bound, address_ok in *. lia.
    + cbn [enter]. unfold deposit. cbn [msg_value sent_by msg_sender]. rewrite require_bind by lia. rewrite sread_bind. cbn [st].
      unfold add256. fold w. fold b. destruct (Z.ltb_spec b (2 ^ 256)); [|lia]. by rewrite mret_bind, swrite_bind.
Qed.

End Deposit.

(** ** Informed acknowledgement *)

Section Acknowledge.
Context `{KeccakLaws} `{Ecrecover} {R : Type} `{TappRegistry R} `{!UserRegistry R} `{!UserRegistryLaws R} `{Ecdsa} `{SecpKeys} `{!NativeBalance (desk (R := R))}.
Implicit Types W : world (desk (R := R)).

Lemma node_urls_quiet tapp appId nodes W : dk_future (w_chain W) = [] -> exists x, node_urls tapp appId nodes W = (x, W).
Proof.
  intros Hq. induction nodes as [|n nodes [x IH]]; [by eexists|]. cbn [node_urls]. unfold ask_registry at 1. rewrite attempt_read_bind by done.
  destruct (t_teeUrl _ _ _ _); (try by eexists); unfold bind; rewrite IH; destruct x; by eexists.
Qed.

Lemma registry_transact_now chainID (f : R -> res R) W W' :
  dk_future (w_chain W) = [] -> registry_transact chainID f W = (Ok tt, W') ->
  let w := dk_chain (w_chain W) in
  chainID = dk_chainid (w_chain W) /\ exists r, f (reg w) = Ok r /\ W' = on_chain (mkChain (st w) (eth w) r (evs w)) W.
Proof.
  intros Hq E. cbv zeta. unfold registry_transact in E. rewrite read_bind in E by done.
  destruct (f (reg (dk_chain (w_chain W)))) as [r| |] eqn:Ef; [|done..]. destruct (Z.eqb_spec chainID (dk_chainid (w_chain W))) as [Hid|]; [|done].
  split; [done|]. exists r. split; [done|]. unfold chain_call, request in E. rewrite Hq, Ef in E. by injection E as <-.
Qed.

Lemma active_pure p (w : chain R) x w' : isActiveProvider p w = Ok (x, w') -> w' = w.
Proof.
  unfold isActiveProvider. intros E. tx_run E; try done. by apply key_valid_pure in E.
Qed.

(** What an acknowledgement was given for. *)
Record informed (w : chain R) (tapp p : addr) (sm : summary) : Prop := {
  in_service : sm_service sm = service_of (st w) p;
  in_registered : sv_AppId (sm_service sm) <> EmptyString;
  in_app : t_getAppInfo tapp (sv_AppId (sm_service sm)) (reg w) = Ok (sm_app sm);
  in_owned : ai_owner (sm_app sm) <> 0;
  in_settles : isActiveProvider p w = Ok (true, w) \/
    (forall x, isActiveProvider p w <> Ok x) /\ exists at_, t_addedAt tapp (sv_AppId (sm_service sm)) p (reg w) = Ok at_ /\ at_ <> 0
}.

(** An acknowledgement is informed, and takes effect.  When the tool has
    acknowledged, undisturbed, the user saw and confirmed the terms the contract
    had for the provider at that moment; the app is registered with an owner, and
    the provider can settle for it (by the contract, or as a node of the app where
    the contract has no answer).  The only thing changed is the registry, by the
    acknowledgement of that app for the key's wallet; and when the registry is the
    contract's, settlement takes the user for acknowledged from then on. *)
Theorem acknowledge_informed getenv cf keyHex providerHex yes answer W sm W' :
  dk_future (w_chain W) = [] ->
  runAcknowledge getenv cf keyHex providerHex false yes answer W = (Ok (sm, true), W') ->
  let w := dk_chain (w_chain W) in
  let p := hex_to_address providerHex in
  let tapp := hex_to_address (cf_tapp cf) in
  informed w tapp p sm /\ (yes = true \/ confirmed answer = true) /\
  exists key r, mustLoadKey getenv keyHex = Ok key /\ t_acknowledge tapp (key_addr key) (sv_AppId (sm_service sm)) (reg w) = Ok r /\
    W' = on_chain (mkChain (st w) (eth w) r (evs w)) W /\
    (tapp = s_tappRegistry (st w) -> (res_bind (isTEEAcknowledged (key_addr key) p (dk_chain (w_chain W'))) (fun x => Ok x.1)) = Ok true).
Proof.
  intros Hq E. cbv zeta. set (w := dk_chain (w_chain W)). set (p := hex_to_address providerHex) in *. set (tapp := hex_to_address (cf_tapp cf)) in *.
  unfold runAcknowledge in E. case_match; [done|]. case_match; [done|]. rewrite lift_bind in E. destruct (mustLoadKey getenv keyHex) as [key| |]; [|done..].
  cbv zeta in E. fold p tapp in E. apply dial_bind in E as [_ E]. unfold call_at at 1 in E. rewrite read_bind in E by done. fold w in E.
  destruct (hex_to_address (cf_contract cf) =? dk_self (w_chain W)) eqn:Eself; [|done]. cbn [view_service sread] in E.
  set (svc := service_of (st w) p) in *. destruct (bool_decide_reflect (sv_AppId svc = EmptyString)) as [|Happ]; [done|].
  unfold ask_registry at 1 in E. rewrite read_bind in E by done. fold w in E. destruct (t_getAppInfo tapp (sv_AppId svc) (reg w)) as [info| |] eqn:Ei; [|done..].
  destruct (Z.eqb_spec (ai_owner info) 0) as [|Ho]; [done|]. unfold call_at at 1 in E. rewrite attempt_read_bind in E by done.
  rewrite Eself in E. cbn [view_binding sread] in E.
  apply bind_Ok in E as (active & W1 & Ea & E). destruct active; [|done]. cbn [negb] in E.
  assert (W1 = W /\ (isActiveProvider p w = Ok (true, w) \/
    (forall x, isActiveProvider p w <> Ok x) /\ exists at_, t_addedAt tapp (sv_AppId svc) p (reg w) = Ok at_ /\ at_ <> 0)) as [-> Hact].
  { unfold can_settle, call_at in Ea. rewrite attempt_read_bind in Ea by done. rewrite Eself in Ea. fold w in Ea.
    destruct (isActiveProvider p w) as [[b w1]|e|] eqn:Eact.
    1: { pose proof (active_pure _ _ _ _ Eact) as ->. injection Ea as -> <-. split; [done|]. by left. }
    all: unfold ask_registry in Ea; rewrite read_bind in Ea by done; fold w in Ea; destruct (t_addedAt _ _ _ _) as [at_| |] eqn:Ead; [|done..];
      injection Ea as Ea <-; apply negb_true_iff, Z.eqb_neq in Ea; split; [done|]; right; split; [done|by exists at_]. }
  unfold ask_registry in E. rewrite read_bind in E by done. destruct (t_nodeList _ _ _) as [nodes| |]; [|done..].
  rewrite read_bind in E by done. destruct (t_ackVersion _ _ _) as [ver| |]; [|done..].
  rewrite read_bind in E by done. destruct (t_isAcknowledged _ _ _ _) as [acked| |]; [|done..].
  destruct (node_urls_quiet tapp (sv_AppId svc) nodes W Hq) as [x Ex]. unfold bind at 1 in E. rewrite Ex in E. destruct x as [urls| |]; [|done..].
  cbv zeta in E.
  destruct (negb yes && negb (confirmed answer)) eqn:Ec; [done|]. apply bind_Ok in E as ([] & W2 & Et & E). injection E as <- <-.
  apply registry_transact_now in Et as (_ & r & Er & ->); [|done]. cbn [sm_service sm_app]. split; [by split|]. split.
  { destruct yes; [by left|]. right. by destruct (confirmed answer). }
  exists key, r. split; [done|]. split; [done|]. split; [done|]. intros Ht. unfold isTEEAcknowledged. rewrite sread_bind.
  cbn [on_chain set_chain w_chain dk_with dk_chain st]. fold w. fold svc. rewrite bool_decide_false, sread_bind by done. unfold view. cbn [st reg].
  rewrite <- Ht. by rewrite (acknowledge_acks _ _ _ _ _ Er).
Qed.

End Acknowledge.

(** ** Discovery *)

Section Discovery.
Context `{KeccakLaws} `{Ecrecover} {R : Type} `{TappRegistry R}.
Implicit Types w : chain R.

(** Every service that exists was announced. *)
Definition announced w : Prop := forall p, p ∈ s_serviceExists (st w) -> p ∈ omap updated_provider (evs w).

Lemma announced_ext w w' l : s_serviceExists (st w') ⊆ s_serviceExists (st w) -> evs w' = evs w ++ l -> announced w -> announced w'.
Proof. intros Hs He Ha p Hp. rewrite He, omap_app. apply elem_of_app. left. by apply Ha, Hs. Qed.

Lemma upsert_announced e p a t w x w' : _upsertService e p a t w = Ok (x, w') -> announced w -> announced w'.
Proof.
  intros Hu Ha. unfold _upsertService in Hu. tx_run Hu; intros q; cbn [st evs s_serviceExists set_service];
    rewrite omap_app, elem_of_app, elem_of_union, elem_of_singleton; (intros [-> |Hq]; [right; by left|left; by apply Ha]).
Qed.

Lemma bind_kms_announced p a n t w x w' : bind_kms p a n t w = Ok (x, w') -> announced w -> announced w'.
Proof.
  intros Hb. unfold bind_kms in Hb. tx_run Hb; first
    [ apply (announced_ext _ _ []); [done|by rewrite app_nil_r]
    | eapply announced_ext; [|reflexivity]; done ].
Qed.

Lemma charge_announced v w : announced w -> announced (charge_effect v w).
Proof.
  unfold charge_effect. eapply announced_ext; [|reflexivity]. unfold charged. cbn [st]. by destruct (_ <=? _); [destruct (_ <? _)|].
Qed.

Lemma announced_write w s e r l : s_serviceExists s ⊆ s_serviceExists (st w) -> announced w -> announced (mkChain s e r (evs w ++ l)).
Proof. intros Hs. by eapply announced_ext. Qed.

Lemma announced_same w s e r : s_serviceExists s ⊆ s_serviceExists (st w) -> announced w -> announced (mkChain s e r (evs w)).
Proof. intros Hs. eapply (announced_ext _ _ []); [done|by rewrite app_nil_r]. Qed.

Ltac fewer := cbn [st set_locked set_service set_earnings set_balance set_pending set_unlock set_owner set_registry set_binding set_initialized s_serviceExists]; set_solver.

Lemma message_announced e c rx w : (forall w, announced w -> announced (does rx w)) -> announced w -> announced (message e rx c w).
Proof.
  intros Hrx Hw. destruct (message_cases e rx c w) as [->|(_ & _ & He)]; [done|].
  revert He. generalize (message e rx c w). intros w' He.
  assert (announced (mkChain (st w) (eth w + msg_value e) (reg w) (evs w))) as Hw0 by exact Hw.
  revert He Hw0. generalize (mkChain (st w) (eth w + msg_value e) (reg w) (evs w)). clear Hw. intros w0 He Hw.
  destruct c; cbn [enter] in He;
    unfold initialize, deposit, requestRefund, withdrawRefund, settleFeesWithTEE, withdrawEarnings, removeService, _isAppOwnerOf, transferOwnership,
      setTappRegistry, repinKmsProvider, addOrUpdateService, addOrUpdateKmsService, onlyOwner, endorsing_node in He;
    tx_run He; try done; try (by eapply upsert_announced); try (by eapply upsert_announced; [|eapply bind_kms_announced]);
    cbn [st eth reg evs]; rewrite <- ?app_assoc;
    try (first [apply announced_write|apply announced_same]; [fewer|done]);
    try (apply announced_write; [fewer|]; apply Hrx; apply announced_same; [fewer|done]).
  match goal with E : settle_all _ _ _ = Ok (_, ?w1) |- _ => apply (announced_same w1); [done|];
    refine (settle_all_keeps (fun w w' => announced w -> announced w') _ _ _ _ _ _ _ _ E _); [auto|auto| |] end.
  - intros v w1 _ _. apply charge_announced.
  - apply announced_same; [done|exact Hw].
Qed.

Lemma run_announced l w : announced w -> announced (run l w).
Proof.
  apply (run_keeps (fun w w' => announced w -> announced w') (fun _ => True)); [auto|auto| |done|done|by apply Forall_true].
  intros e c rx w1 _. apply message_announced.
Qed.

Lemma elem_of_first_seen l : forall seen a, a ∈ first_seen seen l <-> a ∈ l /\ a ∉ seen.
Proof.
  induction l as [|b l IH]; intros seen a; cbn [first_seen]; [split; [by intros ?%elem_of_nil|by intros [?%elem_of_nil _]]|].
  case_bool_decide as Hb.
  - rewrite IH, elem_of_cons. split; [tauto|]. intros [[->|?] ?]; tauto.
  - rewrite !elem_of_cons, IH, not_elem_of_union, elem_of_singleton. destruct (decide (a = b)) as [->|]; tauto.
Qed.

Lemma NoDup_first_seen l : forall seen, NoDup (first_seen seen l).
Proof.
  induction l as [|b l IH]; intros seen; cbn [first_seen]; [constructor|]. case_bool_decide; [done|].
  constructor; [|done]. rewrite elem_of_first_seen. set_solver.
Qed.

Lemma provider_services_now contract l (W : world (desk (R := R))) :
  dk_future (w_chain W) = [] -> contract = dk_self (w_chain W) ->
  provider_services contract l W = (Ok ((fun a => (a, inl (service_of (st (dk_chain (w_chain W))) a))) <$> l), W).
Proof.
  intros Hq ->. induction l as [|a l IH]; [done|]. cbn [provider_services]. unfold call_at at 1. rewrite attempt_read_bind by done. rewrite Z.eqb_refl.
  cbn [view_service sread]. by rewrite (bind_ok _ _ W _ W IH).
Qed.

(** Discovery is complete.  On a contract that was deployed empty, after
    whatever calls, the list of providers names nobody twice, has every
    provider that has a service, and shows the service the contract has. *)
Theorem providers_listed cf (l : list (@act R)) r e (W : world (desk (R := R))) :
  dk_future (w_chain W) = [] -> dk_chain (w_chain W) = run l (mkChain blank e r []) ->
  cf_contract cf <> EmptyString -> hex_to_address (cf_contract cf) = dk_self (w_chain W) ->
  exists svcs, runProviders cf W = (Ok svcs, W) /\ NoDup svcs.*1 /\
    (forall p, p ∈ s_serviceExists (st (dk_chain (w_chain W))) -> p ∈ svcs.*1) /\
    forall p x, (p, x) ∈ svcs -> x = inl (service_of (st (dk_chain (w_chain W))) p).
Proof.
  intros Hq Hrun Hc Hself. set (w := dk_chain (w_chain W)) in *.
  set (found := first_seen ∅ (omap updated_provider (evs w))).
  set (svcs := (fun a => (a, inl (service_of (st w) a) : Service + rerr)) <$> found).
  assert (svcs.*1 = found) as Hfst by (unfold svcs; rewrite <- list_fmap_compose; apply list_fmap_id).
  exists svcs. rewrite Hfst. split_and!.
  - unfold runProviders. unfold bind at 1, mustDialContract. rewrite bool_decide_false by done. cbn [ret].
    unfold filter_updated. rewrite read_bind, Hself, Z.eqb_refl by done. fold w. fold found.
    rewrite (bind_ok _ _ W svcs W) by (by apply provider_services_now).
    destruct svcs as [|[a x] [|]]; [done| |done]. rewrite (bind_ok _ _ W tt W); [done|].
    unfold ignore, call_at. rewrite attempt_read_bind, Z.eqb_refl by done. done.
  - apply NoDup_first_seen.
  - intros p Hp. apply elem_of_first_seen. split; [|set_solver]. revert p Hp. fold (announced w). rewrite Hrun. apply run_announced.
    intros p Hp. cbn in Hp. set_solver.
  - intros p x (a & [= -> ->] & _)%list_elem_of_fmap. done.
Qed.

End Discovery.

(** ** Concrete runs *)

Module WalletExamples.
Import Toy ToyChain IdentityExamples TeeExamples KeysExamples OperatorExamples.

#[export] Instance book_for_users : UserRegistry book := {|
  t_nodeList := fun _ a r => Ok (if bool_decide (a = "app") then bk_nodes r else []);
  t_teeUrl := fun _ _ _ _ => Ok "https://tee";
  t_ackVersion := fun _ _ _ => Ok 1;
  t_acknowledge := fun _ u a r =>
    if bool_decide (a = "app") then Ok (mkBook (bk_owner r) (bk_epoch r) (bk_nodes r) (u :: bk_acks r)) else Err (EMsg "no such app");
  t_revoke := fun _ u a r => Ok (mkBook (bk_owner r) (bk_epoch r) (bk_nodes r) (filter (fun x => x <> u) (bk_acks r)))
|}.

#[export] Instance book_for_users_laws : UserRegistryLaws book.
Proof.
  split; cbn.
  - intros _ u a r r'. case_bool_decide as E; [|done]. intros [= <-]. cbn. f_equal. apply bool_decide_eq_true. split; [done|]. by left.
  - intros _ u a r r' [= <-]. cbn. f_equal. apply bool_decide_eq_false. rewrite list_elem_of_filter. tauto.
  - intros _ u a r r'. case_bool_decide; [|done]. by intros [= <-].
Qed.

#[export] Instance gas_money : NativeBalance (desk (R := book)) := fun _ _ => Ok (10 ^ 20).

(** The default amount, and three tenths. *)
Definition float_01 : float64 := mkFloat 5764607523034235 (-59).
Definition float_3 : float64 := mkFloat 5404319552844595 (-54).

(** A hundredth is sent exactly; three tenths are not. *)
Theorem amounts_lose_neuron : ogToNeuron float_01 = 10 ^ 16 /\ ogToNeuron float_3 = 3 * 10 ^ 17 - 12.
Proof. vm_compute. split; reflexivity. Qed.

Definition user_flags : chainFlags := mkChainFlags 16601 (addr_hex 99) (addr_hex 77).

Definition user_env (k : string) : string := if bool_decide (k = "USER_KEY") then hex_encode (be_bytes 32 4096) else EmptyString.

(** A provider with a service, and a user who has acknowledged nothing. *)
Definition unknown_user : chain book := run opened (mkChain blank 0 (mkBook 5 3 [8192] []) []).

Definition ack_run := runAcknowledge user_env user_flags EmptyString (addr_hex 8192) false false "Yes " (at_desk unknown_user []).

Definition ack_shown : summary := match ack_run.1 with Ok (sm, _) => sm | _ => mkSummary no_service (mkAppInfo 0 0) false 0 false [] end.

Lemma ack_runs : ack_run = (Ok (ack_shown, true), ack_run.2).
Proof. vm_compute. reflexivity. Qed.

Lemma acknowledge_informed_witness :
  informed unknown_user (hex_to_address (addr_hex 77)) (hex_to_address (addr_hex 8192)) ack_shown /\
  (false = true \/ confirmed "Yes " = true) /\
  exists key r, mustLoadKey user_env EmptyString = Ok key /\
    t_acknowledge (hex_to_address (addr_hex 77)) (key_addr key) (sv_AppId (sm_service ack_shown)) (reg unknown_user) = Ok r /\
    ack_run.2 = on_chain (mkChain (st unknown_user) (eth unknown_user) r (evs unknown_user)) (at_desk unknown_user []) /\
    (hex_to_address (addr_hex 77) = s_tappRegistry (st unknown_user) ->
     res_bind (isTEEAcknowledged (key_addr key) (hex_to_address (addr_hex 8192)) (dk_chain (w_chain ack_run.2))) (fun x => Ok x.1) = Ok true).
Proof. exact (acknowledge_informed user_env user_flags EmptyString (addr_hex 8192) false "Yes " (at_desk unknown_user []) ack_shown ack_run.2 eq_refl ack_runs). Defined.

(** After [no], nothing has happened. *)
Example declined :
  (runAcknowledge user_env user_flags EmptyString (addr_hex 8192) false false "n" (at_desk unknown_user [])).2 = at_desk unknown_user [].
Proof. vm_compute. reflexivity. Qed.

(** What protects users from acknowledging keeps them from revoking: once the
    provider has no service, or is no node any more, [--revoke] is refused and the
    acknowledgement stays. *)
Theorem revoke_is_refused :
  let removed := run [Call (at_ 5 0 40) (ERemoveService 8192) [] true] serving in
  let dropped := run [Elsewhere (fun r => mkBook (bk_owner r) (bk_epoch r) [] (bk_acks r))] serving in
  let revoke w := runAcknowledge user_env user_flags EmptyString (addr_hex 8192) true true EmptyString (at_desk w []) in
  (bk_acks (reg (dk_chain (w_chain (revoke serving).2))) = [] /\ (revoke removed).1 = Err (EMsg "provider has not registered a service yet (no appId)") /\
   bk_acks (reg removed) = [4096] /\
   (revoke dropped).1 = Err (EMsg "trust mismatch: provider cannot settle for the app; refuse to ack") /\ bk_acks (reg dropped) = [4096]).
Proof. vm_compute. split_and!; reflexivity. Qed.

Definition deposit_run := runDeposit user_env user_flags EmptyString (addr_hex 8192) float_01.

(** When the balance cannot be read after the deposit, the tool panics. *)
Theorem deposit_panics_after_success :
  let x := deposit_run (at_desk serving [Before []; Before []; Lost]) in
  x.1 = Panic /\ balance (st (dk_chain (w_chain x.2))) 4096 8192 = balance (st serving) 4096 8192 + 10 ^ 16.
Proof. vm_compute. split; reflexivity. Qed.

Lemma user_key : mustLoadKey user_env EmptyString = Ok 4096.
Proof. vm_compute. reflexivity. Qed.

Example deposit_credits_run :
  deposit_run (at_desk serving []) =
    (Ok (balance (st serving) (key_addr 4096) (hex_to_address (addr_hex 8192)) + 10 ^ 16), (deposit_run (at_desk serving [])).2).
Proof. vm_compute. reflexivity. Qed.

(** Providers are found after a removal too; they are then shown without a service. *)
Example found_providers :
  let w := run [Call (at_ 5 0 40) (ERemoveService 8192) [] true; Call (at_ 5 0 40) (EAddOrUpdateService 12288 "app" terms0) [] true] serving in
  match (runProviders user_flags (at_desk w [])).1 with Ok l => (fun x => (x.1, match x.2 with inl s => sv_AppId s | inr _ => "error" end)) <$> l | _ => [] end =
    [(8192, EmptyString); (12288, "app")].
Proof. vm_compute. reflexivity. Qed.

End WalletExamples.
