(* ===== verification/Beacon.v ===== *)
(** * The deployed contract: proxy, beacon, implementation (contracts/src/proxy)

    The settlement contract runs behind a BeaconProxy: the proxy holds the
    storage and the ether, the UpgradeableBeacon says which code runs on them.
    The accounts of the chain are a map; a proxied call is Serving's, on the
    proxy's account.  What code outside the sources does to its own account is a
    parameter. *)

From S2P Require Import Prelude Hex Bytes Crypto Voucher ChainTypes Chain Serving Solvency Custody.

(** ** Accounts *)

Inductive BeaconEvent := Upgraded (implementation : addr) | BeaconOwner (previousOwner newOwner : addr).

(** The beacon's variables and its log.
    [contracts/src/proxy/UpgradeableBeacon.sol:9-13 UpgradeableBeacon] *)
Record Beacon := mkBeacon { b_implementation : addr; b_owner : addr; b_events : list BeaconEvent }.

(** What runs at an address, with the storage only that code has: a proxy's
    beacon slot, a beacon's variables. *)
Inductive kind := KServing | KProxy (beacon : addr) | KBeacon (b : Beacon) | KOther (code : bytes).

(** An account with code: the storage the settlement code lays out, its ether,
    its log. *)
Record account := mkAccount { ac_kind : kind; ac_st : Serving; ac_eth : Z; ac_evs : list Event }.

(** The accounts that have code, and the rest of the chain. *)
Record stack (R : Type) := mkStack { accounts : gmap addr account; outside : R }.
Arguments mkStack {R}.
Arguments accounts {R}.
Arguments outside {R}.

(** Call data: a function of the settlement contract, the beacon's own one, or
    neither.  [transferOwnership(address)] has the same selector in both. *)
Inductive calldata := DServing (c : entry) | DUpgradeTo (newImplementation : addr) | DOther (data : bytes).

(** What code outside the sources leaves of the account it runs on; [None] when
    it reverts. *)
Class OtherCode (R : Type) := other_code : env -> calldata -> stack R -> option account.

#[export] Instance stack_registry {R} `{TappRegistry R} : TappRegistry (stack R) := {
  t_getAppInfo g a w := t_getAppInfo g a (outside w);
  t_addedAt g a n w := t_addedAt g a n (outside w);
  t_isAcknowledged g u a w := t_isAcknowledged g u a (outside w);
  t_isAuthorizedInvalidator g a c w := t_isAuthorizedInvalidator g a c (outside w);
  t_invalidateAcks g c a w := res_bind (t_invalidateAcks g c a (outside w)) (fun r => Ok (mkStack (accounts w) r))
}.

Section Stack.
Context `{Keccak} `{Ecrecover} {R : Type} `{TappRegistry R} `{!OtherCode R}.
Implicit Types (w : stack R) (x self bc : addr).

Definition has_code w x : bool := match accounts w !! x with Some _ => true | None => false end.

Definition put x (a : account) w : stack R := mkStack (<[x := a]> (accounts w)) (outside w).

(** The chain as the code running on an account sees it, and back. *)
Definition view_at self w : chain (stack R) :=
  let rest := mkStack (delete self (accounts w)) (outside w) in
  match accounts w !! self with
  | Some a => mkChain (ac_st a) (ac_eth a) rest (ac_evs a)
  | None => mkChain blank 0 rest []
  end.

Definition close_at self (k : kind) (c : chain (stack R)) : stack R := put self (mkAccount k (st c) (eth c) (evs c)) (reg c).

(** ** The beacon *)

(** [contracts/src/proxy/UpgradeableBeacon.sol:15-22 constructor] *)
Definition new_beacon w (implementation_ owner_ : addr) : res Beacon :=
  if negb (has_code w implementation_) then Err (EMsg "beacon: impl has no code")
  else if owner_ =? 0 then Err (EMsg "beacon: zero owner")
  else Ok (mkBeacon implementation_ owner_ [BeaconOwner 0 owner_; Upgraded implementation_]).

(** [contracts/src/proxy/UpgradeableBeacon.sol:32-37 upgradeTo] *)
Definition upgradeTo w (e : env) (newImplementation : addr) (b : Beacon) : res Beacon :=
  if negb (msg_sender e =? b_owner b) then Err (EMsg "beacon: not owner")
  else if negb (has_code w newImplementation) then Err (EMsg "beacon: impl has no code")
  else Ok (mkBeacon newImplementation (b_owner b) (b_events b ++ [Upgraded newImplementation])).

(** [contracts/src/proxy/UpgradeableBeacon.sol:39-45 transferOwnership] *)
Definition beacon_transferOwnership (e : env) (newOwner : addr) (b : Beacon) : res Beacon :=
  if negb (msg_sender e =? b_owner b) then Err (EMsg "beacon: not owner")
  else if newOwner =? 0 then Err (EMsg "beacon: zero address")
  else Ok (mkBeacon (b_implementation b) newOwner (b_events b ++ [BeaconOwner (b_owner b) newOwner])).

(** A message to the beacon: none of its functions is payable, and there is no
    fallback. *)
Definition beacon_call w (e : env) (d : calldata) (b : Beacon) : res Beacon :=
  if negb (msg_value e =? 0) then Err (EMsg EmptyString)
  else match d with
       | DUpgradeTo a => if address_ok a then upgradeTo w e a b else Err (EMsg EmptyString)
       | DServing (ETransferOwnership a) => if address_ok a then beacon_transferOwnership e a b else Err (EMsg EmptyString)
       | _ => Err (EMsg EmptyString)
       end.

(** ** The proxy *)

(** Where a delegated call goes. *)
Inductive target := TServing | TEmpty | TReverts | TOther.

(** A beacon without [implementation()] makes the call revert; an implementation
    without code makes it succeed and do nothing.
    [contracts/src/proxy/BeaconProxy.sol:49-57 _implementation] *)
Definition _implementation w (beacon : addr) : target :=
  match ac_kind <$> accounts w !! beacon with
  | Some (KBeacon b) =>
      match ac_kind <$> accounts w !! b_implementation b with
      | Some KServing => TServing
      | None => TEmpty
      | Some _ => TOther
      end
  | None | Some KServing => TReverts
  | Some _ => TOther
  end.

(** The settlement code on an account: what [message] runs, with its error. *)
Definition delegated (e : env) (rx : receiver (stack R)) (d : calldata) (c : chain (stack R)) : res (unit * chain (stack R)) :=
  match d with
  | DServing c' =>
      if negb (typed c') || (negb (payable c') && negb (msg_value e =? 0)) then Err (EMsg EmptyString)
      else enter e rx c' (mkChain (st c) (eth c + msg_value e) (reg c) (evs c))
  | _ => Err (EMsg EmptyString)
  end.

(** What a recipient does while it is paid, as the paying account sees it. *)
Definition paid_at self (k : kind) (f : stack R -> stack R) (ok : bool) : receiver (stack R) :=
  mkReceiver (fun c => view_at self (f (close_at self k c))) ok.

(** The settlement code, on the account at [this]. *)
Definition deliver (k : kind) (e : env) (d : calldata) (f : stack R -> stack R) (ok : bool) w : stack R :=
  match delegated e (paid_at (this e) k f ok) d (view_at (this e) w) with
  | Ok (_, c) => close_at (this e) k c
  | _ => w
  end.

Definition other_call (e : env) (d : calldata) w : stack R :=
  match other_code e d w with Some a => put (this e) a w | None => w end.

Definition receive_ether (n : Z) (a : account) : account := mkAccount (ac_kind a) (ac_st a) (ac_eth a + n) (ac_evs a).

(** A revert without data gets the proxy's own message. *)
Definition bubble (m : rerr) : rerr := match m with EMsg EmptyString => EMsg "BeaconProxy: init failed" | _ => m end.

(** While a constructor runs, its address has no code.
    [contracts/src/proxy/BeaconProxy.sol:23-47 constructor] *)
Definition new_proxy (e : env) (beacon : addr) (data : option calldata) (f : stack R -> stack R) (ok : bool) w : res (stack R) :=
  let self := this e in
  let fresh := mkAccount (KProxy beacon) blank (msg_value e) [] in
  if negb (has_code w beacon) then Err (EMsg "BeaconProxy: not a contract")
  else match data with
       | None => Ok (put self fresh w)
       | Some d =>
           match _implementation w beacon with
           | TServing =>
               let rx := mkReceiver (fun c => mkChain (st c) (eth c) (f (reg c)) (evs c)) ok in
               match delegated e rx d (mkChain blank 0 w []) with
               | Ok (_, c) => Ok (close_at self (KProxy beacon) c)
               | Err m => Err (bubble m)
               | Panic => Panic
               end
           | TEmpty => Ok (put self fresh w)
           | TReverts => Err (EMsg EmptyString)
           | TOther => match other_code e d w with Some a => Ok (put self a w) | None => Err (EMsg "BeaconProxy: init failed") end
           end
       end.

(** ** What happens on the chain *)

(** The storage the implementation's constructor leaves.
    [contracts/src/SandboxServing.sol:216-218 constructor] *)
Definition implementation_storage : Serving :=
  mkServing false true ∅ ∅ ∅ ∅ ∅ ∅ ∅ (replicate 32 0) 0 0 ∅.

Inductive creation :=
| NewServing
| NewBeacon (implementation_ owner_ : addr)
| NewProxy (beacon : addr) (data : option calldata)
| NewOther (code : bytes).

(** A contract creation at [this]; only the proxy's constructor is payable. *)
Definition construct (e : env) (x : creation) (f : stack R -> stack R) (ok : bool) w : res (stack R) :=
  if has_code w (this e) then Err (EMsg "contract address collision")
  else match x with
       | NewServing => if msg_value e =? 0 then Ok (put (this e) (mkAccount KServing implementation_storage 0 []) w) else Err (EMsg EmptyString)
       | NewBeacon i o =>
           if msg_value e =? 0 then res_bind (new_beacon w i o) (fun b => Ok (put (this e) (mkAccount (KBeacon b) blank 0 []) w))
           else Err (EMsg EmptyString)
       | NewProxy b d => new_proxy e b d f ok w
       | NewOther code => Ok (put (this e) (mkAccount (KOther code) blank (msg_value e) []) w)
       end.

Definition create (e : env) (x : creation) (f : stack R -> stack R) (ok : bool) w : stack R :=
  match construct e x f ok w with Ok w' => w' | _ => w end.

(** A message to an account; a proxy has no function of its own.
    [contracts/src/proxy/BeaconProxy.sol:59-78 _delegate] *)
Definition call (e : env) (d : calldata) (f : stack R -> stack R) (ok : bool) w : stack R :=
  match accounts w !! this e with
  | None => w
  | Some a =>
      match ac_kind a with
      | KServing => deliver KServing e d f ok w
      | KProxy b =>
          match _implementation w b with
          | TServing => deliver (KProxy b) e d f ok w
          | TEmpty => put (this e) (receive_ether (msg_value e) a) w
          | TReverts => w
          | TOther => other_call e d w
          end
      | KBeacon b =>
          match beacon_call w e d b with
          | Ok b' => put (this e) (mkAccount (KBeacon b') (ac_st a) (ac_eth a) (ac_evs a)) w
          | _ => w
          end
      | KOther _ => other_call e d w
      end
  end.

(** A message or a creation, with what recipients do while they are paid; ether
    forced on an account; anything elsewhere. *)
Inductive wact :=
| WCall (e : env) (d : calldata) (during : list wact) (ok : bool)
| WCreate (e : env) (x : creation) (during : list wact) (ok : bool)
| WForced (at_ : addr) (amount : Z)
| WElsewhere (f : R -> R).

Fixpoint wexec (a : wact) w : stack R :=
  match a with
  | WCall e d during ok => call e d (fun w => (fix go l w := match l with [] => w | a :: l => go l (wexec a w) end) during w) ok w
  | WCreate e x during ok => create e x (fun w => (fix go l w := match l with [] => w | a :: l => go l (wexec a w) end) during w) ok w
  | WForced x amount => mkStack (alter (receive_ether (Z.max 0 amount)) x (accounts w)) (outside w)
  | WElsewhere f => mkStack (accounts w) (f (outside w))
  end.

Definition wrun (l : list wact) w : stack R := foldl (fun w a => wexec a w) w l.

End Stack.

#[global] Arguments WCall {R}.
#[global] Arguments WCreate {R}.
#[global] Arguments WForced {R}.
#[global] Arguments WElsewhere {R}.

(** ** Induction over what happens *)

(** One thing that happens. *)
Inductive wstep (R : Type) := XCall (e : env) (d : calldata) | XCreate (e : env) (x : creation) | XForced (at_ : addr) (amount : Z) | XElse (f : R -> R).
Arguments XCall {R}.
Arguments XCreate {R}.
Arguments XForced {R}.
Arguments XElse {R}.

(** Everything an act consists of, nested calls included. *)
Fixpoint wsteps_of {R} (a : wact) : list (wstep R) :=
  match a with
  | WCall e d during _ => XCall e d :: (fix go (l : list (@wact R)) := match l with [] => [] | a :: l => wsteps_of a ++ go l end) during
  | WCreate e x during _ => XCreate e x :: (fix go (l : list (@wact R)) := match l with [] => [] | a :: l => wsteps_of a ++ go l end) during
  | WForced x n => [XForced x n]
  | WElsewhere f => [XElse f]
  end.

Definition wall_steps {R} (l : list (@wact R)) : list (wstep R) := concat (wsteps_of <$> l).

Section Trace.
Context `{Keccak} `{Ecrecover} {R : Type} `{TappRegistry R} `{!OtherCode R}.

Section TraceInd.
Variable T : stack R -> stack R -> Prop.
Variable P : wstep R -> Prop.
Hypothesis T_refl : forall w, T w w.
Hypothesis T_trans : forall w1 w2 w3, T w1 w2 -> T w2 w3 -> T w1 w3.
Hypothesis T_call : forall e d f ok w, P (XCall e d) -> (forall w, T w (f w)) -> T w (call e d f ok w).
Hypothesis T_create : forall e x f ok w, P (XCreate e x) -> (forall w, T w (f w)) -> T w (create e x f ok w).
Hypothesis T_forced : forall x n w, P (XForced x n) -> T w (wexec (WForced x n) w).
Hypothesis T_else : forall f w, P (XElse f) -> T w (wexec (WElsewhere f) w).

Lemma wexec_keeps : forall a w, Forall P (wsteps_of a) -> T w (wexec a w).
Proof.
  fix IH 1.
  assert (forall l, Forall P ((fix go (l : list (@wact R)) := match l with [] => [] | a :: l => wsteps_of a ++ go l end) l) -> forall w,
    T w ((fix go l w := match l with [] => w | a :: l => go l (wexec a w) end) l w)) as Hgo.
  { induction l as [|b l IHl]; intros Hd w; [apply T_refl|]. apply Forall_app in Hd as [Hb Hl].
    eapply T_trans; [apply (IH b w Hb)|apply IHl, Hl]. }
  intros a w. destruct a as [e d during ok|e x during ok|x n|f]; cbn [wsteps_of wexec]; intros Hp; inversion_clear Hp as [|? ? Hc Hd].
  - apply T_call; [done|]. intros w'. by apply Hgo.
  - apply T_create; [done|]. intros w'. by apply Hgo.
  - by apply T_forced.
  - by apply T_else.
Qed.

Lemma wrun_keeps l : forall w, Forall P (wall_steps l) -> T w (wrun l w).
Proof.
  induction l as [|a l IHl]; intros w Hp; [apply T_refl|]. apply Forall_app in Hp as [Ha Hl].
  eapply T_trans; [by apply wexec_keeps|by apply IHl].
Qed.
End TraceInd.

(** ** What a call does to the rest of the chain *)

Section Rest.
Context {Q : Type} `{TappRegistry Q}.

(** Settlement never touches it; the other calls reach it through the registry
    and through the recipients of payments. *)
Lemma settle_all_rest vs k (w : chain Q) x w' : settle_all vs k w = Ok (x, w') -> reg w' = reg w.
Proof.
  apply (settle_all_keeps (fun w w' => reg w' = reg w)); [done|congruence|]. done.
Qed.

Variable T : Q -> Q -> Prop.
Hypothesis T_refl : forall r, T r r.
Hypothesis T_trans : forall r1 r2 r3, T r1 r2 -> T r2 r3 -> T r1 r3.
Hypothesis T_invalidate : forall g c a r r', t_invalidateAcks g c a r = Ok r' -> T r r'.

Lemma upsert_rest e p a t (w : chain Q) x w' : _upsertService e p a t w = Ok (x, w') -> T (reg w) (reg w').
Proof. intros He. unfold _upsertService in He. tx_run He; cbn [reg]; first [apply T_refl|eauto]. Qed.

Lemma bind_rest p a n t (w : chain Q) x w' : bind_kms p a n t w = Ok (x, w') -> reg w' = reg w.
Proof. intros He. unfold bind_kms in He. by tx_run He. Qed.

Lemma message_rest e rx c (w : chain Q) : (forall c, T (reg c) (reg (does rx c))) -> T (reg w) (reg (message e rx c w)).
Proof.
  intros Hrx. destruct (message_cases e rx c w) as [->|(_ & _ & He)]; [apply T_refl|]. revert He. generalize (message e rx c w).
  intros w' He. change (reg w) with (reg (mkChain (st w) (eth w + msg_value e) (reg w) (evs w))). revert He.
  generalize (mkChain (st w) (eth w + msg_value e) (reg w) (evs w)). clear w. intros w He.
  assert (forall s e l, T (reg w) (reg (does rx (mkChain s e (reg w) l)))) as Hp.
  { intros s e' l. exact (Hrx (mkChain s e' (reg w) l)). }
  destruct c; cbn [enter] in He;
    unfold initialize, deposit, requestRefund, withdrawRefund, settleFeesWithTEE, withdrawEarnings, removeService, _isAppOwnerOf,
      transferOwnership, setTappRegistry, repinKmsProvider, addOrUpdateService, addOrUpdateKmsService, onlyOwner, endorsing_node in He;
    tx_run He; cbn [st eth reg evs]; try apply T_refl; try apply Hp; try done.
  all: try (match goal with E : settle_all _ _ _ = Ok _ |- _ => apply settle_all_rest in E; rewrite E; apply T_refl end).
  all: try (by eapply upsert_rest).
  all: match goal with E : bind_kms _ _ _ _ _ = Ok _ |- _ => apply bind_rest in E; rewrite <- E end; by eapply upsert_rest.
Qed.
End Rest.

(** A payment is made before anything else happens to the rest of the chain, so
    recipients that agree there are the same. *)
Section SameReceiver.
Context {Q : Type} `{TappRegistry Q}.
Variables (rx rx' : receiver Q) (w0 : chain Q).
Hypothesis same_does : forall c, reg c = reg w0 -> does rx c = does rx' c.
Hypothesis same_accepts : accepts rx = accepts rx'.

Definition agree {A} (m m' : tx Q A) : Prop := forall w, reg w = reg w0 -> m w = m' w.

Definition quiet {A} (m : tx Q A) : Prop := forall w a w', m w = Ok (a, w') -> reg w' = reg w.

Lemma agree_refl {A} (m : tx Q A) : agree m m.
Proof. done. Qed.

Lemma agree_bind {A B} (m m' : tx Q A) (k k' : A -> tx Q B) :
  quiet m -> agree m m' -> (forall a, agree (k a) (k' a)) -> agree (m ≫= k) (m' ≫= k').
Proof.
  intros Hq Hm Hk w Hw. rewrite !tx_bind_eq, <- (Hm w Hw). specialize (Hq w). destruct (m w) as [[a w1]|e|]; [|done..].
  cbn. apply Hk. rewrite (Hq a w1 eq_refl). exact Hw.
Qed.

(** The last step that may differ. *)
Lemma agree_then {A B} (m m' : tx Q A) (k : A -> tx Q B) : agree m m' -> agree (m ≫= k) (m' ≫= k).
Proof. intros Hm w Hw. by rewrite !tx_bind_eq, (Hm w Hw). Qed.

Lemma quiet_sread {A} (f : Serving -> A) : quiet (sread f).
Proof. by intros w a w' [= _ <-]. Qed.
Lemma quiet_swrite f : quiet (swrite f).
Proof. by intros w a w' [= _ <-]. Qed.
Lemma quiet_require b s : quiet (require b s).
Proof. by intros w a w' [_ ->]%require_inv. Qed.
Lemma quiet_owner p c : quiet (_isAppOwnerOf p c).
Proof. intros w a w' E. unfold _isAppOwnerOf in E. by tx_run E. Qed.

Lemma agree_pay n : agree (pay rx n) (pay rx' n).
Proof. intros w Hw. unfold pay. rewrite <- same_accepts, same_does by done. done. Qed.

Lemma agree_nonReentrant {A} (m m' : tx Q A) : agree m m' -> agree (nonReentrant m) (nonReentrant m').
Proof.
  intros Hm. unfold nonReentrant. apply agree_bind; [apply quiet_sread|apply agree_refl|]. intros l.
  apply agree_bind; [apply quiet_require|apply agree_refl|]. intros _.
  apply agree_bind; [apply quiet_swrite|apply agree_refl|]. intros _. by apply agree_then.
Qed.

Ltac agree_steps :=
  repeat first [ apply agree_refl | apply agree_nonReentrant | apply agree_pay
    | lazymatch goal with |- agree (if ?b then _ else _) _ => destruct b end
    | apply agree_bind; [solve [apply quiet_sread | apply quiet_swrite | apply quiet_require | apply quiet_owner] | apply agree_refl | intros ?]
    | apply agree_then ].

Lemma enter_same e c : agree (enter e rx c) (enter e rx' c).
Proof.
  destruct c; cbn [enter]; try apply agree_refl.
  - unfold withdrawRefund. agree_steps.
  - unfold withdrawEarnings. agree_steps.
  - unfold removeService. agree_steps.
Qed.

Lemma message_same e c : message e rx c w0 = message e rx' c w0.
Proof. unfold message. destruct (negb (typed c) || _); [done|]. by rewrite (enter_same e c). Qed.
End SameReceiver.
End Trace.

(** ** Accounts *)

Section Accounts.
Context `{Keccak} `{Ecrecover} {R : Type} `{TappRegistry R} `{!OtherCode R}.
Implicit Types (w : stack R).

Lemma kind_put x a w y : ac_kind <$> accounts (put x a w) !! y = if decide (x = y) then Some (ac_kind a) else ac_kind <$> accounts w !! y.
Proof. cbn. case_decide as E; [subst; by rewrite lookup_insert_eq|by rewrite lookup_insert_ne]. Qed.

(** Leaving an account and coming back. *)
Lemma close_view x k w a : accounts w !! x = Some a -> ac_kind a = k -> close_at x k (view_at x w) = w.
Proof.
  intros Ha Hk. unfold close_at, view_at, put. rewrite Ha. cbn. rewrite insert_delete_eq, insert_id; [by destruct w|].
  rewrite Ha, <- Hk. by destruct a.
Qed.

(** The settlement code through the proxy is Serving's. *)
Lemma deliver_message k e c f ok w a : accounts w !! this e = Some a -> ac_kind a = k ->
  deliver k e (DServing c) f ok w = close_at (this e) k (message e (paid_at (this e) k f ok) c (view_at (this e) w)).
Proof.
  intros Ha Hk. unfold deliver, delegated, message. destruct (negb (typed c) || _); [by rewrite (close_view _ _ _ _ Ha Hk)|].
  destruct (enter _ _ _ _) as [[[] c']|m|]; [done|by rewrite (close_view _ _ _ _ Ha Hk)..].
Qed.

Lemma deliver_other k e d f ok w : (forall c, d <> DServing c) -> deliver k e d f ok w = w.
Proof. intros Hd. unfold deliver, delegated. destruct d; [by destruct (Hd c)|done..]. Qed.

Lemma put_close x k w s n l : close_at x k (mkChain s n (reg (view_at x w)) l) = put x (mkAccount k s n l) w.
Proof. unfold close_at, view_at, put. cbn. destruct (accounts w !! x); cbn; by rewrite insert_delete_eq. Qed.

Lemma put_put x a a' w : put x a' (put x a w) = put x a' w.
Proof. unfold put. cbn. by rewrite insert_insert_eq. Qed.

(** A relation that holds whatever is put on the accounts it is not about, where
    some of these keep the settlement code. *)
Section Others.
Variables (T : stack R -> stack R -> Prop) (oth : addr -> Prop) (impls : gset addr).
Hypothesis T_refl : forall w, T w w.
Hypothesis T_trans : forall w1 w2 w3, T w1 w2 -> T w2 w3 -> T w1 w3.
Hypothesis T_put : forall x a w, oth x -> (x ∈ impls -> ac_kind a = KServing) -> T w (put x a w).
Hypothesis T_outside : forall w o, T w (mkStack (accounts w) o).
Hypothesis T_fresh : forall x a w w', accounts w !! x = None -> T w w' -> T w (put x a w').

Lemma invalidate_keeps g c a (r r' : stack R) : t_invalidateAcks g c a r = Ok r' -> T r r'.
Proof.
  cbn. destruct (t_invalidateAcks g c a (outside r)) as [o| |]; [|done..]. intros [= <-]. apply T_outside.
Qed.

(** The settlement code there. *)
Lemma others_deliver k e d f ok w a :
  oth (this e) -> (this e ∈ impls -> k = KServing) -> accounts w !! this e = Some a -> ac_kind a = k ->
  (forall w, T w (f w)) -> T w (deliver k e d f ok w).
Proof.
  intros Ho Hi Ha Hk Hf. destruct d as [c| |]; [|rewrite deliver_other by done; apply T_refl..].
  rewrite (deliver_message _ _ _ _ _ _ _ Ha Hk). set (x := this e) in *. set (rx := paid_at x k f ok).
  pose (Q := fun r r' : stack R => forall a0 s' n' l', ac_kind a0 = k -> T (put x a0 r) (put x (mkAccount k s' n' l') r')).
  assert (forall r a0 s n l, T (put x a0 r) (put x (mkAccount k s n l) r)) as Hpp.
  { intros r a0 s n l. pose proof (T_put x (mkAccount k s n l) (put x a0 r) Ho Hi) as E. by rewrite put_put in E. }
  assert (Q (reg (view_at x w)) (reg (message e rx c (view_at x w)))) as HQ.
  { apply (message_rest Q).
    - intros r a0 s n l _. apply Hpp.
    - intros r1 r2 r3 Q1 Q2 a0 s n l Ea. eapply T_trans; [by apply (Q1 a0 s n l)|by apply Q2].
    - intros g c' a' r r' Hinv a0 s n l _. eapply T_trans; [apply Hpp|]. cbn in Hinv.
      destruct (t_invalidateAcks g c' a' (outside r)) as [o| |]; [|done..]. injection Hinv as <-.
      apply (T_outside (put x (mkAccount k s n l) r) o).
    - intros ch a0 s n l _. unfold rx, paid_at. cbn [does].
      eapply T_trans; [apply (Hpp (reg ch) a0 (st ch) (eth ch) (evs ch))|].
      eapply T_trans; [apply Hf|]. change (put x (mkAccount k (st ch) (eth ch) (evs ch)) (reg ch)) with (close_at x k ch).
      set (w1 := f (close_at x k ch)).
      change (put x (mkAccount k s n l) (reg (view_at x w1))) with (close_at x k (mkChain s n (reg (view_at x w1)) l)).
      rewrite put_close. by apply T_put. }
  set (m := message e rx c (view_at x w)) in *. specialize (HQ a (st m) (eth m) (evs m) Hk).
  replace (put x a (reg (view_at x w))) with w in HQ; [exact HQ|].
  rewrite <- (close_view x k w a Ha Hk) at 1. unfold close_at, view_at. rewrite Ha, <- Hk. cbn. by destruct a.
Qed.

Lemma others_call e d f ok w :
  oth (this e) -> (forall a, accounts w !! this e = Some a -> this e ∈ impls -> ac_kind a = KServing) ->
  (forall w, T w (f w)) -> T w (call e d f ok w).
Proof.
  intros Ho Hi Hf. unfold call. destruct (accounts w !! this e) as [a|] eqn:Ha; [|apply T_refl]. specialize (Hi a eq_refl).
  assert (ac_kind a <> KServing -> T w (other_call e d w)) as Hother.
  { intros Hk. unfold other_call. destruct (other_code e d w); [|apply T_refl]. apply T_put; [done|]. by intros Hx%Hi. }
  destruct (ac_kind a) as [|b|b|code] eqn:Hk; [by eapply others_deliver| | |by apply Hother].
  - destruct (_implementation w b); [by eapply others_deliver| |apply T_refl|by apply Hother].
    apply T_put; [done|]. by intros Hx%Hi.
  - destruct (beacon_call w e d b); [|apply T_refl..]. apply T_put; [done|]. by intros Hx%Hi.
Qed.

(** A contract is created where none is. *)
Lemma others_create e x f ok w : (forall w, T w (f w)) -> T w (create e x f ok w).
Proof.
  intros Hf. unfold create, construct, has_code. destruct (accounts w !! this e) eqn:Ha; [apply T_refl|].
  assert (forall a, T w (put (this e) a w)) as Hput by (intros a; by apply T_fresh).
  destruct x as [|i o|b d|code]; [..|apply Hput].
  - destruct (msg_value e =? 0); [apply Hput|apply T_refl].
  - destruct (msg_value e =? 0); [|apply T_refl]. destruct (new_beacon w i o); cbn [res_bind]; [apply Hput|apply T_refl..].
  - unfold new_proxy. destruct (negb (has_code w b)); [apply T_refl|]. destruct d as [d|]; [|apply Hput].
    destruct (_implementation w b); [|apply Hput|apply T_refl|destruct (other_code e d w); [apply Hput|apply T_refl]].
    set (rx := mkReceiver _ ok). destruct (delegated e rx d (mkChain blank 0 w [])) as [[[] c]|m|] eqn:E; [|apply T_refl..].
    apply T_fresh; [done|]. destruct d as [c0| |]; [|done..].
    assert (c = message e rx c0 (mkChain blank 0 w [])) as ->.
    { unfold delegated in E. unfold message. destruct (negb (typed c0) || _); [done|]. by rewrite E. }
    apply (message_rest T) with (w := mkChain blank 0 w []); [apply T_refl|apply T_trans|apply invalidate_keeps|].
    intros c. apply Hf.
Qed.
End Others.

Lemma kind_forced x n w y : ac_kind <$> accounts (wexec (WForced x n) w) !! y = ac_kind <$> accounts w !! y.
Proof.
  cbn. destruct (decide (y = x)) as [->|E]; [|by rewrite lookup_alter_ne].
  rewrite lookup_alter_eq. by destruct (accounts w !! x).
Qed.

(** The settlement code stays where it is. *)
Lemma serving_run x l w : ac_kind <$> accounts w !! x = Some KServing -> ac_kind <$> accounts (wrun l w) !! x = Some KServing.
Proof.
  set (T := fun w w' : stack R => ac_kind <$> accounts w !! x = Some KServing -> ac_kind <$> accounts w' !! x = Some KServing).
  assert (forall y a w, True -> (y ∈ ({[x]} : gset addr) -> ac_kind a = KServing) -> T w (put y a w)) as Tp.
  { intros y a w' _ Hy Hk. rewrite kind_put. case_decide; [subst; f_equal; by apply Hy, elem_of_singleton|done]. }
  assert (forall w, T w w) as Tr by (by intros ? ?).
  assert (forall w1 w2 w3, T w1 w2 -> T w2 w3 -> T w1 w3) as Tt by (intros w1 w2 w3 T1 T2 Hw; by apply T2, T1).
  assert (forall w o, T w (mkStack (accounts w) o)) as To by (by intros w' o Hk).
  change (T w (wrun l w)). apply (wrun_keeps T (fun _ => True)); [done|done| | | |by intros f w' _ Hk|by apply Forall_true].
  - intros e d f ok w' _ Hf Hk. apply (others_call T (fun _ => True) {[x]}) with (w := w'); try done.
    intros a Ha Hx%elem_of_singleton. rewrite <- Hx, Ha in Hk. by injection Hk.
  - intros e c f ok w' _ Hf. apply (others_create T); try done. intros y a w1 w2 Hn Ht Hk. rewrite kind_put.
    case_decide as E; [|by apply Ht]. by rewrite <- E, Hn in Hk.
  - intros y n w' _. unfold T. by rewrite kind_forced.
Qed.
End Accounts.

(** ** Behind the proxy *)

Section Proxied.
Context `{Keccak} `{Ecrecover} {R : Type} `{TappRegistry R} `{!OtherCode R}.
Variables (self bc : addr) (impls keys : gset addr).
Implicit Types (w : stack R).

Definition serving_at w x : bool := match ac_kind <$> accounts w !! x with Some KServing => true | _ => false end.

(** A beacon that names one of the implementations, all of them the settlement
    code, and belongs to one of the keys. *)
Definition anchored w : bool :=
  match ac_kind <$> accounts w !! bc with Some (KBeacon b) => bool_decide (b_implementation b ∈ impls) && bool_decide (b_owner b ∈ keys) | _ => false end &&
  forallb (serving_at w) (elements impls).

(** And a proxy that reads it. *)
Definition wired w : bool := match ac_kind <$> accounts w !! self with Some (KProxy b) => b =? bc | _ => false end && anchored w.

Lemma anchored_spec w : anchored w = true <->
  (exists b, ac_kind <$> accounts w !! bc = Some (KBeacon b) /\ b_implementation b ∈ impls /\ b_owner b ∈ keys) /\
  forall x, x ∈ impls -> ac_kind <$> accounts w !! x = Some KServing.
Proof.
  unfold anchored, serving_at. rewrite andb_true_iff, forallb_forall. split.
  - intros [Hb Hi]. split.
    + destruct (ac_kind <$> accounts w !! bc) as [[]|]; try done. apply andb_true_iff in Hb as [?%bool_decide_eq_true ?%bool_decide_eq_true]. by eexists.
    + intros x Hx%elem_of_elements%list_elem_of_In%Hi. by destruct (ac_kind <$> accounts w !! x) as [[]|].
  - intros [(b & -> & Hb & Ho) Hi]. rewrite !bool_decide_true by done. split; [done|].
    intros x Hx%list_elem_of_In%elem_of_elements. by rewrite (Hi x Hx).
Qed.

Lemma wired_spec w : wired w = true <-> ac_kind <$> accounts w !! self = Some (KProxy bc) /\ anchored w = true.
Proof.
  unfold wired. rewrite andb_true_iff. split; intros [Hs Ha]; split; try done; [|by rewrite Hs, Z.eqb_refl].
  destruct (ac_kind <$> accounts w !! self) as [[]|]; try done. by apply Z.eqb_eq in Hs as ->.
Qed.

(** Only the kinds matter. *)
Lemma anchored_kinds w w' : (forall x, ac_kind <$> accounts w' !! x = ac_kind <$> accounts w !! x) -> anchored w' = anchored w.
Proof. intros E. unfold anchored, serving_at. rewrite !E. f_equal. induction (elements impls) as [|x l IH]; [done|]. cbn. by rewrite E, IH. Qed.

Lemma wired_kinds w w' : (forall x, ac_kind <$> accounts w' !! x = ac_kind <$> accounts w !! x) -> wired w' = wired w.
Proof. intros E. unfold wired. by rewrite (anchored_kinds _ _ E), E. Qed.

(** An account that is none of the three. *)
Lemma anchored_put x a w : anchored w = true -> x <> bc -> (x ∈ impls -> ac_kind a = KServing) -> anchored (put x a w) = true.
Proof.
  rewrite !anchored_spec. intros [(b & Hb & Hbi) Hi] Hxb Hx. split.
  - exists b. by rewrite kind_put, decide_False.
  - intros y Hy. rewrite kind_put. case_decide; [subst; f_equal; by apply Hx|by apply Hi].
Qed.

Lemma wired_put x a w : wired w = true -> x <> self -> x <> bc -> (x ∈ impls -> ac_kind a = KServing) -> wired (put x a w) = true.
Proof. rewrite !wired_spec. intros [Hs Ha] Hxs Hxb Hx. rewrite kind_put, decide_False by done. split; [done|by apply anchored_put]. Qed.

Lemma wired_close w s e l : wired w = true -> wired (close_at self (KProxy bc) (mkChain s e (reg (view_at self w)) l)) = true.
Proof.
  intros Hw. rewrite put_close, <- Hw. apply wired_kinds. intros x. rewrite kind_put.
  apply wired_spec in Hw as [Hs _]. case_decide; [by subst|done].
Qed.

(** No account of a beacon and its implementations is free. *)
Lemma anchored_taken x w : anchored w = true -> accounts w !! x = None -> x <> bc /\ (x ∈ impls -> False).
Proof.
  intros [(b & Hb & _) Hi]%anchored_spec Hx. split; [intros ->; by rewrite Hx in Hb|]. intros Hin%Hi. by rewrite Hx in Hin.
Qed.

(** A holder of the keys upgrades the beacon to an implementation of the set, and
    hands it to one of the keys, if at all. *)
Definition owner_step (x : wstep R) : Prop :=
  match x with
  | XCall e (DUpgradeTo a) => this e = bc -> msg_sender e ∈ keys -> a ∈ impls
  | XCall e (DServing (ETransferOwnership o)) => this e = bc -> msg_sender e ∈ keys -> o ∈ keys
  | _ => True
  end.

Lemma anchored_serving x w a : anchored w = true -> accounts w !! x = Some a -> x ∈ impls -> ac_kind a = KServing.
Proof. intros [_ Hi]%anchored_spec Ha Hx%Hi. rewrite Ha in Hx. by injection Hx. Qed.

(** A call of the beacon leaves one that is as good. *)
Lemma beacon_call_keeps e d w a b b' :
  anchored w = true -> accounts w !! bc = Some a -> ac_kind a = KBeacon b -> this e = bc ->
  owner_step (XCall e d) -> beacon_call w e d b = Ok b' ->
  anchored (put bc (mkAccount (KBeacon b') (ac_st a) (ac_eth a) (ac_evs a)) w) = true.
Proof.
  intros Hw Ha Hk He Hd Hb. apply anchored_spec in Hw as [(b0 & Hb0 & Hi0 & Ho0) Hi].
  rewrite Ha in Hb0. cbn in Hb0. rewrite Hk in Hb0. injection Hb0 as <-.
  assert (b_implementation b' ∈ impls /\ b_owner b' ∈ keys) as Hin.
  { unfold beacon_call in Hb. destruct (negb (msg_value e =? 0)); [done|]. destruct d as [[]|x|]; try done; cbn in Hd.
    - destruct (address_ok _); [|done]. unfold beacon_transferOwnership in Hb. destruct (Z.eqb_spec (msg_sender e) (b_owner b)) as [E|]; [|done].
      cbn [negb] in Hb. destruct (_ =? 0); [done|]. injection Hb as <-. cbn. split; [done|]. apply Hd; [done|]. by rewrite E.
    - destruct (address_ok x); [|done]. unfold upgradeTo in Hb. destruct (Z.eqb_spec (msg_sender e) (b_owner b)) as [E|]; [|done].
      cbn [negb] in Hb. destruct (negb _); [done|]. injection Hb as <-. cbn. split; [|done]. apply Hd; [done|]. by rewrite E. }
  apply anchored_spec. split; [exists b'; by rewrite kind_put, decide_True|].
  intros x Hx. rewrite kind_put. case_decide as E; [|by apply Hi]. apply Hi in Hx. rewrite <- E, Ha in Hx. cbn in Hx. by rewrite Hk in Hx.
Qed.

(** A beacon stays with its keys and its implementations. *)
Lemma anchored_run l w : Forall owner_step (wall_steps l) -> anchored w = true -> anchored (wrun l w) = true.
Proof.
  set (T := fun w w' => anchored w = true -> anchored w' = true).
  assert (forall x a w, x <> bc -> (x ∈ impls -> ac_kind a = KServing) -> T w (put x a w)) as Tp by (intros x a w' Hx Hk Hw; by apply anchored_put).
  assert (forall w o, T w (mkStack (accounts w) o)) as To by (intros w' o <-; by apply anchored_kinds).
  assert (forall w, T w w) as Tr by (by intros ? ?).
  assert (forall w1 w2 w3, T w1 w2 -> T w2 w3 -> T w1 w3) as Tt by (intros w1 w2 w3 T1 T2 Hw; by apply T2, T1).
  apply (wrun_keeps T); [done|done| | | |by intros f w' _; apply To].
  - intros e d f ok w' Hs Hf. intros Hw. destruct (decide (this e = bc)) as [E|N].
    + unfold call. destruct (accounts w' !! this e) as [a|] eqn:Ha; [|done]. rewrite E in *.
      pose proof Hw as [(b & Hb & _) _]%anchored_spec. rewrite Ha in Hb. injection Hb as Hk. rewrite Hk.
      destruct (beacon_call w' e d b) eqn:Ec; [|done..]. by eapply beacon_call_keeps.
    + apply (others_call T (fun x => x <> bc) impls) with (w := w'); [done..| |done|done]. intros a Ha Hx. by eapply anchored_serving.
  - intros e x f ok w' _ Hf. apply (others_create T); [done..| |done].
    intros y a w1 w2 Hn Ht Hw. destruct (anchored_taken _ _ Hw Hn) as [? ?]. apply anchored_put; [by apply Ht|done|by intros ?].
  - intros x n w' _ <-. apply anchored_kinds, kind_forced.
Qed.

Lemma wired_target w : wired w = true -> _implementation w bc = TServing.
Proof. intros (_ & [(b & Hb & Hi & _) Hall]%anchored_spec)%wired_spec. unfold _implementation. by rewrite Hb, (Hall _ Hi). Qed.

(** What the proxy's users see of it. *)
Definition seen_at w (r : stack R) : chain (stack R) := mkChain (st (view_at self w)) (eth (view_at self w)) r (evs (view_at self w)).

Lemma seen_put x a w r : x <> self -> seen_at (put x a w) r = seen_at w r.
Proof.
  intros Hx. unfold seen_at, view_at, put. cbn. rewrite lookup_insert_ne by done. by destruct (accounts w !! self).
Qed.

Lemma seen_outside w o r : seen_at (mkStack (accounts w) o) r = seen_at w r.
Proof. unfold seen_at, view_at. cbn. by destruct (accounts w !! self). Qed.

Lemma seen_close k c r : seen_at (close_at self k c) r = mkChain (st c) (eth c) r (evs c).
Proof. unfold seen_at, close_at, view_at, put. cbn. by rewrite lookup_insert_eq. Qed.

Lemma seen_view w : seen_at w (reg (view_at self w)) = view_at self w.
Proof. unfold seen_at. by destruct (view_at self w). Qed.

(** *** What holds of the contract holds of the proxy *)

Section Lift.
Variable S : chain (stack R) -> chain (stack R) -> Prop.
Variable P : step (stack R) -> Prop.
Hypothesis S_refl : forall c, S c c.
Hypothesis S_trans : forall c1 c2 c3, S c1 c2 -> S c2 c3 -> S c1 c3.
Hypothesis S_call : forall e x rx c, P (SCall e x) -> (forall c, S c (does rx c)) -> S c (message e rx x c).
Hypothesis S_forced : forall n c, S c (exec (Forced n) c).
Hypothesis S_else : forall f c, S c (exec (Elsewhere f) c).

(** Calls of the proxy are of the kind that [S] is about. *)
Definition proxied (x : wstep R) : Prop :=
  owner_step x /\ match x with XCall e (DServing c) => this e = self -> P (SCall e c) | _ => True end.

Definition lifted w w' : Prop := wired w = true -> wired w' = true /\ forall r r', S (seen_at w r) (seen_at w' r').

Lemma S_rest c r : S c (mkChain (st c) (eth c) r (evs c)).
Proof. exact (S_else (fun _ => r) c). Qed.

Lemma lifted_refl w : lifted w w.
Proof. intros Hw. split; [done|]. intros r r'. exact (S_rest (seen_at w r) r'). Qed.

Lemma lifted_trans w1 w2 w3 : lifted w1 w2 -> lifted w2 w3 -> lifted w1 w3.
Proof.
  intros L1 L2 Hw. destruct (L1 Hw) as [Hw2 S1]. destruct (L2 Hw2) as [Hw3 S2]. split; [done|].
  intros r r'. eapply S_trans; [apply (S1 r r)|apply (S2 r r')].
Qed.

Lemma lifted_same w w' : (wired w = true -> wired w' = true) -> (forall r, seen_at w' r = seen_at w r) -> lifted w w'.
Proof. intros Hk Hs Hw. split; [by apply Hk|]. intros r r'. rewrite Hs. exact (S_rest (seen_at w r) r'). Qed.

Lemma lifted_put x a w : x <> self -> x <> bc -> (x ∈ impls -> ac_kind a = KServing) -> lifted w (put x a w).
Proof. intros Hs Hb Hi. apply lifted_same; [intros Hw; by apply wired_put|intros r; by apply seen_put]. Qed.

Lemma lifted_outside w o : lifted w (mkStack (accounts w) o).
Proof. apply lifted_same; [intros <-; by apply wired_kinds|]. intros r. apply seen_outside. Qed.

(** The settlement code on the proxy itself. *)
Lemma lifted_self e c f ok w : this e = self -> wired w = true -> P (SCall e c) -> (forall w, lifted w (f w)) ->
  lifted w (deliver (KProxy bc) e (DServing c) f ok w).
Proof.
  intros Hself Hw Hc Hf. pose proof (proj1 (proj1 (wired_spec w) Hw)) as Hk.
  destruct (accounts w !! self) as [a|] eqn:Ha; [|done]. injection Hk as Hk.
  rewrite (deliver_message _ _ _ _ _ _ a) by (by rewrite ?Hself). rewrite Hself.
  set (rx := paid_at self (KProxy bc) f ok). set (w0 := view_at self w).
  set (rx' := mkReceiver (fun ch => if wired (close_at self (KProxy bc) ch) then does rx ch else ch) ok).
  assert (message e rx c w0 = message e rx' c w0) as Hm.
  { apply message_same; [|done]. intros ch Hch. cbn [does rx']. destruct ch as [s n r l]. cbn [reg] in Hch. subst r.
    by rewrite (wired_close w s n l Hw : wired (close_at self (KProxy bc) (mkChain s n (reg w0) l)) = true). }
  assert (S w0 (message e rx' c w0)) as HS.
  { apply S_call; [done|]. intros ch. cbn [does rx']. destruct (wired (close_at self (KProxy bc) ch)) eqn:Ec; [|apply S_refl].
    destruct (Hf _ Ec) as [_ HS]. specialize (HS (reg ch) (reg (does rx ch))). rewrite seen_close in HS.
    replace (mkChain (st ch) (eth ch) (reg ch) (evs ch)) with ch in HS by (by destruct ch).
    unfold rx, paid_at in *. cbn [does] in *. by rewrite seen_view in HS. }
  rewrite <- Hm in HS. intros _. split.
  - apply (message_rest (fun r r' => forall s n l s' n' l', wired (close_at self (KProxy bc) (mkChain s n r l)) = true ->
      wired (close_at self (KProxy bc) (mkChain s' n' r' l')) = true)) with (e := e) (rx := rx) (c := c) (w := w0)
      (s := st w0) (n := eth w0) (l := evs w0) (s' := st (message e rx c w0)) (n' := eth (message e rx c w0)) (l' := evs (message e rx c w0)).
    + intros r s n l s' n' l' <-. apply wired_kinds. intros y. unfold close_at. rewrite !kind_put. by case_decide.
    + intros r1 r2 r3 Q1 Q2 s n l s' n' l' Hr. exact (Q2 s n l s' n' l' (Q1 s n l s n l Hr)).
    + intros g c' a' r r' Hinv s n l s' n' l' Hr. cbn in Hinv. destruct (t_invalidateAcks g c' a' (outside r)) as [o| |]; [|done..].
      injection Hinv as <-. rewrite <- Hr. apply wired_kinds. intros y. unfold close_at. rewrite !kind_put. by case_decide.
    + intros ch s n l s' n' l' Hr. unfold rx, paid_at. cbn [does]. apply wired_close.
      apply Hf. rewrite <- Hr. apply wired_kinds. intros y. unfold close_at. rewrite !kind_put. by case_decide.
    + exact (eq_trans (f_equal wired (close_view self (KProxy bc) w a Ha Hk)) Hw).
  - intros r r'. rewrite seen_close. eapply S_trans; [apply (S_rest _ (reg w0))|].
    change (mkChain (st (seen_at w r)) (eth (seen_at w r)) (reg w0) (evs (seen_at w r))) with (seen_at w (reg w0)).
    unfold w0 at 2. rewrite seen_view. eapply S_trans; [exact HS|apply S_rest].
Qed.

Lemma lifted_call e d f ok w : proxied (XCall e d) -> (forall w, lifted w (f w)) -> lifted w (call e d f ok w).
Proof.
  intros [Hb Hs] Hf Hw. enough (lifted w (call e d f ok w)) as E by exact (E Hw).
  pose proof Hw as [Hself Ha]%wired_spec. destruct (decide (this e = self)) as [E|Ns].
  { unfold call. rewrite E. destruct (accounts w !! self) as [a|] eqn:Hsa; [|apply lifted_refl]. injection Hself as ->. rewrite wired_target by done.
    destruct d as [c| |]; [|rewrite deliver_other by done; apply lifted_refl..]. apply lifted_self; [done|done|by apply Hs|done]. }
  destruct (decide (this e = bc)) as [E|Nb].
  2: { apply (others_call lifted (fun x => x <> self /\ x <> bc) impls); [apply lifted_refl|apply lifted_trans|
         by intros x a w' []; apply lifted_put|apply lifted_outside|done| |done]. intros a Hx. by eapply anchored_serving. }
  unfold call. rewrite E. destruct (accounts w !! bc) as [a|] eqn:Hba; [|apply lifted_refl].
  pose proof Ha as [(b & Hbc & _) _]%anchored_spec. rewrite Hba in Hbc. injection Hbc as Hk. rewrite Hk.
  destruct (beacon_call w e d b) as [b'|m|] eqn:Ec; [|apply lifted_refl..].
  pose proof (beacon_call_keeps e d w a b b' Ha Hba Hk E Hb Ec) as Ha'. apply lifted_same.
  - intros _. apply wired_spec. split; [|done]. rewrite kind_put, decide_False by congruence. done.
  - intros r. apply seen_put. congruence.
Qed.

Lemma lifted_create e x f ok w : (forall w, lifted w (f w)) -> lifted w (create e x f ok w).
Proof.
  apply (others_create lifted); [apply lifted_refl|apply lifted_trans|apply lifted_outside|].
  intros y a w1 w2 Hn Hl Hw. pose proof Hw as [Hs Ha]%wired_spec. destruct (anchored_taken _ _ Ha Hn) as [Nb Ni].
  enough (lifted w1 (put y a w2)) as E by exact (E Hw). eapply lifted_trans; [exact Hl|]. apply lifted_put; [|done|by intros ?].
  intros ->. by rewrite Hn in Hs.
Qed.

Lemma lifted_forced x n w : lifted w (wexec (WForced x n) w).
Proof.
  cbn [wexec]. intros Hw. split.
  - rewrite <- Hw. apply wired_kinds, kind_forced.
  - intros r r'. unfold seen_at at 2, view_at. cbn. destruct (decide (x = self)) as [->|E].
    + rewrite lookup_alter_eq. unfold seen_at, view_at.
      destruct (accounts w !! self) as [a|]; cbn; [|apply (S_rest (mkChain blank 0 r []))].
      eapply S_trans; [apply (S_forced n (mkChain (ac_st a) (ac_eth a) r (ac_evs a)))|].
      apply (S_rest (mkChain (ac_st a) (ac_eth a + Z.max 0 n) r (ac_evs a)) r').
    + rewrite lookup_alter_ne by done. unfold seen_at, view_at.
      destruct (accounts w !! self) as [a|]; cbn; [apply (S_rest (mkChain (ac_st a) (ac_eth a) r (ac_evs a)))|apply (S_rest (mkChain blank 0 r []))].
Qed.

(** Whatever a relation that every call of the contract keeps, it holds of the
    proxy across everything that happens on the chain. *)
Lemma wrun_lifted l w : Forall proxied (wall_steps l) -> lifted w (wrun l w).
Proof.
  apply (wrun_keeps lifted); [apply lifted_refl|apply lifted_trans| | | |].
  - intros e d f ok w' Hp Hf. by apply lifted_call.
  - intros e x f ok w' _ Hf. by apply lifted_create.
  - intros x n w' _. apply lifted_forced.
  - intros f w' _. apply lifted_outside.
Qed.
End Lift.

(** ** The deployed contract keeps its users' money *)

(** What is on the chain at the proxy. *)
Definition storage_at w : Serving := st (view_at self w).
Definition ether_at w : Z := eth (view_at self w).

(** A step of somebody else: neither a call of the proxy by [u], nor a voucher of
    [u] signed by [p]. *)
Definition stranger (u p : addr) (sep : bytes) (x : wstep R) : Prop :=
  match x with
  | XCall e (DServing c) => this e = self -> foreign u p sep (SCall e c : step (stack R))
  | _ => True
  end.

Lemma lifted_view (S : chain (stack R) -> chain (stack R) -> Prop) w w' :
  lifted S w w' -> wired w = true -> S (view_at self w) (view_at self w').
Proof. intros Hl Hw. destruct (Hl Hw) as [_ HS]. rewrite <- (seen_view w), <- (seen_view w'). apply HS. Qed.

(** The contract's money across a change of the chain: solvency and surplus, and
    what [u] has with [p]. *)
Record preserved (u p : addr) (sep : bytes) w w' : Prop := {
  pr_sound : sound (view_at self w) (view_at self w');
  pr_safe : safe u p sep (view_at self w) (view_at self w')
}.

Lemma preserved_refl u p sep w : preserved u p sep w w.
Proof. split; [apply sound_refl|apply safe_refl]. Qed.

Lemma preserved_trans u p sep w1 w2 w3 : preserved u p sep w1 w2 -> preserved u p sep w2 w3 -> preserved u p sep w1 w3.
Proof. intros [] []. split; [by eapply sound_trans|by eapply safe_trans]. Qed.

Lemma sound_run l w : wired w = true -> Forall owner_step (wall_steps l) ->
  wired (wrun l w) = true /\ sound (view_at self w) (view_at self (wrun l w)).
Proof.
  intros Hw Hl. assert (lifted sound w (wrun l w)) as Hs.
  { apply (wrun_lifted sound (fun _ => True)); [apply sound_refl|apply sound_trans| | | |].
    - intros e x rx c _. apply message_sound.
    - intros n c. apply sound_ext; [by split|]. cbn. lia.
    - intros f c. apply sound_ext; [by split|]. cbn. lia.
    - eapply Forall_impl; [exact Hl|]. intros [e []|e x|x n|f] Hd; by split. }
  split; [by apply Hs|exact (lifted_view sound w _ Hs Hw)].
Qed.

Lemma preserved_run u p sep l w : wired w = true -> Forall owner_step (wall_steps l) -> Forall (stranger u p sep) (wall_steps l) ->
  wired (wrun l w) = true /\ preserved u p sep w (wrun l w).
Proof.
  intros Hw Hl Hf. destruct (sound_run l w Hw Hl) as [Hw' Hs]. split; [done|]. split; [done|].
  refine (lifted_view (safe u p sep) w (wrun l w) _ Hw).
  apply (wrun_lifted (safe u p sep) (foreign u p sep)); [apply safe_refl|apply safe_trans| | | |].
  - intros e x rx c Hx Hrx. by apply message_safe.
  - intros n c Hc. split; [done|apply held_refl].
  - intros f c Hc. split; [done|apply held_refl].
  - eapply Forall_impl; [exact (proj2 (Forall_and _ _) (conj Hl Hf))|]. intros x [Hd Hx]. by split.
Qed.

(** C8: The deployed contract is solvent and safe, through upgrades.  Whatever
    happens on the chain around a proxy whose beacon names one of a set of
    contracts with the settlement code, as long as the holders of the beacon's
    keys upgrade it within that set and keep it among themselves: calls of the
    proxy, of the implementations themselves, of the beacon by anybody else, of
    other proxies, new contracts, other code, and what recipients of payments do:
    the beacon still names one of the set and belongs to one of the keys; if
    its ether covered what it owes, it still does, and no surplus was paid out;
    and if it was initialized, what a user has with a provider is intact unless
    the user called or the provider signed. *)
Theorem deployed_keeps_money l w u p :
  wired w = true -> Forall owner_step (wall_steps l) ->
  wired (wrun l w) = true /\
  (solvent (view_at self w) -> solvent (view_at self (wrun l w)) /\ surplus (view_at self w) <= surplus (view_at self (wrun l w))) /\
  (s_initialized (storage_at w) = true -> Forall (stranger u p (s_domainSeparator (storage_at w))) (wall_steps l) ->
   held u p (storage_at w) (storage_at (wrun l w))).
Proof.
  intros Hw Hl. destruct (sound_run l w Hw Hl) as [Hw' Hs]. split; [done|]. split; [exact Hs|]. intros Hi Hf.
  destruct (preserved_run u p _ l w Hw Hl Hf) as [_ [_ Hp]]. apply Hp. by split.
Qed.

End Proxied.

(** One more implementation is one more the beacon may name. *)
Lemma wired_grow {R} self bc impls keys a (w : stack R) :
  ac_kind <$> accounts w !! a = Some KServing -> wired self bc impls keys w = true -> wired self bc ({[a]} ∪ impls) keys w = true.
Proof.
  rewrite !wired_spec, !anchored_spec. intros Ha (Hs & (b & Hb & Hi & Ho) & Hall). split; [done|]. split.
  - exists b. split; [done|]. split; [|done]. by apply elem_of_union_r.
  - intros x [->%elem_of_singleton|Hx]%elem_of_union; [done|by apply Hall].
Qed.

Lemma owner_step_grow {R} bc (impls impls' keys : gset addr) (x : wstep R) :
  impls ⊆ impls' -> owner_step bc impls keys x -> owner_step bc impls' keys x.
Proof. intros Hs. destruct x as [e []| | |]; cbn; auto. Qed.
