(* ===== verification/Deploy.v ===== *)
(** * Deploying and upgrading the contract (cmd/deploy, cmd/upgrade)

    The two tools on the accounts of Beacon: each request may be preceded by
    other people's calls or fail.  What the compiler's artifacts create is a
    parameter; what is printed is not modelled. *)

From S2P Require Import Prelude Decimal Hex Bytes Crypto Voucher Store Session Json Guard ChainTypes Chain Seal Auth Identity Tee Serving Solvency Custody Payout Beacon.

(** ** The chain from the deployer's desk *)

(** The constructor arguments the tools pass. *)
Inductive ctor_args := NoArgs | BeaconArgs (implementation_ owner_ : addr) | ProxyArgs (beacon : addr) (data : calldata).

(** What creation code makes with its arguments; [None] when it leaves no code. *)
Class Bytecode := creation_of : bytes -> ctor_args -> option creation.

(** What code outside the sources answers when it is read. *)
Class OtherView (R : Type) := {
  other_implementation : addr -> stack R -> res addr;
  other_slot : addr -> stack R -> addr
}.

(** [crypto.CreateAddress]. *)
Class CreateAddress := create_address : addr -> Z -> addr.

Section Site.
Context `{Keccak} `{Ecrecover} {R : Type} `{TappRegistry R} `{!OtherCode R} `{!OtherView R} `{!Bytecode} `{!CreateAddress}.

(** What comes before a request is answered: others act, or the request fails. *)
Inductive turn := Others (l : list (@wact R)) | Dropped.

(** The chain, the next nonce of the key, the build's files. *)
Record site := mkSite {
  si_stack : stack R;
  si_nonce : Z;
  si_chainid : Z;
  si_now : Z;
  si_files : string -> option body;
  si_future : list turn
}.

Definition si_with (w : stack R) (l : list turn) (s : site) : site :=
  mkSite w (si_nonce s) (si_chainid s) (si_now s) (si_files s) l.

Definition si_next (s : site) : site :=
  mkSite (si_stack s) (si_nonce s + 1) (si_chainid s) (si_now s) (si_files s) (si_future s).

Definition enquire {A} (f : site -> res A * site) (s : site) : res A * site :=
  match si_future s with
  | [] => f s
  | Others l :: rest => f (si_with (wrun l (si_stack s)) rest s)
  | Dropped :: rest => (Err EIO, si_with (si_stack s) rest s)
  end.

Definition env_at (from to : addr) (s : site) : env := mkEnv from 0 (si_now s) (si_chainid s) to.

(** Nobody is paid by what the tools send. *)
Definition nobody (w : stack R) : stack R := w.

Definition lands (e : env) (x : option creation) (w : stack R) : res (stack R) :=
  match x with Some x => construct e x nobody true w | None => Ok w end.

(** Whether a message would return. *)
Definition returns (e : env) (d : calldata) (w : stack R) : bool :=
  let runs k := match delegated e (paid_at (this e) k nobody true) d (view_at (this e) w) with Ok _ => true | _ => false end in
  let other := match other_code e d w with Some _ => true | None => false end in
  match accounts w !! this e with
  | None => true
  | Some a =>
      match ac_kind a with
      | KServing => runs KServing
      | KProxy b => match _implementation w b with TServing => runs (KProxy b) | TEmpty => true | TReverts => false | TOther => other end
      | KBeacon b => match beacon_call w e d b with Ok _ => true | _ => false end
      | KOther _ => other
      end
  end.

(** [bind.DeployContract]: the estimate, then the pool, which wants the chain's
    id. *)
Definition DeployContract (from chainID : Z) (code : bytes) (args : ctor_args) : site -> res (addr * option creation) * site :=
  enquire (fun s =>
    let x := creation_of code args in
    let a := create_address from (si_nonce s) in
    match lands (env_at from a s) x (si_stack s) with
    | Ok _ => if chainID =? si_chainid s then (Ok (a, x), si_next s) else (Err (EMsg "invalid chain id for signer"), s)
    | _ => (Err (EMsg "execution reverted"), s)
    end).

(** [bind.WaitMined] of a creation: the receipt's status. *)
Definition mined_creation (from a : addr) (x : option creation) : site -> res bool * site :=
  enquire (fun s => match lands (env_at from a s) x (si_stack s) with
                  | Ok w => (Ok true, si_with w (si_future s) s)
                  | _ => (Ok false, s)
                  end).

(** A bound method: an address without code is refused. *)
Definition bound_send (from chainID : Z) (to : addr) (d : calldata) : site -> res unit * site :=
  enquire (fun s =>
    if negb (has_code (si_stack s) to) then (Err (EMsg "no contract code at given address"), s)
    else if negb (returns (env_at from to s) d (si_stack s)) then (Err (EMsg "execution reverted"), s)
    else if chainID =? si_chainid s then (Ok tt, si_next s) else (Err (EMsg "invalid chain id for signer"), s)).

Definition mined_call (from to : addr) (d : calldata) : site -> res bool * site :=
  enquire (fun s => (Ok (returns (env_at from to s) d (si_stack s)),
                   si_with (call (env_at from to s) d nobody true (si_stack s)) (si_future s) s)).

(** [beacon.Implementation(opts)]. *)
Definition read_implementation (beacon : addr) : site -> res addr * site :=
  enquire (fun s =>
    let w := si_stack s in
    (match ac_kind <$> accounts w !! beacon with
     | None => Err (EMsg "no contract code at given address")
     | Some (KBeacon b) => Ok (b_implementation b)
     | Some KServing => Err (EMsg "execution reverted")
     | Some (KProxy b) =>
         match _implementation w b with
         | TServing | TReverts => Err (EMsg "execution reverted")
         | TEmpty => Err (EMsg "attempting to unmarshal an empty string while arguments are expected")
         | TOther => other_implementation beacon w
         end
     | Some (KOther _) => other_implementation beacon w
     end, s)).

(** [client.StorageAt] at the beacon slot.
    [cmd/upgrade/main.go:41-43 beaconSlot] *)
Definition beaconSlot_of (a : addr) : site -> res addr * site :=
  enquire (fun s =>
    let w := si_stack s in
    (Ok match ac_kind <$> accounts w !! a with
        | Some (KProxy b) => b
        | Some (KOther _) => other_slot a w
        | _ => 0
        end, s)).

(** ** Artifacts *)

Context `{SimpleFold} `{Ecdsa} `{SecpKeys}.

(** The member [object] of the struct inside, over what was decoded before. *)
Definition object_field (init : string) (ms : list (string * json)) : res string :=
  foldl (fun acc '(k, v) =>
    if EqualFold k "object"
    then match acc, v with
         | Ok _, JStr s => Ok s
         | Ok s, JNull => Ok s
         | Ok _, _ => Err (EMsg "json: cannot unmarshal into a string")
         | _, _ => acc
         end
    else acc) (Ok init) ms.

Definition bytecode_field (ms : list (string * json)) : res string :=
  foldl (fun acc '(k, v) =>
    if EqualFold k "bytecode"
    then match acc, v with
         | Ok s, JObj ms' => object_field s ms'
         | Ok s, JNull => Ok s
         | Ok _, _ => Err (EMsg "json: cannot unmarshal into a struct")
         | _, _ => acc
         end
    else acc) (Ok EmptyString) ms.

(** [cmd/deploy/main.go:80-102 main] *)
Definition loadBytecode (artifactPath : string) : M site bytes := fun w =>
  (match si_files (w_chain w) artifactPath with
   | None => Err (EMsg "read artifact")
   | Some (BText (JObj ms) false) =>
       res_bind (bytecode_field ms) (fun object =>
       match hex_decode (trim_prefix "0x" object) with Some b => Ok b | None => Err (EMsg "decode bytecode") end)
   | Some (BText JNull false) => Ok []
   | Some _ => Err (EMsg "parse artifact")
   end, w).

(** ** The tools *)

(** One deployment: sent, mined, not reverted.
    [cmd/deploy/main.go:114-129 main] *)
Definition deploy_one (from chainID : Z) (code : bytes) (args : ctor_args) : M site addr :=
  let! sent := chain_call (DeployContract from chainID code args) in
  let '(a, x) := sent in
  let! status := chain_call (mined_creation from a x) in
  if status then ret a else fail (EMsg "deploy tx reverted").

Definition IMPL_ARTIFACT : string := "contracts/out/SandboxServing.sol/SandboxServing.json".
Definition BEACON_ARTIFACT : string := "contracts/out/UpgradeableBeacon.sol/UpgradeableBeacon.json".
Definition PROXY_ARTIFACT : string := "contracts/out/BeaconProxy.sol/BeaconProxy.json".

(** The registry and the deployer; dialling asks nobody.
    [cmd/deploy/main.go:35-78 main] *)
Definition deploy_flags (keyHex tappHex : string) : res (addr * addr) :=
  if bool_decide (keyHex = EmptyString) then Err (EMsg "--key is required")
  else if bool_decide (tappHex = EmptyString) then Err (EMsg "--tapp is required (TappRegistry must be deployed first)")
  else
    let tappAddr := hex_to_address tappHex in
    res_bind (HexToECDSA (trim_prefix "0x" keyHex)) (fun privKey => Ok (tappAddr, key_addr privKey)).

(** The implementation, the beacon, the proxy. [cmd/deploy/main.go:104-224 main] *)
Definition deploy_main (keyHex : string) (chainID : Z) (tappHex : string) : M site (addr * addr * addr) :=
  let! flags := lift_res (deploy_flags keyHex tappHex) in
  let '(tappAddr, deployer) := flags in
  let! implBytecode := loadBytecode IMPL_ARTIFACT in
  let! implAddr := deploy_one deployer chainID implBytecode NoArgs in
  let! beaconBytecode := loadBytecode BEACON_ARTIFACT in
  let! beaconAddr := deploy_one deployer chainID beaconBytecode (BeaconArgs implAddr deployer) in
  let initCalldata := DServing (EInitialize tappAddr) in
  let! proxyBytecode := loadBytecode PROXY_ARTIFACT in
  let! proxyAddr := deploy_one deployer chainID proxyBytecode (ProxyArgs beaconAddr initCalldata) in
  ret (implAddr, beaconAddr, proxyAddr).

(** [cmd/upgrade/main.go:45-78 main] *)
Definition upgrade_flags (keyHex proxyHex beaconHex : string) : res addr :=
  if bool_decide (keyHex = EmptyString) then Err (EMsg "--key is required")
  else if bool_decide (proxyHex = EmptyString) && bool_decide (beaconHex = EmptyString) then Err (EMsg "--proxy or --beacon is required")
  else res_bind (HexToECDSA (trim_prefix "0x" keyHex)) (fun privKey => Ok (key_addr privKey)).

(** [cmd/upgrade/main.go:80-97 main] *)
Definition resolve_beacon (proxyHex beaconHex : string) : M site addr :=
  if negb (bool_decide (proxyHex = EmptyString)) then chain_call (beaconSlot_of (hex_to_address proxyHex))
  else ret (hex_to_address beaconHex).

(** The new implementation and the beacon. [cmd/upgrade/main.go:99-202 main] *)
Definition upgrade_main (keyHex : string) (chainID : Z) (proxyHex beaconHex : string) : M site (addr * addr) :=
  let! deployer := lift_res (upgrade_flags keyHex proxyHex beaconHex) in
  let! beaconAddr := resolve_beacon proxyHex beaconHex in
  let! bytecode := loadBytecode IMPL_ARTIFACT in
  let! newImplAddr := deploy_one deployer chainID bytecode NoArgs in
  let! _ := chain_call (bound_send deployer chainID beaconAddr (DUpgradeTo newImplAddr)) in
  let! status := chain_call (mined_call deployer beaconAddr (DUpgradeTo newImplAddr)) in
  if negb status then fail (EMsg "upgradeTo tx reverted")
  else
    let! currentImpl := chain_call (read_implementation beaconAddr) in
    if negb (currentImpl =? newImplAddr) then fail (EMsg "verification failed")
    else ret (newImplAddr, beaconAddr).

End Site.

#[global] Arguments turn : clear implicits.
#[global] Arguments site : clear implicits.

(** ** Histories around the tools *)

Section Tools.
Context `{Keccak} `{Ecrecover} {R : Type} `{TappRegistry R} `{!OtherCode R} `{!OtherView R} `{!Bytecode} `{!CreateAddress}.
Context `{SimpleFold} `{Ecdsa} `{SecpKeys}.
Implicit Types (s : site R) (W : world (site R)).

Definition turn_ok (P : wstep R -> Prop) (t : turn R) : Prop := match t with Others l => Forall P (wall_steps l) | Dropped => True end.

(** What others did before [enquire] got an answer. *)
Lemma enquire_inv {A} (f : site R -> res A * site R) s r s' P : Forall (turn_ok P) (si_future s) -> enquire f s = (r, s') ->
  (exists l rest, Forall P (wall_steps l) /\ Forall (turn_ok P) rest /\ f (si_with (wrun l (si_stack s)) rest s) = (r, s')) \/
  (exists rest, r = Err EIO /\ Forall (turn_ok P) rest /\ s' = si_with (si_stack s) rest s).
Proof.
  intros Hp Ha. unfold enquire in Ha. destruct (si_future s) as [|[l|] rest] eqn:E.
  - left. exists [], []. split; [constructor|]. split; [done|]. destruct s. cbn in *. by subst.
  - inversion_clear Hp. left. by exists l, rest.
  - inversion_clear Hp. right. injection Ha as <- <-. by exists rest.
Qed.

(** The build's artifacts are what they are named after. *)
Record built (files : string -> option body) : Prop := {
  bu_impl : forall W code w', si_files (w_chain W) = files -> loadBytecode IMPL_ARTIFACT W = (Ok code, w') -> creation_of code NoArgs = Some NewServing;
  bu_beacon : forall W code w' i o, si_files (w_chain W) = files -> loadBytecode BEACON_ARTIFACT W = (Ok code, w') ->
    creation_of code (BeaconArgs i o) = Some (NewBeacon i o);
  bu_proxy : forall W code w' b d, si_files (w_chain W) = files -> loadBytecode PROXY_ARTIFACT W = (Ok code, w') ->
    creation_of code (ProxyArgs b d) = Some (NewProxy b (Some d))
}.

Lemma loadBytecode_Ok path W code W' : loadBytecode path W = (Ok code, W') -> W' = W.
Proof. unfold loadBytecode. by intros [= _ <-]. Qed.

(** ** A step of a tool *)

Section Step.
Variable P : wstep R -> Prop.

(** A deployment that succeeded: the contract is created after what others did
    before it was sent and before it was mined. *)
Lemma deploy_one_Ok from chainID code args W a W' :
  Forall (turn_ok P) (si_future (w_chain W)) -> deploy_one from chainID code args W = (Ok a, W') ->
  exists l w', Forall P (wall_steps l) /\
    lands (env_at from a (w_chain W)) (creation_of code args) (wrun l (si_stack (w_chain W))) = Ok w' /\
    si_stack (w_chain W') = w' /\ si_chainid (w_chain W') = si_chainid (w_chain W) /\ si_files (w_chain W') = si_files (w_chain W) /\
    Forall (turn_ok P) (si_future (w_chain W')).
Proof.
  intros Hf He. unfold deploy_one in He. apply bind_Ok in He as ([a0 x] & W1 & E1 & He). apply bind_Ok in He as (status & W2 & E2 & He).
  destruct status; [|done]. injection He as <- <-. unfold chain_call in E1, E2.
  destruct (DeployContract from chainID code args (w_chain W)) as [r1 s1] eqn:D1. injection E1 as -> <-.
  destruct (mined_creation from a0 x (w_chain (set_chain s1 W))) as [r2 s2] eqn:D2. injection E2 as -> <-.
  apply (enquire_inv _ _ _ _ P Hf) in D1 as [(l1 & rest1 & Hl1 & Hr1 & D1)|(? & [=] & _)].
  cbv zeta in D1. match type of D1 with context [lands ?e ?x ?w] => destruct (lands e x w) as [w1|m|] eqn:L1; [|done..] end.
  destruct (chainID =? _); [|done]. injection D1 as <- <- <-.
  cbn [w_chain set_chain] in D2.
  apply (enquire_inv _ _ _ _ P) in D2 as [(l2 & rest2 & Hl2 & Hr2 & D2)|(? & [=] & _)]; [|done].
  match type of D2 with context [lands ?e ?x ?w] => destruct (lands e x w) as [w2|m|] eqn:L2; [|done..] end. injection D2 as <-. cbn [w_chain set_chain si_with si_next si_stack si_chainid si_files si_future] in *.
  exists (l1 ++ l2), w2. split; [unfold wall_steps; rewrite fmap_app, concat_app; by apply Forall_app|].
  split; [|done]. unfold wrun in *. rewrite foldl_app. exact L2.
Qed.
End Step.

(** ** Deployment *)

(** A step that the key does not sign. *)
Definition not_from (a : addr) (x : wstep R) : Prop :=
  match x with XCall e _ | XCreate e _ => msg_sender e <> a | _ => True end.

Lemma not_from_owner a bc impls x : not_from a x -> owner_step bc impls {[a]} x.
Proof. destruct x as [e []| | |]; cbn; try done; [destruct c; try done|]; by intros Hn _ Hin%elem_of_singleton. Qed.

(** What a proxy's constructor leaves when it initializes the contract. *)
Lemma new_proxy_initializes e beacon tapp w : _implementation w beacon = TServing -> msg_value e = 0 ->
  forall w', new_proxy e beacon (Some (DServing (EInitialize tapp))) nobody true w = Ok w' ->
  tapp <> 0 /\ w' = put (this e) (mkAccount (KProxy beacon) (set_initialized (domain_separator_of (chainid e) (this e)) (msg_sender e) tapp blank) 0 []) w.
Proof.
  intros Ht Hv w'. unfold new_proxy. destruct (negb (has_code w beacon)); [done|]. rewrite Ht. unfold delegated.
  destruct (negb (typed _) || _); [done|]. cbn [st eth reg evs]. rewrite Hv, Z.add_0_r. cbn [enter]. unfold initialize.
  destruct (Z.eqb_spec tapp 0) as [->|Hne].
  - unfold sread, mbind, tx_bind. cbn. by intros [= <-] || done.
  - rewrite sread_bind, !require_bind by done. unfold swrite. cbn [st eth reg evs]. intros [= <-]. by split.
Qed.

Lemma lands_serving e w w' : lands e (Some NewServing) w = Ok w' ->
  accounts w !! this e = None /\ w' = put (this e) (mkAccount KServing implementation_storage 0 []) w.
Proof.
  cbn [lands]. unfold construct, has_code. destruct (accounts w !! this e); [done|]. case_match; [|done]. by intros [= <-].
Qed.

Lemma lands_beacon e i o w w' : lands e (Some (NewBeacon i o)) w = Ok w' ->
  accounts w !! this e = None /\ w' = put (this e) (mkAccount (KBeacon (mkBeacon i o [BeaconOwner 0 o; Upgraded i])) blank 0 []) w.
Proof.
  cbn [lands]. unfold construct, has_code. destruct (accounts w !! this e); [done|]. case_match; [|done].
  unfold new_beacon. repeat (case_match; [done|]). by intros [= <-].
Qed.

Lemma lands_proxy e b tapp w w' : lands e (Some (NewProxy b (Some (DServing (EInitialize tapp))))) w = Ok w' ->
  accounts w !! this e = None /\ new_proxy e b (Some (DServing (EInitialize tapp))) nobody true w = Ok w'.
Proof. cbn [lands]. unfold construct, has_code. destruct (accounts w !! this e); [done|]. by split. Qed.

(** C26: Deploying yields the settlement contract, initialized once and for the
    deployer.  If the deployment tool reports three addresses, whatever others
    did meanwhile without the deployer's key: the proxy is there, reads the
    reported beacon and holds a fresh contract, initialized for the deployer as
    its owner, for the registry given, which is not zero, and for signatures
    bound to this chain and to the proxy's own address; the beacon names the
    reported implementation, which has the settlement code, and belongs to the
    deployer. *)
Theorem deploy_yields_contract keyHex chainID tappHex W impl bc proxy W' key :
  let deployer := key_addr key in
  let tapp := hex_to_address tappHex in
  built (si_files (w_chain W)) -> HexToECDSA (trim_prefix "0x" keyHex) = Ok key ->
  Forall (turn_ok (not_from deployer)) (si_future (w_chain W)) ->
  deploy_main keyHex chainID tappHex W = (Ok (impl, bc, proxy), W') ->
  let w := si_stack (w_chain W') in
  tapp <> 0 /\
  accounts w !! proxy = Some (mkAccount (KProxy bc)
    (set_initialized (domain_separator_of (si_chainid (w_chain W)) proxy) deployer tapp blank) 0 []) /\
  wired proxy bc {[impl]} {[deployer]} w = true.
Proof.
  cbv zeta. intros Hb Hk Hf He. set (deployer := key_addr key) in *. unfold deploy_main in He.
  apply bind_Ok in He as (fl & W0 & E0 & He). unfold lift_res, deploy_flags in E0.
  destruct (bool_decide (keyHex = _)); [done|]. destruct (bool_decide (tappHex = _)); [done|]. rewrite Hk in E0.
  injection E0 as <- <-. fold deployer in He. cbv zeta in He.
  apply bind_Ok in He as (c1 & W1 & E1 & He). pose proof (loadBytecode_Ok _ _ _ _ E1) as ->.
  pose proof (bu_impl _ Hb _ _ _ eq_refl E1) as Hc1. apply bind_Ok in He as (i & W2 & E2 & He).
  apply (deploy_one_Ok (not_from deployer) _ _ _ _ _ _ _ Hf) in E2 as (l1 & w1 & Hl1 & L1 & Hw1 & Hid1 & Hfi1 & Hf1). rewrite Hc1 in L1.
  apply bind_Ok in He as (c2 & W3 & E3 & He). pose proof (loadBytecode_Ok _ _ _ _ E3) as ->. rewrite <- Hfi1 in Hb.
  pose proof (bu_beacon _ Hb _ _ _ i deployer eq_refl E3) as Hc2. apply bind_Ok in He as (b & W4 & E4 & He).
  apply (deploy_one_Ok (not_from deployer) _ _ _ _ _ _ _ Hf1) in E4 as (l2 & w2 & Hl2 & L2 & Hw2 & Hid2 & Hfi2 & Hf2). rewrite Hc2 in L2.
  apply bind_Ok in He as (c3 & W5 & E5 & He). pose proof (loadBytecode_Ok _ _ _ _ E5) as ->. rewrite <- Hfi2 in Hb.
  pose proof (bu_proxy _ Hb _ _ _ b (DServing (EInitialize (hex_to_address tappHex))) eq_refl E5) as Hc3.
  apply bind_Ok in He as (q & W6 & E6 & He). injection He as <- <- <- <-.
  apply (deploy_one_Ok (not_from deployer) _ _ _ _ _ _ _ Hf2) in E6 as (l3 & w3 & Hl3 & L3 & Hw3 & Hid3 & Hfi3 & Hf3). rewrite Hc3 in L3.
  apply lands_serving in L1 as [_ ->]. apply lands_beacon in L2 as [Hn2 ->]. apply lands_proxy in L3 as [Hn3 L3].
  set (v2 := wrun l2 _) in *. assert (ac_kind <$> accounts v2 !! i = Some KServing) as Hi2.
  { apply serving_run. rewrite Hw1, kind_put. by rewrite decide_True. }
  set (v3 := wrun l3 _) in *. assert (anchored b {[i]} {[deployer]} v3 = true) as Ha.
  { apply anchored_run; [eapply Forall_impl; [exact Hl3|]; intros x; apply not_from_owner|]. rewrite Hw2. apply anchored_spec. split.
    - eexists. rewrite kind_put, decide_True by done. split; [done|]. by rewrite !elem_of_singleton.
    - intros x ->%elem_of_singleton. rewrite kind_put. case_decide as E; [|done]. cbn in E, Hn2. by rewrite <- E, Hn2 in Hi2. }
  assert (_implementation v3 b = TServing) as Ht.
  { apply anchored_spec in Ha as [(bn & Hbn & Hbi & _) Hall]. unfold _implementation. by rewrite Hbn, (Hall _ Hbi). }
  destruct (new_proxy_initializes (env_at deployer q (w_chain W4)) b _ v3 Ht eq_refl _ L3) as [Hz ->]. cbn [this chainid msg_sender env_at] in Hw3. rewrite Hw3.
  split; [done|]. rewrite Hid2, Hid1. split; [unfold put; cbn; by rewrite lookup_insert_eq|].
  apply wired_spec. rewrite kind_put, decide_True by done. split; [done|]. cbn in Hn3.
  apply anchored_put; [done| |].
  - intros <-. apply anchored_spec in Ha as [(bn & Hbn & _) _]. by rewrite Hn3 in Hbn.
  - intros Hx. apply anchored_spec in Ha as [_ Hall]. apply Hall in Hx. by rewrite Hn3 in Hx.
Qed.

(** ** Upgrades *)

Section Upgrade.
Variables (proxy bc : addr) (impls keys : gset addr) (u p : addr) (sep : bytes) (w0 : stack R) (files : string -> option body).

(** Others leave the beacon to its keys and [u]'s money with [p] alone. *)
Definition others_step (x : wstep R) : Prop := owner_step bc impls keys x /\ stranger proxy u p sep x.

(** The proxy is wired to a beacon with at least these implementations, and the
    money is where it was. *)
Record intact (more : gset addr) s : Prop := {
  it_wired : wired proxy bc (more ∪ impls) keys (si_stack s) = true;
  it_preserved : preserved proxy u p sep w0 (si_stack s);
  it_future : Forall (turn_ok others_step) (si_future s);
  it_files : si_files s = files
}.

Lemma intact_run more s l rest : intact more s -> Forall others_step (wall_steps l) -> Forall (turn_ok others_step) rest ->
  intact more (si_with (wrun l (si_stack s)) rest s).
Proof.
  intros [Hw Hp Hf Hfi] Hl Hr. apply Forall_and in Hl as [Ho Hs].
  destruct (preserved_run proxy bc (more ∪ impls) keys u p sep l (si_stack s) Hw) as [Hw' Hp']; [|done|].
  - eapply Forall_impl; [exact Ho|]. intros x. apply owner_step_grow. set_solver.
  - split; [done|by eapply preserved_trans|done|done].
Qed.

(** What holds of the answer to a request, and of a failure, holds of asking. *)
Lemma intact_enquire {A} (f : site R -> res A * site R) more (Q : res A * site R -> Prop) s : intact more s ->
  (forall s, intact more s -> Q (f s)) -> (forall s, intact more s -> Q (Err EIO, s)) -> Q (enquire f s).
Proof.
  intros Hi Hf Hd. destruct (enquire f s) as [r s'] eqn:E. pose proof (it_future _ _ Hi) as Ht.
  apply (enquire_inv _ _ _ _ others_step Ht) in E as [(l & rest & Hl & Hr & <-)|(rest & -> & Hr & ->)].
  - apply Hf. by apply intact_run.
  - apply Hd. destruct Hi. by split.
Qed.

(** The tool's own steps. *)
Lemma intact_act more s a : intact more s -> owner_step bc (more ∪ impls) keys a -> stranger proxy u p sep a ->
  forall b, wsteps_of b = [a] -> intact more (si_with (wexec b (si_stack s)) (si_future s) s).
Proof.
  intros [Hw Hp Hf Hfi] Ho Hs b Hb. change (wexec b (si_stack s)) with (wrun [b] (si_stack s)).
  assert (wall_steps [b] = [a]) as Hab by (unfold wall_steps; cbn; by rewrite Hb).
  destruct (preserved_run proxy bc (more ∪ impls) keys u p sep [b] (si_stack s) Hw) as [Hw' Hp']; [rewrite Hab; by constructor..|].
  split; [done|by eapply preserved_trans|done|done].
Qed.

(** However a step of the tool ends. *)
Definition ends {A} (m : M (site R) A) (more : gset addr) (Q : A -> world (site R) -> Prop) : Prop := forall W,
  intact more (w_chain W) ->
  match m W with
  | (Ok a, W') => Q a W'
  | (_, W') => exists more', intact more' (w_chain W')
  end.

Lemma ends_bind {A B} (m : M (site R) A) (k : A -> M (site R) B) more Q Q' :
  ends m more Q -> (forall a W, Q a W -> match k a W with (Ok b, W') => Q' b W' | (_, W') => exists more', intact more' (w_chain W') end) ->
  ends (bind m k) more Q'.
Proof. intros Hm Hk W Hi. specialize (Hm W Hi). unfold bind. destruct (m W) as [[a|e|] W']; [by apply Hk|done..]. Qed.

Lemma ends_call {A} (f : site R -> res A * site R) more (Q : A -> site R -> Prop) :
  (forall s, intact more s -> match f s with (Ok a, s') => Q a s' | (_, s') => intact more s' end) ->
  ends (chain_call (enquire f)) more (fun a W => Q a (w_chain W)).
Proof.
  intros Hf W Hi. unfold chain_call.
  enough (match enquire f (w_chain W) with (Ok a, s') => Q a s' | (_, s') => intact more s' end) as E.
  { destruct (enquire f (w_chain W)) as [[a|e|] s']; cbn; [exact E|by exists more..]. }
  apply (intact_enquire f more (fun rs => match rs with (Ok a, s') => Q a s' | (_, s') => intact more s' end)); done.
Qed.

(** A deployment of the settlement code. *)
Lemma ends_deploy_one from chainID code more : creation_of code NoArgs = Some NewServing ->
  ends (deploy_one from chainID code NoArgs) more (fun a W => intact ({[a]} ∪ more) (w_chain W)).
Proof.
  intros Hc. unfold deploy_one. eapply ends_bind.
  - apply (ends_call _ more (fun ax s => ax.2 = Some NewServing /\ intact more s)). intros s Hi. cbv zeta. rewrite Hc.
    destruct (lands _ _ _); [|done..]. destruct (chainID =? si_chainid s); [|done]. split; [done|]. by destruct Hi.
  - intros [a x] W [Hx Hi]. cbn [snd] in Hx. subst x. revert W Hi. change (ends (let! status := chain_call (mined_creation from a (Some NewServing)) in
      if status then ret a else fail (EMsg "deploy tx reverted")) more (fun a W => intact ({[a]} ∪ more) (w_chain W))).
    eapply ends_bind.
    + apply (ends_call _ more (fun status s => intact (if status : bool then {[a]} ∪ more else more) s)). intros s Hi.
      destruct (lands _ _ _) as [w|m|] eqn:L; [|done..].
      pose proof (intact_act more s (XCreate (env_at from a s) NewServing) Hi I I (WCreate (env_at from a s) NewServing [] true) eq_refl) as Hx.
      cbn [wexec] in Hx. unfold create in Hx.
      change (construct _ _ _ _ _) with (lands (env_at from a s) (Some NewServing) (si_stack s)) in Hx. rewrite L in Hx.
      destruct Hx as [Hw Hp Hf Hfi]. split; [|done..]. apply lands_serving in L as [_ ->]. rewrite <- (assoc_L (∪)).
      apply wired_grow; [|done]. cbn [si_stack si_with]. by rewrite kind_put, decide_True.
    + intros [] W Hi; cbn; [exact Hi|by exists more].
Qed.

(** The call of the beacon. *)
Lemma ends_upgrade from b new more : new ∈ more -> ends (chain_call (mined_call from b (DUpgradeTo new))) more (fun _ W => intact more (w_chain W)).
Proof.
  intros Hn. apply (ends_call _ more (fun _ s => intact more s)). intros s Hi.
  apply (intact_act more s (XCall (env_at from b s) (DUpgradeTo new)) Hi) with (b := WCall (env_at from b s) (DUpgradeTo new) [] true); [|done|done].
  intros _ _. by apply elem_of_union_l.
Qed.

Lemma ends_read {A} (f : site R -> res A) more : ends (chain_call (enquire (fun s => (f s, s)))) more (fun _ W => intact more (w_chain W)).
Proof. apply (ends_call _ more (fun _ s => intact more s)). intros s Hi. by destruct (f s). Qed.

Lemma ends_send from chainID b d more : ends (chain_call (bound_send from chainID b d)) more (fun _ W => intact more (w_chain W)).
Proof. apply (ends_call _ more (fun _ s => intact more s)). intros s Hi.
  destruct (negb (has_code _ _)); [done|]. destruct (negb (returns _ _ _)); [done|]. destruct (chainID =? _); [|done]. by destruct Hi.
Qed.

Lemma ends_weaken {A} (m : M (site R) A) more (Q Q' : A -> world (site R) -> Prop) :
  (forall a W, Q a W -> Q' a W) -> ends m more Q -> ends m more Q'.
Proof. intros HQ Hm W Hi. specialize (Hm W Hi). destruct (m W) as [[a|e|] W']; [by apply HQ|done..]. Qed.

Lemma ends_fail {A} e more (Q : A -> world (site R) -> Prop) : ends (fail e) more Q.
Proof. intros W Hi. by exists more. Qed.

Lemma ends_ret {A} (a : A) more : ends (ret a) more (fun b W => b = a /\ intact more (w_chain W)).
Proof. by intros W Hi. Qed.

Lemma ends_lift {A B} (x : res A) (k : A -> M (site R) B) more Q : (forall a, x = Ok a -> ends (k a) more Q) -> ends (bind (lift_res x) k) more Q.
Proof. intros Hk W Hi. unfold bind, lift_res. destruct x as [a|e|]; [by apply Hk|by exists more..]. Qed.

Lemma ends_seq {A B} (m : M (site R) A) (k : A -> M (site R) B) more (more' : A -> gset addr) Q :
  ends m more (fun a W => intact (more' a) (w_chain W)) -> (forall a, ends (k a) (more' a) Q) -> ends (bind m k) more Q.
Proof. intros Hm Hk. eapply ends_bind; [exact Hm|]. intros a W Hi. exact (Hk a W Hi). Qed.

Lemma ends_load {B} path (k : bytes -> M (site R) B) more Q :
  (forall code W w', si_files (w_chain W) = files -> loadBytecode path W = (Ok code, w') -> ends (k code) more Q) ->
  ends (bind (loadBytecode path) k) more Q.
Proof.
  intros Hk W Hi. unfold bind. destruct (loadBytecode path W) as [[code|e|] W'] eqn:E.
  - pose proof (loadBytecode_Ok _ _ _ _ E) as ->. exact (Hk code W W (it_files _ _ Hi) E W Hi).
  - unfold loadBytecode in E. injection E as _ <-. by exists more.
  - unfold loadBytecode in E. injection E as _ <-. by exists more.
Qed.

(** However an upgrade ends. *)
Lemma upgrade_ends keyHex chainID proxyHex beaconHex :
  built files -> ends (upgrade_main keyHex chainID proxyHex beaconHex) ∅ (fun _ W => exists more, intact more (w_chain W)).
Proof.
  intros Hb. unfold upgrade_main. apply ends_lift. intros deployer _.
  apply (ends_seq _ _ ∅ (fun _ => ∅)).
  { unfold resolve_beacon. destruct (negb _); [apply ends_read|]. eapply ends_weaken; [|apply ends_ret]. by intros a W [_ Hi]. }
  intros b. apply ends_load. intros code W w' Hf E. pose proof (bu_impl _ Hb W code w' Hf E) as Hc.
  apply (ends_seq _ _ _ (fun new => {[new]} ∪ ∅)); [by apply ends_deploy_one|].
  intros new. apply (ends_seq _ _ _ (fun _ => {[new]} ∪ ∅)); [apply ends_send|]. intros _.
  apply (ends_seq _ _ _ (fun _ => {[new]} ∪ ∅)); [apply ends_upgrade; set_solver|]. intros status.
  destruct (negb status); [apply ends_fail|]. apply (ends_seq _ _ _ (fun _ => {[new]} ∪ ∅)); [apply ends_read|].
  intros current. destruct (negb _); [apply ends_fail|]. eapply ends_weaken; [|apply ends_ret]. intros a W0 [_ Hi]. by eexists.
Qed.
End Upgrade.

(** C27: An upgrade leaves everybody's money where it is, however it ends.  Run by
    whoever, against a proxy or a beacon of whatever address, while others act in
    between and requests fail: if before it the proxy was wired to its beacon,
    the beacon's keys being used for nothing but upgrades to the settlement code,
    then so it is afterwards, at most with one more implementation; the ether
    still covers what it did, and a user that neither called nor had a voucher
    signed by the provider has with it what it had. *)
Theorem upgrade_keeps_money keyHex chainID proxyHex beaconHex W proxy bc impls keys u p :
  let w := si_stack (w_chain W) in
  let w' := si_stack (w_chain (upgrade_main keyHex chainID proxyHex beaconHex W).2) in
  let sep := s_domainSeparator (storage_at proxy w) in
  built (si_files (w_chain W)) -> wired proxy bc impls keys w = true ->
  Forall (turn_ok (others_step proxy bc impls keys u p sep)) (si_future (w_chain W)) ->
  (exists more, wired proxy bc (more ∪ impls) keys w' = true) /\
  (solvent (view_at proxy w) -> solvent (view_at proxy w') /\ surplus (view_at proxy w) <= surplus (view_at proxy w')) /\
  (s_initialized (storage_at proxy w) = true -> held u p (storage_at proxy w) (storage_at proxy w')).
Proof.
  cbv zeta. intros Hb Hw Hf. set (w := si_stack (w_chain W)) in *. set (sep := s_domainSeparator (storage_at proxy w)) in *.
  assert (exists more, intact proxy bc impls keys u p sep w (si_files (w_chain W)) more
    (w_chain (upgrade_main keyHex chainID proxyHex beaconHex W).2)) as (more & [Hw' [Hs Hp] _ _]).
  { pose proof (upgrade_ends proxy bc impls keys u p sep w _ keyHex chainID proxyHex beaconHex Hb W) as He.
    destruct (upgrade_main keyHex chainID proxyHex beaconHex W) as [[a|e|] W'] eqn:E; apply He;
      (split; [by rewrite union_empty_l_L|apply preserved_refl|exact Hf|done]). }
  split; [by exists more|]. split; [exact Hs|]. intros Hi. apply Hp. by split.
Qed.
(** ** Undisturbed runs *)

(** A world whose site has another chain, [n] transactions of the key later. *)
Definition site_at (w : stack R) (n : Z) W : world (site R) :=
  let s := w_chain W in set_chain (mkSite w (si_nonce s + n) (si_chainid s) (si_now s) (si_files s) []) W.

Lemma site_at_twice w1 w2 n m W : site_at w2 m (site_at w1 n W) = site_at w2 (n + m) W.
Proof. unfold site_at. cbn. by rewrite Z.add_assoc. Qed.

Lemma deploy_one_now from chainID code args W a w' :
  si_future (w_chain W) = [] -> chainID = si_chainid (w_chain W) -> a = create_address from (si_nonce (w_chain W)) ->
  lands (env_at from a (w_chain W)) (creation_of code args) (si_stack (w_chain W)) = Ok w' ->
  deploy_one from chainID code args W = (Ok a, site_at w' 1 W).
Proof.
  intros Hf -> -> L. unfold deploy_one, bind, chain_call, DeployContract, mined_creation, enquire. rewrite Hf. cbv zeta. rewrite L, Z.eqb_refl.
  cbn [w_chain set_chain si_next si_future si_stack]. rewrite Hf.
  change (env_at from (create_address from (si_nonce (w_chain W))) (si_next (w_chain W))) with (env_at from (create_address from (si_nonce (w_chain W))) (w_chain W)).
  rewrite L. unfold site_at, si_with, si_next. cbn. done.
Qed.

Lemma load_now path W code W' : loadBytecode path W = (Ok code, W') -> forall w n, loadBytecode path (site_at w n W) = (Ok code, site_at w n W).
Proof. unfold loadBytecode. intros [= E _] w n. cbn. by rewrite E. Qed.

Lemma lands_serving_now e w : accounts w !! this e = None -> msg_value e = 0 ->
  lands e (Some NewServing) w = Ok (put (this e) (mkAccount KServing implementation_storage 0 []) w).
Proof. intros Hn Hv. cbn [lands]. unfold construct, has_code. by rewrite Hn, Hv. Qed.

Lemma lands_beacon_now e i o w : accounts w !! this e = None -> msg_value e = 0 -> has_code w i = true -> o <> 0 ->
  lands e (Some (NewBeacon i o)) w = Ok (put (this e) (mkAccount (KBeacon (mkBeacon i o [BeaconOwner 0 o; Upgraded i])) blank 0 []) w).
Proof.
  intros Hn Hv Hc Ho. cbn [lands]. unfold construct, new_beacon. unfold has_code at 1. rewrite Hn, Hv, Hc. cbn [negb Z.eqb].
  by rewrite (proj2 (Z.eqb_neq o 0) Ho).
Qed.

Lemma lands_proxy_now e b tapp w : accounts w !! this e = None -> msg_value e = 0 -> _implementation w b = TServing ->
  address_ok tapp = true -> tapp <> 0 ->
  lands e (Some (NewProxy b (Some (DServing (EInitialize tapp))))) w =
  Ok (put (this e) (mkAccount (KProxy b) (set_initialized (domain_separator_of (chainid e) (this e)) (msg_sender e) tapp blank) 0 []) w).
Proof.
  intros Hn Hv Ht Hok Hz. cbn [lands]. unfold construct, new_proxy. unfold has_code at 1. rewrite Hn.
  assert (has_code w b = true) as ->. { unfold has_code. unfold _implementation in Ht. by destruct (accounts w !! b). }
  cbn [negb]. rewrite Ht. unfold delegated. cbn [typed payable negb andb]. rewrite Hok, Hv. cbn [negb orb Z.eqb enter st eth reg evs Z.add].
  unfold initialize. rewrite sread_bind, !require_bind; [done|by apply negb_true_iff, Z.eqb_neq|done].
Qed.

Section Quiet.
Variables (W : world (site R)) (keyHex : string) (chainID key : Z).
Let s := w_chain W.
Let w := si_stack s.
Let deployer := key_addr key.
Hypothesis quiet_site : si_future s = [].
Hypothesis key_given : keyHex <> EmptyString.
Hypothesis key_read : HexToECDSA (trim_prefix "0x" keyHex) = Ok key.
Hypothesis chain_given : chainID = si_chainid s.
Hypothesis artifacts : built (si_files s).

Definition new_address (n : Z) : addr := create_address deployer (si_nonce s + n).

(** An initialized account refuses to be initialized. *)
Lemma initialize_refused e r f ok w1 a : accounts w1 !! this e = Some a -> ac_kind a = KServing -> s_initialized (ac_st a) = true ->
  call e (DServing (EInitialize r)) f ok w1 = w1.
Proof.
  intros Ha Hk Hi. unfold call. rewrite Ha, Hk, (deliver_message _ _ _ _ _ _ a) by done.
  enough (message e (paid_at (this e) KServing f ok) (EInitialize r) (view_at (this e) w1) = view_at (this e) w1) as -> by by eapply close_view.
  destruct (message_cases e (paid_at (this e) KServing f ok) (EInitialize r) (view_at (this e) w1)) as [->|(_ & _ & E)]; [done|].
  cbn [enter] in E. unfold initialize in E. rewrite sread_bind in E. cbn [st] in E. unfold view_at at 1 in E. rewrite Ha in E. cbn [st] in E.
  by rewrite Hi in E.
Qed.

(** The beacon called, and read back. *)
Lemma upgraded_now w1 b new ab bn bn' : accounts w1 !! b = Some ab -> ac_kind ab = KBeacon bn -> b_implementation bn' = new ->
  (forall e, this e = b -> msg_value e = 0 -> msg_sender e = deployer -> beacon_call w1 e (DUpgradeTo new) bn = Ok bn') ->
  bind (chain_call (bound_send deployer chainID b (DUpgradeTo new))) (fun _ =>
    bind (chain_call (mined_call deployer b (DUpgradeTo new))) (fun status =>
      if negb status then fail (EMsg "upgradeTo tx reverted")
      else bind (chain_call (read_implementation b)) (fun currentImpl =>
        if negb (currentImpl =? new) then fail (EMsg "verification failed") else ret (new, b)))) (site_at w1 1 W) =
  (Ok (new, b), site_at (put b (mkAccount (KBeacon bn') (ac_st ab) (ac_eth ab) (ac_evs ab)) w1) 2 W).
Proof.
  intros Hb Hk Hi Hc. set (w2 := put b _ w1). rewrite (bind_ok _ _ _ tt (site_at w1 2 W)).
  2: { unfold chain_call, bound_send, enquire. cbn [w_chain set_chain site_at si_future si_stack si_chainid]. unfold has_code, returns.
       cbn [this env_at]. rewrite Hb, Hk, Hc by done. cbn [negb]. rewrite chain_given, Z.eqb_refl. unfold site_at, si_next. cbn. by rewrite <- Z.add_assoc. }
  rewrite (bind_ok _ _ _ true (site_at w2 2 W)).
  2: { unfold chain_call, mined_call, enquire. cbn [w_chain set_chain site_at si_future si_stack si_chainid]. unfold returns, call.
       cbn [this env_at]. rewrite Hb, Hk, Hc by done. done. }
  cbn [negb]. rewrite (bind_ok _ _ _ new (site_at w2 2 W)); [by rewrite Z.eqb_refl|].
  unfold chain_call, read_implementation, enquire. cbn [w_chain set_chain site_at si_future si_stack].
  unfold w2 at 1, put. cbn [accounts]. rewrite lookup_insert_eq. cbn. by rewrite Hi.
Qed.

(** An upgrade by the beacon's owner takes effect.  Run undisturbed with the key
    that owns the beacon of a proxy, with the settlement code as the artifact and
    a free address for the new contract: the tool succeeds, the beacon names the
    new implementation, which has the settlement code and cannot be initialized,
    so that is what the proxy now runs, and no other account has changed: the
    proxy's storage, ether and log are what they were, and the beacon's owner is
    still the same. *)
Theorem upgrade_takes_effect proxyHex beaconHex code b ab ap :
  let proxy := hex_to_address proxyHex in
  let new := new_address 0 in
  proxyHex <> EmptyString -> loadBytecode IMPL_ARTIFACT W = (Ok code, W) ->
  accounts w !! proxy = Some ap -> ac_kind ap = KProxy b ->
  forall bn, accounts w !! b = Some ab -> ac_kind ab = KBeacon bn -> b_owner bn = deployer ->
  accounts w !! new = None -> address_ok new = true ->
  exists w' bn', upgrade_main keyHex chainID proxyHex beaconHex W = (Ok (new, b), site_at w' 2 W) /\
    accounts w' !! b = Some (mkAccount (KBeacon bn') (ac_st ab) (ac_eth ab) (ac_evs ab)) /\
    b_implementation bn' = new /\ b_owner bn' = deployer /\
    accounts w' !! new = Some (mkAccount KServing implementation_storage 0 []) /\
    (forall e r f ok, this e = new -> call e (DServing (EInitialize r)) f ok w' = w') /\
    _implementation w' b = TServing /\
    forall x, x <> b -> x <> new -> accounts w' !! x = accounts w !! x.
Proof.
  cbv zeta. intros Hpx El Hp Hpk bn Hb Hbk Ho Hn Hok. set (proxy := hex_to_address proxyHex) in *. set (new := new_address 0) in *.
  set (w1 := put new (mkAccount KServing implementation_storage 0 []) w).
  set (bn' := mkBeacon new deployer (b_events bn ++ [Upgraded new])).
  set (w2 := put b (mkAccount (KBeacon bn') (ac_st ab) (ac_eth ab) (ac_evs ab)) w1).
  assert (b <> new) as Hne by (intros ->; by rewrite Hn in Hb).
  assert (accounts w1 !! b = Some ab) as Hb1 by (unfold w1, put; cbn; by rewrite lookup_insert_ne by done).
  assert (accounts w1 !! new = Some (mkAccount KServing implementation_storage 0 [])) as Hn1 by (unfold w1, put; cbn; by rewrite lookup_insert_eq).
  assert (accounts w2 !! new = accounts w1 !! new) as Hn2 by (unfold w2, put; cbn; by rewrite lookup_insert_ne).
  assert (accounts w2 !! b = Some (mkAccount (KBeacon bn') (ac_st ab) (ac_eth ab) (ac_evs ab))) as Hb2 by (unfold w2, put; cbn; by rewrite lookup_insert_eq).
  assert (forall e, this e = b -> msg_value e = 0 -> msg_sender e = deployer -> beacon_call w1 e (DUpgradeTo new) bn = Ok bn') as Hc.
  { intros e He Hv Hs. unfold beacon_call, upgradeTo, has_code. rewrite Hv, Hok, Hs, Ho, Hn1, !Z.eqb_refl. done. }
  exists w2, bn'. split_and!; try done; [|by rewrite Hn2|intros e r f ok He; eapply initialize_refused; [rewrite He, Hn2; exact Hn1|done|done]| |].
  - unfold upgrade_main. rewrite (bind_ok _ _ W deployer W).
    2: { unfold lift_res, upgrade_flags. by rewrite (bool_decide_false _ key_given), (bool_decide_false _ Hpx), key_read. }
    rewrite (bind_ok _ _ W b W).
    2: { unfold resolve_beacon. rewrite (bool_decide_false _ Hpx). cbn [negb]. unfold chain_call, beaconSlot_of, enquire. fold s. rewrite quiet_site. fold w proxy. rewrite Hp. cbn. rewrite Hpk. unfold s. by rewrite set_chain_same. }
    rewrite (bind_ok _ _ W code W) by done.
    rewrite (bind_ok _ _ W new (site_at w1 1 W)).
    2: { apply deploy_one_now; [done|done|unfold new, new_address; by rewrite Z.add_0_r|].
         rewrite (bu_impl _ artifacts W code W eq_refl El). by apply lands_serving_now. }
    apply (upgraded_now w1 b new ab bn bn'); done.
  - unfold _implementation. rewrite Hb2. cbn [fmap option_fmap option_map ac_kind]. change (b_implementation bn') with new. by rewrite Hn2, Hn1.
  - intros x Hxb Hxn. unfold w2, w1, put. cbn. by rewrite !lookup_insert_ne.
Qed.

(** Undisturbed, a deployment goes through.  With the build's artifacts, a
    non-zero registry and free addresses for the three contracts, the tool
    reports them, after three transactions. *)
Theorem deploy_completes tappHex ci cb cp :
  let tapp := hex_to_address tappHex in
  let impl := new_address 0 in let bc := new_address 1 in let proxy := new_address 2 in
  tappHex <> EmptyString -> tapp <> 0 -> deployer <> 0 ->
  loadBytecode IMPL_ARTIFACT W = (Ok ci, W) -> loadBytecode BEACON_ARTIFACT W = (Ok cb, W) -> loadBytecode PROXY_ARTIFACT W = (Ok cp, W) ->
  NoDup [impl; bc; proxy] -> Forall (fun x => accounts w !! x = None) [impl; bc; proxy] ->
  exists w', deploy_main keyHex chainID tappHex W = (Ok (impl, bc, proxy), site_at w' 3 W) /\
    forall x, x <> impl -> x <> bc -> x <> proxy -> accounts w' !! x = accounts w !! x.
Proof.
  cbv zeta. set (tapp := hex_to_address tappHex). set (impl := new_address 0). set (bc := new_address 1). set (proxy := new_address 2).
  intros Ht Hz Hd Ei Eb Ep Hnd Hfree. rewrite !Forall_cons in Hfree. destruct Hfree as (Hi & Hb & Hp & _).
  assert (impl <> bc /\ impl <> proxy /\ bc <> proxy) as (N1 & N2 & N3).
  { rewrite !NoDup_cons, !elem_of_cons in Hnd. split_and!; intros E; tauto. }
  set (w1 := put impl (mkAccount KServing implementation_storage 0 []) w).
  set (bn := mkBeacon impl deployer [BeaconOwner 0 deployer; Upgraded impl]).
  set (w2 := put bc (mkAccount (KBeacon bn) blank 0 []) w1).
  set (w3 := put proxy (mkAccount (KProxy bc) (set_initialized (domain_separator_of (si_chainid s) proxy) deployer tapp blank) 0 []) w2).
  exists w3. split.
  2: { intros x X1 X2 X3. unfold w3, w2, w1, put. cbn. by rewrite !lookup_insert_ne. }
  unfold deploy_main. rewrite (bind_ok _ _ W (tapp, deployer) W).
  2: { unfold lift_res, deploy_flags. by rewrite (bool_decide_false _ key_given), (bool_decide_false _ Ht), key_read. }
  cbv zeta.
  rewrite (bind_ok _ _ W ci W), (bind_ok _ _ W impl (site_at w1 1 W));
    [|apply deploy_one_now; [done|done|unfold impl, new_address; by rewrite Z.add_0_r|]|done].
  2: { rewrite (bu_impl _ artifacts W ci W eq_refl Ei). by apply lands_serving_now. }
  rewrite (bind_ok _ _ _ cb (site_at w1 1 W)) by (by eapply load_now).
  rewrite (bind_ok _ _ _ bc (site_at w2 2 W)).
  2: { rewrite <- (site_at_twice w1 w2 1 1). apply deploy_one_now; try done.
       rewrite (bu_beacon _ artifacts W cb W _ _ eq_refl Eb). apply lands_beacon_now; [|done| |done].
       - unfold w1, put. cbn. by rewrite lookup_insert_ne.
       - unfold has_code, w1, put. cbn. by rewrite lookup_insert_eq. }
  rewrite (bind_ok _ _ _ cp (site_at w2 2 W)) by (by eapply load_now).
  rewrite (bind_ok _ _ _ proxy (site_at w3 3 W)); [done|].
  rewrite <- (site_at_twice w2 w3 2 1). apply deploy_one_now; try done.
  rewrite (bu_proxy _ artifacts W cp W _ _ eq_refl Ep). apply lands_proxy_now; [|done| | |done].
  - unfold w2, w1, put. cbn. by rewrite !lookup_insert_ne.
  - unfold _implementation, w2, w1, put. cbn. rewrite lookup_insert_eq. cbn. by rewrite lookup_insert_ne, lookup_insert_eq.
  - pose proof (hex_to_address_ok tappHex) as Hok. unfold addr_ok, addr_bound in Hok. unfold address_ok, tapp. lia.
Qed.
End Quiet.
End Tools.

(** ** A concrete deployment *)

Module DeployExamples.
Import Toy IdentityExamples TeeExamples ToyChain.

#[export] Instance no_other_code : OtherCode book := fun _ _ _ => None.
#[export] Instance no_other_view : OtherView book := {| other_implementation _ _ := Err EIO; other_slot _ _ := 0 |}.
#[export] Instance toy_addresses : CreateAddress := fun a n => a + 96 + n.

#[export] Instance toy_bytecode : Bytecode := fun code args =>
  match code, args with
  | [1], NoArgs => Some NewServing
  | [2], BeaconArgs i o => Some (NewBeacon i o)
  | [3], ProxyArgs b d => Some (NewProxy b (Some d))
  | _, _ => None
  end.

Definition artifact (object : string) : body := BText (JObj [("abi", JArr []); ("bytecode", JObj [("object", JStr object)])]) false.

Definition toy_files (path : string) : option body :=
  if bool_decide (path = IMPL_ARTIFACT) then Some (artifact "0x01")
  else if bool_decide (path = BEACON_ARTIFACT) then Some (artifact "0x02")
  else if bool_decide (path = PROXY_ARTIFACT) then Some (artifact "0x03") else None.

Lemma toy_load : forall W : world (site book), si_files (w_chain W) = toy_files ->
  loadBytecode IMPL_ARTIFACT W = (Ok [1], W) /\ loadBytecode BEACON_ARTIFACT W = (Ok [2], W) /\ loadBytecode PROXY_ARTIFACT W = (Ok [3], W).
Proof. intros W Hf. unfold loadBytecode. rewrite Hf. vm_compute. done. Qed.

Lemma toy_built : built (R := book) toy_files.
Proof.
  split; intros W code w'; intros; destruct (toy_load W) as (E1 & E2 & E3); try done.
  - rewrite E1 in *. by simplify_eq.
  - rewrite E2 in *. by simplify_eq.
  - rewrite E3 in *. by simplify_eq.
Qed.

Definition key_hex (k : Z) : string := "0x" +:+ hex_encode (be_bytes 32 k).

Definition site_of (w : stack book) (n : Z) (future : list (turn book)) : world (site book) :=
  mkWorld empty_redis [] false [] 0 (mkSite w n 16601 0 toy_files future) [] [].

Definition reached {A} (x : res A * world (site book)) : stack book := si_stack (w_chain x.2).

(** While 1 deploys, 9 tries to take the beacon. *)
Definition to (a s v t : Z) : env := mkEnv s v t 16601 a.

Definition meddling : list (turn book) :=
  [Others []; Others []; Others []; Others [];
   Others [WCall (to 98 9 0 0) (DUpgradeTo 97) [] true; WCall (to 98 9 0 0) (DServing (ETransferOwnership 9)) [] true]].

Definition deploying : res (addr * addr * addr) * world (site book) :=
  deploy_main (key_hex 1) 16601 (addr_hex 77) (site_of (mkStack ∅ book0) 0 meddling).

Lemma deploying_returns : deploying.1 = Ok (97, 98, 99).
Proof. vm_compute. reflexivity. Qed.

Lemma meddling_strange : Forall (turn_ok (not_from (key_addr 1))) meddling.
Proof. repeat constructor; intros E; vm_compute in E; discriminate E. Qed.

Lemma key_1_read : HexToECDSA (trim_prefix "0x" (key_hex 1)) = Ok 1.
Proof. vm_compute. reflexivity. Qed.

Lemma deploying_eq : deploying = (Ok (97, 98, 99), deploying.2).
Proof. rewrite (surjective_pairing deploying) at 1. by rewrite deploying_returns. Qed.

Lemma deploy_yields_contract_witness :
  hex_to_address (addr_hex 77) <> 0 /\
  accounts (reached deploying) !! 99 = Some (mkAccount (KProxy 98)
    (set_initialized (domain_separator_of 16601 99) (key_addr 1) (hex_to_address (addr_hex 77)) blank) 0 []) /\
  wired 99 98 {[97]} {[key_addr 1]} (reached deploying) = true.
Proof.
  exact (deploy_yields_contract (key_hex 1) 16601 (addr_hex 77) (site_of (mkStack ∅ book0) 0 meddling) 97 98 99 deploying.2 1
    toy_built key_1_read meddling_strange deploying_eq).
Defined.

(** The app's owner 5 registers the node 8192, the user 4096 deposits. *)
Definition in_use : stack book :=
  wrun [WCall (to 99 5 0 1) (DServing (EAddOrUpdateService 8192 "app" terms0)) [] true;
        WCall (to 99 4096 1000 10) (DServing (EDeposit 4096 8192)) [] true] (reached deploying).

Lemma in_use_state :
  wired 99 98 {[97]} {[1]} in_use = true /\ s_initialized (storage_at 99 in_use) = true /\
  s_domainSeparator (storage_at 99 in_use) = sep0 /\ balance (storage_at 99 in_use) 4096 8192 = 1000 /\
  bool_decide (8192 ∈ s_serviceExists (storage_at 99 in_use)) = true.
Proof. vm_compute. done. Qed.

(** What follows: the owner upgrades to the same code, others settle a forged
    voucher, withdraw what is not theirs, initialize the proxy and the
    implementation again, and grab for the beacon. *)
Definition aftermath : list (@wact book) :=
  [WCall (to 98 1 0 20) (DUpgradeTo 97) [] true; WCall (to 99 7 0 32) (DServing (ESettleFeesWithTEE [forged])) [] true;
   WCall (to 99 5 0 31) (DServing (EWithdrawEarnings 8192)) [WCall (to 99 5 0 31) (DServing (ERemoveService 8192)) [] true] true;
   WCall (to 99 9 0 33) (DServing (EInitialize 66)) [] true; WCall (to 97 9 0 33) (DServing (EInitialize 66)) [] true;
   WCall (to 98 9 0 34) (DUpgradeTo 55) [] true; WForced 99 5].

Lemma aftermath_owner : Forall (owner_step 98 {[97]} {[1]}) (wall_steps aftermath).
Proof.
  repeat constructor; cbn; try done.
Qed.

Lemma forged_foreign v : v ∈ vouchers_of (ESettleFeesWithTEE [forged]) -> v_user v = 4096 -> v_provider v = 8192 -> payee_signed sep0 v = false.
Proof. intros [->|Hv]%elem_of_cons; [|by apply elem_of_nil in Hv]. intros _ _. exact forged_refused. Qed.

Lemma aftermath_strange : Forall (stranger 99 4096 8192 (s_domainSeparator (storage_at 99 in_use))) (wall_steps aftermath).
Proof.
  destruct in_use_state as (_ & _ & -> & _). generalize sep0, forged_foreign. intros sep Hforged.
  assert (forall e c, msg_sender e <> 4096 -> vouchers_of c = [] -> stranger 99 4096 8192 sep (XCall e (DServing c) : wstep book)) as Hs.
  { intros e c He Hc _. split; [exact He|]. intros v Hv. rewrite Hc in Hv. by apply elem_of_nil in Hv. }
  assert (stranger 99 4096 8192 sep (XCall (to 99 7 0 32) (DServing (ESettleFeesWithTEE [forged])) : wstep book)) as Hv.
  { intros _. split; [discriminate|exact Hforged]. }
  unfold aftermath, wall_steps. cbn [fmap list_fmap wsteps_of concat app].
  repeat (apply Forall_cons; split); first [exact I | exact Hv | apply Hs; [discriminate|reflexivity] | apply Forall_nil_2].
Qed.

Lemma deployed_keeps_money_witness :
  wired 99 98 {[97]} {[1]} (wrun aftermath in_use) = true /\ held 4096 8192 (storage_at 99 in_use) (storage_at 99 (wrun aftermath in_use)).
Proof.
  destruct (deployed_keeps_money 99 98 {[97]} {[1]} aftermath in_use 4096 8192 (proj1 in_use_state) aftermath_owner) as (Hw & _ & Hh).
  exact (conj Hw (Hh (proj1 (proj2 in_use_state)) aftermath_strange)).
Defined.

(** An upgrade by 1, with a failed request and the aftermath in between. *)
Definition unruly : list (turn book) := [Others aftermath; Others []; Others aftermath].

Lemma unruly_ok : Forall (turn_ok (others_step 99 98 {[97]} {[1]} 4096 8192 (s_domainSeparator (storage_at 99 in_use)))) unruly.
Proof.
  assert (Forall (others_step 99 98 {[97]} {[1]} 4096 8192 (s_domainSeparator (storage_at 99 in_use))) (wall_steps aftermath)) as Ha
    by exact (proj2 (Forall_and _ _) (conj aftermath_owner aftermath_strange)).
  apply Forall_cons. split; [exact Ha|]. apply Forall_cons. split; [apply Forall_nil_2|]. apply Forall_cons. split; [exact Ha|apply Forall_nil_2].
Qed.

Definition upgrading := upgrade_main (key_hex 1) 16601 (addr_hex 99) EmptyString (site_of in_use 8 unruly).

Lemma upgrading_returns : upgrading.1 = Ok (105, 98).
Proof. vm_compute. reflexivity. Qed.

Lemma upgrade_keeps_money_witness :
  upgrading.1 = Ok (105, 98) /\ held 4096 8192 (storage_at 99 in_use) (storage_at 99 (reached upgrading)).
Proof.
  destruct (upgrade_keeps_money (key_hex 1) 16601 (addr_hex 99) EmptyString (site_of in_use 8 unruly) 99 98 {[97]} {[1]} 4096 8192
    toy_built (proj1 in_use_state) unruly_ok) as (_ & _ & Hh).
  exact (conj upgrading_returns (Hh (proj1 (proj2 in_use_state)))).
Defined.

Definition account_at (x : addr) : account := default (mkAccount KServing blank 0 []) (accounts in_use !! x).

Definition beacon_98 : Beacon := match ac_kind (account_at 98) with KBeacon b => b | _ => mkBeacon 0 0 [] end.

Lemma in_use_accounts :
  accounts in_use !! hex_to_address (addr_hex 99) = Some (account_at 99) /\ ac_kind (account_at 99) = KProxy 98 /\
  accounts in_use !! 98 = Some (account_at 98) /\ ac_kind (account_at 98) = KBeacon beacon_98 /\ b_owner beacon_98 = key_addr 1 /\
  accounts in_use !! new_address (site_of in_use 8 []) 1 0 = None /\ address_ok (new_address (site_of in_use 8 []) 1 0) = true.
Proof. vm_compute. done. Qed.

Lemma key_1_given : key_hex 1 <> EmptyString.
Proof. discriminate. Qed.

Lemma proxy_99_given : addr_hex 99 <> EmptyString.
Proof. discriminate. Qed.

Lemma upgrade_takes_effect_witness :
  exists w', upgrade_main (key_hex 1) 16601 (addr_hex 99) EmptyString (site_of in_use 8 []) =
    (Ok (new_address (site_of in_use 8 []) 1 0, 98), site_at w' 2 (site_of in_use 8 [])) /\
    _implementation w' 98 = TServing.
Proof.
  destruct in_use_accounts as (H1' & H2' & H3' & H4' & H5' & H6' & H7').
  destruct (upgrade_takes_effect (site_of in_use 8 []) (key_hex 1) 16601 1 eq_refl key_1_given key_1_read eq_refl toy_built
    (addr_hex 99) EmptyString [1] 98 (account_at 98) (account_at 99) proxy_99_given
    (proj1 (toy_load (site_of in_use 8 []) eq_refl)) H1' H2' beacon_98 H3' H4' H5' H6' H7') as (w' & bn & He & _ & _ & _ & _ & _ & Ht & _).
  exact (ex_intro _ w' (conj He Ht)).
Defined.
End DeployExamples.
