(* ===== verification/Mock.v ===== *)
(** * The payment layer's stand-in (cmd/mock-payment)

    The server a broker is developed against, request by request, and the
    broker's client of Funding on it: what the client posts, and what it reads
    back.  The identifiers are drawn by a library and are a parameter. *)

From stdpp Require Import pretty.
From S2P Require Import Prelude Decimal Hex Bytes Crypto Voucher Store Json Guard Seal Http Auth Broker Funding Info.

(** ** The server *)

(** [cmd/mock-payment/main.go:23-30 depositRecord] *)
Record depositRecord := mkRecord {
  dr_ID : string;
  dr_User : string;
  dr_Provider : string;
  dr_Amount : string;
  dr_Status : string;
  dr_CreatedAt : Z
}.

(** A method, a path, the first value of each query parameter, a body. *)
Record mock_request := mkMockReq { mq_method : string; mq_path : string; mq_query : string -> string; mq_body : body }.

(** [http.Error], or an encoded value or list of records with a 200. *)
Inductive mock_reply := MText (status : Z) (text : string) | MJson (j : json) | MList (l : list depositRecord).

(** The map of requests, how many identifiers were drawn, the clock, and what
    other people ask before each request of the client.
    [cmd/mock-payment/main.go:32-35 requests] *)
Record mock := mkMock {
  mk_requests : gmap string depositRecord;
  mk_drawn : nat;
  mk_now : Z;
  mk_others : list (list mock_request)
}.

Definition set_requests (m : gmap string depositRecord) (s : mock) : mock := mkMock m (mk_drawn s) (mk_now s) (mk_others s).

(** The [n]th [uuid.New()]. *)
Class Uuid := uuid : nat -> string.

Section Server.
Context `{SimpleFold} `{!Uuid}.

(** The body decoded: a user, a provider and an amount.
    [cmd/mock-payment/main.go:50-59 main] *)
Definition decode_deposit (b : body) : res (string * string * string) :=
  match b with
  | BText (JObj ms) _ =>
      res_bind (field_string "user" ms) (fun u =>
      res_bind (field_string "provider" ms) (fun p =>
      res_bind (field_string "amount" ms) (fun a =>
      res_bind (field_int64 "timestamp" ms) (fun _ => Ok (u, p, a)))))
  | BText JNull _ => Ok (EmptyString, EmptyString, EmptyString)
  | _ => Err (EMsg "bad request")
  end.

(** [cmd/mock-payment/main.go:45-77 main] *)
Definition handle_deposit (rq : mock_request) (s : mock) : mock_reply * mock :=
  if negb (bool_decide (mq_method rq = "POST")) then (MText 405 "method not allowed", s)
  else match decode_deposit (mq_body rq) with
       | Ok (u, p, a) =>
           let id := uuid (mk_drawn s) in
           let rec := mkRecord id u p a "pending" (mk_now s) in
           (MJson (JObj [("request_id", JStr id)]), mkMock (<[id := rec]> (mk_requests s)) (S (mk_drawn s)) (mk_now s) (mk_others s))
       | _ => (MText 400 "bad request", s)
       end.

(** [cmd/mock-payment/main.go:79-94 main] *)
Definition handle_status (rq : mock_request) (s : mock) : mock_reply * mock :=
  if negb (bool_decide (mq_method rq = "GET")) then (MText 405 "method not allowed", s)
  else match mk_requests s !! mq_query rq "id" with
       | None => (MText 404 "not found", s)
       | Some rec => (MJson (JObj [("status", JStr (dr_Status rec))]), s)
       end.

Definition with_status (status : string) (rec : depositRecord) : depositRecord :=
  mkRecord (dr_ID rec) (dr_User rec) (dr_Provider rec) (dr_Amount rec) status (dr_CreatedAt rec).

(** [cmd/mock-payment/main.go:96-120 main] *)
Definition handle_resolve (rq : mock_request) (s : mock) : mock_reply * mock :=
  if negb (bool_decide (mq_method rq = "POST")) then (MText 405 "method not allowed", s)
  else
    let id := mq_query rq "id" in
    let status := mq_query rq "status" in
    if negb (bool_decide (status = "success")) && negb (bool_decide (status = "failed"))
    then (MText 400 "status must be success or failed", s)
    else match mk_requests s !! id with
         | None => (MText 404 "not found", s)
         | Some rec => (MJson (JObj [("id", JStr id); ("status", JStr status)]), set_requests (<[id := with_status status rec]> (mk_requests s)) s)
         end.

(** In the order of a Go map, which is any. [cmd/mock-payment/main.go:122-131 main] *)
Definition handle_list (s : mock) : mock_reply := MList (map_to_list (mk_requests s)).*2.

(** [cmd/mock-payment/main.go:40-43 main] *)
Definition handle_health : mock_reply := MJson (JObj [("ok", JBool true)]).

(** Patterns without a trailing slash match their path alone.
    [cmd/mock-payment/main.go:37-138 main] *)
Definition mock_serve (rq : mock_request) (s : mock) : mock_reply * mock :=
  if bool_decide (mq_path rq = "/health") then (handle_health, s)
  else if bool_decide (mq_path rq = "/deposit") then handle_deposit rq s
  else if bool_decide (mq_path rq = "/deposit/status") then handle_status rq s
  else if bool_decide (mq_path rq = "/admin/resolve") then handle_resolve rq s
  else if bool_decide (mq_path rq = "/admin/list") then (handle_list s, s)
  else (MText 404 "404 page not found", s).

Definition mock_run (l : list mock_request) (s : mock) : mock := foldl (fun s rq => (mock_serve rq s).2) s l.

(** ** The broker's client on it *)

(** A request of the client, after what others asked. *)
Definition client_asks (rq : mock_request) (s : mock) : mock_reply * mock :=
  match mk_others s with
  | [] => mock_serve rq s
  | l :: rest => mock_serve rq (mock_run l (mkMock (mk_requests s) (mk_drawn s) (mk_now s) rest))
  end.

Definition reply_body (r : mock_reply) : body := match r with MText _ _ => BBad | MJson j => BText j true | MList _ => BText (JArr []) true end.
Definition reply_code (r : mock_reply) : Z := match r with MText s _ => s | _ => 200 end.

(** [internal/broker/payment.go:97-107 depositRequest] *)
Definition deposit_body (user provider : addr) (amount ts : Z) : body :=
  BText (JObj [("type", JStr "sandbox_router");
               ("deposits", JArr [JObj [("user", JStr (addr_hex user)); ("provider", JStr (addr_hex provider)); ("amount", JStr (pretty amount))]]);
               ("timestamp", JNum ts false)]) false.

Definition no_query (_ : string) : string := EmptyString.

(** [internal/broker/payment.go:135-167 RequestDeposit] *)
Definition mock_post (user provider : addr) (amount ts : Z) (authorization : string) (s : mock) : res (Z * option string) * mock :=
  let '(r, s') := client_asks (mkMockReq "POST" "/deposit" no_query (deposit_body user provider amount ts)) s in
  (Ok (reply_code r, match reply_body r with
                     | BText (JObj ms) _ => match field_string "request_id" ms with Ok id => Some id | _ => None end
                     | _ => None
                     end), s').

(** The id goes into the URL as it is. [internal/broker/payment.go:186-214 pollDepositStatus] *)
Definition mock_status (requestID : string) (s : mock) : res string * mock :=
  let '(r, s') := client_asks (mkMockReq "GET" "/deposit/status" (fun k => if bool_decide (k = "id") then requestID else EmptyString) BEmpty) s in
  (Ok match reply_body r with
      | BText (JObj ms) _ => match field_string "status" ms with Ok t => t | _ => EmptyString end
      | _ => EmptyString
      end, s').

#[export] Instance mock_payment : PaymentHTTP mock := {| deposit_post := mock_post; deposit_status := mock_status |}.

#[export] Instance mock_laws : StatusLaws.
Proof. intros rid s. unfold deposit_status, mock_payment, mock_status. by destruct (client_asks _ s). Qed.

(** ** What the server keeps *)

Definition known_status (t : string) : Prop := t = "pending" \/ t = "success" \/ t = "failed".

(** The records are filed under their own names, with one of three statuses. *)
Definition mock_ok (s : mock) : Prop := forall id rec, mk_requests s !! id = Some rec -> dr_ID rec = id /\ known_status (dr_Status rec).

(** Requests stay, with whom they are for. *)
Definition recorded (s s' : mock) : Prop := forall id rec, mk_requests s !! id = Some rec ->
  (forall n, (mk_drawn s <= n)%nat -> uuid n <> id) ->
  (exists t, mk_requests s' !! id = Some (with_status t rec)) /\ (mk_drawn s <= mk_drawn s')%nat.

Lemma serve_cases rq s (s' := (mock_serve rq s).2) :
  s' = s \/
  (exists u p a, s' = mkMock (<[uuid (mk_drawn s) := mkRecord (uuid (mk_drawn s)) u p a "pending" (mk_now s)]> (mk_requests s)) (S (mk_drawn s)) (mk_now s) (mk_others s)) \/
  (exists id rec t, mk_requests s !! id = Some rec /\ (t = "success" \/ t = "failed") /\ s' = set_requests (<[id := with_status t rec]> (mk_requests s)) s).
Proof.
  subst s'. unfold mock_serve. repeat (case_bool_decide; [|]); try (by left).
  - unfold handle_deposit. destruct (negb _); [by left|]. destruct (decode_deposit _) as [[[u p] a]|e|]; [right; left; by exists u, p, a|by left..].
  - unfold handle_status. destruct (negb _); [by left|]. destruct (mk_requests s !! _); by left.
  - unfold handle_resolve. destruct (negb _); [by left|]. cbv zeta.
    destruct (negb (bool_decide (mq_query rq "status" = "success")) && negb (bool_decide (mq_query rq "status" = "failed"))) eqn:Es; [by left|].
    destruct (mk_requests s !! mq_query rq "id") as [rec|] eqn:Er; [|by left]. right; right. eexists _, rec, _. split; [exact Er|]. split; [|done].
    apply andb_false_iff in Es as [Es|Es]; apply negb_false_iff, bool_decide_eq_true in Es; [by left|by right].
Qed.

Lemma serve_ok rq s : mock_ok s -> mock_ok (mock_serve rq s).2.
Proof.
  intros Hs. destruct (serve_cases rq s) as [->|[(u & p & a & ->)|(id & rec & t & Hr & Ht & ->)]]; [done|..]; intros id' rec'; cbn [mk_requests set_requests].
  - destruct (decide (uuid (mk_drawn s) = id')) as [<-|N]; [rewrite lookup_insert_eq|rewrite lookup_insert_ne by done; apply Hs].
    intros [= <-]. split; [done|by left].
  - destruct (decide (id = id')) as [<-|N]; [rewrite lookup_insert_eq|rewrite lookup_insert_ne by done; apply Hs].
    intros [= <-]. split; [by apply Hs in Hr as [Hr _]|]. cbn. right. tauto.
Qed.

Lemma serve_recorded rq s : recorded s (mock_serve rq s).2.
Proof.
  intros id rec Hr Hn. assert (with_status (dr_Status rec) rec = rec) as E by (by destruct rec).
  destruct (serve_cases rq s) as [->|[(u & p & a & ->)|(id' & rec' & t & Hr' & Ht & ->)]]; cbn [mk_requests mk_drawn set_requests].
  - split; [|lia]. exists (dr_Status rec). by rewrite E.
  - split; [|lia]. exists (dr_Status rec). rewrite lookup_insert_ne by (by apply Hn). by rewrite E.
  - split; [|lia]. destruct (decide (id' = id)) as [->|N]; [rewrite lookup_insert_eq|rewrite lookup_insert_ne by done].
    + rewrite Hr in Hr'. injection Hr' as <-. by exists t.
    + exists (dr_Status rec). by rewrite E.
Qed.

(** The server keeps every request, for whom it was made, with a status of the
    three, whatever is asked of it and in whatever order, while identifiers are
    not drawn twice. *)
Theorem mock_keeps_requests (l : list mock_request) s : mock_ok s ->
  mock_ok (mock_run l s) /\
  forall id rec, mk_requests s !! id = Some rec -> (forall n, (mk_drawn s <= n)%nat -> uuid n <> id) ->
    exists t, mk_requests (mock_run l s) !! id = Some (with_status t rec).
Proof.
  revert s. induction l as [|rq l IH]; intros s Hs; [split; [done|]; intros id rec Hr _; exists (dr_Status rec); by destruct rec|].
  cbn [mock_run foldl]. destruct (IH _ (serve_ok rq s Hs)) as [Hok Hall]. split; [exact Hok|]. intros id rec Hr Hn.
  destruct (serve_recorded rq s id rec Hr Hn) as [[t Ht] Hle]. destruct (Hall id _ Ht) as [t' Ht']; [intros n Hle'; apply Hn; lia|].
  exists t'. exact Ht'.
Qed.
End Server.

(** ** A deposit through the stand-in *)

Section Client.
Context `{Keccak} `{Ecdsa} `{SF : SimpleFold} `{!SimpleFoldLaws} `{!Uuid}.
Implicit Types w : world mock.

Lemma field_string_absent f ms : is_ascii f = true -> others f ms = true -> field_string f ms = Ok EmptyString.
Proof.
  intros Hf Ho. rewrite (field_string_ascii f ms Hf). unfold field_string.
  exact (fold_others f (fun acc v => match acc, v with Ok _, JStr s => Ok s | Ok s, JNull => Ok s | Ok _, _ => Err (EMsg "json: cannot unmarshal into a string") | _, _ => acc end) ms _ Ho).
Qed.

(** What the client posts decodes to nobody's deposit of nothing. *)
Lemma decode_posted user provider amount ts : - 2 ^ 63 <= ts < 2 ^ 63 ->
  decode_deposit (deposit_body user provider amount ts) = Ok (EmptyString, EmptyString, EmptyString).
Proof.
  intros Ht. unfold decode_deposit, deposit_body. rewrite !field_string_absent by reflexivity. cbn [res_bind].
  by rewrite (field_int64_at 2 "timestamp" _ ts).
Qed.

Lemma id_read_back id : field_string "request_id" [("request_id", JStr id)] = Ok id.
Proof. by rewrite (field_string_at 0 "request_id" _ id). Qed.

Lemma status_read_back t : field_string "status" [("status", JStr t)] = Ok t.
Proof. by rewrite (field_string_at 0 "status" _ t). Qed.

(** The state a request of the client meets. *)
Definition met (s : mock) : mock :=
  match mk_others s with [] => s | l :: rest => mock_run l (mkMock (mk_requests s) (mk_drawn s) (mk_now s) rest) end.

Lemma client_asks_met rq s : client_asks rq s = mock_serve rq (met s).
Proof. unfold client_asks, met. by destruct (mk_others s). Qed.

Lemma mock_post_met user provider amount ts auth s : - 2 ^ 63 <= ts < 2 ^ 63 ->
  let id := uuid (mk_drawn (met s)) in
  mock_post user provider amount ts auth s = (Ok (200, Some id),
    mkMock (<[id := mkRecord id EmptyString EmptyString EmptyString "pending" (mk_now (met s))]> (mk_requests (met s)))
      (S (mk_drawn (met s))) (mk_now (met s)) (mk_others (met s))).
Proof.
  intros Ht. unfold mock_post. rewrite client_asks_met. unfold mock_serve. cbn [mq_path]. rewrite bool_decide_false, bool_decide_true by done.
  unfold handle_deposit. cbn [mq_method mq_body]. rewrite bool_decide_true, decode_posted by done.
  cbn [negb reply_body reply_code]. by rewrite id_read_back.
Qed.

(** The stand-in does not know whose deposit it keeps.  A deposit the broker's
    client asks for is accepted and can be followed under the identifier the
    client gets, but what is filed under it names no user, no provider and no
    amount: the client sends a list of deposits, the stand-in reads one from the
    top of the message. *)
Theorem mock_files_nobody h user provider amount w rid w' :
  quiet w -> - 2 ^ 63 <= w_now w * 1000 < 2 ^ 63 -> request_deposit h user provider amount w = (Ok rid, w') ->
  mk_requests (w_chain w') !! rid = Some (mkRecord rid EmptyString EmptyString EmptyString "pending" (mk_now (met (w_chain w)))).
Proof.
  intros Hq Ht He. unfold request_deposit in He. apply bind_Ok in He as (now & w1 & E1 & He). injection E1 as <- <-. cbv zeta in He.
  apply bind_Ok in He as (sig & w2 & E2 & He). unfold lift_res in E2. destruct (deposit_signature _ _ _ _ _) as [x|e|]; [|done..].
  injection E2 as _ <-. apply bind_Ok in He as ([status rid0] & w3 & E3 & He).
  unfold chain_call, deposit_post, mock_payment in E3. rewrite mock_post_met in E3 by done. injection E3 as <- <- <-. cbn [Z.leb] in He.
  destruct (bool_decide _); [done|]. apply bind_Ok in He as (u & w4 & E4 & He). injection He as <- <-.
  rewrite put_flag_quiet in E4 by done. injection E4 as _ <-. cbn. by rewrite lookup_insert_eq.
Qed.

(** A poll of a request the stand-in has. *)
Lemma mock_status_met rid s rec : mk_requests (met s) !! rid = Some rec -> mock_status rid s = (Ok (dr_Status rec), met s).
Proof.
  intros Hr. unfold mock_status. rewrite client_asks_met. unfold mock_serve. cbn [mq_path].
  rewrite bool_decide_false, bool_decide_false, bool_decide_true by done. unfold handle_status. cbn [mq_method mq_query].
  rewrite bool_decide_true, bool_decide_true by done. cbn [negb]. rewrite Hr. cbn [reply_body]. by rewrite status_read_back.
Qed.

(** What the administrator resolves, the client takes up at its next poll: a
    request resolved as a success leaves no mark in flight and no back-off that
    was not there, one resolved as a failure a back-off. *)
Theorem resolution_is_taken_up h rid user provider ticks w rec status query s :
  quiet w -> 0 < pl_monitorInterval h -> w_chain w = s -> mk_others s = [] -> mk_requests s !! rid = Some rec ->
  status = "success" \/ status = "failed" ->
  query "id" = rid -> query "status" = status ->
  exists w', pollDepositStatus (S ticks) h rid user provider (set_chain (mock_serve (mkMockReq "POST" "/admin/resolve" query BEmpty) s).2 w) = (Ok tt, w') /\
    r_flags (w_redis w') !! inflightKey user provider = None /\
    w_now w' = w_now w + pl_pollInterval h /\
    r_flags (w_redis w') !! backoffKey user provider =
      if bool_decide (status = "success") then r_flags (w_redis w) !! backoffKey user provider
      else Some (Some (w_now w + pl_pollInterval h + 2 * pl_monitorInterval h)).
Proof.
  intros Hq Hm Hc Ho Hr Hs Hid Hst.
  assert ((mock_serve (mkMockReq "POST" "/admin/resolve" query BEmpty) s).2 = set_requests (<[rid := with_status status rec]> (mk_requests s)) s) as ->.
  { unfold mock_serve. cbn [mq_path]. rewrite !bool_decide_false, bool_decide_true by done. unfold handle_resolve. cbn [mq_method mq_query].
    rewrite Hid, Hst, Hr. by destruct Hs as [-> | ->]. }
  set (s1 := set_requests _ s).
  assert (mk_requests (met s1) !! rid = Some (with_status status rec)) as Hr1.
  { unfold met, s1. cbn [mk_others set_requests]. rewrite Ho. cbn. by rewrite lookup_insert_eq. }
  cbn [pollDepositStatus]. unfold bind at 1, sleep, bind at 1, attempt, chain_call.
  cbn [w_chain set_chain set_now deposit_status mock_payment]. rewrite (mock_status_met rid s1 _ Hr1). cbn [dr_Status with_status].
  destruct Hs as [-> | ->];
    [rewrite !(bool_decide_true ("success"%string = "success"%string)) by done
    |rewrite !(bool_decide_false ("failed"%string = "success"%string)), (bool_decide_false ("failed"%string = "complete"%string)),
       (bool_decide_true ("failed"%string = "failed"%string)) by done]; cbn [orb].
  - rewrite del_flag_quiet by done. eexists. split; [done|]. cbn.
    rewrite lookup_delete_eq, lookup_delete_ne by apply key_ne. done.
  - unfold bind. rewrite del_flag_quiet by done. rewrite put_flag_quiet by done. eexists. split; [done|]. unfold set_flag. cbn.
    destruct (Z.ltb_spec 0 (2 * pl_monitorInterval h)); [|lia].
    rewrite lookup_insert_ne by (apply not_eq_sym, key_ne). rewrite lookup_delete_eq, lookup_insert_eq. done.
Qed.
End Client.

Module MockExamples.
Import Toy.

#[export] Instance toy_uuid : Uuid := fun n => "req-" +:+ pretty n.

Definition mock0 : mock := mkMock ∅ 0 1700 [].

Definition mock_world : world mock := mkWorld empty_redis [] false [] 1700 mock0 [] [].

Definition payer : HTTPPaymentLayer := mkPayment 5 3 30 60.

Definition first_deposit := request_deposit payer 4096 8192 1000 mock_world.

Lemma first_deposit_returns : first_deposit.1 = Ok "req-0"%string.
Proof. vm_compute. reflexivity. Qed.

Lemma first_deposit_eq : first_deposit = (Ok "req-0"%string, first_deposit.2).
Proof. rewrite (surjective_pairing first_deposit) at 1. by rewrite first_deposit_returns. Qed.

Lemma mock_files_nobody_witness :
  mk_requests (w_chain first_deposit.2) !! "req-0"%string = Some (mkRecord "req-0" EmptyString EmptyString EmptyString "pending" 1700).
Proof. exact (mock_files_nobody payer 4096 8192 1000 mock_world "req-0" first_deposit.2 eq_refl ltac:(cbn; lia) first_deposit_eq). Defined.

Definition resolving (k : string) : string := if bool_decide (k = "id") then "req-0" else "failed".

Lemma resolution_is_taken_up_witness :
  exists w', pollDepositStatus 3 payer "req-0" 4096 8192
      (set_chain (mock_serve (mkMockReq "POST" "/admin/resolve" resolving BEmpty) (w_chain first_deposit.2)).2 first_deposit.2) = (Ok tt, w') /\
    r_flags (w_redis w') !! inflightKey 4096 8192 = None.
Proof.
  destruct (resolution_is_taken_up payer "req-0" 4096 8192 2 first_deposit.2 _ "failed" resolving (w_chain first_deposit.2)
    eq_refl ltac:(cbn; lia) eq_refl eq_refl mock_files_nobody_witness ltac:(by right) eq_refl eq_refl) as (w' & E & Hf & _).
  exact (ex_intro _ w' (conj E Hf)).
Defined.

Lemma mock_keeps_requests_witness :
  mock_ok (mock_run [mkMockReq "POST" "/admin/resolve" resolving BEmpty; mkMockReq "GET" "/admin/list" resolving BEmpty] mock0).
Proof.
  destruct (mock_keeps_requests [mkMockReq "POST" "/admin/resolve" resolving BEmpty; mkMockReq "GET" "/admin/list" resolving BEmpty] mock0
    (fun id rec E => ltac:(discriminate E))) as [Hok _]. exact Hok.
Defined.
End MockExamples.
