(* ===== verification/Tools.v ===== *)
(** * Small tools (cmd/checkbal, cmd/checkuserbal, cmd/verify)

    Two tools that read balances off the contract, at the desk of Operator, and
    the one that submits the sources of a deployed contract to the explorer.  At the
    end, how the two large tools (cmd/user, cmd/provider) read their command line:
    the commands themselves are in Operator, Wallet, Request and Info. *)

From S2P Require Import Prelude Decimal Hex Bytes Crypto Voucher Store Session Billing Json CreatePolicy Guard Config ChainTypes Chain Daytona Seal Registry Http Auth Broker Gate Access Startup Identity Tee Keys Info Serving Solvency Custody Batch Payout Onchain Request Operator Wallet.

(** ** Balances *)

Section Balances.
Context `{Keccak} `{Ecrecover} {R : Type} `{TappRegistry R} `{Ecdsa} `{SecpKeys}.
Variable getenv : string -> string.

(** [cmd/checkbal/main.go:19-24 envOr] *)
Definition envOr (key def : string) : string := if bool_decide (getenv key <> EmptyString) then getenv key else def.

(** [cmd/checkbal/main.go:31-52 resolveAddr] *)
Definition resolveAddr (addrFlag keyFlag : string) : res addr :=
  if negb (bool_decide (addrFlag = EmptyString)) then Ok (hex_to_address addrFlag)
  else
    let keyHex := keyFlag in
    let keyHex := if bool_decide (keyHex = EmptyString) then getenv "CHECK_KEY" else keyHex in
    let keyHex := if bool_decide (keyHex = EmptyString) then getenv "USER_KEY" else keyHex in
    if bool_decide (keyHex = EmptyString) then Err (EMsg "usage: checkbal --addr 0x<address>  (or --key / CHECK_KEY / USER_KEY env)")
    else res_bind (HexToECDSA (trim_prefix "0x" keyHex)) (fun privKey => Ok (key_addr privKey)).

(** What is printed; a failed look-up prints no number. *)
Record balance_sheet := mkSheet {
  bs_balance : option Z;
  bs_nonce : option Z;
  bs_earnings : option Z;
  bs_service : option (Service * Z * Z)  (** with the prices per second *)
}.

Definition looked_up {A} (m : M (desk (R := R)) A) : M desk (option A) :=
  let! x := attempt m in ret (match x with inl a => Some a | inr _ => None end).

(** [cmd/checkbal/main.go:54-93 main] *)
Definition checkbal (contractFlag addrFlag keyFlag : string) : M (desk (R := R)) balance_sheet :=
  let! addr := lift_res (resolveAddr addrFlag keyFlag) in
  let contract := hex_to_address contractFlag in
  let! bal := looked_up (chain_call (call_at contract (getBalance addr addr))) in
  let! nonce := looked_up (chain_call (call_at contract (getLastNonce addr addr))) in
  let! earned := looked_up (chain_call (call_at contract (getProviderEarnings addr))) in
  let! svc := looked_up (chain_call (call_at contract (view_service addr))) in
  ret (mkSheet (b ← bal; Some b.1.1) nonce earned
        (s ← svc; Some (s, sv_PricePerCPUPerMin s / 60, sv_PricePerMemGBPerMin s / 60))).

(** [cmd/checkuserbal/main.go:15-38 main] *)
Definition checkuserbal : M (desk (R := R)) Z :=
  let contractAddr := envOr "SETTLEMENT_CONTRACT" "0x3D0F2D62A60c8e62095671FfB23D15Cc4C98ca7c" in
  let user := hex_to_address (envOr "USER_ADDR" "0x2ff0F380d85543e0Ab6D32eba80DA7F3dB332dcB") in
  let provider := hex_to_address (envOr "PROVIDER_ADDR" "0xB831371eb2703305f1d9F8542163633D0675CEd7") in
  let! balances := attempt (chain_call (call_at (hex_to_address contractAddr) (balanceOfBatch [user] provider))) in
  match balances with
  | inl (b :: _) => ret b
  | inl [] | inr _ => panic
  end.

(** Undisturbed, the second tool answers the user's balance with the provider. *)
Lemma checkuserbal_reads (W : world (desk (R := R))) :
  let user := hex_to_address (envOr "USER_ADDR" "0x2ff0F380d85543e0Ab6D32eba80DA7F3dB332dcB") in
  let provider := hex_to_address (envOr "PROVIDER_ADDR" "0xB831371eb2703305f1d9F8542163633D0675CEd7") in
  dk_future (w_chain W) = [] -> hex_to_address (envOr "SETTLEMENT_CONTRACT" "0x3D0F2D62A60c8e62095671FfB23D15Cc4C98ca7c") = dk_self (w_chain W) ->
  checkuserbal W = (Ok (balance (st (dk_chain (w_chain W))) user provider), W).
Proof.
  cbv zeta. intros Hq Hc. unfold checkuserbal. cbv zeta. rewrite Hc. unfold call_at. rewrite attempt_read_bind by done.
  rewrite Z.eqb_refl. reflexivity.
Qed.

End Balances.

(** ** Verification of the sources *)

(** The explorer's answer to a form: a status and a body. *)
Class Explorer (C : Type) := post_form : string -> list (string * string) -> C -> res (Z * body) * C.

(** An address as the explorer wants it. [cmd/verify/main.go:76-79 main] *)
Definition verify_address (contractAddr : string) : string :=
  let addr := to_lower contractAddr in
  if starts_with "0x" addr then addr else "0x" +:+ addr.

(** Members in the order Go marshals a map.
    [cmd/verify/main.go:32-57 standardJSONInput] *)
Definition standardJSONInput (sourceKey sourceCode : string) : json :=
  JObj [("language", JStr "Solidity");
        ("settings", JObj [("optimizer", JObj [("enabled", JBool true); ("runs", JNum 200 false)]);
                           ("outputSelection", JObj [("*", JObj [("*", JArr [JStr "abi"; JStr "evm.bytecode"; JStr "evm.deployedBytecode"])])])]);
        ("sources", JObj [(sourceKey, JObj [("content", JStr sourceCode)])])].

Record verify_flags := mkVerify {
  vf_contract : string; vf_api : string; vf_source : string; vf_sourceKey : string; vf_contractName : string;
  vf_compiler : string; vf_chainID : string; vf_apikey : string; vf_constructorArgs : string
}.

(** The Go string of a byte slice. *)
Definition string_of_bytes (b : bytes) : string := string_of_list_ascii ((fun z => ascii_of_nat (Z.to_nat z)) <$> b).

Section Verify.
Context {C : Type} `{Explorer C} `{JsonMarshal} `{SimpleFold}.

(** The form, in the order [url.Values] is encoded, by key.
    [cmd/verify/main.go:101-114 main] *)
Definition verify_form (fl : verify_flags) (stdJSON : string) : list (string * string) :=
  [("action", "verifysourcecode"); ("apikey", vf_apikey fl); ("chainid", vf_chainID fl);
   ("codeformat", "solidity-standard-json-input"); ("compilerversion", vf_compiler fl);
   ("constructorArguements", vf_constructorArgs fl); ("contractaddress", verify_address (vf_contract fl));
   ("contractname", vf_contractName fl); ("module", "contract"); ("optimizationUsed", "1"); ("runs", "200"); ("sourceCode", stdJSON)].

(** How the tool ends when it does not fail: submitted, verified before, or
    without a word. *)
Inductive verdict := VSubmitted (guid : string) | VAlready | VSilent.

Definition decode_result (b : body) : res (string * string * string) :=
  match b with
  | BText (JObj ms) false =>
      res_bind (field_string "status" ms) (fun s =>
      res_bind (field_string "message" ms) (fun m =>
      res_bind (field_string "result" ms) (fun r => Ok (s, m, r))))
  | BText JNull false => Ok (EmptyString, EmptyString, EmptyString)
  | _ => Err (EMsg "invalid JSON")
  end.

(** [cmd/verify/main.go:143-167 main] *)
Definition verify_outcome (status : Z) (b : body) : res verdict :=
  if negb (status =? 200) then Err (EMsg "Verification failed (HTTP)")
  else match decode_result b with
       | Ok (s, m, r) =>
           let lower := to_lower (r +:+ m) in
           if bool_decide (s = "1") then Ok (VSubmitted r)
           else if contains lower "already" then Ok VAlready
           else Err (EMsg "Verification failed")
       | _ => Ok VSilent
       end.

(** [cmd/verify/main.go:59-141 main] *)
Definition verify_main (files : string -> option string) (fl : verify_flags) : M C verdict :=
  if bool_decide (vf_contract fl = EmptyString) then fail (EMsg "--contract is required")
  else match files (vf_source fl) with
       | None => fail (EMsg "read source")
       | Some src =>
           let stdJSON := string_of_bytes (json_marshal (standardJSONInput (vf_sourceKey fl) src)) in
           let! answer := chain_call (post_form (vf_api fl) (verify_form fl stdJSON)) in
           lift_res (verify_outcome answer.1 answer.2)
       end.

(** The tool says a word unless the explorer's answer is not JSON of the known
    shape; then it ends as if all were well. *)
Theorem verify_ends files fl (w : world C) v w' : verify_main files fl w = (Ok v, w') ->
  exists src status b c', files (vf_source fl) = Some src /\
    post_form (vf_api fl) (verify_form fl (string_of_bytes (json_marshal (standardJSONInput (vf_sourceKey fl) src)))) (w_chain w) = (Ok (status, b), c') /\
    status = 200 /\
    match v with
    | VSubmitted guid => exists m, decode_result b = Ok ("1"%string, m, guid)
    | VAlready => exists s m r, decode_result b = Ok (s, m, r) /\ contains (to_lower (r +:+ m)) "already" = true
    | VSilent => forall x, decode_result b <> Ok x
    end.
Proof.
  unfold verify_main. case_bool_decide; [done|]. destruct (files (vf_source fl)) as [src|]; [|done].
  intros ([status b] & w1 & E & He)%bind_Ok. unfold chain_call in E.
  destruct (post_form _ _ _) as [x c'] eqn:Ep. injection E as -> <-. exists src, status, b, c'. split; [done|]. split; [exact Ep|].
  unfold lift_res, verify_outcome in He. cbn [fst snd] in He. destruct (Z.eqb_spec status 200) as [->|]; [|done]. cbn [negb] in He. split; [done|].
  destruct (decode_result b) as [[[s m] r]|e|] eqn:Ed; [|by injection He as <- _..].
  destruct (bool_decide_reflect (s = "1"%string)) as [->|]; [injection He as <- _; by exists m|].
  destruct (contains _ _) eqn:Ec; [|done]. injection He as <- _. by exists s, m, r.
Qed.

End Verify.

(** ** The command line of the two large tools *)

(** The functions of cmd/user a subcommand runs. *)
Inductive user_command :=
| URunBalance | URunDeposit | URunAcknowledge | URunCreate | URunList | URunStop | URunDelete | URunExec | URunToolbox
| URunStart | URunSSHAccess | URunProviders | URunListSnapshots.

Definition user_commands : list (string * user_command) :=
  [("balance", URunBalance); ("deposit", URunDeposit); ("acknowledge", URunAcknowledge); ("create", URunCreate);
   ("list", URunList); ("stop", URunStop); ("delete", URunDelete); ("exec", URunExec); ("toolbox", URunToolbox);
   ("start", URunStart); ("ssh-access", URunSSHAccess); ("providers", URunProviders); ("snapshots", URunListSnapshots)].

(** And of cmd/provider. *)
Inductive provider_command :=
| PRunRegister | PRunRemoveService | PRunRotate | PRunStatus | PRunWithdraw | PRunPushImage | PRunSnapshot | PRunListSnapshots
| PRunDeleteSnapshot | PRunGCImages.

Definition provider_commands : list (string * provider_command) :=
  [("register", PRunRegister); ("init-service", PRunRegister); ("remove-service", PRunRemoveService); ("rotate", PRunRotate);
   ("status", PRunStatus); ("withdraw", PRunWithdraw); ("push-image", PRunPushImage); ("snapshot", PRunSnapshot);
   ("snapshots", PRunListSnapshots); ("delete-snapshot", PRunDeleteSnapshot); ("gc-images", PRunGCImages)].

(** The command of [os.Args] past the program's name, and its own arguments; an
    error ends the tool with status 1. *)
Definition choose_command {A} (table : list (string * A)) (args : list string) : res (A * list string) :=
  match args with
  | [] => Err (EMsg "usage")
  | name :: rest =>
      match find (fun kv => bool_decide (kv.1 = name)) table with
      | Some kv => Ok (kv.2, rest)
      | None => Err (EMsg "unknown subcommand")
      end
  end.

(** [cmd/user/main.go:69-107 main] *)
Definition user_main (args : list string) : res (user_command * list string) := choose_command user_commands args.

(** [cmd/provider/main.go:76-109 main] *)
Definition provider_main (args : list string) : res (provider_command * list string) := choose_command provider_commands args.

Section Environment.
Variable getenv : string -> string.

(** The two tools have the same one. [cmd/user/main.go:124-129 envOrDefault] *)
Definition envOrDefault (key def : string) : string := if bool_decide (getenv key <> EmptyString) then getenv key else def.

(** [cmd/provider/main.go:1021-1030 resolveEnv] *)
Definition resolveEnv (flagVal envVar label : string) : res string :=
  if negb (bool_decide (flagVal = EmptyString)) then Ok flagVal
  else if negb (bool_decide (getenv envVar = EmptyString)) then Ok (getenv envVar)
  else
    Err (EMsg (label +:+ " required: use --" +:+ to_lower (replace_all (String.length envVar) "_" "-" envVar) +:+ " or " +:+ envVar +:+ " env")).

(** A value is the flag's if there is one, and never empty. *)
Lemma resolveEnv_Ok flagVal envVar label v : resolveEnv flagVal envVar label = Ok v ->
  v <> EmptyString /\ (flagVal <> EmptyString -> v = flagVal) /\ (flagVal = EmptyString -> v = getenv envVar).
Proof. unfold resolveEnv. repeat case_bool_decide; cbn; try done; by intros [= <-]. Qed.

End Environment.

(** Every command can be reached by its name, and by nothing else. *)
Lemma choose_command_Ok {A} (table : list (string * A)) args a rest : NoDup table.*1 ->
  choose_command table args = Ok (a, rest) <-> exists name, args = name :: rest /\ (name, a) ∈ table.
Proof.
  intros Hnd. destruct args as [|name args]; cbn; [split; [done|by intros (? & ? & _)]|].
  destruct (find _ table) as [[k b]|] eqn:E.
  - apply find_some in E as [Hin Hk]. apply (bool_decide_eq_true_1 _) in Hk. cbn in Hk. subst k. apply list_elem_of_In in Hin. split.
    + intros [= <- <-]. by exists name.
    + intros (n & [= <- <-] & Hin'). cbn. do 2 f_equal.
      apply (elem_of_list_to_map (M := gmap string) _ _ _ Hnd) in Hin, Hin'. congruence.
  - split; [done|]. intros (n & [= <- <-] & Hin). apply list_elem_of_In in Hin.
    pose proof (find_none _ _ E _ Hin) as Hf. cbn in Hf. by rewrite bool_decide_true in Hf.
Qed.

Lemma user_commands_distinct : NoDup user_commands.*1.
Proof. apply (bool_decide_eq_true_1 _). vm_compute. reflexivity. Qed.

Lemma provider_commands_distinct : NoDup provider_commands.*1.
Proof. apply (bool_decide_eq_true_1 _). vm_compute. reflexivity. Qed.


Lemma starts_with_0x s : starts_with "0x" ("0x" +:+ s) = true.
Proof. reflexivity. Qed.

(** The address is lower case and prefixed, and stays so. *)
Lemma verify_address_idem s : verify_address (verify_address s) = verify_address s.
Proof.
  assert (forall t, to_lower (to_lower t) = to_lower t) as Hl.
  { induction t as [|c t IH]; [done|]. cbn. rewrite IH. f_equal. revert c. clear. intros [[] [] [] [] [] [] [] []]; reflexivity. }
  unfold verify_address at 2 3. cbv zeta. destruct (starts_with "0x" (to_lower s)) eqn:E.
  - unfold verify_address. by rewrite Hl, E.
  - unfold verify_address. change (to_lower ("0x" +:+ to_lower s)) with ("0x" +:+ to_lower (to_lower s)). by rewrite Hl, starts_with_0x.
Qed.
