(* ===== verification/Settings.v ===== *)
(** * Where the settings come from (internal/config/config.go: Load, LoadBroker)

    The two services read one tree of settings.  The names, the defaults and the
    environment variables each binds are the code's; how the configuration library
    picks a value and reads a number out of it is a class with the library's
    documented rules as laws. *)

From stdpp Require Import pretty.
From S2P Require Import Prelude Decimal Hex Guard Config.

(** ** The whole tree *)

(** [internal/config/config.go:37-40 RedisConfig] *)
Record RedisConfig := mkRedisConfig { rc_Addr : string; rc_Password : string }.

(** [internal/config/config.go:111-126 ServerConfig] *)
Record ServerConfig := mkServerConfig {
  sc_TLSEnabled : bool;
  sc_Port : Z;
  sc_SSHGatewayHost : string;
  sc_BrokerURL : string;
  sc_SealedOnly : bool;
  sc_AuthStrict : bool
}.

(** [internal/config/config.go:22-29 BrokerConfig] *)
Record BrokerConfig := mkBrokerConfig {
  kc_MonitorIntervalSec : Z;
  kc_TopupIntervals : Z;
  kc_ThresholdIntervals : Z;
  kc_PaymentLayerURL : string;
  kc_DepositPollIntervalSec : Z;
  kc_DepositPollTimeoutSec : Z
}.

(** [internal/config/config.go:131-136 AlertConfig] *)
Record AlertConfig := mkAlertConfig {
  al_WebhookURL : string;
  al_DedupWindowSec : Z;
  al_SettlerLowBalanceFactor : Z;
  al_QueueBacklogThreshold : Z
}.

(** [Config] has the settings the rules look at.
    [internal/config/config.go:12-20 Config] *)
Record Settings := mkSettings {
  set_Config : Config;
  set_RegistryURL : string;
  set_Redis : RedisConfig;
  set_Server : ServerConfig;
  set_Broker : BrokerConfig;
  set_Alert : AlertConfig
}.

(** ** The library *)

(** The environment, and the scalars of the configuration file as text. *)
Record sources := mkSources { src_env : string -> string; src_file : string -> option string }.

(** [viper_value defaults bindings src key] is the text a key decodes from. *)
Class Viper := {
  viper_value : list (string * string) -> list (string * string) -> sources -> string -> option string;
  weak_int : string -> option Z;
  weak_bool : string -> option bool
}.

Definition env_char (c : ascii) : ascii :=
  let n := nat_of_ascii c in
  if bool_decide (c = "."%char) then "_"%char
  else if ((97 <=? n) && (n <=? 122))%nat then ascii_of_nat (n - 32) else c.

(** The variable [AutomaticEnv] looks for: the key in upper case, with [_] for
    the dots. *)
Fixpoint env_key (key : string) : string :=
  match key with EmptyString => EmptyString | String c key' => String (env_char c) (env_key key') end.

(** The entry of a map literal. *)
Fixpoint assoc (key : string) (l : list (string * string)) : option string :=
  match l with [] => None | (k, v) :: l' => if bool_decide (k = key) then Some v else assoc key l' end.

Definition nonempty (s : string) : option string := if bool_decide (s = EmptyString) then None else Some s.

(** The rules of precedence for a key with a binding or a default; an empty
    variable counts as unset. *)
Definition by_precedence (defaults bindings : list (string * string)) (src : sources) (key : string) : option string :=
  match nonempty (src_env src (env_key key)) with
  | Some v => Some v
  | None =>
      match assoc key bindings ≫= fun e => nonempty (src_env src e) with
      | Some v => Some v
      | None => match src_file src key with Some v => Some v | None => assoc key defaults end
      end
  end.

Class ViperLaws `{Viper} : Prop := {
  known_value : forall defaults bindings src key,
    is_Some (assoc key defaults) \/ is_Some (assoc key bindings) \/ is_Some (src_file src key) ->
    viper_value defaults bindings src key = by_precedence defaults bindings src key;
  unknown_value : forall defaults bindings src key,
    assoc key defaults = None -> assoc key bindings = None -> src_file src key = None -> viper_value defaults bindings src key = None;
  weak_int_empty : weak_int EmptyString = Some 0;
  weak_int_pretty : forall z, - 2 ^ 63 <= z < 2 ^ 63 -> weak_int (pretty z) = Some z;
  weak_bool_empty : weak_bool EmptyString = Some false
}.

Section Load.
Context `{Viper}.

(** A field that is not set keeps its zero value. *)
Definition text_of (get : string -> option string) (key : string) : string := default EmptyString (get key).
Definition int_of (get : string -> option string) (key : string) : res Z :=
  match weak_int (text_of get key) with Some z => Ok z | None => Err (EMsg "unmarshal config") end.
Definition bool_of (get : string -> option string) (key : string) : res bool :=
  match weak_bool (text_of get key) with Some b => Ok b | None => Err (EMsg "unmarshal config") end.

#[local] Notation "'let?' x := a 'in' b" := (res_bind a (fun x => b)) (at level 10, x binder, a at level 100, b at level 200).

(** [internal/config/config.go:42-59 BillingConfig] *)
Definition decode_billing (get : string -> option string) : res BillingConfig :=
  let? voucher := int_of get "billing.voucher_interval_sec" in
  let? settle := int_of get "billing.settle_interval_sec" in
  Ok (mkBillingConfig voucher settle (text_of get "billing.compute_price_per_sec") (text_of get "billing.price_per_cpu_per_sec")
        (text_of get "billing.price_per_mem_gb_per_sec") (text_of get "billing.create_fee")).

(** The provider's private key has no setting.
    [internal/config/config.go:61-93 ChainConfig] *)
Definition decode_chain (get : string -> option string) : res ChainConfig :=
  let? id := int_of get "chain.chain_id" in
  Ok (mkChainConfig (text_of get "chain.rpc_url") (text_of get "chain.contract_address") (text_of get "chain.tapp_registry")
        (text_of get "chain.tee_private_key") (text_of get "chain.provider_key_source") EmptyString (text_of get "chain.admin_addresses")
        (text_of get "chain.attestor_app_id") (text_of get "chain.attestor_instance") id).

(** [internal/config/config.go:111-126 ServerConfig] *)
Definition decode_server (get : string -> option string) : res ServerConfig :=
  let? tls := bool_of get "server.tls_enabled" in
  let? port := int_of get "server.port" in
  let? sealed := bool_of get "server.sealed_only" in
  let? strict := bool_of get "server.auth_strict" in
  Ok (mkServerConfig tls port (text_of get "server.ssh_gateway_host") (text_of get "server.broker_url") sealed strict).

(** [internal/config/config.go:22-29 BrokerConfig] *)
Definition decode_broker (get : string -> option string) : res BrokerConfig :=
  let? monitor := int_of get "broker.monitor_interval_sec" in
  let? topup := int_of get "broker.topup_intervals" in
  let? threshold := int_of get "broker.threshold_intervals" in
  let? interval := int_of get "broker.deposit_poll_interval_sec" in
  let? timeout := int_of get "broker.deposit_poll_timeout_sec" in
  Ok (mkBrokerConfig monitor topup threshold (text_of get "broker.payment_layer_url") interval timeout).

(** [internal/config/config.go:131-136 AlertConfig] *)
Definition decode_alert (get : string -> option string) : res AlertConfig :=
  let? window := int_of get "alert.dedup_window_sec" in
  let? factor := int_of get "alert.settler_low_balance_factor" in
  let? backlog := int_of get "alert.queue_backlog_threshold" in
  Ok (mkAlertConfig (text_of get "alert.webhook_url") window factor backlog).

(** [internal/config/config.go:204-207 Load] *)
Definition decode (get : string -> option string) : res Settings :=
  let? billing := decode_billing get in
  let? chain := decode_chain get in
  let? server := decode_server get in
  let? broker := decode_broker get in
  let? alert := decode_alert get in
  Ok (mkSettings (mkConfig (text_of get "daytona.api_url") (text_of get "daytona.admin_key") billing chain (sc_TLSEnabled server))
        (text_of get "daytona.registry_url") (mkRedisConfig (text_of get "redis.addr") (text_of get "redis.password"))
        server broker alert).

(** [internal/config/config.go:142-154 Load] *)
Definition load_defaults : list (string * string) :=
  [("server.port", "8080"); ("billing.voucher_interval_sec", "3600"); ("billing.settle_interval_sec", "0");
   ("billing.compute_price_per_sec", "16667"); ("billing.price_per_cpu_per_sec", "0"); ("billing.price_per_mem_gb_per_sec", "0");
   ("billing.create_fee", "5000000"); ("chain.provider_key_source", "local"); ("redis.addr", "redis:6379");
   ("daytona.registry_url", "http://registry:6000"); ("alert.dedup_window_sec", "3600");
   ("alert.settler_low_balance_factor", "100"); ("alert.queue_backlog_threshold", "1000")].

(** [internal/config/config.go:167-197 Load] *)
Definition load_bindings : list (string * string) :=
  [("daytona.api_url", "DAYTONA_API_URL"); ("daytona.admin_key", "DAYTONA_ADMIN_KEY"); ("daytona.registry_url", "REGISTRY_URL");
   ("redis.addr", "REDIS_ADDR"); ("redis.password", "REDIS_PASSWORD"); ("billing.voucher_interval_sec", "VOUCHER_INTERVAL_SEC");
   ("billing.settle_interval_sec", "SETTLE_INTERVAL_SEC"); ("billing.compute_price_per_sec", "COMPUTE_PRICE_PER_SEC");
   ("billing.price_per_cpu_per_sec", "PRICE_PER_CPU_PER_SEC"); ("billing.price_per_mem_gb_per_sec", "PRICE_PER_MEM_GB_PER_SEC");
   ("billing.create_fee", "CREATE_FEE"); ("chain.rpc_url", "RPC_URL"); ("chain.contract_address", "SETTLEMENT_CONTRACT");
   ("chain.tapp_registry", "TAPP_REGISTRY"); ("chain.admin_addresses", "ADMIN_ADDRESSES"); ("chain.attestor_app_id", "ATTESTOR_APP_ID");
   ("chain.attestor_instance", "ATTESTOR_INSTANCE"); ("chain.chain_id", "CHAIN_ID"); ("chain.provider_key_source", "PROVIDER_KEY_SOURCE");
   ("server.port", "PORT"); ("server.tls_enabled", "TLS_ENABLED"); ("server.ssh_gateway_host", "SSH_GATEWAY_HOST");
   ("server.broker_url", "BROKER_URL"); ("server.sealed_only", "SEALED_ONLY"); ("server.auth_strict", "AUTH_STRICT");
   ("alert.webhook_url", "ALERT_WEBHOOK_URL"); ("alert.dedup_window_sec", "ALERT_DEDUP_WINDOW_SEC");
   ("alert.settler_low_balance_factor", "SETTLER_LOW_BALANCE_FACTOR"); ("alert.queue_backlog_threshold", "QUEUE_BACKLOG_THRESHOLD")].

(** [internal/config/config.go:217-233 LoadBroker] *)
Definition broker_defaults : list (string * string) :=
  [("server.port", "8081"); ("redis.addr", "redis:6379"); ("broker.monitor_interval_sec", "300"); ("broker.topup_intervals", "3");
   ("broker.threshold_intervals", "2"); ("broker.deposit_poll_interval_sec", "5"); ("broker.deposit_poll_timeout_sec", "120")].

(** [internal/config/config.go:235-249 LoadBroker] *)
Definition broker_bindings : list (string * string) :=
  [("redis.addr", "REDIS_ADDR"); ("redis.password", "REDIS_PASSWORD"); ("chain.rpc_url", "RPC_URL");
   ("chain.contract_address", "SETTLEMENT_CONTRACT"); ("chain.tapp_registry", "TAPP_REGISTRY"); ("chain.chain_id", "CHAIN_ID");
   ("server.port", "BROKER_PORT"); ("broker.monitor_interval_sec", "BROKER_MONITOR_INTERVAL_SEC");
   ("broker.topup_intervals", "BROKER_TOPUP_INTERVALS"); ("broker.threshold_intervals", "BROKER_THRESHOLD_INTERVALS");
   ("broker.payment_layer_url", "PAYMENT_LAYER_URL"); ("broker.deposit_poll_interval_sec", "BROKER_DEPOSIT_POLL_INTERVAL_SEC");
   ("broker.deposit_poll_timeout_sec", "BROKER_DEPOSIT_POLL_TIMEOUT_SEC")].

Definition with_config (s : Settings) (c : Config) : Settings :=
  mkSettings c (set_RegistryURL s) (set_Redis s) (set_Server s) (set_Broker s) (set_Alert s).

(** [internal/config/config.go:138-210 Load] *)
Definition load_settings (src : sources) : res Settings :=
  let? s := decode (viper_value load_defaults load_bindings src) in
  let? c := Load (Ok (set_Config s)) in
  Ok (with_config s c).

(** [internal/config/config.go:214-274 LoadBroker] *)
Definition load_broker_settings (src : sources) : res Settings :=
  let? s := decode (viper_value broker_defaults broker_bindings src) in
  let? c := LoadBroker (Ok (set_Config s)) in
  Ok (with_config s c).

End Load.

(** ** What is loaded *)

Section Loaded.
Context `{ViperLaws}.

Lemma res_bind_Ok {A B} (m : res A) (k : A -> res B) b : res_bind m k = Ok b -> exists a, m = Ok a /\ k a = Ok b.
Proof. destruct m as [a| |]; [|done..]. intros E. by exists a. Qed.

Lemma bound_value defaults bindings src key e : assoc key bindings = Some e ->
  viper_value defaults bindings src key = by_precedence defaults bindings src key.
Proof. intros E. apply known_value. right. left. by eexists. Qed.

Lemma load_settings_Ok src s : load_settings src = Ok s ->
  exists d, decode (viper_value load_defaults load_bindings src) = Ok d /\ set_Redis s = set_Redis d /\ set_Broker s = set_Broker d /\
    set_Server s = set_Server d /\ set_Alert s = set_Alert d /\ validate (set_Config d) = Ok (set_Config s).
Proof. intros (d & Ed & (c & Ec & [= <-])%res_bind_Ok)%res_bind_Ok. by exists d. Qed.

Lemma LoadBroker_Ok c c' : LoadBroker (Ok c) = Ok c' ->
  c' = c /\ cc_RPCURL (cfg_Chain c) <> EmptyString /\ cc_ContractAddress (cfg_Chain c) <> EmptyString /\
  cc_TappRegistry (cfg_Chain c) <> EmptyString /\ cc_ChainID (cfg_Chain c) <> 0.
Proof.
  unfold LoadBroker, missing. repeat case_bool_decide; try done. destruct (Z.eqb_spec (cc_ChainID (cfg_Chain c)) 0); [done|].
  by intros [= <-].
Qed.

Lemma load_broker_settings_Ok src s : load_broker_settings src = Ok s -> decode (viper_value broker_defaults broker_bindings src) = Ok s.
Proof.
  intros (d & Ed & (c & [-> _]%LoadBroker_Ok & [= <-])%res_bind_Ok)%res_bind_Ok. rewrite Ed. by destruct d.
Qed.

(** The fields both services use. *)
Lemma decode_Ok get s : decode get = Ok s ->
  let ch := cfg_Chain (set_Config s) in
  cc_RPCURL ch = text_of get "chain.rpc_url" /\ cc_ContractAddress ch = text_of get "chain.contract_address" /\
  cc_TappRegistry ch = text_of get "chain.tapp_registry" /\ Ok (cc_ChainID ch) = int_of get "chain.chain_id" /\
  set_Redis s = mkRedisConfig (text_of get "redis.addr") (text_of get "redis.password") /\
  Ok (set_Broker s) = decode_broker get /\ Ok (set_Server s) = decode_server get /\ Ok (cfg_Billing (set_Config s)) = decode_billing get /\
  Ok (set_Alert s) = decode_alert get.
Proof.
  intros (b & Eb & (c & Ec & (sv & Es & (k & Ek & (a & Ea & [= <-])%res_bind_Ok)%res_bind_Ok)%res_bind_Ok)%res_bind_Ok)%res_bind_Ok.
  rewrite Eb, Es, Ek, Ea. apply res_bind_Ok in Ec as (id & Ei & [= <-]). by rewrite Ei.
Qed.

(** No setting holds the provider's key. *)
Lemma decode_no_key get s : decode get = Ok s -> cc_ProviderPrivateKey (cfg_Chain (set_Config s)) = EmptyString.
Proof.
  intros (b & _ & (c & Ec & (sv & _ & (k & _ & (a & _ & [= <-])%res_bind_Ok)%res_bind_Ok)%res_bind_Ok)%res_bind_Ok)%res_bind_Ok.
  by apply res_bind_Ok in Ec as (id & _ & [= <-]).
Qed.

(** The rules see the same text for a key. *)
Definition same_setting (src src' : sources) (key e : string) : Prop :=
  src_env src (env_key key) = src_env src' (env_key key) /\ src_env src e = src_env src' e /\ src_file src key = src_file src' key.

(** What the two services have in common. *)
Definition shared_settings : list (string * string) :=
  [("chain.rpc_url", "RPC_URL"); ("chain.contract_address", "SETTLEMENT_CONTRACT"); ("chain.tapp_registry", "TAPP_REGISTRY");
   ("chain.chain_id", "CHAIN_ID"); ("redis.addr", "REDIS_ADDR"); ("redis.password", "REDIS_PASSWORD")].

Lemma shared_text src src' key e :
  (key, e) ∈ shared_settings -> same_setting src src' key e ->
  viper_value load_defaults load_bindings src key = viper_value broker_defaults broker_bindings src' key.
Proof.
  intros Hin (Ha & He & Hf).
  assert (assoc key load_bindings = Some e /\ assoc key broker_bindings = Some e /\ assoc key load_defaults = assoc key broker_defaults) as (E & E' & Ed).
  { unfold shared_settings in Hin. repeat (apply elem_of_cons in Hin as [[= -> ->]|Hin]; [done|]). by apply elem_of_nil in Hin. }
  rewrite (bound_value _ _ _ _ _ E), (bound_value _ _ _ _ _ E'). unfold by_precedence. rewrite E, E', Ha, Hf, Ed. cbn [mbind option_bind]. by rewrite He.
Qed.

(** [validate] touches the stored attestor instance only. *)
Lemma validate_chain c c' : validate c = Ok c' ->
  let ch := cfg_Chain c in let ch' := cfg_Chain c' in
  cc_RPCURL ch' = cc_RPCURL ch /\ cc_ContractAddress ch' = cc_ContractAddress ch /\ cc_TappRegistry ch' = cc_TappRegistry ch /\
  cc_ChainID ch' = cc_ChainID ch /\ cfg_Billing c' = cfg_Billing c.
Proof.
  unfold validate. destruct (missing _); [done|]. destruct (_ =? 0); [done|]. destruct (negb _); [done|].
  case_bool_decide; [by intros [= <-]|]. destruct (NormalizeAttestorInstance _); [|done..]. by intros [= <-].
Qed.

(** C40: Whatever else their environments and files say, a billing daemon and a
    broker that start from the same six settings and both come up talk to the same
    contract and registry on the same chain through the same node, and share one
    Redis. *)
Theorem services_agree src src' s s' :
  load_settings src = Ok s -> load_broker_settings src' = Ok s' ->
  Forall (fun ke => same_setting src src' ke.1 ke.2) shared_settings ->
  let ch := cfg_Chain (set_Config s) in let ch' := cfg_Chain (set_Config s') in
  cc_RPCURL ch = cc_RPCURL ch' /\ cc_ContractAddress ch = cc_ContractAddress ch' /\ cc_TappRegistry ch = cc_TappRegistry ch' /\
  cc_ChainID ch = cc_ChainID ch' /\ set_Redis s = set_Redis s'.
Proof.
  intros (d & Ed & Er & _ & _ & _ & Ev)%load_settings_Ok Eb%load_broker_settings_Ok Hs.
  assert (forall key e, (key, e) ∈ shared_settings ->
    text_of (viper_value load_defaults load_bindings src) key = text_of (viper_value broker_defaults broker_bindings src') key) as Ht.
  { intros key e Hin. unfold text_of. rewrite (shared_text src src' key e Hin); [done|]. exact (proj1 (Forall_forall _ _) Hs (key, e) Hin). }
  apply decode_Ok in Ed as (D1 & D2 & D3 & D4 & D5 & _). apply decode_Ok in Eb as (B1 & B2 & B3 & B4 & B5 & _).
  apply validate_chain in Ev as (V1 & V2 & V3 & V4 & _). cbv zeta in *.
  assert (Ok (cc_ChainID (cfg_Chain (set_Config d))) = Ok (cc_ChainID (cfg_Chain (set_Config s')))) as [= Eid].
  { rewrite D4, B4. unfold int_of. by rewrite (Ht _ "CHAIN_ID") by (unfold shared_settings; set_solver). }
  rewrite V1, V2, V3, V4, Er, D1, D2, D3, D5, B1, B2, B3, B5, Eid.
  unfold shared_settings in Ht.
  rewrite (Ht _ "RPC_URL"), (Ht _ "SETTLEMENT_CONTRACT"), (Ht _ "TAPP_REGISTRY"), (Ht _ "REDIS_ADDR"), (Ht _ "REDIS_PASSWORD") by set_solver.
  done.
Qed.

(** Nothing is said about a key. *)
Definition unset (bindings : list (string * string)) (src : sources) (key : string) : Prop :=
  src_env src (env_key key) = EmptyString /\ (forall e, assoc key bindings = Some e -> src_env src e = EmptyString) /\ src_file src key = None.

Lemma unset_value defaults bindings src key : unset bindings src key -> viper_value defaults bindings src key = assoc key defaults.
Proof.
  intros (Ha & He & Hf). destruct (assoc key bindings) as [e|] eqn:Eb.
  - rewrite (bound_value _ _ _ _ _ Eb). unfold by_precedence. rewrite Ha, Eb. cbn. by rewrite (He e eq_refl), Hf.
  - destruct (assoc key defaults) as [v|] eqn:Ed; [|by apply unknown_value].
    rewrite known_value by (left; by eexists). unfold by_precedence. by rewrite Ha, Eb, Hf.
Qed.

Lemma int_default defaults bindings src key t z : unset bindings src key -> assoc key defaults = Some t -> t = pretty z ->
  - 2 ^ 63 <= z < 2 ^ 63 -> int_of (viper_value defaults bindings src) key = Ok z.
Proof. intros Hu Ht -> Hz. unfold int_of, text_of. rewrite (unset_value _ _ _ _ Hu), Ht. cbn [from_option id]. by rewrite weak_int_pretty. Qed.

Definition broker_intervals : list string :=
  ["broker.monitor_interval_sec"; "broker.topup_intervals"; "broker.threshold_intervals"; "broker.deposit_poll_interval_sec";
   "broker.deposit_poll_timeout_sec"].

(** The broker's intervals where nobody sets them. *)
Lemma broker_default_intervals src s : load_broker_settings src = Ok s -> Forall (unset broker_bindings src) broker_intervals ->
  let k := set_Broker s in
  (kc_MonitorIntervalSec k, kc_TopupIntervals k, kc_ThresholdIntervals k, kc_DepositPollIntervalSec k, kc_DepositPollTimeoutSec k)
    = (300, 3, 2, 5, 120).
Proof.
  intros (_ & _ & _ & _ & _ & Eb & _)%load_broker_settings_Ok%decode_Ok Hu. unfold broker_intervals in Hu. rewrite !Forall_cons in Hu.
  destruct Hu as (H1 & H2 & H3 & H4 & H5 & _). unfold decode_broker in Eb.
  rewrite (int_default broker_defaults _ _ _ _ 300 H1 eq_refl), (int_default broker_defaults _ _ _ _ 3 H2 eq_refl), (int_default broker_defaults _ _ _ _ 2 H3 eq_refl),
    (int_default broker_defaults _ _ _ _ 5 H4 eq_refl), (int_default broker_defaults _ _ _ _ 120 H5 eq_refl) in Eb by first [lia | done | by vm_compute].
  cbn [res_bind] in Eb. by injection Eb as ->.
Qed.

Definition billing_keys : list string :=
  ["billing.voucher_interval_sec"; "billing.settle_interval_sec"; "billing.compute_price_per_sec"; "billing.price_per_cpu_per_sec";
   "billing.price_per_mem_gb_per_sec"; "billing.create_fee"].

(** The billing settings where nobody sets them. *)
Lemma default_billing src s : load_settings src = Ok s -> Forall (unset load_bindings src) billing_keys ->
  cfg_Billing (set_Config s) = mkBillingConfig 3600 0 "16667" "0" "0" "5000000".
Proof.
  intros (d & Ed & _ & _ & _ & _ & Ev)%load_settings_Ok Hu. apply decode_Ok in Ed as (_ & _ & _ & _ & _ & _ & _ & Eb & _).
  apply validate_chain in Ev as (_ & _ & _ & _ & ->). unfold billing_keys in Hu. rewrite !Forall_cons in Hu.
  destruct Hu as (H1 & H2 & H3 & H4 & H5 & H6 & _). unfold decode_billing, text_of in Eb.
  rewrite (int_default load_defaults _ _ _ _ 3600 H1 eq_refl), (int_default load_defaults _ _ _ _ 0 H2 eq_refl) in Eb by first [lia | done | by vm_compute].
  rewrite !unset_value in Eb by done. cbn [res_bind] in Eb. by injection Eb.
Qed.

End Loaded.

Module SettingsExamples.

(** A library that follows the rules. *)
#[export] Instance plain_viper : Viper := {|
  viper_value defaults bindings src key :=
    match assoc key defaults, assoc key bindings, src_file src key with
    | None, None, None => None
    | _, _, _ => by_precedence defaults bindings src key
    end;
  weak_int s := if bool_decide (s = EmptyString) then Some 0 else Atoi s;
  weak_bool s := if bool_decide (s = EmptyString) then Some false else if bool_decide (s = "true") then Some true
                 else if bool_decide (s = "false") then Some false else None
|}.

#[export] Instance plain_viper_laws : ViperLaws.
Proof.
  split.
  - intros defaults bindings src key Hk. cbn. destruct (assoc key defaults), (assoc key bindings), (src_file src key); try done.
    destruct Hk as [[]|[[]|[]]]; done.
  - intros defaults bindings src key Hd Hb Hf. cbn. by rewrite Hd, Hb, Hf.
  - done.
  - intros z Hz. cbn. rewrite bool_decide_false by (intros E; pose proof (SetString_pretty z) as Es; by rewrite E in Es). unfold Atoi. rewrite SetString_pretty.
    destruct (Z.leb_spec (- 2 ^ 63) z), (Z.ltb_spec z (2 ^ 63)); [done|lia..].
  - done.
Qed.

Definition environment (vars : list (string * string)) (e : string) : string := default EmptyString (assoc e vars).

Definition shared_vars : list (string * string) :=
  [("RPC_URL", "http://rpc"); ("SETTLEMENT_CONTRACT", "0xaa"); ("TAPP_REGISTRY", "0xbb"); ("CHAIN_ID", "16602")].

Definition billing_src : sources :=
  mkSources (environment (("DAYTONA_API_URL", "http://daytona") :: ("DAYTONA_ADMIN_KEY", "key") :: ("PORT", "9000") :: shared_vars)) (fun _ => None).

Definition broker_src : sources := mkSources (environment (("BROKER_TOPUP_INTERVALS", "6") :: shared_vars)) (fun _ => None).

Definition or_default (r : res Settings) : Settings :=
  match r with Ok s => s | _ => mkSettings (mkConfig "" "" (mkBillingConfig 0 0 "" "" "" "") (mkChainConfig "" "" "" "" "" "" "" "" "" 0) false) ""
    (mkRedisConfig "" "") (mkServerConfig false 0 "" "" false false) (mkBrokerConfig 0 0 0 "" 0 0) (mkAlertConfig "" 0 0 0) end.

Definition billing_settings : Settings := or_default (load_settings billing_src).
Definition broker_settings : Settings := or_default (load_broker_settings broker_src).

Lemma billing_loads : load_settings billing_src = Ok billing_settings.
Proof. vm_compute. reflexivity. Qed.

Lemma broker_loads : load_broker_settings broker_src = Ok broker_settings.
Proof. vm_compute. reflexivity. Qed.

Lemma sources_agree : Forall (fun ke => same_setting billing_src broker_src ke.1 ke.2) shared_settings.
Proof. unfold shared_settings. repeat (apply Forall_cons; split; [by split_and!|]). by apply Forall_nil. Qed.

Lemma services_agree_witness :
  cc_ContractAddress (cfg_Chain (set_Config billing_settings)) = "0xaa"%string /\
  (let ch := cfg_Chain (set_Config billing_settings) in let ch' := cfg_Chain (set_Config broker_settings) in
   cc_RPCURL ch = cc_RPCURL ch' /\ cc_ContractAddress ch = cc_ContractAddress ch' /\ cc_TappRegistry ch = cc_TappRegistry ch' /\
   cc_ChainID ch = cc_ChainID ch' /\ set_Redis billing_settings = set_Redis broker_settings).
Proof. split; [reflexivity|]. exact (services_agree billing_src broker_src billing_settings broker_settings billing_loads broker_loads sources_agree). Defined.

Example ports : (sc_Port (set_Server billing_settings), sc_Port (set_Server broker_settings)) = (9000, 8081).
Proof. vm_compute. reflexivity. Qed.

(** The variable the automatic rule finds wins over the documented one. *)
Example automatic_wins :
  sc_Port (set_Server (or_default (load_broker_settings
    (mkSources (environment (("SERVER_PORT", "7000") :: ("BROKER_PORT", "7001") :: shared_vars)) (fun _ => None))))) = 7000.
Proof. vm_compute. reflexivity. Qed.

(** A number that does not parse stops the service. *)
Example bad_number :
  load_broker_settings (mkSources (environment (("BROKER_TOPUP_INTERVALS", "many") :: shared_vars)) (fun _ => None)) = Err (EMsg "unmarshal config").
Proof. vm_compute. reflexivity. Qed.

End SettingsExamples.
