(* ===== verification/Hub.v ===== *)
(** * The broker process (cmd/broker/main.go)

    How the broker comes up from its settings, its tapp and its node, what its
    router does with a request, and its goroutines as events: turns of the
    indexer's loop, checks of the monitor, requests, polls of a deposit. *)

From stdpp Require Import pretty.
From S2P Require Import Prelude Decimal Hex Bytes Crypto Voucher Store Session Json CreatePolicy Guard Config ChainTypes Chain Daytona Seal Http Auth Broker Identity Tee Keys Indexer Funding Relay Settings.

(** ** The process *)

(** The settings, the chain client, the payment layer (none: deposits are
    skipped) and the index in memory. *)
Record hub := mkHub {
  hb_settings : Settings;
  hb_client : Client;
  hb_payment : option HTTPPaymentLayer;
  hb_debug : bool;
  hb_index : index
}.

Definition with_index (idx : index) (h : hub) : hub := mkHub (hb_settings h) (hb_client h) (hb_payment h) (hb_debug h) idx.

(** [internal/broker/payment.go:84-95 NewHTTPPaymentLayer] *)
Definition NewHTTPPaymentLayer (signer pollIntervalSec pollTimeoutSec monitorIntervalSec : Z) : HTTPPaymentLayer :=
  mkPayment signer pollIntervalSec pollTimeoutSec monitorIntervalSec.

(** [cmd/broker/main.go:60-68 main] *)
Definition choose_payment (k : BrokerConfig) (cl : Client) : option HTTPPaymentLayer :=
  if negb (bool_decide (kc_PaymentLayerURL k = EmptyString))
  then Some (NewHTTPPaymentLayer (NodeKey cl) (kc_DepositPollIntervalSec k) (kc_DepositPollTimeoutSec k) (kc_MonitorIntervalSec k))
  else None.

Section Start.
Context `{Viper} `{Ecdsa} `{SecpKeys} {C : Type} `{TappDaemon C} `{Endpoints C}.
Variable getenv : string -> string.

Definition ping : M C unit := rread (fun _ => tt).

(** Each step but the last ends the process when it fails; the indexer and the
    monitor are started after it.
    [cmd/broker/main.go:26-73 main] *)
Definition start_hub (src : sources) : M C hub :=
  let! cfg := lift_res (load_broker_settings src) in
  let! _ := ping in
  let! appKey := Tee.Get getenv None in
  let! onchain := NewClient (set_TEEPrivateKey (PrivateKeyHex appKey.1) (cfg_Chain (set_Config cfg))) in
  let payment := choose_payment (set_Broker cfg) onchain in
  let! idx := LoadFromRedis ∅ in
  ret (mkHub cfg onchain payment (bool_decide (getenv "BROKER_DEBUG" = "true")) idx).

End Start.

(** ** Requests *)

(** What the broker answers: JSON of a handler, the settings of the page, the
    providers, the monitored sessions, a static file, or what the relay does. *)
Inductive hub_reply :=
| HReply (r : reply)
| HInfo (contract registry app : string) (chainID : Z) (rpc : string)
| HProviders (l : list ProviderRecord)
| HMonitored (total : nat) (l : list SessionEntry)
| HStatic (name : string)
| HRelay (r : relayed)
| HUnrouted.

Inductive hub_route :=
| BHealth | BInfo | BPage | BScript | BLogo | BProviders | BMonitor
| BRelay (provider path : string)
| BPost
| BDelete (id : string).

(** The last segment of a path, if it has that prefix. *)
Definition last_segment (prefix path : string) : option string :=
  if starts_with prefix path then
    match cut "/" (trim_prefix prefix path) with
    | (EmptyString, _) => None
    | (id, None) => Some id
    | (_, Some _) => None
    end
  else None.

(** An address and the rest of the path, which keeps its slash. *)
Definition relay_segments (path : string) : option (string * string) :=
  if starts_with "/proxy/" path then
    match cut "/" (trim_prefix "/proxy/" path) with
    | (EmptyString, _) | (_, None) => None
    | (provider, Some rest) => Some (provider, String "/" rest)
    end
  else None.

(** [cmd/broker/main.go:90-168 main] *)
Definition hub_route_of (debug : bool) (method path : string) : option hub_route :=
  match relay_segments path with
  | Some (p, rest) => Some (BRelay p rest)
  | None =>
      if bool_decide (method = "GET") then
        if bool_decide (path = "/healthz") then Some BHealth
        else if bool_decide (path = "/api/info") then Some BInfo
        else if bool_decide (path = "/") then Some BPage
        else if bool_decide (path = "/static/ethers.js") then Some BScript
        else if bool_decide (path = "/static/logo.svg") then Some BLogo
        else if bool_decide (path = "/api/providers") then Some BProviders
        else if debug && bool_decide (path = "/api/monitor") then Some BMonitor
        else None
      else if bool_decide (method = "POST") && bool_decide (path = "/api/session") then Some BPost
      else if bool_decide (method = "DELETE") then BDelete <$> last_segment "/api/session/" path
      else None
  end.

Section Bind.
Context `{SimpleFold}.

(** [c.ShouldBindJSON] of the two requests; bytes behind the value are not
    looked at. [internal/broker/session.go:112-117 HandlePost] *)
Definition bind_post (b : body) : option postSessionReq :=
  match b with
  | BText (JObj ms) _ =>
      match field_string "sandbox_id" ms, field_string "provider_addr" ms, field_string "user_addr" ms, field_int64 "cpu" ms,
            field_int64 "mem_gb" ms, field_int64 "start_time" ms, field_int64 "voucher_interval_sec" ms, field_string "signature" ms with
      | Ok id, Ok p, Ok u, Ok cpu, Ok mem, Ok t, Ok v, Ok s => Some (mkPost id p u cpu mem t v s)
      | _, _, _, _, _, _, _, _ => None
      end
  | BText JNull _ => Some (mkPost EmptyString EmptyString EmptyString 0 0 0 0 EmptyString)
  | _ => None
  end.

(** [internal/broker/session.go:261-268 HandleDelete] *)
Definition bind_delete (b : body) : option deleteSessionReq :=
  match b with
  | BText (JObj ms) _ =>
      match field_int64 "timestamp" ms, field_string "signature" ms with
      | Ok t, Ok s => Some (mkDelete t s)
      | _, _ => None
      end
  | BText JNull _ => Some (mkDelete 0 EmptyString)
  | _ => None
  end.

End Bind.

Section Serve.
Context `{Keccak} `{Ecdsa} `{SimpleFold} `{RangeOrder} {C : Type} `{PaymentHTTP C} `{BrokerChain C} `{BalanceBatch C} `{IndexerChain C}.
Variables (getenv : string -> string) (parse : string -> option url).

(** [PaymentLayer]. [internal/broker/payment.go:43-47 PaymentLayer] *)
Definition hub_deposit (h : hub) : addr -> addr -> Z -> M C unit :=
  match hb_payment h with Some p => RequestDeposit p | None => noop_deposit end.

(** [internal/broker/session.go:56-74 NewSessionHandler] *)
Definition session_handler (h : hub) : SessionHandler C :=
  mkSessionHandler C (pr_AppId <$> hb_index h) (hub_deposit h) (kc_TopupIntervals (set_Broker (hb_settings h)))
    (kc_DepositPollTimeoutSec (set_Broker (hb_settings h))).

(** [internal/broker/monitor.go:52-68 NewMonitor] *)
Definition hub_monitor (h : hub) : Monitor C :=
  mkMonitor C (hub_deposit h) (kc_TopupIntervals (set_Broker (hb_settings h))) (kc_ThresholdIntervals (set_Broker (hb_settings h))).

(** [cmd/broker/main.go:85-168 main] *)
Definition hub_serve (h : hub) (rq : request) : M C hub_reply :=
  match hub_route_of (hb_debug h) (rq_method rq) (rq_path rq) with
  | None => ret HUnrouted
  | Some BHealth => ret (HReply (RJson 200 [("ok", "true")]))
  | Some BInfo =>
      let ch := cfg_Chain (set_Config (hb_settings h)) in
      ret (HInfo (cc_ContractAddress ch) (cc_TappRegistry ch) (getenv "BACKEND_APP_NAME") (cc_ChainID ch) (cc_RPCURL ch))
  | Some BPage => ret (HStatic "user.html")
  | Some BScript => ret (HStatic "ethers.js")
  | Some BLogo => ret (HStatic "logo.svg")
  | Some BProviders => ret (HProviders (GetAll (hb_index h)))
  | Some BMonitor => let! sessions := GetSessions in ret (HMonitored (length sessions) sessions)
  | Some (BRelay p path) => ret (HRelay (relay parse (hb_index h) p path rq))
  | Some BPost => let! r := HandlePost (session_handler h) (bind_post (rq_body rq)) in ret (HReply r)
  | Some (BDelete id) => let! r := HandleDelete (session_handler h) id (bind_delete (rq_body rq)) in ret (HReply r)
  end.

(** The monitor's loop checks once before it makes its ticker.
    [internal/broker/monitor.go:71-87 Run] *)
Definition monitor_turn (h : hub) : M C unit :=
  monitor_check (hub_monitor h) ;;
  if ticks_at (kc_MonitorIntervalSec (set_Broker (hb_settings h))) then ret tt else panic.

(** The goroutine behind a deposit. [internal/broker/payment.go:181-187 pollDepositStatus] *)
Definition deposit_turn (h : hub) (requestID : string) (user provider : addr) : M C unit :=
  match hb_payment h with
  | None => ret tt
  | Some p => if ticks_at (pl_pollInterval p) then pollDepositStatus (poll_ticks p) p requestID user provider else panic
  end.

(** ** The process as it runs *)

Inductive hub_event :=
| EPoll
| ECheck
| EServe (rq : request)
| EDeposit (requestID : string) (user provider : addr)
| EWait (sec : Z).

(** A request's panic is recovered by the router, any other ends the process.
    [cmd/broker/main.go:70-86 main] *)
Definition hub_exec (e : hub_event) (h : hub) : M C hub :=
  match e with
  | EPoll => let! idx := poll (hb_index h) in ret (with_index idx h)
  | ECheck => monitor_turn h ;; ret h
  | EServe rq => fun w => (Ok h, (hub_serve h rq w).2)
  | EDeposit rid u p => deposit_turn h rid u p ;; ret h
  | EWait sec => sleep (Z.max 0 sec) ;; ret h
  end.

Fixpoint hub_run (evs : list hub_event) (h : hub) : M C hub :=
  match evs with [] => ret h | e :: evs' => let! h' := hub_exec e h in hub_run evs' h' end.

End Serve.

(** ** What the goroutines leave alone *)

Section Keeps.
Context `{Keccak} `{Ecdsa} `{SimpleFold} `{RangeOrder} {C : Type} `{PaymentHTTP C} `{BrokerChain C} `{BalanceBatch C} `{IndexerChain C}.

(** The index's copy and the sessions stay as they are; and the copy alone. *)
Definition keep_both (a b : redis) : Prop := r_providers b = r_providers a /\ r_broker b = r_broker a.
Definition keep_copy (a b : redis) : Prop := r_providers b = r_providers a.

Lemma set_flag_keeps now k ttl r : keep_both r (set_flag now k ttl r).
Proof. unfold set_flag. by case_match. Qed.

Lemma write_flag_keeps now k ttl : guarantees keep_both (rwrite (set_flag now k ttl) : M C unit).
Proof. apply guarantees_rwrite, set_flag_keeps. Qed.

Lemma clear_flag_keeps k : guarantees keep_both (rwrite (upd_flags (delete k)) : M C unit).
Proof. by apply guarantees_rwrite. Qed.

#[local] Hint Resolve write_flag_keeps clear_flag_keeps : guarantee.

Lemma RequestDeposit_keeps p u pr a : guarantees keep_both (RequestDeposit p u pr a).
Proof. unfold RequestDeposit, request_deposit. guarantee. Qed.

Lemma hub_deposit_keeps h u pr a : guarantees keep_both (hub_deposit h u pr a).
Proof. unfold hub_deposit. destruct (hb_payment h); [apply RequestDeposit_keeps|apply guarantees_ret]. Qed.

#[local] Hint Resolve hub_deposit_keeps : guarantee.

Lemma poll_status_keeps ticks p rid u pr : guarantees keep_both (pollDepositStatus ticks p rid u pr).
Proof.
  induction ticks as [|ticks IH]; cbn [pollDepositStatus]; guarantee.
Qed.

Lemma deposit_turn_keeps h rid u pr : guarantees keep_both (deposit_turn h rid u pr).
Proof. unfold deposit_turn. guarantee. apply poll_status_keeps. Qed.

Lemma load_keys_keeps G keys : guarantees G (load_keys keys : M C (list SessionEntry)).
Proof. induction keys as [|k keys IH]; cbn [load_keys]; guarantee. Qed.

#[local] Hint Resolve load_keys_keeps : guarantee.

Lemma loadSessions_keeps G : guarantees G (loadSessions : M C (list SessionEntry)).
Proof. unfold loadSessions. guarantee. Qed.

Lemma top_up_keeps h userAgg pa p u b : guarantees keep_both (top_up_user (hub_monitor h) userAgg pa p u b).
Proof. unfold top_up_user, IsInflightOrBackoff. change (mn_payment (hub_monitor h)) with (hub_deposit h). guarantee. Qed.

#[local] Hint Resolve top_up_keeps : guarantee.

Lemma monitor_turn_keeps h : guarantees keep_both (monitor_turn h).
Proof.
  unfold monitor_turn. apply guarantees_bind; [|guarantee]. unfold monitor_check. apply guarantees_bind; [guarantee|].
  intros [ss|]; [|guarantee]. destruct (group_sessions ss) as [pu ua]. apply guarantees_mapM. intros [pa us] _. unfold check_provider.
  guarantee.
Qed.

Lemma waitForBalance_keeps G n u p needed : guarantees G (waitForBalance n u p needed : M C bool).
Proof. induction n as [|n IH]; cbn [waitForBalance]; guarantee. Qed.

(** What a registration writes: an entry of its sandbox and its provider. *)
Definition posted (req : postSessionReq) (id : string) (e : SessionEntry) : Prop :=
  id = ps_SandboxID req /\ se_SandboxID e = id /\ se_Provider e = addr_hex (hex_to_address (ps_ProviderAddr req)).

Definition post_step (req : postSessionReq) (a b : redis) : Prop :=
  r_providers b = r_providers a /\ (r_broker b = r_broker a \/ exists e, posted req (ps_SandboxID req) e /\ r_broker b = <[ps_SandboxID req := e]> (r_broker a)).

Lemma keep_post_step req a b : keep_both a b -> post_step req a b.
Proof. intros [? ?]. split; [done|by left]. Qed.

Lemma post_payment_steps h req u p a : guarantees (post_step req) (sh_payment (session_handler h) u p a).
Proof. apply (guarantees_mono keep_both); [apply keep_post_step|apply hub_deposit_keeps]. Qed.

Lemma post_write_steps req f : (forall r, post_step req r (f r)) -> guarantees (post_step req) (rwrite f : M C unit).
Proof. apply guarantees_rwrite. Qed.

Lemma HandlePost_steps h req : guarantees (post_step req) (HandlePost (session_handler h) (Some req)).
Proof.
  cbn [HandlePost]. unfold authenticate_post, fund_and_register. guarantee.
  all: try apply post_payment_steps.
  all: try apply waitForBalance_keeps.
  all: apply post_write_steps; intros rd.
  all: first [apply keep_post_step, set_flag_keeps|split; [done|]; right; eexists; split; [|reflexivity]; by split_and!].
Qed.

Lemma GetSessions_keeps G : guarantees G (GetSessions : M C (list SessionEntry)).
Proof. unfold GetSessions, loadSessions. guarantee. Qed.

Lemma poll_keeps idx : guarantees (fun a b => r_broker b = r_broker a) (poll idx).
Proof.
  unfold poll, sync, revalidate, lastBlock.
  assert (forall l i, guarantees (fun a b => r_broker b = r_broker a) (revalidate_all l i)) as Hr.
  { induction l as [|[k app] l IH]; intros i; cbn [revalidate_all]; unfold isLiveProvider, removeProvider; guarantee; by apply guarantees_rwrite. }
  assert (forall l i, guarantees (fun a b => r_broker b = r_broker a) (refresh_all l i)) as Hf.
  { induction l as [|[k ev] l IH]; intros i; cbn [refresh_all]; unfold refresh_provider, isLiveProvider, removeProvider, persistProvider; guarantee; by apply guarantees_rwrite. }
  guarantee. by apply guarantees_rwrite.
Qed.

Definition delete_step (a b : redis) : Prop := r_providers b = r_providers a /\ (r_broker b = r_broker a \/ exists id, r_broker b = delete id (r_broker a)).

Lemma HandleDelete_steps h id body : guarantees delete_step (HandleDelete (session_handler h) id body : M C reply).
Proof. unfold HandleDelete. guarantee. apply guarantees_rwrite. intros r. split; [done|]. right. by eexists. Qed.

End Keeps.

(** ** The process over time *)

Section HubProperties.
Context `{Keccak} `{Ecdsa} `{SimpleFold} `{RangeOrder} {C : Type} `{PaymentHTTP C} `{BrokerChain C} `{BalanceBatch C} `{IndexerChain C}.
Variables (getenv : string -> string) (parse : string -> option url).
Implicit Types (h : hub) (w : world C).

Lemma bind_ret_world {A B} (m : M C A) (f : A -> B) w : (bind m (fun a => ret (f a)) w).2 = (m w).2.
Proof. unfold bind. by destruct (m w) as [[] w1]. Qed.

Lemma then_ret_world {A B} (m : M C A) (b : B) w : ((m ;; ret b) w).2 = (m w).2.
Proof. apply (bind_ret_world m (fun _ => b)). Qed.

Lemma guarantees_bind_ret G {A B} (m : M C A) (f : A -> B) : guarantees G m -> guarantees G (bind m (fun a => ret (f a))).
Proof. intros Hm. apply guarantees_bind; [done|]. intros a. apply guarantees_ret. Qed.

(** The index's copy is the indexer's alone. *)
Lemma hub_serve_copy h rq : guarantees keep_copy (hub_serve getenv parse h rq).
Proof.
  unfold hub_serve. destruct (hub_route_of _ _ _) as [[]|]; try apply guarantees_ret; apply guarantees_bind_ret.
  - apply GetSessions_keeps.
  - destruct (bind_post _) as [req|]; [|apply guarantees_ret]. eapply guarantees_mono; [|apply HandlePost_steps]. by intros a b [? _].
  - eapply guarantees_mono; [|apply HandleDelete_steps]. by intros a b [? _].
Qed.

(** A restart of the broker serves the index the old process served.  Polls of
    the chain, checks of the monitor, deposits and their polling, and any requests
    to any route, in any order: the index in memory and its copy in Redis stay
    equal, so what the next process loads is what this one last answered. *)
Theorem hub_restart_restores evs h w h' w' :
  quiet w -> mirrored (hb_index h) (w_redis w) -> hub_run getenv parse evs h w = (Ok h', w') ->
  mirrored (hb_index h') (w_redis w') /\ LoadFromRedis ∅ w' = (Ok (hb_index h'), w').
Proof.
  assert (forall A (m : M C A) idx w0, quiet w0 -> guarantees keep_copy m -> mirrored idx (w_redis w0) ->
    quiet (m w0).2 /\ mirrored idx (w_redis (m w0).2)) as Hkeep.
  { intros A m idx w0 Hq Hg [Hc Hk]. destruct (Hg w0) as [Hs Hn]. unfold quiet in *. rewrite Hq in Hs, Hn. apply suffix_nil_inv in Hn.
    split; [done|]. split; [|done]. rewrite <- Hc. exact (steps_keep [] keep_copy r_providers _ _ (Forall_nil_2 _) (fun a b E => E) Hs). }
  revert h w. induction evs as [|e evs IH]; intros h w Hq Hmi E; cbn [hub_run] in E.
  { injection E as <- <-. split; [done|]. pose proof (mi_copy _ _ Hmi) as Hc. rewrite <- Hc. apply LoadFromRedis_mirror; [done|done|by rewrite Hc]. }
  apply bind_Ok in E as (h1 & w1 & E1 & E). destruct e as [| |rq|rid u p|sec]; cbn [hub_exec] in E1.
  - apply bind_Ok in E1 as (idx & w2 & Ep & E1). injection E1 as <- <-.
    destruct (polls_mirrors 1 (hb_index h) w Hq Hmi) as [Epn|(idx' & w3 & Ep' & Hq' & Hmi')].
    + cbn [polls] in Epn. by rewrite (bind_ok _ _ _ _ _ Ep) in Epn.
    + cbn [polls] in Ep'. rewrite (bind_ok _ _ _ _ _ Ep) in Ep'. injection Ep' as <- <-. exact (IH (with_index idx h) w2 Hq' Hmi' E).
  - apply bind_Ok in E1 as (u & w2 & Em & E1). injection E1 as <- <-.
    destruct (Hkeep _ _ _ w Hq (guarantees_mono keep_both _ _ (fun a b K => proj1 K) (monitor_turn_keeps h)) Hmi) as [Hq' Hmi'].
    rewrite Em in Hq', Hmi'. by apply (IH h w2).
  - injection E1 as <- <-. destruct (Hkeep _ _ _ w Hq (hub_serve_copy h rq) Hmi) as [Hq' Hmi']. by apply (IH h _ Hq').
  - apply bind_Ok in E1 as (u1 & w2 & Em & E1). injection E1 as <- <-.
    destruct (Hkeep _ _ _ w Hq (guarantees_mono keep_both _ _ (fun a b K => proj1 K) (deposit_turn_keeps h rid u p)) Hmi) as [Hq' Hmi'].
    rewrite Em in Hq', Hmi'. by apply (IH h w2).
  - injection E1 as <- <-. exact (IH h (set_now _ w) Hq Hmi E).
Qed.

Context `{!BrokerReads C}.

(** The sessions of [r'] were there before or satisfy [P]. *)
Definition sessions_from (P : string -> SessionEntry -> Prop) (r r' : redis) : Prop :=
  forall id e, r_broker r' !! id = Some e -> r_broker r !! id = Some e \/ P id e.

(** A request that registers a session, judged when it came. *)
Definition registers (rq : request) (id : string) (e : SessionEntry) : Prop :=
  exists req h c, bind_post (rq_body rq) = Some req /\ posted req id e /\ provider_signed (session_handler h) req c.

Lemma sessions_keep {A} (m : M C A) P w :
  race_free (w_net w) -> guarantees (fun a b => r_broker b = r_broker a) m -> sessions_from P (w_redis w) (w_redis (m w).2).
Proof.
  intros Hr Hg id e. destruct (Hg w) as [Hs _]. rewrite (steps_keep _ _ r_broker _ _ Hr (fun a b E => E) Hs). by left.
Qed.

Lemma both_broker {A} (m : M C A) : guarantees keep_both m -> guarantees (fun a b => r_broker b = r_broker a) m.
Proof. apply guarantees_mono. by intros a b [_ ?]. Qed.

Lemma sessions_steps {A} (m : M C A) P w G :
  race_free (w_net w) -> guarantees G m ->
  (forall a b, G a b -> r_broker b = r_broker a \/ (exists id, r_broker b = delete id (r_broker a)) \/
     (exists id e, P id e /\ r_broker b = <[id := e]> (r_broker a))) ->
  sessions_from P (w_redis w) (w_redis (m w).2).
Proof.
  intros Hr Hg HG. destruct (Hg w) as [Hs _]. apply race_free_steps in Hs; [|done]. revert Hs.
  generalize (w_redis (m w).2). intros r' Hs id e. induction Hs as [|a b r' Hab _ IH]; [by left|].
  intros He. specialize (IH He). destruct IH as [Hb|]; [|by right].
  destruct (HG a b Hab) as [<-|[(id' & E)|(id' & e' & HP & E)]]; [by left|..]; rewrite E in Hb.
  - apply lookup_delete_Some in Hb as [_ Hb]. by left.
  - apply lookup_insert_Some in Hb as [[<- <-]|[_ Hb]]; [by right|by left].
Qed.

Lemma serve_sessions h rq w : race_free (w_net w) -> sessions_from (registers rq) (w_redis w) (w_redis (hub_serve getenv parse h rq w).2).
Proof.
  intros Hr. unfold hub_serve. destruct (hub_route_of _ _ _) as [[]|]; try (intros ? ?; by left); rewrite bind_ret_world.
  - apply sessions_keep, GetSessions_keeps. exact Hr.
  - destruct (bind_post (rq_body rq)) as [req|] eqn:Eb; [|intros ? ?; by left].
    destruct (post_change_inv _ _ _ _ _ Hr (surjective_pairing (HandlePost (session_handler h) (Some req) w))) as [[-> _]|(Hp & _)];
      [intros ? ?; by left|]. apply (sessions_steps _ _ _ (post_step req)); [done|apply HandlePost_steps|].
    intros a b [_ [Ek|(e & He & Ei)]]; [by left|]. right; right. exists (ps_SandboxID req), e. split; [|done]. by exists req, h, (w_chain w).
  - apply (sessions_steps _ _ _ delete_step); [done|apply HandleDelete_steps|]. intros a b [_ [Ek|(id' & Ei)]]; [by left|]. right; left. by exists id'.
Qed.

Lemma exec_net e h w : race_free (w_net w) -> race_free (w_net (hub_exec getenv parse e h w).2).
Proof.
  intros Hr. assert (forall A (m : M C A) G, guarantees G m -> race_free (w_net (m w).2)) as Hg.
  { intros A m G Hm. exact (race_free_suffix _ _ (proj2 (Hm w)) Hr). }
  destruct e; cbn [hub_exec].
  - rewrite bind_ret_world. eapply Hg, poll_keeps.
  - rewrite then_ret_world. eapply Hg, monitor_turn_keeps.
  - eapply Hg, hub_serve_copy.
  - rewrite then_ret_world. eapply Hg, deposit_turn_keeps.
  - exact Hr.
Qed.

Lemma exec_sessions e h w : race_free (w_net w) ->
  sessions_from (fun id s => exists rq, e = EServe rq /\ registers rq id s) (w_redis w) (w_redis (hub_exec getenv parse e h w).2).
Proof.
  intros Hr. destruct e; cbn [hub_exec].
  - rewrite bind_ret_world. apply sessions_keep, poll_keeps. exact Hr.
  - rewrite then_ret_world. apply sessions_keep, both_broker, monitor_turn_keeps. exact Hr.
  - intros id s Hs. destruct (serve_sessions h rq w Hr id s Hs) as [|]; [by left|]. right. by exists rq.
  - rewrite then_ret_world. apply sessions_keep, both_broker, deposit_turn_keeps. exact Hr.
  - intros ? ?. by left.
Qed.


End HubProperties.

(** ** Coming up *)

Section StartProperties.
Context `{ViperLaws} `{Ecdsa} `{SecpKeys} {C : Type} `{TappDaemon C} `{Endpoints C}.
Implicit Types w : world C.

Lemma silent_quiet {A} (m : M C A) w : guarantees (fun a b => b = a) m -> quiet w -> w_redis (m w).2 = w_redis w /\ quiet (m w).2.
Proof.
  intros Hm Hq. destruct (Hm w) as [Hs Hn]. unfold quiet in *. rewrite Hq in Hs, Hn. split; [|by apply suffix_nil_inv in Hn].
  exact (steps_keep [] (fun a b => b = a) id _ _ (Forall_nil_2 _) (fun a b E => E) Hs).
Qed.

Lemma Get_silent getenv : guarantees (fun a b => b = a) (Tee.Get (C := C) getenv None).
Proof. unfold Tee.Get, fetch, fetchGRPC. guarantee. Qed.

Lemma NewClient_silent cc : guarantees (fun a b => b = a) (NewClient (C := C) cc).
Proof. unfold NewClient. guarantee. Qed.

(** What a broker is when it has come up: its settings passed the broker's
    rules, it talks to the contract they name with the key its tapp handed out
    (which is also its own address for the contract: no provider key is configured),
    asks for deposits under that key exactly when a payment layer is configured,
    and serves the index the last process left. *)
Theorem hub_comes_up getenv src w h w' :
  quiet w -> mirrored (r_providers (w_redis w)) (w_redis w) -> start_hub getenv src w = (Ok h, w') ->
  let ch := cfg_Chain (set_Config (hb_settings h)) in
  let k := set_Broker (hb_settings h) in
  let cl := hb_client h in
  load_broker_settings src = Ok (hb_settings h) /\
  (exists key w1, Tee.Get getenv None w = (Ok (key, Some key), w1) /\ HexToECDSA (PrivateKeyHex key) = Ok (NodeKey cl)) /\
  c_contractAddr cl = hex_to_address (cc_ContractAddress ch) /\ c_tappAddr cl = hex_to_address (cc_TappRegistry ch) /\ c_chainID cl = cc_ChainID ch /\
  client_ProviderKey cl = NodeKey cl /\ KmsProvider cl = false /\
  hb_payment h = (if bool_decide (kc_PaymentLayerURL k = EmptyString) then None
                  else Some (mkPayment (NodeKey cl) (kc_DepositPollIntervalSec k) (kc_DepositPollTimeoutSec k) (kc_MonitorIntervalSec k))) /\
  hb_index h = r_providers (w_redis w) /\ w_redis w' = w_redis w.
Proof.
  intros Hq Hmi (cfg & w1 & Ec & (u & w2 & Ep & ([key cache] & w3 & Eg & (cl & w4 & En & (idx & w5 & El & E)%bind_Ok)%bind_Ok)%bind_Ok)%bind_Ok)%bind_Ok.
  injection E as <- <-. cbv zeta. cbn [hb_settings hb_client hb_payment hb_index]. unfold lift_res in Ec. injection Ec as Ec <-.
  unfold ping in Ep. rewrite rread_quiet in Ep by done. injection Ep as <- <-.
  destruct (silent_quiet _ w (Get_silent getenv) Hq) as [Er3 Hq3]. rewrite Eg in Er3, Hq3. cbn [snd] in Er3, Hq3.
  set (cc := set_TEEPrivateKey _ _) in En. destruct (silent_quiet _ w3 (NewClient_silent cc) Hq3) as [Er4 Hq4]. rewrite En in Er4, Hq4. cbn [snd] in Er4, Hq4.
  rewrite <- Er3, <- Er4 in Hmi. rewrite (LoadFromRedis_mirror _ w4 Hq4 eq_refl Hmi) in El. injection El as <- <-.
  assert (cache = Some key) as ->.
  { unfold Tee.Get in Eg. apply bind_Ok in Eg as (k0 & wk & _ & Eg). by injection Eg as <- <- _. }
  destruct (NewClient_Ok _ _ _ _ En) as (Hk & Hc & Ht & Hid & _ & Hp). cbn [fst] in *.
  assert (cc_ProviderPrivateKey (cfg_Chain (set_Config cfg)) = EmptyString) as Hno by (by eapply decode_no_key, load_broker_settings_Ok).
  change (cc_ProviderPrivateKey cc) with (cc_ProviderPrivateKey (cfg_Chain (set_Config cfg))) in Hp.
  rewrite bool_decide_true in Hp by done. destruct Hp as [Hkms Hpk]. rewrite Er4, Er3. split_and!; try done.
  - by exists key, w3.
  - unfold choose_payment. by case_bool_decide.
Qed.

End StartProperties.

Module HubExamples.
Import Toy IdentityExamples TeeExamples KeysExamples SettingsExamples BrokerExamples.

#[export] Instance map_order : RangeOrder.
Proof. by refine {| range_providers := map_to_list; key_order := fun m => (map_to_list m).*1 |}. Defined.

#[export] Instance registry_broker : BrokerChain registry := {|
  br_GetServicePricing := fun _ c => (Ok (Some (1, 1, Some 50)), c);
  br_GetProviderBalance := fun _ _ c => (Ok 1000000, c);
  br_IsActiveProvider := fun _ c => (Ok true, c)
|}.

#[export] Instance registry_broker_reads : BrokerReads registry.
Proof. by split. Defined.

#[export] Instance registry_balances : BalanceBatch registry := fun us _ c => (Ok ((fun _ => 1000000) <$> us), c).

#[export] Instance registry_indexer : IndexerChain registry := {|
  ix_GetServiceUpdatedEvents := fun _ c => (Ok ([], 20), c);
  ix_GetServiceInfo := fun _ c => (Ok None, c);
  ix_IsActiveProvider := fun _ c => (Ok true, c)
|}.

#[export] Instance registry_payment : PaymentHTTP registry := {|
  deposit_post := fun _ _ _ _ _ c => (Ok (200, Some "r1"), c);
  deposit_status := fun _ c => (Ok "pending", c)
|}.

(** The index an earlier broker left: Alice's service. *)
Definition alice_record : ProviderRecord := mkProvider (bc_providerAddr alice) "https://alice.example" "app-a" 60 1 60 1 50 7 900.

Definition left_behind : redis := upd_providers <[bc_providerAddr alice := alice_record]> empty_redis.

Definition hub_world : world registry := at_registry 1010 left_behind (9, 4096, 77).

Definition no_hub : hub := mkHub broker_settings (mkClient 0 0 0 0 0 0 false) None false ∅.
Definition client_hub : res hub * world registry := start_hub env0 broker_src hub_world.
Definition hub0 : hub := match client_hub.1 with Ok h => h | _ => no_hub end.

Lemma hub0_comes_up : start_hub env0 broker_src hub_world = (Ok hub0, hub_world).
Proof. vm_compute. reflexivity. Qed.

Lemma left_mirrored : mirrored (r_providers left_behind) left_behind.
Proof. split; [done|]. cbn. intros k rec [[<- <-]|[_ Hl]]%lookup_insert_Some; [vm_compute; done|by apply lookup_empty_Some in Hl]. Qed.

Lemma hub_comes_up_witness :
  let ch := cfg_Chain (set_Config (hb_settings hub0)) in
  let k := set_Broker (hb_settings hub0) in
  let cl := hb_client hub0 in
  load_broker_settings broker_src = Ok (hb_settings hub0) /\
  (exists key w1, Tee.Get env0 None hub_world = (Ok (key, Some key), w1) /\ HexToECDSA (PrivateKeyHex key) = Ok (NodeKey cl)) /\
  c_contractAddr cl = hex_to_address (cc_ContractAddress ch) /\ c_tappAddr cl = hex_to_address (cc_TappRegistry ch) /\ c_chainID cl = cc_ChainID ch /\
  client_ProviderKey cl = NodeKey cl /\ KmsProvider cl = false /\
  hb_payment hub0 = (if bool_decide (kc_PaymentLayerURL k = EmptyString) then None
                  else Some (mkPayment (NodeKey cl) (kc_DepositPollIntervalSec k) (kc_DepositPollTimeoutSec k) (kc_MonitorIntervalSec k))) /\
  hb_index hub0 = r_providers left_behind /\ left_behind = left_behind.
Proof. exact (hub_comes_up env0 broker_src hub_world hub0 hub_world eq_refl left_mirrored hub0_comes_up). Defined.

(** Alice's request as the bytes decode, and a run of the process around it. *)
Definition post_body (r : postSessionReq) : body :=
  BText (JObj [("sandbox_id", JStr (ps_SandboxID r)); ("provider_addr", JStr (ps_ProviderAddr r)); ("user_addr", JStr (ps_UserAddr r));
               ("cpu", JNum (ps_CPU r) false); ("mem_gb", JNum (ps_MemGB r) false); ("start_time", JNum (ps_StartTime r) false);
               ("voucher_interval_sec", JNum (ps_VoucherIntervalSec r) false); ("signature", JStr (ps_Signature r))]) false.

Definition alice_post : request := mkReq "POST" "/api/session" ∅ (post_body (request_of alice 1000)).
Definition list_providers : request := mkReq "GET" "/api/providers" ∅ BEmpty.

Definition day : list hub_event := [EPoll; ECheck; EServe alice_post; EWait 300; ECheck; EServe list_providers; EPoll].

Definition no_url (s : string) : option url := None.

Definition ran : res hub * world registry := hub_run env0 no_url day hub0 hub_world.

Lemma ran_ok : ran = (Ok hub0, ran.2).
Proof. vm_compute. reflexivity. Qed.

Lemma hub_restart_restores_witness :
  mirrored (hb_index hub0) (w_redis ran.2) /\ LoadFromRedis ∅ ran.2 = (Ok (hb_index hub0), ran.2).
Proof. exact (hub_restart_restores env0 no_url day hub0 hub_world hub0 ran.2 eq_refl left_mirrored ran_ok). Defined.

Lemma session_recorded : r_broker left_behind !! "sb1" = None /\ is_Some (r_broker (w_redis ran.2) !! "sb1").
Proof. vm_compute. split; [done|by eexists]. Qed.


(** The same body under another route or method reaches nothing. *)
Example unrouted :
  (hub_route_of false "PUT" "/api/session", hub_route_of false "GET" "/api/monitor", hub_route_of true "GET" "/api/monitor",
   hub_route_of false "DELETE" "/api/session/sb1", hub_route_of false "DELETE" "/api/session/sb1/x", hub_route_of false "HEAD" "/proxy/0xAB/v1/x")
  = (None, None, Some BMonitor, Some (BDelete "sb1"), None, Some (BRelay "0xAB" "/v1/x")).
Proof. vm_compute. reflexivity. Qed.

(** Nothing checks the intervals: with 0 seconds between two polls of a deposit,
    or two checks, the settings load and the broker comes up; the first deposit, or
    the first check, ends the process. *)
Definition zero_src (name : string) : sources :=
  mkSources (environment ((name, "0") :: ("PAYMENT_LAYER_URL", "http://pay") :: shared_vars)) (fun _ => None).

Definition zero_hub (name : string) : hub := match (start_hub env0 (zero_src name) hub_world).1 with Ok h => h | _ => no_hub end.

Theorem zero_interval_kills :
  (start_hub env0 (zero_src "BROKER_DEPOSIT_POLL_INTERVAL_SEC") hub_world).1 = Ok (zero_hub "BROKER_DEPOSIT_POLL_INTERVAL_SEC") /\
  (hub_run env0 no_url [ECheck; EDeposit "r1" 7 8] (zero_hub "BROKER_DEPOSIT_POLL_INTERVAL_SEC") hub_world).1 = Panic /\
  (start_hub env0 (zero_src "BROKER_MONITOR_INTERVAL_SEC") hub_world).1 = Ok (zero_hub "BROKER_MONITOR_INTERVAL_SEC") /\
  (hub_run env0 no_url [ECheck] (zero_hub "BROKER_MONITOR_INTERVAL_SEC") hub_world).1 = Panic.
Proof. vm_compute. done. Qed.

End HubExamples.
