(* ===== verification/Front.v ===== *)
(** * The billing daemon's front (cmd/billing/main.go: main)

    How the daemon comes up from its settings, its tapp and the chain, and its
    router: the engine-wide guard, the CORS answer, the public reads, and the group
    behind the wallet signature. *)

From stdpp Require Import pretty.
From S2P Require Import Prelude Decimal Hex Bytes Crypto Voucher Store Session Billing Meter Json CreatePolicy Guard Config ChainTypes Chain Daytona Seal Registry Http Auth Broker Gate Access Console Issuer Startup Identity Tee Keys Info Attestor Wiring Settings Daemon.

(** ** The application's certificate *)

(** The daemon's answer, PEM texts on success, and [tls.X509KeyPair]. *)
Class TappTLS (C : Type) := {
  rpc_GetAppTlsCert : string -> string -> C -> res (bool * string * string) * C;
  X509KeyPair : string -> string -> res unit
}.

(** [internal/tee/identity.go:93-110 AppTLSCertificate] *)
Definition AppTLSCertificate {C} `{TappTLS C} (getenv : string -> string) (appID : string) : M C unit :=
  if bool_decide (getenv "BACKEND_TAPP_SOCKET" = EmptyString) then fail (EMsg "tee: BACKEND_TAPP_SOCKET is required for app TLS")
  else
    let! resp := chain_call (rpc_GetAppTlsCert (tappTarget getenv) appID) in
    let '(success, cert, key) := resp in
    if negb success then fail (EMsg "tee: GetAppTlsCert failed") else lift_res (X509KeyPair cert key).

(** ** Routes *)

(** The reads nobody has to sign. *)
Inductive public_route :=
| GHealth | GPage | GScript | GLogo | GProviders | GInfo | GAttestor | GSnapshots | GImages | GSandboxes | GEvents.

Inductive front_route := FPublic (r : public_route) | FWallet (r : route) | FConsole (r : console_route).

(** The routes without a parameter.  [query] is the first value of a query
    parameter. [internal/proxy/handler.go:277-321 Register] *)
Definition static_routes (query : string -> string) : list (string * string * front_route) := [
  ("GET", "/healthz", FPublic GHealth); ("GET", "/", FPublic GPage); ("GET", "/dashboard", FPublic GPage);
  ("GET", "/static/ethers.js", FPublic GScript); ("GET", "/static/logo.svg", FPublic GLogo);
  ("GET", "/api/providers", FPublic GProviders); ("GET", "/api/info", FPublic GInfo); ("GET", "/api/attestor-tls", FPublic GAttestor);
  ("GET", "/api/snapshots", FPublic GSnapshots); ("GET", "/api/registry/images", FPublic GImages);
  ("GET", "/api/sandbox_list", FPublic GSandboxes); ("GET", "/api/events", FPublic GEvents);
  ("POST", "/api/sandbox", FWallet RCreate); ("GET", "/api/balance", FWallet RBalance); ("GET", "/api/sandbox", FWallet RList);
  ("GET", "/api/sandbox/paginated", FWallet RList); ("GET", "/api/volumes", FWallet RVolumes);
  ("POST", "/api/snapshots", FWallet RSnapshotCreate); ("POST", "/api/archive-all", FWallet RArchiveAll);
  ("GET", "/api/sessions", FWallet RSessionList); ("GET", "/api/audit-log", FWallet RAuditLog);
  ("POST", "/api/registry/pull", FConsole CPull); ("POST", "/api/registry/gc", FConsole (CGC (query "dry_run")));
  ("GET", "/api/queue/summary", FConsole (CQueueSummary (query "min_count"))); ("GET", "/api/queue/dlq", FConsole CDeadLetters);
  ("POST", "/api/queue/dlq/discard", FConsole CDiscard); ("POST", "/api/queue/aggregate", FConsole CAggregate);
  ("GET", "/api/observability", FConsole CObservability)].

Fixpoint find_route (method path : string) (l : list (string * string * front_route)) : option front_route :=
  match l with
  | [] => None
  | (m, p, r) :: l' => if bool_decide (m = method) && bool_decide (p = path) then Some r else find_route method path l'
  end.

(** The segment after a prefix, and the rest of the path from its slash on. *)
Definition param_of (prefix path : string) : option (string * option string) :=
  if starts_with prefix path then
    match cut "/" (trim_prefix prefix path) with
    | (EmptyString, _) => None
    | (id, rest) => Some (id, String "/" <$> rest)
    end
  else None.

(** Methods [Any] registers. *)
Definition any_methods : list string := ["GET"; "POST"; "PUT"; "PATCH"; "HEAD"; "OPTIONS"; "DELETE"; "CONNECT"; "TRACE"].

(** The routes with a parameter. [internal/proxy/handler.go:277-321 Register] *)
Definition param_route (method path : string) : option front_route :=
  match param_of "/api/sandbox/" path with
  | Some (id, None) =>
      if bool_decide (method = "DELETE") then Some (FWallet (RDelete id))
      else if bool_decide (method = "GET") then Some (FWallet (RGet id)) else None
  | Some (id, Some action) => if bool_decide (method ∈ any_methods) then Some (FWallet (RCatchAll id action)) else None
  | None =>
  match param_of "/api/toolbox/" path with
  | Some (id, Some _) => if bool_decide (method ∈ any_methods) then Some (FWallet (RToolbox id)) else None
  | Some (_, None) => None
  | None =>
      if bool_decide (method = "DELETE") then
        match param_of "/api/snapshots/" path, param_of "/api/sessions/" path with
        | Some (id, None), _ => Some (FWallet (RSnapshotDelete id))
        | _, Some (id, None) => Some (FWallet (RCloseSession id))
        | _, _ => None
        end
      else None
  end end.

(** A route without a parameter comes before one with. *)
Definition front_route_of (method path : string) (query : string -> string) : option front_route :=
  match find_route method path (static_routes query) with Some r => Some r | None => param_route method path end.

(** ** Answers *)

Inductive front_reply :=
| FAnswer (a : answer)
| FPage (p : page)
| FInfo (ms : list (string * json))
| FStatic (name : string)
| FStatement (st : Z * option Z * option string)
| FPreflight
| FUnrouted.

(** [cmd/billing/main.go:289-291 main] *)
Definition cors_headers : list (string * string) := [
  ("Access-Control-Allow-Origin", "*"); ("Access-Control-Allow-Methods", "GET, POST, DELETE, OPTIONS");
  ("Access-Control-Allow-Headers", "Content-Type, Authorization, X-Wallet-Address, X-Signed-Message, X-Wallet-Signature, Daytona-Admin-Key")].

(** What the goroutines behind a reply are. *)
Definition tasks_of (r : front_reply) : list task := match r with FAnswer (_, ts) => ts | _ => [] end.

(** The router's parts; [fr_owner] is the resolver of the app owner, [fr_pins]
    whether there is an attestor whose pins are served. *)
Record front (C : Type) := mkFront {
  fr_proxy : Handler C;
  fr_opts : Options;
  fr_console : Console C;
  fr_posted : Posted;
  fr_booted : Booted;
  fr_owner : M C (string + rerr);
  fr_pins : option unit;
  fr_pages : nat
}.
Arguments fr_proxy {C}. Arguments fr_opts {C}. Arguments fr_console {C}. Arguments fr_posted {C}. Arguments fr_booted {C}.
Arguments fr_owner {C}. Arguments fr_pins {C}. Arguments fr_pages {C}.

Section Front.
Context `{Keccak} `{Ecdsa} `{SimpleFold} `{JsonText} `{SealDebug} {C : Type} `{DaytonaHTTP C} `{BrokerHTTP C} `{ImageNames} `{Crane C}
  `{KeyGen C} `{Upstream C} `{SessionScan} `{EthNode C} `{Bindings C} `{NodeReads C} `{RegistryV2 C}.

(** [tls] is what the attestor's refresher has for this request, [cache] the
    client's block times. [cmd/billing/main.go:298-317 main] *)
Definition serve_public (fr : front C) (cache : block_cache) (tls : option string * Z) (r : public_route) (path escaped : string)
  (query : string -> string) : M C (front_reply * block_cache) :=
  match r with
  | GHealth => ret (FAnswer (RJson 200 [("ok", "true")], []), cache)
  | GPage => ret (FStatic "dashboard.html", cache)
  | GScript => ret (FStatic "ethers.js", cache)
  | GLogo => ret (FStatic "logo.svg", cache)
  | GProviders => let! p := list_providers (ProviderAddress (bt_client (fr_booted fr))) in ret (FPage p, cache)
  | GInfo => let! ms := api_info (fr_posted fr) (fr_booted fr) (fr_owner fr) in ret (FInfo ms, cache)
  | GAttestor => ret (FStatement (Handle (fr_pins fr) tls), cache)
  | GSnapshots => let! p := list_snapshot_images (fr_pages fr) in ret (FPage p, cache)
  | GImages => let! p := registry_images in ret (FPage p, cache)
  | GSandboxes => let! p := sandbox_list (fr_pages fr) (query "wallet") in ret (FPage p, cache)
  | GEvents =>
      let! r := public_events (bt_client (fr_booted fr)) cache path escaped (query "since") (query "page") (query "page_size") in
      ret (FPage r.1, r.2)
  end.

(** The operator's routes of the signed group. [cmd/billing/main.go:573-576 main] *)
Definition serve_console (fr : front C) (escaped : string) (r : console_route) (rq : request) : M C front_reply :=
  let! who := MiddlewareWithOptions (fr_opts fr) EmptyString rq in
  match who with
  | inr e => ret (FAnswer (e, []))
  | inl wallet =>
      if PathTraversalGuard (rq_path rq) escaped then let! p := console (fr_console fr) wallet r (rq_body rq) in ret (FPage p)
      else ret (FAnswer (error_reply 400 "malformed path", []))
  end.

(** One request; [escaped] is the path as it was sent, [polls] how many polls the
    request's context allows.
    [cmd/billing/main.go:277-297 main] *)
Definition front_serve (fr : front C) (cache : block_cache) (tls : option string * Z) (polls : nat) (escaped : string)
  (query : string -> string) (rq : request) : M C (front_reply * block_cache) :=
  if negb (PathTraversalGuard (rq_path rq) escaped) then ret (FAnswer (error_reply 400 "malformed path", []), cache)
  else if bool_decide (rq_method rq = "OPTIONS") then ret (FPreflight, cache)
  else
    match front_route_of (rq_method rq) (rq_path rq) query with
    | None => ret (FUnrouted, cache)
    | Some (FPublic r) => serve_public fr cache tls r (rq_path rq) escaped query
    | Some (FWallet r) => let! a := serve (fr_proxy fr) (fr_opts fr) polls escaped r rq in ret (FAnswer a, cache)
    | Some (FConsole r) => let! a := serve_console fr escaped r rq in ret (a, cache)
    end.

End Front.

(** ** Looking only

    [looks m]: [m] leaves Redis, the clock, the stop channel and the alerts alone,
    and what it does outside is a series of reads: GETs at Daytona, views of the
    contracts, of the node and of the registry's catalog. *)

Section Looks.
Context {C : Type} `{DaytonaHTTP C} `{EthNode C} `{Bindings C} `{NodeReads C} `{RegistryV2 C}.
Implicit Types w : world C.

Inductive look : C -> C -> Prop :=
| look_daytona path c : look c (do_http "GET" path BEmpty c).2
| look_services p c : look c (b_Services p c).2
| look_exists p c : look c (b_ServiceExists p c).2
| look_active p c : look c (b_IsActiveProvider p c).2
| look_node a p c : look c (t_GetNode a p c).2
| look_app a c : look c (t_GetAppInfo a c).2
| look_balance a c : look c (n_BalanceAt a c).2
| look_gas c : look c (n_SuggestGasPrice c).2
| look_block c : look c (BlockNumber c).2
| look_header n c : look c (HeaderTime n c).2
| look_logs n a t c : look c (FilterLogs n a t c).2
| look_catalog c : look c (v2_catalog c).2
| look_tags repo c : look c (v2_tags repo c).2.

Definition looks {A} (m : M C A) : Prop := forall w, exists x c, m w = (x, set_chain c w) /\ rtc look (w_chain w) c.

Lemma looks_pure {A} (f : world C -> res A) : looks (fun w => (f w, w)).
Proof. intros w. exists (f w), (w_chain w). by rewrite set_chain_same. Qed.

Lemma looks_ret {A} (a : A) : looks (ret a).
Proof. apply (looks_pure (fun _ => Ok a)). Qed.

Lemma looks_fail {A} e : looks (fail e : M C A).
Proof. apply (looks_pure (fun _ => Err e)). Qed.

Lemma looks_panic {A} : looks (panic : M C A).
Proof. apply (looks_pure (fun _ => Panic)). Qed.

Lemma looks_gets {A} (f : world C -> A) : looks (gets f).
Proof. apply (looks_pure (fun w => Ok (f w))). Qed.

Lemma looks_lift {A} (x : res A) : looks (lift_res x : M C A).
Proof. apply (looks_pure (fun _ => x)). Qed.

Lemma looks_bind {A B} (m : M C A) (k : A -> M C B) : looks m -> (forall a, looks (k a)) -> looks (bind m k).
Proof.
  intros Hm Hk w. unfold bind. destruct (Hm w) as (x & c & -> & Hc). destruct x as [a|e|]; [|by eexists _, c..].
  destruct (Hk a (set_chain c w)) as (y & c' & -> & Hc'). exists y, c'. split; [done|]. by etrans.
Qed.

Lemma looks_attempt {A} (m : M C A) : looks m -> looks (attempt m).
Proof. intros Hm w. unfold attempt. destruct (Hm w) as (x & c & -> & Hc). destruct x; by eexists _, c. Qed.

Lemma looks_call {A} (f : C -> res A * C) : (forall c, look c (f c).2) -> looks (chain_call f).
Proof.
  intros Hf w. unfold chain_call. pose proof (Hf (w_chain w)) as Hs. destruct (f (w_chain w)) as [x c]. exists x, c.
  split; [done|]. by apply rtc_once.
Qed.

End Looks.

Create HintDb looks.
#[local] Hint Constructors look : looks.
#[local] Hint Resolve looks_ret looks_fail looks_panic looks_gets looks_lift : looks.

Ltac looking :=
  repeat first
    [ progress intros
    | apply looks_bind
    | apply looks_attempt
    | apply looks_call
    | match goal with
      | |- looks (match ?x with _ => _ end) => destruct x
      | |- looks (if ?x then _ else _) => destruct x
      end
    | solve [auto with looks] ].

Section Unsigned.
Context `{Keccak} `{Ecdsa} `{SimpleFold} `{JsonText} `{SealDebug} {C : Type} `{DaytonaHTTP C} `{BrokerHTTP C} `{ImageNames} `{Crane C}
  `{KeyGen C} `{Upstream C} `{SessionScan} `{EthNode C} `{Bindings C} `{NodeReads C} `{RegistryV2 C}.
Implicit Types (fr : front C) (w : world C).

Lemma ListSandboxes_looks fuel : looks (ListSandboxes fuel : M C _).
Proof.
  unfold ListSandboxes. generalize (@EmptyString), (@nil Sandbox). induction fuel as [|fuel IH]; intros cur acc; cbn [list_sandboxes]; looking.
Qed.

Lemma ListSnapshots_looks fuel : looks (ListSnapshots fuel : M C _).
Proof.
  unfold ListSnapshots. generalize 1, (@nil Snapshot). induction fuel as [|fuel IH]; intros page all; cbn [list_snapshots]; looking.
Qed.

Lemma image_names_looks repos : looks (image_names repos : M C _).
Proof. induction repos as [|repo repos IH]; cbn [image_names]; looking. Qed.

#[local] Hint Resolve ListSandboxes_looks ListSnapshots_looks image_names_looks : looks.

Lemma fetch_looks blocks : looks (fetchTimestamps blocks : M C _).
Proof. induction blocks as [|b blocks IH]; cbn [fetchTimestamps]; looking. Qed.

#[local] Hint Resolve fetch_looks : looks.

Lemma events_look cl cache path escaped since page page_size : looks (public_events cl cache path escaped since page page_size : M C _).
Proof. unfold public_events, handleEvents, GetVoucherEvents, from_block, getAvgBlockTime. looking. Qed.

Lemma list_providers_look p : looks (list_providers p : M C _).
Proof. unfold list_providers, GetServiceInfo. looking. Qed.

Lemma api_info_look po b (owner : M C (string + rerr)) : looks owner -> looks (api_info po b owner).
Proof.
  intros Ho. unfold api_info, signer_health, settler_health, GetServiceAppId, IsProviderActive, IsActiveProvider, node_signer_active, GetServiceAppId, IsActiveNode, BalanceAt,
    SuggestGasPrice. looking; exact Ho.
Qed.

Lemma public_looks fr cache tls r path escaped query : looks (fr_owner fr) -> looks (serve_public fr cache tls r path escaped query).
Proof.
  intros Ho. destruct r; cbn [serve_public]; try apply looks_ret; (apply looks_bind; [|intros; apply looks_ret]).
  - apply list_providers_look.
  - by apply api_info_look.
  - unfold list_snapshot_images. looking.
  - unfold registry_images. looking.
  - unfold sandbox_list. looking.
  - apply events_look.
Qed.

(** The middleware takes the nonce of a request it accepts, and does nothing
    else. *)
Lemma middleware_refuses opts id rq w : quiet w ->
  (forall wallet w', MiddlewareWithOptions opts id rq w <> (Ok (inl wallet), w')) ->
  exists x, MiddlewareWithOptions opts id rq w = (x, w) /\ (forall wallet, x <> Ok (inl wallet)).
Proof.
  intros Hq Hn. destruct (MiddlewareWithOptions opts id rq w) as [x w'] eqn:E. exists x.
  assert (w' = w) as ->; [|split; [done|intros wallet ->; by apply (Hn wallet w)]].
  revert E. unfold MiddlewareWithOptions. cbv zeta. destruct (_ || _ || _); [by intros [= _ <-]|].
  destruct (b64_decode _) as [msg|]; [|by intros [= _ <-]]. destruct (unmarshal_signed _) as [req|e|]; [|by intros [= _ <-]..].
  unfold bind at 1. cbn [gets]. case_match_eq; [by intros [= _ <-]|]. case_match_eq; [by intros [= _ <-]|].
  destruct (hex_decode _) as [sig|]; [|by intros [= _ <-]]. destruct (Recover msg sig) as [a|e|]; [|by intros [= _ <-]..].
  destruct (negb (equal_fold _ _)); [by intros [= _ <-]|]. destruct (binding_error _ _ _); [by intros [= _ <-]|].
  unfold bind, attempt. rewrite rcmd_quiet by done. unfold setnx. destruct (flag_live _ _ _); cbn; intros [= <- <-]; [by destruct w|].
  by destruct (Hn (header_get (rq_header rq) "X-Wallet-Address") _ eq_refl).
Qed.

(** Nobody's signature is on the request, for whatever it is bound to. *)
Definition unsigned fr rq w : Prop :=
  forall id wallet w', MiddlewareWithOptions (fr_opts fr) id rq w <> (Ok (inl wallet), w').

Lemma public_starts_nothing fr cache tls r path escaped query w a w' :
  serve_public fr cache tls r path escaped query w = (Ok a, w') -> tasks_of a.1 = [].
Proof. destruct r; cbn [serve_public]; try (by intros [= <- _]); by intros (p & w1 & _ & [= <- _])%bind_Ok. Qed.

(** The outcome of a request that changes nothing. *)
Definition only_looked w (y : res (front_reply * block_cache) * world C) : Prop :=
  exists x c, y = (x, set_chain c w) /\ rtc look (w_chain w) c /\ match x with Ok (r, _) => tasks_of r = [] | _ => True end.

Lemma only_looked_same w x : match x with Ok (r, _) => tasks_of r = [] | _ => True end -> only_looked w (x, w).
Proof. intros Hx. exists x, (w_chain w). by rewrite set_chain_same. Qed.


End Unsigned.

(** ** Coming up *)

(** [internal/proxy/broker.go:32-41 newBrokerClient] *)
Definition newBrokerClient (providerKey : Z) (providerAddr : string) (voucherIntervalSec : Z) : brokerClient :=
  mkBroker providerKey providerAddr voucherIntervalSec.

(** The broker client of the proxy, if a broker is configured.
    [internal/proxy/handler.go:204-207 NewHandler] *)
Definition broker_for (brokerURL : string) (providerKey : Z) (providerAddress : string) (voucherIntervalSec : Z) : option brokerClient :=
  if negb (bool_decide (brokerURL = EmptyString)) then Some (newBrokerClient providerKey providerAddress voucherIntervalSec) else None.

(** The origin of the node's URL: its own text where it does not parse.
    [cmd/billing/main.go:369-372 main] *)
Definition rpc_origin (origin : string -> option (string * string)) (rpcURL : string) : string :=
  match origin rpcURL with Some (scheme, host) => scheme +:+ "://" +:+ host | None => rpcURL end.

(** A started daemon. *)
Record daemon (C : Type) := mkDaemon {
  dm_settings : Settings;
  dm_booted : Booted;
  dm_prices : Prices;
  dm_handler : EventHandler;
  dm_attestor : option attestorIdentity;
  dm_front : front C
}.
Arguments dm_settings {C}. Arguments dm_booted {C}. Arguments dm_prices {C}. Arguments dm_handler {C}. Arguments dm_attestor {C}. Arguments dm_front {C}.

(** What the parts are built from besides the settings: the parsed URLs, the
    resolver of the app owner (for the page and for the administrators' check), the
    attestor's check, the registry's catalog, and the number of Daytona pages. *)
Record surroundings (C : Type) := mkSurroundings {
  su_origin : string -> option (string * string);
  su_host : string -> string;
  su_owner : M C (string + rerr);
  su_AppOwner : C -> res string * C;
  su_IsAppSigner : attestorIdentity -> string -> C -> res bool * C;
  su_catalog : C -> res (list string) * C;
  su_tags : string -> C -> res (list string) * C;
  su_pages : nat
}.
Arguments su_origin {C}. Arguments su_host {C}. Arguments su_owner {C}. Arguments su_AppOwner {C}. Arguments su_IsAppSigner {C}.
Arguments su_catalog {C}. Arguments su_tags {C}. Arguments su_pages {C}.

Section Start.
Context `{Viper} `{Keccak} `{Ecdsa} `{SecpKeys} {C : Type} `{TappDaemon C} `{TappTLS C} `{Endpoints C} `{EthNode C} `{Bindings C} `{BlockReads C}.
Variables (getenv : string -> string) (su : surroundings C).

(** The client as the issuer check sees it. *)
Definition issuer_scope (cl : Client) : scope := mkScope (Some (c_chainID cl)) (c_tappAddr cl) (c_providerAddr cl) (c_kmsProvider cl).

(** [cmd/billing/main.go:577-589 main] *)
Definition front_facilities (cfg : Settings) (b : Booted) (attestor : option attestorIdentity) : Facilities C :=
  let cl := bt_client b in
  mkFacilities C (cfg_AdminKey (set_Config cfg)) (fun u p => on_chain (GetBalance u p)) (fun u => on_chain (IsAcknowledged cl u))
    (sc_SSHGatewayHost (set_Server cfg)) (client_ProviderKey cl)
    (broker_for (sc_BrokerURL (set_Server cfg)) (client_ProviderKey cl) (addr_hex (ProviderAddress cl))
       (bc_VoucherIntervalSec (cfg_Billing (set_Config cfg))))
    (sc_SealedOnly (set_Server cfg)) (su_AppOwner su) (su_IsAppSigner su <$> attestor)
    (on_chain (SealIssuer_of (issuer_scope cl) (getenv "BACKEND_APP_NAME"))) (su_pages su) (getenv "PROXY_DOMAIN") (getenv "PROXY_PROTOCOL").

(** The attestor the settings name; a stored authorization that fails ends the
    process. [cmd/billing/main.go:462-474 main] *)
Definition start_attestor (cc : ChainConfig) : M C (option attestorIdentity) :=
  if bool_decide (cc_AttestorAppID cc = EmptyString) then ret None
  else
    let attestor := newAttestorIdentity (cc_ChainID cc mod 2 ^ 64) (cc_TappRegistry cc) (cc_AttestorAppID cc) (cc_AttestorInstance cc) in
    storeAuthorized attestor ;; ret (Some attestor).

(** Without an attestor or a KMS provider no pins are served.
    [cmd/billing/main.go:477-482 main] *)
Definition attestor_pins (cl : Client) (attestor : option attestorIdentity) : option unit :=
  NewAttestorTLS (Some (client_ProviderKey cl)) (c_chainID cl mod 2 ^ 64) (c_tappAddr cl)
    (if KmsProvider cl then (fun _ => tt) <$> attestor else None).

(** [cmd/billing/main.go:572-577 main] *)
Definition build_front (cfg : Settings) (b : Booted) (pr : Prices) (attestor : option attestorIdentity) : front C :=
  let c := set_Config cfg in
  let cl := bt_client b in
  let provider := ProviderAddress cl in
  let px := proxy_handler (cfg_Billing c) (cfg_Chain c) pr provider (bt_signer b) (front_facilities cfg b attestor) in
  mkFront C px (mkOptions (addr_hex provider) (sc_AuthStrict (set_Server cfg)))
    (mkConsole C px provider (su_host su (set_RegistryURL cfg)) (su_catalog su) (su_tags su) (al_QueueBacklogThreshold (set_Alert cfg)))
    (mkPosted (cfg_Chain c) (cfg_Billing c) pr (rpc_origin (su_origin su) (cc_RPCURL (cfg_Chain c))) (getenv "BACKEND_APP_NAME")
       (sc_SealedOnly (set_Server cfg)) (al_SettlerLowBalanceFactor (set_Alert cfg)))
    b (su_owner su) (attestor_pins cl attestor) (su_pages su).

(** The steps that can end the process, in order; the goroutines start in between
    and the server last.
    [cmd/billing/main.go:42-66 main] *)
Definition start_daemon (src : sources) : M C (daemon C) :=
  let! cfg := lift_res (load_settings src) in
  let! _ := rread (fun _ => tt) in
  let c := set_Config cfg in
  let! b := boot getenv (cfg_Chain c) in
  let! pr := startup_prices (cfg_Billing c) (ProviderAddress (bt_client b)) in
  let handler := billing_handler (cfg_Billing c) pr (ProviderAddress (bt_client b)) (bt_signer b) in
  let! attestor := start_attestor (cfg_Chain c) in
  let! _ := if sc_TLSEnabled (set_Server cfg) then AppTLSCertificate getenv (getenv "BACKEND_APP_NAME") else ret tt in
  ret (mkDaemon C cfg b pr handler attestor (build_front cfg b pr attestor)).

End Start.

(** ** One provider *)

Section StartProperties.
Context `{ViperLaws} `{KeccakLaws} `{EcdsaLaws} `{SecpLaws} {C : Type} `{TappDaemon C} `{TappTLS C} `{Endpoints C} `{EthNode C} `{Bindings C} `{BlockReads C}.
Variables (getenv : string -> string) (su : surroundings C).
Implicit Types w : world C.

Lemma load_settings_chain src s : load_settings src = Ok s ->
  cc_ProviderPrivateKey (cfg_Chain (set_Config s)) = EmptyString /\ config_ok (set_Config s).
Proof.
  intros (d & Ed & _ & _ & _ & _ & Ev)%load_settings_Ok. split; [|by eapply validate_ok].
  pose proof (decode_no_key _ _ Ed) as Hk. revert Ev. unfold validate. destruct (missing _); [done|]. destruct (_ =? 0); [done|].
  destruct (negb _); [done|]. case_bool_decide; [by intros [= <-]|]. destruct (NormalizeAttestorInstance _); [|done..]. by intros [= <-].
Qed.

Lemma start_owner src w d w' : start_daemon getenv su src w = (Ok d, w') -> fr_owner (dm_front d) = su_owner su.
Proof.
  intros (cfg & w1 & _ & (u & w2 & _ & (b & w3 & _ & (pr & w4 & _ & (at' & w5 & _ & (t & w6 & _ & E)%bind_Ok)%bind_Ok)%bind_Ok)%bind_Ok)%bind_Ok)%bind_Ok.
  by injection E as <- _.
Qed.

(** C25: One provider everywhere.  In a daemon that has come up, one key and its
    address are at every place that speaks for the provider: vouchers are signed with
    it and name it, settlements come from it, requests must be signed for it, sealed
    certificates carry its signature, the broker client registers sessions under it,
    the operator's queue endpoints look at its queue, and sealed creates authenticate
    it on the chain and registry the settings name. *)
Theorem daemon_is_one_provider src w d w' :
  answers_bytes (C := C) -> start_daemon getenv su src w = (Ok d, w') ->
  let cl := bt_client (dm_booted d) in
  let key := client_ProviderKey cl in
  let provider := key_addr key in
  let ch := cfg_Chain (set_Config (dm_settings d)) in
  let fr := dm_front d in
  load_settings src = Ok (dm_settings d) /\
  eh_signer (dm_handler d) = mkSigner key (cc_ChainID ch) (hex_to_address (cc_ContractAddress ch)) provider /\
  eh_providerAddress (dm_handler d) = addr_hex provider /\ SettlerAddress cl = provider /\
  fr_booted fr = dm_booted d /\ px_billing (fr_proxy fr) = dm_handler d /\ px_providerAddress (fr_proxy fr) = addr_hex provider /\
  o_ProviderAddress (fr_opts fr) = addr_hex provider /\ co_provider (fr_console fr) = provider /\ co_proxy (fr_console fr) = fr_proxy fr /\
  px_sealKey (fr_proxy fr) = Some key /\
  match px_broker (fr_proxy fr) with
  | Some b => bc_providerKey b = key /\ bc_providerAddr b = addr_hex provider /\ bc_voucherIntervalSec b = bc_VoucherIntervalSec (cfg_Billing (set_Config (dm_settings d)))
  | None => sc_BrokerURL (set_Server (dm_settings d)) = EmptyString
  end /\
  px_SealIssuer (fr_proxy fr) = Some (on_chain (SealIssuer_of (mkScope (Some (cc_ChainID ch)) (hex_to_address (cc_TappRegistry ch)) provider (KmsProvider cl))
    (getenv "BACKEND_APP_NAME"))).
Proof.
  intros Hb E. unfold start_daemon in E. apply bind_Ok in E as (cfg & w1 & Ec & E). unfold lift_res in Ec. injection Ec as Ec <-.
  apply bind_Ok in E as (u & w2 & _ & E). apply bind_Ok in E as (b & w3 & Eb & E). apply bind_Ok in E as (pr & w4 & _ & E). cbv zeta in E.
  apply bind_Ok in E as (at' & w5 & _ & E). apply bind_Ok in E as (t & w6 & _ & E). injection E as <- _. cbv zeta. cbn [dm_settings dm_booted dm_handler dm_front].
  destruct (load_settings_chain _ _ Ec) as [Hno _]. pose proof (boot_identity_of getenv _ _ _ _ Hb Hno Eb) as (Hpa & Hse & Hca & Hid & Hsg & _).
  pose proof Eb as (keys & wa & wb & Ek & En & _)%boot_Ok. apply NewClient_Ok in En as (_ & _ & Ht & _).
  assert (cc_TappRegistry keys.1 = cc_TappRegistry (cfg_Chain (set_Config cfg))) as Htr.
  { destruct keys as [cc' ev]. apply take_keys_Ok in Ek as (k & cache & wc & _ & Ek). cbn [fst]. case_bool_decide; [|by destruct Ek as [_ ->]].
    by destruct Ek as (pk & _ & _ & ->). }
  rewrite Htr in Ht. unfold build_front. cbv zeta.
  cbn [fr_booted fr_proxy fr_opts fr_console px_billing px_providerAddress o_ProviderAddress co_provider co_proxy px_sealKey px_broker px_SealIssuer proxy_handler
    front_facilities fa_sealKey fa_broker fa_SealIssuer billing_handler eh_signer eh_providerAddress].
  rewrite Hsg, Hpa. split_and!; try done.
  - unfold broker_for. by case_bool_decide.
  - unfold issuer_scope. rewrite Ht. unfold client_ChainID in Hid. rewrite Hid. unfold ProviderAddress in Hpa. by rewrite Hpa.
Qed.

End StartProperties.

(** ** The daemon's generator *)

Section Generator.
Context `{Keccak} `{Ecdsa} `{SimpleFold} {C : Type} `{DaytonaHTTP C} `{BrokerHTTP C} `{SessionScan}.

(** The generator started on the billing handler, with Daytona as the runtime's
    view and the broker told of phantoms. [cmd/billing/main.go:593-593 main] *)
Definition daemon_generator (pages : nat) (d : daemon C) (between : list (world C -> world C)) : M C (gmap string nat) :=
  RunGenerator (H0 := daytonaBillable pages) (dm_handler d) true (Some (BrokerDeregister (fr_proxy (dm_front d)))) between.

(** Telling the broker leaves every other session and the queue alone, as the
    meter's theorem asks of the hook. *)
Lemma deregister_aside sid q px : hook_aside sid q (Some (BrokerDeregister px : string -> M C unit)).
Proof. intros f [= <-] x _. unfold BrokerDeregister. destruct (px_broker px); unfold deregisterSession; guarantee. Qed.

End Generator.

Module FrontExamples.
Import Toy IdentityExamples TeeExamples KeysExamples InfoExamples SettingsExamples.

(** The rest of the world a daemon over the toy registry sees: a Daytona with no
    sandbox, no broker, no image registry. *)
#[export] Instance empty_daytona : DaytonaHTTP registry := fun _ _ _ c => (Ok (404, POther), c).
#[export] Instance deaf_broker : BrokerHTTP registry := {| post_session _ c := (Ok 200, c); delete_session _ _ c := (Ok 200, c) |}.
#[export] Instance no_crane : Crane registry := {|
  crane_Digest _ c := (Err EIO, c); crane_Config _ c := (Err EIO, c); crane_Head _ c := (HeadErr, c); crane_Copy _ _ c := (Err EIO, c);
  crane_Tag _ _ c := (Err EIO, c); crane_ListTags _ c := (Err EIO, c); crane_Delete _ c := (Err EIO, c)
|}.
#[export] Instance no_keygen : KeyGen registry := {| gen_key c := (Err EIO, c); rand_seal c := (Err EIO, c); compress_pub _ := []; pub_ok _ := false |}.
#[export] Instance no_upstream : Upstream registry := fun _ c => (Err EIO, c).
#[export] Instance quiet_node : EthNode registry := {|
  TransactionReceipt _ c := (Ok None, c); NonceAt _ c := (Ok 0, c); BlockNumber c := (Ok 100, c); HeaderTime _ c := (Ok 1000, c);
  FilterLogs _ _ _ c := (Ok [], c)
|}.
#[export] Instance empty_catalog : RegistryV2 registry := {| v2_catalog c := (Ok (Ok []), c); v2_tags _ c := (Ok [], c) |}.
#[export] Instance toy_tls : TappTLS registry := {| rpc_GetAppTlsCert _ _ c := (Ok (true, "CERT", "KEY"), c); X509KeyPair _ _ := Ok tt |}%string.
#[export] Instance no_block_reads : BlockReads registry := {|
  n_ChainID c := (Err EIO, c); n_Header _ c := (Err EIO, c); b_TappRegistry _ c := (Err EIO, c); b_AppInfo _ _ c := (Err EIO, c);
  b_ServiceAt _ _ c := (Err EIO, c); Issuer.b_KmsBindings _ _ c := (Err EIO, c); b_ActiveAt _ _ c := (Err EIO, c); deadline c := (Err EIO, c)
|}.

Definition around : surroundings registry :=
  mkSurroundings registry (fun _ => Some ("http", "node:8545")) (fun s => s) (ret (inl (addr_hex 4096))) (fun c => (Ok (addr_hex 4096), c))
    (fun _ _ c => (Ok false, c)) (fun c => (Ok [], c)) (fun _ c => (Ok [], c)) 5.

Definition daemon_src : sources :=
  mkSources (environment [("DAYTONA_API_URL", "http://daytona"); ("DAYTONA_ADMIN_KEY", "key"); ("RPC_URL", "http://node:8545/key");
    ("SETTLEMENT_CONTRACT", addr_hex 99); ("TAPP_REGISTRY", addr_hex 171); ("CHAIN_ID", "16601"); ("PROVIDER_KEY_SOURCE", "kms");
    ("ATTESTOR_APP_ID", "attestor"); ("ATTESTOR_INSTANCE", "9:" +:+ addr_hex 4096); ("TLS_ENABLED", "true"); ("BROKER_URL", "http://broker")])
    (fun _ => None).

Definition came_up : res (daemon registry) * world registry := start_daemon env0 around daemon_src used_at.

#[local] Strategy expand [came_up].

Definition no_settings : Settings := or_default (load_settings daemon_src).
Definition no_prices : Prices := mkPrices 0 0 0 0.

Definition no_daemon : daemon registry :=
  mkDaemon registry no_settings booted0 no_prices (billing_handler (cfg_Billing (set_Config no_settings)) no_prices 0 (bt_signer booted0)) None
    (build_front env0 around no_settings booted0 no_prices None).

Definition daemon_of (x : res (daemon registry) * world registry) : daemon registry := match x.1 with Ok d => d | _ => no_daemon end.

Definition daemon0 : daemon registry := daemon_of came_up.

Lemma came_up_ok : match came_up.1 with Ok _ => true | _ => false end = true.
Proof. vm_compute. reflexivity. Qed.

Lemma daemon0_up : came_up = (Ok daemon0, came_up.2).
Proof. unfold daemon0, daemon_of. pose proof came_up_ok as E. revert E. generalize came_up. intros [[d| |] w]; [done|discriminate..]. Qed.

Lemma daemon_is_one_provider_witness :
  let cl := bt_client (dm_booted daemon0) in
  let key := client_ProviderKey cl in
  let provider := key_addr key in
  let ch := cfg_Chain (set_Config (dm_settings daemon0)) in
  let fr := dm_front daemon0 in
  load_settings daemon_src = Ok (dm_settings daemon0) /\
  eh_signer (dm_handler daemon0) = mkSigner key (cc_ChainID ch) (hex_to_address (cc_ContractAddress ch)) provider /\
  eh_providerAddress (dm_handler daemon0) = addr_hex provider /\ SettlerAddress cl = provider /\
  fr_booted fr = dm_booted daemon0 /\ px_billing (fr_proxy fr) = dm_handler daemon0 /\ px_providerAddress (fr_proxy fr) = addr_hex provider /\
  o_ProviderAddress (fr_opts fr) = addr_hex provider /\ co_provider (fr_console fr) = provider /\ co_proxy (fr_console fr) = fr_proxy fr /\
  px_sealKey (fr_proxy fr) = Some key /\
  match px_broker (fr_proxy fr) with
  | Some b => bc_providerKey b = key /\ bc_providerAddr b = addr_hex provider /\ bc_voucherIntervalSec b = bc_VoucherIntervalSec (cfg_Billing (set_Config (dm_settings daemon0)))
  | None => sc_BrokerURL (set_Server (dm_settings daemon0)) = EmptyString
  end /\
  px_SealIssuer (fr_proxy fr) = Some (on_chain (SealIssuer_of (mkScope (Some (cc_ChainID ch)) (hex_to_address (cc_TappRegistry ch)) provider (KmsProvider cl))
    (env0 "BACKEND_APP_NAME"))).
Proof. exact (daemon_is_one_provider env0 around daemon_src used_at daemon0 came_up.2 daemon_bytes daemon0_up). Defined.

(** It is the KMS key, the attestor's authorization is stored, and the broker is
    configured. *)
Example daemon0_parts :
  client_ProviderKey (bt_client (dm_booted daemon0)) = 12288 /\ is_Some (px_broker (fr_proxy (dm_front daemon0))) /\
  fr_pins (dm_front daemon0) = Some tt /\ po_rpcOrigin (fr_posted (dm_front daemon0)) = "http://node:8545"%string /\
  (as_key <$> dm_attestor daemon0) ≫= (fun k => r_identities (w_redis came_up.2) !! k) = Some (instance_text 9 4096).
Proof. vm_compute. split_and!; try done. by eexists. Qed.

(** A stranger asks for somebody's sandbox to be stopped, without a signature. *)
Definition bare (method path : string) : request := mkReq method path ∅ BEmpty.

#[export] Existing Instance SessionExamples.scan_once.
#[export] Existing Instance AuthExamples.one_message.
#[export] Existing Instance AccessExamples.production.
#[export] Existing Instance GateExamples.plain_names.

Definition stop_request : request := bare "POST" "/api/sandbox/sb1/stop".

Lemma stop_unsigned : unsigned (dm_front daemon0) stop_request used_at.
Proof. intros id wallet w'. discriminate. Qed.

Lemma owner_looks : looks (fr_owner (dm_front daemon0)).
Proof. rewrite (start_owner env0 around daemon_src used_at daemon0 came_up.2 daemon0_up). apply looks_ret. Qed.


(** VOUCHER_INTERVAL_SEC=0 is accepted, and the daemon that came up with it dies
    in its generator. *)
Definition zero_period_src : sources :=
  mkSources (fun e => if bool_decide (e = "VOUCHER_INTERVAL_SEC") then "0" else src_env daemon_src e) (fun _ => None).

Definition zero_period : res (daemon registry) * world registry := start_daemon env0 around zero_period_src used_at.

Theorem zero_period_kills :
  match zero_period.1 with Ok _ => true | _ => false end = true /\
  (daemon_generator 5 (daemon_of zero_period) [] zero_period.2).1 = Panic.
Proof. vm_compute. split; reflexivity. Qed.

End FrontExamples.
